(* ===== verification/_CoqProject ===== *)
-Q . S2P
Prelude.v
Ring.v
Bits.v
ThreadDefs.v
ThreadFacts.v
Sched.v
SchedFacts.v
SchedCorrect.v
ThreadApi.v
ThreadApiFacts.v
Mutex.v
MutexFacts.v
Examples.v
Ipi.v
IpiFacts.v
Breakpoint.v
Vm.v
DpcFacts.v
Des.v
DesFacts.v
Rc4.v
Sha1.v
Sha1Facts.v
Queue.v
Malloc.v
MallocFacts.v
Sfcx.v
SfcxFacts.v
SfcxAccess.v
Config.v
Smc.v
SmcFacts.v
Sound.v
Xb360.v
Xb360Facts.v
XellFacts.v
Console.v
ConsoleFacts.v
GdbHex.v
GdbFacts.v
GdbPacket.v
GdbStub.v
GdbStubFacts.v
Elf.v
ElfFacts.v
Boot.v
BootFacts.v
Iso.v
IsoFacts.v
IsoOpen.v
IsoMount.v
Newlib.v
NewlibFacts.v
NewlibDir.v
NewlibPath.v
NewlibIso.v
NewlibIsoFacts.v
NewlibDirFacts.v
Syscalls.v
SyscallsFacts.v
Ata.v
AtaDrive.v
AtaDma.v
AtaFacts.v
AtaDvd.v
AtaExamples.v
Xe.v
XeGpu.v
XeSync.v
XeFacts.v
XeMarks.v
XeCalls.v
XeState.v
XeDraw.v
XeOps.v
XeInit.v
XeRing.v
XeVb.v
XeFormat.v
XeExamples.v
