(* ===== verification/Prelude.v ===== *)
(** * libxenon: a verified model

    libxenon is the bare-metal library of the Xbox 360 homebrew tool chain
    (src/libxenon, C, built for 32-bit big-endian PowerPC, plain char
    unsigned).  This library models its own core logic and proves what makes
    it correct.  Vendored code (lwIP, libfdt, the USB stack), device I/O
    without state of its own and generated data are left out.

    ** The program's parts

    - drivers/threads: a preemptive scheduler for six hardware threads, thread
      interface, inter-processor and deferred calls; mutexes and condition
      variables on top of it.
    - drivers/crypt: DES, RC4, SHA-1 and HMAC.
    - drivers/nocfe: a memory pool and doubly linked queues.
    - drivers/xenon_nand: the NAND flash controller, and the console's
      settings kept in flash.
    - drivers/xenon_smc: messages to the system management controller.
    - drivers/xb360: the key vault (flash + HMAC + RC4 + fuses), replacing the
      boot loader in flash, the console's type (PCI + SMC).
    - drivers/console: a text console on a tiled frame buffer.
    - drivers/ppc/vm.c: mappings of user pages; drivers/threads/breakpoint.c:
      the breakpoints of the debugger; drivers/xenon_sound: the sound buffer.
    - drivers/threads/gdb.c, gdbroutines.c: a GDB stub on the thread pool and
      the breakpoints, over a serial line or the network.
    - drivers/elf: loading a program over the running one, its arguments up to
      main (startup/xenon), booting a kernel with an initial disk and a device
      tree; drivers/iso9660: a read-only file system on a cached disc.
    - drivers/diskio: the hard disk and the DVD drive, by programmed transfers and
      by transfers to memory.
    - drivers/xenos/xe.c: the graphics driver: copies of the chip's state, the
      command buffers through which it is sent, draws, vertex buffers,
      textures, shader files, start-up.
    - drivers/newlib: what the C library calls: devices and descriptors, files,
      directories, paths, the clock, the lock of malloc.

    ** How code is modelled

    Integers are [Z]; where a C type wraps, the wrap-around is written out
    ([u8], [u32], [s32], ...).  Structs are records with functional update
    [x <| f := v |>].  Stateful code is a function of the state monad [M],
    whose [outcome] is a value with the new state, [Fault] (a null or wild
    pointer, an index outside an array), [Blocked] (a spin lock held by
    somebody else) or [Diverge] (a loop out of fuel).  Theorems that code
    returns say so: [runs m s Q] states that [m] ends in [Ok] with [Q].
    Messages to the serial port and delays are left out everywhere.

    Hardware and code outside the sources are parameters: a flash controller
    is an instance of [Nand] and the theorems assume [NandLaws], its documented
    commands; the management controller is an instance of [Mmio] with
    [SmcLaws] (its mailbox) and [AnaLaws] (its firmware's registers); the heap,
    the font, the fuses and the contents of uninitialised arrays are functions.
    The vendored library of device trees (drivers/libfdt, by the device tree
    compiler project) is an interface, [fdt_ops], and what the boot code relies
    on is its documented contract, [FdtLaws].
    Each class has an instance in this library, on which every theorem with
    hypotheses is applied.

    ** Files

    - [Prelude]: records, machine integers, the monad, [runs], list lemmas,
      the hint database [xenon]; [Bits]: bit operations on words and bytes;
      [Ring]: circular doubly linked lists as lists.
    - [ThreadDefs]: the structs of threads.h, the world (processors, pool,
      lists, locks), accesses through pointers; [Sched]: c_threads.c from
      dump_thread_context to system_call_handler; [ThreadApi]: the rest of it
      (interrupt sources, IPIs, creation, suspension, migration, start-up,
      DPCs); [Ipi]: its code that runs on several processors (idle loop, IPI
      procedures, quantum, shutdown) and the executions of an inter-processor
      call; [Mutex]: mutex.c and cond.c.
      [ThreadFacts], [SchedFacts], [SchedCorrect], [ThreadApiFacts],
      [MutexFacts], [DpcFacts], [IpiFacts]: their theorems; [Examples]: a machine on which
      they are applied.
    - [Des], [DesFacts]; [Rc4]; [Sha1], [Sha1Facts] (with FIPS 180 SHA-1 and
      RFC 2104 HMAC as reference definitions).
    - [Queue]: lib_queue.c; [Malloc], [MallocFacts]: lib_malloc.c on a memory
      of words.
    - [Sfcx], [SfcxFacts], [SfcxAccess]: xenon_sfcx.c, its pure parts, and its
      protocol against the abstract controller [nand]; [Config]:
      xenon_config.c.
    - [Smc], [SmcFacts]: xenon_smc.c and xenon_gpio.c, pci/io.c, and the
      abstract mailbox [smc].
    - [Xb360], [Xb360Facts], [XellFacts]: xb360.c and xenon_secotp.c, the key
      vault, the boot loader update.
    - [Console], [ConsoleFacts]: console.c.
    - [Breakpoint]: breakpoint.c; [Vm]: vm.c; [Sound]: sound.c, each with its
      theorems.
    - [GdbHex], [GdbFacts], [GdbPacket]: gdbroutines.c, numbers and packets on
      a line that may damage them; [GdbStub], [GdbStubFacts]: gdb.c and the
      exception entry of c_debug.c over the thread world and the breakpoints.
    - [Elf], [ElfFacts]: the loader of elf.c on a memory of bytes, with the
      start-up code that finds the arguments; [Boot], [BootFacts]: its kernel
      part over an interface to device trees ([FdtLaws]).
    - [Iso], [IsoFacts], [IsoOpen]: iso9660.c on a disc of sectors; [IsoMount]:
      the tree that mounting builds from the path table.
    - [Newlib], [NewlibFacts]: the devices and descriptors of newlib.c;
      [NewlibDir], [NewlibPath], [NewlibDirFacts]: its working directory and
      directory streams, against devices of the class [DirDevice]; [NewlibIso],
      [NewlibIsoFacts]: discs as devices of that library.
    - [Ata]: ata.c on a bus with memory; [AtaDrive]: drives as ATA describes them
      (the class [DriveLaws]) and the rules for running pieces of the driver;
      [AtaDma]: the table of memory regions; [AtaFacts]: the hard disk;
      [AtaDvd]: the DVD drive, down to the disc that [Iso] reads;
      [AtaExamples]: drives on which they are applied.
    - [Xe], [XeOps], [XeInit]: xe.c on a device record with its two command
      buffers and the objects in memory; [XeGpu]: the chip as the class
      [CommandProcessor] (its packets) and the rules for code that sends it
      words; [XeSync], [XeFacts], [XeMarks], [XeCalls], [XeState]: what is sent
      and what marks it dirty, piece by piece; [XeDraw]: programs of calls and
      draws; [XeRing], [XeVb], [XeFormat]: the ring and start-up, the pool
      of vertex buffers, textures and vertex formats; [XeExamples]: a
      device on which they are applied.
    - [Syscalls], [SyscallsFacts]: xenon_syscalls.c, with the lock of malloc as
      threads whose steps interleave.

    ** What the theorems show

    - Scheduling: a pass over well-formed thread lists ends, elects a ready
      thread of the highest boosted priority, boosts exactly the losers and
      keeps the lists well formed; a system call saves the old context and
      resumes the elected thread; the decrementer leaves a masked processor
      alone.  Creation, its failure, and histories of suspensions and
      resumptions against a counter.  Queueing a deferred call, with the case
      in which it never returns.
    - Inter-processor calls: in every order the six processors can run in, a
      call is never stuck, ends within eight steps, and has run its procedure
      once on each processor when it returns.  A shutdown returns when all the
      other processors are parked; a start after it never ends.
    - Mutexes: waiting, returning, handing over, termination of the release,
      and the waiter that keeps a mutex for ever.
    - Cryptography: decryption inverts encryption for every key and block
      (DES-EDE with two and three keys, CBC, RC4); any split of a message into
      updates gives the standard's SHA-1 and HMAC.
    - Memory pool: an invariant every operation keeps (sealed nodes that tile
      the arena, allocated blocks disjoint and aligned); what kmalloc returns,
      what kfree gives back, and the request size that wraps.
    - Queues refine lists.
    - Flash: geometry set-up, spare data round trip, one-bit errors detected,
      erase/write/read of a block round trip.  Settings are loaded from their
      page.
    - Management controller: answers are found behind notices; registers of
      the analog chip read back what was written.
    - Vault: the code is 0 exactly when the header authenticates the decrypted
      body; keys are copied from inside the vault; the DVD key of a vault
      sealed under the console's key is delivered.
    - Boot loader: without a loader in flash nothing changes; with one, its
      bytes and no others are replaced, spare data and error correction
      included.
    - Console: pixels have distinct places inside the frame buffer, printing
      any text stays inside it, characters and scrolling change the pixels
      they should.
    - Breakpoints refine a finite map patched into the code; user mappings
      enter, change and clear exactly their pages; a client that respects the
      free space of the sound buffer overwrites nothing unplayed.

    - Debugger: packets are delivered over a line that damages some of them;
      a break, a first packet and an exception stop the same threads, and
      continuing leaves every thread as it was; memory is read and breakpoints
      are set through the commands, up to the longest answer the stub can send.
    - Loader: every allocated section is in its place and nothing else is
      written; the arguments given are the ones main receives; a kernel gets
      its command line, disk and tree.
    - Disc: a disc is mounted, and then opening a path of it through the C
      library and reading, in any sequence of reads and seeks, gives the bytes
      of the file on the disc; closing gives the descriptor and its memory
      back, and one array of the directory that was searched is never freed.
    - Disks: sectors written are read back, into exactly the buffer, for buffers
      that cross 64 KB boundaries too; what the DVD driver delivers is the disc
      that the theorems on the file system assume; errors are not noticed by
      the callers.
    - Graphics: a draw is carried out by the chip with everything the program
      has set in its registers, whatever it was before and in whatever order
      the calls were made; a kick hands over exactly the words put since the
      last; vertex data comes out of the list of buffers in the order it was
      put in; the words of start-up are whole packets.
    - C library: descriptors refine a finite map of open files, and those the
      functions fail to check reach outside the tables; chdir resolves a
      path as its names say; directory streams are lists with a position.
    - Lock of malloc: in every interleaving one thread has it, its count is
      right, no assertion fails, and no threads wait for each other for ever.

    ** Fuel

    Walks over thread lists have the size of the pool plus one as fuel
    ([walk_fuel]); the loops of the memory pool take the number of nodes; the
    theorems show these are enough for well-formed states.  Loops that poll a
    device take a fuel the theorems require to exceed the device's largest
    delay; the loops of SHA-1 take the length of the data, since each round
    uses up a block.  The loader takes one unit per section, whose number is
    a half word; reading a packet takes one unit per character that the line
    still brings; reading a directory one unit per record; a walk over the pool
    of vertex buffers one unit per buffer.

    ** Not modelled

    Calls of hardware set-up in threading_init (c_threads.c); self-tests
    (des.c, lib_malloc.c); file handling and messages (try_rawflash, print_key).
    The jump into the relocated loader and reading a program from a file
    (elf.c); unmounting a disc (iso9660.c); the functions of newlib.c that only
    return a constant, and leaving the program (xenon_exit); the sockets of the
    debugger's network server and the crash dump of its exception handlers.
    Reading a shader from a file (xe.c); the display modes, the training of the
    embedded memory and the monitor's description (xenos.c, edram.c,
    xenos_edid.c), which are tables of register values.  Whole drivers left
    out: processor speed, exceptions, vendored code, USB, UART, network
    bring-up.  Concurrency between processors appears as the locks held in the
    world and, for inter-processor calls and the shutdown, as the interrupt
    handlers of the others run in any order between the pieces of the code that
    waits for them; single instructions are interleaved only in
    [Syscalls]. *)
From stdpp Require Export base tactics numbers list gmap fin_sets.
From Stdlib Require Export ZArith Lia.

#[global] Open Scope Z_scope.

(** ** Functional record update

    C code assigns one field of a struct at a time.  [x <| f := v |>] is the
    struct [x] with field [f] replaced; a record opts in by giving its eta
    expansion as an [Eta] instance, and the setter of each field is derived
    from it. *)

Class Eta (R : Type) := eta : R -> R.
Class Setter {R T} (f : R -> T) := setter : (T -> T) -> R -> R.
Definition set {R T} (f : R -> T) {S : Setter f} : (T -> T) -> R -> R := S.
Arguments set {R T} f {S} _ _ /.

Ltac derive_setter :=
  match goal with
  | |- @Setter ?R ?T ?f =>
      let e := constr:(_ : Eta R) in
      let e := eval cbv delta [eta] in e in
      let e := match e with ?h _ => eval unfold h in e | _ => eval unfold e in e end in
      let e := eval cbv beta in e in
      let p := eval pattern f in e in
      match p with
      | ?g f =>
          let s := eval cbv beta in
            (fun (u : T -> T) (r : R) => g (fun x => u (f x)) r) in
          exact s
      end
  end.
#[global] Hint Extern 0 (Setter _) => derive_setter : typeclass_instances.

Declare Scope xenon_scope.
#[global] Open Scope xenon_scope.

Notation "x <| f := v |>" := (set f (fun _ => v) x)
  (at level 12, left associativity, f at next level, format "x  <| f  :=  v |>")
  : xenon_scope.
Notation "x <| f ::= g |>" := (set f g x)
  (at level 12, left associativity, f at next level) : xenon_scope.

(** ** Machine integers

    Values of C unsigned types are [Z] kept in range by writing the
    wrap-around out; [s32]/[s64] reinterpret a bit pattern as signed. *)

Definition u8 (z : Z) : Z := z mod 2 ^ 8.
Definition u16 (z : Z) : Z := z mod 2 ^ 16.
Definition u32 (z : Z) : Z := z mod 2 ^ 32.
Definition u64 (z : Z) : Z := z mod 2 ^ 64.
Definition s32 (z : Z) : Z := (z + 2 ^ 31) mod 2 ^ 32 - 2 ^ 31.
Definition s64 (z : Z) : Z := (z + 2 ^ 63) mod 2 ^ 64 - 2 ^ 63.

(** C truth value of an integer expression. *)
Definition nz (z : Z) : bool := negb (z =? 0).

(** ** Stateful code that can fail

    [outcome] is what running a piece of C code from a state gives: a value
    with the new state, an access through a null or wild pointer ([Fault]),
    a spin on a lock that is held and that only another processor can release
    ([Blocked]), or a loop that has used up its fuel ([Diverge]). *)

Inductive outcome (S A : Type) : Type :=
  | Ok (a : A) (s : S)
  | Fault
  | Blocked
  | Diverge.
Arguments Ok {S A} _ _.
Arguments Fault {S A}.
Arguments Blocked {S A}.
Arguments Diverge {S A}.

Definition M (S A : Type) : Type := S -> outcome S A.

Definition ret {S A : Type} (a : A) : M S A := fun s => Ok a s.
Definition bind {S A B : Type} (m : M S A) (k : A -> M S B) : M S B := fun s =>
  match m s with
  | Ok a s' => k a s'
  | Fault => Fault
  | Blocked => Blocked
  | Diverge => Diverge
  end.

Notation "x <- m ;; k" := (bind m (fun x => k))
  (at level 100, m at next level, right associativity) : xenon_scope.
Notation "'let*' p := m 'in' k" := (bind m (fun x => match x with p => k end))
  (at level 10, p pattern, m at level 100, k at level 200) : xenon_scope.
Notation "m ;; k" := (bind m (fun _ => k))
  (at level 100, right associativity) : xenon_scope.

Definition get {S : Type} : M S S := fun s => Ok s s.
Definition put {S : Type} (s : S) : M S unit := fun _ => Ok tt s.
Definition gets {S A : Type} (f : S -> A) : M S A := fun s => Ok (f s) s.
Definition modify {S : Type} (f : S -> S) : M S unit := fun s => Ok tt (f s).
Definition fault {S A : Type} : M S A := fun _ => Fault.
Definition blocked {S A : Type} : M S A := fun _ => Blocked.
Definition diverge {S A : Type} : M S A := fun _ => Diverge.
Definition when {S : Type} (b : bool) (m : M S unit) : M S unit :=
  if b then m else ret tt.
Definition of_option {S A : Type} (o : option A) : M S A :=
  match o with Some a => ret a | None => fault end.

(** [for (x in l) body x], left to right. *)
Fixpoint for_each {S A : Type} (l : list A) (body : A -> M S unit) : M S unit :=
  match l with
  | [] => ret tt
  | x :: l' => body x ;; for_each l' body
  end.

(** [do body while (cond)]: the body returns whether to go on. *)
Fixpoint do_while {S A : Type} (fuel : nat) (body : A -> M S (A * bool)) (a : A) : M S A :=
  match fuel with
  | O => diverge
  | Datatypes.S n =>
      let* (a', go_on) := body a in
      if go_on : bool then do_while n body a' else ret a'
  end.

(** [while (cond) body]: [step] returns [None] when the condition is false. *)
Fixpoint while {S A : Type} (fuel : nat) (step : A -> M S (option A)) (a : A) : M S A :=
  match fuel with
  | O => diverge
  | Datatypes.S n =>
      r <- step a ;;
      match r with Some a' => while n step a' | None => ret a end
  end.

(** ** Equations of the monad *)

Section monad_laws.
Context {S A B C : Type}.
Implicit Types (m : M S A) (k : A -> M S B) (s : S).

Lemma bind_ok m k s a s' : m s = Ok a s' -> bind m k s = k a s'.
Proof. by intros H; unfold bind; rewrite H. Qed.

Lemma bind_ok_inv m k s b s'' :
  bind m k s = Ok b s'' -> exists a s', m s = Ok a s' /\ k a s' = Ok b s''.
Proof.
  unfold bind. destruct (m s) as [a s'| | |] eqn:E; [|done..]. eauto.
Qed.

Lemma bind_assoc m k (g : B -> M S C) s :
  bind (bind m k) g s = bind m (fun x => bind (k x) g) s.
Proof. unfold bind. by destruct (m s). Qed.

End monad_laws.

(** Rewrite the leading statement of a block with what it evaluates to. *)
Ltac mstep H := rewrite (bind_ok _ _ _ _ _ H); cbn beta iota.

(** Decompose successful runs of blocks in the hypotheses. *)
Ltac minv :=
  repeat match goal with
  | H : bind _ _ _ = Ok _ _ |- _ =>
      let a := fresh "r" in let s := fresh "w" in let H1 := fresh "Hrun" in
      apply bind_ok_inv in H as (a & s & H1 & H)
  | H : ret _ _ = Ok _ _ |- _ => unfold ret in H; simplify_eq
  | H : Ok _ _ = Ok _ _ |- _ => simplify_eq
  end.

(** ** Total correctness

    [runs m s Q]: from [s] the code runs to its end, and what it returns and
    the state it leaves satisfy [Q]. *)

Definition runs {S A : Type} (m : M S A) (s : S) (Q : A -> S -> Prop) : Prop :=
  exists a s', m s = Ok a s' /\ Q a s'.

Section runs_rules.
Context {S A B : Type}.
Implicit Types (m : M S A) (s : S).

Lemma runs_bind m (k : A -> M S B) s Q :
  runs m s (fun a s' => runs (k a) s' Q) -> runs (bind m k) s Q.
Proof. intros (a & s' & E & (b & s'' & E' & HQ)). exists b, s''. split; [by rewrite (bind_ok _ _ _ _ _ E)|done]. Qed.

Lemma runs_ret (a : A) s (Q : A -> S -> Prop) : Q a s -> runs (ret a) s Q.
Proof. intros H. by exists a, s. Qed.

Lemma runs_get s (Q : S -> S -> Prop) : Q s s -> runs get s Q.
Proof. intros H. by exists s, s. Qed.

Lemma runs_modify f s (Q : unit -> S -> Prop) : Q tt (f s) -> runs (modify f) s Q.
Proof. intros H. by exists tt, (f s). Qed.

Lemma runs_mono m s (Q Q' : A -> S -> Prop) :
  (forall a s', Q a s' -> Q' a s') -> runs m s Q -> runs m s Q'.
Proof. intros H (a & s' & E & HQ). exists a, s'. auto. Qed.

(** A loop over a range: [I i] holds before the round for [i]. *)
Lemma runs_range (I : nat -> S -> Prop) (body : Z -> M S unit) n : forall a s,
  I a s -> (forall i s, (a <= i < a + n)%nat -> I i s -> runs (body (Z.of_nat i)) s (fun _ s' => I (Datatypes.S i) s')) ->
  runs (for_each (Z.of_nat <$> seq a n) body) s (fun _ s' => I (a + n)%nat s').
Proof.
  induction n as [|n IH]; intros a s Ha Hb; cbn [seq fmap list_fmap for_each].
  - exists tt, s. by rewrite Nat.add_0_r.
  - destruct (Hb a s ltac:(lia) Ha) as ([] & s1 & E1 & H1).
    destruct (IH (Datatypes.S a) s1 H1) as ([] & s2 & E2 & H2); [intros i s' Hi; apply Hb; lia|].
    exists tt, s2. rewrite (bind_ok _ _ _ _ _ E1). split; [done|]. by rewrite Nat.add_succ_r.
Qed.

(** A loop that keeps an invariant. *)
Lemma runs_each {X : Type} (I : S -> Prop) (body : X -> M S unit) l : forall s,
  I s -> (forall x s, I s -> runs (body x) s (fun _ s' => I s')) -> runs (for_each l body) s (fun _ s' => I s').
Proof.
  induction l as [|x l IH]; intros s Hs Hb; cbn [for_each]; [by exists tt, s|].
  destruct (Hb x s Hs) as ([] & s1 & E1 & H1). destruct (IH s1 H1 Hb) as ([] & s2 & E2 & H2).
  exists tt, s2. by rewrite (bind_ok _ _ _ _ _ E1).
Qed.
End runs_rules.

(** ** Bounds of the wrap-around *)

Create HintDb xenon discriminated.
#[export] Hint Constants Opaque : xenon.

Lemma u8_range z : 0 <= u8 z < 256.
Proof. unfold u8. change 256 with (2 ^ 8). apply Z.mod_pos_bound. lia. Qed.
Lemma u32_range z : 0 <= u32 z < 2 ^ 32.
Proof. apply Z.mod_pos_bound. lia. Qed.
Lemma u64_range z : 0 <= u64 z < 2 ^ 64.
Proof. apply Z.mod_pos_bound. lia. Qed.
Lemma u8_small z : 0 <= z < 256 -> u8 z = z.
Proof. intros. apply Z.mod_small. lia. Qed.
Lemma u32_small z : 0 <= z < 2 ^ 32 -> u32 z = z.
Proof. intros. by apply Z.mod_small. Qed.
Lemma u64_small z : 0 <= z < 2 ^ 64 -> u64 z = z.
Proof. intros. by apply Z.mod_small. Qed.
Lemma s64_small z : - 2 ^ 63 <= z < 2 ^ 63 -> s64 z = z.
Proof. intros. unfold s64. rewrite Z.mod_small; lia. Qed.
#[export] Hint Resolve u8_range u32_range u64_range : xenon.

(** ** Lists updated in place *)

Section list_alter.
Context {A : Type}.
Implicit Types (l : list A) (f : A -> A).

Lemma lookup_alter_eq_Some l i f x :
  l !! i = Some x -> alter f i l !! i = Some (f x).
Proof. intros H. rewrite list_lookup_alter. by rewrite decide_True, H. Qed.

Lemma lookup_alter_ne_list l i j f : i <> j -> alter f i l !! j = l !! j.
Proof. intros. by rewrite list_lookup_alter_ne. Qed.

Lemma list_alter_at l i f g x : l !! i = Some x -> f x = g x -> alter f i l = alter g i l.
Proof.
  intros H E. apply list_eq. intros j. rewrite !list_lookup_alter.
  case_decide; [|done]. subst. rewrite H. simpl. by rewrite E.
Qed.

Lemma list_alter_twice l i f g : alter f i (alter g i l) = alter (f ∘ g) i l.
Proof.
  apply list_eq. intros j. rewrite !list_lookup_alter. repeat case_decide; try done.
  subst. by destruct (l !! j).
Qed.

Lemma list_alter_self l i f x : l !! i = Some x -> f x = x -> alter f i l = l.
Proof.
  intros H E. apply list_eq. intros j. rewrite !list_lookup_alter.
  case_decide; [|done]. subst. rewrite H. simpl. by rewrite E.
Qed.

Lemma list_alter_insert_same l i f x : alter f i (<[i:=x]> l) = <[i:=f x]> l.
Proof.
  destruct (decide (i < length l)%nat) as [Hi|Hi].
  - apply list_eq. intros j. rewrite list_lookup_alter, !list_lookup_insert.
    repeat case_decide; try done; exfalso; tauto.
  - rewrite !list_insert_ge by lia. apply list_eq. intros j. rewrite list_lookup_alter.
    case_decide; [subst|done]. by rewrite (lookup_ge_None_2 l) by lia.
Qed.

Lemma alter_is_Some l i j f : is_Some (alter f i l !! j) <-> is_Some (l !! j).
Proof. rewrite !lookup_lt_is_Some. by rewrite length_alter. Qed.
End list_alter.
