(* ===== verification/Ring.v ===== *)
(** * Circular doubly linked lists

    The thread lists of [c_threads.c] are rings threaded through the thread
    objects: every member's next pointer leads to its successor, the last
    one's to the first, and the previous pointers lead back.  [ring nx pv l]
    says that the pointer functions [nx] and [pv] describe the ring whose
    members, from the head, are [l]. *)
From S2P Require Import Prelude.

(** Consecutive members of [l] point to each other. *)
Fixpoint chain (nx pv : nat -> option nat) (l : list nat) : Prop :=
  match l with
  | x :: (y :: _) as t => nx x = Some y /\ pv y = Some x /\ chain nx pv t
  | _ => True
  end.

Arguments chain : simpl never.

Definition ring (nx pv : nat -> option nat) (l : list nat) : Prop :=
  NoDup l /\ match l with [] => False | h :: _ => chain nx pv (l ++ [h]) end.

(** A null-terminated doubly linked list. *)
Definition dlist (nx pv : nat -> option nat) (l : list nat) : Prop :=
  NoDup l /\ chain nx pv l /\
  (forall x, last l = Some x -> nx x = None) /\
  (forall x, head l = Some x -> pv x = None).

Definition upd (f : nat -> option nat) (k : nat) (v : option nat) (x : nat) : option nat :=
  if decide (x = k) then v else f x.

Lemma upd_eq f k v : upd f k v k = v.
Proof. unfold upd. by rewrite decide_True. Qed.
Lemma upd_ne f k v x : x <> k -> upd f k v x = f x.
Proof. intros. unfold upd. by rewrite decide_False. Qed.

Section chains.
Implicit Types (nx pv : nat -> option nat) (l : list nat).

Lemma chain_cons nx pv x y l :
  chain nx pv (x :: y :: l) <-> nx x = Some y /\ pv y = Some x /\ chain nx pv (y :: l).
Proof. done. Qed.
Lemma chain_single nx pv x : chain nx pv [x].
Proof. done. Qed.

Lemma chain_app nx pv l1 x l2 :
  chain nx pv (l1 ++ x :: l2) <-> chain nx pv (l1 ++ [x]) /\ chain nx pv (x :: l2).
Proof.
  induction l1 as [|a [|b l1] IH]; simpl in *; [pose proof chain_single nx pv x; tauto| |].
  - rewrite !chain_cons. pose proof chain_single nx pv x. tauto.
  - rewrite !chain_cons, IH. tauto.
Qed.

Lemma chain_tail nx pv x l : chain nx pv (x :: l) -> chain nx pv l.
Proof. destruct l; [done|]. rewrite chain_cons. tauto. Qed.

(** A chain only depends on the next pointers of all members but the last and
    the previous pointers of all members but the first. *)
Lemma chain_ext nx pv nx' pv' l :
  (forall l1 x y l2, l = l1 ++ x :: y :: l2 -> nx' x = nx x /\ pv' y = pv y) ->
  chain nx pv l -> chain nx' pv' l.
Proof.
  induction l as [|x [|y l] IH]; intros E H; [done..|].
  destruct H as (H1 & H2 & H3). destruct (E [] x y l eq_refl) as [E1 E2].
  split_and!; [congruence..|]. apply IH; [|done].
  intros l1 a b l2 Hl. apply (E (x :: l1) a b l2). by rewrite Hl.
Qed.

Lemma chain_frame nx pv k v l :
  k ∉ l -> chain nx pv l <-> chain (upd nx k v) pv l.
Proof.
  intros Hk. split; apply chain_ext; intros l1 x y l2 ->;
    (rewrite upd_ne; [done|]; intros ->; apply Hk; set_solver).
Qed.

Lemma chain_frame_pv nx pv k v l :
  k ∉ l -> chain nx pv l <-> chain nx (upd pv k v) l.
Proof.
  intros Hk. split; apply chain_ext; intros l1 x y l2 ->;
    (rewrite upd_ne; [done|]; intros ->; apply Hk; set_solver).
Qed.

(** The next pointer of the last member is free. *)
Lemma chain_frame_last nx pv l x v :
  x ∉ l -> chain nx pv (l ++ [x]) <-> chain (upd nx x v) pv (l ++ [x]).
Proof.
  intros Hx. split; apply chain_ext; intros l1 a b l2 Hl.
  all: destruct l2 as [|z l2' _] using rev_ind;
    [replace (l1 ++ [a; b]) with ((l1 ++ [a]) ++ [b]) in Hl by (by rewrite <- app_assoc)
    |replace (l1 ++ a :: b :: l2' ++ [z]) with ((l1 ++ a :: b :: l2') ++ [z]) in Hl
       by (by rewrite <- app_assoc)];
    apply app_inj_tail in Hl as [-> ->];
    (rewrite upd_ne; [done|]; intros ->; apply Hx; set_solver).
Qed.

(** The previous pointer of the first member is free. *)
Lemma chain_frame_first nx pv x l v :
  x ∉ l -> chain nx pv (x :: l) <-> chain nx (upd pv x v) (x :: l).
Proof.
  intros Hx. split; apply chain_ext; intros l1 a b l2 Hl.
  all: destruct l1 as [|z l1]; simplify_eq/=;
    (rewrite upd_ne; [done|]; intros ->; apply Hx; set_solver).
Qed.
End chains.

Section rings.
Implicit Types (nx pv : nat -> option nat) (l : list nat).

Lemma ring_nonempty nx pv l : ring nx pv l -> l <> [].
Proof. intros [_ H] ->. done. Qed.

Lemma ring_nodup nx pv l : ring nx pv l -> NoDup l.
Proof. by intros [H _]. Qed.

(** A ring can be entered anywhere. *)
Lemma ring_rotate nx pv l1 l2 : ring nx pv (l1 ++ l2) -> ring nx pv (l2 ++ l1).
Proof.
  destruct l1 as [|a l1], l2 as [|b l2]; rewrite ?app_nil_l, ?app_nil_r; [done..|].
  intros [Hnd H]. split; [by rewrite Permutation_app_comm|].
  simpl in *. change (a :: (l1 ++ b :: l2) ++ [a]) with ((a :: l1 ++ b :: l2) ++ [a]) in H.
  replace ((a :: l1 ++ b :: l2) ++ [a]) with ((a :: l1) ++ b :: (l2 ++ [a])) in H
    by (by simpl; rewrite <- app_assoc).
  apply chain_app in H as [H1 H2].
  replace (b :: (l2 ++ a :: l1) ++ [b]) with ((b :: l2) ++ a :: (l1 ++ [b]))
    by (by simpl; rewrite <- app_assoc).
  apply chain_app. done.
Qed.

(** Following next pointers from a member. *)
Lemma ring_next nx pv l1 x y l2 :
  ring nx pv (l1 ++ x :: y :: l2) -> nx x = Some y /\ pv y = Some x.
Proof.
  intros H. apply ring_rotate in H as [_ H]. simpl in H. rewrite chain_cons in H. tauto.
Qed.

Lemma ring_next_last nx pv h t x :
  ring nx pv (h :: t) -> last (h :: t) = Some x -> nx x = Some h /\ pv h = Some x.
Proof.
  intros [_ H] Hl. apply last_Some in Hl as [l' Hl]. rewrite Hl in H.
  rewrite <- app_assoc in H. simpl in H. apply chain_app in H as [_ H].
  rewrite chain_cons in H. tauto.
Qed.

(** Successor of [x] in the ring [l1 ++ x :: l2]. *)
Lemma ring_succ nx pv l1 x l2 :
  ring nx pv (l1 ++ x :: l2) -> nx x = head (l2 ++ l1 ++ [x]).
Proof.
  intros H. destruct l2 as [|y l2]; simpl.
  - destruct l1 as [|h l1]; simpl.
    + by apply (ring_next_last _ _ _ _ x) in H as [-> _].
    + apply (ring_next_last _ _ h (l1 ++ [x]) x) in H as [-> _]; [done|].
      by rewrite app_comm_cons, last_snoc.
  - by apply ring_next in H as [-> _].
Qed.

Lemma ring_ext nx pv nx' pv' l :
  (forall x, x ∈ l -> nx' x = nx x) -> (forall x, x ∈ l -> pv' x = pv x) ->
  ring nx pv l -> ring nx' pv' l.
Proof.
  intros E1 E2 [Hnd H]. split; [done|]. destruct l as [|h t]; [done|].
  revert H. apply chain_ext. intros l1 x y l2 Hl.
  assert (x ∈ (h :: t) ++ [h] /\ y ∈ (h :: t) ++ [h]) as [Hx Hy] by (rewrite Hl; set_solver).
  split; [apply E1|apply E2]; set_solver.
Qed.

(** Insertion of [x] before the head, as the code writes it:
    x->next = first; x->prev = last; first->prev = x; last->next = x. *)
Lemma ring_insert nx pv h t z x :
  ring nx pv (h :: t) -> last (h :: t) = Some z -> x ∉ h :: t ->
  ring (upd (upd nx x (Some h)) z (Some x)) (upd (upd pv x (Some z)) h (Some x))
       (x :: h :: t).
Proof.
  intros [Hnd Hc] Hz Hx. split; [by constructor|].
  apply last_Some in Hz as [l' Hl].
  assert (Hch : chain nx pv (h :: t)).
  { destruct t as [|b t]; [done|]. rewrite <- app_comm_cons in Hc.
    change (h :: (b :: t) ++ [h]) with ((h :: b :: t) ++ [h]) in Hc.
    rewrite Hl in Hc |- *. rewrite <- app_assoc in Hc. simpl in Hc.
    by apply chain_app in Hc as [? _]. }
  assert (z ∈ h :: t) as Hzin by (rewrite Hl; set_solver).
  assert (h ∉ t) as Hh by by apply NoDup_cons in Hnd as [? _].
  assert (z ∉ l') as Hz'.
  { rewrite Hl in Hnd. apply NoDup_app in Hnd as (_ & Hd & _). intros ?. by apply (Hd z); [|set_solver]. }
  cut (chain (upd (upd nx x (Some h)) z (Some x)) (upd (upd pv x (Some z)) h (Some x))
         (x :: (h :: t) ++ [x])); [done|].
  assert (chain (upd (upd nx x (Some h)) z (Some x)) (upd (upd pv x (Some z)) h (Some x)) (h :: t))
    as Hch'.
  { apply chain_frame_first; [done|]. apply chain_frame_pv; [done|].
    rewrite Hl. apply chain_frame_last; [done|]. rewrite <- Hl. by apply chain_frame. }
  change (x :: (h :: t) ++ [x]) with ([x] ++ h :: (t ++ [x])).
  apply chain_app. split.
  { simpl. rewrite chain_cons, upd_eq, upd_ne, upd_eq by set_solver. done. }
  change (h :: t ++ [x]) with ((h :: t) ++ [x]). rewrite Hl in Hch' |- *. rewrite <- app_assoc. simpl.
  apply chain_app. split; [done|]. simpl.
  rewrite chain_cons, upd_eq, upd_ne, upd_eq by set_solver. done.
Qed.

(** A ring of one: x->next = x->prev = x. *)
Lemma ring_singleton nx pv x : nx x = Some x -> pv x = Some x -> ring nx pv [x].
Proof. intros. split; [apply NoDup_singleton|]. simpl. done. Qed.

(** Unlinking of a member of a ring of at least two, as the code writes it:
    x->next->prev = x->prev; x->prev->next = x->next. *)
Lemma ring_unlink nx pv x m y z :
  ring nx pv (x :: m) -> head m = Some y -> last m = Some z ->
  nx x = Some y /\ pv x = Some z /\
  ring (upd nx z (Some y)) (upd pv y (Some z)) m.
Proof.
  intros [Hnd H] Hy Hz. destruct m as [|y' m]; [done|]. simplify_eq/=.
  assert (Hl : last (y :: m) = Some z) by done.
  apply last_Some in Hl as [l' Hl].
  apply NoDup_cons in Hnd as [Hx Hnd].
  destruct H as (H1 & H2 & H3). split; [done|].
  change (y :: m ++ [x]) with ((y :: m) ++ [x]) in H3. rewrite Hl, <- app_assoc in H3.
  apply chain_app in H3 as [H3 H4]. destruct H4 as (H4 & H5 & _).
  split; [done|]. split; [done|].
  change (chain (upd nx z (Some y)) (upd pv y (Some z)) ((y :: m) ++ [y])).
  assert (z ∉ l') as Hz'.
  { rewrite Hl in Hnd. apply NoDup_app in Hnd as (_ & Hd & _). intros ?. by apply (Hd z); [|set_solver]. }
  assert (y ∉ m) by by apply NoDup_cons in Hnd as [? _].
  assert (chain (upd nx z (Some y)) (upd pv y (Some z)) (y :: m)) as Hc.
  { apply chain_frame_first; [done|]. rewrite Hl. by apply chain_frame_last. }
  rewrite Hl in Hc |- *. rewrite <- app_assoc. apply chain_app. split; [done|].
  simpl. by rewrite chain_cons, !upd_eq.
Qed.
End rings.
