(* ===== verification/Bits.v ===== *)
(** * Words and bytes: the bit operations of the C code

    Values of [unsigned int] and (the code is built for 32 bits) [unsigned
    long] are integers from 0 to 2^32 - 1, bytes integers from 0 to 255.
    [<<] drops the bits that leave the word. *)
From S2P Require Import Prelude.

Declare Scope word_scope.
Notation "x .<< n" := (u32 (Z.shiftl x n)) (at level 41, left associativity) : word_scope.
Notation "x .>> n" := (Z.shiftr x n) (at level 41, left associativity) : word_scope.
Notation "x .& y" := (Z.land x y) (at level 42, left associativity) : word_scope.
Notation "x .^ y" := (Z.lxor x y) (at level 43, left associativity) : word_scope.
Notation "x .| y" := (Z.lor x y) (at level 44, left associativity) : word_scope.
Open Scope word_scope.

(** [~x] on a word. *)
Definition not32 (x : Z) : Z := Z.lxor x 0xFFFFFFFF.
(** [((x) << (n)) | ((x) >> (32 - (n)))] *)
Definition rol (x n : Z) : Z := (x .<< n) .| (x .>> (32 - n)).

Definition is_word (x : Z) : Prop := 0 <= x < 2 ^ 32.
Definition is_byte (x : Z) : Prop := 0 <= x < 2 ^ 8.

(** Four bytes as a big-endian word, and back. *)
Definition get_be (b0 b1 b2 b3 : Z) : Z :=
  (b0 .<< 24) .| (b1 .<< 16) .| (b2 .<< 8) .| b3.
Definition put_be (n : Z) : list Z := [u8 (n .>> 24); u8 (n .>> 16); u8 (n .>> 8); u8 n].

(** [memcpy(&a[i], l, length l)] *)
Definition write_at (i : nat) (l a : list Z) : list Z := take i a ++ l ++ drop (i + length l) a.

(** Arrays of bytes as arrays of big-endian words, and back. *)
Fixpoint words_of (b : list Z) : list Z :=
  match b with
  | b0 :: b1 :: b2 :: b3 :: b => get_be b0 b1 b2 b3 :: words_of b
  | _ => []
  end.
Definition bytes_of (w : list Z) : list Z := w ≫= put_be.

(** ** Bits of results *)

Lemma u32_bits x n : 0 <= n -> Z.testbit (u32 x) n = (n <? 32) && Z.testbit x n.
Proof.
  intros Hn. unfold u32. destruct (Z.ltb_spec n 32).
  - by rewrite Z.mod_pow2_bits_low by lia.
  - by rewrite Z.mod_pow2_bits_high by lia.
Qed.

Lemma u8_bits x n : 0 <= n -> Z.testbit (u8 x) n = (n <? 8) && Z.testbit x n.
Proof.
  intros Hn. unfold u8. destruct (Z.ltb_spec n 8).
  - by rewrite Z.mod_pow2_bits_low by lia.
  - by rewrite Z.mod_pow2_bits_high by lia.
Qed.

Lemma high_bits x k n : 0 <= x < 2 ^ k -> 0 <= k <= n -> Z.testbit x n = false.
Proof.
  intros Hx Hn. destruct (decide (x = 0)) as [->|]; [apply Z.bits_0|].
  apply Z.bits_above_log2; [lia|]. apply Z.log2_lt_pow2; [lia|].
  apply Z.lt_le_trans with (2 ^ k); [lia|]. apply Z.pow_le_mono_r; lia.
Qed.

Lemma bits_range x k : 0 <= k -> 0 <= x -> (forall n, k <= n -> Z.testbit x n = false) -> 0 <= x < 2 ^ k.
Proof.
  intros Hk Hx H. split; [done|]. destruct (decide (x = 0)) as [->|]; [by apply Z.pow_pos_nonneg|].
  apply Z.log2_lt_pow2; [lia|]. destruct (Z.lt_ge_cases (Z.log2 x) k); [done|].
  specialize (H (Z.log2 x) ltac:(lia)). rewrite Z.bit_log2 in H by lia. done.
Qed.

Lemma is_word_u32 x : is_word (u32 x).
Proof. apply u32_range. Qed.
Lemma is_byte_u8 x : is_byte (u8 x).
Proof. apply u8_range. Qed.
Lemma is_byte_word x : is_byte x -> is_word x.
Proof. unfold is_byte, is_word. lia. Qed.

Lemma is_word_lxor x y : is_word x -> is_word y -> is_word (x .^ y).
Proof.
  intros Hx Hy. apply bits_range; [lia|by apply Z.lxor_nonneg; unfold is_word in *; lia|].
  intros n Hn. by rewrite Z.lxor_spec, (high_bits x 32), (high_bits y 32).
Qed.
Lemma is_byte_lxor x y : is_byte x -> is_byte y -> is_byte (x .^ y).
Proof.
  intros Hx Hy. apply bits_range; [lia|by apply Z.lxor_nonneg; unfold is_byte in *; lia|].
  intros n Hn. by rewrite Z.lxor_spec, (high_bits x 8), (high_bits y 8).
Qed.

Lemma is_word_lor x y : is_word x -> is_word y -> is_word (x .| y).
Proof.
  intros Hx Hy. apply bits_range; [lia|by apply Z.lor_nonneg; unfold is_word in *; lia|].
  intros n Hn. by rewrite Z.lor_spec, (high_bits x 32), (high_bits y 32).
Qed.
Lemma is_word_land x y : is_word y -> is_word (x .& y).
Proof.
  intros Hy. apply bits_range; [lia|apply Z.land_nonneg; right; unfold is_word in *; lia|].
  intros n Hn. by rewrite Z.land_spec, (high_bits y 32), andb_false_r.
Qed.
Lemma is_word_shr x n : is_word x -> 0 <= n -> is_word (x .>> n).
Proof.
  intros Hx Hn. unfold is_word in *. rewrite Z.shiftr_div_pow2 by done. split.
  - apply Z.div_pos; [lia|]. by apply Z.pow_pos_nonneg.
  - apply Z.le_lt_trans with x; [|lia]. apply Z.div_le_upper_bound; [by apply Z.pow_pos_nonneg|].
    assert (1 <= 2 ^ n) by (by apply (Z.pow_le_mono_r 2 0)). nia.
Qed.
Lemma is_word_rol x n : is_word x -> 0 <= n <= 32 -> is_word (rol x n).
Proof. intros. apply is_word_lor; [apply is_word_u32|]. apply is_word_shr; [done|lia]. Qed.

#[export] Hint Resolve is_word_u32 is_byte_u8 is_word_lxor is_word_lor is_word_land : xenon.

(** Equality of integers bit by bit, [n] naming the bit and [Hn] its bound. *)
Ltac bitwise n Hn := apply Z.bits_inj'; intros n Hn.

Lemma u32_id x : is_word x -> u32 x = x.
Proof. intros. by apply u32_small. Qed.
Lemma u8_id x : is_byte x -> u8 x = x.
Proof. intros. by apply u8_small. Qed.

(** ** Big-endian words *)

Lemma is_word_get_be a b c d : is_byte d -> is_word (get_be a b c d).
Proof.
  intros. unfold get_be. repeat apply is_word_lor; try apply is_word_u32. by apply is_byte_word.
Qed.

Lemma get_be_bits a b c d n :
  is_byte a -> is_byte b -> is_byte c -> is_byte d -> 0 <= n ->
  Z.testbit (get_be a b c d) n =
    (if n <? 8 then Z.testbit d n else if n <? 16 then Z.testbit c (n - 8)
     else if n <? 24 then Z.testbit b (n - 16) else Z.testbit a (n - 24)).
Proof.
  intros Ha Hb Hc Hd Hn. unfold get_be. rewrite !Z.lor_spec, !u32_bits, !Z.shiftl_spec by lia.
  assert (forall x k, is_byte x -> k < 0 \/ 8 <= k -> Z.testbit x k = false) as Hz.
  { intros x k Hx [Hk|Hk]; [by apply Z.testbit_neg_r|by apply (high_bits x 8)]. }
  destruct (Z.ltb_spec n 8); [rewrite (Hz a), (Hz b), (Hz c) by (done || lia); by rewrite !andb_false_r|].
  destruct (Z.ltb_spec n 16).
  { rewrite (Hz a), (Hz b), (Hz d) by (done || lia). rewrite (proj2 (Z.ltb_lt n 32)) by lia. by rewrite orb_false_r. }
  destruct (Z.ltb_spec n 24).
  { rewrite (Hz a), (Hz c), (Hz d) by (done || lia). rewrite (proj2 (Z.ltb_lt n 32)) by lia. by rewrite !orb_false_r. }
  rewrite (Hz b), (Hz c), (Hz d) by (done || lia). rewrite !andb_false_r, !orb_false_r.
  destruct (Z.ltb_spec n 32); [done|]. rewrite (Hz a) by (done || lia). done.
Qed.

Lemma get_put_be n : is_word n ->
  get_be (u8 (n .>> 24)) (u8 (n .>> 16)) (u8 (n .>> 8)) (u8 n) = n.
Proof.
  intros Hw. bitwise k Hk. rewrite get_be_bits by auto using is_byte_u8.
  destruct (Z.ltb_spec k 8); [rewrite u8_bits by lia; by rewrite (proj2 (Z.ltb_lt k 8))|].
  destruct (Z.ltb_spec k 16).
  { rewrite u8_bits, Z.shiftr_spec by lia. rewrite (proj2 (Z.ltb_lt _ 8)) by lia. simpl. f_equal. lia. }
  destruct (Z.ltb_spec k 24).
  { rewrite u8_bits, Z.shiftr_spec by lia. rewrite (proj2 (Z.ltb_lt _ 8)) by lia. simpl. f_equal. lia. }
  rewrite u8_bits, Z.shiftr_spec by lia. replace (k - 24 + 24) with k by lia.
  destruct (Z.ltb_spec (k - 24) 8); [done|]. simpl. symmetry. apply (high_bits n 32); [done|lia].
Qed.

Lemma put_get_be a b c d :
  is_byte a -> is_byte b -> is_byte c -> is_byte d -> put_be (get_be a b c d) = [a; b; c; d].
Proof.
  intros Ha Hb Hc Hd. unfold put_be.
  assert (forall x k, is_byte x -> 8 <= k -> Z.testbit x k = false) as Hz by (intros; by apply (high_bits x 8)).
  repeat f_equal; bitwise k Hk; rewrite u8_bits by done; rewrite ?Z.shiftr_spec by done;
    rewrite get_be_bits by (done || lia); destruct (Z.ltb_spec k 8); simpl;
    try (by rewrite Hz by done); repeat (case_match; rewrite ?Z.ltb_lt, ?Z.ltb_ge in *; try lia);
    try (f_equal; lia).
Qed.

(** ** Writing into an array *)

Lemma words_of_length n b : length b = (4 * n)%nat -> length (words_of b) = n.
Proof.
  revert b. induction n as [|n IH]; intros b H; [by destruct b|].
  destruct b as [|b0 [|b1 [|b2 [|b3 b]]]]; simpl in H; try lia. cbn. rewrite IH; lia.
Qed.
Lemma bytes_of_length l : length (bytes_of l) = (4 * length l)%nat.
Proof. induction l as [|x l IH]; [done|]. unfold bytes_of in *. cbn. rewrite IH. lia. Qed.

Lemma words_bytes msg n : length msg = (4 * n)%nat -> Forall is_byte msg -> bytes_of (words_of msg) = msg.
Proof.
  revert msg. induction n as [|n IH]; intros msg Hl Hb; [by destruct msg|].
  destruct msg as [|b0 [|b1 [|b2 [|b3 msg]]]]; try (simpl in Hl; lia).
  do 4 (apply Forall_cons in Hb as [? Hb]). cbn [words_of]. unfold bytes_of in *. cbn [mbind list_bind].
  rewrite put_get_be by done. cbn [app]. do 4 f_equal. apply IH; [simpl in Hl; lia|done].
Qed.

Lemma length_write_at i l a : (i + length l <= length a)%nat -> length (write_at i l a) = length a.
Proof. intros H. unfold write_at. rewrite !length_app, length_take, length_drop. lia. Qed.
Lemma take_write_at i l a : (i <= length a)%nat -> take (i + length l) (write_at i l a) = take i a ++ l.
Proof.
  intros H. unfold write_at. rewrite app_assoc. apply take_app_length'. rewrite length_app, length_take. lia.
Qed.
Lemma drop_write_at i l a j : (i + length l <= j)%nat -> (i <= length a)%nat -> drop j (write_at i l a) = drop j a.
Proof.
  intros H Hi. unfold write_at. rewrite app_assoc.
  rewrite drop_app_ge by (rewrite length_app, length_take; lia).
  rewrite length_app, length_take, drop_drop. f_equal. lia.
Qed.
(** Two writes in a row are one. *)
Lemma write_at_app i a b l : (i + length a + length b <= length l)%nat ->
  write_at (i + length a) b (write_at i a l) = write_at i (a ++ b) l.
Proof.
  intros Hl. unfold write_at at 1 3. rewrite take_write_at by lia. rewrite drop_write_at by lia.
  rewrite length_app, <- !app_assoc. do 3 f_equal. f_equal. lia.
Qed.

(** ** Signed words *)

Lemma s32_congr a b : a mod 2 ^ 32 = b mod 2 ^ 32 -> s32 a = s32 b.
Proof. intros H. unfold s32. by rewrite <- (Zplus_mod_idemp_l a), <- (Zplus_mod_idemp_l b), H. Qed.

Lemma s32_mod a : s32 a mod 2 ^ 32 = a mod 2 ^ 32.
Proof. unfold s32. rewrite Zminus_mod_idemp_l. f_equal. lia. Qed.

Lemma s32_value z : - 2 ^ 31 <= z < 2 ^ 31 -> s32 z = z.
Proof. intros H. unfold s32. rewrite Z.mod_small; lia. Qed.

Lemma s32_range z : - 2 ^ 31 <= s32 z < 2 ^ 31.
Proof. unfold s32. pose proof (Z.mod_pos_bound (z + 2 ^ 31) (2 ^ 32) ltac:(lia)). lia. Qed.

Lemma u32_s32 z : 0 <= z < 2 ^ 32 -> u32 (s32 z) = z.
Proof. intros H. unfold u32. rewrite s32_mod. by apply Z.mod_small. Qed.
