(* ===== verification/ThreadDefs.v ===== *)
(** * Threads: data and memory of the threading library

    The objects of [drivers/threads/threads.h] and [mutex.h], the state they
    live in, and the accesses through pointers that the code of
    [c_threads.c], [mutex.c] and [cond.c] is written with.

    - A [THREAD *] is [Some i] for [&ThreadPool[i]] and [None] for [NULL]
      (every thread object lives in the pool); a [PROCESSOR_DATA_BLOCK *] is
      the number of the processor; a [DPC *] and a [MUTEX *] are keys of the
      tables of such objects.
    - A spin lock is a member of [held] while its word is not zero.
    - An access through a null or wild pointer is [Fault]. *)
From S2P Require Import Prelude.

Abbreviation ptr := (option nat).

(** ** The locks of the library: one constructor per lock word *)
Inductive lockid :=
  | LThreadList             (* ThreadListLock *)
  | LIpiGlobal              (* ipi_lock *)
  | LStartup                (* thread_startup_lock *)
  | LProc (p : nat)         (* Processors[p]->Lock *)
  | LSwap (p : nat)         (* Processors[p]->SwapProcessLock *)
  | LIpi (p : nat)          (* Processors[p]->IpiLock *)
  | LDpc (p : nat)          (* Processors[p]->DPCLock *)
  | LMutex (m : nat).       (* mutex->Lock *)

#[global] Instance lockid_eq_dec : EqDecision lockid.
Proof. solve_decision. Defined.

Definition lockid_encode (l : lockid) : nat * nat :=
  match l with
  | LThreadList => (0, 0) | LIpiGlobal => (0, 1) | LStartup => (0, 2)
  | LProc p => (1, p) | LSwap p => (2, p) | LIpi p => (3, p)
  | LDpc p => (4, p) | LMutex m => (5, m)
  end%nat.
Definition lockid_decode (c : nat * nat) : option lockid :=
  match c with
  | (0, 0) => Some LThreadList | (0, 1) => Some LIpiGlobal | (0, 2) => Some LStartup
  | (1, p) => Some (LProc p) | (2, p) => Some (LSwap p) | (3, p) => Some (LIpi p)
  | (4, p) => Some (LDpc p) | (5, m) => Some (LMutex m)
  | _ => None
  end%nat.
#[global] Program Instance lockid_countable : Countable lockid :=
  inj_countable lockid_encode lockid_decode _.
Next Obligation. by intros []. Qed.

(** ** Saved register state *)

Record FPU_VPU_SAVE := mkFPU {
  Fpr : list Z;        (* double Fpr[32], as bit patterns *)
  Fpscr : Z
}.
#[global] Instance eta_FPU : Eta FPU_VPU_SAVE := fun r => mkFPU (Fpr r) (Fpscr r).

Record CONTEXT := mkCONTEXT {
  Msr : Z; Iar : Z; Lr : Z; Ctr : Z;
  Gpr : list Z;        (* Gpr[32] *)
  Cr : Z; Xer : Z;
  FpuVpu : FPU_VPU_SAVE
}.
#[global] Instance eta_CONTEXT : Eta CONTEXT := fun r =>
  mkCONTEXT (Msr r) (Iar r) (Lr r) (Ctr r) (Gpr r) (Cr r) (Xer r) (FpuVpu r).

Definition FPU_zero : FPU_VPU_SAVE := mkFPU (replicate 32 0) 0.
Definition CONTEXT_zero : CONTEXT := mkCONTEXT 0 0 0 0 (replicate 32 0) 0 0 FPU_zero.

(** ** Interrupt handlers, procedures of deferred and inter-processor calls *)

Inductive interrupt_proc :=
  | thread_interrupt_unexpected | thread_interrupt_clock
  | thread_interrupt_ipi_clock | thread_interrupt_ipi
  | thread_interrupt_hal_smm | thread_interrupt_vdp_isr
  | thread_interrupt_spurious.

#[global] Instance interrupt_proc_eq_dec : EqDecision interrupt_proc.
Proof. solve_decision. Defined.

Record DPC := mkDPC {
  Procedure : Z; Param1 : Z; Param2 : Z; Param3 : Z;
  DpcPriority : Z;
  NextDPC : ptr;
  Queued : Z
}.
#[global] Instance eta_DPC : Eta DPC := fun r =>
  mkDPC (Procedure r) (Param1 r) (Param2 r) (Param3 r) (DpcPriority r) (NextDPC r) (Queued r).

(** ** PROCESSOR_DATA_BLOCK: the block on register 13 *)

Record PROCESSOR := mkPROCESSOR {
  RegisterSave : list Z;     (* [32] *)
  LRSave : Z; CTRSave : Z; CRSave : Z; XERSave : Z; IARSave : Z; MSRSave : Z;
  FPUVPUSave : option nat;   (* index in processor_fpu_vpu_blocks *)
  CurrentProcessor : Z;
  Irq : Z;                   (* unsigned char *)
  FirstThread : ptr; LastThread : ptr;
  FirstSwapProcess : ptr; LastSwapProcess : ptr;
  InterruptTable : list interrupt_proc;   (* [0x20] *)
  IpiProc : option Z; IpiContext : Z; IpiIncrement : ptr;
  QuantumEnd : Z;
  CurrentThread : ptr;
  DPCList : ptr; ProcessingDPC : Z
}.
#[global] Instance eta_PROCESSOR : Eta PROCESSOR := fun r =>
  mkPROCESSOR (RegisterSave r) (LRSave r) (CTRSave r) (CRSave r) (XERSave r)
    (IARSave r) (MSRSave r) (FPUVPUSave r) (CurrentProcessor r) (Irq r)
    (FirstThread r) (LastThread r) (FirstSwapProcess r) (LastSwapProcess r)
    (InterruptTable r) (IpiProc r) (IpiContext r) (IpiIncrement r) (QuantumEnd r)
    (CurrentThread r) (DPCList r) (ProcessingDPC r).

Definition PROCESSOR_zero (n : Z) : PROCESSOR :=
  mkPROCESSOR (replicate 32 0) 0 0 0 0 0 0 None n 0 None None None None
    [] None 0 None 0 None None 0.

(** ** THREAD *)

Record THREAD := mkTHREAD {
  Context : CONTEXT;
  ThisProcessor : nat;
  NextThread : ptr; PreviousThread : ptr;
  NextThreadFull : ptr; PreviousThreadFull : ptr;
  NextThreadReady : ptr; PreviousThreadReady : ptr;
  NextThreadMutex : ptr; PreviousThreadMutex : ptr;
  Valid : Z; Priority : Z; PriorityBoost : Z; MaxPriorityBoost : Z;
  ThreadIsRunning : Z; SuspendCount : Z; HandleOpen : Z; ThreadId : Z;
  ThreadTerminated : Z; WaitingForMutex : Z; WaitingInHandler : Z;
  SleepTime : Z;             (* long long *)
  Name : Z;                  (* const char * *)
  StackBase : Z; StackSize : Z
}.
#[global] Instance eta_THREAD : Eta THREAD := fun r =>
  mkTHREAD (Context r) (ThisProcessor r) (NextThread r) (PreviousThread r)
    (NextThreadFull r) (PreviousThreadFull r) (NextThreadReady r) (PreviousThreadReady r)
    (NextThreadMutex r) (PreviousThreadMutex r) (Valid r) (Priority r) (PriorityBoost r)
    (MaxPriorityBoost r) (ThreadIsRunning r) (SuspendCount r) (HandleOpen r) (ThreadId r)
    (ThreadTerminated r) (WaitingForMutex r) (WaitingInHandler r) (SleepTime r) (Name r) (StackBase r) (StackSize r).

(** The object after [memset(&ThreadPool[i], 0, sizeof(THREAD))]. *)
Definition THREAD_zero : THREAD :=
  mkTHREAD CONTEXT_zero 0 None None None None None None None None
    0 0 0 0 0 0 0 0 0 0 0 0 0 0 0.

(** ** MUTEX *)

Record MUTEX := mkMUTEX {
  CurrentLockCount : Z;      (* unsigned int *)
  MaximumLockCount : Z;      (* unsigned int *)
  FirstWaiting : ptr; LastWaiting : ptr
}.
#[global] Instance eta_MUTEX : Eta MUTEX := fun r =>
  mkMUTEX (CurrentLockCount r) (MaximumLockCount r) (FirstWaiting r) (LastWaiting r).

(** ** COND: a condition variable made of three mutexes *)

Record COND := mkCOND {
  cond_lock : ptr; waiting : Z; signals : Z;     (* int *)
  wait_sem : ptr; wait_done : ptr
}.
#[global] Instance eta_COND : Eta COND := fun r =>
  mkCOND (cond_lock r) (waiting r) (signals r) (wait_sem r) (wait_done r).

(** ** Hardware thread: the live registers the code reads or writes *)

Record CPU := mkCPU { msr : Z; fpr : list Z; fpscr : Z; dec : Z }.
#[global] Instance eta_CPU : Eta CPU := fun r => mkCPU (msr r) (fpr r) (fpscr r) (dec r).

(** ** The state of the library *)

Record world := mkWorld {
  cpu : nat;                          (* the processor that runs the code *)
  Cpus : list CPU;                    (* [6] *)
  Processors : list PROCESSOR;        (* [6] *)
  ThreadPool : list THREAD;           (* [MAX_THREAD_COUNT] *)
  ListFirst : ptr; ListLast : ptr;    (* ThreadList *)
  Dpcs : gmap nat DPC;
  Mutexes : gmap nat MUTEX;
  Conds : gmap nat COND;
  Counters : gmap nat Z;              (* the words IpiIncrement points to *)
  FpuBlocks : gmap nat FPU_VPU_SAVE;  (* processor_fpu_vpu_blocks *)
  held : gset lockid;
  live : gset Z;                      (* blocks of the C heap in use *)
  system_time : Z; clock_time : Z; millisecond_clock_time : Z;
  decrementer_ticks : Z; threads_online : Z; threading_init_check : Z;
  wait_ : list Z;                     (* wait[12] of the startup code *)
  mmio : list (Z * Z)                 (* device stores, latest first *)
}.
#[global] Instance eta_world : Eta world := fun r =>
  mkWorld (cpu r) (Cpus r) (Processors r) (ThreadPool r) (ListFirst r) (ListLast r)
    (Dpcs r) (Mutexes r) (Conds r) (Counters r) (FpuBlocks r) (held r) (live r)
    (system_time r) (clock_time r) (millisecond_clock_time r)
    (decrementer_ticks r) (threads_online r) (threading_init_check r) (wait_ r) (mmio r).

Definition MAX_THREAD_COUNT : nat := 256.
Definition THREAD_FLAG_CREATE_SUSPENDED : Z := 1.
Definition DPC_PRIORITY_HIGH : Z := 2.
Definition DPC_PRIORITY_MEDIUM : Z := 1.
Definition DPC_PRIORITY_LOW : Z := 0.

Definition K (A : Type) : Type := M world A.

(** ** Accesses through pointers *)

Definition th_get {A} (p : ptr) (f : THREAD -> A) : K A := fun w =>
  match p with
  | Some i => match ThreadPool w !! i with Some t => Ok (f t) w | None => Fault end
  | None => Fault
  end.
Definition th_upd (p : ptr) (f : THREAD -> THREAD) : K unit := fun w =>
  match p with
  | Some i => match ThreadPool w !! i with
              | Some _ => Ok tt (w <| ThreadPool ::= alter f i |>)
              | None => Fault
              end
  | None => Fault
  end.
Definition pr_get {A} (p : nat) (f : PROCESSOR -> A) : K A := fun w =>
  match Processors w !! p with Some t => Ok (f t) w | None => Fault end.
Definition pr_upd (p : nat) (f : PROCESSOR -> PROCESSOR) : K unit := fun w =>
  match Processors w !! p with
  | Some _ => Ok tt (w <| Processors ::= alter f p |>)
  | None => Fault
  end.
Definition dpc_get {A} (p : ptr) (f : DPC -> A) : K A := fun w =>
  match p ≫= (fun i => Dpcs w !! i) with Some t => Ok (f t) w | None => Fault end.
Definition dpc_upd (p : ptr) (f : DPC -> DPC) : K unit := fun w =>
  match p with
  | Some i => match Dpcs w !! i with
              | Some d => Ok tt (w <| Dpcs ::= <[i := f d]> |>)
              | None => Fault
              end
  | None => Fault
  end.
Definition mx_get {A} (p : nat) (f : MUTEX -> A) : K A := fun w =>
  match Mutexes w !! p with Some t => Ok (f t) w | None => Fault end.
Definition mx_upd (p : nat) (f : MUTEX -> MUTEX) : K unit := fun w =>
  match Mutexes w !! p with
  | Some m => Ok tt (w <| Mutexes ::= <[p := f m]> |>)
  | None => Fault
  end.
Definition cv_get {A} (p : nat) (f : COND -> A) : K A := fun w =>
  match Conds w !! p with Some t => Ok (f t) w | None => Fault end.
Definition cv_upd (p : nat) (f : COND -> COND) : K unit := fun w =>
  match Conds w !! p with
  | Some m => Ok tt (w <| Conds ::= <[p := f m]> |>)
  | None => Fault
  end.
Definition cpu_get {A} (f : CPU -> A) : K A := fun w =>
  match Cpus w !! cpu w with Some c => Ok (f c) w | None => Fault end.
Definition cpu_upd (f : CPU -> CPU) : K unit := fun w =>
  match Cpus w !! cpu w with
  | Some _ => Ok tt (w <| Cpus ::= alter f (cpu w) |>)
  | None => Fault
  end.

Notation "p '->>' f" := (th_get p f) (at level 45, no associativity) : xenon_scope.
Notation "p '->>' f '<<-' v" := (th_upd p (set f (fun _ => v)))
  (at level 45, f at next level, no associativity) : xenon_scope.

(** ** Locks and the interrupt state

    [lock]/[unlock] of [ppc/atomic.S], [thread_disable_interrupts] and
    [thread_enable_interrupts] of [threads.S]; [mtmsrd] with L = 1 writes the
    EE and RI bits only. *)

Definition lock (l : lockid) : K unit := fun w =>
  if decide (l ∈ held w) then Blocked else Ok tt (w <| held ::= fun h => {[ l ]} ∪ h |>).
Definition unlock (l : lockid) : K unit :=
  modify (fun w => w <| held ::= fun h => h ∖ {[ l ]} |>).

Definition EE_RI : Z := 0x8002.
Definition mtmsrd_L1 (v old : Z) : Z := Z.lor (Z.ldiff old EE_RI) (Z.land v EE_RI).
Definition thread_disable_interrupts : K Z :=
  m <- cpu_get msr ;;
  cpu_upd (fun c => c <| msr ::= mtmsrd_L1 0 |>) ;;
  ret (u32 m).
Definition thread_enable_interrupts (m : Z) : K unit :=
  cpu_upd (fun c => c <| msr ::= mtmsrd_L1 m |>).

(** [thread_get_processor_block()]: register 13. *)
Definition thread_get_processor_block : K nat := gets cpu.

(** [std]/[stw] to a device register. *)
Definition store (addr v : Z) : K unit :=
  modify (fun w => w <| mmio ::= cons (addr, v) |>).

(** [free]: releasing NULL does nothing. *)
Definition free (p : Z) : K unit :=
  if p =? 0 then ret tt else modify (fun w => w <| live ::= fun h => h ∖ {[ p ]} |>).
