(* ===== verification/ThreadFacts.v ===== *)
(** * Threads: running code on the thread pool

    Equations for the accesses of [ThreadDefs], phrased with [fv F P i], the
    value of field [F] of thread [i] in the pool [P], so that a read sees
    through the writes to other fields whatever threads alias. *)
From S2P Require Import Prelude ThreadDefs Ring.

Abbreviation pool := (list THREAD).

Definition fv {A} (F : THREAD -> A) (P : pool) (i : nat) : option A := F <$> P !! i.

(** The pointer functions of the three thread lists. *)
Definition link (F : THREAD -> ptr) (P : pool) (i : nat) : option nat := P !! i ≫= F.

Section fields.
Context {A : Type}.
Implicit Types (F : THREAD -> A) (P : pool) (f : THREAD -> THREAD).

Lemma fv_alter_other F P f i j : (forall t, F (f t) = F t) -> fv F (alter f j P) i = fv F P i.
Proof.
  intros H. unfold fv. rewrite list_lookup_alter. case_decide; [|done].
  subst. destruct (P !! i); simpl; congruence.
Qed.

Lemma fv_alter F P f i : fv F (alter f i P) i = fv (F ∘ f) P i.
Proof.
  unfold fv. rewrite list_lookup_alter, decide_True by done. by destruct (P !! i).
Qed.

Lemma fv_alter_ne F P f i j : i <> j -> fv F (alter f j P) i = fv F P i.
Proof. intros H. unfold fv. by rewrite lookup_alter_ne_list. Qed.

Lemma fv_is_Some F P i : is_Some (fv F P i) <-> is_Some (P !! i).
Proof. unfold fv. apply fmap_is_Some. Qed.

Lemma fv_Some F P i v : fv F P i = Some v <-> exists t, P !! i = Some t /\ F t = v.
Proof. unfold fv. rewrite fmap_Some. naive_solver. Qed.

Lemma fv_const F P i v : (forall t, F t = v) -> is_Some (P !! i) -> fv F P i = Some v.
Proof. intros H [t Ht]. unfold fv. rewrite Ht. simpl. by rewrite H. Qed.

Lemma pool_lt P i : is_Some (P !! i) <-> (i < length P)%nat.
Proof. apply lookup_lt_is_Some. Qed.
End fields.

Lemma link_fv F P i j : link F P i = Some j <-> fv F P i = Some (Some j).
Proof. unfold link, fv. destruct (P !! i); simpl; [split; [by intros ->|by intros [=]]|done]. Qed.


Lemma link_alter_other F P f i j :
  (forall t, F (f t) = F t) -> link F (alter f j P) i = link F P i.
Proof.
  intros H. unfold link. rewrite list_lookup_alter. case_decide; [|done].
  subst. destruct (P !! i); simpl; congruence.
Qed.

Lemma link_alter F P f i j v :
  (forall t, F (f t) = v) -> (j < length P)%nat ->
  link F (alter f j P) i = upd (link F P) j v i.
Proof.
  intros H Hj. unfold link, upd. rewrite list_lookup_alter. case_decide.
  - subst. apply lookup_lt_is_Some in Hj as [t ->]. simpl. rewrite decide_True by done. apply H.
  - by rewrite decide_False.
Qed.

Section runs.
Implicit Types (w : world).

Lemma th_get_run {A B} (F : THREAD -> A) w i v (k : A -> K B) :
  fv F (ThreadPool w) i = Some v -> bind (th_get (Some i) F) k w = k v w.
Proof.
  intros (t & Ht & <-)%fv_Some. unfold bind, th_get. by rewrite Ht.
Qed.

Lemma th_upd_run {B} f w i (k : unit -> K B) :
  (i < length (ThreadPool w))%nat ->
  bind (th_upd (Some i) f) k w = k tt (w <| ThreadPool ::= alter f i |>).
Proof.
  intros [t Ht]%lookup_lt_is_Some. unfold bind, th_upd. by rewrite Ht.
Qed.

Lemma pr_get_run {A B} (F : PROCESSOR -> A) w p b (k : A -> K B) :
  Processors w !! p = Some b -> bind (pr_get p F) k w = k (F b) w.
Proof. intros H. unfold bind, pr_get. by rewrite H. Qed.

Lemma pr_upd_run {B} f w p (k : unit -> K B) :
  is_Some (Processors w !! p) ->
  bind (pr_upd p f) k w = k tt (w <| Processors ::= alter f p |>).
Proof. intros [b H]. unfold bind, pr_upd. by rewrite H. Qed.

Lemma th_upd_end f w i :
  (i < length (ThreadPool w))%nat ->
  th_upd (Some i) f w = Ok tt (w <| ThreadPool ::= alter f i |>).
Proof. intros [t Ht]%lookup_lt_is_Some. unfold th_upd. by rewrite Ht. Qed.

Lemma pr_upd_end f w p :
  is_Some (Processors w !! p) -> pr_upd p f w = Ok tt (w <| Processors ::= alter f p |>).
Proof. intros [b H]. unfold pr_upd. by rewrite H. Qed.

Lemma cpu_get_run {A B} (F : CPU -> A) w c (k : A -> K B) :
  Cpus w !! cpu w = Some c -> bind (cpu_get F) k w = k (F c) w.
Proof. intros H. unfold bind, cpu_get. by rewrite H. Qed.

Lemma cpu_upd_run {B} f w (k : unit -> K B) :
  is_Some (Cpus w !! cpu w) ->
  bind (cpu_upd f) k w = k tt (w <| Cpus ::= alter f (cpu w) |>).
Proof. intros [b H]. unfold bind, cpu_upd. by rewrite H. Qed.

Lemma gets_run {A B} (F : world -> A) w (k : A -> K B) : bind (gets F) k w = k (F w) w.
Proof. done. Qed.
Lemma ret_run {A B} (a : A) w (k : A -> K B) : bind (ret a) k w = k a w.
Proof. done. Qed.
Lemma modify_run {B} f w (k : unit -> K B) : bind (modify f) k w = k tt (f w).
Proof. done. Qed.
Lemma lock_run {B} l w (k : unit -> K B) :
  l ∉ held w -> bind (lock l) k w = k tt (w <| held ::= fun h => {[ l ]} ∪ h |>).
Proof. intros H. unfold bind, lock. by rewrite decide_False. Qed.
End runs.

(** The world with another thread pool. *)
Definition with_pool (w : world) (P : pool) : world := w <| ThreadPool := P |>.
Arguments with_pool : simpl never.

Section pool_runs.
Implicit Types (w : world) (P : pool).

Lemma get_pool {A B} (F : THREAD -> A) w P i v (k : A -> K B) :
  fv F P i = Some v -> bind (th_get (Some i) F) k (with_pool w P) = k v (with_pool w P).
Proof. intros H. by apply (th_get_run F (with_pool w P)). Qed.

Lemma upd_pool {B} f w P i (k : unit -> K B) :
  (i < length P)%nat ->
  bind (th_upd (Some i) f) k (with_pool w P) = k tt (with_pool w (alter f i P)).
Proof. intros. by apply (th_upd_run f (with_pool w P)). Qed.

Lemma upd_pool_end f w P i :
  (i < length P)%nat ->
  th_upd (Some i) f (with_pool w P) = Ok tt (with_pool w (alter f i P)).
Proof. intros. by apply (th_upd_end f (with_pool w P)). Qed.

Lemma proc_pool {A B} (F : PROCESSOR -> A) w P p b (k : A -> K B) :
  Processors w !! p = Some b ->
  bind (pr_get p F) k (with_pool w P) = k (F b) (with_pool w P).
Proof. intros. by apply (pr_get_run F (with_pool w P)). Qed.

Lemma with_pool_id w : with_pool w (ThreadPool w) = w.
Proof. by destruct w. Qed.
End pool_runs.

(** Run the leading statement of a block on a pool: a read with its value
    given by [H], a write to a thread of the pool, a read of the processor
    block [H]. *)
Ltac in_pool := first [done | by rewrite !length_alter | rewrite ?length_alter, ?length_insert; lia].
Ltac norm := rewrite ?bind_assoc; cbn beta iota.
Ltac rd H := norm; rewrite (get_pool _ _ _ _ _ _ H); cbn beta iota.
Ltac wr := norm; rewrite upd_pool by in_pool; cbn beta iota.
Ltac pr H := norm; rewrite (proc_pool _ _ _ _ _ _ H); cbn beta iota.
Ltac rt := norm; rewrite ?ret_run; cbn beta iota.
Ltac gt := norm; rewrite gets_run; cbn beta iota.
Ltac md := norm; rewrite modify_run; cbn beta iota.

(** Pools that differ in chosen fields only: [strip] forgets those fields. *)
Definition agree (strip : THREAD -> THREAD) (P Q : pool) : Prop := strip <$> P = strip <$> Q.

#[global] Instance agree_equiv strip : Equivalence (agree strip).
Proof. unfold agree. split; [intros ?|intros ???|intros ?????]; congruence. Qed.

Lemma agree_alter strip P f i : (forall t, strip (f t) = strip t) -> agree strip (alter f i P) P.
Proof.
  intros H. unfold agree. apply list_eq. intros j. rewrite !list_lookup_fmap, list_lookup_alter.
  case_decide; [|done]. subst. destruct (P !! j); simpl; congruence.
Qed.

(** Updates that commute with forgetting preserve agreement. *)
Lemma agree_alter_mono strip f P Q i :
  (forall t, strip (f (strip t)) = strip (f t)) ->
  agree strip P Q -> agree strip (alter f i P) (alter f i Q).
Proof.
  intros Hf H. unfold agree in *. apply list_eq. intros j.
  apply (f_equal (fun l => l !! j)) in H. rewrite !list_lookup_fmap in H.
  rewrite !list_lookup_fmap, !list_lookup_alter. case_decide; [|done]. subst.
  destruct (P !! j) as [t|], (Q !! j) as [t'|]; simplify_eq/=; [|done].
  f_equal. rewrite <- (Hf t), <- (Hf t'). by f_equal; f_equal.
Qed.

Lemma agree_length strip P Q : agree strip P Q -> length P = length Q.
Proof. intros H%(f_equal length). by rewrite !length_fmap in H. Qed.

Lemma agree_fv {A} strip (F : THREAD -> A) P Q i :
  (forall t, F (strip t) = F t) -> agree strip P Q -> fv F P i = fv F Q i.
Proof.
  intros HF H. apply (f_equal (fun l => l !! i)) in H. rewrite !list_lookup_fmap in H.
  unfold fv. destruct (P !! i), (Q !! i); simplify_eq/=; [|done]. f_equal.
  rewrite <- (HF t), <- (HF t0). congruence.
Qed.

Lemma agree_link strip F P Q i :
  (forall t, F (strip t) = F t) -> agree strip P Q -> link F P i = link F Q i.
Proof.
  intros HF H. apply (agree_fv strip F P Q i) in H; [|done].
  unfold fv, link in *. destruct (P !! i), (Q !! i); simplify_eq/=; congruence.
Qed.

Lemma agree_lookup strip P Q i t :
  agree strip P Q -> P !! i = Some t -> exists t', Q !! i = Some t' /\ strip t = strip t'.
Proof.
  intros H Ht. apply (f_equal (fun l => l !! i)) in H. rewrite !list_lookup_fmap, Ht in H.
  destruct (Q !! i) eqn:E; simplify_eq/=. eauto.
Qed.

(** ** Runs that also touch the block of one processor and the heap *)

Definition view (w : world) (p : nat) (L : gset Z) (b : PROCESSOR) (P : pool) : world :=
  w <| live := L |> <| Processors ::= <[p := b]> |> <| ThreadPool := P |>.
Arguments view : simpl never.

Definition free_live (base : Z) (L : gset Z) : gset Z :=
  if base =? 0 then L else L ∖ {[ base ]}.

Section views.
Context (w : world) (p : nat) (Hp : is_Some (Processors w !! p)).
Implicit Types (L : gset Z) (b : PROCESSOR) (P : pool).

Lemma view_proc L b P : Processors (view w p L b P) !! p = Some b.
Proof. apply list_lookup_insert_eq. by apply lookup_lt_is_Some. Qed.

Lemma view_get {A B} (F : THREAD -> A) L b P i v (k : A -> K B) :
  fv F P i = Some v -> bind (th_get (Some i) F) k (view w p L b P) = k v (view w p L b P).
Proof. intros H. by apply (th_get_run F (view w p L b P)). Qed.

Lemma view_upd {B} f L b P i (k : unit -> K B) :
  (i < length P)%nat ->
  bind (th_upd (Some i) f) k (view w p L b P) = k tt (view w p L b (alter f i P)).
Proof. intros. by apply (th_upd_run f (view w p L b P)). Qed.

Lemma view_upd_end f L b P i :
  (i < length P)%nat ->
  th_upd (Some i) f (view w p L b P) = Ok tt (view w p L b (alter f i P)).
Proof. intros. by apply (th_upd_end f (view w p L b P)). Qed.

Lemma view_pr_get {A B} (F : PROCESSOR -> A) L b P (k : A -> K B) :
  bind (pr_get p F) k (view w p L b P) = k (F b) (view w p L b P).
Proof. apply (pr_get_run F (view w p L b P)), view_proc. Qed.

Lemma view_pr_upd {B} f L b P (k : unit -> K B) :
  bind (pr_upd p f) k (view w p L b P) = k tt (view w p L (f b) P).
Proof.
  rewrite (pr_upd_run f (view w p L b P)) by (rewrite view_proc; eauto).
  f_equal. unfold view. cbn. f_equal. apply list_eq. intros j.
  rewrite list_lookup_alter. destruct Hp as [b0 Hb0].
  case_decide as Hj; [|by rewrite !list_lookup_insert_ne].
  subst. by rewrite !list_lookup_insert_eq by (by eapply lookup_lt_Some).
Qed.

Lemma view_free {B} base L b P (k : unit -> K B) :
  bind (free base) k (view w p L b P) = k tt (view w p (free_live base L) b P).
Proof. unfold free, free_live. by destruct (base =? 0). Qed.

Lemma view_gets_clock {B} L b P (k : Z -> K B) :
  bind (gets millisecond_clock_time) k (view w p L b P) =
  k (millisecond_clock_time w) (view w p L b P).
Proof. done. Qed.
End views.

Lemma view_id w p b : Processors w !! p = Some b -> w = view w p (live w) b (ThreadPool w).
Proof. intros H. unfold view. cbn. rewrite list_insert_id by done. by destruct w. Qed.

Lemma view_pool w p L b P : ThreadPool (view w p L b P) = P.
Proof. done. Qed.

Lemma view_with_pool w p L b P Q : with_pool (view w p L b P) Q = view w p L b Q.
Proof. done. Qed.

Ltac vrd Hp H := norm; rewrite (view_get _ _ _ _ _ _ _ _ _ H); cbn beta iota.
Ltac vwr Hp := norm; rewrite view_upd by in_pool; cbn beta iota.
Ltac vpr Hp := norm; rewrite (view_pr_get _ _ Hp); cbn beta iota.
Ltac vpw Hp := norm; rewrite (view_pr_upd _ _ Hp); cbn beta iota.

(** The world with a set of locks held. *)
Definition holding (w : world) (H : gset lockid) : world := w <| held := H |>.
Arguments holding : simpl never.

Lemma holding_id w : holding w (held w) = w.
Proof. by destruct w. Qed.

Lemma view_lock {B} w H p L b P l (k : unit -> K B) :
  l ∉ H -> bind (lock l) k (view (holding w H) p L b P) = k tt (view (holding w ({[l]} ∪ H)) p L b P).
Proof. intros Hl. by rewrite lock_run. Qed.

Lemma view_unlock {B} w H p L b P l (k : unit -> K B) :
  bind (unlock l) k (view (holding w H) p L b P) = k tt (view (holding w (H ∖ {[l]})) p L b P).
Proof. done. Qed.

Lemma alter_insert (B : list PROCESSOR) p f b : B !! p = Some b -> alter f p B = <[p := f b]> B.
Proof.
  intros H. apply list_eq. intros j. rewrite list_lookup_alter, list_lookup_insert.
  pose proof (lookup_lt_Some _ _ _ H). repeat case_decide; subst; try (by rewrite H); naive_solver.
Qed.
