(* ===== verification/Sched.v ===== *)
(** * Threads: the scheduler of [drivers/threads/c_threads.c]

    Context save and restore, the scheduler core with its passes over the
    thread list, deferred procedure calls, and the decrementer and system call
    handlers that run it.  The procedures a DPC calls are a parameter. *)
From S2P Require Import Prelude ThreadDefs Ring.

(** Rounds given to a walk of a thread list: one more than there are thread
    objects, so a walk of a well-formed list never runs out. *)
Definition walk_fuel : nat := S MAX_THREAD_COUNT.

(** ** Saving and restoring a context *)

(** [save_floating_point]: stores the registers, then reads the status through
    register 3, which it leaves there. *)
Definition save_floating_point : K FPU_VPU_SAVE :=
  f <- cpu_get fpr ;;
  s <- cpu_get fpscr ;;
  cpu_upd (fun c => c <| fpr ::= <[3%nat := s]> |>) ;;
  ret (mkFPU f s).

Definition restore_floating_point (b : FPU_VPU_SAVE) : K unit :=
  cpu_upd (fun c => c <| fpscr := Fpscr b |> <| fpr := Fpr b |>).

(** The main registers of the register save area as a context. *)
Definition saved_context (p : PROCESSOR) (f : FPU_VPU_SAVE) : CONTEXT :=
  mkCONTEXT (MSRSave p) (IARSave p) (LRSave p) (CTRSave p)
            (RegisterSave p) (CRSave p) (XERSave p) f.

(** [context] is a local of the caller, passed by value and returned. *)
Definition dump_thread_context (context : option CONTEXT) : K (option CONTEXT) :=
  processor <- thread_get_processor_block ;;
  pthr <- pr_get processor CurrentThread ;;
  match context with
  | Some _ =>
      area <- pr_get processor (fun p => p) ;;
      f <- save_floating_point ;;
      let c := saved_context area f in
      (match pthr with
       | Some _ => pthr ->> Context <<- c
       | None => ret tt
       end) ;;
      ret (Some c)
  | None =>
      (match pthr with
       | Some _ =>
           area <- pr_get processor (fun p => p) ;;
           f <- save_floating_point ;;
           pthr ->> Context <<- saved_context area f
       | None => ret tt
       end) ;;
      ret None
  end.

Definition load_save_area (c : CONTEXT) (p : PROCESSOR) : PROCESSOR :=
  p <| RegisterSave := Gpr c |> <| MSRSave := Msr c |> <| IARSave := Iar c |>
    <| CRSave := Cr c |> <| CTRSave := Ctr c |> <| LRSave := Lr c |> <| XERSave := Xer c |>.

Definition restore_thread_context (context : option CONTEXT) : K unit :=
  processor <- thread_get_processor_block ;;
  pthr <- pr_get processor CurrentThread ;;
  match context with
  | Some c =>
      (match pthr with
       | Some _ => pthr ->> Context <<- c
       | None => ret tt
       end) ;;
      pr_upd processor (load_save_area c) ;;
      restore_floating_point (FpuVpu c)
  | None =>
      match pthr with
      | Some _ =>
          c <- pthr ->> Context ;;
          pr_upd processor (load_save_area c) ;;
          restore_floating_point (FpuVpu c)
      | None => ret tt
      end
  end.

(** ** The scheduler core *)

(** First pass, timer: wake a thread whose sleep time has passed.  The
    difference is taken in 64 bits and read as signed. *)
Definition process_timer (pthr : ptr) : K unit :=
  t <- pthr ->> SleepTime ;;
  if nz t then
    now <- gets millisecond_clock_time ;;
    when (s64 (t - now) <? 0) (pthr ->> SleepTime <<- 0)
  else ret tt.

(** First pass, reaping: free and unlink a terminated thread nobody has a
    handle to. *)
Definition reap (processor : nat) (pthr : ptr) : K unit :=
  base <- pthr ->> StackBase ;;
  free base ;;
  next <- pthr ->> NextThread ;;
  prev <- pthr ->> PreviousThread ;;
  next ->> PreviousThread <<- prev ;;
  prev2 <- pthr ->> PreviousThread ;;
  next2 <- pthr ->> NextThread ;;
  prev2 ->> NextThread <<- next2 ;;
  nextF <- pthr ->> NextThreadFull ;;
  prevF <- pthr ->> PreviousThreadFull ;;
  nextF ->> PreviousThreadFull <<- prevF ;;
  prevF2 <- pthr ->> PreviousThreadFull ;;
  nextF2 <- pthr ->> NextThreadFull ;;
  prevF2 ->> NextThreadFull <<- nextF2 ;;
  first <- pr_get processor FirstThread ;;
  (if decide (pthr = first) then
     n <- pthr ->> NextThread ;; pr_upd processor (set FirstThread (fun _ => n))
   else ret tt) ;;
  last_ <- pr_get processor LastThread ;;
  (if decide (pthr = last_) then
     n <- pthr ->> PreviousThread ;; pr_upd processor (set LastThread (fun _ => n))
   else ret tt) ;;
  pthr ->> Valid <<- 0.

Definition first_pass_body (processor : nat) (pthr : ptr) : K (ptr * bool) :=
  process_timer pthr ;;
  term <- pthr ->> ThreadTerminated ;;
  handle <- pthr ->> HandleOpen ;;
  when ((term =? 1) && (handle =? 0)) (reap processor pthr) ;;
  next <- pthr ->> NextThread ;;
  first <- pr_get processor FirstThread ;;
  ret (next, bool_decide (next <> first)).

Definition first_pass (processor : nat) : K unit :=
  first <- pr_get processor FirstThread ;;
  do_while walk_fuel (first_pass_body processor) first ;;
  ret tt.

(** The swap list: threads other processors handed to this one. *)
Definition swap_in_step (processor : nat) (_ : unit) : K (option unit) :=
  thr <- pr_get processor FirstSwapProcess ;;
  match thr with
  | None => ret None
  | Some _ =>
      thr ->> ThisProcessor <<- processor ;;
      th_upd thr (set Context (set Gpr (<[13%nat := Z.of_nat processor]>))) ;;
      next <- thr ->> NextThread ;;
      prev <- thr ->> PreviousThread ;;
      (match next with Some _ => next ->> PreviousThread <<- prev | None => ret tt end) ;;
      prev2 <- thr ->> PreviousThread ;;
      next2 <- thr ->> NextThread ;;
      (match prev2 with Some _ => prev2 ->> NextThread <<- next2 | None => ret tt end) ;;
      next3 <- thr ->> NextThread ;;
      pr_upd processor (set FirstSwapProcess (fun _ => next3)) ;;
      first <- pr_get processor FirstThread ;;
      last_ <- pr_get processor LastThread ;;
      thr ->> NextThread <<- first ;;
      thr ->> PreviousThread <<- last_ ;;
      first ->> PreviousThread <<- thr ;;
      last_ ->> NextThread <<- thr ;;
      pr_upd processor (set FirstThread (fun _ => thr)) ;;
      ret (Some tt)
  end.

Definition swap_in (processor : nat) : K unit :=
  lock (LSwap processor) ;;
  while walk_fuel (swap_in_step processor) tt ;;
  unlock (LSwap processor).

(** A thread the scheduler may run. *)
Definition is_ready (t : THREAD) : bool :=
  (ThreadTerminated t =? 0) && (SuspendCount t =? 0) && (SleepTime t =? 0) && nz (Valid t).

(** Populating the ready list; the state of the walk is the thread looked at
    and the two ends of [readyList]. *)
Definition ready_body (processor : nat) (st : ptr * (ptr * ptr)) : K (ptr * (ptr * ptr) * bool) :=
  let '(pthr, (rfirst, rlast)) := st in
  ok <- pthr ->> is_ready ;;
  rl <- (if ok : bool then
           match rfirst with
           | None =>
               pthr ->> NextThreadReady <<- pthr ;;
               pthr ->> PreviousThreadReady <<- pthr ;;
               ret (pthr, pthr)
           | Some _ =>
               pthr ->> NextThreadReady <<- rfirst ;;
               pthr ->> PreviousThreadReady <<- rlast ;;
               rfirst ->> PreviousThreadReady <<- pthr ;;
               rlast ->> NextThreadReady <<- pthr ;;
               ret (pthr, rlast)
           end
         else ret (rfirst, rlast)) ;;
  next <- pthr ->> NextThread ;;
  first <- pr_get processor FirstThread ;;
  ret ((next, rl), bool_decide (next <> first)).

Definition populate_ready (processor : nat) : K (ptr * ptr) :=
  first <- pr_get processor FirstThread ;;
  st <- do_while walk_fuel (ready_body processor) (first, (None, None)) ;;
  ret (snd st).

(** Effective priority. *)
Definition prio (t : THREAD) : Z := Priority t + PriorityBoost t.

(** Walk of the ready list for the first thread of the highest priority. *)
Definition elect_body (rfirst : ptr) (st : ptr * ptr) : K (ptr * ptr * bool) :=
  let '(pthr, winThread) := st in
  p1 <- pthr ->> prio ;;
  p2 <- winThread ->> prio ;;
  next <- pthr ->> NextThreadReady ;;
  ret ((next, if p2 <? p1 then pthr else winThread), bool_decide (next <> rfirst)).

Definition elect (rfirst : ptr) : K ptr :=
  pthr <- rfirst ->> NextThreadReady ;;
  st <- do_while walk_fuel (elect_body rfirst) (pthr, rfirst) ;;
  ret (snd st).

(** Priority boost of the threads that did not win. *)
Definition boost (t : THREAD) : THREAD :=
  if PriorityBoost t <? MaxPriorityBoost t
  then t <| PriorityBoost ::= fun b => u8 (b + 1) |> else t.

Definition boost_body (rfirst winThread : ptr) (pthr : ptr) : K (ptr * bool) :=
  (if decide (pthr <> winThread) then th_upd pthr boost else ret tt) ;;
  next <- pthr ->> NextThreadReady ;;
  ret (next, bool_decide (next <> rfirst)).

Definition boost_losers (rfirst winThread : ptr) : K unit :=
  do_while walk_fuel (boost_body rfirst winThread) rfirst ;; ret tt.

Definition thread_schedule_core : K ptr :=
  processor <- thread_get_processor_block ;;
  first_pass processor ;;
  swap_in processor ;;
  rl <- populate_ready processor ;;
  winThread <- elect (fst rl) ;;
  boost_losers (fst rl) winThread ;;
  ret winThread.

(** ** Interrupt request level *)

Definition thread_raise_irql (irql : Z) : K Z :=
  m <- thread_disable_interrupts ;;
  p <- thread_get_processor_block ;;
  irq <- pr_get p Irq ;;
  pr_upd p (set Irq (fun _ => u8 irql)) ;;
  thread_enable_interrupts m ;;
  ret irq.

(** [thread_lower_irql] differs in the message it prints only. *)
Definition thread_lower_irql (irql : Z) : K Z :=
  m <- thread_disable_interrupts ;;
  p <- thread_get_processor_block ;;
  irq <- pr_get p Irq ;;
  pr_upd p (set Irq (fun _ => u8 irql)) ;;
  thread_enable_interrupts m ;;
  ret irq.

Definition thread_spinlock (l : lockid) : K Z :=
  irql <- thread_raise_irql 2 ;;
  lock l ;;
  ret irql.

Definition thread_unlock (l : lockid) (irql : Z) : K unit :=
  unlock l ;;
  thread_lower_irql irql ;;
  ret tt.

(** ** Deferred procedure calls and the handlers *)

Section handlers.
(** [dpc->Procedure(Param1, Param2, Param3)]. *)
Variable call : Z -> Z -> Z -> Z -> K unit.
(** Bound on the DPCs run by one processing of the list. *)
Variable dpc_fuel : nat.

Definition process_dpc_step (processor : nat) (_ : unit) : K (option unit) :=
  dpc <- pr_get processor DPCList ;;
  match dpc with
  | None => ret None
  | Some _ =>
      next <- dpc_get dpc NextDPC ;;
      pr_upd processor (set DPCList (fun _ => next)) ;;
      m <- cpu_get msr ;;
      cpu_upd (set msr (fun v => Z.lor m 0x8000)) ;;
      d <- dpc_get dpc (fun d => d) ;;
      call (Procedure d) (Param1 d) (Param2 d) (Param3 d) ;;
      cpu_upd (set msr (fun _ => m)) ;;
      dpc_upd dpc (set NextDPC (fun _ => None)) ;;
      dpc_upd dpc (set Param1 (fun _ => 0)) ;;
      dpc_upd dpc (set Param2 (fun _ => 0)) ;;
      dpc_upd dpc (set Param3 (fun _ => 0)) ;;
      dpc_upd dpc (set Queued (fun _ => 0)) ;;
      ret (Some tt)
  end.

Definition thread_process_dpc : K unit :=
  processor <- thread_get_processor_block ;;
  lock (LDpc processor) ;;
  pr_upd processor (set ProcessingDPC (fun _ => 1)) ;;
  list <- pr_get processor DPCList ;;
  (match list with
   | Some _ =>
       irql <- thread_raise_irql 2 ;;
       while dpc_fuel (process_dpc_step processor) tt ;;
       thread_lower_irql irql ;; ret tt
   | None => ret tt
   end) ;;
  pr_upd processor (set ProcessingDPC (fun _ => 0)) ;;
  unlock (LDpc processor).

(** Returns the context the caller's local is overwritten with. *)
Definition thread_schedule : K CONTEXT :=
  processor <- thread_get_processor_block ;;
  lock (LProc processor) ;;
  cur <- pr_get processor CurrentThread ;;
  cur ->> ThreadIsRunning <<- 0 ;;
  pthr <- thread_schedule_core ;;
  pthr ->> PriorityBoost <<- 0 ;;
  pr_upd processor (set CurrentThread (fun _ => pthr)) ;;
  pthr ->> ThreadIsRunning <<- 1 ;;
  context <- pthr ->> Context ;;
  unlock (LProc processor) ;;
  processing <- pr_get processor ProcessingDPC ;;
  when (processing =? 0) thread_process_dpc ;;
  ret context.

Definition decrementer_interrupt_handler : K unit :=
  processor <- thread_get_processor_block ;;
  context <- dump_thread_context (Some CONTEXT_zero) ;;
  irq <- pr_get processor Irq ;;
  processing <- pr_get processor ProcessingDPC ;;
  when ((irq <=? 2) && (processing =? 0)) thread_process_dpc ;;
  irq2 <- pr_get processor Irq ;;
  context2 <- (if irq2 <? 2 then c <- thread_schedule ;; ret (Some c) else ret context) ;;
  restore_thread_context context2 ;;
  ticks <- gets decrementer_ticks ;;
  cpu_upd (set dec (fun _ => ticks)).

Definition system_call_handler : K unit :=
  dump_thread_context (Some CONTEXT_zero) ;;
  processor <- thread_get_processor_block ;;
  pr_upd processor (set Irq (fun _ => 0)) ;;
  context <- thread_schedule ;;
  restore_thread_context (Some context).
End handlers.
