(* ===== verification/SchedFacts.v ===== *)
(** * Threads: what the passes of the scheduler core do

    Each walk of [thread_schedule_core] over a ring is shown to terminate
    within [walk_fuel] and to compute a plain function of the list of threads:
    the ready list, the elected thread, the boosted pool, the reaped list. *)
From S2P Require Import Prelude ThreadDefs Ring ThreadFacts Sched.

(** ** The walks, as functions on the list of threads *)

Definition readyb (P : pool) (x : nat) : bool := default false (fv is_ready P x).
Definition ready_of (P : pool) (l : list nat) : list nat :=
  rev (List.filter (readyb P) l).

Definition prio_of (P : pool) (x : nat) : Z := default 0 (fv prio P x).

(** The first member of the highest priority. *)
Fixpoint elect_from (P : pool) (win : nat) (l : list nat) : nat :=
  match l with
  | [] => win
  | x :: l' => elect_from P (if prio_of P win <? prio_of P x then x else win) l'
  end.

Definition strip_ready (t : THREAD) : THREAD :=
  t <| NextThreadReady := None |> <| PreviousThreadReady := None |>.
Definition strip_boost (t : THREAD) : THREAD := t <| PriorityBoost := 0 |>.

(** The rings of a pool. *)
Definition thread_ring (P : pool) (l : list nat) : Prop :=
  ring (link NextThread P) (link PreviousThread P) l.
Definition ready_ring (P : pool) (l : list nat) : Prop :=
  ring (link NextThreadReady P) (link PreviousThreadReady P) l.

Lemma link_ring_lt F G P l x :
  ring (link F P) (link G P) l -> x ∈ l -> (x < length P)%nat.
Proof.
  intros H (l1 & l2 & ->)%list_elem_of_split. apply lookup_lt_is_Some.
  apply ring_succ in H. unfold link in H. destruct (P !! x); [eauto|].
  by destruct l2, l1.
Qed.

Lemma ring_length_lt F G P l : ring (link F P) (link G P) l -> (length l <= length P)%nat.
Proof.
  intros H. rewrite <- (length_seq (length P) 0). apply NoDup_incl_length.
  - rewrite <- NoDup_ListNoDup. by apply ring_nodup in H.
  - intros x Hx%list_elem_of_In. apply in_seq. apply (link_ring_lt _ _ _ _ _ H) in Hx. lia.
Qed.

Lemma fv_readyb P x : (x < length P)%nat -> fv is_ready P x = Some (readyb P x).
Proof. intros [t Ht]%lookup_lt_is_Some. unfold readyb, fv. by rewrite Ht. Qed.

Lemma fv_prio_of P x : (x < length P)%nat -> fv prio P x = Some (prio_of P x).
Proof. intros [t Ht]%lookup_lt_is_Some. unfold prio_of, fv. by rewrite Ht. Qed.

(** ** Populating the ready list *)

Section ready.
Implicit Types (w : world) (P : pool) (R : list nat).

Lemma readyb_agree P Q x : agree strip_ready P Q -> readyb P x = readyb Q x.
Proof. intros H. unfold readyb. f_equal. apply (agree_fv strip_ready); done. Qed.

Lemma agree_ready_threads P Q l : agree strip_ready P Q -> thread_ring Q l -> thread_ring P l.
Proof.
  intros H. apply ring_ext; intros x _; by apply (agree_link strip_ready).
Qed.

(** One round: the thread is put in front of the ready list if it is ready. *)
Lemma ready_step p b w P R x :
  Processors w !! p = Some b -> (x < length P)%nat -> x ∉ R ->
  (R = [] \/ ready_ring P R) ->
  let R' := if readyb P x then x :: R else R in
  exists P',
    ready_body p (Some x, (head R, last R)) (with_pool w P) =
      Ok ((link NextThread P x, (head R', last R')),
          bool_decide (link NextThread P x <> FirstThread b)) (with_pool w P') /\
    agree strip_ready P' P /\ (R' = [] \/ ready_ring P' R').
Proof.
  intros Hb Hx HxR HR R'. unfold ready_body.
  assert (forall Q, agree strip_ready Q P -> fv NextThread Q x = Some (link NextThread P x)) as Hnext.
  { intros Q HQ. rewrite (agree_fv strip_ready _ Q P) by done.
    unfold fv, link. by apply lookup_lt_is_Some in Hx as [t ->]. }
  rd (fv_readyb _ _ Hx). subst R'.
  destruct (readyb P x).
  2:{ exists P. rt. rd (Hnext P (reflexivity _)). by pr Hb. }
  destruct R as [|r R]; simpl.
  - set (P' := alter (set PreviousThreadReady (fun _ => Some x)) x
                 (alter (set NextThreadReady (fun _ => Some x)) x P)).
    assert (agree strip_ready P' P) as HP'.
    { unfold P'. rewrite !agree_alter by done. done. }
    exists P'. split; [|split; [done|right]].
    + wr. wr. rt. rd (Hnext P' HP'). by pr Hb.
    + apply ring_singleton; unfold P'.
      * rewrite link_alter_other by done. by rewrite (link_alter _ _ _ _ _ (Some x)), upd_eq.
      * by rewrite (link_alter _ _ _ _ _ (Some x)), upd_eq by (done || by rewrite length_alter).
  - destruct HR as [?|HR]; [done|].
    change (match R with [] => Some r | _ :: _ => last R end) with (last (r :: R)).
    destruct (last (r :: R)) as [z|] eqn:Hz; [|by apply last_None in Hz].
    assert (z ∈ r :: R) as Hzin by by apply last_Some_elem_of.
    assert (r < length P)%nat as Hr by (eapply link_ring_lt; [done|left]).
    assert (z < length P)%nat as Hzl by (by eapply link_ring_lt).
    set (P' := alter (set NextThreadReady (fun _ => Some x)) z
                (alter (set PreviousThreadReady (fun _ => Some x)) r
                 (alter (set PreviousThreadReady (fun _ => Some z)) x
                  (alter (set NextThreadReady (fun _ => Some r)) x P)))).
    assert (agree strip_ready P' P) as HP'.
    { unfold P'. rewrite !agree_alter by done. done. }
    exists P'. split; [|split; [done|right]].
    + wr. wr. wr. wr. rt. rd (Hnext P' HP'). by pr Hb.
    + eapply ring_ext; [| |apply (ring_insert _ _ _ _ z x HR Hz HxR)];
        intros y _; unfold P'.
      * rewrite (link_alter _ _ _ _ _ (Some x)) by (done || by rewrite !length_alter).
        unfold upd. case_decide; [done|].
        rewrite !link_alter_other by done.
        by rewrite (link_alter _ _ _ _ _ (Some r)).
      * rewrite link_alter_other by done.
        rewrite (link_alter _ _ _ _ _ (Some x)) by (done || by rewrite !length_alter).
        unfold upd. case_decide; [done|].
        rewrite (link_alter _ _ _ _ _ (Some z)) by (done || by rewrite !length_alter).
        unfold upd. case_decide; [done|]. by rewrite link_alter_other.
Qed.

Lemma ready_of_app P l1 l2 : ready_of P (l1 ++ l2) = ready_of P l2 ++ ready_of P l1.
Proof. unfold ready_of. by rewrite List.filter_app, rev_app_distr. Qed.

Lemma ready_of_snoc P l x :
  ready_of P (l ++ [x]) = if readyb P x then x :: ready_of P l else ready_of P l.
Proof. rewrite ready_of_app. unfold ready_of at 1. simpl. by destruct (readyb P x). Qed.

Lemma elem_of_ready_of P l x : x ∈ ready_of P l <-> x ∈ l /\ readyb P x = true.
Proof.
  unfold ready_of. rewrite !list_elem_of_In, <- in_rev, List.filter_In. done.
Qed.

Lemma ready_of_agree P Q l : agree strip_ready P Q -> ready_of P l = ready_of Q l.
Proof.
  intros H. unfold ready_of. f_equal. apply List.filter_ext. intros x. by apply readyb_agree.
Qed.

Lemma NoDup_ready_of P l : NoDup l -> NoDup (ready_of P l).
Proof. intros. unfold ready_of. rewrite NoDup_ListNoDup in *. by apply NoDup_rev, List.NoDup_filter. Qed.

Lemma ready_walk p b w : Processors w !! p = Some b ->
  forall l2 l1 x P fuel,
  (length l2 < fuel)%nat -> FirstThread b = head (l1 ++ x :: l2) ->
  thread_ring P (l1 ++ x :: l2) ->
  (ready_of P l1 = [] \/ ready_ring P (ready_of P l1)) ->
  let R' := ready_of P (l1 ++ x :: l2) in
  exists P',
    do_while fuel (ready_body p) (Some x, (head (ready_of P l1), last (ready_of P l1)))
      (with_pool w P) = Ok (FirstThread b, (head R', last R')) (with_pool w P') /\
    agree strip_ready P' P /\ (R' = [] \/ ready_ring P' R').
Proof.
  intros Hb. induction l2 as [|y l2 IH]; intros l1 x P fuel Hf Hfirst HT HR R'.
  all: destruct fuel as [|fuel]; [simpl in Hf; lia|]; cbn [do_while]; subst R'.
  all: assert (x ∉ ready_of P l1) as Hx
    by (rewrite elem_of_ready_of; apply ring_nodup in HT; apply NoDup_app in HT as (_ & Hd & _);
        intros [Hx _]; by apply (Hd x Hx); left).
  all: destruct (ready_step p b w P (ready_of P l1) x Hb) as (P' & Hrun & Hag & HR');
    [by eapply link_ring_lt; [exact HT|set_solver]|done|done|].
  all: rewrite <- (ready_of_snoc P l1 x) in Hrun, HR'.
  all: unfold bind; rewrite Hrun; rewrite (ring_succ _ _ _ _ _ HT).
  - exists P'. rewrite bool_decide_false; [|by rewrite Hfirst; destruct l1; intros []].
    simpl. replace (head (l1 ++ [x])) with (FirstThread b) by done. done.
  - rewrite bool_decide_true.
    2:{ rewrite Hfirst. simpl. destruct l1 as [|h l1]; simpl; intros [= <-];
        apply ring_nodup in HT; simpl in HT; apply NoDup_cons in HT as [HT _]; set_solver. }
    simpl. rewrite <- (ready_of_agree P' P (l1 ++ [x])) by done.
    destruct (IH (l1 ++ [x]) y P' fuel) as (P'' & Hrun' & Hag' & HR'').
    + simpl in Hf; lia.
    + by rewrite <- app_assoc.
    + rewrite <- app_assoc. by apply (agree_ready_threads P' P).
    + by rewrite (ready_of_agree P' P).
    + exists P''. rewrite <- app_assoc in Hrun', HR''. simpl in Hrun', HR''.
      rewrite (ready_of_agree P' P (l1 ++ x :: y :: l2)) in Hrun', HR'' by done.
      split_and!; [done| |done]. by etransitivity.
Qed.

(** The ready list is the ring of the ready threads, last of the list first. *)
Lemma populate_ready_run p b w P h t :
  Processors w !! p = Some b -> FirstThread b = Some h -> thread_ring P (h :: t) ->
  (length P <= MAX_THREAD_COUNT)%nat ->
  let R := ready_of P (h :: t) in
  exists P', populate_ready p (with_pool w P) = Ok (head R, last R) (with_pool w P') /\
    agree strip_ready P' P /\ (R = [] \/ ready_ring P' R).
Proof.
  intros Hb Hh HT HP R. unfold populate_ready. pr Hb. rewrite Hh.
  destruct (ready_walk p b w Hb t [] h P walk_fuel) as (P' & Hrun & ? & ?).
  - apply (ring_length_lt NextThread PreviousThread P (h :: t)) in HT. simpl in HT. unfold walk_fuel. lia.
  - by rewrite Hh.
  - done.
  - by left.
  - exists P'. change (ready_of P []) with (@nil nat) in Hrun. cbn [head last] in Hrun.
    norm. by mstep Hrun.
Qed.
End ready.

(** ** Electing the thread to run *)

Section elect.
Implicit Types (w : world) (P : pool).

Lemma fv_next_ready P l1 x l2 :
  ready_ring P (l1 ++ x :: l2) -> fv NextThreadReady P x = Some (head (l2 ++ l1 ++ [x])).
Proof.
  intros H. pose proof (link_ring_lt _ _ _ _ x H ltac:(set_solver)) as Hx.
  apply ring_succ in H. unfold link, fv in *.
  apply lookup_lt_is_Some in Hx as [t Ht]. rewrite Ht in *. simpl in *. by f_equal.
Qed.

Lemma elect_walk w P r : forall l2 l1 x win fuel,
  (length l2 < fuel)%nat -> ready_ring P (l1 ++ x :: l2) -> head (l1 ++ [x]) = Some r ->
  (win < length P)%nat ->
  do_while fuel (elect_body (Some r)) (Some x, Some win) (with_pool w P) =
    Ok (Some r, Some (elect_from P win (x :: l2))) (with_pool w P).
Proof.
  induction l2 as [|y l2 IH]; intros l1 x win fuel Hf HR Hr Hwin.
  all: destruct fuel as [|fuel]; [simpl in Hf; lia|]; cbn [do_while].
  all: pose proof (link_ring_lt _ _ _ _ x HR ltac:(set_solver)) as Hx.
  all: unfold elect_body at 1.
  all: rd (fv_prio_of _ _ Hx); rd (fv_prio_of _ _ Hwin); rd (fv_next_ready _ _ _ _ HR); rt.
  - rewrite app_nil_l, Hr, bool_decide_false by (by intros []).
    cbn [elect_from]. by destruct (_ <? _).
  - rewrite bool_decide_true.
    2:{ simpl. intros Heq. simplify_eq. apply ring_nodup in HR.
        destruct l1 as [|h l1]; simplify_eq/=; apply NoDup_cons in HR as [HR _]; set_solver. }
    cbn [app head].
    replace (if prio_of P win <? prio_of P x then Some x else Some win)
      with (Some (if prio_of P win <? prio_of P x then x else win)) by by destruct (_ <? _).
    rewrite (IH (l1 ++ [x])); [done|simpl in Hf; lia|by rewrite <- app_assoc| |].
    + destruct l1; done.
    + by destruct (_ <? _).
Qed.

(** The elected thread is the first of the highest priority in the ready list. *)
Lemma elect_run w P r R :
  ready_ring P (r :: R) -> (length P <= MAX_THREAD_COUNT)%nat ->
  elect (Some r) (with_pool w P) = Ok (Some (elect_from P r R)) (with_pool w P).
Proof.
  intros HR HP. unfold elect. rd (fv_next_ready P [] r R HR).
  pose proof (ring_length_lt _ _ _ _ HR) as Hlen. simpl in Hlen.
  assert (r < length P)%nat by (eapply link_ring_lt; [exact HR|left]).
  destruct R as [|y R]; simpl head.
  - mstep (elect_walk w P r [] [] r r walk_fuel ltac:(unfold walk_fuel; simpl; lia) HR eq_refl ltac:(done)).
    cbn. by rewrite Z.ltb_irrefl.
  - mstep (elect_walk w P r R [r] y r walk_fuel ltac:(unfold walk_fuel; simpl in *; lia) HR eq_refl ltac:(done)).
    done.
Qed.

Lemma elect_from_spec P l win :
  let e := elect_from P win l in
  e ∈ win :: l /\ Forall (fun x => prio_of P x <= prio_of P e) (win :: l) /\
  exists l1 l2, win :: l = l1 ++ e :: l2 /\ Forall (fun x => prio_of P x < prio_of P e) l1.
Proof.
  revert win. induction l as [|x l IH]; intros win; simpl.
  - split_and!; [left|by repeat constructor|]. by exists [], [].
  - destruct (prio_of P win <? prio_of P x) eqn:E.
    + apply Z.ltb_lt in E. destruct (IH x) as (H1 & H2 & l1 & l2 & H3 & H4).
      apply Forall_cons in H2 as [H2 H2'].
      split_and!; [by right|repeat constructor; [lia|done|done]|].
      exists (win :: l1), l2. split; [by rewrite H3|]. constructor; [lia|done].
    + apply Z.ltb_ge in E. destruct (IH win) as (H1 & H2 & l1 & l2 & H3 & H4).
      apply Forall_cons in H2 as [H2 H2'].
      split_and!; [set_solver|repeat constructor; [done|lia|done]|].
      destruct l1 as [|a l1]; injection H3 as Ha Hl.
      * exists [], (x :: l). split; [|done]. by rewrite Ha at 1.
      * exists (a :: x :: l1), l2. split; [by rewrite Ha at 1; rewrite Hl at 1|].
        apply Forall_cons in H4 as [? ?]. subst a. repeat constructor; [done|lia|done].
Qed.
End elect.

(** ** Boosting the threads that did not win *)

Definition boost_pool (win : nat) (P : pool) (l : list nat) : pool :=
  foldl (fun Q x => if decide (x = win) then Q else alter boost x Q) P l.

Section boosting.
Implicit Types (w : world) (P : pool).

Lemma boost_strip t : strip_boost (boost t) = strip_boost t.
Proof. unfold boost. by destruct (_ <? _). Qed.

Lemma boost_pool_agree win l P : agree strip_boost (boost_pool win P l) P.
Proof.
  revert P. induction l as [|x l IH]; intros P; simpl; [done|].
  etransitivity; [apply IH|]. case_decide; [done|]. apply agree_alter, boost_strip.
Qed.

Lemma boost_pool_lookup win l P x :
  NoDup l ->
  boost_pool win P l !! x =
    (if decide (x ∈ l /\ x <> win) then boost else fun t => t) <$> P !! x.
Proof.
  revert P. induction l as [|y l IH]; intros P Hnd.
  - rewrite decide_False by set_solver. unfold boost_pool. cbn [foldl]. by destruct (P !! x).
  - change (boost_pool win P (y :: l))
      with (boost_pool win (if decide (y = win) then P else alter boost y P) l).
    apply NoDup_cons in Hnd as [Hy Hnd]. rewrite IH by done.
    destruct (decide (y = win)) as [->|Hyw].
    + destruct (decide (x ∈ l /\ x <> win)).
      * rewrite decide_True by set_solver. done.
      * rewrite decide_False by set_solver. done.
    + destruct (decide (x = y)) as [->|Hxy].
      * rewrite (decide_False (P := y ∈ l /\ y <> win)) by tauto.
        rewrite decide_True by set_solver. rewrite list_lookup_alter, decide_True by done.
        by destruct (P !! y).
      * rewrite lookup_alter_ne_list by done.
        destruct (decide (x ∈ l /\ x <> win)).
        -- rewrite decide_True by set_solver. done.
        -- rewrite decide_False by set_solver. done.
Qed.

Lemma boost_walk w win r : forall l2 l1 x P fuel,
  (length l2 < fuel)%nat -> ready_ring P (l1 ++ x :: l2) -> head (l1 ++ [x]) = Some r ->
  do_while fuel (boost_body (Some r) (Some win)) (Some x) (with_pool w P) =
    Ok (Some r) (with_pool w (boost_pool win P (x :: l2))).
Proof.
  assert (forall P l Q, agree strip_boost Q P -> ready_ring P l -> ready_ring Q l) as Hag.
  { intros P l Q H. apply ring_ext; intros x _; by apply (agree_link strip_boost). }
  induction l2 as [|y l2 IH]; intros l1 x P fuel Hf HR Hr.
  all: destruct fuel as [|fuel]; [simpl in Hf; lia|]; cbn [do_while].
  all: pose proof (link_ring_lt _ _ _ _ x HR ltac:(set_solver)) as Hx.
  all: set (Q := if decide (x = win) then P else alter boost x P).
  all: assert (agree strip_boost Q P) as HQ
    by (unfold Q; case_decide; [done|apply agree_alter, boost_strip]).
  all: unfold boost_body at 1.
  all: match goal with |- context [if ?d then th_upd _ _ else _] =>
         assert (forall B (k : unit -> K B),
           bind (if d then th_upd (Some x) boost else ret tt) k (with_pool w P) =
           k tt (with_pool w Q)) as Hstep
       end.
  1,3: intros B k; unfold Q; destruct (decide (x = win)) as [->|];
       [rewrite decide_False by naive_solver; done|rewrite decide_True by naive_solver; by wr].
  all: norm; rewrite Hstep; rd (fv_next_ready _ _ _ _ (Hag _ _ _ HQ HR)); rt.
  - rewrite app_nil_l, Hr, bool_decide_false by (by intros []). done.
  - rewrite bool_decide_true.
    2:{ simpl. intros Heq. simplify_eq. apply ring_nodup in HR.
        destruct l1 as [|h l1]; simplify_eq/=; apply NoDup_cons in HR as [HR _]; set_solver. }
    cbn [app head]. rewrite (IH (l1 ++ [x])); [done|simpl in Hf; lia| |by destruct l1].
    rewrite <- app_assoc. by apply (Hag P).
Qed.

Lemma boost_losers_run w win P r R :
  ready_ring P (r :: R) -> (length P <= MAX_THREAD_COUNT)%nat ->
  boost_losers (Some r) (Some win) (with_pool w P) =
    Ok tt (with_pool w (boost_pool win P (r :: R))).
Proof.
  intros HR HP. unfold boost_losers.
  pose proof (ring_length_lt _ _ _ _ HR) as Hlen. simpl in Hlen.
  by mstep (boost_walk w win r R [] r P walk_fuel ltac:(unfold walk_fuel; lia) HR eq_refl).
Qed.
End boosting.

(** ** First pass: timers and reaping *)

Definition wake (now : Z) (t : THREAD) : THREAD :=
  if nz (SleepTime t) && (s64 (SleepTime t - now) <? 0) then t <| SleepTime := 0 |> else t.
Definition reapable (t : THREAD) : bool := (ThreadTerminated t =? 1) && (HandleOpen t =? 0).
Definition reapableb (P : pool) (x : nat) : bool := default false (fv reapable P x).
Definition visit (now : Z) (t : THREAD) : THREAD :=
  if reapable t then wake now t <| Valid := 0 |> else wake now t.
Definition strip_links (t : THREAD) : THREAD :=
  t <| NextThread := None |> <| PreviousThread := None |>
    <| NextThreadFull := None |> <| PreviousThreadFull := None |>.

(** The head of the list ends the pass when it is reaped. *)
Definition visited (P : pool) (l : list nat) : list nat :=
  match l with h :: _ => if reapableb P h then [h] else l | [] => [] end.
Definition survivors (P : pool) (l : list nat) : list nat :=
  match l with
  | h :: t => if reapableb P h then t else List.filter (fun x => negb (reapableb P x)) l
  | [] => []
  end.
Definition visit_pool (now : Z) (P : pool) (l : list nat) : pool :=
  foldl (fun Q x => alter (visit now) x Q) P l.

Definition reap_proc (x y z : nat) (b : PROCESSOR) : PROCESSOR :=
  let b1 := if decide (Some x = FirstThread b) then b <| FirstThread := Some y |> else b in
  if decide (Some x = LastThread b1) then b1 <| LastThread := Some z |> else b1.

Definition full_ok (P : pool) (S : list nat) : Prop :=
  forall x, x ∈ S -> exists n q,
    fv NextThreadFull P x = Some (Some n) /\ fv PreviousThreadFull P x = Some (Some q) /\
    (n < length P)%nat /\ (q < length P)%nat.

Definition unlinked (x y z n q : nat) (P : pool) : pool :=
  alter (set Valid (fun _ => 0)) x
   (alter (set NextThreadFull (fun _ => Some n)) q
    (alter (set PreviousThreadFull (fun _ => Some q)) n
     (alter (set NextThread (fun _ => Some y)) z
      (alter (set PreviousThread (fun _ => Some z)) y P)))).

Section reaping.
Context (w : world) (p : nat) (Hp : is_Some (Processors w !! p)).
Implicit Types (L : gset Z) (b : PROCESSOR) (P : pool).

Lemma fv_write_same {A} (F : THREAD -> A) (f : THREAD -> THREAD) P x y v :
  (forall t, F (f t) = v) -> fv F P x = Some v -> fv F (alter f y P) x = Some v.
Proof.
  intros Hf H. destruct (decide (x = y)) as [->|Hxy].
  - rewrite fv_alter. apply fv_const; [done|]. apply (fv_is_Some F). eauto.
  - by rewrite fv_alter_ne.
Qed.

Lemma reap_run L b P x y z n q base :
  fv NextThread P x = Some (Some y) -> fv PreviousThread P x = Some (Some z) ->
  fv NextThreadFull P x = Some (Some n) -> fv PreviousThreadFull P x = Some (Some q) ->
  fv StackBase P x = Some base -> (y < length P)%nat -> (z < length P)%nat ->
  (n < length P)%nat -> (q < length P)%nat ->
  reap p (Some x) (view w p L b P) =
    Ok tt (view w p (free_live base L) (reap_proc x y z b) (unlinked x y z n q P)).
Proof.
  intros Hy Hz Hn Hq Hb ????. unfold reap.
  assert (x < length P)%nat as Hx by (apply lookup_lt_is_Some, (fv_is_Some NextThread); eauto).
  vrd Hp Hb. norm. rewrite view_free.
  vrd Hp Hy. vrd Hp Hz. vwr Hp.
  set (P1 := alter (set PreviousThread (fun _ => Some z)) y P).
  assert (fv PreviousThread P1 x = Some (Some z)) as Hz1 by by apply fv_write_same.
  assert (fv NextThread P1 x = Some (Some y)) as Hy1 by (unfold P1; by rewrite fv_alter_other).
  vrd Hp Hz1. vrd Hp Hy1. unfold P1 at 1. vwr Hp. fold P1.
  set (P2 := alter (set NextThread (fun _ => Some y)) z P1).
  assert (fv NextThreadFull P2 x = Some (Some n)) as Hn2
    by (unfold P2, P1; by rewrite !fv_alter_other).
  assert (fv PreviousThreadFull P2 x = Some (Some q)) as Hq2
    by (unfold P2, P1; by rewrite !fv_alter_other).
  vrd Hp Hn2. vrd Hp Hq2. norm. rewrite view_upd by (unfold P2, P1; in_pool). cbn beta iota.
  set (P3 := alter (set PreviousThreadFull (fun _ => Some q)) n P2).
  assert (fv PreviousThreadFull P3 x = Some (Some q)) as Hq3 by by apply fv_write_same.
  assert (fv NextThreadFull P3 x = Some (Some n)) as Hn3 by (unfold P3; by rewrite fv_alter_other).
  vrd Hp Hq3. vrd Hp Hn3. norm. rewrite view_upd by (unfold P3, P2, P1; in_pool). cbn beta iota.
  set (P4 := alter (set NextThreadFull (fun _ => Some n)) q P3).
  assert (fv NextThread P4 x = Some (Some y)) as Hy4.
  { unfold P4, P3. rewrite !fv_alter_other by done. by apply fv_write_same. }
  assert (fv PreviousThread P4 x = Some (Some z)) as Hz4.
  { unfold P4, P3, P2. by rewrite !fv_alter_other by done. }
  assert (x < length P4)%nat as Hx4 by (unfold P4, P3, P2, P1; in_pool).
  vpr Hp. unfold reap_proc.
  destruct (decide (Some x = FirstThread b)).
  - vrd Hp Hy4. vpw Hp. vpr Hp. cbn [LastThread set].
    destruct (decide _).
    + vrd Hp Hz4. vpw Hp. by rewrite view_upd_end.
    + rt. by rewrite view_upd_end.
  - rt. vpr Hp. destruct (decide _).
    + vrd Hp Hz4. vpw Hp. by rewrite view_upd_end.
    + rt. by rewrite view_upd_end.
Qed.

Lemma unlinked_ring P x m y z n q :
  thread_ring P (x :: m) -> head m = Some y -> last m = Some z ->
  thread_ring (unlinked x y z n q P) m.
Proof.
  intros HR Hy Hz.
  assert (y < length P)%nat by (eapply link_ring_lt; [exact HR|right; by apply head_Some_elem_of]).
  assert (z < length P)%nat by (eapply link_ring_lt; [exact HR|right; by apply last_Some_elem_of]).
  destruct (ring_unlink _ _ _ _ _ _ HR Hy Hz) as (_ & _ & HR').
  revert HR'. apply ring_ext; intros i _; unfold unlinked.
  - rewrite !link_alter_other by done.
    rewrite (link_alter _ _ _ _ _ (Some y)) by (done || in_pool).
    unfold upd. case_decide; [done|]. by rewrite link_alter_other.
  - rewrite !link_alter_other by done. by rewrite (link_alter _ _ _ _ _ (Some z)).
Qed.

Lemma wake_links now t :
  NextThread (wake now t) = NextThread t /\ PreviousThread (wake now t) = PreviousThread t /\
  NextThreadFull (wake now t) = NextThreadFull t /\
  PreviousThreadFull (wake now t) = PreviousThreadFull t /\
  StackBase (wake now t) = StackBase t /\ reapable (wake now t) = reapable t.
Proof. unfold wake. by destruct (_ && _). Qed.

Lemma timer_run {B} L b P x (k : unit -> K B) :
  (x < length P)%nat ->
  bind (process_timer (Some x)) k (view w p L b P) =
  k tt (view w p L b (alter (wake (millisecond_clock_time w)) x P)).
Proof.
  intros Hx. unfold process_timer.
  pose proof Hx as [t Ht]%lookup_lt_is_Some.
  assert (fv SleepTime P x = Some (SleepTime t)) as Hs by (apply fv_Some; eauto).
  vrd Hp Hs.
  destruct (nz (SleepTime t)) eqn:E1.
  - norm. rewrite view_gets_clock. cbn beta iota.
    destruct (s64 (SleepTime t - millisecond_clock_time w) <? 0) eqn:E2; simpl.
    + vwr Hp. do 2 f_equal. apply (list_alter_at _ _ _ _ t Ht). unfold wake. by rewrite E1, E2.
    + rt. do 2 f_equal. symmetry. apply (list_alter_self _ _ _ t Ht). unfold wake. by rewrite E1, E2.
  - rt. do 2 f_equal. symmetry. apply (list_alter_self _ _ _ t Ht). unfold wake. by rewrite E1.
Qed.

(** One round of the pass on a member of the ring. *)
Lemma first_body_run L b P x m y z n q :
  thread_ring P (x :: m) ->
  fv NextThread P x = Some (Some y) -> fv PreviousThread P x = Some (Some z) ->
  fv NextThreadFull P x = Some (Some n) -> fv PreviousThreadFull P x = Some (Some q) ->
  (y < length P)%nat -> (z < length P)%nat -> (n < length P)%nat -> (q < length P)%nat ->
  let P1 := alter (wake (millisecond_clock_time w)) x P in
  exists L',
  first_pass_body p (Some x) (view w p L b P) =
    if reapableb P x then
      let b' := reap_proc x y z b in
      Ok (Some y, bool_decide (Some y <> FirstThread b'))
         (view w p L' b' (unlinked x y z n q P1))
    else Ok (Some y, bool_decide (Some y <> FirstThread b)) (view w p L' b P1).
Proof.
  intros HR Hy Hz Hn Hq Hly Hlz Hln Hlq P1. unfold first_pass_body.
  assert (x < length P)%nat as Hx by (eapply link_ring_lt; [exact HR|left]).
  pose proof Hx as [t Ht]%lookup_lt_is_Some.
  rewrite timer_run by done. fold P1.
  assert (forall A (F : THREAD -> A) v,
    (forall t, F (wake (millisecond_clock_time w) t) = F t) -> fv F P x = Some v -> fv F P1 x = Some v)
    as HP1 by (intros; unfold P1; by rewrite fv_alter_other).
  assert (fv ThreadTerminated P1 x = Some (ThreadTerminated t)) as H1.
  { apply HP1; [|apply fv_Some; eauto]. intros ?; unfold wake; by destruct (_ && _). }
  assert (fv HandleOpen P1 x = Some (HandleOpen t)) as H2.
  { apply HP1; [|apply fv_Some; eauto]. intros ?; unfold wake; by destruct (_ && _). }
  vrd Hp H1. vrd Hp H2.
  assert (reapableb P x = (ThreadTerminated t =? 1) && (HandleOpen t =? 0)) as ->.
  { unfold reapableb, fv. by rewrite Ht. }
  apply (HP1 _ NextThread) in Hy; [|apply wake_links].
  apply (HP1 _ PreviousThread) in Hz; [|apply wake_links].
  apply (HP1 _ NextThreadFull) in Hn; [|apply wake_links].
  apply (HP1 _ PreviousThreadFull) in Hq; [|apply wake_links].
  assert (fv StackBase P1 x = Some (StackBase t)) as Hbase.
  { apply (HP1 _ StackBase); [apply wake_links|apply fv_Some; eauto]. }
  unfold when. destruct (_ && _).
  - exists (free_live (StackBase t) L). norm.
    rewrite (bind_ok _ _ _ _ _ (reap_run L b P1 x y z n q (StackBase t) Hy Hz Hn Hq Hbase
      ltac:(unfold P1; in_pool) ltac:(unfold P1; in_pool) ltac:(unfold P1; in_pool)
      ltac:(unfold P1; in_pool))).
    cbn beta iota.
    assert (fv NextThread (unlinked x y z n q P1) x = Some (Some y)) as Hy'.
    { unfold unlinked. rewrite !fv_alter_other by done.
      apply fv_write_same; [done|]. by rewrite fv_alter_other. }
    vrd Hp Hy'. vpr Hp. done.
  - exists L. rt. vrd Hp Hy. vpr Hp. done.
Qed.

Lemma visit_strip now t : strip_links (visit now (strip_links t)) = strip_links (visit now t).
Proof.
  unfold visit. change (reapable (strip_links t)) with (reapable t).
  unfold wake. cbn [SleepTime strip_links set].
  by destruct (reapable t), (_ && _).
Qed.

Lemma wake_agree now P x :
  reapableb P x = false -> agree strip_links (alter (wake now) x P) (alter (visit now) x P).
Proof.
  intros H. destruct (P !! x) as [t|] eqn:Ht.
  - rewrite (list_alter_at _ _ (wake now) (visit now) t Ht); [done|].
    unfold reapableb, fv in H. rewrite Ht in H. simpl in H. unfold visit. by rewrite H.
  - assert (forall f : THREAD -> THREAD, alter f x P = P) as E; [|by rewrite !E].
    intros f. apply list_eq. intros j. rewrite list_lookup_alter. case_decide; [|done].
    subst. by rewrite Ht.
Qed.

Lemma unlinked_agree now P x y z n q :
  reapableb P x = true -> (x < length P)%nat ->
  agree strip_links (unlinked x y z n q (alter (wake now) x P)) (alter (visit now) x P).
Proof.
  intros H [t Ht]%lookup_lt_is_Some.
  assert (reapable t = true) as Hr by (unfold reapableb, fv in H; by rewrite Ht in H).
  rewrite (list_alter_at _ _ (visit now) (set Valid (fun _ => 0) ∘ wake now) t Ht)
    by (unfold visit; by rewrite Hr).
  rewrite <- list_alter_twice. unfold unlinked. apply agree_alter_mono; [done|].
  by rewrite !agree_alter by done.
Qed.

Lemma visit_pool_snoc now P l x :
  visit_pool now P (l ++ [x]) = alter (visit now) x (visit_pool now P l).
Proof. unfold visit_pool. by rewrite foldl_app. Qed.

Lemma visit_pool_other now P l x : x ∉ l -> visit_pool now P l !! x = P !! x.
Proof.
  induction l as [|y l IH] using rev_ind; [done|]. intros Hx.
  rewrite visit_pool_snoc, lookup_alter_ne_list by set_solver. apply IH. set_solver.
Qed.

Lemma full_ok_mono P S S' : (forall x, x ∈ S' -> x ∈ S) -> full_ok P S -> full_ok P S'.
Proof. intros H HS x Hx. by apply HS, H. Qed.

Lemma full_ok_alter P S x f :
  (forall t, NextThreadFull (f t) = NextThreadFull t) ->
  (forall t, PreviousThreadFull (f t) = PreviousThreadFull t) ->
  full_ok P S -> full_ok (alter f x P) S.
Proof.
  intros H1 H2 H i Hi. destruct (H i Hi) as (n & q & ?). exists n, q.
  by rewrite !fv_alter_other, !length_alter.
Qed.

Lemma full_ok_unlinked P S x y z n q :
  (n < length P)%nat -> (q < length P)%nat ->
  full_ok P S -> full_ok (unlinked x y z n q P) S.
Proof.
  intros Hn Hq H. unfold unlinked. apply full_ok_alter; [done..|].
  assert (full_ok (alter (set NextThread (fun _ => Some y)) z
     (alter (set PreviousThread (fun _ => Some z)) y P)) S) as H'
    by (do 2 (apply full_ok_alter; [done..|]); done).
  set (Q := alter _ z _) in *.
  assert (length Q = length P) as HQ by (unfold Q; in_pool).
  intros i Hi. destruct (H' i Hi) as (n' & q' & Hn' & Hq' & ? & ?).
  exists (if decide (i = q) then n else n'), (if decide (i = n) then q else q').
  rewrite !length_alter. split_and!.
  - case_decide; [subst|by rewrite fv_alter_ne, fv_alter_other].
    rewrite fv_alter. apply fv_const; [done|]. rewrite alter_is_Some.
    by apply (fv_is_Some NextThreadFull); eauto.
  - rewrite fv_alter_other by done. case_decide; [subst|by rewrite fv_alter_ne].
    rewrite fv_alter. apply fv_const; [done|]. by apply (fv_is_Some NextThreadFull); eauto.
  - case_decide; lia.
  - case_decide; lia.
Qed.

Lemma full_of P S x : full_ok P S -> x ∈ S -> exists n q,
  fv NextThreadFull P x = Some (Some n) /\ fv PreviousThreadFull P x = Some (Some q) /\
  (n < length P)%nat /\ (q < length P)%nat.
Proof. intros H. apply H. Qed.

(** The neighbours of [x] in a ring entered at [x]. *)
Lemma ring_neighbours P x m :
  thread_ring P (x :: m) -> exists y z,
  fv NextThread P x = Some (Some y) /\ fv PreviousThread P x = Some (Some z) /\
  (y < length P)%nat /\ (z < length P)%nat /\
  head (m ++ [x]) = Some y /\ last (x :: m) = Some z.
Proof.
  intros HR. destruct (last (x :: m)) as [z|] eqn:Hz; [|by apply last_None in Hz].
  destruct (head (m ++ [x])) as [y|] eqn:Hy; [|by destruct m].
  exists y, z. rewrite <- !link_fv.
  rewrite (ring_succ _ _ [] x m HR). rewrite app_nil_l.
  destruct (ring_next_last _ _ _ _ _ HR Hz) as [_ Hpv].
  split_and!; [done|done| | |done|done]; (eapply link_ring_lt; [exact HR|]).
  - apply head_Some_elem_of in Hy. set_solver.
  - by apply last_Some_elem_of.
Qed.

Definition kept (P : pool) (l : list nat) : list nat :=
  List.filter (fun x => negb (reapableb P x)) l.

Lemma kept_snoc P l x :
  kept P (l ++ [x]) = kept P l ++ (if reapableb P x then [] else [x]).
Proof. unfold kept. rewrite List.filter_app. simpl. by destruct (reapableb P x). Qed.

Lemma kept_elem P l x : x ∈ kept P l -> x ∈ l.
Proof. unfold kept. rewrite !list_elem_of_In, List.filter_In. tauto. Qed.

(** The state of the pass after the threads [l1] have been visited, at the
    thread [x], with [l2] still to come. *)
Record pass_inv (P0 : pool) (l1 : list nat) (x : nat) (l2 : list nat)
    (b : PROCESSOR) (P : pool) : Prop := {
  pi_ring : thread_ring P (kept P0 l1 ++ x :: l2);
  pi_first : FirstThread b = head (kept P0 l1 ++ x :: l2);
  pi_last : LastThread b = last (kept P0 l1 ++ x :: l2);
  pi_pool : agree strip_links P (visit_pool (millisecond_clock_time w) P0 l1);
  pi_head : kept P0 l1 = [] -> reapableb P0 x = false;
  pi_nodup : NoDup (l1 ++ x :: l2);
  pi_full : full_ok P (x :: l2)
}.

Lemma pass_reapable P0 l1 x l2 b P :
  pass_inv P0 l1 x l2 b P -> reapableb P x = reapableb P0 x.
Proof.
  intros H. unfold reapableb. f_equal.
  rewrite (agree_fv strip_links reapable _ _ _ (fun _ => eq_refl) (pi_pool _ _ _ _ _ _ H)).
  unfold fv. rewrite visit_pool_other; [done|].
  pose proof (pi_nodup _ _ _ _ _ _ H) as (_ & Hd & _)%NoDup_app. intros Hx.
  by apply (Hd x Hx); left.
Qed.

(** What a round leaves: the thread list [l'] in pool [P'] and block [b']. *)
Record round_end (P0 : pool) (l1 : list nat) (x : nat) (l2 : list nat) (b : PROCESSOR)
    (b' : PROCESSOR) (P' : pool) : Prop := {
  re_block : b' = b <| LastThread := last (kept P0 (l1 ++ [x]) ++ l2) |>;
  re_first : FirstThread b' = head (kept P0 (l1 ++ [x]) ++ l2);
  re_ring : thread_ring P' (kept P0 (l1 ++ [x]) ++ l2);
  re_pool : agree strip_links P' (visit_pool (millisecond_clock_time w) P0 (l1 ++ [x]));
  re_full : full_ok P' l2
}.

Lemma reap_proc_mid b x y z h k l2 :
  NoDup ((h :: k) ++ x :: l2) -> FirstThread b = Some h ->
  LastThread b = last ((h :: k) ++ x :: l2) -> last (l2 ++ h :: k) = Some z ->
  reap_proc x y z b = b <| LastThread := last ((h :: k) ++ l2) |>.
Proof.
  intros Hnd Hf Hl Hz. unfold reap_proc. cbv zeta. rewrite Hf, (decide_False (P := Some x = Some h)).
  2:{ intros [=]; subst. cbn [app] in Hnd. apply NoDup_cons in Hnd as [Hnd _]. set_solver. }
  destruct l2 as [|e l2 _] using rev_ind.
  - rewrite Hl, last_snoc, decide_True by done. rewrite app_nil_r.
    rewrite app_nil_l in Hz. by rewrite Hz.
  - assert (last ((h :: k) ++ x :: l2 ++ [e]) = Some e) as He.
    { rewrite (app_comm_cons l2), app_assoc. apply last_snoc. }
    rewrite He in Hl. rewrite Hl, decide_False.
    + rewrite app_assoc, last_snoc. destruct b; cbn in *. by subst.
    + intros [=]; subst. apply NoDup_app in Hnd as (_ & _ & Hnd).
      apply NoDup_cons in Hnd as [Hnd _]. set_solver.
Qed.

Lemma alter_wake_ring now P x l : thread_ring P l -> thread_ring (alter (wake now) x P) l.
Proof. apply ring_ext; intros i _; apply link_alter_other; intros; apply wake_links. Qed.

Lemma alter_wake_full now P x S : full_ok P S -> full_ok (alter (wake now) x P) S.
Proof. apply full_ok_alter; intros; apply wake_links. Qed.

(** The round when the thread is kept. *)
Lemma round_keep P0 l1 x l2 b P :
  pass_inv P0 l1 x l2 b P -> reapableb P0 x = false ->
  round_end P0 l1 x l2 b b (alter (wake (millisecond_clock_time w)) x P).
Proof.
  intros HI Er. pose proof (pass_reapable _ _ _ _ _ _ HI) as Hre.
  destruct HI as [HT Hfirst Hlast Hag Hhead Hnd Hfull].
  assert (kept P0 (l1 ++ [x]) ++ l2 = kept P0 l1 ++ x :: l2) as Hk.
  { by rewrite kept_snoc, Er, <- app_assoc. }
  split; rewrite ?Hk.
  - destruct b; cbn in *. by rewrite Hlast.
  - done.
  - by apply alter_wake_ring.
  - rewrite visit_pool_snoc. etransitivity; [apply wake_agree; by rewrite Hre|].
    apply agree_alter_mono; [apply visit_strip|done].
  - apply alter_wake_full. eapply full_ok_mono; [|exact Hfull]. by right.
Qed.

(** The round when the thread is reaped. *)
Lemma round_reap P0 l1 x l2 b P y z n q :
  pass_inv P0 l1 x l2 b P -> reapableb P0 x = true ->
  head ((l2 ++ kept P0 l1) ++ [x]) = Some y -> last (x :: l2 ++ kept P0 l1) = Some z ->
  (n < length P)%nat -> (q < length P)%nat ->
  round_end P0 l1 x l2 b (reap_proc x y z b)
    (unlinked x y z n q (alter (wake (millisecond_clock_time w)) x P)).
Proof.
  intros HI Er Hhd Hlst Hnl Hql. pose proof (pass_reapable _ _ _ _ _ _ HI) as Hre.
  destruct HI as [HT Hfirst Hlast Hag Hhead Hnd Hfull].
  assert (kept P0 (l1 ++ [x]) ++ l2 = kept P0 l1 ++ l2) as Hk.
  { by rewrite kept_snoc, Er, app_nil_r. }
  destruct (kept P0 l1) as [|h k]; [by specialize (Hhead eq_refl); congruence|].
  pose proof (ring_rotate _ _ _ _ HT) as HT'. cbn [app] in HT'.
  assert (head (l2 ++ h :: k) = Some y) as Hhd' by (by rewrite <- Hhd; destruct l2).
  assert (last (l2 ++ h :: k) = Some z) as Hlst' by (by rewrite <- Hlst; destruct l2).
  assert (reap_proc x y z b = b <| LastThread := last ((h :: k) ++ l2) |>) as Hb'.
  { apply reap_proc_mid; [by apply ring_nodup in HT|done..]. }
  split; rewrite ?Hk, ?Hb'.
  - done.
  - done.
  - apply (ring_rotate _ _ l2 (h :: k)). apply unlinked_ring; [|done|done]. by apply alter_wake_ring.
  - rewrite visit_pool_snoc.
    etransitivity; [apply unlinked_agree; [by rewrite Hre|eapply link_ring_lt; [exact HT'|left]]|].
    apply agree_alter_mono; [apply visit_strip|done].
  - apply full_ok_unlinked; [in_pool..|]. apply alter_wake_full.
    eapply full_ok_mono; [|exact Hfull]. by right.
Qed.

(** Where the walk goes after a round: on to the rest of the list, and back
    to the head, which ends it, after the last thread. *)
Lemma round_next P0 l1 x l2 b P y b' P' :
  pass_inv P0 l1 x l2 b P -> round_end P0 l1 x l2 b b' P' ->
  head ((l2 ++ kept P0 l1) ++ [x]) = Some y ->
  Some y = head (l2 ++ kept P0 (l1 ++ [x])) /\
  bool_decide (Some y <> FirstThread b') = bool_decide (l2 <> []).
Proof.
  intros HI HE Hhd. rewrite (re_first _ _ _ _ _ _ _ HE).
  pose proof (ring_nodup _ _ _ (re_ring _ _ _ _ _ _ _ HE)) as Hnd.
  pose proof (pi_head _ _ _ _ _ _ HI) as Hhead. rewrite kept_snoc in *.
  destruct l2 as [|e l2]; cbn [app] in *.
  - assert (Some y = head (kept P0 l1 ++ (if reapableb P0 x then [] else [x]))) as Hy.
    { destruct (kept P0 l1) as [|h k]; [rewrite Hhead by done|]; by rewrite <- Hhd. }
    split; [done|]. rewrite app_nil_r, <- Hy, !bool_decide_false; [done|naive_solver..].
  - simplify_eq/=. split; [done|]. apply bool_decide_eq_true_2.
    destruct (kept P0 l1) as [|h k]; [rewrite Hhead in * by done|]; cbn [app head] in *;
      intros [=]; subst; apply NoDup_cons in Hnd as [Hnd _]; set_solver.
Qed.

(** Threads outside [l] keep their places in their lists. *)
Definition frame (l : list nat) (P P' : pool) : Prop := forall i, i ∉ l ->
  link NextThread P' i = link NextThread P i /\ link PreviousThread P' i = link PreviousThread P i.

Lemma frame_wake l P now x : frame l P (alter (wake now) x P).
Proof. intros i _. split; apply link_alter_other; intros; apply wake_links. Qed.

Lemma frame_unlinked l P now x y z n q :
  y ∈ l -> z ∈ l -> (y < length P)%nat -> (z < length P)%nat ->
  frame l P (unlinked x y z n q (alter (wake now) x P)).
Proof.
  intros Hy Hz ?? i Hi. destruct (frame_wake l P now x i Hi) as [<- <-]. unfold unlinked. split.
  - rewrite !link_alter_other by done.
    rewrite (link_alter _ _ _ _ _ (Some y)) by (done || in_pool).
    rewrite upd_ne by (by intros ->). by rewrite link_alter_other.
  - rewrite !link_alter_other by done.
    rewrite (link_alter _ _ _ _ _ (Some z)) by (done || in_pool).
    by rewrite upd_ne by (by intros ->).
Qed.

Lemma frame_mono l l' P P' : (forall i, i ∈ l -> i ∈ l') -> frame l P P' -> frame l' P P'.
Proof. intros H HF i Hi. apply HF. naive_solver. Qed.

Lemma frame_trans l P P' P'' : frame l P P' -> frame l P' P'' -> frame l P P''.
Proof. intros H1 H2 i Hi. destruct (H1 i Hi), (H2 i Hi). split; congruence. Qed.

Lemma pass_step P0 l1 x l2 L b P :
  pass_inv P0 l1 x l2 b P -> exists L' b' P',
  first_pass_body p (Some x) (view w p L b P) =
    Ok (head (l2 ++ kept P0 (l1 ++ [x])), bool_decide (l2 <> [])) (view w p L' b' P') /\
  round_end P0 l1 x l2 b b' P' /\ frame (kept P0 l1 ++ x :: l2) P P'.
Proof.
  intros HI. pose proof (ring_rotate _ _ _ _ (pi_ring _ _ _ _ _ _ HI)) as HT. cbn [app] in HT.
  destruct (ring_neighbours _ _ _ HT) as (y & z & Hy & Hz & Hyl & Hzl & Hhd & Hlst).
  destruct (full_of _ _ x (pi_full _ _ _ _ _ _ HI)) as (n & q & Hn & Hq & Hnl & Hql); [left|].
  destruct (first_body_run L b P x (l2 ++ kept P0 l1) y z n q HT Hy Hz Hn Hq Hyl Hzl Hnl Hql)
    as [L' Hrun].
  rewrite (pass_reapable _ _ _ _ _ _ HI) in Hrun. exists L'.
  destruct (reapableb P0 x) eqn:Er.
  - assert (round_end P0 l1 x l2 b (reap_proc x y z b)
      (unlinked x y z n q (alter (wake (millisecond_clock_time w)) x P))) as HE
      by by apply round_reap.
    destruct (round_next _ _ _ _ _ _ _ _ _ HI HE Hhd) as [E1 E2].
    do 2 eexists. split; [|split; [exact HE|]]; [rewrite Hrun; cbv zeta; by rewrite <- E1, <- E2|].
    apply head_Some_elem_of in Hhd. apply last_Some_elem_of in Hlst.
    apply frame_unlinked; [set_solver..|done|done].
  - pose proof (round_keep _ _ _ _ _ _ HI Er) as HE.
    destruct (round_next _ _ _ _ _ _ _ _ _ HI HE Hhd) as [E1 E2].
    do 2 eexists. split; [|split; [exact HE|apply frame_wake]]. by rewrite Hrun, <- E1, <- E2.
Qed.

Lemma pass_inv_next P0 l1 x e l2 b P b' P' :
  pass_inv P0 l1 x (e :: l2) b P -> round_end P0 l1 x (e :: l2) b b' P' ->
  pass_inv P0 (l1 ++ [x]) e l2 b' P'.
Proof.
  intros HI [Hb Hf HT Hag Hfull]. split; try done.
  - by rewrite Hb.
  - intros Hk. exfalso. pose proof (pi_head _ _ _ _ _ _ HI) as Hh. rewrite kept_snoc in Hk.
    apply app_nil in Hk as [Hk1 Hk2]. by rewrite (Hh Hk1) in Hk2.
  - rewrite <- app_assoc. apply (pi_nodup _ _ _ _ _ _ HI).
Qed.

(** The whole walk, when the head of the list is not reaped. *)
Lemma pass_walk P0 l2 : forall l1 x L b P fuel,
  (length l2 < fuel)%nat -> pass_inv P0 l1 x l2 b P ->
  exists L' b' P',
    do_while fuel (first_pass_body p) (Some x) (view w p L b P) =
      Ok (head (kept P0 (l1 ++ x :: l2))) (view w p L' b' P') /\
    b' = b <| LastThread := last (kept P0 (l1 ++ x :: l2)) |> /\
    FirstThread b' = head (kept P0 (l1 ++ x :: l2)) /\
    thread_ring P' (kept P0 (l1 ++ x :: l2)) /\
    agree strip_links P' (visit_pool (millisecond_clock_time w) P0 (l1 ++ x :: l2)) /\
    frame (kept P0 l1 ++ x :: l2) P P'.
Proof.
  induction l2 as [|e l2 IH]; intros l1 x L b P fuel Hf HI.
  all: destruct fuel as [|fuel]; [simpl in Hf; lia|]; cbn [do_while].
  all: destruct (pass_step P0 l1 x _ L b P HI) as (L' & b' & P' & Hrun & HE & HF); mstep Hrun.
  - rewrite bool_decide_false by naive_solver. exists L', b', P'.
    destruct HE as [Hb Hf' HT Hag _]. rewrite app_nil_r in *. done.
  - rewrite bool_decide_true by done. cbn [app head].
    destruct (IH (l1 ++ [x]) e L' b' P' fuel) as (L'' & b'' & P'' & Hrun' & Hb'' & H1 & H2 & H3 & H4).
    + simpl in Hf; lia.
    + by apply (pass_inv_next _ _ _ _ _ b P).
    + rewrite <- app_assoc in Hrun', Hb'', H1, H2, H3. exists L'', b'', P''.
      split_and!; [done| |done..|].
      * rewrite Hb''. by rewrite (re_block _ _ _ _ _ _ _ HE).
      * eapply frame_trans; [exact HF|]. revert H4. apply frame_mono. intros i.
        rewrite kept_snoc. destruct (reapableb P0 x); set_solver.
Qed.

(** The walk when the head is reaped: it ends after that round. *)
Lemma pass_head P x m L b fuel :
  thread_ring P (x :: m) -> m <> [] -> reapableb P x = true ->
  FirstThread b = Some x -> LastThread b = last (x :: m) -> full_ok P (x :: m) ->
  exists L' P',
    do_while (S fuel) (first_pass_body p) (Some x) (view w p L b P) =
      Ok (head m) (view w p L' (b <| FirstThread := head m |>) P') /\
    thread_ring P' m /\
    agree strip_links P' (visit_pool (millisecond_clock_time w) P [x]) /\
    frame (x :: m) P P'.
Proof.
  intros HT Hm Er Hf Hl Hfull. cbn [do_while].
  destruct (ring_neighbours _ _ _ HT) as (y & z & Hy & Hz & Hyl & Hzl & Hhd & Hlst).
  destruct (full_of _ _ x Hfull) as (n & q & Hn & Hq & Hnl & Hql); [left|].
  destruct (first_body_run L b P x m y z n q HT Hy Hz Hn Hq Hyl Hzl Hnl Hql) as [L' Hrun].
  rewrite Er in Hrun. cbv zeta in Hrun.
  assert (head m = Some y) as Hhd' by (rewrite <- Hhd; by destruct m).
  assert (last m = Some z) as Hlst' by (rewrite <- Hlst; by destruct m).
  assert (reap_proc x y z b = b <| FirstThread := Some y |>) as Hb'.
  { unfold reap_proc. cbv zeta. rewrite Hf, (decide_True (P := Some x = Some x)) by done.
    cbn [LastThread set]. rewrite Hl, Hlst, decide_False; [done|]. intros [=]; subst.
    apply ring_nodup, NoDup_cons in HT as [HT _]. by apply last_Some_elem_of in Hlst'. }
  rewrite Hb' in Hrun. mstep Hrun. cbn [FirstThread set]. rewrite bool_decide_false by naive_solver.
  rewrite Hhd'. do 2 eexists. split; [done|]. split_and!.
  - apply unlinked_ring; [|done|done]. by apply alter_wake_ring.
  - apply unlinked_agree; [done|]. eapply link_ring_lt; [exact HT|left].
  - apply head_Some_elem_of in Hhd'. apply last_Some_elem_of in Hlst'.
    apply frame_unlinked; [set_solver..|done|done].
Qed.

(** The first pass leaves the survivors, in order, as the thread list. *)
Lemma first_pass_run L b P l :
  thread_ring P l -> (length P <= MAX_THREAD_COUNT)%nat -> survivors P l <> [] ->
  FirstThread b = head l -> LastThread b = last l -> full_ok P l ->
  exists L' P', let s := survivors P l in
    first_pass p (view w p L b P) =
      Ok tt (view w p L' (b <| FirstThread := head s |> <| LastThread := last s |>) P') /\
    thread_ring P' s /\
    agree strip_links P' (visit_pool (millisecond_clock_time w) P (visited P l)) /\
    frame l P P'.
Proof.
  intros HT HP Hs Hf Hl Hfull. unfold first_pass. vpr Hp. rewrite Hf.
  destruct l as [|h t]; [by apply ring_nonempty in HT|]. cbn [head].
  pose proof (ring_length_lt _ _ _ _ HT) as Hlen. simpl in Hlen.
  unfold survivors, visited in *. destruct (reapableb P h) eqn:Er.
  - destruct (pass_head P h t L b MAX_THREAD_COUNT HT Hs Er Hf Hl Hfull) as (L' & P' & Hrun & HT' & Hag).
    exists L', P'. change walk_fuel with (S MAX_THREAD_COUNT). mstep Hrun. split; [|done].
    unfold ret. do 2 f_equal. destruct b; cbn in *. f_equal. rewrite Hl. by destruct t.
  - destruct (pass_walk P t [] h L b P walk_fuel) as (L' & b' & P' & Hrun & Hb' & Hf' & HT' & Hag).
    + unfold walk_fuel. lia.
    + split; try done. by apply ring_nodup in HT.
    + exists L', P'. mstep Hrun. split; [|done]. unfold ret. do 2 f_equal.
      rewrite Hb' in Hf'. rewrite Hb'. destruct b; cbn in *. f_equal. done.
Qed.
End reaping.

(** ** Taking in the threads other processors handed over *)

Definition move (p : nat) (t : THREAD) : THREAD :=
  t <| ThisProcessor := p |> <| Context ::= set Gpr (<[13%nat := Z.of_nat p]>) |>.
Definition move_pool (p : nat) (P : pool) (s : list nat) : pool :=
  foldl (fun Q x => alter (move p) x Q) P s.
Definition swap_list (P : pool) (s : list nat) : Prop :=
  dlist (link NextThread P) (link PreviousThread P) s /\ Forall (fun x => (x < length P)%nat) s.

Section swapping.
Context (w : world) (p : nat) (Hp : is_Some (Processors w !! p)).
Implicit Types (L : gset Z) (b : PROCESSOR) (P : pool).

(** The pool after [x] is taken off the swap list and put before [h]. *)
Definition swapped (x h z : nat) (next : ptr) (P : pool) : pool :=
  let P1 := alter (set Context (set Gpr (<[13%nat := Z.of_nat p]>))) x
              (alter (set ThisProcessor (fun _ => p)) x P) in
  let P2 := match next with
            | Some y => alter (set PreviousThread (fun _ => None)) y P1
            | None => P1
            end in
  alter (set NextThread (fun _ => Some x)) z
   (alter (set PreviousThread (fun _ => Some x)) h
    (alter (set PreviousThread (fun _ => Some z)) x
     (alter (set NextThread (fun _ => Some h)) x P2))).

Lemma swap_step_run L b P x s h z :
  FirstSwapProcess b = Some x -> FirstThread b = Some h -> LastThread b = Some z ->
  swap_list P (x :: s) -> (h < length P)%nat -> (z < length P)%nat ->
  swap_in_step p tt (view w p L b P) =
    Ok (Some tt) (view w p L (b <| FirstSwapProcess := head s |> <| FirstThread := Some x |>)
                    (swapped x h z (head s) P)).
Proof.
  intros Hb1 Hb2 Hb3 [(Hnd & Hc & Hl & Hh) HF] Hhl Hzl. unfold swap_in_step.
  apply Forall_cons in HF as [Hx HF].
  vpr Hp. rewrite Hb1. vwr Hp. vwr Hp.
  set (P1 := alter _ x (alter _ x P)).
  assert (length P1 = length P) as Hlen1 by (unfold P1; in_pool).
  assert (forall F : THREAD -> ptr, (forall t, F (move p t) = F t) ->
    fv F P1 x = Some (link F P x)) as HP1.
  { intros F HF'. unfold P1. rewrite list_alter_twice, fv_alter_other by apply HF'.
    unfold fv, link. by apply lookup_lt_is_Some in Hx as [t ->]. }
  assert (link PreviousThread P x = None) as Hpv by by apply Hh.
  assert (link NextThread P x = head s) as Hnx.
  { destruct s as [|y s]; [by apply Hl|]. by apply chain_cons in Hc as [? _]. }
  pose proof (HP1 NextThread (fun _ => eq_refl)) as HN. rewrite Hnx in HN.
  pose proof (HP1 PreviousThread (fun _ => eq_refl)) as HV. rewrite Hpv in HV.
  vrd Hp HN. vrd Hp HV.
  set (P2 := match head s with
             | Some y => alter (set PreviousThread (fun _ => None)) y P1 | None => P1 end).
  assert (length P2 = length P) as Hlen2 by (unfold P2; destruct (head s); in_pool).
  assert (fv NextThread P2 x = Some (head s)) as HN2
    by (unfold P2; destruct (head s); [by rewrite fv_alter_other|done]).
  assert (fv PreviousThread P2 x = Some None) as HV2
    by (unfold P2; destruct (head s); [by apply fv_write_same|done]).
  assert (forall A (k : unit -> K A),
    bind (match head s with Some _ => head s ->> PreviousThread <<- None | None => ret tt end) k
      (view w p L b P1) = k tt (view w p L b P2)) as Hstep.
  { intros A k. unfold P2. destruct s as [|y s]; cbn [head]; [done|].
    apply Forall_cons in HF as [Hy _]. by rewrite view_upd by lia. }
  norm. rewrite Hstep. vrd Hp HV2. vrd Hp HN2. rt. vrd Hp HN2. vpw Hp. vpr Hp. vpr Hp.
  cbn [FirstThread LastThread set]. rewrite Hb2, Hb3.
  vwr Hp. vwr Hp. vwr Hp. vwr Hp. vpw Hp. done.
Qed.

Lemma swapped_next x h z next P i :
  (x < length P)%nat -> (z < length P)%nat ->
  link NextThread (swapped x h z next P) i = upd (upd (link NextThread P) x (Some h)) z (Some x) i.
Proof.
  intros. unfold swapped.
  set (P1 := alter _ x (alter _ x P)).
  set (P2 := match next with Some _ => _ | None => _ end).
  assert (length P2 = length P) as Hlen by (unfold P2, P1; destruct next; in_pool).
  assert (link NextThread P2 i = link NextThread P i) as HP2.
  { unfold P2, P1. destruct next; by rewrite !link_alter_other by done. }
  rewrite (link_alter _ _ _ _ _ (Some x)) by (done || in_pool).
  unfold upd at 1 2. case_decide; [done|].
  rewrite !link_alter_other by done. rewrite (link_alter _ _ _ _ _ (Some h)) by (done || in_pool).
  unfold upd. by rewrite HP2.
Qed.

Lemma swapped_prev x h z next P i :
  (x < length P)%nat -> (h < length P)%nat -> (forall y, next = Some y -> y < length P)%nat ->
  link PreviousThread (swapped x h z next P) i =
    upd (upd (match next with Some y => upd (link PreviousThread P) y None
              | None => link PreviousThread P end) x (Some z)) h (Some x) i.
Proof.
  intros Hx Hh Hy. unfold swapped.
  set (P1 := alter _ x (alter _ x P)).
  set (P2 := match next with Some _ => _ | None => _ end).
  assert (length P1 = length P) as Hlen1 by (unfold P1; in_pool).
  assert (length P2 = length P) as Hlen by (unfold P2; destruct next; in_pool).
  assert (link PreviousThread P2 i = match next with Some y => upd (link PreviousThread P) y None i
              | None => link PreviousThread P i end) as HP2.
  { unfold P2. destruct next as [y|].
    - rewrite (link_alter _ _ _ _ _ None) by (done || rewrite Hlen1; by apply Hy).
      unfold upd, P1. case_decide; [done|]. by rewrite !link_alter_other by done.
    - unfold P1. by rewrite !link_alter_other by done. }
  rewrite link_alter_other by done.
  rewrite (link_alter _ _ _ _ _ (Some x)) by (done || in_pool).
  unfold upd at 1 2. case_decide; [done|].
  rewrite (link_alter _ _ _ _ _ (Some z)) by (done || in_pool).
  unfold upd at 1 2. case_decide; [done|].
  rewrite link_alter_other by done. rewrite HP2. by destruct next.
Qed.

Lemma swapped_ring x h t z s P :
  thread_ring P (h :: t) -> last (h :: t) = Some z -> swap_list P (x :: s) ->
  (forall i, i ∈ x :: s -> i ∉ h :: t) ->
  thread_ring (swapped x h z (head s) P) (x :: h :: t).
Proof.
  intros HT Hz [(Hnd & _) HF] Hd. apply Forall_cons in HF as [Hx HF].
  assert (z ∈ h :: t) as Hzin by by apply last_Some_elem_of.
  assert (z < length P)%nat by (by eapply link_ring_lt).
  assert (h < length P)%nat by (eapply link_ring_lt; [exact HT|left]).
  eapply ring_ext; [| |apply (ring_insert _ _ _ _ z x HT Hz); apply Hd; left].
  - intros i _. by apply swapped_next.
  - intros i Hi. rewrite swapped_prev; [|done|done|].
    2:{ intros y Hy. destruct s; simplify_eq/=. by apply Forall_cons in HF as [? _]. }
    destruct s as [|y s]; cbn [head]; [done|]. unfold upd.
    repeat case_decide; try done. subst.
    apply NoDup_cons in Hnd as [Hnd _]. exfalso.
    apply elem_of_cons in Hi as [->|Hi]; [set_solver|]. by apply (Hd y); [set_solver|].
Qed.

Lemma swapped_list x h t z s P :
  thread_ring P (h :: t) -> last (h :: t) = Some z -> swap_list P (x :: s) ->
  (forall i, i ∈ x :: s -> i ∉ h :: t) ->
  swap_list (swapped x h z (head s) P) s.
Proof.
  intros HT Hz [(Hnd & Hc & Hl & Hh) HF] Hd. apply Forall_cons in HF as [Hx HF].
  assert (z ∈ h :: t) as Hzin by by apply last_Some_elem_of.
  assert (z < length P)%nat as Hzl by (by eapply link_ring_lt).
  assert (h < length P)%nat as Hhl by (eapply link_ring_lt; [exact HT|left]).
  apply NoDup_cons in Hnd as [Hxs Hnd].
  assert (forall i, i ∈ s -> link NextThread (swapped x h z (head s) P) i = link NextThread P i) as HN.
  { intros i Hi. rewrite swapped_next by done.
    rewrite !upd_ne; [done|by intros ->|]. intros ->. by apply (Hd z); [right|]. }
  assert (forall i, i ∈ s -> link PreviousThread (swapped x h z (head s) P) i =
            if decide (Some i = head s) then None else link PreviousThread P i) as HV.
  { intros i Hi. rewrite swapped_prev; [|done|done|].
    2:{ intros y Hy. destruct s; simplify_eq/=. by apply Forall_cons in HF as [? _]. }
    rewrite !upd_ne; [|by intros ->|intros ->; apply (Hd h); [by right|left]].
    destruct s as [|y s]; cbn [head]; [set_solver|]. unfold upd. repeat case_decide; naive_solver. }
  split; [split_and!|].
  - done.
  - apply chain_tail in Hc. revert Hc. apply chain_ext. intros l1 a c l2 ->.
    split; [apply HN; set_solver|]. rewrite HV by set_solver. rewrite decide_False; [done|].
    destruct l1 as [|d l1]; cbn; intros [=]; subst; apply NoDup_cons in Hnd as [Hnd _]; set_solver.
  - intros i Hi. rewrite HN by by apply last_Some_elem_of.
    apply Hl. by destruct s.
  - intros i Hi. rewrite HV by by apply head_Some_elem_of. by rewrite decide_True.
  - unfold swapped. eapply Forall_impl; [exact HF|]. intros i Hi.
    destruct (head s); in_pool.
Qed.

Lemma swapped_agree x h z next P :
  agree strip_links (swapped x h z next P) (alter (move p) x P).
Proof.
  unfold swapped.
  do 4 (etransitivity; [by apply agree_alter|]). rewrite list_alter_twice.
  change (move p) with (set Context (set Gpr (<[13%nat := Z.of_nat p]>)) ∘ set ThisProcessor (fun _ => p)).
  destruct next; [by apply agree_alter|done].
Qed.

Lemma move_strip t : strip_links (move p (strip_links t)) = strip_links (move p t).
Proof. done. Qed.

Lemma swap_walk s : forall h t L b P fuel,
  (length s < fuel)%nat -> thread_ring P (h :: t) -> swap_list P s ->
  (forall i, i ∈ s -> i ∉ h :: t) ->
  FirstSwapProcess b = head s -> FirstThread b = Some h -> LastThread b = last (h :: t) ->
  exists P', let l' := rev s ++ h :: t in
    while fuel (swap_in_step p) tt (view w p L b P) =
      Ok tt (view w p L (b <| FirstSwapProcess := None |> <| FirstThread := head l' |>) P') /\
    thread_ring P' l' /\ last l' = LastThread b /\ agree strip_links P' (move_pool p P s).
Proof.
  induction s as [|x s IH]; intros h t L b P fuel Hf HT HS Hd Hb1 Hb2 Hb3.
  all: destruct fuel as [|fuel]; [simpl in Hf; lia|]; cbn [while].
  - exists P. unfold swap_in_step. vpr Hp. rewrite Hb1. rt. split_and!; [|done|done|done].
    unfold ret. do 2 f_equal. destruct b; cbn in *; congruence.
  - destruct (last (h :: t)) as [z|] eqn:Hz; [|by apply last_None in Hz].
    assert (z ∈ h :: t) as Hzin by by apply last_Some_elem_of.
    assert (z < length P)%nat as Hzl by (by eapply link_ring_lt).
    assert (h < length P)%nat as Hhl by (eapply link_ring_lt; [exact HT|left]).
    mstep (swap_step_run L b P x s h z Hb1 Hb2 Hb3 HS Hhl Hzl).
    destruct (IH x (h :: t) L (b <| FirstSwapProcess := head s |> <| FirstThread := Some x |>)
      (swapped x h z (head s) P) fuel) as (P' & Hrun & HT' & Hl' & Hag).
    + simpl in Hf; lia.
    + by apply swapped_ring.
    + by apply (swapped_list x h t z).
    + destruct HS as [(Hnd & _) _]. apply NoDup_cons in Hnd as [Hxs _].
      intros i Hi. apply not_elem_of_cons. split; [by intros ->|]. apply Hd. by right.
    + done.
    + done.
    + cbn [LastThread set]. rewrite Hb3. cbn. by rewrite <- Hz.
    + exists P'. cbn [rev]. rewrite <- app_assoc. split_and!; [exact Hrun|done|done|].
      etransitivity; [exact Hag|]. cbn. unfold move_pool. clear.
      assert (forall A B, agree strip_links A B -> agree strip_links
         (foldl (fun Q i => alter (move p) i Q) A s) (foldl (fun Q i => alter (move p) i Q) B s)) as H.
      { induction s as [|y s IH]; intros A B HAB; [done|]. cbn. apply IH.
        by apply agree_alter_mono. }
      apply H, swapped_agree.
Qed.

End swapping.

Lemma swap_in_run w p l s L b P :
  is_Some (Processors w !! p) ->
  thread_ring P l -> (length P <= MAX_THREAD_COUNT)%nat -> swap_list P s ->
  (forall i, i ∈ s -> i ∉ l) -> LSwap p ∉ held w ->
  FirstSwapProcess b = head s -> FirstThread b = head l -> LastThread b = last l ->
  exists P', let l' := rev s ++ l in
    swap_in p (view w p L b P) =
      Ok tt (view w p L (b <| FirstSwapProcess := None |> <| FirstThread := head l' |>) P') /\
    thread_ring P' l' /\ last l' = LastThread b /\ agree strip_links P' (move_pool p P s).
Proof.
  intros Hp HT HP HS Hd Hlock Hb1 Hb2 Hb3.
  destruct l as [|h t]; [by apply ring_nonempty in HT|].
  set (w1 := w <| held ::= fun h => {[ LSwap p ]} ∪ h |>).
  assert (length s <= length P)%nat as Hlen.
  { destruct HS as [(Hnd & _) HF]. rewrite <- (length_seq (length P) 0). apply NoDup_incl_length.
    - by rewrite <- NoDup_ListNoDup.
    - intros i Hi%list_elem_of_In. apply in_seq. rewrite Forall_forall in HF. apply HF in Hi. lia. }
  destruct (swap_walk w1 p Hp s h t L b P walk_fuel) as (P' & Hrun & H); [unfold walk_fuel; lia|done..|].
  exists P'. split; [|done]. unfold swap_in.
  rewrite lock_run by done.
  change (set held _ (view w p L b P)) with (view w1 p L b P).
  mstep Hrun. unfold unlock, modify, view, w1. cbn. do 2 f_equal. set_solver.
Qed.
