(* ===== verification/SchedCorrect.v ===== *)
(** * Threads: correctness of the scheduler

    The scheduler core as a whole, the context switch, and what the handlers
    do to the register state. *)
From S2P Require Import Prelude ThreadDefs Ring ThreadFacts Sched SchedFacts.

(** ** What the scheduler relies on

    The running processor's thread list is a ring [l], the threads handed to
    it by other processors form the swap list [s], and the pointers of the
    list of all threads lead into the pool. *)
Record sched_wf (w : world) (b : PROCESSOR) (l s : list nat) : Prop := {
  wf_proc : Processors w !! cpu w = Some b;
  wf_pool : (length (ThreadPool w) <= MAX_THREAD_COUNT)%nat;
  wf_ring : thread_ring (ThreadPool w) l;
  wf_first : FirstThread b = head l;
  wf_last : LastThread b = last l;
  wf_swap : swap_list (ThreadPool w) s;
  wf_swap_first : FirstSwapProcess b = head s;
  wf_disjoint : forall i, i ∈ s -> i ∉ l;
  wf_full : full_ok (ThreadPool w) l;
  wf_swap_lock : LSwap (cpu w) ∉ held w
}.

(** The thread list and the pool the ready list is made from: the survivors of
    the first pass behind the threads taken in. *)
Definition next_list (w : world) (l s : list nat) : list nat :=
  rev s ++ survivors (ThreadPool w) l.
Definition next_pool (w : world) (l s : list nat) : pool :=
  move_pool (cpu w)
    (visit_pool (millisecond_clock_time w) (ThreadPool w) (visited (ThreadPool w) l)) s.
Definition candidates (w : world) (l s : list nat) : list nat :=
  ready_of (next_pool w l s) (next_list w l s).

(** All pointers of the thread and ready lists forgotten. *)
Definition strip_all (t : THREAD) : THREAD := strip_links (strip_ready t).

Lemma agree_all_links P Q : agree strip_links P Q -> agree strip_all P Q.
Proof.
  intros H. unfold agree, strip_all in *.
  apply (f_equal (fmap strip_ready)) in H. rewrite <- !list_fmap_compose in H. exact H.
Qed.

Lemma agree_all_ready P Q : agree strip_ready P Q -> agree strip_all P Q.
Proof.
  intros H. unfold agree, strip_all in *.
  apply (f_equal (fmap strip_links)) in H. rewrite <- !list_fmap_compose in H. exact H.
Qed.

Lemma move_pool_mono p s P Q :
  agree strip_links P Q -> agree strip_links (move_pool p P s) (move_pool p Q s).
Proof.
  revert P Q. unfold move_pool. induction s as [|x s IH]; intros P Q H; [done|]. cbn. apply IH.
  by apply agree_alter_mono.
Qed.

Lemma boost_all t : strip_all (boost (strip_all t)) = strip_all (boost t).
Proof.
  unfold boost. change (PriorityBoost (strip_all t)) with (PriorityBoost t).
  change (MaxPriorityBoost (strip_all t)) with (MaxPriorityBoost t).
  destruct (PriorityBoost t <? MaxPriorityBoost t); reflexivity.
Qed.

Lemma boost_pool_mono win l P Q :
  agree strip_all P Q -> agree strip_all (boost_pool win P l) (boost_pool win Q l).
Proof.
  revert P Q. unfold boost_pool. induction l as [|x l IH]; intros P Q H; [done|]. cbn. apply IH.
  case_decide; [done|]. apply agree_alter_mono; [apply boost_all|done].
Qed.

Lemma elect_from_agree P Q win l :
  agree strip_all P Q -> elect_from P win l = elect_from Q win l.
Proof.
  intros H. assert (forall x, prio_of P x = prio_of Q x) as E.
  { intros x. unfold prio_of. f_equal. by apply (agree_fv strip_all prio). }
  revert win. induction l as [|x l IH]; intros win; [done|]. cbn. by rewrite !E, IH.
Qed.

Lemma ready_of_all P Q l : agree strip_all P Q -> ready_of P l = ready_of Q l.
Proof.
  intros H. unfold ready_of. f_equal. apply List.filter_ext. intros x.
  unfold readyb. f_equal. by apply (agree_fv strip_all is_ready).
Qed.

(** The thread list is not changed by writes to other fields. *)
Lemma thread_ring_boost P Q l : agree strip_boost P Q -> thread_ring Q l -> thread_ring P l.
Proof. intros H. apply ring_ext; intros x _; by apply (agree_link strip_boost). Qed.

Lemma swap_list_frame l P P' s :
  frame l P P' -> length P' = length P -> (forall i, i ∈ s -> i ∉ l) -> swap_list P s -> swap_list P' s.
Proof.
  intros HF Hlen Hd [(H1 & H2 & H3 & H4) H5]. split; [split_and!|].
  - done.
  - revert H2. apply chain_ext. intros l1 x y l2 ->. split.
    + apply HF, Hd. set_solver.
    + apply HF, Hd. set_solver.
  - intros x Hx. destruct (HF x) as [-> _]; [apply Hd; by apply last_Some_elem_of|]. by apply H3.
  - intros x Hx. destruct (HF x) as [_ ->]; [apply Hd; by apply head_Some_elem_of|]. by apply H4.
  - by rewrite Hlen.
Qed.

Lemma visit_pool_length now P l : length (visit_pool now P l) = length P.
Proof.
  revert P. unfold visit_pool. induction l as [|x l IH]; intros P; [done|].
  cbn. by rewrite IH, length_alter.
Qed.

Lemma move_pool_length p P l : length (move_pool p P l) = length P.
Proof.
  revert P. unfold move_pool. induction l as [|x l IH]; intros P; [done|].
  cbn. by rewrite IH, length_alter.
Qed.

Lemma next_pool_length w l s : length (next_pool w l s) = length (ThreadPool w).
Proof. unfold next_pool. by rewrite move_pool_length, visit_pool_length. Qed.

Lemma next_pool_fv {A} (F : THREAD -> A) w l s x :
  (forall t, F (visit (millisecond_clock_time w) t) = F t) -> (forall t, F (move (cpu w) t) = F t) ->
  fv F (next_pool w l s) x = fv F (ThreadPool w) x.
Proof.
  intros HV HM. unfold next_pool. transitivity (fv F (visit_pool (millisecond_clock_time w)
    (ThreadPool w) (visited (ThreadPool w) l)) x).
  - unfold move_pool. generalize (visit_pool (millisecond_clock_time w) (ThreadPool w)
      (visited (ThreadPool w) l)).
    induction s as [|y s IH]; intros P; [done|]. cbn. rewrite IH. by apply fv_alter_other.
  - generalize (visited (ThreadPool w) l) as v.
    induction v as [|y v IH] using rev_ind; [done|]. rewrite visit_pool_snoc.
    by rewrite fv_alter_other.
Qed.

(** The entry of a thread in [next_pool] comes from its entry in the pool. *)
Lemma foldl_alter_lookup (f : THREAD -> THREAD) (l : list nat) (P Q : pool) (x : nat) :
  P !! x = Q !! x ->
  foldl (fun R i => alter f i R) P l !! x = foldl (fun R i => alter f i R) Q l !! x.
Proof.
  revert P Q. induction l as [|y l IH]; intros P Q H; [done|]. cbn. apply IH.
  rewrite !list_lookup_alter. case_decide; subst; [by rewrite H|done].
Qed.

Lemma next_pool_lookup w1 w2 l s x :
  visited (ThreadPool w1) l = visited (ThreadPool w2) l -> cpu w1 = cpu w2 ->
  millisecond_clock_time w1 = millisecond_clock_time w2 ->
  ThreadPool w1 !! x = ThreadPool w2 !! x -> next_pool w1 l s !! x = next_pool w2 l s !! x.
Proof.
  intros E1 E2 E3 H. unfold next_pool, move_pool, visit_pool. rewrite E1, E2, E3.
  by do 2 apply foldl_alter_lookup.
Qed.

Lemma move_pool_other p s (P : pool) x : x ∉ s -> move_pool p P s !! x = P !! x.
Proof.
  revert P. unfold move_pool. induction s as [|y s IH]; intros P Hx; [done|]. cbn.
  rewrite IH by set_solver. apply lookup_alter_ne_list. set_solver.
Qed.

Lemma visit_running now t :
  ThreadIsRunning (visit now t) = ThreadIsRunning t /\ Context (visit now t) = Context t.
Proof. unfold visit, wake. destruct (reapable t), (_ && _); done. Qed.

(** The passes before the election. *)
Lemma schedule_lists_run w b l s :
  sched_wf w b l s -> survivors (ThreadPool w) l <> [] ->
  exists L' P' w1, let l' := next_list w l s in
    first_pass (cpu w) w = Ok tt w1 /\
    swap_in (cpu w) w1 =
      Ok tt (view w (cpu w) L' (b <| FirstSwapProcess := None |>
               <| FirstThread := head l' |> <| LastThread := last l' |>) P') /\
    thread_ring P' l' /\ agree strip_links P' (next_pool w l s).
Proof.
  intros [Hb HP HT Hf Hl HS HSf Hd Hfull Hlock] Hsv.
  assert (is_Some (Processors w !! cpu w)) as Hp by eauto.
  set (p := cpu w) in *. set (sv := survivors (ThreadPool w) l) in *.
  destruct (first_pass_run w p Hp (live w) b (ThreadPool w) l HT HP Hsv Hf Hl Hfull)
    as (L1 & P1 & Hrun1 & HT1 & Hag1 & HF1). fold sv in Hrun1, HT1.
  rewrite <- (view_id w p b Hb) in Hrun1.
  assert (length P1 = length (ThreadPool w)) as Hlen1
    by (by rewrite (agree_length _ _ _ Hag1), visit_pool_length).
  assert (forall i, i ∈ s -> i ∉ sv) as Hd'.
  { intros i Hi Hin. apply (Hd i Hi). unfold sv, survivors in Hin. destruct l as [|h t]; [done|].
    destruct (reapableb (ThreadPool w) h); [by right|]. by apply kept_elem in Hin. }
  destruct (swap_in_run w p sv s L1 (b <| FirstThread := head sv |> <| LastThread := last sv |>) P1
    Hp HT1 ltac:(lia) (swap_list_frame l _ _ s HF1 Hlen1 Hd HS) Hd' Hlock HSf eq_refl eq_refl)
    as (P2 & Hrun2 & HT2 & Hl2 & Hag2).
  exists L1, P2. eexists. cbv zeta. split_and!; [exact Hrun1| |exact HT2|].
  - rewrite Hrun2. unfold next_list. fold sv. do 2 f_equal. cbn in Hl2. rewrite Hl2. done.
  - etransitivity; [exact Hag2|]. unfold next_pool. by apply move_pool_mono.
Qed.

(** [thread_schedule_core] on a well-formed processor with a thread to run:
    it returns the first candidate of the highest effective priority, leaves
    the survivors and the threads taken in as the thread list, and changes
    nothing of the threads but timers, reaped flags and boosts. *)
Lemma schedule_core_run w b l s r R :
  sched_wf w b l s -> survivors (ThreadPool w) l <> [] -> candidates w l s = r :: R ->
  let A := next_pool w l s in
  let win := elect_from A r R in
  exists L' P', let l' := next_list w l s in
    thread_schedule_core w =
      Ok (Some win) (view w (cpu w) L' (b <| FirstSwapProcess := None |>
                       <| FirstThread := head l' |> <| LastThread := last l' |>) P') /\
    thread_ring P' l' /\
    agree strip_all P' (boost_pool win A (r :: R)).
Proof.
  intros Hwf Hsv Hc A win.
  destruct (schedule_lists_run w b l s Hwf Hsv) as (L1 & P1 & w1 & Hrun1 & Hrun2 & HT1 & Hag1).
  set (p := cpu w) in *. set (l' := next_list w l s) in *.
  set (b1 := b <| FirstSwapProcess := None |> <| FirstThread := head l' |> <| LastThread := last l' |>) in *.
  assert (is_Some (Processors w !! p)) as Hp by (exists b; apply (wf_proc _ _ _ _ Hwf)).
  assert (length P1 <= MAX_THREAD_COUNT)%nat as HP1.
  { rewrite (agree_length _ _ _ Hag1). unfold next_pool.
    rewrite move_pool_length, visit_pool_length. apply (wf_pool _ _ _ _ Hwf). }
  assert (agree strip_all P1 A) as HagA by by apply agree_all_links.
  assert (ready_of P1 l' = r :: R) as Hready by (by rewrite (ready_of_all P1 A)).
  destruct l' as [|h t] eqn:El; [by apply ring_nonempty in HT1|].
  destruct (populate_ready_run p b1 (view w p L1 b1 P1) P1 h t (view_proc w p Hp L1 b1 P1)
    eq_refl HT1 HP1) as (P2 & Hrun3 & Hag2 & HR2).
  rewrite view_with_pool in Hrun3. rewrite Hready in Hrun3, HR2.
  destruct HR2 as [?|HR2]; [done|].
  assert (length P2 <= MAX_THREAD_COUNT)%nat as HP2 by (by rewrite (agree_length _ _ _ Hag2)).
  assert (agree strip_all P2 A) as HagA2 by (etransitivity; [by apply agree_all_ready|done]).
  pose proof (elect_run (view w p L1 b1 P1) P2 r R HR2 HP2) as Hrun4.
  rewrite (elect_from_agree P2 A r R HagA2) in Hrun4. fold win in Hrun4.
  pose proof (boost_losers_run (view w p L1 b1 P1) win P2 r R HR2 HP2) as Hrun5.
  exists L1, (boost_pool win P2 (r :: R)). cbv zeta. split_and!.
  - unfold thread_schedule_core, thread_get_processor_block. rewrite gets_run.
    fold p. mstep Hrun1. mstep Hrun2. mstep Hrun3. cbn [fst head].
    mstep Hrun4. mstep Hrun5. done.
  - apply (thread_ring_boost _ P2); [apply boost_pool_agree|].
    by apply (agree_ready_threads P2 P1).
  - by apply boost_pool_mono.
Qed.

(** ** A thread that is always ready keeps the scheduler going *)

Lemma fv_lookup_ready P i : fv is_ready P i = Some true -> exists t, P !! i = Some t /\ is_ready t = true.
Proof. by intros (t & Ht & Hr)%fv_Some; exists t. Qed.

Lemma ready_not_reapable P i : fv is_ready P i = Some true -> reapableb P i = false.
Proof.
  intros (t & Ht & Hr)%fv_lookup_ready. unfold reapableb, fv. rewrite Ht. simpl.
  unfold is_ready in Hr. unfold reapable. destruct (ThreadTerminated t =? 0) eqn:E; [|done].
  apply Z.eqb_eq in E. by rewrite E.
Qed.

Lemma visit_ready now t : is_ready t = true -> visit now t = t.
Proof.
  intros Hr. unfold is_ready in Hr.
  apply andb_prop in Hr as [[[H1 H2]%andb_prop H3]%andb_prop H4]. apply Z.eqb_eq in H1, H3.
  unfold visit, wake, reapable. rewrite H1, H3. done.
Qed.

Lemma visit_pool_ready now P l i :
  fv is_ready P i = Some true -> visit_pool now P l !! i = P !! i.
Proof.
  intros (t & Ht & Hr)%fv_lookup_ready.
  induction l as [|x l IH] using rev_ind; [done|]. rewrite visit_pool_snoc, list_lookup_alter.
  case_decide; [subst|done]. rewrite IH, Ht. simpl. by rewrite visit_ready.
Qed.

Lemma move_pool_fv p s P i : fv is_ready (move_pool p P s) i = fv is_ready P i.
Proof.
  revert P. unfold move_pool. induction s as [|x s IH]; intros P; [done|]. cbn.
  rewrite IH. by apply fv_alter_other.
Qed.

Lemma survivors_ready P l i : i ∈ l -> fv is_ready P i = Some true -> i ∈ survivors P l.
Proof.
  intros Hi Hr%ready_not_reapable. unfold survivors. destruct l as [|h t]; [done|].
  destruct (reapableb P h) eqn:Eh.
  - apply elem_of_cons in Hi as [->|Hi]; [congruence|done].
  - unfold kept. rewrite list_elem_of_In, List.filter_In, <- list_elem_of_In. by rewrite Hr.
Qed.

(** A ready member of the list is a candidate. *)
Lemma candidate_ready w l s i :
  i ∈ l -> fv is_ready (ThreadPool w) i = Some true -> i ∈ candidates w l s.
Proof.
  intros Hi Hr. unfold candidates. apply elem_of_ready_of. split.
  - unfold next_list. apply elem_of_app. right. by apply survivors_ready.
  - unfold readyb, next_pool. rewrite move_pool_fv. unfold fv.
    rewrite visit_pool_ready by done. unfold fv in Hr. by rewrite Hr.
Qed.

Lemma ready_list_nonempty w l s i :
  i ∈ l -> fv is_ready (ThreadPool w) i = Some true ->
  survivors (ThreadPool w) l <> [] /\ exists r R, candidates w l s = r :: R.
Proof.
  intros Hi Hr. split.
  - intros E. pose proof (survivors_ready _ l i Hi Hr) as Hin. rewrite E in Hin. by apply elem_of_nil in Hin.
  - pose proof (candidate_ready w l s i Hi Hr) as Hc.
    destruct (candidates w l s) as [|r R]; [by apply elem_of_nil in Hc|eauto].
Qed.

(** ** The properties *)

(** The thread list of the processor after a run, as the code finds it. *)
Definition list_of (w : world) (l : list nat) : Prop :=
  exists b, Processors w !! cpu w = Some b /\
    FirstThread b = head l /\ LastThread b = last l /\ FirstSwapProcess b = None /\
    thread_ring (ThreadPool w) l.

(** C1: with a thread that is always ready in its list (the idle thread),
    [thread_schedule_core] returns; what it elects is a candidate no candidate
    beats in effective priority (base priority plus boost), and the earliest
    such in the ready list; and the thread list it leaves is the ring of the
    threads taken in from other processors and the threads not reaped. *)
Theorem thread_schedule_core_elects w b l s idle :
  sched_wf w b l s -> idle ∈ l -> fv is_ready (ThreadPool w) idle = Some true ->
  exists win w',
    thread_schedule_core w = Ok (Some win) w' /\
    list_of w' (next_list w l s) /\
    win ∈ candidates w l s /\
    (forall x, x ∈ candidates w l s -> prio_of (next_pool w l s) x <= prio_of (next_pool w l s) win) /\
    (exists l1 l2, candidates w l s = l1 ++ win :: l2 /\
       Forall (fun x => prio_of (next_pool w l s) x < prio_of (next_pool w l s) win) l1).
Proof.
  intros Hwf Hi Hr. destruct (ready_list_nonempty w l s idle Hi Hr) as (Hsv & r & R & Hc).
  destruct (schedule_core_run w b l s r R Hwf Hsv Hc) as (L' & P' & Hrun & HT & Hag).
  destruct (elect_from_spec (next_pool w l s) R r) as (H1 & H2 & H3).
  rewrite Hc. do 2 eexists. split; [exact Hrun|]. split_and!; [|done| |done].
  - eexists. split; [apply view_proc; exists b; apply (wf_proc _ _ _ _ Hwf)|]. done.
  - by apply Forall_forall.
Qed.

(** Scheduling ages the losers.  Of the fields of a thread that are not
    list pointers, the scheduler core changes the boost of every candidate
    that did not win, by one step and never over its maximum, and otherwise
    only what the first pass and the take-over do ([next_pool]). *)
Theorem thread_schedule_core_boosts w b l s idle win w' :
  sched_wf w b l s -> idle ∈ l -> fv is_ready (ThreadPool w) idle = Some true ->
  thread_schedule_core w = Ok (Some win) w' ->
  forall x t', ThreadPool w' !! x = Some t' ->
  exists t, next_pool w l s !! x = Some t /\
    strip_all t' = strip_all (if decide (x ∈ candidates w l s /\ x <> win) then boost t else t).
Proof.
  intros Hwf Hi Hr Hrun x t' Ht'. destruct (ready_list_nonempty w l s idle Hi Hr) as (Hsv & r & R & Hc).
  destruct (schedule_core_run w b l s r R Hwf Hsv Hc) as (L' & P' & Hrun' & HT & Hag).
  rewrite Hrun' in Hrun. simplify_eq. rewrite Hc. change (P' !! x = Some t') in Ht'.
  destruct (agree_lookup _ _ _ _ _ Hag Ht') as (t1 & Ht1 & ->).
  assert (NoDup (r :: R)) as Hnd.
  { rewrite <- Hc. apply NoDup_ready_of. by apply ring_nodup in HT. }
  rewrite boost_pool_lookup in Ht1 by done. apply fmap_Some in Ht1 as (t & Ht & ->).
  exists t. split; [done|]. by case_decide.
Qed.

(** ** Switching threads *)

(** Fields the scheduler does not look at: forgetting them changes none of its
    decisions. *)
Class Neutral (strip : THREAD -> THREAD) : Prop := {
  n_next t : NextThread (strip t) = NextThread t;
  n_prev t : PreviousThread (strip t) = PreviousThread t;
  n_next_full t : NextThreadFull (strip t) = NextThreadFull t;
  n_prev_full t : PreviousThreadFull (strip t) = PreviousThreadFull t;
  n_reapable t : reapable (strip t) = reapable t;
  n_ready t : is_ready (strip t) = is_ready t;
  n_prio t : prio (strip t) = prio t;
  n_visit now t : strip (visit now (strip t)) = strip (visit now t);
  n_move p t : strip (move p (strip t)) = strip (move p t)
}.

Definition strip_run (t : THREAD) : THREAD := t <| ThreadIsRunning := 0 |>.
Definition strip_context (t : THREAD) : THREAD := t <| Context := CONTEXT_zero |>.

Ltac solve_neutral strip :=
  split; try reflexivity; intros now t; unfold visit, wake;
  change (reapable (strip t)) with (reapable t);
  change (SleepTime (strip t)) with (SleepTime t);
  destruct (reapable t), (nz (SleepTime t) && (s64 (SleepTime t - now) <? 0)); reflexivity.

#[global] Instance neutral_run : Neutral strip_run.
Proof. solve_neutral strip_run. Qed.
#[global] Instance neutral_context : Neutral strip_context.
Proof. solve_neutral strip_context. Qed.

Section neutral.
Context (strip : THREAD -> THREAD) {HN : Neutral strip} (P Q : pool) (H : agree strip P Q).

Lemma neutral_reapableb x : reapableb P x = reapableb Q x.
Proof. unfold reapableb. f_equal. apply (agree_fv strip reapable); [apply n_reapable|done]. Qed.
Lemma neutral_links x :
  link NextThread P x = link NextThread Q x /\ link PreviousThread P x = link PreviousThread Q x.
Proof. split; apply (agree_link strip); (done || apply n_next || apply n_prev). Qed.
Lemma neutral_ring l : thread_ring Q l -> thread_ring P l.
Proof. apply ring_ext; intros x _; apply neutral_links. Qed.
Lemma neutral_full l : full_ok Q l -> full_ok P l.
Proof.
  intros HQ x Hx. destruct (HQ x Hx) as (n & q & ?). exists n, q.
  rewrite (agree_fv strip NextThreadFull P Q), (agree_fv strip PreviousThreadFull P Q)
    by (done || apply n_next_full || apply n_prev_full).
  by rewrite (agree_length _ _ _ H).
Qed.
Lemma neutral_swap_list s : swap_list Q s -> swap_list P s.
Proof.
  intros HS. apply (swap_list_frame [] Q P s); [|by eapply agree_length|set_solver|done].
  intros x _. apply neutral_links.
Qed.
Lemma neutral_survivors l : survivors P l = survivors Q l.
Proof.
  unfold survivors. destruct l as [|h t]; [done|]. rewrite neutral_reapableb.
  destruct (reapableb Q h); [done|]. apply List.filter_ext. intros x. by rewrite neutral_reapableb.
Qed.
Lemma neutral_visited l : visited P l = visited Q l.
Proof. unfold visited. destruct l as [|h t]; [done|]. by rewrite neutral_reapableb. Qed.
Lemma neutral_visit_pool now l : agree strip (visit_pool now P l) (visit_pool now Q l).
Proof.
  induction l as [|x l IH] using rev_ind; [done|]. rewrite !visit_pool_snoc.
  apply agree_alter_mono; [apply n_visit|done].
Qed.
Lemma neutral_move_pool p s : agree strip (move_pool p P s) (move_pool p Q s).
Proof.
  unfold move_pool. revert H. generalize P Q.
  induction s as [|x s IH]; intros A B HAB; [done|]. cbn. apply IH.
  apply agree_alter_mono; [apply n_move|done].
Qed.
End neutral.

(** Two states the scheduler cannot tell apart. *)
Record similar (strip : THREAD -> THREAD) (w1 w2 : world) : Prop := {
  sim_pool : agree strip (ThreadPool w1) (ThreadPool w2);
  sim_cpu : cpu w1 = cpu w2;
  sim_clock : millisecond_clock_time w1 = millisecond_clock_time w2
}.

Section similar.
Context (strip : THREAD -> THREAD) {HN : Neutral strip} (w1 w2 : world) (H : similar strip w1 w2).

Lemma similar_wf b1 b2 l s :
  Processors w1 !! cpu w1 = Some b1 ->
  FirstThread b1 = FirstThread b2 -> LastThread b1 = LastThread b2 ->
  FirstSwapProcess b1 = FirstSwapProcess b2 -> LSwap (cpu w1) ∉ held w1 ->
  sched_wf w2 b2 l s -> sched_wf w1 b1 l s.
Proof.
  intros Hb E1 E2 E3 Hlk [? HP HT ? ? HS ? ? Hfull _]. destruct H as [Hag Hc _].
  split; try done; try congruence.
  - by rewrite (agree_length _ _ _ Hag).
  - by apply (neutral_ring strip _ _ Hag).
  - by apply (neutral_swap_list strip _ _ Hag).
  - by apply (neutral_full strip _ _ Hag).
Qed.

Lemma similar_next_pool l s : agree strip (next_pool w1 l s) (next_pool w2 l s).
Proof.
  destruct H as [Hag Hc Ht]. unfold next_pool. rewrite (neutral_visited strip _ _ Hag), Hc, Ht.
  by apply neutral_move_pool, neutral_visit_pool.
Qed.

Lemma similar_next_list l s : next_list w1 l s = next_list w2 l s.
Proof. unfold next_list. by rewrite (neutral_survivors strip _ _ (sim_pool _ _ _ H)). Qed.

Lemma similar_candidates l s : candidates w1 l s = candidates w2 l s.
Proof.
  unfold candidates, ready_of. rewrite similar_next_list. f_equal.
  apply List.filter_ext. intros x. unfold readyb. f_equal.
  apply (agree_fv strip is_ready); [apply n_ready|apply similar_next_pool].
Qed.

Lemma similar_prio l s x : prio_of (next_pool w1 l s) x = prio_of (next_pool w2 l s) x.
Proof.
  unfold prio_of. f_equal. apply (agree_fv strip prio); [apply n_prio|apply similar_next_pool].
Qed.

Lemma similar_ready x : fv is_ready (ThreadPool w1) x = fv is_ready (ThreadPool w2) x.
Proof. apply (agree_fv strip is_ready); [apply n_ready|apply (sim_pool _ _ _ H)]. Qed.
End similar.

(** The state [thread_schedule] runs the core in. *)
Definition stopping (w : world) (cur : nat) : world :=
  w <| held ::= fun h => {[ LProc (cpu w) ]} ∪ h |>
    <| ThreadPool ::= alter (set ThreadIsRunning (fun _ => 0)) cur |>.

Lemma stopping_similar w cur : similar strip_run (stopping w cur) w.
Proof. split; [by apply agree_alter|done|done]. Qed.

(** What [thread_schedule] leaves when it switches from [cur] to [win]. *)
Record switched (w : world) (b : PROCESSOR) (l s : list nat) (cur win : nat) (c : CONTEXT)
    (w' : world) : Prop := {
  sw_candidate : win ∈ candidates w l s;
  sw_best : forall x, x ∈ candidates w l s ->
    prio_of (next_pool w l s) x <= prio_of (next_pool w l s) win;
  sw_proc : Processors w' !! cpu w = Some (b <| FirstSwapProcess := None |>
    <| FirstThread := head (next_list w l s) |> <| LastThread := last (next_list w l s) |>
    <| CurrentThread := Some win |>);
  sw_ring : thread_ring (ThreadPool w') (next_list w l s);
  sw_cpu : cpu w' = cpu w;
  sw_cpus : Cpus w' = Cpus w;
  sw_held : held w' = held w;
  sw_contexts : forall x, fv Context (ThreadPool w') x = fv Context (next_pool w l s) x;
  sw_context : fv Context (next_pool w l s) win = Some c;
  sw_boost : fv PriorityBoost (ThreadPool w') win = Some 0;
  sw_running : fv ThreadIsRunning (ThreadPool w') win = Some 1;
  sw_stopped : cur <> win -> fv ThreadIsRunning (ThreadPool w') cur = Some 0;
  sw_len : length (ThreadPool w') = length (ThreadPool w)
}.

Section scheduling.
Variable call : Z -> Z -> Z -> Z -> K unit.
Variable dpc_fuel : nat.

(** No DPC is waiting, or the list is being processed already. *)
Definition dpc_quiet (w : world) (b : PROCESSOR) : Prop :=
  ProcessingDPC b <> 0 \/ (ProcessingDPC b = 0 /\ DPCList b = None /\ LDpc (cpu w) ∉ held w).

Lemma process_dpc_quiet w b :
  Processors w !! cpu w = Some b -> ProcessingDPC b = 0 -> DPCList b = None ->
  LDpc (cpu w) ∉ held w -> thread_process_dpc call dpc_fuel w = Ok tt w.
Proof.
  intros Hb H0 HD Hl. unfold thread_process_dpc, thread_get_processor_block. rewrite gets_run.
  assert (is_Some (Processors w !! cpu w)) as Hp by eauto.
  rewrite lock_run by done. set (w1 := set held _ w).
  rewrite (view_id w1 (cpu w) b Hb). rewrite (view_pr_upd w1 (cpu w) Hp).
  rewrite (view_pr_get w1 (cpu w) Hp). cbn [DPCList set]. rewrite HD. rt.
  rewrite (view_pr_upd w1 (cpu w) Hp). unfold unlock, modify. f_equal.
  destruct w; unfold view, w1 in *; cbn in *. f_equal; [|set_solver].
  rewrite list_insert_id; [done|]. rewrite Hb. f_equal. destruct b; cbn in *. by subst.
Qed.

(** The end of [thread_schedule], after the core has elected [win]. *)
Lemma schedule_end w cur L b P win c :
  is_Some (Processors w !! cpu w) -> (win < length P)%nat -> LProc (cpu w) ∉ held w ->
  dpc_quiet w b -> fv Context P win = Some c ->
  (pthr <- ret (Some win) ;;
   pthr ->> PriorityBoost <<- 0 ;;
   pr_upd (cpu w) (set CurrentThread (fun _ => pthr)) ;;
   pthr ->> ThreadIsRunning <<- 1 ;;
   context <- pthr ->> Context ;;
   unlock (LProc (cpu w)) ;;
   processing <- pr_get (cpu w) ProcessingDPC ;;
   when (processing =? 0) (thread_process_dpc call dpc_fuel) ;;
   ret context) (view (stopping w cur) (cpu w) L b P) =
  Ok c (view w (cpu w) L (b <| CurrentThread := Some win |>)
          (alter (set ThreadIsRunning (fun _ => 1)) win (alter (set PriorityBoost (fun _ => 0)) win P))).
Proof.
  intros Hp Hw Hl Hq Hc. rt. vwr Hp.
  assert (is_Some (Processors (stopping w cur) !! cpu w)) as Hp1 by done.
  vpw Hp1. vwr Hp.
  assert (fv Context (alter (set ThreadIsRunning (fun _ => 1)) win
            (alter (set PriorityBoost (fun _ => 0)) win P)) win = Some c) as Hc'
    by (by rewrite !fv_alter_other).
  vrd Hp Hc'. unfold unlock. rewrite modify_run.
  assert (forall Lv bv Pv, set held (fun h => h ∖ {[LProc (cpu w)]}) (view (stopping w cur) (cpu w) Lv bv Pv)
     = view w (cpu w) Lv bv Pv) as Hh.
  { intros. unfold view, stopping. destruct w; cbn in *. f_equal. set_solver. }
  rewrite Hh. vpr Hp. cbn [ProcessingDPC set]. unfold when.
  destruct Hq as [Hq|(Hq & HD & HL)].
  - apply Z.eqb_neq in Hq. rewrite Hq. done.
  - replace (ProcessingDPC b =? 0) with true by (by rewrite Hq). unfold bind at 1.
    rewrite (process_dpc_quiet _ (b <| CurrentThread := Some win |>)); [done| |done..].
    by apply view_proc.
Qed.

Lemma thread_schedule_run w b l s idle cur :
  sched_wf w b l s -> idle ∈ l -> fv is_ready (ThreadPool w) idle = Some true ->
  CurrentThread b = Some cur -> (cur < length (ThreadPool w))%nat ->
  LProc (cpu w) ∉ held w -> dpc_quiet w b ->
  exists win c w', thread_schedule call dpc_fuel w = Ok c w' /\ switched w b l s cur win c w'.
Proof.
  intros Hwf Hi Hr Hcur Hcl Hlock Hq.
  pose proof (wf_proc _ _ _ _ Hwf) as Hb.
  assert (is_Some (Processors w !! cpu w)) as Hp by eauto.
  pose proof (stopping_similar w cur) as Hsim.
  assert (sched_wf (stopping w cur) b l s) as Hwf1.
  { eapply (similar_wf strip_run); [exact Hsim|done..| |done].
    pose proof (wf_swap_lock _ _ _ _ Hwf). cbn. set_solver. }
  assert (fv is_ready (ThreadPool (stopping w cur)) idle = Some true) as Hr1
    by (by rewrite (similar_ready strip_run _ _ Hsim)).
  destruct (ready_list_nonempty (stopping w cur) l s idle Hi Hr1) as (Hsv & r & R & Hc).
  destruct (schedule_core_run _ b l s r R Hwf1 Hsv Hc) as (L' & P' & Hrun & HT & Hag).
  destruct (elect_from_spec (next_pool (stopping w cur) l s) R r) as (H1 & H2 & _).
  set (win := elect_from _ r R) in *. set (A := next_pool (stopping w cur) l s) in *.
  rewrite <- Hc, (similar_candidates strip_run _ _ Hsim) in H1, H2.
  assert (next_list (stopping w cur) l s = next_list w l s) as Hnl.
  { by apply (similar_next_list strip_run). }
  assert (win < length P')%nat as Hwl.
  { eapply link_ring_lt; [exact HT|]. rewrite Hnl. by apply elem_of_ready_of in H1 as [? _]. }
  assert (forall x, fv Context P' x = fv Context (next_pool w l s) x) as Hctx.
  { intros x. rewrite (agree_fv strip_all Context _ _ _ (fun _ => eq_refl) Hag).
    rewrite (agree_fv strip_boost Context _ _ _ (fun _ => eq_refl) (boost_pool_agree win (r :: R) A)).
    by apply (agree_fv strip_run), (similar_next_pool strip_run). }
  pose proof Hwl as [tw Htw]%lookup_lt_is_Some.
  assert (fv Context P' win = Some (Context tw)) as Hcw by (apply fv_Some; eauto).
  do 3 eexists. split.
  - unfold thread_schedule, thread_get_processor_block. rewrite gets_run, lock_run by done.
    rewrite (pr_get_run _ _ _ b) by done. rewrite Hcur, th_upd_run by done.
    change (set ThreadPool _ (set held _ w)) with (stopping w cur).
    mstep Hrun.
    refine (schedule_end w cur L' _ P' win (Context tw) _ _ _ _ _); [done..| |done].
    destruct Hq as [?|(?&?&?)]; [by left|by right].
  - rewrite Hnl in *. split.
    + done.
    + intros x Hx. rewrite Forall_forall in H2. apply H2 in Hx. unfold A in Hx. by rewrite !(similar_prio strip_run _ _ Hsim) in Hx.
    + by apply view_proc.
    + rewrite view_pool. revert HT. apply ring_ext; intros x _; by rewrite !link_alter_other.
    + done.
    + done.
    + done.
    + intros x. rewrite view_pool. by rewrite !fv_alter_other.
    + by rewrite <- Hctx.
    + rewrite view_pool. rewrite fv_alter_other by done. rewrite fv_alter. by apply fv_const.
    + rewrite view_pool. rewrite fv_alter. apply fv_const; [done|]. by rewrite alter_is_Some.
    + intros Hne. rewrite view_pool. rewrite fv_alter_ne, fv_alter_other by done.
      rewrite (agree_fv strip_all ThreadIsRunning _ _ _ (fun _ => eq_refl) Hag).
      rewrite (agree_fv strip_boost ThreadIsRunning _ _ _ (fun _ => eq_refl) (boost_pool_agree win (r :: R) A)).
      unfold A. rewrite next_pool_fv; [|intros; apply visit_running|done].
      change (ThreadPool (stopping w cur)) with (alter (set ThreadIsRunning (fun _ => 0)) cur (ThreadPool w)).
      rewrite fv_alter. apply fv_const; [done|]. by apply lookup_lt_is_Some.
    + rewrite view_pool. rewrite !length_alter, (agree_length _ _ _ Hag), (agree_length _ _ _ (boost_pool_agree _ _ _)).
      unfold A. rewrite next_pool_length. apply length_alter.
Qed.

(** ** The handlers *)

(** The context of the interrupted thread: the register save area with the
    floating point registers of the processor. *)
Definition live_context (b : PROCESSOR) (c : CPU) : CONTEXT := saved_context b (mkFPU (fpr c) (fpscr c)).

(** The state after [dump_thread_context] of the running thread [cur]. *)
Definition dumped (w : world) (b : PROCESSOR) (c : CPU) (cur : nat) : world :=
  w <| Cpus ::= alter (set fpr (<[3%nat := fpscr c]>)) (cpu w) |>
    <| ThreadPool ::= alter (set Context (fun _ => live_context b c)) cur |>.

Lemma dump_run w b c cur ctx :
  Processors w !! cpu w = Some b -> Cpus w !! cpu w = Some c -> CurrentThread b = Some cur ->
  (cur < length (ThreadPool w))%nat ->
  dump_thread_context (Some ctx) w = Ok (Some (live_context b c)) (dumped w b c cur).
Proof.
  intros Hb Hc Hcur Hl. unfold dump_thread_context, thread_get_processor_block. rewrite gets_run.
  rewrite (pr_get_run _ _ _ b) by done. rewrite (pr_get_run _ _ _ b) by done.
  unfold save_floating_point. norm. rewrite (cpu_get_run _ _ c) by done. norm.
  rewrite (cpu_get_run _ _ c) by done. norm. rewrite cpu_upd_run by eauto. norm. rewrite ret_run.
  rewrite Hcur, th_upd_run by done. done.
Qed.

Lemma restore_run w b c cur ctx :
  Processors w !! cpu w = Some b -> Cpus w !! cpu w = Some c -> CurrentThread b = Some cur ->
  (cur < length (ThreadPool w))%nat ->
  restore_thread_context (Some ctx) w =
    Ok tt (w <| ThreadPool ::= alter (set Context (fun _ => ctx)) cur |>
             <| Processors ::= alter (load_save_area ctx) (cpu w) |>
             <| Cpus ::= alter (fun c => c <| fpscr := Fpscr (FpuVpu ctx) |> <| fpr := Fpr (FpuVpu ctx) |>)
                  (cpu w) |>).
Proof.
  intros Hb Hc Hcur Hl. unfold restore_thread_context, thread_get_processor_block. rewrite gets_run.
  rewrite (pr_get_run _ _ _ b) by done. rewrite Hcur, th_upd_run by done.
  rewrite pr_upd_run by eauto. unfold restore_floating_point, cpu_upd. cbn. by rewrite Hc.
Qed.

(** The registers of the processor are those of context [ctx]. *)
Definition registers_hold (w : world) (p : nat) (ctx : CONTEXT) : Prop :=
  exists b c, Processors w !! p = Some b /\ Cpus w !! p = Some c /\ live_context b c = ctx.

Lemma live_load ctx b c :
  live_context (load_save_area ctx b) (c <| fpscr := Fpscr (FpuVpu ctx) |> <| fpr := Fpr (FpuVpu ctx) |>) = ctx.
Proof. by destruct ctx as [? ? ? ? ? ? ? []]. Qed.

Lemma next_pool_context w l s x :
  x ∉ s -> fv Context (next_pool w l s) x = fv Context (ThreadPool w) x.
Proof.
  intros Hx. unfold next_pool. transitivity (fv Context (visit_pool (millisecond_clock_time w)
    (ThreadPool w) (visited (ThreadPool w) l)) x).
  - unfold fv. by rewrite move_pool_other.
  - generalize (visited (ThreadPool w) l) as v.
    induction v as [|y v IH] using rev_ind; [done|]. rewrite visit_pool_snoc.
    rewrite fv_alter_other; [done|]. intros; apply visit_running.
Qed.

(** The state in which the system call handler calls the scheduler. *)
Definition in_syscall (w : world) (b : PROCESSOR) (c : CPU) (cur : nat) : world :=
  dumped w b c cur <| Processors ::= alter (set Irq (fun _ => 0)) (cpu w) |>.

Lemma in_syscall_similar w b c cur : similar strip_context (in_syscall w b c cur) w.
Proof. split; [by apply agree_alter|done|done]. Qed.

Lemma in_syscall_contexts w b c cur l s x :
  cur ∉ s -> (cur < length (ThreadPool w))%nat ->
  fv Context (next_pool (in_syscall w b c cur) l s) x =
  if decide (x = cur) then Some (live_context b c) else fv Context (next_pool w l s) x.
Proof.
  intros Hs Hl. case_decide as E.
  - subst. rewrite next_pool_context by done. cbn. rewrite fv_alter.
    apply fv_const; [done|]. by apply lookup_lt_is_Some.
  - unfold fv. f_equal. apply next_pool_lookup; [|done|done|].
    + apply (neutral_visited strip_context), (sim_pool _ _ _ (in_syscall_similar w b c cur)).
    + by apply lookup_alter_ne_list.
Qed.

(** C6: a system call switches contexts.  When the scheduler can run, the
    handler saves the registers of the interrupted thread [cur] in its
    context, elects [win], and leaves in the registers the context of [win]:
    the one [win] had when it was last switched out, or the very registers of
    [cur] when it goes on running; the interrupt level is 0. *)
Theorem system_call_switches w b l s idle cur c :
  sched_wf w b l s -> idle ∈ l -> fv is_ready (ThreadPool w) idle = Some true ->
  CurrentThread b = Some cur -> (cur < length (ThreadPool w))%nat -> cur ∉ s ->
  Cpus w !! cpu w = Some c -> LProc (cpu w) ∉ held w -> dpc_quiet w b ->
  exists win w' ctx,
    system_call_handler call dpc_fuel w = Ok tt w' /\
    win ∈ candidates w l s /\
    (forall x, x ∈ candidates w l s -> prio_of (next_pool w l s) x <= prio_of (next_pool w l s) win) /\
    (exists b', Processors w' !! cpu w = Some b' /\ CurrentThread b' = Some win /\ Irq b' = 0) /\
    registers_hold w' (cpu w) ctx /\ fv Context (ThreadPool w') win = Some ctx /\
    (cur = win -> ctx = live_context b c) /\
    (cur <> win -> fv Context (ThreadPool w') cur = Some (live_context b c) /\
                   fv Context (next_pool w l s) win = Some ctx).
Proof.
  intros Hwf Hi Hr Hcur Hcl Hcs Hc Hlk Hq. pose proof (wf_proc _ _ _ _ Hwf) as Hb.
  set (w2 := in_syscall w b c cur). pose proof (in_syscall_similar w b c cur) as Hsim. fold w2 in Hsim.
  assert (Processors w2 !! cpu w2 = Some (b <| Irq := 0 |>)) as Hb2.
  { cbn. by rewrite (lookup_alter_eq_Some _ _ _ b). }
  assert (sched_wf w2 (b <| Irq := 0 |>) l s) as Hwf2.
  { apply (similar_wf strip_context _ _ Hsim _ b); try done. apply (wf_swap_lock _ _ _ _ Hwf). }
  destruct (thread_schedule_run w2 (b <| Irq := 0 |>) l s idle cur) as (win & ctx & w3 & Hrun & HS);
    [done|done|by rewrite (similar_ready strip_context _ _ Hsim)|done|by cbn; rewrite length_alter|done|done|].
  pose proof (sw_cpus _ _ _ _ _ _ _ _ HS) as Hc3. cbn in Hc3.
  assert (Cpus w3 !! cpu w3 = Some (c <| fpr ::= <[3%nat := fpscr c]> |>)) as Hc3'.
  { rewrite Hc3, (sw_cpu _ _ _ _ _ _ _ _ HS). by apply lookup_alter_eq_Some. }
  assert (win < length (ThreadPool w3))%nat as Hwl.
  { apply lookup_lt_is_Some, (fv_is_Some PriorityBoost).
    rewrite (sw_boost _ _ _ _ _ _ _ _ HS). eauto. }
  pose proof (sw_proc _ _ _ _ _ _ _ _ HS) as Hb3.
  pose proof (sw_cpu _ _ _ _ _ _ _ _ HS) as Ep. change (cpu w2) with (cpu w) in Hb3, Ep.
  rewrite <- Ep in Hb3.
  pose proof (restore_run w3 _ _ win ctx Hb3 Hc3' eq_refl Hwl) as Hres. rewrite Ep in Hb3, Hc3', Hres.
  exists win. eexists. exists ctx. split_and!.
  - unfold system_call_handler. mstep (dump_run w b c cur CONTEXT_zero Hb Hc Hcur Hcl).
    unfold thread_get_processor_block. rewrite gets_run.
    change (cpu (dumped w b c cur)) with (cpu w). rewrite pr_upd_run by (cbn; eauto).
    change (set Processors _ (dumped w b c cur)) with w2. mstep Hrun. exact Hres.
  - rewrite <- (similar_candidates strip_context _ _ Hsim). apply (sw_candidate _ _ _ _ _ _ _ _ HS).
  - intros x. rewrite <- (similar_candidates strip_context _ _ Hsim).
    rewrite <- !(similar_prio strip_context _ _ Hsim). apply (sw_best _ _ _ _ _ _ _ _ HS).
  - eexists. cbn. split; [by apply lookup_alter_eq_Some|]. done.
  - do 2 eexists. cbn. split_and!; [by apply lookup_alter_eq_Some..|]. apply live_load.
  - cbn. rewrite fv_alter. apply fv_const; [done|]. by apply lookup_lt_is_Some.
  - intros ->. pose proof (sw_context _ _ _ _ _ _ _ _ HS) as Hx.
    unfold w2 in Hx. rewrite in_syscall_contexts, decide_True in Hx by done. congruence.
  - intros Hne. pose proof (sw_context _ _ _ _ _ _ _ _ HS) as Hx.
    unfold w2 in Hx. rewrite in_syscall_contexts, decide_False in Hx by done. split; [|done].
    cbn. rewrite fv_alter_ne by done. rewrite (sw_contexts _ _ _ _ _ _ _ _ HS).
    unfold w2. by rewrite in_syscall_contexts, decide_True.
Qed.

(** Above dispatch level the quantum timer disturbs nothing.  At an
    interrupt level over 2 the decrementer handler keeps the running thread,
    the registers and the locks, saves the registers in the thread's context,
    and restarts the quantum. *)
Theorem decrementer_masked w b c cur :
  Processors w !! cpu w = Some b -> Cpus w !! cpu w = Some c -> CurrentThread b = Some cur ->
  (cur < length (ThreadPool w))%nat -> 2 < Irq b ->
  exists w', decrementer_interrupt_handler call dpc_fuel w = Ok tt w' /\
    registers_hold w' (cpu w) (live_context b c) /\
    Processors w' = Processors w /\ held w' = held w /\
    fv Context (ThreadPool w') cur = Some (live_context b c) /\
    (exists c', Cpus w' !! cpu w = Some c' /\ dec c' = decrementer_ticks w).
Proof.
  intros Hb Hc Hcur Hcl Hirq. unfold decrementer_interrupt_handler, thread_get_processor_block.
  rewrite gets_run. pose proof (dump_run w b c cur CONTEXT_zero Hb Hc Hcur Hcl) as Hd.
  set (w1 := dumped w b c cur) in *.
  assert (Processors w1 !! cpu w1 = Some b) as Hb1 by done.
  assert (Cpus w1 !! cpu w1 = Some (c <| fpr ::= <[3%nat := fpscr c]> |>)) as Hc1
    by by apply lookup_alter_eq_Some.
  assert (cur < length (ThreadPool w1))%nat as Hcl1 by (cbn; by rewrite length_alter).
  pose proof (restore_run w1 b _ cur (live_context b c) Hb1 Hc1 Hcur Hcl1) as Hres.
  set (w2 := set Cpus _ (set Processors _ _)) in Hres.
  assert (Cpus w2 !! cpu w = Some ((c <| fpr ::= <[3%nat := fpscr c]> |>)
     <| fpscr := fpscr c |> <| fpr := fpr c |>)) as Hc2
    by exact (lookup_alter_eq_Some _ _ _ _ Hc1).
  assert (Processors w2 = Processors w) as Hb2.
  { cbn. apply (list_alter_self _ _ _ b Hb). by destruct b. }
  eexists. split.
  - mstep Hd. rewrite (pr_get_run _ _ _ b) by done. rewrite (pr_get_run _ _ _ b) by done.
    replace (Irq b <=? 2) with false by (symmetry; apply Z.leb_gt; lia). cbn [andb when]. rewrite ret_run.
    rewrite (pr_get_run _ _ _ b) by done.
    replace (Irq b <? 2) with false by (symmetry; apply Z.ltb_ge; lia). rewrite ret_run.
    mstep Hres. rewrite gets_run. unfold cpu_upd. change (cpu w2) with (cpu w). by rewrite Hc2.
  - split_and!.
    + exists b. eexists. cbn. split_and!.
      * change (Processors w2 !! cpu w = Some b). by rewrite Hb2.
      * apply lookup_alter_eq_Some. exact Hc2.
      * by destruct b.
    + exact Hb2.
    + done.
    + cbn. rewrite fv_alter. apply fv_const; [done|]. by apply lookup_lt_is_Some.
    + eexists. split; [apply lookup_alter_eq_Some; exact Hc2|]. done.
Qed.
End scheduling.
