(* ===== verification/ThreadApi.v ===== *)
(** * Threads: the rest of [drivers/threads/c_threads.c]

    Interrupt handlers, inter-processor calls, creation and control of
    threads, start-up, and the queueing of deferred procedure calls. *)
From S2P Require Import Prelude ThreadDefs Ring ThreadFacts Sched.

(** ** Interrupts *)

Definition bswap32 (v : Z) : Z :=
  Z.lor (Z.lor (Z.shiftl (Z.land v 0xFF) 24) (Z.shiftl (Z.land v 0xFF00) 8))
        (Z.lor (Z.land (Z.shiftr v 8) 0xFF00) (Z.land (Z.shiftr v 24) 0xFF)).

Section interrupts.
(** What a device register reads as. *)
Variable load : Z -> Z.
(** A call of an inter-processor procedure: [proc(context)]. *)
Variable ipi_call : Z -> Z -> K Z.

Definition run_unexpected (soc_interrupt : Z) : K unit := store (soc_interrupt + 0x60) 0.

Definition run_clock (soc_interrupt : Z) : K unit :=
  store 0xEA00106C 0x01000000 ;;
  store (soc_interrupt + 0x10) 0x3E0070 ;;
  modify (fun w => w <| clock_time ::= fun t => u64 (t + 10000) |>
                     <| system_time ::= fun t => u64 (t + 10000) |>
                     <| millisecond_clock_time ::= fun t => u64 (t + 1) |>).

Definition atomic_inc_counter (c : nat) : K unit := fun w =>
  match Counters w !! c with
  | Some v => Ok tt (w <| Counters ::= <[c := u32 (v + 1)]> |>)
  | None => Fault
  end.

Definition run_ipi (_ : Z) : K unit :=
  processor <- thread_get_processor_block ;;
  lock (LIpi processor) ;;
  proc <- pr_get processor IpiProc ;;
  (match proc with
   | Some f =>
       ctx <- pr_get processor IpiContext ;;
       ipi_call f ctx ;;
       pr_upd processor (set IpiProc (fun _ => None))
   | None => ret tt
   end) ;;
  inc <- pr_get processor IpiIncrement ;;
  (match inc with
   | Some c => atomic_inc_counter c
   | None => ret tt
   end) ;;
  unlock (LIpi processor).

Definition run_hal_smm (_ : Z) : K unit :=
  let hal_offset := 0xEA000000 in
  let message := bswap32 (load (hal_offset + 0x1050)) in
  store (hal_offset + 0x1058) (bswap32 message).

(** A failing [assert] stops the program. *)
Definition run_vdp_isr (_ : Z) : K unit :=
  let vdp_offset := 0xEC800000 in
  let fetch := load (vdp_offset + 0xEDC) in
  store (vdp_offset + 0x6540) 0 ;;
  if nz (Z.land fetch 0x7FFFFFFE) then fault else
  if nz (Z.land fetch 0x80000000) then
    store (vdp_offset + 0xED8) (u32 (-1)) ;;
    let fetch2 := load (vdp_offset + 0xED4) in
    if nz (Z.land fetch2 1) then
      processor <- thread_get_processor_block ;;
      blk <- pr_get processor FPUVPUSave ;;
      k <- of_option blk ;;
      s <- save_floating_point ;;
      modify (fun w => w <| FpuBlocks ::= <[k := s]> |>) ;;
      w <- get ;;
      s2 <- of_option (FpuBlocks w !! k) ;;
      restore_floating_point s2
    else ret tt
  else ret tt.

Definition run_interrupt (h : interrupt_proc) (soc_interrupt : Z) : K unit :=
  match h with
  | thread_interrupt_unexpected => run_unexpected soc_interrupt
  | thread_interrupt_clock => run_clock soc_interrupt
  | thread_interrupt_ipi_clock => ret tt
  | thread_interrupt_ipi => run_ipi soc_interrupt
  | thread_interrupt_hal_smm => run_hal_smm soc_interrupt
  | thread_interrupt_vdp_isr => run_vdp_isr soc_interrupt
  | thread_interrupt_spurious => ret tt
  end.

Definition external_interrupt_handler : K unit :=
  processor <- thread_get_processor_block ;;
  id <- pr_get processor CurrentProcessor ;;
  let soc_interrupt := 0x20050000 + id * 0x1000 in
  let interruptSource := load (soc_interrupt + 0x50) in
  table <- pr_get processor InterruptTable ;;
  h <- of_option (table !! Z.to_nat (interruptSource / 4)) ;;
  irq <- (if decide (h <> thread_interrupt_unexpected) then
            irq <- pr_get processor Irq ;;
            store (soc_interrupt + 8) interruptSource ;;
            pr_upd processor (set Irq (fun _ => u8 interruptSource)) ;;
            ret irq
          else ret 255) ;;
  run_interrupt h soc_interrupt ;;
  if irq =? 255 then ret tt else
    store (soc_interrupt + 0x68) irq ;;
    pr_upd processor (set Irq (fun _ => irq)).

(** ** Inter-processor calls *)

Definition ipi_send_packet (entrypoint context processors : Z) (count : nat) : K unit :=
  for_each (seq 0 6) (fun i =>
    if Z.land processors (Z.shiftl 1 (Z.of_nat i)) =? 0 then ret tt else
    lock (LIpi i) ;;
    pr_upd i (set IpiProc (fun _ => Some entrypoint)) ;;
    pr_upd i (set IpiContext (fun _ => context)) ;;
    pr_upd i (set IpiIncrement (fun _ => Some count)) ;;
    unlock (LIpi i)) ;;
  p <- thread_get_processor_block ;;
  id <- pr_get p CurrentProcessor ;;
  store (0x20050000 + id * 0x1000 + 0x10) (Z.lor (Z.shiftl processors 16) 0x78).

(** [thread_send_ipi] runs in three pieces, between which the other processors
    take their interrupts.  [count] is the local it counts them with.  First
    the request to the others; returns the level to go back to. *)
Definition thread_send_ipi_packet (entrypoint context : Z) (count : nat) : K Z :=
  modify (fun w => w <| Counters ::= <[count := 0]> |>) ;;
  p <- thread_get_processor_block ;;
  irq <- pr_get p Irq ;;
  irql <- (if irq <? 2 then thread_raise_irql 2 else ret irq) ;;
  lock LIpiGlobal ;;
  id <- pr_get p CurrentProcessor ;;
  ipi_send_packet entrypoint context (Z.ldiff 0x3F (Z.shiftl 1 id)) count ;;
  ret irql.

(** Then the call on this processor; returns its value. *)
Definition thread_send_ipi_call (entrypoint context : Z) : K Z :=
  thread_raise_irql 0x78 ;;
  ipi_call entrypoint context.

(** Then the wait, which ends when all five have counted, and the way out. *)
Definition thread_send_ipi_finish (irql : Z) (count : nat) : K unit :=
  w <- get ;;
  v <- of_option (Counters w !! count) ;;
  if v =? 5 then
    unlock LIpiGlobal ;;
    thread_lower_irql irql ;; ret tt
  else blocked.
End interrupts.

(** ** The thread pool *)

Fixpoint first_free (i : nat) (P : pool) : option nat :=
  match P with
  | [] => None
  | t :: P' => if negb (nz (Valid t)) && negb (nz (HandleOpen t)) then Some i else first_free (S i) P'
  end.

Definition thread_pool_alloc : K ptr := fun w =>
  match first_free 0 (ThreadPool w) with
  | Some i =>
      Ok (Some i) (w <| ThreadPool ::= <[i := THREAD_zero <| HandleOpen := 1 |> <| Valid := 1 |>
                                                <| ThreadId := u8 (Z.of_nat i) |>]> |>)
  | None => Ok None w
  end.

(** ** Creating threads *)

Definition round_stack (stack_size : Z) : Z :=
  let s := if stack_size <? 16 * 1024 then 16 * 1024 else stack_size in
  if nz (Z.land s 0x3FF) then u32 (Z.land s 0xFFFFFC00 + 0x1000) else s.

Section creation.
(** The block [memalign(16, size)] returns for a heap in use, if any. *)
Variable pick : gset Z -> Z -> option Z.
(** The address of [thread_proc_startup]. *)
Variable startup_addr : Z.

Definition memalign (size : Z) : K Z := fun w =>
  match pick (live w) size with
  | Some p => Ok p (w <| live ::= fun h => {[ p ]} ∪ h |>)
  | None => Ok 0 w
  end.

(** Putting a new thread in front of the list of its processor ... *)
Definition insert_processor_list (processor : nat) (pthr : ptr) : K unit :=
  first <- pr_get processor FirstThread ;;
  pthr ->> NextThread <<- first ;;
  last_ <- pr_get processor LastThread ;;
  pthr ->> PreviousThread <<- last_ ;;
  first ->> PreviousThread <<- pthr ;;
  last_ ->> NextThread <<- pthr ;;
  pr_upd processor (set FirstThread (fun _ => pthr)).

(** ... and of the list of all threads. *)
Definition insert_full_list (pthr : ptr) : K unit :=
  first <- gets ListFirst ;;
  pthr ->> NextThreadFull <<- first ;;
  last_ <- gets ListLast ;;
  pthr ->> PreviousThreadFull <<- last_ ;;
  first ->> PreviousThreadFull <<- pthr ;;
  last_ ->> NextThreadFull <<- pthr ;;
  modify (fun w => w <| ListFirst := pthr |>).

Definition start_context (stack_top : Z) (processor : nat) (entrypoint argument : Z) (c : CONTEXT) : CONTEXT :=
  c <| Gpr ::= <[1%nat := stack_top]> |> <| Gpr ::= <[13%nat := Z.of_nat processor]> |>
    <| Iar := startup_addr |> <| Gpr ::= <[3%nat := entrypoint]> |>
    <| Gpr ::= <[4%nat := argument]> |> <| Msr := 0x100000000200B030 |>.

Definition thread_create (entrypoint stack_size argument flags : Z) : K ptr :=
  processor <- thread_get_processor_block ;;
  let stack_size := round_stack stack_size in
  stack <- memalign stack_size ;;
  irql <- thread_spinlock (LProc processor) ;;
  pthr <- (if nz stack then
    pthr <- thread_pool_alloc ;;
    match pthr with
    | Some _ =>
        pthr ->> StackBase <<- stack ;;
        pthr ->> StackSize <<- stack_size ;;
        pthr ->> Priority <<- 7 ;;
        pthr ->> MaxPriorityBoost <<- 5 ;;
        pthr ->> Valid <<- 1 ;;
        pthr ->> ThisProcessor <<- processor ;;
        unlock (LProc processor) ;;
        lock LThreadList ;;
        lock (LProc processor) ;;
        insert_processor_list processor pthr ;;
        insert_full_list pthr ;;
        unlock LThreadList ;;
        when (nz (Z.land flags THREAD_FLAG_CREATE_SUSPENDED)) (pthr ->> SuspendCount <<- 1) ;;
        th_upd pthr (set Context (start_context (u32 (stack + stack_size - 8)) processor entrypoint argument)) ;;
        ret pthr
    | None => ret None
    end
   else ret None) ;;
  unlock (LProc processor) ;;
  thread_lower_irql irql ;;
  ret pthr.
End creation.

Definition thread_set_name (pthr : ptr) (name : Z) : K unit := pthr ->> Name <<- name.

Definition thread_get_pool (i : Z) : ptr :=
  if (0 <=? i) && (i <? Z.of_nat MAX_THREAD_COUNT) then Some (Z.to_nat i) else None.

(** ** Control of threads: the pattern "take both locks, act, release" *)

Definition with_thread_locked {A} (pthr : ptr) (act : K A) : K A :=
  irql <- thread_spinlock LThreadList ;;
  p <- pthr ->> ThisProcessor ;;
  lock (LProc p) ;;
  r <- act ;;
  p2 <- pthr ->> ThisProcessor ;;
  unlock (LProc p2) ;;
  thread_unlock LThreadList irql ;;
  ret r.

Definition thread_close (pthr : ptr) : K unit :=
  with_thread_locked pthr (pthr ->> HandleOpen <<- 0).

Definition thread_suspend (pthr : ptr) : K Z :=
  with_thread_locked pthr (
    n <- pthr ->> SuspendCount ;;
    if n <? 80 then pthr ->> SuspendCount <<- u8 (n + 1) ;; ret n else ret (-1)).

Definition thread_resume (pthr : ptr) : K Z :=
  with_thread_locked pthr (
    n <- pthr ->> SuspendCount ;;
    if nz n then pthr ->> SuspendCount <<- u8 (n - 1) ;; ret n else ret (-1)).

Definition thread_set_priority_boost (pthr : ptr) (boost : Z) : K unit :=
  with_thread_locked pthr (pthr ->> MaxPriorityBoost <<- u8 boost).

Definition thread_set_priority (pthr : ptr) (priority : Z) : K unit :=
  if 15 <? priority then ret tt
  else with_thread_locked pthr (pthr ->> Priority <<- u8 priority).

Definition thread_get_current : K ptr :=
  irql <- thread_spinlock LThreadList ;;
  p <- thread_get_processor_block ;;
  lock (LProc p) ;;
  pthr <- pr_get p CurrentThread ;;
  unlock (LProc p) ;;
  thread_unlock LThreadList irql ;;
  ret pthr.

(** ** Operations that end in a system call *)

Section syscalls.
Variable call : Z -> Z -> Z -> Z -> K unit.
Variable dpc_fuel : nat.

(** The [sc] instruction, with the caller's registers in the save area. *)
Definition sc : K unit := system_call_handler call dpc_fuel.

Definition set_sleep_time (processor : nat) (sleep_time : Z) : K unit :=
  cur <- pr_get processor CurrentThread ;;
  cur ->> SleepTime <<- s64 sleep_time.

Definition thread_sleep (milliseconds : Z) : K unit :=
  processor <- thread_get_processor_block ;;
  now <- gets millisecond_clock_time ;;
  let sleep_time := u64 (now + milliseconds) in
  thread_raise_irql 2 ;;
  lock (LProc processor) ;;
  set_sleep_time processor sleep_time ;;
  unlock (LProc processor) ;;
  sc.

Definition thread_terminate (returnCode : Z) : K unit :=
  processor <- thread_get_processor_block ;;
  thread_raise_irql 2 ;;
  lock (LProc processor) ;;
  cur <- pr_get processor CurrentThread ;;
  cur ->> ThreadTerminated <<- 1 ;;
  unlock (LProc processor) ;;
  sc.

(** Unlinking from the list of the old processor, as [thread_set_processor]
    does it. *)
Definition unlink_processor_list (old : nat) (pthr : ptr) : K unit :=
  next <- pthr ->> NextThread ;;
  prev <- pthr ->> PreviousThread ;;
  next ->> PreviousThread <<- prev ;;
  prev2 <- pthr ->> PreviousThread ;;
  next2 <- pthr ->> NextThread ;;
  prev2 ->> NextThread <<- next2 ;;
  first <- pr_get old FirstThread ;;
  (if decide (first = pthr) then
     n <- pthr ->> NextThread ;; pr_upd old (set FirstThread (fun _ => n)) else ret tt) ;;
  last_ <- pr_get old LastThread ;;
  (if decide (last_ = pthr) then
     n <- pthr ->> PreviousThread ;; pr_upd old (set LastThread (fun _ => n)) else ret tt).

Definition push_swap_list (new : nat) (pthr : ptr) : K unit :=
  lock (LSwap new) ;;
  first <- pr_get new FirstSwapProcess ;;
  pthr ->> NextThread <<- first ;;
  last_ <- pr_get new LastSwapProcess ;;
  pthr ->> PreviousThread <<- last_ ;;
  (match first with Some _ => first ->> PreviousThread <<- pthr | None => ret tt end) ;;
  (match last_ with Some _ => last_ ->> NextThread <<- pthr | None => ret tt end) ;;
  pr_upd new (set FirstSwapProcess (fun _ => pthr)) ;;
  unlock (LSwap new).

(** The move itself, both processors' locks taken. *)
Definition move_thread (pthr : ptr) (old new : nat) : K unit :=
  lock (LProc new) ;;
  unlink_processor_list old pthr ;;
  push_swap_list new pthr ;;
  pthr ->> ThisProcessor <<- new ;;
  unlock (LProc new).

Definition thread_set_processor (pthr : ptr) (processor : Z) : K unit :=
  irql <- thread_spinlock LThreadList ;;
  old <- pthr ->> ThisProcessor ;;
  lock (LProc old) ;;
  let new := Z.to_nat processor in
  when (negb (Nat.eqb old new)) (move_thread pthr old new) ;;
  unlock (LProc old) ;;
  thread_unlock LThreadList irql ;;
  cur <- thread_get_current ;;
  if decide (pthr = cur) then sc else ret tt.
End syscalls.

(** ** Start-up *)

Section startup.
Variable pick : gset Z -> Z -> option Z.
Variable startup_addr idle_loop_addr : Z.

(** The lists a processor's first thread starts. *)
Definition first_lists (processor : nat) (pthr : ptr) : K unit :=
  pthr ->> PreviousThread <<- pthr ;;
  pthr ->> NextThread <<- pthr ;;
  pr_upd processor (set LastThread (fun _ => pthr)) ;;
  pr_upd processor (set FirstThread (fun _ => pthr)).

Definition thread_create_idle_thread : K ptr :=
  processor <- thread_get_processor_block ;;
  lock LThreadList ;;
  lock (LProc processor) ;;
  lock LStartup ;;
  pthr <- thread_pool_alloc ;;
  unlock LStartup ;;
  pthr ->> ThisProcessor <<- processor ;;
  pr_upd processor (set CurrentThread (fun _ => pthr)) ;;
  first_lists processor pthr ;;
  id <- pr_get processor CurrentProcessor ;;
  when (id =? 0)
    (modify (fun w => w <| ListFirst := pthr |> <| ListLast := pthr |>) ;;
     pthr ->> Priority <<- 7 ;;
     pthr ->> MaxPriorityBoost <<- 5) ;;
  last_ <- gets ListLast ;;
  last_ ->> NextThreadFull <<- pthr ;;
  first <- gets ListFirst ;;
  first ->> PreviousThreadFull <<- pthr ;;
  pthr ->> NextThreadFull <<- first ;;
  pthr ->> PreviousThreadFull <<- last_ ;;
  unlock (LProc processor) ;;
  unlock LThreadList ;;
  when (id =? 0)
    (pthr_idle <- thread_create pick startup_addr idle_loop_addr 0 0 0 ;;
     thread_set_priority pthr_idle 0 ;;
     thread_set_priority_boost pthr_idle 0 ;;
     thread_close pthr_idle) ;;
  ret pthr.

Definition interrupt_table (id : Z) : list interrupt_proc :=
  let t := replicate 0x20 thread_interrupt_unexpected in
  let t := <[0x5%nat := thread_interrupt_hal_smm]> t in
  let t := <[0x16%nat := thread_interrupt_vdp_isr]> t in
  let t := if nz id then <[0x1C%nat := thread_interrupt_ipi_clock]> t
           else <[0x1D%nat := thread_interrupt_clock]> t in
  let t := <[0x1E%nat := thread_interrupt_ipi]> t in
  <[0x1F%nat := thread_interrupt_spurious]> t.

(** [thread_startup] up to the idle loop the processors other than 0 enter. *)
Definition thread_startup : K unit :=
  processor <- thread_get_processor_block ;;
  pr_upd processor (set Irq (fun _ => 2)) ;;
  id <- pr_get processor CurrentProcessor ;;
  pr_upd processor (set FPUVPUSave (fun _ => Some (Z.to_nat id))) ;;
  pr_upd processor (set InterruptTable (fun _ => interrupt_table id)) ;;
  ticks <- gets decrementer_ticks ;;
  pr_upd processor (set QuantumEnd (fun _ => ticks)) ;;
  pthr <- thread_create_idle_thread ;;
  thread_close pthr ;;
  modify (fun w => w <| threads_online ::= fun n => u32 (n + 1) |>) ;;
  pr_upd processor (set Irq (fun _ => 0)).

(** The state [threading_init] makes before the processors start: the pool
    wiped, no lists.  [xenon_thread_startup], the PCI set-up and the clock
    change are hardware. *)
Definition threading_init_state (w : world) : world :=
  w <| ThreadPool := replicate MAX_THREAD_COUNT THREAD_zero |>
    <| ListFirst := None |> <| ListLast := None |>.

(** [thread_startup] on each processor in turn, as [threading_init] starts
    them, and the end of [threading_init] on processor 0. *)
Definition threading_init : K unit :=
  chk <- gets threading_init_check ;;
  if nz chk then ret tt else
  modify threading_init_state ;;
  thread_startup ;;
  for_each (seq 1 5) (fun i =>
    w <- get ;;
    modify (fun w => w <| cpu := i |>) ;;
    thread_startup ;;
    modify (fun w' => w' <| cpu := cpu w |>)) ;;
  online <- gets threads_online ;;
  if online =? 6 then
    ticks <- gets decrementer_ticks ;;
    cpu_upd (set dec (fun _ => ticks)) ;;
    cpu_upd (set msr (fun m => Z.lor m 0x8000)) ;;
    modify (fun w => w <| threading_init_check := 1 |>)
  else blocked.

Definition threading_status : K Z := gets threading_init_check.
End startup.

(** ** Deferred procedure calls *)

Definition dpc_initialize (dpc : nat) (procedure priority : Z) : K unit :=
  modify (fun w => w <| Dpcs ::= <[dpc := mkDPC procedure 0 0 0 priority None 0]> |>).

(** The search loop of [dpc_queue]: [list] is the head of the queue in every
    round. *)
Fixpoint dpc_insert_loop (fuel : nat) (list dpc : ptr) : K unit :=
  match fuel with
  | O => diverge
  | S n =>
      next <- dpc_get list NextDPC ;;
      match next with
      | None => dpc_upd list (set NextDPC (fun _ => dpc))
      | Some _ =>
          p1 <- dpc_get next DpcPriority ;;
          p2 <- dpc_get dpc DpcPriority ;;
          if p1 <? p2 then
            dpc_upd dpc (set NextDPC (fun _ => next)) ;;
            dpc_upd list (set NextDPC (fun _ => dpc))
          else dpc_insert_loop n list dpc
      end
  end.

Definition dpc_link (fuel : nat) (processor : nat) (dpc : ptr) : K unit :=
  head_ <- pr_get processor DPCList ;;
  match head_ with
  | Some _ =>
      p1 <- dpc_get head_ DpcPriority ;;
      p2 <- dpc_get dpc DpcPriority ;;
      if p1 <? p2 then
        dpc_upd dpc (set NextDPC (fun _ => head_)) ;;
        pr_upd processor (set DPCList (fun _ => dpc))
      else dpc_insert_loop fuel head_ dpc
  | None => pr_upd processor (set DPCList (fun _ => dpc))
  end.

Definition dpc_queue (fuel : nat) (dpc : ptr) (param1 param2 param3 : Z) : K Z :=
  processor <- thread_get_processor_block ;;
  irql <- thread_spinlock LThreadList ;;
  processing <- pr_get processor ProcessingDPC ;;
  when (processing =? 0) (lock (LDpc processor)) ;;
  queued <- dpc_get dpc Queued ;;
  rval <- (if queued =? 0 then
             dpc_upd dpc (set Param1 (fun _ => param1)) ;;
             dpc_upd dpc (set Param2 (fun _ => param2)) ;;
             dpc_upd dpc (set Param3 (fun _ => param3)) ;;
             dpc_upd dpc (set Queued (fun _ => 1)) ;;
             dpc_link fuel processor dpc ;;
             ret 1
           else ret 0) ;;
  processing2 <- pr_get processor ProcessingDPC ;;
  when (processing2 =? 0) (unlock (LDpc processor)) ;;
  thread_unlock LThreadList irql ;;
  ret rval.
