(* ===== verification/ThreadApiFacts.v ===== *)
(** * Threads: properties of the thread interface

    Levels and locks are given back, suspension counts are bounded, creation
    keeps the thread lists well formed and fails cleanly but for the stack. *)
From S2P Require Import Prelude ThreadDefs Ring ThreadFacts Sched SchedFacts SchedCorrect ThreadApi.

(** ** Interrupt level and locks *)

Lemma mtmsrd_restore m : mtmsrd_L1 (u32 m) (mtmsrd_L1 0 m) = m.
Proof.
  unfold mtmsrd_L1, EE_RI. apply Z.bits_inj'. intros n Hn.
  rewrite !Z.lor_spec, !Z.ldiff_spec, !Z.lor_spec, !Z.land_spec, !Z.ldiff_spec.
  destruct (Z.testbit 0x8002 n) eqn:E.
  - assert (n < 32) as Hlt.
    { destruct (Z.ltb_spec n 32); [done|]. rewrite Z.bits_above_log2 in E; [done|lia|].
      change (Z.log2 0x8002) with 15. lia. }
    unfold u32. rewrite Z.mod_pow2_bits_low by lia. by destruct (Z.testbit m n), (Z.testbit 0 n).
  - by destruct (Z.testbit m n), (Z.testbit 0 n), (Z.testbit (u32 m) n).
Qed.

Section irql.
Context (w : world) (b : PROCESSOR) (c : CPU).
Context (Hb : Processors w !! cpu w = Some b) (Hc : Cpus w !! cpu w = Some c).

Lemma raise_irql_run {B} irql (k : Z -> K B) :
  bind (thread_raise_irql irql) k w =
  k (Irq b) (w <| Processors ::= alter (set Irq (fun _ => u8 irql)) (cpu w) |>).
Proof.
  unfold thread_raise_irql, thread_disable_interrupts, thread_enable_interrupts,
    thread_get_processor_block.
  norm. rewrite (cpu_get_run _ _ c) by done. norm. rewrite cpu_upd_run by eauto. norm. rt.
  norm. rewrite gets_run. norm. rewrite (pr_get_run _ _ _ b) by done. norm.
  rewrite pr_upd_run by (cbn; eauto). norm. rewrite cpu_upd_run.
  2:{ exists (c <| msr ::= mtmsrd_L1 0 |>). by apply lookup_alter_eq_Some. }
  rt. f_equal. destruct w; cbn in *. f_equal. rewrite list_alter_twice.
  apply (list_alter_self _ _ _ c Hc). destruct c; cbn. by rewrite mtmsrd_restore.
Qed.

Lemma lower_irql_run {B} irql (k : Z -> K B) :
  bind (thread_lower_irql irql) k w =
  k (Irq b) (w <| Processors ::= alter (set Irq (fun _ => u8 irql)) (cpu w) |>).
Proof. exact (raise_irql_run irql k). Qed.
End irql.

(** The state inside "take both locks": level 2, both locks held. *)
Definition locked (w : world) (p : nat) : world :=
  w <| Processors ::= alter (set Irq (fun _ => 2)) (cpu w) |>
    <| held ::= fun h => {[ LProc p ]} ∪ ({[ LThreadList ]} ∪ h) |>.

(** What a caller of the thread interface must provide: its processor exists,
    with a level that fits its byte, and the two locks are free. *)
Record can_lock (w : world) (p : nat) : Prop := {
  cl_proc : exists b, Processors w !! cpu w = Some b /\ 0 <= Irq b < 256;
  cl_cpu : is_Some (Cpus w !! cpu w);
  cl_list : LThreadList ∉ held w;
  cl_lock : LProc p ∉ held w
}.

Lemma irq_twice (B : list PROCESSOR) p b :
  B !! p = Some b -> 0 <= Irq b < 256 ->
  alter (set Irq (fun _ => u8 (Irq b))) p (alter (set Irq (fun _ => 2)) p B) = B.
Proof.
  intros Hb HI. rewrite list_alter_twice. apply (list_alter_self _ _ _ b Hb).
  rewrite u8_small by done. by destruct b.
Qed.

(** An action run under the two locks that only changes thread objects. *)
Lemma locked_run {A} w p i (act : K A) r P' :
  can_lock w p -> fv ThisProcessor (ThreadPool w) i = Some p ->
  act (locked w p) = Ok r (with_pool (locked w p) P') ->
  fv ThisProcessor P' i = Some p ->
  with_thread_locked (Some i) act w = Ok r (with_pool w P').
Proof.
  intros [(b & Hb & HI) [c Hc] Hl1 Hl2] Hp Hact Hp'. unfold with_thread_locked, thread_spinlock.
  norm. rewrite (raise_irql_run w b c) by done. norm. rewrite lock_run by done. rt.
  rewrite (th_get_run _ _ _ p) by done. rewrite lock_run.
  2:{ cbn. set_solver. }
  change (set held (fun h => {[LProc p]} ∪ h) _) with (locked w p). mstep Hact.
  rewrite (get_pool _ _ _ _ _ _ Hp'). unfold unlock at 1. rewrite modify_run.
  unfold thread_unlock, unlock. norm. rewrite modify_run. norm.
  rewrite (lower_irql_run _ (b <| Irq := 2 |>) c).
  2:{ exact (lookup_alter_eq_Some _ _ _ b Hb). }
  2:{ exact Hc. }
  rt. unfold ret. f_equal. unfold with_pool, locked. destruct w; cbn in *. f_equal.
  - by apply irq_twice.
  - set_solver.
Qed.

(** ** Suspending and resuming *)

Section suspend.
Context (w : world) (p i : nat) (Hcl : can_lock w p).
Context (Hp : fv ThisProcessor (ThreadPool w) i = Some p).

Lemma in_range : (i < length (ThreadPool w))%nat.
Proof. apply lookup_lt_is_Some, (fv_is_Some ThisProcessor). eauto. Qed.

Lemma locked_as_pool : locked w p = with_pool (locked w p) (ThreadPool w).
Proof. by destruct w. Qed.

Lemma suspend_run n :
  fv SuspendCount (ThreadPool w) i = Some n ->
  thread_suspend (Some i) w =
    if n <? 80 then Ok n (with_pool w (alter (set SuspendCount (fun _ => u8 (n + 1))) i (ThreadPool w)))
    else Ok (-1) w.
Proof.
  intros Hn. pose proof in_range as Hi. unfold thread_suspend. destruct (n <? 80) eqn:E.
  - apply (locked_run w p); [done|done| |by rewrite fv_alter_other].
    rewrite locked_as_pool at 1. rd Hn. rewrite E. by wr.
  - rewrite <- (with_pool_id w) at 2. apply (locked_run w p); [done|done| |done].
    rewrite locked_as_pool at 1. rd Hn. by rewrite E.
Qed.

Lemma resume_run n :
  fv SuspendCount (ThreadPool w) i = Some n ->
  thread_resume (Some i) w =
    if nz n then Ok n (with_pool w (alter (set SuspendCount (fun _ => u8 (n - 1))) i (ThreadPool w)))
    else Ok (-1) w.
Proof.
  intros Hn. pose proof in_range as Hi. unfold thread_resume. destruct (nz n) eqn:E.
  - apply (locked_run w p); [done|done| |by rewrite fv_alter_other].
    rewrite locked_as_pool at 1. rd Hn. rewrite E. by wr.
  - rewrite <- (with_pool_id w) at 2. apply (locked_run w p); [done|done| |done].
    rewrite locked_as_pool at 1. rd Hn. by rewrite E.
Qed.
End suspend.

(** A history of calls on one thread, [true] for [thread_suspend]; the result
    is the list of values returned. *)
Fixpoint suspend_history (i : nat) (ops : list bool) : K (list Z) :=
  match ops with
  | [] => ret []
  | op :: ops' =>
      r <- (if op : bool then thread_suspend (Some i) else thread_resume (Some i)) ;;
      rs <- suspend_history i ops' ;;
      ret (r :: rs)
  end.

(** The counter the two calls are meant to be: saturating at 0 and 80. *)
Definition spec_suspend (n : Z) (op : bool) : Z * Z :=
  if op then if n <? 80 then (n, n + 1) else (-1, n)
  else if 0 <? n then (n, n - 1) else (-1, n).
Fixpoint spec_history (n : Z) (ops : list bool) : list Z * Z :=
  match ops with
  | [] => ([], n)
  | op :: ops' =>
      let (r, n') := spec_suspend n op in
      let (rs, m) := spec_history n' ops' in (r :: rs, m)
  end.

Lemma can_lock_pool w p P : can_lock w p -> can_lock (with_pool w P) p.
Proof. by intros []. Qed.

(** Suspension counting refines a saturating counter.  Any history of
    suspends and resumes of a thread whose count is between 0 and 80 runs
    without blocking, returns what the abstract counter returns, -1 exactly
    where it is stuck at a bound, leaves the count of the abstract counter,
    between 0 and 80, and changes nothing else. *)
Theorem suspend_history_refines w p i ops n :
  can_lock w p -> fv ThisProcessor (ThreadPool w) i = Some p ->
  fv SuspendCount (ThreadPool w) i = Some n -> 0 <= n <= 80 ->
  exists P', suspend_history i ops w = Ok (fst (spec_history n ops)) (with_pool w P') /\
    fv SuspendCount P' i = Some (snd (spec_history n ops)) /\
    0 <= snd (spec_history n ops) <= 80 /\
    agree (set SuspendCount (fun _ => 0)) P' (ThreadPool w).
Proof.
  revert w n. induction ops as [|op ops IH]; intros w n Hcl Hp Hn Hr.
  { exists (ThreadPool w). rewrite with_pool_id. done. }
  set (n' := snd (spec_suspend n op)).
  assert (exists P1, (if op then thread_suspend (Some i) else thread_resume (Some i)) w
      = Ok (fst (spec_suspend n op)) (with_pool w P1) /\
    fv SuspendCount P1 i = Some n' /\ 0 <= n' <= 80 /\
    agree (set SuspendCount (fun _ => 0)) P1 (ThreadPool w)) as (P1 & Hrun & Hn1 & Hr1 & Hag1).
  { pose proof (in_range w p i Hp) as [t Ht]%lookup_lt_is_Some.
    assert (forall v, fv SuspendCount (alter (set SuspendCount (fun _ => v)) i (ThreadPool w)) i = Some v)
      as Hv by (intros v; rewrite fv_alter; by apply fv_const; [|eauto]).
    unfold n', spec_suspend. destruct op.
    - rewrite (suspend_run w p i Hcl Hp n Hn). destruct (Z.ltb_spec n 80); eexists.
      + split; [done|]. rewrite Hv, u8_small by lia. cbn. split_and!; [done|lia|lia|by apply agree_alter].
      + rewrite with_pool_id. done.
    - rewrite (resume_run w p i Hcl Hp n Hn). unfold nz. destruct (Z.ltb_spec 0 n).
      + replace (n =? 0) with false by (symmetry; apply Z.eqb_neq; lia). eexists.
        split; [done|]. rewrite Hv, u8_small by lia. cbn. split_and!; [done|lia|lia|by apply agree_alter].
      + replace (n =? 0) with true by (symmetry; apply Z.eqb_eq; lia). exists (ThreadPool w).
        rewrite with_pool_id. done. }
  destruct (IH (with_pool w P1) n') as (P2 & Hrun2 & Hn2 & Hr2 & Hag2); [by apply can_lock_pool| |done|done|].
  { rewrite <- Hp. by apply (agree_fv (set SuspendCount (fun _ => 0))). }
  exists P2. cbn [suspend_history spec_history]. mstep Hrun. mstep Hrun2.
  unfold n' in *. destruct (spec_suspend n op) as [r m]. cbn [fst snd] in *.
  destruct (spec_history m ops) as [rs k]. cbn [fst snd] in *. split_and!; [done|done|lia|lia|].
  by etransitivity.
Qed.

(** ** The size of a stack *)

(** The stack of a thread: at least 16 KB; a size that is no multiple of 1 KB is
    cut to one and gets 4 KB more. *)
Definition stack_bytes (s : Z) : Z :=
  if s <? 16384 then 16384 else if s mod 1024 =? 0 then s else (s - s mod 1024 + 4096) mod 2 ^ 32.

Lemma round_stack_bytes s : 0 <= s < 2 ^ 32 -> round_stack s = stack_bytes s.
Proof.
  intros Hs. unfold round_stack, stack_bytes. change (16 * 1024) with 16384. destruct (Z.ltb_spec s 16384); [done|].
  assert (Z.land s 0x3FF = s mod 1024) as E1 by (apply (Z.land_ones s 10); lia).
  assert (Z.land s 0xFFFFFC00 = s - s mod 1024) as E2.
  { rewrite <- E1. change 0xFFFFFC00 with (Z.ldiff (Z.ones 32) 0x3FF).
    assert (Z.land s (Z.ldiff (Z.ones 32) 0x3FF) = Z.ldiff (Z.land s (Z.ones 32)) 0x3FF) as ->.
    { apply Z.bits_inj'. intros n Hn. rewrite !Z.land_spec, !Z.ldiff_spec, !Z.land_spec.
      by destruct (Z.testbit s n), (Z.testbit (Z.ones 32) n), (Z.testbit 0x3FF n). }
    rewrite Z.land_ones, Z.mod_small by lia.
    pose proof (Z.sub_nocarry_ldiff s (Z.land s 0x3FF)) as Hd. rewrite Hd.
    - apply Z.bits_inj'. intros n Hn. rewrite !Z.ldiff_spec, Z.land_spec.
      by destruct (Z.testbit s n), (Z.testbit 0x3FF n).
    - apply Z.bits_inj'. intros n Hn. rewrite Z.ldiff_spec, Z.land_spec, Z.bits_0.
      by destruct (Z.testbit s n), (Z.testbit 0x3FF n). }
  rewrite E1, E2. unfold nz. by destruct (s mod 1024 =? 0).
Qed.

(** A thread gets at least the stack it asks for, at least 16 KB, in whole
    kilobytes, and less than 4 KB more than asked above 16 KB, unless the
    request is so large that the rounding wraps around. *)
Theorem round_stack_bounds s :
  0 <= s < 0xFFFFF000 ->
  let r := round_stack s in
  s <= r /\ 16384 <= r /\ r mod 1024 = 0 /\ r <= Z.max s 16384 + 4095 /\ r < 2 ^ 32.
Proof.
  intros Hs r. subst r. rewrite round_stack_bytes by lia. unfold stack_bytes.
  pose proof (Z.mod_pos_bound s 1024 ltac:(lia)) as Hm. pose proof (Z.div_mod s 1024 ltac:(lia)) as Hd.
  destruct (Z.ltb_spec s 16384); [split_and!; done || lia|]. destruct (Z.eqb_spec (s mod 1024) 0) as [Ez|Ez]; [lia|].
  rewrite Z.mod_small by lia. split_and!; try lia.
  replace (s - s mod 1024 + 4096) with ((s / 1024 + 4) * 1024) by lia. by apply Z.mod_mul.
Qed.

(** ** The thread pool *)

Lemma first_free_spec P k i :
  first_free k P = Some i ->
  exists t, (k <= i)%nat /\ P !! (i - k)%nat = Some t /\ Valid t = 0 /\ HandleOpen t = 0 /\
    forall j t', (j < i - k)%nat -> P !! j = Some t' -> Valid t' <> 0 \/ HandleOpen t' <> 0.
Proof.
  revert k. induction P as [|t P IH]; intros k; cbn; [done|].
  unfold nz. destruct (Z.eqb_spec (Valid t) 0), (Z.eqb_spec (HandleOpen t) 0); cbn; intros H.
  - simplify_eq. exists t. rewrite Nat.sub_diag. split_and!; [lia|done|done|done|]. intros; lia.
  - apply IH in H as (t' & ? & Ht & ? & ? & Hj). exists t'.
    replace (i - k)%nat with (S (i - S k)) by lia. split_and!; [lia|done..|].
    intros [|j] u Hlt Hu; simplify_eq/=; [naive_solver|]. apply (Hj j); [lia|done].
  - apply IH in H as (t' & ? & Ht & ? & ? & Hj). exists t'.
    replace (i - k)%nat with (S (i - S k)) by lia. split_and!; [lia|done..|].
    intros [|j] u Hlt Hu; simplify_eq/=; [naive_solver|]. apply (Hj j); [lia|done].
  - apply IH in H as (t' & ? & Ht & ? & ? & Hj). exists t'.
    replace (i - k)%nat with (S (i - S k)) by lia. split_and!; [lia|done..|].
    intros [|j] u Hlt Hu; simplify_eq/=; [naive_solver|]. apply (Hj j); [lia|done].
Qed.

Lemma first_free_none P k :
  first_free k P = None <-> Forall (fun t => Valid t <> 0 \/ HandleOpen t <> 0) P.
Proof.
  revert k. induction P as [|t P IH]; intros k; cbn; [done|]. rewrite Forall_cons. unfold nz.
  destruct (Z.eqb_spec (Valid t) 0), (Z.eqb_spec (HandleOpen t) 0); cbn; rewrite ?IH; naive_solver.
Qed.

(** A thread object as [thread_pool_alloc] returns it. *)
Definition pool_thread (i : nat) : THREAD :=
  THREAD_zero <| HandleOpen := 1 |> <| Valid := 1 |> <| ThreadId := u8 (Z.of_nat i) |>.

(** The pool hands out objects nobody uses.  [thread_pool_alloc] returns
    the lowest object that is neither valid nor has an open handle, zeroed but
    for its id, validity and handle, leaving every other object alone; and it
    returns NULL exactly when all 256 are in use. *)
Theorem thread_pool_alloc_spec w :
  (exists i t, thread_pool_alloc w = Ok (Some i) (with_pool w (<[i := pool_thread i]> (ThreadPool w))) /\
     ThreadPool w !! i = Some t /\ Valid t = 0 /\ HandleOpen t = 0 /\
     (forall j t', (j < i)%nat -> ThreadPool w !! j = Some t' -> Valid t' <> 0 \/ HandleOpen t' <> 0)) \/
  (thread_pool_alloc w = Ok None w /\
     Forall (fun t => Valid t <> 0 \/ HandleOpen t <> 0) (ThreadPool w)).
Proof.
  unfold thread_pool_alloc. destruct (first_free 0 (ThreadPool w)) as [i|] eqn:E.
  - left. apply first_free_spec in E as (t & _ & Ht & ? & ? & Hj). rewrite Nat.sub_0_r in Ht, Hj.
    exists i, t. done.
  - right. split; [done|]. by apply first_free_none in E.
Qed.

(** ** Creating a thread *)

(** Linking [i] in front of a list with head [h] and last [z]. *)
Definition linked (i h z : nat) (P : pool) : pool :=
  alter (set NextThread (fun _ => Some i)) z
   (alter (set PreviousThread (fun _ => Some i)) h
    (alter (set PreviousThread (fun _ => Some z)) i
     (alter (set NextThread (fun _ => Some h)) i P))).
Definition linked_full (i h z : nat) (P : pool) : pool :=
  alter (set NextThreadFull (fun _ => Some i)) z
   (alter (set PreviousThreadFull (fun _ => Some i)) h
    (alter (set PreviousThreadFull (fun _ => Some z)) i
     (alter (set NextThreadFull (fun _ => Some h)) i P))).

Section linking.
Context (w : world) (p : nat) (Hp : is_Some (Processors w !! p)).

Lemma insert_list_run {B} L b P i h z (k : unit -> K B) :
  FirstThread b = Some h -> LastThread b = Some z ->
  (i < length P)%nat -> (h < length P)%nat -> (z < length P)%nat ->
  bind (insert_processor_list p (Some i)) k (view w p L b P) =
  k tt (view w p L (b <| FirstThread := Some i |>) (linked i h z P)).
Proof.
  intros Hh Hz ???. unfold insert_processor_list. vpr Hp. rewrite Hh. vwr Hp. vpr Hp. rewrite Hz.
  vwr Hp. vwr Hp. vwr Hp. vpw Hp. done.
Qed.

Lemma insert_full_run {B} L b P i h z (k : unit -> K B) :
  ListFirst w = Some h -> ListLast w = Some z ->
  (i < length P)%nat -> (h < length P)%nat -> (z < length P)%nat ->
  bind (insert_full_list (Some i)) k (view w p L b P) =
  k tt (view (w <| ListFirst := Some i |>) p L b (linked_full i h z P)).
Proof.
  intros Hh Hz ???. unfold insert_full_list. gt.
  change (ListFirst (view w p L b P)) with (ListFirst w). rewrite Hh. vwr Hp. gt.
  match goal with |- context [ListLast ?v] => change (ListLast v) with (ListLast w) end.
  rewrite Hz. vwr Hp. vwr Hp. vwr Hp. md. done.
Qed.

Lemma linked_ring P i h t z :
  thread_ring P (h :: t) -> last (h :: t) = Some z -> i ∉ h :: t -> (i < length P)%nat ->
  thread_ring (linked i h z P) (i :: h :: t).
Proof.
  intros HT Hz Hi Hil.
  assert (z < length P)%nat by (eapply link_ring_lt; [exact HT|by apply last_Some_elem_of]).
  assert (h < length P)%nat by (eapply link_ring_lt; [exact HT|left]).
  eapply ring_ext; [| |apply (ring_insert _ _ _ _ z i HT Hz Hi)]; intros y _; unfold linked.
  - rewrite (link_alter _ _ _ _ _ (Some i)) by (done || in_pool).
    unfold upd. case_decide; [done|]. rewrite !link_alter_other by done.
    by rewrite (link_alter _ _ _ _ _ (Some h)).
  - rewrite link_alter_other by done. rewrite (link_alter _ _ _ _ _ (Some i)) by (done || in_pool).
    unfold upd. case_decide; [done|]. rewrite (link_alter _ _ _ _ _ (Some z)) by (done || in_pool).
    unfold upd. case_decide; [done|]. by rewrite link_alter_other.
Qed.
End linking.

(** The object of a new thread, but for the list pointers. *)
Definition new_thread (i : nat) (stack size : Z) (p : nat) (flags : Z) (ctx : CONTEXT -> CONTEXT) : THREAD :=
  pool_thread i <| StackBase := stack |> <| StackSize := size |> <| Priority := 7 |>
    <| MaxPriorityBoost := 5 |> <| ThisProcessor := p |>
    <| SuspendCount := if nz (Z.land flags THREAD_FLAG_CREATE_SUSPENDED) then 1 else 0 |>
    <| Context ::= ctx |>.

(** What [thread_create] relies on: the caller's processor has a thread list,
    there is a list of all threads, and threads in use are valid. *)
Record create_wf (w : world) (b : PROCESSOR) (l : list nat) : Prop := {
  cw_proc : Processors w !! cpu w = Some b;
  cw_irq : 0 <= Irq b < 256;
  cw_cpu : is_Some (Cpus w !! cpu w);
  cw_list_lock : LThreadList ∉ held w;
  cw_lock : LProc (cpu w) ∉ held w;
  cw_ring : thread_ring (ThreadPool w) l;
  cw_first : FirstThread b = head l;
  cw_last : LastThread b = last l;
  cw_valid : forall x t, x ∈ l -> ThreadPool w !! x = Some t -> Valid t <> 0;
  cw_full_first : exists f, ListFirst w = Some f /\ (f < length (ThreadPool w))%nat;
  cw_full_last : exists g, ListLast w = Some g /\ (g < length (ThreadPool w))%nat
}.

(** Leaving the processor's lock and level, in any world. *)
Section leaving.
Context (w : world) (Hp : is_Some (Processors w !! cpu w)) (Hc : is_Some (Cpus w !! cpu w)).

Lemma view_lower_irql {B} H L b Q irql (k : Z -> K B) :
  0 <= irql < 256 ->
  bind (thread_lower_irql irql) k (view (holding w H) (cpu w) L b Q) =
  k (Irq b) (view (holding w H) (cpu w) L (b <| Irq := irql |>) Q).
Proof.
  intros HI. destruct Hc as [c Hc'].
  rewrite (lower_irql_run _ b c); [|by apply view_proc|done]. f_equal.
  unfold view, holding in *. destruct w; cbn in *. f_equal. destruct Hp as [b0 Hb0].
  rewrite (alter_insert _ _ _ b) by (by apply list_lookup_insert_eq; eapply lookup_lt_Some).
  rewrite list_insert_insert_eq. by rewrite u8_small.
Qed.

Lemma leave_processor {B} H L b Q irql (r : B) :
  0 <= irql < 256 -> H ∖ {[LProc (cpu w)]} = held w ->
  (unlock (LProc (cpu w)) ;; thread_lower_irql irql ;; ret r)
    (view (holding w H) (cpu w) L b Q) = Ok r (view w (cpu w) L (b <| Irq := irql |>) Q).
Proof.
  intros HI HH. rewrite view_unlock. rewrite view_lower_irql by done. rewrite HH. by rewrite holding_id.
Qed.
End leaving.

Section creating.
Variable pick : gset Z -> Z -> option Z.
Variable startup_addr : Z.
Context (w : world) (b : PROCESSOR) (l : list nat) (Hwf : create_wf w b l).

Lemma create_proc : is_Some (Processors w !! cpu w).
Proof. exists b. apply (cw_proc _ _ _ Hwf). Qed.

Lemma create_begin {B} size stack (k : Z -> Z -> K B) :
  pick (live w) size = Some stack ->
  (s <- memalign pick size ;; irql <- thread_spinlock (LProc (cpu w)) ;; k s irql) w =
  k stack (Irq b) (view (holding w ({[LProc (cpu w)]} ∪ held w)) (cpu w) ({[stack]} ∪ live w)
                     (b <| Irq := 2 |>) (ThreadPool w)).
Proof.
  intros Hs. destruct Hwf as [Hb HI [c Hc] Hl1 Hl2 _ _ _ _ _ _].
  unfold bind at 1, memalign. rewrite Hs. unfold thread_spinlock. norm.
  rewrite (raise_irql_run _ b c) by done. norm. rewrite lock_run by done. rt.
  f_equal. unfold view, holding. destruct w; cbn in *. f_equal. by rewrite (alter_insert _ _ _ b).
Qed.

Lemma pool_alloc_run {B} H L b' P i (k : ptr -> K B) :
  first_free 0 P = Some i ->
  bind thread_pool_alloc k (view (holding w H) (cpu w) L b' P) =
  k (Some i) (view (holding w H) (cpu w) L b' (<[i := pool_thread i]> P)).
Proof.
  intros E. unfold bind, thread_pool_alloc.
  change (ThreadPool (view (holding w H) (cpu w) L b' P)) with P. by rewrite E.
Qed.

(** The pool after each stage of the creation. *)
Definition setup_pool (i : nat) (stack size : Z) (P : pool) : pool :=
  alter (set ThisProcessor (fun _ => cpu w)) i (alter (set Valid (fun _ => 1)) i
   (alter (set MaxPriorityBoost (fun _ => 5)) i (alter (set Priority (fun _ => 7)) i
    (alter (set StackSize (fun _ => size)) i (alter (set StackBase (fun _ => stack)) i
     (<[i := pool_thread i]> P)))))).
Definition created_pool (i h z f g : nat) (stack size flags : Z) (ctx : CONTEXT -> CONTEXT) (P : pool) : pool :=
  let P1 := linked_full i f g (linked i h z (setup_pool i stack size P)) in
  let P2 := if nz (Z.land flags THREAD_FLAG_CREATE_SUSPENDED)
            then alter (set SuspendCount (fun _ => 1)) i P1 else P1 in
  alter (set Context ctx) i P2.

Lemma create_run entrypoint stack_size argument flags stack i h z f g :
  let size := round_stack stack_size in
  pick (live w) size = Some stack -> nz stack = true ->
  first_free 0 (ThreadPool w) = Some i -> head l = Some h -> last l = Some z ->
  ListFirst w = Some f -> ListLast w = Some g ->
  (i < length (ThreadPool w))%nat -> (f < length (ThreadPool w))%nat -> (g < length (ThreadPool w))%nat ->
  thread_create pick startup_addr entrypoint stack_size argument flags w =
    Ok (Some i) (view (w <| ListFirst := Some i |>) (cpu w) ({[stack]} ∪ live w)
      (b <| FirstThread := Some i |>)
      (created_pool i h z f g stack size flags
         (start_context startup_addr (u32 (stack + size - 8)) (cpu w) entrypoint argument) (ThreadPool w))).
Proof.
  intros size Hs Hnz Hi Hh Hz Hf Hg Hil Hfl Hgl. pose proof create_proc as Hp.
  unfold thread_create, thread_get_processor_block. gt. fold size. cbv zeta.
  rewrite (create_begin size stack) by done. rewrite Hnz. norm. rewrite (pool_alloc_run _ _ _ _ i) by done. cbn beta iota.
  assert (h < length (ThreadPool w))%nat
    by exact (link_ring_lt _ _ _ _ h (cw_ring _ _ _ Hwf) (head_Some_elem_of _ _ Hh)).
  assert (z < length (ThreadPool w))%nat
    by exact (link_ring_lt _ _ _ _ z (cw_ring _ _ _ Hwf) (last_Some_elem_of _ _ Hz)).
  pose proof (cw_list_lock _ _ _ Hwf) as Hl1. pose proof (cw_lock _ _ _ Hwf) as Hl2.
  do 6 vwr Hp. fold (setup_pool i stack size (ThreadPool w)).
  assert (length (setup_pool i stack size (ThreadPool w)) = length (ThreadPool w)) as HL
    by (unfold setup_pool; by rewrite !length_alter, length_insert).
  norm. rewrite view_unlock. norm. rewrite view_lock by set_solver. norm. rewrite view_lock by set_solver.
  norm. rewrite (insert_list_run (holding w _) (cpu w) Hp _ _ _ i h z);
    [|by cbn; rewrite (cw_first _ _ _ Hwf)|by cbn; rewrite (cw_last _ _ _ Hwf)|by rewrite HL..].
  norm. rewrite (insert_full_run (holding w _) (cpu w) _ _ _ i f g); [|done|done|unfold linked; by rewrite !length_alter, HL..].
  norm.
  set (wF := w <| ListFirst := Some i |>).
  match goal with |- context [view (set ListFirst ?v (holding w ?H)) ?q ?L ?b' ?Q] =>
    change (view (set ListFirst v (holding w H)) q L b' Q) with (view (holding wF H) q L b' Q) end.
  rewrite view_unlock. norm. set (HH := _ ∖ _).
  assert (forall A (k : unit -> K A) L b' Q, (i < length Q)%nat ->
    bind (when (nz (Z.land flags THREAD_FLAG_CREATE_SUSPENDED)) (Some i ->> SuspendCount <<- 1)) k
      (view (holding wF HH) (cpu w) L b' Q) =
    k tt (view (holding wF HH) (cpu w) L b' (if nz (Z.land flags THREAD_FLAG_CREATE_SUSPENDED)
            then alter (set SuspendCount (fun _ => 1)) i Q else Q))) as Hwhen.
  { intros A k L b' Q HQ. unfold when. destruct (nz (Z.land flags _)); [by vwr Hp|done]. }
  rewrite Hwhen by (unfold linked_full, linked; rewrite !length_alter; lia). norm.
  rewrite view_upd by (unfold linked_full, linked;
    destruct (nz (Z.land flags THREAD_FLAG_CREATE_SUSPENDED)); rewrite !length_alter; lia). rt.
  etransitivity; [refine (leave_processor wF Hp (cw_cpu _ _ _ Hwf) HH _ _ _ _ _ (cw_irq _ _ _ Hwf) _)|].
  - unfold HH. cbn. set_solver.
  - by destruct b.
Qed.

Lemma linked_agree i h z P : agree strip_links (linked i h z P) P.
Proof. unfold linked. do 4 (etransitivity; [by apply agree_alter|]). done. Qed.
Lemma linked_full_agree i h z P : agree strip_links (linked_full i h z P) P.
Proof. unfold linked_full. do 4 (etransitivity; [by apply agree_alter|]). done. Qed.

Lemma created_agree i h z f g stack size flags ctx P :
  (i < length P)%nat ->
  agree strip_links (created_pool i h z f g stack size flags ctx P)
    (<[i := new_thread i stack size (cpu w) flags ctx]> P).
Proof.
  intros Hi. set (Q := setup_pool i stack size P).
  set (Q' := if nz (Z.land flags THREAD_FLAG_CREATE_SUSPENDED)
             then alter (set SuspendCount (fun _ => 1)) i Q else Q).
  transitivity (alter (set Context ctx) i Q').
  - unfold created_pool. apply agree_alter_mono; [done|].
    assert (agree strip_links (linked_full i f g (linked i h z Q)) Q) as HQ
      by (etransitivity; [apply linked_full_agree|apply linked_agree]).
    unfold Q'. destruct (nz _); [|done]. by apply agree_alter_mono.
  - replace (alter (set Context ctx) i Q') with (<[i := new_thread i stack size (cpu w) flags ctx]> P); [done|].
    unfold Q', Q, setup_pool, new_thread.
    destruct (nz (Z.land flags THREAD_FLAG_CREATE_SUSPENDED)); repeat rewrite list_alter_insert_same;
      apply (f_equal (fun t => <[i:=t]> P)); vm_compute; reflexivity.
Qed.

Lemma setup_ring i stack size h t :
  thread_ring (ThreadPool w) (h :: t) -> i ∉ h :: t -> thread_ring (setup_pool i stack size (ThreadPool w)) (h :: t).
Proof.
  intros HT Hi. revert HT. apply ring_ext; intros x Hx; unfold setup_pool;
    rewrite !link_alter_other by done; unfold link; rewrite list_lookup_insert_ne; [done| |done|];
    intros ->; done.
Qed.

Lemma created_ring i h t z f g stack size flags ctx :
  thread_ring (ThreadPool w) (h :: t) -> last (h :: t) = Some z -> i ∉ h :: t ->
  (i < length (ThreadPool w))%nat ->
  thread_ring (created_pool i h z f g stack size flags ctx (ThreadPool w)) (i :: h :: t).
Proof.
  intros HT Hz Hi Hil.
  assert (thread_ring (linked i h z (setup_pool i stack size (ThreadPool w))) (i :: h :: t)) as HR.
  { apply linked_ring; [by apply setup_ring|done|done|].
    unfold setup_pool. by rewrite !length_alter, length_insert. }
  revert HR. apply ring_ext; intros x _; unfold created_pool, linked_full;
    destruct (nz _); by rewrite !link_alter_other.
Qed.

(** The object of a thread before its first run, with no list pointers, field by
    field: the context starts [thread_proc_startup] with the stack pointer in
    register 1, entry point and argument in 3 and 4, the processor's block in 13;
    base priority 7, boost up to 5, an open handle, nothing to wait for. *)
Definition first_run (i p : nat) (stack size entrypoint argument suspended : Z) : THREAD :=
  mkTHREAD
    (mkCONTEXT 0x100000000200B030 startup_addr 0 0
       ([0; (stack + size - 8) mod 2 ^ 32; 0; entrypoint; argument] ++ replicate 8 0 ++ [Z.of_nat p] ++ replicate 18 0)
       0 0 (mkFPU (replicate 32 0) 0))
    p None None None None None None None None
    1 7 0 5 0 suspended 1 (Z.of_nat i mod 256) 0 0 0 0 0 stack size.

Lemma new_thread_first_run i stack size p flags entrypoint argument :
  strip_links (new_thread i stack size p flags (start_context startup_addr (u32 (stack + size - 8)) p entrypoint argument)) =
    first_run i p stack size entrypoint argument (if Z.odd flags then 1 else 0).
Proof.
  unfold new_thread, first_run, THREAD_FLAG_CREATE_SUSPENDED. change 1 with (Z.ones 1) at 1.
  rewrite Z.land_ones, Zmod_odd by lia. by destruct (Z.odd flags).
Qed.

(** C31: creating a thread.  With a stack of [stack_bytes] from the heap and a
    free object [i], [thread_create] returns thread [i] with the locks and the
    interrupt level given back, the thread in front of the caller's processor's
    list, which is again a ring, its object, but for list pointers, exactly the
    one of [first_run] (stack pointer 8 below the top of the stack, entry point
    and argument in registers 3 and 4, base priority 7, boost up to 5, suspended
    if bit 0 of the flags asks for it), and every other thread untouched but for
    list pointers. *)
Theorem thread_create_spec entrypoint stack_size argument flags stack i :
  let size := stack_bytes stack_size in
  0 <= stack_size < 2 ^ 32 -> pick (live w) size = Some stack -> stack <> 0 -> first_free 0 (ThreadPool w) = Some i ->
  exists w',
    thread_create pick startup_addr entrypoint stack_size argument flags w = Ok (Some i) w' /\
    held w' = held w /\ stack ∈ live w' /\
    Processors w' !! cpu w = Some (b <| FirstThread := Some i |>) /\
    thread_ring (ThreadPool w') (i :: l) /\
    (exists t, ThreadPool w' !! i = Some t /\
       strip_links t = first_run i (cpu w) stack size entrypoint argument (if Z.odd flags then 1 else 0)) /\
    (forall x t', x <> i -> ThreadPool w' !! x = Some t' ->
       exists t, ThreadPool w !! x = Some t /\ strip_links t' = strip_links t).
Proof.
  intros size Hsz Hs Hs0 Hi. unfold size in *. rewrite <- round_stack_bytes in * by done. clear size. set (size := round_stack stack_size) in *.
  set (ctx := start_context startup_addr (u32 (stack + size - 8)) (cpu w) entrypoint argument).
  destruct (first_free_spec _ _ _ Hi) as (t0 & _ & Ht0 & Hv0 & _ & _).
  rewrite Nat.sub_0_r in Ht0. pose proof (lookup_lt_Some _ _ _ Ht0) as Hil.
  pose proof (cw_ring _ _ _ Hwf) as HT. destruct (cw_full_first _ _ _ Hwf) as (f & Hf & Hfl).
  destruct (cw_full_last _ _ _ Hwf) as (g & Hg & Hgl).
  assert (i ∉ l) as Hin by (intros Hin; by apply (cw_valid _ _ _ Hwf i t0 Hin)).
  assert (exists h t, l = h :: t) as (h & t & El)
    by (apply ring_nonempty in HT; destruct l; [done|eauto]).
  rewrite El in HT, Hin |- *.
  destruct (last (h :: t)) as [z|] eqn:Hz; [|by apply last_None in Hz].
  assert (nz stack = true) as Hnz by (unfold nz; by apply negb_true_iff, Z.eqb_neq).
  pose proof (create_run entrypoint stack_size argument flags stack i h z f g Hs Hnz Hi) as Hrun.
  rewrite El in Hrun. specialize (Hrun eq_refl Hz Hf Hg Hil Hfl Hgl).
  pose proof (created_agree i h z f g stack size flags ctx (ThreadPool w) Hil) as Hag.
  eexists. split; [exact Hrun|]. split_and!.
  - done.
  - cbn. set_solver.
  - apply view_proc. apply create_proc.
  - by apply created_ring.
  - assert (i < length (created_pool i h z f g stack size flags ctx (ThreadPool w)))%nat as [t' Ht']%lookup_lt_is_Some
      by (by rewrite (agree_length _ _ _ Hag), length_insert).
    exists t'. split; [exact Ht'|]. destruct (agree_lookup _ _ _ _ _ Hag Ht') as (u & Hu & ->).
    rewrite list_lookup_insert_eq in Hu by done. injection Hu as <-. apply new_thread_first_run.
  - intros x t' Hx Ht'. destruct (agree_lookup _ _ _ _ _ Hag Ht') as (u & Hu & Hus).
    rewrite list_lookup_insert_ne in Hu by done. eauto.
Qed.

(** Creation that fails.  Without memory for the stack [thread_create]
    returns NULL and changes nothing; without a free object it returns NULL,
    and the stack it has taken from the heap stays taken. *)
Theorem thread_create_fails entrypoint stack_size argument flags :
  let size := round_stack stack_size in
  (pick (live w) size = None ->
     thread_create pick startup_addr entrypoint stack_size argument flags w = Ok None w) /\
  (forall stack, pick (live w) size = Some stack -> stack <> 0 -> first_free 0 (ThreadPool w) = None ->
     thread_create pick startup_addr entrypoint stack_size argument flags w =
       Ok None (w <| live ::= fun h => {[ stack ]} ∪ h |>)).
Proof.
  intros size. destruct Hwf as [Hb HI [c Hc] Hl1 Hl2 _ _ _ _ _ _].
  assert (is_Some (Processors w !! cpu w)) as Hp by eauto.
  assert (forall L, (view (holding w ({[LProc (cpu w)]} ∪ held w)) (cpu w) L (b <| Irq := 2 |>) (ThreadPool w))
     = (w <| live := L |> <| Processors ::= alter (set Irq (fun _ => u8 2)) (cpu w) |>
          <| held ::= fun h => {[LProc (cpu w)]} ∪ h |>)) as Hv.
  { intros L. unfold view, holding. destruct w; cbn in *. f_equal. by rewrite (alter_insert _ _ _ b). }
  assert (forall L, view w (cpu w) L (b <| Irq := 2 |> <| Irq := Irq b |>) (ThreadPool w) = w <| live := L |>) as Hv2.
  { intros L. unfold view. destruct w; cbn in *. f_equal. rewrite list_insert_id; [done|].
    rewrite Hb. by destruct b. }
  assert (({[LProc (cpu w)]} ∪ held w) ∖ {[LProc (cpu w)]} = held w) as HH by set_solver.
  unfold thread_create, thread_get_processor_block. fold size. split.
  - intros Hs. gt. cbv zeta. unfold bind at 1, memalign. rewrite Hs. unfold thread_spinlock. norm.
    rewrite (raise_irql_run _ b c) by done. norm. rewrite lock_run by done. rt.
    replace (set held _ (set Processors _ w)) with
      (view (holding w ({[LProc (cpu w)]} ∪ held w)) (cpu w) (live w) (b <| Irq := 2 |>) (ThreadPool w))
      by (rewrite Hv; by destruct w).
    change (nz 0) with false. rt. rewrite (leave_processor w) by (done || eauto). rewrite Hv2. by destruct w.
  - intros stack Hs Hs0 Hff. gt. cbv zeta. rewrite (create_begin size stack) by done.
    assert (nz stack = true) as -> by (unfold nz; by apply negb_true_iff, Z.eqb_neq).
    norm. unfold bind at 1, thread_pool_alloc.
    match goal with |- context [first_free 0 ?q] => change q with (ThreadPool w) end.
    rewrite Hff. rt. rewrite (leave_processor w) by (done || eauto). rewrite Hv2. done.
Qed.
End creating.
