(* ===== verification/Mutex.v ===== *)
(** * Mutexes and condition variables: [drivers/threads/mutex.c], [cond.c]

    A mutex counts its holders up to a maximum and keeps a list of the threads
    that wait for it.  [mutex_acquire] sleeps in its middle: it is split at the
    system call into [mutex_acquire_begin], which the caller runs up to the
    switch, and [mutex_acquire_end], which it runs when it is elected again. *)
From S2P Require Import Prelude ThreadDefs Ring ThreadFacts Sched ThreadApi.

(** ** Mutexes *)

(** [lock(&mutex->Lock)]: the word is in the object. *)
Definition lock_mutex (mutex : nat) : K unit :=
  mx_get mutex (fun _ => tt) ;; lock (LMutex mutex).

Section mutexes.
(** The procedures of deferred calls and the bound on them, for the switch. *)
Variable call : Z -> Z -> Z -> Z -> K unit.
Variable dpc_fuel : nat.
(** The block [malloc] finds for a mutex, if any. *)
Variable malloc_mutex : world -> option nat.

Definition mutex_create (max_lock_count : Z) : K ptr := fun w =>
  match malloc_mutex w with
  | None => Ok None w
  | Some m => Ok (Some m) (w <| Mutexes ::= <[m := mkMUTEX 0 max_lock_count None None]> |>)
  end.

(** The lock word is gone with the object it is in. *)
Definition mutex_destroy (mutex : nat) : K unit :=
  lock_mutex mutex ;;
  modify (fun w => w <| Mutexes ::= delete mutex |> <| held ::= fun h => h ∖ {[ LMutex mutex ]} |>).

Definition mutex_setlockcount (mutex : nat) (lock_count : Z) : K unit :=
  lock_mutex mutex ;;
  mx_upd mutex (set MaximumLockCount (fun _ => lock_count)) ;;
  unlock (LMutex mutex).

Definition mutex_sleep (milliseconds : Z) (mutex : nat) : K unit :=
  processor <- thread_get_processor_block ;;
  now <- gets millisecond_clock_time ;;
  let sleep_time := u64 (now + milliseconds) in
  thread_raise_irql 2 ;;
  lock (LProc processor) ;;
  set_sleep_time processor sleep_time ;;
  unlock (LMutex mutex) ;;
  unlock (LProc processor) ;;
  sc call dpc_fuel.

(** Joining the waiting list: the last waiter points back to the first. *)
Definition mutex_enqueue (mutex : nat) (pthr : ptr) : K unit :=
  last_ <- mx_get mutex LastWaiting ;;
  pthr ->> PreviousThreadMutex <<- last_ ;;
  first <- mx_get mutex FirstWaiting ;;
  pthr ->> NextThreadMutex <<- first ;;
  (match first with
   | Some _ => first ->> PreviousThreadMutex <<- pthr
   | None => mx_upd mutex (set FirstWaiting (fun _ => pthr))
   end) ;;
  last2 <- mx_get mutex LastWaiting ;;
  (match last2 with
   | Some _ => last2 ->> NextThreadMutex <<- pthr
   | None => ret tt
   end) ;;
  mx_upd mutex (set LastWaiting (fun _ => pthr)).

(** True when the caller has the mutex; false when it has been put to sleep,
    the processor being with the thread the switch elected. *)
Definition mutex_acquire_begin (mutex : nat) (timeout : Z) : K bool :=
  lock_mutex mutex ;;
  cur <- mx_get mutex CurrentLockCount ;;
  max <- mx_get mutex MaximumLockCount ;;
  if cur <? max then
    mx_upd mutex (set CurrentLockCount (fun n => u32 (n + 1))) ;;
    unlock (LMutex mutex) ;;
    ret true
  else
    pthr <- thread_get_current ;;
    mutex_enqueue mutex pthr ;;
    pthr2 <- thread_get_current ;;
    pthr2 ->> WaitingForMutex <<- 1 ;;
    mutex_sleep (u32 timeout) mutex ;;
    ret false.

(** Leaving the waiting list after a timeout. *)
Definition mutex_dequeue (mutex : nat) (pthr : ptr) : K unit :=
  next <- pthr ->> NextThreadMutex ;;
  prev <- pthr ->> PreviousThreadMutex ;;
  (match next with Some _ => next ->> PreviousThreadMutex <<- prev | None => ret tt end) ;;
  prev2 <- pthr ->> PreviousThreadMutex ;;
  next2 <- pthr ->> NextThreadMutex ;;
  (match prev2 with Some _ => prev2 ->> NextThreadMutex <<- next2 | None => ret tt end) ;;
  first <- mx_get mutex FirstWaiting ;;
  next3 <- pthr ->> NextThreadMutex ;;
  when (bool_decide (first = pthr)) (mx_upd mutex (set FirstWaiting (fun _ => next3))) ;;
  last_ <- mx_get mutex LastWaiting ;;
  prev3 <- pthr ->> PreviousThreadMutex ;;
  when (bool_decide (last_ = pthr)) (mx_upd mutex (set LastWaiting (fun _ => prev3))) ;;
  first2 <- mx_get mutex FirstWaiting ;;
  when (bool_decide (first2 = pthr)) (mx_upd mutex (set FirstWaiting (fun _ => None))) ;;
  last2 <- mx_get mutex LastWaiting ;;
  when (bool_decide (last2 = pthr)) (mx_upd mutex (set LastWaiting (fun _ => None))).

(** 0 = timeout, 1 = acquired. *)
Definition mutex_acquire_end (mutex : nat) : K Z :=
  lock_mutex mutex ;;
  pthr <- thread_get_current ;;
  waiting_ <- pthr ->> WaitingForMutex ;;
  acquired <- (if nz waiting_ then
                 pthr2 <- thread_get_current ;;
                 mutex_dequeue mutex pthr2 ;; ret 0
               else ret 1) ;;
  unlock (LMutex mutex) ;;
  ret acquired.

(** One round of the loop of [mutex_release]. *)
Definition mutex_release_step (mutex : nat) (_ : unit) : K (option unit) :=
  first <- mx_get mutex FirstWaiting ;;
  cur <- mx_get mutex CurrentLockCount ;;
  max <- mx_get mutex MaximumLockCount ;;
  match first with
  | Some _ =>
      if cur <? max then
        next <- first ->> NextThreadMutex ;;
        mx_upd mutex (set FirstWaiting (fun _ => next)) ;;
        when (bool_decide (next = first)) (mx_upd mutex (set FirstWaiting (fun _ => None))) ;;
        last_ <- mx_get mutex LastWaiting ;;
        when (bool_decide (last_ = first)) (mx_upd mutex (set LastWaiting (fun _ => None))) ;;
        first ->> WaitingForMutex <<- 0 ;;
        first ->> SleepTime <<- 0 ;;
        mx_upd mutex (set CurrentLockCount (fun n => u32 (n + 1))) ;;
        ret (Some tt)
      else ret None
  | None => ret None
  end.

(** The loop stops when the count reaches the maximum, so the distance of the
    two, and one, bounds its rounds. *)
Definition mutex_release (mutex : nat) : K unit :=
  lock_mutex mutex ;;
  mx_upd mutex (set CurrentLockCount (fun n => u32 (n - 1))) ;;
  cur <- mx_get mutex CurrentLockCount ;;
  max <- mx_get mutex MaximumLockCount ;;
  while (S (Z.to_nat (max - cur))) (mutex_release_step mutex) tt ;;
  unlock (LMutex mutex).

(** ** Condition variables

    A caller that is put to sleep by an acquire is [Blocked]: what it does
    next it does in a later state. *)

Definition mutex_acquire (mutex : nat) (timeout : Z) : K Z :=
  now_ <- mutex_acquire_begin mutex timeout ;;
  if now_ : bool then ret 1 else blocked.

Definition MAX_SEMAPHORE : Z := 32 * 1024.
Definition LOCK_INFINITE : Z := -1.

(** The block [malloc] finds for a condition variable, if any. *)
Variable malloc_cond : world -> option nat.

(** The mutex a field of the object points to, acquired, released, destroyed. *)
Definition cv_mutex (c : nat) (f : COND -> ptr) : K nat :=
  p <- cv_get c f ;; of_option p.
Definition acquire_of (c : nat) (f : COND -> ptr) : K unit :=
  m <- cv_mutex c f ;; mutex_acquire m LOCK_INFINITE ;; ret tt.
Definition release_of (c : nat) (f : COND -> ptr) : K unit :=
  m <- cv_mutex c f ;; mutex_release m.
Definition destroy_of (c : nat) (f : COND -> ptr) : K unit :=
  m <- cv_mutex c f ;; mutex_destroy m.

Definition cond_delete (c : option nat) : K unit :=
  match c with
  | None => ret tt
  | Some c =>
      destroy_of c wait_sem ;;
      destroy_of c wait_done ;;
      destroy_of c cond_lock ;;
      modify (fun w => w <| Conds ::= delete c |>)
  end.

(** Clearing the object [malloc] did not find is an access through NULL. *)
Definition cond_create : K ptr :=
  w <- get ;;
  c <- of_option (malloc_cond w) ;;
  modify (fun w => w <| Conds ::= <[c := mkCOND None 0 0 None None]> |>) ;;
  l <- mutex_create 1 ;;
  cv_upd c (set cond_lock (fun _ => l)) ;;
  s <- mutex_create MAX_SEMAPHORE ;;
  cv_upd c (set wait_sem (fun _ => s)) ;;
  d <- mutex_create MAX_SEMAPHORE ;;
  cv_upd c (set wait_done (fun _ => d)) ;;
  cv_upd c (fun v => v <| signals := 0 |> <| waiting := 0 |>) ;;
  match l, s, d with
  | Some _, Some _, Some _ => ret (Some c)
  | _, _, _ => cond_delete (Some c) ;; ret None
  end.

Definition cond_wait (c m : option nat) : K unit :=
  match c, m with
  | Some c, Some m =>
      acquire_of c cond_lock ;;
      cv_upd c (set waiting (fun n => s32 (n + 1))) ;;
      release_of c cond_lock ;;
      mutex_release m ;;
      acquire_of c wait_sem ;;
      acquire_of c cond_lock ;;
      sig <- cv_get c signals ;;
      when (0 <? sig)
        (release_of c wait_done ;;
         cv_upd c (set signals (fun n => s32 (n - 1)))) ;;
      cv_upd c (set waiting (fun n => s32 (n - 1))) ;;
      release_of c cond_lock ;;
      mutex_acquire m LOCK_INFINITE ;;
      ret tt
  | _, _ => ret tt
  end.

Definition cond_signal (c : option nat) : K unit :=
  match c with
  | None => ret tt
  | Some c =>
      acquire_of c cond_lock ;;
      wt <- cv_get c waiting ;;
      sig <- cv_get c signals ;;
      if sig <? wt then
        cv_upd c (set signals (fun n => s32 (n + 1))) ;;
        release_of c wait_sem ;;
        release_of c cond_lock ;;
        acquire_of c wait_done
      else release_of c cond_lock
  end.

Definition cond_broadcast (c : option nat) : K unit :=
  match c with
  | None => ret tt
  | Some c =>
      acquire_of c cond_lock ;;
      wt <- cv_get c waiting ;;
      sig <- cv_get c signals ;;
      if sig <? wt then
        let num_waiting := s32 (wt - sig) in
        cv_upd c (set signals (fun _ => wt)) ;;
        for_each (seq 0 (Z.to_nat num_waiting)) (fun _ => release_of c wait_sem) ;;
        release_of c cond_lock ;;
        for_each (seq 0 (Z.to_nat num_waiting)) (fun _ => acquire_of c wait_done)
      else release_of c cond_lock
  end.
End mutexes.
