(* ===== verification/MutexFacts.v ===== *)
(** * Mutexes and condition variables: what the code guarantees

    Counting, the waiting list, waiting itself, hand-over on release; and the
    two ways the code falls short: a waiting list that points back to threads
    already served, and condition variables that do not wait. *)
From S2P Require Import Prelude ThreadDefs Ring ThreadFacts Sched SchedFacts SchedCorrect ThreadApi ThreadApiFacts Mutex.

(** The world with mutex [m] being [x], the locks [H] and the pool [P]. *)
Definition mstate (w : world) (m : nat) (x : MUTEX) (H : gset lockid) (P : pool) : world :=
  w <| Mutexes ::= <[m := x]> |> <| held := H |> <| ThreadPool := P |>.
Arguments mstate : simpl never.

Section mstates.
Context (w : world) (m : nat).
Implicit Types (x : MUTEX) (H : gset lockid) (P : pool).

Lemma ms_id x : Mutexes w !! m = Some x -> w = mstate w m x (held w) (ThreadPool w).
Proof. intros Hx. unfold mstate. cbn. rewrite insert_id by done. by destruct w. Qed.

Lemma ms_lookup x H P : Mutexes (mstate w m x H P) !! m = Some x.
Proof. apply (lookup_insert_eq (Mutexes w)). Qed.

Lemma ms_insert x y H P :
  mstate w m x H P <| Mutexes ::= <[m := y]> |> = mstate w m y H P.
Proof.
  unfold mstate. destruct w; cbn. f_equal. apply (insert_insert_eq Mutexes).
Qed.

Lemma ms_get {A B} (F : THREAD -> A) x H P i v (k : A -> K B) :
  fv F P i = Some v -> bind (th_get (Some i) F) k (mstate w m x H P) = k v (mstate w m x H P).
Proof. intros Hv. by apply (th_get_run F (mstate w m x H P)). Qed.

Lemma ms_upd {B} f x H P i (k : unit -> K B) :
  (i < length P)%nat ->
  bind (th_upd (Some i) f) k (mstate w m x H P) = k tt (mstate w m x H (alter f i P)).
Proof. intros. by apply (th_upd_run f (mstate w m x H P)). Qed.

Lemma ms_mx_get {A B} (F : MUTEX -> A) x H P (k : A -> K B) :
  bind (mx_get m F) k (mstate w m x H P) = k (F x) (mstate w m x H P).
Proof. unfold bind, mx_get. by rewrite ms_lookup. Qed.

Lemma ms_mx_upd {B} f x H P (k : unit -> K B) :
  bind (mx_upd m f) k (mstate w m x H P) = k tt (mstate w m (f x) H P).
Proof. unfold bind, mx_upd. by rewrite ms_lookup, ms_insert. Qed.

Lemma ms_mx_upd_end f x H P : mx_upd m f (mstate w m x H P) = Ok tt (mstate w m (f x) H P).
Proof. unfold mx_upd. by rewrite ms_lookup, ms_insert. Qed.

Lemma ms_lock {B} l x H P (k : unit -> K B) :
  l ∉ H -> bind (lock l) k (mstate w m x H P) = k tt (mstate w m x ({[l]} ∪ H) P).
Proof. intros Hl. by rewrite lock_run. Qed.

Lemma ms_unlock {B} l x H P (k : unit -> K B) :
  bind (unlock l) k (mstate w m x H P) = k tt (mstate w m x (H ∖ {[l]}) P).
Proof. done. Qed.

Lemma ms_lock_mutex {B} x H P (k : unit -> K B) :
  LMutex m ∉ H -> bind (lock_mutex m) k (mstate w m x H P) = k tt (mstate w m x ({[LMutex m]} ∪ H) P).
Proof. intros Hl. unfold lock_mutex. norm. rewrite ms_mx_get. by rewrite lock_run. Qed.
End mstates.

Ltac mrd H := norm; rewrite (ms_get _ _ _ _ _ _ _ _ _ H); cbn beta iota.
Ltac mwr := norm; rewrite ms_upd by in_pool; cbn beta iota.
Ltac mmg := norm; rewrite ms_mx_get; cbn beta iota.
Ltac mmu := norm; rewrite ms_mx_upd; cbn beta iota.

(** ** Counting *)

Lemma acquire_free_run call dpc_fuel w m x timeout :
  Mutexes w !! m = Some x -> LMutex m ∉ held w ->
  0 <= CurrentLockCount x < MaximumLockCount x -> MaximumLockCount x < 2 ^ 32 ->
  mutex_acquire_begin call dpc_fuel m timeout w =
    Ok true (w <| Mutexes ::= <[m := x <| CurrentLockCount := CurrentLockCount x + 1 |>]> |>).
Proof.
  intros Hx Hl Hc Hm. rewrite (ms_id w m x Hx) at 1.
  unfold mutex_acquire_begin. rewrite ms_lock_mutex by done. mmg. mmg.
  rewrite (proj2 (Z.ltb_lt _ _)) by lia. mmu. norm. rewrite ms_unlock. unfold ret, mstate. f_equal.
  destruct w; cbn in *. f_equal; [|set_solver]. f_equal.
  destruct x; cbn in *. by rewrite u32_small by lia.
Qed.

(** ** Releasing *)

(** What one round of the release does to the mutex and to the thread [t] it
    serves, whose successor is [n]. *)
Definition served (x : MUTEX) (t : nat) (n : ptr) : MUTEX :=
  x <| FirstWaiting := if decide (n = Some t) then None else n |>
    <| LastWaiting ::= fun l => if decide (l = Some t) then None else l |>
    <| CurrentLockCount ::= fun c => u32 (c + 1) |>.
Definition woken (t : nat) (P : pool) : pool :=
  alter (set SleepTime (fun _ => 0)) t (alter (set WaitingForMutex (fun _ => 0)) t P).
Definition strip_wait (t : THREAD) : THREAD := t <| SleepTime := 0 |> <| WaitingForMutex := 0 |>.

Lemma woken_agree t P : agree strip_wait (woken t P) P.
Proof. unfold woken. do 2 (etransitivity; [by apply agree_alter|]). done. Qed.

Section releasing.
Context (w : world) (m : nat).
Implicit Types (x : MUTEX) (H : gset lockid) (P : pool).

Lemma release_step_run x H P t n :
  FirstWaiting x = Some t -> CurrentLockCount x < MaximumLockCount x ->
  fv NextThreadMutex P t = Some n ->
  mutex_release_step m tt (mstate w m x H P) = Ok (Some tt) (mstate w m (served x t n) H (woken t P)).
Proof.
  intros Hf Hc Hn. assert (t < length P)%nat as Ht by (apply lookup_lt_is_Some, (fv_is_Some NextThreadMutex); eauto).
  unfold mutex_release_step. mmg. mmg. mmg. rewrite Hf. rewrite (proj2 (Z.ltb_lt _ _)) by done.
  mrd Hn. mmu.
  set (x1 := set FirstWaiting (fun _ => if decide (n = Some t) then None else n) x).
  set (x2 := set LastWaiting (fun l => if decide (l = Some t) then None else l) x1).
  assert (forall k : unit -> K (option unit),
    bind (when (bool_decide (n = Some t)) (mx_upd m (set FirstWaiting (fun _ => None)))) k
      (mstate w m (set FirstWaiting (fun _ => n) x) H P) = k tt (mstate w m x1 H P)) as E1.
  { intros k. unfold when, x1. destruct (decide (n = Some t)) as [->|Hne].
    - rewrite bool_decide_true by done. rewrite ms_mx_upd. by destruct x.
    - rewrite bool_decide_false by done. by rewrite ret_run. }
  norm. rewrite E1. mmg.
  assert (forall k : unit -> K (option unit),
    bind (when (bool_decide (LastWaiting x1 = Some t)) (mx_upd m (set LastWaiting (fun _ => None)))) k (mstate w m x1 H P)
    = k tt (mstate w m x2 H P)) as E2.
  { intros k. unfold when, x2. destruct (decide (LastWaiting x1 = Some t)) as [E|Hne].
    - rewrite bool_decide_true by done. rewrite ms_mx_upd. do 2 f_equal. destruct x1; cbn in *.
      f_equal. by rewrite decide_True.
    - rewrite bool_decide_false by done. rewrite ret_run. do 2 f_equal. destruct x1; cbn in *.
      f_equal. by rewrite decide_False. }
  norm. rewrite E2. mwr. mwr. mmu. unfold ret. f_equal.
Qed.

Lemma release_step_stop x H P :
  FirstWaiting x = None \/ MaximumLockCount x <= CurrentLockCount x ->
  mutex_release_step m tt (mstate w m x H P) = Ok None (mstate w m x H P).
Proof.
  intros Hs. unfold mutex_release_step. mmg. mmg. mmg. destruct (FirstWaiting x) as [t|] eqn:E; [|done].
  destruct Hs as [|Hs]; [done|]. by rewrite (proj2 (Z.ltb_ge _ _)).
Qed.

Definition waiters_in (x : MUTEX) (P : pool) : Prop :=
  (forall j, FirstWaiting x = Some j -> (j < length P)%nat) /\
  (forall i j, fv NextThreadMutex P i = Some (Some j) -> (j < length P)%nat).

Lemma release_loop n x H P :
  waiters_in x P -> 0 <= CurrentLockCount x -> MaximumLockCount x < 2 ^ 32 ->
  CurrentLockCount x <= MaximumLockCount x -> (Z.to_nat (MaximumLockCount x - CurrentLockCount x) <= n)%nat ->
  exists x' P', while (S n) (mutex_release_step m) tt (mstate w m x H P) = Ok tt (mstate w m x' H P') /\
    MaximumLockCount x' = MaximumLockCount x /\
    CurrentLockCount x <= CurrentLockCount x' <= MaximumLockCount x /\
    (FirstWaiting x' = None \/ CurrentLockCount x' = MaximumLockCount x) /\ agree strip_wait P' P.
Proof.
  revert x P. induction n as [|n IH]; intros x P [Hf Hn] H0 Hm Hle Hfuel.
  { exists x, P. cbn [while]. mstep (release_step_stop x H P ltac:(right; lia)). split; [done|].
    split_and!; try done; lia. }
  destruct (decide (CurrentLockCount x < MaximumLockCount x)) as [Hc|Hc].
  2:{ exists x, P. cbn [while]. mstep (release_step_stop x H P ltac:(right; lia)). split; [done|].
      split_and!; try done; lia. }
  destruct (FirstWaiting x) as [t|] eqn:Et.
  2:{ exists x, P. cbn [while]. mstep (release_step_stop x H P ltac:(left; done)). split; [done|].
      split_and!; try done; try lia; by left. }
  destruct (lookup_lt_is_Some_2 _ _ (Hf t eq_refl)) as [th Hth].
  assert (fv NextThreadMutex P t = Some (NextThreadMutex th)) as Hnx by (unfold fv; by rewrite Hth).
  destruct (IH (served x t (NextThreadMutex th)) (woken t P)) as (x' & P' & Hrun & H1 & H2 & H3 & H4).
  - split; [|intros i j; rewrite (agree_fv strip_wait NextThreadMutex _ _ i (fun _ => eq_refl) (woken_agree t P)),
               (agree_length _ _ _ (woken_agree t P)); by apply Hn].
    intros j. rewrite (agree_length _ _ _ (woken_agree t P)). unfold served. cbn.
    case_decide; [done|]. intros E. apply (Hn t). by rewrite Hnx, E.
  - cbn. apply u32_range.
  - done.
  - cbn. rewrite u32_small by lia. lia.
  - cbn. rewrite u32_small by lia. lia.
  - exists x', P'. cbn in H1, H2. rewrite u32_small in H2 by lia. split.
    + cbn [while]. mstep (release_step_run x H P t _ Et Hc Hnx). exact Hrun.
    + split_and!; [done|lia|lia|done|]. etransitivity; [exact H4|apply woken_agree].
Qed.
End releasing.

(** A release always comes to an end, whatever the waiting list: with
    pointers into the pool and at least one holder, [mutex_release] returns
    with the lock word free, never more holders than the maximum, at most one
    holder less, and either nobody left to serve or the mutex full again; of
    the threads only sleep times and waiting marks change. *)
Theorem mutex_release_ends w m x :
  Mutexes w !! m = Some x -> LMutex m ∉ held w -> waiters_in x (ThreadPool w) ->
  1 <= CurrentLockCount x <= MaximumLockCount x -> MaximumLockCount x < 2 ^ 32 ->
  exists x' P', mutex_release m w = Ok tt (w <| Mutexes ::= <[m := x']> |> <| ThreadPool := P' |>) /\
    MaximumLockCount x' = MaximumLockCount x /\
    CurrentLockCount x - 1 <= CurrentLockCount x' <= MaximumLockCount x /\
    (FirstWaiting x' = None \/ CurrentLockCount x' = MaximumLockCount x) /\
    agree strip_wait P' (ThreadPool w).
Proof.
  intros Hx Hl Hw Hc Hm. set (x1 := x <| CurrentLockCount ::= fun n => u32 (n - 1) |>).
  assert (CurrentLockCount x1 = CurrentLockCount x - 1) as E1 by (cbn; rewrite u32_small; lia).
  destruct (release_loop w m (Z.to_nat (MaximumLockCount x1 - CurrentLockCount x1)) x1
    ({[LMutex m]} ∪ held w) (ThreadPool w)) as (x' & P' & Hrun & H1 & H2 & H3 & H4);
    [exact Hw|lia|done|cbn [x1 MaximumLockCount]; change (MaximumLockCount x1) with (MaximumLockCount x); lia|lia|].
  exists x', P'. split.
  - rewrite (ms_id w m x Hx) at 1. unfold mutex_release. rewrite ms_lock_mutex by done. mmu. mmg. mmg.
    norm. mstep Hrun. unfold unlock, modify, mstate. f_equal. destruct w; cbn. f_equal. set_solver.
  - rewrite E1 in H2. done.
Qed.

(** ** The waiting list *)

Definition mutex_ring (P : pool) (q : list nat) : Prop :=
  ring (link NextThreadMutex P) (link PreviousThreadMutex P) q.

(** The threads [q] wait for the mutex, first come first: a ring, but a lone
    thread may also have null pointers. *)
Definition waiting_list (P : pool) (q : list nat) (x : MUTEX) : Prop :=
  FirstWaiting x = head q /\ LastWaiting x = last q /\ Forall (fun t => (t < length P)%nat) q /\
  match q with
  | [] => True
  | [t] => (fv NextThreadMutex P t = Some None /\ fv PreviousThreadMutex P t = Some None) \/ mutex_ring P [t]
  | _ => mutex_ring P q
  end.

Definition strip_mutex (t : THREAD) : THREAD :=
  t <| NextThreadMutex := None |> <| PreviousThreadMutex := None |>.

Section enqueue.
Context (w : world) (m : nat).
Implicit Types (x : MUTEX) (H : gset lockid) (P : pool).

(** The pool after [t] has joined a list with ends [h] and [z]. *)
Definition joined (t : nat) (h z : ptr) (P : pool) : pool :=
  let P1 := alter (set NextThreadMutex (fun _ => h)) t (alter (set PreviousThreadMutex (fun _ => z)) t P) in
  let P2 := match h with Some h => alter (set PreviousThreadMutex (fun _ => Some t)) h P1 | None => P1 end in
  match z with Some z => alter (set NextThreadMutex (fun _ => Some t)) z P2 | None => P2 end.

Lemma joined_agree t h z P : agree strip_mutex (joined t h z P) P.
Proof.
  unfold joined. destruct h, z; do 4 (try (etransitivity; [by apply agree_alter|])); done.
Qed.

Lemma enqueue_run x H P t q :
  waiting_list P q x -> (t < length P)%nat ->
  mutex_enqueue m (Some t) (mstate w m x H P) =
    Ok tt (mstate w m (x <| FirstWaiting := head (q ++ [t]) |> <| LastWaiting := Some t |>) H
             (joined t (head q) (last q) P)).
Proof.
  intros (Hf & Hl & Hq & _) Ht. unfold mutex_enqueue, joined. mmg. mwr. mmg. mwr. rewrite Hf, Hl.
  destruct q as [|h q]; cbn [head].
  - mmu. mmg. cbn [last].
    replace (LastWaiting (set FirstWaiting (fun _ => Some t) x)) with (@None nat) by (by destruct x).
    rt. rewrite ms_mx_upd_end. f_equal.
  - assert (h < length P)%nat by (by apply Forall_inv in Hq).
    destruct (last (h :: q)) as [z|] eqn:Hz; [|by apply last_None in Hz].
    assert (z < length P)%nat by (eapply Forall_forall in Hq; [done|]; by apply last_Some_elem_of).
    mwr. mmg. rewrite Hl. mwr. rewrite ms_mx_upd_end. f_equal.
    destruct x; cbn in *. by subst.
Qed.

Lemma joined_ring P q h z t :
  head q = Some h -> last q = Some z -> Forall (fun t => (t < length P)%nat) q ->
  t ∉ q -> (t < length P)%nat ->
  (mutex_ring P q \/ q = [h]) -> mutex_ring (joined t (Some h) (Some z) P) (q ++ [t]).
Proof.
  intros Hh Hz Hq Ht Htl Hr.
  assert (h < length P)%nat by (eapply Forall_forall in Hq; [done|]; by apply head_Some_elem_of).
  assert (z < length P)%nat by (eapply Forall_forall in Hq; [done|]; by apply last_Some_elem_of).
  assert (forall i, link NextThreadMutex (joined t (Some h) (Some z) P) i =
    upd (upd (link NextThreadMutex P) t (Some h)) z (Some t) i) as HN.
  { intros i. unfold joined. rewrite (link_alter _ _ _ _ _ (Some t)) by (done || in_pool).
    unfold upd. case_decide; [done|]. rewrite link_alter_other by done.
    rewrite (link_alter _ _ _ _ _ (Some h)) by (done || in_pool). unfold upd. case_decide; [done|].
    by rewrite link_alter_other. }
  assert (forall i, link PreviousThreadMutex (joined t (Some h) (Some z) P) i =
    upd (upd (link PreviousThreadMutex P) t (Some z)) h (Some t) i) as HP.
  { intros i. unfold joined. rewrite link_alter_other by done.
    rewrite (link_alter _ _ _ _ _ (Some t)) by (done || in_pool). unfold upd. case_decide; [done|].
    rewrite link_alter_other by done. by rewrite (link_alter _ _ _ _ _ (Some z)) by (done || in_pool). }
  destruct q as [|h' q]; [done|]. injection Hh as ->.
  apply (ring_rotate _ _ [t] (h :: q)).
  apply (ring_ext (upd (upd (link NextThreadMutex P) t (Some h)) z (Some t))
                  (upd (upd (link PreviousThreadMutex P) t (Some z)) h (Some t))); [done|done|].
  destruct Hr as [Hr|[= ->]]; [by apply ring_insert|]. injection Hz as ->.
  split; [|repeat split]; [repeat constructor; set_solver| | | |];
    rewrite ?upd_eq; rewrite ?upd_ne by set_solver; by rewrite ?upd_eq.
Qed.

Lemma joined_list P q x t :
  waiting_list P q x -> t ∉ q -> (t < length P)%nat ->
  waiting_list (joined t (head q) (last q) P) (q ++ [t])
    (x <| FirstWaiting := head (q ++ [t]) |> <| LastWaiting := Some t |>).
Proof.
  intros (Hf & Hl & Hq & Hr) Ht Htl.
  pose proof (agree_length _ _ _ (joined_agree t (head q) (last q) P)) as HL.
  split; [done|]. split; [by rewrite last_snoc|].
  split; [rewrite HL; apply Forall_app; by split; [|constructor]|].
  destruct q as [|h q].
  - cbn. left. unfold joined. cbn. apply lookup_lt_is_Some in Htl as [u Hu].
    unfold fv. split; rewrite !list_lookup_alter, !decide_True, Hu by done; done.
  - destruct (last (h :: q)) as [z|] eqn:Hz; [|by apply last_None in Hz].
    assert (mutex_ring (joined t (Some h) (Some z) P) ((h :: q) ++ [t])) as HR.
    { apply joined_ring; try done. destruct q; [by right|by left]. }
    destruct q; exact HR.
Qed.
End enqueue.

Section dequeue.
Context (w : world) (m : nat).
Implicit Types (x : MUTEX) (H : gset lockid) (P : pool).

(** The pool after the neighbours of [t] have been linked to each other. *)
Definition parted (n p : ptr) (P : pool) : pool :=
  let P1 := match n with Some n => alter (set PreviousThreadMutex (fun _ => p)) n P | None => P end in
  match p with Some p => alter (set NextThreadMutex (fun _ => n)) p P1 | None => P1 end.

Lemma parted_agree n p P : agree strip_mutex (parted n p P) P.
Proof. unfold parted. destruct n, p; do 2 (try (etransitivity; [by apply agree_alter|])); done. Qed.

(** The ends of the list after [t], with neighbours [n] and [p], has left. *)
Definition without (t : nat) (n p : ptr) (x : MUTEX) : MUTEX :=
  let first := if decide (FirstWaiting x = Some t) then n else FirstWaiting x in
  let last_ := if decide (LastWaiting x = Some t) then p else LastWaiting x in
  x <| FirstWaiting := if decide (first = Some t) then None else first |>
    <| LastWaiting := if decide (last_ = Some t) then None else last_ |>.

Lemma when_first_run x H P t v (k : unit -> K unit) :
  bind (when (bool_decide (FirstWaiting x = Some t)) (mx_upd m (set FirstWaiting (fun _ => v)))) k (mstate w m x H P) =
  k tt (mstate w m (x <| FirstWaiting ::= fun f => if decide (f = Some t) then v else f |>) H P).
Proof.
  unfold when. destruct (decide (FirstWaiting x = Some t)) as [E|E].
  - rewrite bool_decide_true, ms_mx_upd by done. do 2 f_equal. destruct x; cbn in *. f_equal. by rewrite decide_True.
  - rewrite bool_decide_false, ret_run by done. do 2 f_equal. destruct x; cbn in *. f_equal. by rewrite decide_False.
Qed.
Lemma when_last_run x H P t v (k : unit -> K unit) :
  bind (when (bool_decide (LastWaiting x = Some t)) (mx_upd m (set LastWaiting (fun _ => v)))) k (mstate w m x H P) =
  k tt (mstate w m (x <| LastWaiting ::= fun f => if decide (f = Some t) then v else f |>) H P).
Proof.
  unfold when. destruct (decide (LastWaiting x = Some t)) as [E|E].
  - rewrite bool_decide_true, ms_mx_upd by done. do 2 f_equal. destruct x; cbn in *. f_equal. by rewrite decide_True.
  - rewrite bool_decide_false, ret_run by done. do 2 f_equal. destruct x; cbn in *. f_equal. by rewrite decide_False.
Qed.

(** A thread outside its own neighbours, or alone, leaves the list. *)
Lemma dequeue_run x H P t n p :
  fv NextThreadMutex P t = Some n -> fv PreviousThreadMutex P t = Some p ->
  (forall j, n = Some j \/ p = Some j -> (j < length P)%nat) ->
  (n = Some t <-> p = Some t) ->
  mutex_dequeue m (Some t) (mstate w m x H P) = Ok tt (mstate w m (without t n p x) H (parted n p P)).
Proof.
  intros Hn Hp Hlt Heq.
  set (P1 := match n with Some n => alter (set PreviousThreadMutex (fun _ => p)) n P | None => P end).
  assert (fv NextThreadMutex P1 t = Some n) as Hn1.
  { unfold P1. destruct n; [|done]. by rewrite fv_alter_other. }
  assert (fv PreviousThreadMutex P1 t = Some p) as Hp1.
  { unfold P1. destruct n as [j|]; [|done]. destruct (decide (t = j)) as [<-|]; [|by rewrite fv_alter_ne].
    rewrite fv_alter. apply fv_const; [done|]. apply lookup_lt_is_Some. by apply Hlt; left. }
  assert (fv NextThreadMutex (parted n p P) t = Some n) as Hn2.
  { unfold parted. fold P1. destruct p as [j|]; [|done]. destruct (decide (t = j)) as [<-|]; [|by rewrite fv_alter_ne].
    rewrite fv_alter. apply fv_const; [done|]. unfold P1. apply lookup_lt_is_Some.
    destruct n; rewrite ?length_alter; apply Hlt; by right. }
  assert (fv PreviousThreadMutex (parted n p P) t = Some p) as Hp2.
  { unfold parted. fold P1. destruct p; [|done]. by rewrite fv_alter_other. }
  unfold mutex_dequeue. mrd Hn. mrd Hp.
  assert (forall k : unit -> K unit,
    bind (match n with Some _ => th_upd n (set PreviousThreadMutex (fun _ => p)) | None => ret tt end) k (mstate w m x H P)
    = k tt (mstate w m x H P1)) as E1.
  { intros k. unfold P1. destruct n as [j|]; [|by rt]. rewrite ms_upd; [done|]. apply Hlt. by left. }
  norm. rewrite E1. mrd Hp1. mrd Hn1.
  assert (forall k : unit -> K unit,
    bind (match p with Some _ => th_upd p (set NextThreadMutex (fun _ => n)) | None => ret tt end) k (mstate w m x H P1)
    = k tt (mstate w m x H (parted n p P))) as E2.
  { intros k. unfold parted. fold P1. destruct p as [j|]; [|by rt]. rewrite ms_upd; [done|].
    unfold P1. destruct n; rewrite ?length_alter; apply Hlt; by right. }
  norm. rewrite E2. mmg. mrd Hn2. norm. rewrite when_first_run. mmg. mrd Hp2. norm. rewrite when_last_run.
  mmg. norm. rewrite when_first_run. mmg. cbn beta.
  match goal with |- when ?c ?a ?s = _ => transitivity (bind (when c a) ret s);
    [unfold bind; by destruct (when c a s) as [[]| | |]|] end.
  rewrite when_last_run. unfold ret. do 2 f_equal.
Qed.
End dequeue.

Section leaving_list.
Implicit Types (x : MUTEX) (P : pool).

(** A member's neighbours in the waiting list. *)
Lemma waiting_neighbours P l1 t l2 x :
  waiting_list P (l1 ++ t :: l2) x ->
  exists n p, fv NextThreadMutex P t = Some n /\ fv PreviousThreadMutex P t = Some p /\
    (forall j, n = Some j \/ p = Some j -> (j < length P)%nat) /\ (n = Some t <-> p = Some t) /\
    (l1 ++ l2 = [] -> n = None /\ p = None \/ n = Some t /\ p = Some t) /\
    (l1 ++ l2 <> [] -> n = head (l2 ++ l1) /\ p = last (l2 ++ l1) /\ mutex_ring (parted n p P) (l1 ++ l2)).
Proof.
  intros (_ & _ & Hq & Hr). destruct (decide (l1 ++ l2 = [])) as [E|E].
  { apply app_nil in E as [-> ->]. cbn in Hr. apply Forall_inv in Hq as Ht. destruct Hr as [[Hn Hp]|Hr].
    - exists None, None. split_and!; try done. naive_solver. intros _. by left.
    - destruct Hr as [_ (Hn & Hp & _)]. apply link_fv in Hn. apply link_fv in Hp.
      exists (Some t), (Some t). split_and!; try done. naive_solver. intros _. by right. }
  assert (mutex_ring P (l1 ++ t :: l2)) as HR.
  { destruct l1 as [|a [|b l1]], l2 as [|d l2]; try done. }
  pose proof (ring_rotate _ _ l1 (t :: l2) HR) as HR'. cbn in HR'.
  destruct (head (l2 ++ l1)) as [y|] eqn:Hy.
  2:{ destruct l2; [|done]. destruct l1; done. }
  destruct (last (l2 ++ l1)) as [z|] eqn:Hz.
  2:{ apply last_None, app_nil in Hz as [-> ->]. done. }
  destruct (ring_unlink _ _ _ _ _ _ HR' Hy Hz) as (Hn & Hp & HU).
  pose proof (ring_nodup _ _ _ HR') as Hnd. apply NoDup_cons in Hnd as [Htn _].
  pose proof (head_Some_elem_of _ _ Hy) as Hyin. pose proof (last_Some_elem_of _ _ Hz) as Hzin.
  assert (forall j, j ∈ l2 ++ l1 -> (j < length P)%nat) as Hin
    by (intros j Hj; eapply Forall_forall in Hq; [exact Hq|set_solver]).
  exists (Some y), (Some z). split; [by apply link_fv|]. split; [by apply link_fv|].
  split; [intros j [[= <-]|[= <-]]; by apply Hin|].
  split; [split; intros [= ->]; done|]. split; [done|]. intros _. split; [done|]. split; [done|].
  apply (ring_rotate _ _ l2 l1). revert HU. unfold parted. apply ring_ext; intros i _.
  - rewrite (link_alter _ _ _ _ _ (Some y)) by (done || rewrite length_alter; by apply Hin).
    unfold upd. case_decide; [done|]. by rewrite link_alter_other.
  - rewrite link_alter_other by done. by rewrite (link_alter _ _ _ _ _ (Some z)) by (done || by apply Hin).
Qed.

Lemma parted_list P l1 t l2 x n p :
  waiting_list P (l1 ++ t :: l2) x -> t ∉ l1 ++ l2 ->
  (l1 ++ l2 = [] -> n = None /\ p = None \/ n = Some t /\ p = Some t) ->
  (l1 ++ l2 <> [] -> n = head (l2 ++ l1) /\ p = last (l2 ++ l1) /\ mutex_ring (parted n p P) (l1 ++ l2)) ->
  waiting_list (parted n p P) (l1 ++ l2) (without t n p x).
Proof.
  intros (Hf & Hl & Hq & _) Ht H0 H1. pose proof (agree_length _ _ _ (parted_agree n p P)) as HL.
  destruct (decide (l1 ++ l2 = [])) as [E|E].
  { destruct (H0 E) as [[-> ->]|[-> ->]]; apply app_nil in E as [-> ->]; cbn in Hf, Hl;
      unfold without; rewrite Hf, Hl; (split; [cbn; by repeat case_decide|]);
      (split; [cbn; by repeat case_decide|]); done. }
  destruct (H1 E) as (Hn & Hp & HR).
  assert (forall j, j ∈ l1 ++ l2 -> j <> t) as Hne by (intros j Hj ->; done).
  split; [|split; [|split]].
  - unfold without. cbn. rewrite Hf. destruct l1 as [|a l1]; cbn [app head].
    + rewrite (decide_True (P := Some t = Some t)) by done. rewrite app_nil_r in Hn. rewrite Hn. apply decide_False.
      intros Hh%head_Some_elem_of. done.
    + rewrite (decide_False (P := Some a = Some t)) by (intros [= ->]; set_solver).
      apply decide_False. intros [= ->]; set_solver.
  - unfold without. cbn. rewrite Hl. destruct l2 as [|b l2'] using rev_ind.
    + rewrite last_snoc, (decide_True (P := Some t = Some t)) by done. rewrite Hp, app_nil_r. apply decide_False.
      intros Hh%last_Some_elem_of. rewrite app_nil_r in Ht. done.
    + replace (l1 ++ t :: l2' ++ [b]) with ((l1 ++ t :: l2') ++ [b]) by (by rewrite <- app_assoc).
      rewrite app_assoc, !last_snoc.
      rewrite (decide_False (P := Some b = Some t)) by (intros [= ->]; set_solver).
      apply decide_False. intros [= ->]; set_solver.
  - rewrite HL. apply Forall_forall. intros j Hj. eapply Forall_forall in Hq; [exact Hq|set_solver].
  - destruct (l1 ++ l2) as [|a [|b r]]; [done|by right|done].
Qed.
End leaving_list.

(** ** Waiting and waking *)

Lemma get_current_run {B} w b (k : ptr -> K B) :
  Processors w !! cpu w = Some b -> can_lock w (cpu w) ->
  bind thread_get_current k w = k (CurrentThread b) w.
Proof.
  intros Hb [(b' & Hb' & HI) [c Hc] Hl1 Hl2]. assert (b' = b) as -> by congruence.
  assert (Processors (locked w (cpu w)) !! cpu w = Some (b <| Irq := 2 |>)) as Hbl
    by exact (lookup_alter_eq_Some _ _ _ b Hb).
  unfold thread_get_current, thread_spinlock, thread_get_processor_block.
  norm. rewrite (raise_irql_run w b c) by done. norm. rewrite lock_run by done. rt. gt.
  match goal with |- context [cpu ?s] => change (cpu s) with (cpu w) end.
  norm. rewrite lock_run by (cbn; set_solver). norm.
  change (set held (fun h => {[LProc _]} ∪ h) _) with (locked w (cpu w)).
  rewrite (pr_get_run _ _ _ _ _ Hbl). unfold thread_unlock, unlock. md. md.
  norm. rewrite (lower_irql_run _ (b <| Irq := 2 |>) c); [|exact Hbl|exact Hc].
  rt. cbn [CurrentThread set]. f_equal. unfold locked. destruct w; cbn in *. f_equal.
  - by apply irq_twice.
  - set_solver.
Qed.

Lemma can_lock_mstate w m x H P p :
  can_lock w p -> LThreadList ∉ H -> LProc p ∉ H -> can_lock (mstate w m x H P) p.
Proof. intros [H1 H2 _ _] ??. by split. Qed.

Definition strip_waiter (t : THREAD) : THREAD := strip_wait (strip_mutex t).

Section waiting.
Variable call : Z -> Z -> Z -> Z -> K unit.
Variable dpc_fuel : nat.
Context (w : world) (m : nat) (x : MUTEX) (b : PROCESSOR) (t : nat).
Context (Hx : Mutexes w !! m = Some x) (Hl : LMutex m ∉ held w).
Context (Hb : Processors w !! cpu w = Some b) (Hcl : can_lock w (cpu w)).
Context (Ht : CurrentThread b = Some t).

Lemma current_here {B} y P (k : ptr -> K B) :
  bind thread_get_current k (mstate w m y ({[LMutex m]} ∪ held w) P) =
  k (Some t) (mstate w m y ({[LMutex m]} ∪ held w) P).
Proof.
  rewrite (get_current_run (mstate w m y _ P) b); [by rewrite Ht|exact Hb|].
  destruct Hcl as [? ? ? ?]. apply can_lock_mstate; [done|set_solver..].
Qed.

(** The threads after the caller has gone to sleep until [until]. *)
Definition asleep (until : Z) (P : pool) : pool :=
  alter (set SleepTime (fun _ => s64 until)) t (alter (set WaitingForMutex (fun _ => 1)) t P).

Lemma mutex_sleep_run {B} y ms P (k : unit -> K B) :
  (t < length P)%nat ->
  bind (mutex_sleep call dpc_fuel ms m) k (mstate w m y ({[LMutex m]} ∪ held w) P) =
  bind (sc call dpc_fuel) k (mstate (w <| Processors ::= alter (set Irq (fun _ => 2)) (cpu w) |>) m y (held w)
    (alter (set SleepTime (fun _ => s64 (u64 (millisecond_clock_time w + ms)))) t P)).
Proof.
  intros Htl. destruct Hcl as [(b' & Hb' & HI) [c Hc] Hl1 Hl2]. assert (b' = b) as -> by congruence.
  unfold mutex_sleep, thread_get_processor_block, set_sleep_time. gt. gt. norm.
  rewrite (raise_irql_run _ b c) by done.
  set (w' := w <| Processors ::= alter (set Irq (fun _ => 2)) (cpu w) |>).
  change (set Processors _ (mstate w m y ?H P)) with (mstate w' m y H P).
  assert (Processors w' !! cpu w = Some (b <| Irq := 2 |>)) as Hb2 by exact (lookup_alter_eq_Some _ _ _ b Hb).
  match goal with |- context [cpu ?s] => change (cpu s) with (cpu w) end.
  match goal with |- context [millisecond_clock_time (mstate ?a ?b ?c ?d ?e)] =>
    change (millisecond_clock_time (mstate a b c d e)) with (millisecond_clock_time w) end.
  norm. rewrite ms_lock by set_solver. norm.
  rewrite (pr_get_run _ _ _ (b <| Irq := 2 |>)) by exact Hb2.
  change (CurrentThread (b <| Irq := 2 |>)) with (CurrentThread b). rewrite Ht. mwr.
  norm. rewrite ms_unlock. norm. rewrite ms_unlock. do 2 f_equal. set_solver.
Qed.

(** An acquire of a full mutex goes to sleep in order.  It puts the caller
    [t] behind the threads already waiting, marks it, sets its sleep time
    [timeout] milliseconds ahead, gives back the mutex's own lock and every
    other it took, and only then makes the system call that switches threads,
    at dispatch level; the holders are not changed. *)
Theorem mutex_acquire_waits timeout q :
  MaximumLockCount x <= CurrentLockCount x -> waiting_list (ThreadPool w) q x ->
  (t < length (ThreadPool w))%nat -> t ∉ q ->
  exists x' P',
    let w' := w <| Processors ::= alter (set Irq (fun _ => 2)) (cpu w) |>
                <| Mutexes ::= <[m := x']> |> <| ThreadPool := P' |> in
    mutex_acquire_begin call dpc_fuel m timeout w = (sc call dpc_fuel ;; ret false) w' /\
    waiting_list P' (q ++ [t]) x' /\
    CurrentLockCount x' = CurrentLockCount x /\ MaximumLockCount x' = MaximumLockCount x /\
    fv WaitingForMutex P' t = Some 1 /\
    fv SleepTime P' t = Some (s64 (u64 (millisecond_clock_time w + u32 timeout))) /\
    agree strip_waiter P' (ThreadPool w).
Proof.
  intros Hfull Hq Htl Htq.
  set (P1 := joined t (head q) (last q) (ThreadPool w)).
  set (until := u64 (millisecond_clock_time w + u32 timeout)).
  set (x' := x <| FirstWaiting := head (q ++ [t]) |> <| LastWaiting := Some t |>).
  assert (length P1 = length (ThreadPool w)) as HL1 by apply (agree_length _ _ _ (joined_agree _ _ _ _)).
  assert (agree strip_wait (asleep until P1) P1) as Hag
    by (unfold asleep; do 2 (etransitivity; [by apply agree_alter|]); done).
  exists x', (asleep until P1). split_and!.
  - rewrite (ms_id w m x Hx) at 1. unfold mutex_acquire_begin. rewrite ms_lock_mutex by done. mmg. mmg.
    rewrite (proj2 (Z.ltb_ge _ _)) by done. rewrite current_here.
    mstep (enqueue_run w m x ({[LMutex m]} ∪ held w) (ThreadPool w) t q Hq Htl). fold P1 x'.
    rewrite current_here. rewrite ms_upd by (by rewrite HL1).
    rewrite mutex_sleep_run by (by rewrite length_alter, HL1). fold until. reflexivity.
  - destruct (joined_list _ _ _ _ Hq Htq Htl) as (H1 & H2 & H3 & H4). fold P1 x' in H1, H2, H3, H4.
    split; [done|]. split; [done|]. split; [by rewrite (agree_length _ _ _ Hag)|].
    assert (forall l, mutex_ring P1 l -> mutex_ring (asleep until P1) l) as Hring.
    { intros l. apply ring_ext; intros i _; by apply (agree_link strip_wait). }
    destruct (q ++ [t]) as [|u [|v l]]; [done| |by apply Hring]. destruct H4 as [[Hn Hp]|H4]; [left|right; by apply Hring].
    split; [rewrite <- Hn|rewrite <- Hp]; by apply (agree_fv strip_wait).
  - done.
  - done.
  - unfold asleep. rewrite fv_alter_other, fv_alter by done. apply fv_const; [done|]. apply lookup_lt_is_Some. by rewrite HL1.
  - unfold asleep. rewrite fv_alter. apply fv_const; [done|]. apply lookup_lt_is_Some. by rewrite length_alter, HL1.
  - unfold agree, strip_waiter. etransitivity.
    + apply (f_equal (fmap strip_mutex)) in Hag. rewrite <- !list_fmap_compose in Hag. exact Hag.
    + pose proof (joined_agree t (head q) (last q) (ThreadPool w)) as Hj. fold P1 in Hj.
      apply (f_equal (fmap strip_wait)) in Hj. rewrite <- !list_fmap_compose in Hj. exact Hj.
Qed.

(** What [mutex_acquire] returns when the caller [t] runs again.  A thread
    that was served finds its mark cleared, returns 1 and changes nothing; a
    thread that timed out leaves the waiting list, the others keeping their
    order, and returns 0 with the holders unchanged. *)
Theorem mutex_acquire_returns l1 l2 :
  (t < length (ThreadPool w))%nat ->
  (fv WaitingForMutex (ThreadPool w) t = Some 0 -> mutex_acquire_end m w = Ok 1 w) /\
  (fv WaitingForMutex (ThreadPool w) t = Some 1 ->
   waiting_list (ThreadPool w) (l1 ++ t :: l2) x -> t ∉ l1 ++ l2 ->
   exists x' P',
     mutex_acquire_end m w = Ok 0 (w <| Mutexes ::= <[m := x']> |> <| ThreadPool := P' |>) /\
     waiting_list P' (l1 ++ l2) x' /\
     CurrentLockCount x' = CurrentLockCount x /\ MaximumLockCount x' = MaximumLockCount x /\
     agree strip_mutex P' (ThreadPool w)).
Proof.
  intros Htl. split.
  - intros Hw. rewrite (ms_id w m x Hx) at 1. unfold mutex_acquire_end. rewrite ms_lock_mutex by done.
    rewrite current_here. mrd Hw. change (nz 0) with false. rt. rewrite ms_unlock. unfold ret. f_equal.
    transitivity (mstate w m x (held w) (ThreadPool w)); [f_equal; set_solver|symmetry; by apply ms_id].
  - intros Hw Hq Htn. destruct (waiting_neighbours _ _ _ _ _ Hq) as (n & p & Hn & Hp & Hlt & Heq & H0 & H1).
    exists (without t n p x), (parted n p (ThreadPool w)). split_and!; try done.
    + rewrite (ms_id w m x Hx) at 1. unfold mutex_acquire_end. rewrite ms_lock_mutex by done.
      rewrite current_here. mrd Hw. change (nz 1) with true. cbn iota. norm. rewrite current_here. norm.
      mstep (dequeue_run w m x ({[LMutex m]} ∪ held w) (ThreadPool w) t n p Hn Hp Hlt Heq).
      rt. rewrite ms_unlock. unfold ret, mstate. f_equal. destruct w; cbn. f_equal. set_solver.
    + by apply parted_list.
    + apply parted_agree.
Qed.
End waiting.

(** ** Handing over *)

Lemma release_run w m x x' P' :
  Mutexes w !! m = Some x -> LMutex m ∉ held w ->
  let x1 := x <| CurrentLockCount ::= fun n => u32 (n - 1) |> in
  while (S (Z.to_nat (MaximumLockCount x1 - CurrentLockCount x1))) (mutex_release_step m) tt
    (mstate w m x1 ({[LMutex m]} ∪ held w) (ThreadPool w)) = Ok tt (mstate w m x' ({[LMutex m]} ∪ held w) P') ->
  mutex_release m w = Ok tt (w <| Mutexes ::= <[m := x']> |> <| ThreadPool := P' |>).
Proof.
  intros Hx Hl x1 Hrun. rewrite (ms_id w m x Hx) at 1. unfold mutex_release.
  rewrite ms_lock_mutex by done. mmu. mmg. mmg. norm. mstep Hrun.
  unfold unlock, modify, mstate. f_equal. destruct w; cbn. f_equal. set_solver.
Qed.

(** One thread served when the count drops below the maximum by one. *)
Lemma release_one w m x t n :
  Mutexes w !! m = Some x -> LMutex m ∉ held w -> FirstWaiting x = Some t ->
  fv NextThreadMutex (ThreadPool w) t = Some n ->
  1 <= CurrentLockCount x <= MaximumLockCount x -> MaximumLockCount x < 2 ^ 32 ->
  FirstWaiting (served x t n) = None \/ CurrentLockCount x = MaximumLockCount x ->
  mutex_release m w = Ok tt (w <| Mutexes ::= <[m := served x t n <| CurrentLockCount := CurrentLockCount x |>]> |>
                               <| ThreadPool := woken t (ThreadPool w) |>).
Proof.
  intros Hx Hl Hf Hn Hc Hm Hstop. apply (release_run w m x _ _ Hx Hl).
  set (x1 := x <| CurrentLockCount ::= fun n => u32 (n - 1) |>).
  assert (CurrentLockCount x1 = CurrentLockCount x - 1) as E1 by (cbn; rewrite u32_small; lia).
  change (MaximumLockCount x1) with (MaximumLockCount x).
  assert (exists k, Z.to_nat (MaximumLockCount x - CurrentLockCount x1) = S k) as [k ->].
  { exists (Z.to_nat (MaximumLockCount x - CurrentLockCount x)). lia. }
  cbn [while]. mstep (release_step_run w m x1 ({[LMutex m]} ∪ held w) (ThreadPool w) t n Hf
    ltac:(change (MaximumLockCount x1) with (MaximumLockCount x); lia) Hn).
  set (x2 := served x1 t n).
  assert (x2 = served x t n <| CurrentLockCount := CurrentLockCount x |>) as E2.
  { unfold x2, served, x1. destruct x; cbn in *. f_equal. rewrite (u32_small (_ - 1)) by lia.
    rewrite u32_small; lia. }
  rewrite E2. mstep (release_step_stop w m (served x t n <| CurrentLockCount := CurrentLockCount x |>)
    ({[LMutex m]} ∪ held w) (woken t (ThreadPool w)) ltac:(destruct Hstop as [?|E]; [by left|right; cbn; lia])).
  done.
Qed.

(** With one thread waiting, a release hands the mutex to it: the thread
    is awake and finds itself the holder, the count stays, nobody is left
    waiting. *)
Theorem mutex_release_hands_over w m x t :
  Mutexes w !! m = Some x -> LMutex m ∉ held w -> waiting_list (ThreadPool w) [t] x ->
  1 <= CurrentLockCount x <= MaximumLockCount x -> MaximumLockCount x < 2 ^ 32 ->
  exists x' P', mutex_release m w = Ok tt (w <| Mutexes ::= <[m := x']> |> <| ThreadPool := P' |>) /\
    waiting_list P' [] x' /\ CurrentLockCount x' = CurrentLockCount x /\
    fv WaitingForMutex P' t = Some 0 /\ fv SleepTime P' t = Some 0 /\ agree strip_wait P' (ThreadPool w).
Proof.
  intros Hx Hl Hq Hc Hm. destruct (waiting_neighbours _ [] t [] _ Hq) as (n & p & Hn & _ & _ & _ & H0 & _).
  destruct Hq as (Hf & Hla & Ht%Forall_inv & _).
  assert (FirstWaiting (served x t n) = None) as Hnone.
  { unfold served. cbn. destruct (H0 eq_refl) as [[-> _]|[-> _]]; by case_decide. }
  do 2 eexists. split; [by apply (release_one w m x t n); try done; left|]. split; [|split_and!; try done].
  - split; [exact Hnone|]. split; [|done]. cbn. by rewrite Hla, decide_True.
  - unfold woken. rewrite fv_alter_other, fv_alter by done. apply fv_const; [done|]. by apply lookup_lt_is_Some.
  - unfold woken. rewrite fv_alter. apply fv_const; [done|]. apply lookup_lt_is_Some. by rewrite length_alter.
  - apply woken_agree.
Qed.

(** Once two threads have waited, the mutex is never free again.  Of a
    mutex for one holder with two threads in its waiting list, any number of
    releases leaves it held: the list is not unlinked as threads are served,
    so a release finds a thread served before and counts it as a holder. *)
Theorem mutex_never_free w m x a b n :
  Mutexes w !! m = Some x -> LMutex m ∉ held w -> waiting_list (ThreadPool w) [a; b] x ->
  CurrentLockCount x = 1 -> MaximumLockCount x = 1 ->
  exists x' w', for_each (repeat tt n) (fun _ => mutex_release m) w = Ok tt w' /\
    Mutexes w' !! m = Some x' /\ CurrentLockCount x' = 1 /\ MaximumLockCount x' = 1.
Proof.
  intros Hx Hl (Hf & _ & _ & HR) Hc Hm.
  pose proof (ring_next _ _ [] a b [] HR) as [Hab%link_fv _].
  pose proof (ring_next_last _ _ a [b] b HR eq_refl) as [Hba%link_fv _].
  assert (a <> b) as Hne by (apply ring_nodup, NoDup_cons in HR as [HR _]; intros ->; set_solver).
  assert (FirstWaiting x = Some a \/ FirstWaiting x = Some b) as Hfirst by (by left).
  clear Hf HR. revert w x Hx Hl Hc Hm Hab Hba Hfirst.
  induction n as [|n IH]; intros w x Hx Hl Hc Hm Hab Hba Hfirst; [by exists x, w|].
  assert (exists t u, FirstWaiting x = Some t /\ fv NextThreadMutex (ThreadPool w) t = Some (Some u) /\ u <> t /\
    (u = a \/ u = b)) as (t & u & Hft & Hn & Hut & Hu).
  { destruct Hfirst as [E|E]; [exists a, b|exists b, a]; split_and!; auto. }
  pose proof (release_one w m x t (Some u) Hx Hl Hft Hn ltac:(lia) ltac:(lia) ltac:(right; lia)) as Hrun.
  cbn [repeat for_each]. mstep Hrun.
  apply (IH _ (served x t (Some u) <| CurrentLockCount := CurrentLockCount x |>)); try done.
  - apply (lookup_insert_eq (Mutexes w)).
  - rewrite <- Hab. by apply (agree_fv strip_wait); [|apply woken_agree].
  - rewrite <- Hba. by apply (agree_fv strip_wait); [|apply woken_agree].
  - cbn. rewrite decide_False by congruence. destruct Hu as [->| ->]; auto.
Qed.

Lemma release_fast {B} w m x (k : unit -> K B) :
  Mutexes w !! m = Some x -> LMutex m ∉ held w -> FirstWaiting x = None ->
  bind (mutex_release m) k w =
  k tt (w <| Mutexes ::= <[m := x <| CurrentLockCount ::= fun n => u32 (n - 1) |>]> |>).
Proof.
  intros Hx Hl Hf. set (x1 := x <| CurrentLockCount ::= fun n => u32 (n - 1) |>).
  assert (mutex_release m w = Ok tt (w <| Mutexes ::= <[m := x1]> |> <| ThreadPool := ThreadPool w |>)) as E.
  { apply (release_run w m x x1 _ Hx Hl). cbn [while].
    by mstep (release_step_stop w m x1 ({[LMutex m]} ∪ held w) (ThreadPool w) ltac:(by left)). }
  rewrite (bind_ok _ _ _ _ _ E). f_equal.
Qed.

(** An acquire below the maximum takes the mutex at once: it returns
    without sleeping, counts one holder more, at most the maximum, and changes
    nothing else; the release by a holder that follows, with nobody waiting,
    gives exactly the state before. *)
Theorem mutex_acquire_release call dpc_fuel w m x timeout :
  Mutexes w !! m = Some x -> LMutex m ∉ held w -> FirstWaiting x = None ->
  0 <= CurrentLockCount x < MaximumLockCount x -> MaximumLockCount x < 2 ^ 32 ->
  let x' := x <| CurrentLockCount := CurrentLockCount x + 1 |> in
  let w' := w <| Mutexes ::= <[m := x']> |> in
  mutex_acquire_begin call dpc_fuel m timeout w = Ok true w' /\
  CurrentLockCount x' <= MaximumLockCount x' /\
  mutex_release m w' = Ok tt w.
Proof.
  intros Hx Hl Hf Hc Hm x' w'. split; [by apply acquire_free_run|]. split; [unfold x'; cbn; lia|].
  pose proof (release_fast w' m x' ret (lookup_insert_eq (Mutexes w) m x') Hl Hf) as E.
  unfold bind in E. destruct (mutex_release m w') as [[] s| | |] eqn:E'; try done.
  unfold ret in E. injection E as ->. unfold w', x'. f_equal. destruct w; cbn in *. f_equal.
  rewrite insert_insert_eq. apply insert_id. rewrite Hx. f_equal. destruct x; cbn in *. f_equal.
  rewrite u32_small by lia. lia.
Qed.

(** ** Condition variables *)

Section conditions.
Variable call : Z -> Z -> Z -> Z -> K unit.
Variable dpc_fuel : nat.

Lemma acquire_fast {B} w m x (k : Z -> K B) :
  Mutexes w !! m = Some x -> LMutex m ∉ held w ->
  0 <= CurrentLockCount x < MaximumLockCount x -> MaximumLockCount x < 2 ^ 32 ->
  bind (mutex_acquire call dpc_fuel m LOCK_INFINITE) k w =
  k 1 (w <| Mutexes ::= <[m := x <| CurrentLockCount := CurrentLockCount x + 1 |>]> |>).
Proof.
  intros Hx Hl Hc Hm. unfold mutex_acquire. norm.
  by mstep (acquire_free_run call dpc_fuel w m x LOCK_INFINITE Hx Hl Hc Hm).
Qed.


Lemma cv_get_run {A B} (F : COND -> A) w c v (k : A -> K B) :
  Conds w !! c = Some v -> bind (cv_get c F) k w = k (F v) w.
Proof. intros H. unfold bind, cv_get. by rewrite H. Qed.
Lemma cv_upd_run {B} f w c v (k : unit -> K B) :
  Conds w !! c = Some v -> bind (cv_upd c f) k w = k tt (w <| Conds ::= <[c := f v]> |>).
Proof. intros H. unfold bind, cv_upd. by rewrite H. Qed.

(** The mutexes of a condition variable in the code's order of use. *)
Lemma acquire_of_run {B} w c v f l x (k : unit -> K B) :
  Conds w !! c = Some v -> f v = Some l -> Mutexes w !! l = Some x -> LMutex l ∉ held w ->
  0 <= CurrentLockCount x < MaximumLockCount x -> MaximumLockCount x < 2 ^ 32 ->
  bind (acquire_of call dpc_fuel c f) k w =
  k tt (w <| Mutexes ::= <[l := x <| CurrentLockCount := CurrentLockCount x + 1 |>]> |>).
Proof.
  intros Hv Hf Hx Hl Hc Hm. unfold acquire_of, cv_mutex. norm. rewrite (cv_get_run _ _ _ _ _ Hv), Hf.
  unfold of_option. rt. norm. rewrite (acquire_fast _ _ _ _ Hx Hl Hc Hm). by rt.
Qed.
Lemma release_of_run {B} w c v f l x (k : unit -> K B) :
  Conds w !! c = Some v -> f v = Some l -> Mutexes w !! l = Some x -> LMutex l ∉ held w ->
  FirstWaiting x = None ->
  bind (release_of c f) k w =
  k tt (w <| Mutexes ::= <[l := x <| CurrentLockCount ::= fun n => u32 (n - 1) |>]> |>).
Proof.
  intros Hv Hf Hx Hl Hn. unfold release_of, cv_mutex. norm. rewrite (cv_get_run _ _ _ _ _ Hv), Hf.
  unfold of_option. rt. norm. by rewrite (release_fast _ _ _ _ Hx Hl Hn).
Qed.

(** [cond_wait] does not wait.  On a condition nobody has signalled, with
    its internal mutexes free, a caller that holds [m] comes back at once,
    holding [m] as before: the semaphore it should sleep on is a mutex with
    room for 32768 holders, so the wait only counts one more. *)
Theorem cond_wait_returns w c v l s m xl xs xm :
  Conds w !! c = Some v -> cond_lock v = Some l -> wait_sem v = Some s -> signals v = 0 ->
  - 2 ^ 31 <= waiting v < 2 ^ 31 - 1 ->
  Mutexes w !! l = Some xl -> Mutexes w !! s = Some xs -> Mutexes w !! m = Some xm -> NoDup [l; s; m] ->
  LMutex l ∉ held w -> LMutex s ∉ held w -> LMutex m ∉ held w ->
  xl = mkMUTEX 0 1 None None -> xm = mkMUTEX 1 1 None None ->
  0 <= CurrentLockCount xs < MaximumLockCount xs -> MaximumLockCount xs < 2 ^ 32 ->
  cond_wait call dpc_fuel (Some c) (Some m) w =
    Ok tt (w <| Mutexes ::= <[s := xs <| CurrentLockCount := CurrentLockCount xs + 1 |>]> |>).
Proof.
  intros Hv Hlk Hws Hsig Hwt Hl Hs Hm Hnd Hhl Hhs Hhm -> -> Hc Hmax.
  assert (l <> s /\ l <> m /\ s <> m) as (Hls & Hlm & Hsm).
  { apply NoDup_cons in Hnd as [H1 H2]. apply NoDup_cons in H2 as [H2 _].
    split_and!; intros ->; set_solver. }
  set (v1 := v <| waiting ::= fun n => s32 (n + 1) |>).
  set (v2 := v1 <| waiting ::= fun n => s32 (n - 1) |>).
  assert (v2 = v) as Ev.
  { unfold v2, v1. destruct v; cbn in *. f_equal. unfold s32. rewrite (Z.mod_small (waiting + 1 + 2 ^ 31)) by lia. rewrite Z.mod_small; lia. }
  unfold cond_wait.
  rewrite (acquire_of_run _ _ _ _ _ _ _ Hv Hlk Hl Hhl) by (cbn; lia).
  rewrite (cv_upd_run _ _ c v) by done. fold v1.
  rewrite (release_of_run _ c v1 _ l (mkMUTEX 1 1 None None)) by (done || apply (lookup_insert_eq (M := gmap nat))).
  rewrite (release_fast _ m (mkMUTEX 1 1 None None)) by (done || (cbn; by simplify_map_eq)).
  rewrite (acquire_of_run _ c v1 _ s xs) by (done || (cbn; by simplify_map_eq)).
  rewrite (acquire_of_run _ c v1 _ l (mkMUTEX 0 1 None None)) by (done || (cbn; by simplify_map_eq) || (cbn; lia)).
  rewrite (cv_get_run _ _ c v1) by (cbn; by simplify_map_eq).
  change (signals v1) with (signals v). rewrite Hsig. change (0 <? 0) with false. cbn [when]. rt.
  rewrite (cv_upd_run _ _ c v1) by (cbn; by simplify_map_eq). fold v2.
  rewrite (release_of_run _ c v2 _ l (mkMUTEX 1 1 None None)) by (done || (cbn; by simplify_map_eq)).
  rewrite (acquire_fast _ m (mkMUTEX 0 1 None None)) by (done || (cbn; by simplify_map_eq) || (cbn; lia)).
  unfold ret. f_equal. rewrite Ev. clear Ev v2. clearbody v1. destruct w; cbn in *. f_equal.
  - apply map_eq. intros i. destruct (decide (i = l)), (decide (i = s)), (decide (i = m)); subst; by simplify_map_eq.
  - apply map_eq. intros i. destruct (decide (i = c)); subst; by simplify_map_eq.
Qed.
End conditions.
