(* ===== verification/Examples.v ===== *)
(** * The theorems on a concrete machine

    A small machine: one pool of five threads, processor 0 running thread 1,
    with thread 0 as its idle thread, thread 2 asleep until a time that has
    passed, thread 3 on its way from another processor, and thread 4 free.
    Every theorem of the thread library is applied to it (or to a variation of
    it), so none of them holds for want of a case. *)

From S2P Require Import Prelude ThreadDefs Ring ThreadFacts Sched SchedFacts SchedCorrect ThreadApi ThreadApiFacts Mutex MutexFacts.
From stdpp Require Import base gmap sets list.

Open Scope Z_scope.
Open Scope xenon_scope.

(** A thread in use, with its neighbours in the processor's list. *)
Definition demo_thread (i : nat) (nx pv : ptr) (prio sleep : Z) : THREAD :=
  THREAD_zero <| NextThread := nx |> <| PreviousThread := pv |>
    <| NextThreadFull := Some 0%nat |> <| PreviousThreadFull := Some 1%nat |>
    <| Valid := 1 |> <| Priority := prio |> <| MaxPriorityBoost := 5 |>
    <| HandleOpen := 1 |> <| ThreadId := Z.of_nat i |> <| SleepTime := sleep |>
    <| Context ::= fun c => c <| Iar := 0x1000 + Z.of_nat i |> |>.

Definition demo_pool : pool :=
  [demo_thread 0 (Some 1%nat) (Some 2%nat) 0 0; demo_thread 1 (Some 2%nat) (Some 0%nat) 7 0;
   demo_thread 2 (Some 0%nat) (Some 1%nat) 7 90; demo_thread 3 None None 9 0; THREAD_zero].

Definition demo_block : PROCESSOR :=
  PROCESSOR_zero 0 <| FirstThread := Some 0%nat |> <| LastThread := Some 2%nat |>
    <| FirstSwapProcess := Some 3%nat |> <| LastSwapProcess := Some 3%nat |>
    <| CurrentThread := Some 1%nat |> <| FPUVPUSave := Some 0%nat |>.

Definition demo_cpu : CPU := mkCPU 0x9032 (replicate 32 7) 1 500.

Definition demo : world :=
  mkWorld 0 [demo_cpu] [demo_block] demo_pool (Some 0%nat) (Some 2%nat) ∅ ∅ ∅ ∅
    {[ 0%nat := FPU_zero ]} ∅ ∅ 100000 100 100 50000 63 1 (replicate 12 0) [].

Definition demo_list : list nat := [0; 1; 2]%nat.
Definition demo_swap : list nat := [3]%nat.

Lemma demo_ring : thread_ring demo_pool demo_list.
Proof. split; [repeat constructor; set_solver|]. repeat split. Qed.

Lemma demo_wf : sched_wf demo demo_block demo_list demo_swap.
Proof.
  split; try reflexivity; [vm_compute; lia|apply demo_ring| | | |set_solver].
  - split; [|repeat constructor; vm_compute; lia].
    split; [repeat constructor; set_solver|]. split; [done|].
    split; intros x Hx; vm_compute in Hx; simplify_eq; reflexivity.
  - intros i Hi. unfold demo_swap, demo_list in *. set_solver.
  - intros x Hx. exists 0%nat, 1%nat. unfold demo_list in Hx.
    assert (x = 0 \/ x = 1 \/ x = 2)%nat as [-> | [-> | ->]] by set_solver;
      (split_and!; [reflexivity|reflexivity|vm_compute; lia|vm_compute; lia]).
Qed.

Lemma demo_idle : 0%nat ∈ demo_list.
Proof. unfold demo_list. set_solver. Qed.

Lemma demo_quiet : dpc_quiet demo demo_block.
Proof. right. split_and!; [reflexivity|reflexivity|set_solver]. Qed.

Lemma demo_can_lock : can_lock demo 0.
Proof. split; [exists demo_block; split; [reflexivity|vm_compute; split; congruence]|by exists demo_cpu|set_solver..]. Qed.

Lemma demo_create_wf : create_wf demo demo_block demo_list.
Proof.
  split; try reflexivity; [vm_compute; split; congruence|by exists demo_cpu|set_solver|set_solver|apply demo_ring| | |].
  - intros x t Hx Ht. unfold demo_list in Hx.
    assert (x = 0 \/ x = 1 \/ x = 2)%nat as [-> | [-> | ->]] by set_solver; by vm_compute in Ht; simplify_eq.
  - exists 0%nat. split; [reflexivity|vm_compute; lia].
  - exists 2%nat. split; [reflexivity|vm_compute; lia].
Qed.

(** The scheduler elects thread 3, which has just arrived with priority 9. *)
Lemma thread_schedule_core_elects_demo :
  exists win w', thread_schedule_core demo = Ok (Some win) w' /\
    list_of w' (next_list demo demo_list demo_swap) /\ win ∈ candidates demo demo_list demo_swap.
Proof.
  destruct (thread_schedule_core_elects demo demo_block demo_list demo_swap 0) as (win & w' & H1 & H2 & H3 & _);
    [exact demo_wf|exact demo_idle|reflexivity|].
  exists win, w'. split; [exact H1|]. split; [exact H2|exact H3].
Defined.

Definition result {A} (d : world) (o : outcome world A) : world := match o with Ok _ w => w | _ => d end.
Definition demo_scheduled : world := result demo (thread_schedule_core demo).

Lemma thread_schedule_core_boosts_demo :
  exists t, next_pool demo demo_list demo_swap !! 1%nat = Some t /\
    fv PriorityBoost (ThreadPool demo_scheduled) 1 = Some 1 /\
    forall t', ThreadPool demo_scheduled !! 1%nat = Some t' ->
      strip_all t' = strip_all (boost t).
Proof.
  destruct (next_pool demo demo_list demo_swap !! 1%nat) as [t|] eqn:E; [|by vm_compute in E].
  exists t. split; [done|]. split; [vm_compute; reflexivity|]. intros t' Ht'.
  destruct (thread_schedule_core_boosts demo demo_block demo_list demo_swap 0 3 demo_scheduled) with 1%nat t'
    as (t1 & Ht1 & ->); [exact demo_wf|exact demo_idle|reflexivity|vm_compute; reflexivity|exact Ht'|].
  rewrite E in Ht1. injection Ht1 as <-. rewrite decide_True; [reflexivity|]. split; [|lia].
  assert (candidates demo demo_list demo_swap = [2; 1; 0; 3]%nat) as -> by (vm_compute; reflexivity).
  clear. set_solver.
Defined.

Definition no_call (_ _ _ _ : Z) : K unit := ret tt.

Lemma system_call_switches_demo :
  exists win w', system_call_handler no_call 1 demo = Ok tt w' /\ win ∈ candidates demo demo_list demo_swap.
Proof.
  destruct (system_call_switches no_call 1 demo demo_block demo_list demo_swap 0 1 demo_cpu)
    as (win & w' & ctx & H1 & H2 & _);
    [exact demo_wf|exact demo_idle|reflexivity|reflexivity|vm_compute; lia
    |unfold demo_swap; set_solver|reflexivity|set_solver|exact demo_quiet|].
  exists win, w'. split; [exact H1|exact H2].
Defined.

(** The processor above dispatch level. *)
Definition demo_masked : world := demo <| Processors := [demo_block <| Irq := 8 |>] |>.

Lemma decrementer_masked_demo :
  exists w', decrementer_interrupt_handler no_call 1 demo_masked = Ok tt w' /\
    Processors w' = Processors demo_masked.
Proof.
  destruct (decrementer_masked no_call 1 demo_masked (demo_block <| Irq := 8 |>) demo_cpu 1)
    as (w' & H1 & _ & H2 & _); [reflexivity|reflexivity|reflexivity|vm_compute; lia|vm_compute; reflexivity|].
  by exists w'.
Defined.

Lemma suspend_history_refines_demo :
  exists P', suspend_history 1 [true; true; false; false; false] demo = Ok [0; 1; 2; 1; -1] (with_pool demo P').
Proof.
  destruct (suspend_history_refines demo 0 1 [true; true; false; false; false] 0) as (P' & H & _);
    [exact demo_can_lock|reflexivity|reflexivity|lia|]. by exists P'.
Defined.

Lemma round_stack_bounds_demo : 17000 <= round_stack 17000 /\ round_stack 17000 <= 17000 + 4095.
Proof. destruct (round_stack_bounds 17000) as (H1 & _ & _ & H2 & _); [lia|]. split; [done|exact H2]. Defined.

Definition pick_demo (h : gset Z) (n : Z) : option Z :=
  if n <? 0x100000 then Some (0x80000000 + Z.of_nat (size h) * 0x100000) else None.

Lemma thread_create_spec_demo :
  exists w', thread_create pick_demo 100 0x2000 17000 5 1 demo = Ok (Some 4%nat) w' /\
    thread_ring (ThreadPool w') [4; 0; 1; 2]%nat.
Proof.
  destruct (thread_create_spec pick_demo 100 demo demo_block demo_list demo_create_wf 0x2000 17000 5 1 0x80000000 4)
    as (w' & H1 & _ & _ & _ & H2 & _); [done|reflexivity|done|reflexivity|]. by exists w'.
Defined.

Lemma thread_create_fails_demo :
  thread_create pick_demo 100 0x2000 0x200000 5 1 demo = Ok None demo.
Proof.
  destruct (thread_create_fails pick_demo 100 demo demo_block demo_list demo_create_wf 0x2000 0x200000 5 1) as [H _].
  apply H. reflexivity.
Defined.

(** ** Mutexes and condition variables *)

(** The demonstration machine with mutex 0; threads 2 and 3 may wait for it. *)
Definition linked (nx pv : ptr) (t : THREAD) : THREAD :=
  t <| NextThreadMutex := nx |> <| PreviousThreadMutex := pv |> <| WaitingForMutex := 1 |>.
Definition demo_mutex (x : MUTEX) : world := demo <| Mutexes := {[ 0%nat := x ]} |>.
(** Thread 2 waits alone; threads 2 and 3 wait. *)
Definition demo_one : world :=
  demo_mutex (mkMUTEX 1 1 (Some 2%nat) (Some 2%nat)) <| ThreadPool ::= alter (linked None None) 2%nat |>.
Definition demo_two : world :=
  demo_mutex (mkMUTEX 1 1 (Some 2%nat) (Some 3%nat))
    <| ThreadPool ::= alter (linked (Some 3%nat) (Some 3%nat)) 2%nat |>
    <| ThreadPool ::= alter (linked (Some 2%nat) (Some 2%nat)) 3%nat |>.

Lemma demo_one_waiting : waiting_list (ThreadPool demo_one) [2%nat] (mkMUTEX 1 1 (Some 2%nat) (Some 2%nat)).
Proof. split_and!; [done|done|repeat constructor; vm_compute; lia|]. left. split; vm_compute; reflexivity. Qed.

Lemma demo_two_waiting : waiting_list (ThreadPool demo_two) [2; 3]%nat (mkMUTEX 1 1 (Some 2%nat) (Some 3%nat)).
Proof.
  split_and!; [done|done|repeat constructor; vm_compute; lia|].
  split; [repeat constructor; set_solver|]. repeat split.
Qed.

Lemma mutex_release_ends_demo : exists w', mutex_release 0 demo_one = Ok tt w'.
Proof.
  destruct (mutex_release_ends demo_one 0 (mkMUTEX 1 1 (Some 2%nat) (Some 2%nat))) as (x' & P' & H & _);
    [reflexivity|set_solver| |cbn; lia|cbn; lia|by eexists].
  split.
  - intros j Hj. vm_compute in Hj. simplify_eq. vm_compute. lia.
  - intros i j Hij. exfalso. do 5 (destruct i as [|i]; [by vm_compute in Hij|]). by vm_compute in Hij.
Defined.

Lemma mutex_release_hands_over_demo :
  exists x' P', mutex_release 0 demo_one = Ok tt (demo_one <| Mutexes ::= <[0%nat := x']> |> <| ThreadPool := P' |>) /\
    fv WaitingForMutex P' 2 = Some 0.
Proof.
  destruct (mutex_release_hands_over demo_one 0 (mkMUTEX 1 1 (Some 2%nat) (Some 2%nat)) 2) as (x' & P' & H & _ & _ & H' & _);
    [reflexivity|set_solver|exact demo_one_waiting|cbn; lia|cbn; lia|]. by exists x', P'.
Defined.

Lemma mutex_never_free_demo :
  exists x' w', for_each (repeat tt 3) (fun _ => mutex_release 0) demo_two = Ok tt w' /\
    Mutexes w' !! 0%nat = Some x' /\ CurrentLockCount x' = 1.
Proof.
  destruct (mutex_never_free demo_two 0 (mkMUTEX 1 1 (Some 2%nat) (Some 3%nat)) 2 3 3) as (x' & w' & H1 & H2 & H3 & _);
    [reflexivity|set_solver|exact demo_two_waiting|done|done|]. by exists x', w'.
Defined.

Lemma mutex_acquire_release_demo :
  mutex_acquire_begin no_call 1 0 7 (demo_mutex (mkMUTEX 0 1 None None)) = Ok true (demo_mutex (mkMUTEX 1 1 None None)).
Proof.
  destruct (mutex_acquire_release no_call 1 (demo_mutex (mkMUTEX 0 1 None None)) 0 (mkMUTEX 0 1 None None) 7) as (H & _);
    [reflexivity|set_solver|done|cbn; lia|cbn; lia|]. exact H.
Defined.

Lemma demo_mutex_can_lock x P : can_lock (demo_mutex x <| ThreadPool := P |>) 0.
Proof. split; [exists demo_block; split; [reflexivity|vm_compute; split; congruence]|by exists demo_cpu|set_solver..]. Qed.

Lemma mutex_acquire_waits_demo :
  exists x' P', let w' := demo_one <| Processors ::= alter (set Irq (fun _ => 2)) 0%nat |>
                  <| Mutexes ::= <[0%nat := x']> |> <| ThreadPool := P' |> in
    mutex_acquire_begin no_call 1 0 50 demo_one = (ThreadApi.sc no_call 1 ;; ret false) w' /\
    waiting_list P' [2; 1]%nat x'.
Proof.
  destruct (mutex_acquire_waits no_call 1 demo_one 0 (mkMUTEX 1 1 (Some 2%nat) (Some 2%nat)) demo_block 1) with 50 [2%nat]
    as (x' & P' & H1 & H2 & _);
    [reflexivity|set_solver|reflexivity|exact (demo_mutex_can_lock _ _)|reflexivity|cbn; lia|exact demo_one_waiting
    |vm_compute; lia|set_solver|]. exists x', P'. split; [exact H1|exact H2].
Defined.

(** Thread 1, which runs, finds its mark cleared. *)
Lemma mutex_acquire_returns_demo :
  mutex_acquire_end 0 (demo_mutex (mkMUTEX 1 1 None None)) = Ok 1 (demo_mutex (mkMUTEX 1 1 None None)).
Proof.
  destruct (mutex_acquire_returns no_call (demo_mutex (mkMUTEX 1 1 None None)) 0 (mkMUTEX 1 1 None None) demo_block 1) with (@nil nat) (@nil nat)
    as [H _]; [reflexivity|set_solver|reflexivity|exact (demo_mutex_can_lock _ _)|reflexivity|vm_compute; lia|].
  apply H. by vm_compute.
Defined.

Definition demo_cond : world :=
  demo <| Conds := {[ 0%nat := mkCOND (Some 0%nat) 0 0 (Some 1%nat) (Some 2%nat) ]} |>
       <| Mutexes := {[ 0%nat := mkMUTEX 0 1 None None; 1%nat := mkMUTEX 0 32768 None None; 3%nat := mkMUTEX 1 1 None None ]} |>.

Lemma cond_wait_returns_demo : exists w', cond_wait no_call 1 (Some 0%nat) (Some 3%nat) demo_cond = Ok tt w'.
Proof.
  eexists. apply (cond_wait_returns no_call 1 demo_cond 0 (mkCOND (Some 0%nat) 0 0 (Some 1%nat) (Some 2%nat)) 0 1 3
    (mkMUTEX 0 1 None None) (mkMUTEX 0 32768 None None) (mkMUTEX 1 1 None None));
    try reflexivity; try (cbn; lia); try set_solver. repeat constructor; set_solver.
Defined.
