(* ===== verification/Ipi.v ===== *)
(** * Threads: code that runs on several processors

    What is left of [drivers/threads/c_threads.c]: the code every thread and
    every idle processor runs, the procedures of inter-processor calls, setting
    the quantum everywhere and shutting the threads down; and the execution of
    an inter-processor call, in which the sender and the five other processors
    take steps in any order. *)
From S2P Require Import Prelude ThreadDefs ThreadFacts Sched ThreadApi.

(** ** Code on another processor *)

Definition on_cpu {A} (i : nat) (m : K A) : K A := fun w =>
  match m (w <| cpu := i |>) with
  | Ok a w' => Ok a (w' <| cpu := cpu w |>)
  | Fault => Fault
  | Blocked => Blocked
  | Diverge => Diverge
  end.

(** ** The code of threads *)

Section bodies.
Variable call : Z -> Z -> Z -> Z -> K unit.
Variable dpc_fuel : nat.

(** [run entrypoint argument] is the thread's own code, [entrypoint(argument)]. *)
Definition thread_proc_startup (run : Z -> Z -> K Z) (entrypoint argument : Z) : K unit :=
  r <- run entrypoint argument ;;
  thread_terminate call dpc_fuel r.

(** [thread_idle_loop]: its start, and [n] rounds of its endless loop. *)
Definition thread_idle_enter : K unit :=
  online <- gets threads_online ;;
  if online =? 6 then
    ticks <- gets decrementer_ticks ;;
    cpu_upd (set dec (fun _ => ticks)) ;;
    cpu_upd (set msr (fun m => Z.lor m 0x8000))
  else blocked.

Definition thread_idle_loop (n : nat) : K unit :=
  thread_idle_enter ;;
  for_each (seq 0 n) (fun _ => sc call dpc_fuel).
End bodies.

(** ** Procedures of inter-processor calls *)

Definition quantum_length_ipi_routine (context : Z) : K Z :=
  cpu_upd (set dec (fun _ => context)) ;;
  ret 0.

(** A word of [wait]. *)
Definition wait_set (i : nat) (v : Z) : K unit := fun w =>
  match wait_ w !! i with
  | Some _ => Ok tt (w <| wait_ ::= <[i := v]> |>)
  | None => Fault
  end.
Definition wait_get (i : nat) : K Z := fun w =>
  match wait_ w !! i with Some v => Ok v w | None => Fault end.

(** [thread_idle_ipi] up to its endless loop, the number of the processor from
    the special register [pir]. *)
Definition thread_idle_ipi_enter : K unit :=
  thread_disable_interrupts ;;
  pir <- gets cpu ;;
  wait_set (pir * 2) 0 ;;
  wait_set (pir * 2 + 1) 0.

(** A round of the loop: nothing while the word is zero, otherwise the stack
    and the code to branch to. *)
Definition thread_idle_ipi_poll : K (option (Z * Z)) :=
  pir <- gets cpu ;;
  f <- wait_get (pir * 2) ;;
  if f =? 0 then ret None else
  stack <- wait_get (pir * 2 + 1) ;;
  ret (Some (stack, f)).

(** The DPC of requests of the management controller, whose procedure
    [hal_dpc_for_smc_request] is empty. *)
Definition hal_dpc_for_smc_request (_ _ _ : Z) : K unit := ret tt.
Definition hal_smc_request_dpc (procedure : Z) : DPC := mkDPC procedure 0 0 0 DPC_PRIORITY_HIGH None 0.

Section quantum.
(** The addresses of the two procedures. *)
Variable quantum_addr idle_addr : Z.

Definition quantum_call (f context : Z) : K Z :=
  if f =? quantum_addr then quantum_length_ipi_routine context else fault.

(** [process_set_quantum_length] up to the first pause of [thread_send_ipi]. *)
Definition process_set_quantum_length (milliseconds : Z) (count : nat) : K Z :=
  modify (fun w => w <| decrementer_ticks := u32 (milliseconds * 2500) |>) ;;
  thread_send_ipi_packet quantum_addr (u32 (milliseconds * 2500)) count.

(** An interrupt whose procedure is [thread_idle_ipi] does not come back from
    it: [external_interrupt_handler] and [thread_interrupt_ipi] up to the loop
    in there. *)
Definition park_ipi (load : Z -> Z) : K unit :=
  processor <- thread_get_processor_block ;;
  id <- pr_get processor CurrentProcessor ;;
  let soc_interrupt := 0x20050000 + id * 0x1000 in
  let interruptSource := load (soc_interrupt + 0x50) in
  table <- pr_get processor InterruptTable ;;
  h <- of_option (table !! Z.to_nat (interruptSource / 4)) ;;
  if decide (h = thread_interrupt_ipi) then
    store (soc_interrupt + 8) interruptSource ;;
    pr_upd processor (set Irq (fun _ => u8 interruptSource)) ;;
    lock (LIpi processor) ;;
    proc <- pr_get processor IpiProc ;;
    if decide (proc = Some idle_addr) then thread_idle_ipi_enter else fault
  else fault.

(** [threading_shutdown] up to its wait; false when it returns at once. *)
Definition threading_shutdown_start (count : nat) : K bool :=
  chk <- gets threading_init_check ;;
  p <- thread_get_processor_block ;;
  id <- pr_get p CurrentProcessor ;;
  if (chk =? 0) || nz id then ret false else
  thread_raise_irql 0x7C ;;
  thread_disable_interrupts ;;
  lock LIpiGlobal ;;
  modify (fun w => w <| Counters ::= <[count := 0]> |>) ;;
  ipi_send_packet idle_addr 0 (Z.ldiff 0x3F (Z.shiftl 1 id)) count ;;
  ret true.

(** The wait for the words of the five others, in their order. *)
Definition threading_shutdown_finish : K unit :=
  for_each [2; 4; 6; 8; 10]%nat (fun i =>
    v <- wait_get i ;;
    if v =? 0 then ret tt else blocked) ;;
  modify (fun w => w <| threading_init_check := 0 |>).
End quantum.

(** ** An inter-processor call in execution *)

Inductive ipi_phase :=
  | Ready
  | Sent (irql : Z)               (* the others are asked *)
  | Called (irql rval : Z)        (* this processor has made the call *)
  | Done (rval : Z).              (* [thread_send_ipi] has returned *)

(** [pending]: the processors whose interrupt is requested and not taken yet. *)
Record ipi_state := mkIpi { phase : ipi_phase; pending : gset nat; state : world }.

Definition others (p : nat) : gset nat := list_to_set (seq 0 6) ∖ {[ p ]}.

Section execution.
Variable load : Z -> Z.
Variable ipi_call : Z -> Z -> K Z.
Variable entrypoint context : Z.
Variable count : nat.

Inductive ipi_step : ipi_state -> ipi_state -> Prop :=
  | ipi_sends w irql w' :
      thread_send_ipi_packet entrypoint context count w = Ok irql w' ->
      ipi_step (mkIpi Ready ∅ w) (mkIpi (Sent irql) (others (cpu w)) w')
  | ipi_calls irql U w r w' :
      thread_send_ipi_call ipi_call entrypoint context w = Ok r w' ->
      ipi_step (mkIpi (Sent irql) U w) (mkIpi (Called irql r) U w')
  | ipi_serves ph U w i w' :
      i ∈ U -> on_cpu i (external_interrupt_handler load ipi_call) w = Ok tt w' ->
      ipi_step (mkIpi ph U w) (mkIpi ph (U ∖ {[ i ]}) w')
  | ipi_finishes irql r U w w' :
      thread_send_ipi_finish irql count w = Ok tt w' ->
      ipi_step (mkIpi (Called irql r) U w) (mkIpi (Done r) U w').

(** The same as a function of the order in which the processors run. *)
Inductive ipi_event := ESend | ECall | EServe (i : nat) | EFinish.

Definition ipi_do (e : ipi_event) (s : ipi_state) : option ipi_state :=
  match e, phase s with
  | ESend, Ready =>
      match thread_send_ipi_packet entrypoint context count (state s) with
      | Ok irql w' => if decide (pending s = ∅) then Some (mkIpi (Sent irql) (others (cpu (state s))) w') else None
      | _ => None
      end
  | ECall, Sent irql =>
      match thread_send_ipi_call ipi_call entrypoint context (state s) with
      | Ok r w' => Some (mkIpi (Called irql r) (pending s) w')
      | _ => None
      end
  | EServe i, ph =>
      match on_cpu i (external_interrupt_handler load ipi_call) (state s) with
      | Ok _ w' => if decide (i ∈ pending s) then Some (mkIpi ph (pending s ∖ {[ i ]}) w') else None
      | _ => None
      end
  | EFinish, Called irql r =>
      match thread_send_ipi_finish irql count (state s) with
      | Ok _ w' => Some (mkIpi (Done r) (pending s) w')
      | _ => None
      end
  | _, _ => None
  end.

Fixpoint ipi_exec (es : list ipi_event) (s : ipi_state) : option ipi_state :=
  match es with
  | [] => Some s
  | e :: es' => s' ← ipi_do e s; ipi_exec es' s'
  end.
End execution.
