(* ===== verification/IpiFacts.v ===== *)
(** * Threads: inter-processor calls, shutdown and restart

    The rendezvous of an inter-processor call in every order the processors
    can run in; what a shutdown leaves behind. *)
From stdpp Require Import relations.
From S2P Require Import Prelude ThreadDefs Ring ThreadFacts Sched SchedFacts SchedCorrect ThreadApi ThreadApiFacts Ipi.
Open Scope Z_scope.
Open Scope xenon_scope.

(** ** Lists updated pointwise *)

Section imap_alter.
Context {A : Type}.
Implicit Types (F G : nat -> A -> A) (l : list A).

Lemma imap_ext_at F G l : (forall i x, l !! i = Some x -> F i x = G i x) -> imap F l = imap G l.
Proof.
  intros H. apply list_eq. intros i. rewrite !list_lookup_imap.
  destruct (l !! i) eqn:E; [|done]. cbn. f_equal. auto.
Qed.

Lemma alter_imap f i F G l :
  (forall x, l !! i = Some x -> f (F i x) = G i x) ->
  (forall j x, l !! j = Some x -> j <> i -> F j x = G j x) -> alter f i (imap F l) = imap G l.
Proof.
  intros Hi Hj. apply list_eq. intros j. rewrite list_lookup_alter, !list_lookup_imap.
  case_decide as E; [subst|]; destruct (l !! j) as [x|] eqn:El; cbn; [f_equal; auto|done| |done].
  f_equal. apply Hj; congruence.
Qed.

Lemma imap_id_at F l : (forall i x, l !! i = Some x -> F i x = x) -> imap F l = l.
Proof.
  intros H. apply list_eq. intros i. rewrite list_lookup_imap.
  destruct (l !! i) eqn:E; [|done]. cbn. f_equal. auto.
Qed.
End imap_alter.

Lemma relock (l : lockid) (h : gset lockid) : l ∉ h -> ({[ l ]} ∪ h) ∖ {[ l ]} = h.
Proof. set_solver. Qed.

(** ** The machine an inter-processor call runs on *)

Definition soc (i : nat) : Z := 0x20050000 + Z.of_nat i * 0x1000.

(** The state the start-up leaves: six processors, their handler installed,
    below the level of inter-processor calls, the locks of the calls free. *)
Record ipi_wf (w : world) : Prop := {
  iw_procs : length (Processors w) = 6%nat;
  iw_cpus : length (Cpus w) = 6%nat;
  iw_cpu : (cpu w < 6)%nat;
  iw_id i b : Processors w !! i = Some b -> CurrentProcessor b = Z.of_nat i;
  iw_irq i b : Processors w !! i = Some b -> 0 <= Irq b < 0x78;
  iw_table i b : Processors w !! i = Some b -> InterruptTable b !! 0x1E%nat = Some thread_interrupt_ipi;
  iw_global : LIpiGlobal ∉ held w;
  iw_locks i : LIpi i ∉ held w
}.

(** The interrupt controller names the interrupt asked for. *)
Class IpiSource (load : Z -> Z) : Prop :=
  ipi_source i : (i < 6)%nat -> load (soc i + 0x50) = 0x78.

(** A procedure that works on the registers of the processor it runs on. *)
Class IpiLocal (ipi_call : Z -> Z -> K Z) (entrypoint context : Z) (g : CPU -> CPU) (v : Z) : Prop :=
  ipi_local w : is_Some (Cpus w !! cpu w) ->
    ipi_call entrypoint context w = Ok v (w <| Cpus ::= alter g (cpu w) |>).

Lemma others_elem p i : i ∈ others p <-> (i < 6)%nat /\ i <> p.
Proof. unfold others. rewrite elem_of_difference, elem_of_list_to_set, elem_of_seq, elem_of_singleton. lia. Qed.

Lemma others_size p : (p < 6)%nat -> size (others p) = 5%nat.
Proof. intros H. do 6 (destruct p as [|p]; [reflexivity|]). lia. Qed.

Lemma packet_mask p i : (p < 6)%nat -> (i < 6)%nat ->
  (Z.land (Z.ldiff 0x3F (Z.shiftl 1 (Z.of_nat p))) (Z.shiftl 1 (Z.of_nat i)) =? 0) = bool_decide (i = p).
Proof.
  intros Hp Hi. do 6 (destruct p as [|p]; [do 6 (destruct i as [|i]; [reflexivity|]); lia|]). lia.
Qed.

(** ** The requests *)

Section packet.
Context (entrypoint context : Z) (count : nat) (w : world) (Hw : ipi_wf w).
Local Abbreviation p := (cpu w).

(** A request to a processor, served once it is not pending. *)
Definition asked (served : bool) (b : PROCESSOR) : PROCESSOR :=
  b <| IpiProc := if served then None else Some entrypoint |>
    <| IpiContext := context |> <| IpiIncrement := Some count |>.

Definition packet_body (i : nat) : K unit :=
  if Z.land (Z.ldiff 0x3F (Z.shiftl 1 (Z.of_nat p))) (Z.shiftl 1 (Z.of_nat i)) =? 0 then ret tt else
  lock (LIpi i) ;;
  pr_upd i (set IpiProc (fun _ => Some entrypoint)) ;;
  pr_upd i (set IpiContext (fun _ => context)) ;;
  pr_upd i (set IpiIncrement (fun _ => Some count)) ;;
  unlock (LIpi i).

Lemma packet_body_run s i :
  length (Processors s) = 6%nat -> (i < 6)%nat -> LIpi i ∉ held s ->
  packet_body i s = Ok tt (if decide (i = p) then s else s <| Processors ::= alter (asked false) i |>).
Proof.
  intros Hl Hi Hh. unfold packet_body. rewrite packet_mask by (done || apply Hw).
  case_bool_decide; case_decide; try done.
  assert (forall B : list PROCESSOR, length B = 6%nat -> is_Some (B !! i)) as Hs by (intros ??; apply lookup_lt_is_Some; lia).
  rewrite lock_run by done.
  rewrite !pr_upd_run by (cbn; apply Hs; rewrite ?length_alter; done).
  unfold unlock, modify. f_equal. destruct s; cbn in *. f_equal; [|by apply relock].
  by rewrite !list_alter_twice.
Qed.

Lemma packet_loop l : forall s,
  NoDup l -> length (Processors s) = 6%nat -> (forall i, i ∈ l -> (i < 6)%nat) -> (forall i, LIpi i ∉ held s) ->
  for_each l packet_body s =
    Ok tt (s <| Processors ::= imap (fun i b => if decide (i ∈ l /\ i <> p) then asked false b else b) |>).
Proof.
  induction l as [|i l IH]; intros s Hnd Hl Hi Hh; cbn [for_each].
  - unfold ret. f_equal. destruct s; cbn. f_equal. symmetry. apply imap_id_at. intros j x _.
    rewrite decide_False by set_solver. done.
  - apply NoDup_cons in Hnd as [Hni Hnd]. rewrite (bind_ok _ _ _ _ _ (packet_body_run s i Hl (Hi i ltac:(set_solver)) (Hh i))).
    case_decide as Ep.
    + rewrite IH by (done || set_solver). f_equal. destruct s; cbn. f_equal. apply imap_ext_at.
      intros j x _. repeat case_decide; try done; set_solver.
    + rewrite IH; [|done|by cbn; rewrite length_alter|set_solver|done].
      f_equal. destruct s; cbn. f_equal. apply list_eq. intros j.
      rewrite !list_lookup_imap, list_lookup_alter. destruct (decide (i = j)) as [<-|Ej].
      * destruct (Processors !! i); [|done]. cbn. rewrite decide_False, decide_True by set_solver. done.
      * destruct (Processors !! j); [|done]. cbn. do 2 case_decide; try done; set_solver.
Qed.

(** The blocks of the processors after all requests. *)
Definition packet_blocks (B : list PROCESSOR) : list PROCESSOR :=
  imap (fun i b => if decide (i ∈ seq 0 6 /\ i <> p) then asked false b else b) B.

Lemma packet_blocks_self B : packet_blocks B !! p = B !! p.
Proof.
  unfold packet_blocks. rewrite list_lookup_imap. destruct (B !! p); [|done]. cbn -[decide seq].
  by rewrite decide_False by naive_solver.
Qed.

Lemma packet_blocks_other B i : (i < 6)%nat -> i <> p -> packet_blocks B !! i = asked false <$> B !! i.
Proof.
  intros Hi Hp. unfold packet_blocks. rewrite list_lookup_imap. destruct (B !! i); [|done]. cbn -[decide seq].
  rewrite decide_True; [done|]. split; [apply elem_of_seq; lia|done].
Qed.

Lemma packet_run {B} s (k : unit -> K B) : length (Processors s) = 6%nat -> (forall i, LIpi i ∉ held s) ->
  bind (for_each (seq 0 6) packet_body) k s = k tt (s <| Processors ::= packet_blocks |>).
Proof.
  intros Hl Hh. apply (bind_ok _ _ _ tt), packet_loop; [apply NoDup_seq|done| |done].
  intros i Hi%elem_of_seq. lia.
Qed.
End packet.

(** The fields of the world an inter-processor call works on. *)
Definition ipi_world (w : world) (B : list PROCESSOR) (C : list CPU) (N : gmap nat Z) (h : gset lockid) (log : list (Z * Z)) : world :=
  w <| Processors := B |> <| Cpus := C |> <| Counters := N |> <| held := h |> <| mmio := log |>.

Section rendezvous.
Context (load : Z -> Z) (ipi_call : Z -> Z -> K Z) (entrypoint context : Z) (count : nat).
Context (g : CPU -> CPU) (v : Z).
Context {HL : IpiSource load} {HC : IpiLocal ipi_call entrypoint context g v}.
Context (w : world) (Hw : ipi_wf w).

Local Abbreviation p := (cpu w).
Local Abbreviation asked := (asked entrypoint context count).
Local Abbreviation packet_blocks := (packet_blocks entrypoint context count w).

(** *** The world of each phase *)

Definition own_level (ph : ipi_phase) (irq : Z) : Z :=
  match ph with
  | Ready | Done _ => irq
  | Sent _ => if irq <? 2 then 2 else irq
  | Called _ _ => 0x78
  end.

Definition block_at (ph : ipi_phase) (U : gset nat) (i : nat) (b : PROCESSOR) : PROCESSOR :=
  if decide (i = p) then b <| Irq := own_level ph (Irq b) |>
  else match ph with Ready => b | _ => asked (negb (bool_decide (i ∈ U))) b end.

(** Whether processor [i] has made the call. *)
Definition has_called (ph : ipi_phase) (U : gset nat) (i : nat) : bool :=
  if decide (i = p) then match ph with Called _ _ | Done _ => true | _ => false end
  else match ph with Ready => false | _ => negb (bool_decide (i ∈ U)) end.

Definition regs_at (ph : ipi_phase) (U : gset nat) (i : nat) (c : CPU) : CPU :=
  if has_called ph U i then g c else c.

Definition counters_at (ph : ipi_phase) (U : gset nat) : gmap nat Z :=
  match ph with Ready => Counters w | _ => <[count := 5 - Z.of_nat (size U)]> (Counters w) end.

Definition held_at (ph : ipi_phase) : gset lockid :=
  match ph with Sent _ | Called _ _ => {[ LIpiGlobal ]} ∪ held w | _ => held w end.

Definition world_at (ph : ipi_phase) (U : gset nat) (log : list (Z * Z)) : world :=
  ipi_world w (imap (block_at ph U) (Processors w)) (imap (regs_at ph U) (Cpus w)) (counters_at ph U) (held_at ph) log.

Lemma world_at_proc ph U log i b :
  Processors w !! i = Some b -> Processors (world_at ph U log) !! i = Some (block_at ph U i b).
Proof. intros H. unfold world_at, ipi_world. cbn. by rewrite list_lookup_imap, H. Qed.

Lemma proc_exists i : (i < 6)%nat -> exists b, Processors w !! i = Some b.
Proof. intros H. apply lookup_lt_is_Some. by rewrite (iw_procs _ Hw). Qed.
Lemma cpu_exists i : (i < 6)%nat -> exists c, Cpus w !! i = Some c.
Proof. intros H. apply lookup_lt_is_Some. by rewrite (iw_cpus _ Hw). Qed.

(** *** Sending *)

Lemma sent_world irql log :
  world_at (Sent irql) (others p) log =
  w <| Counters ::= <[count := 0]> |>
    <| Processors ::= alter (fun b => b <| Irq := own_level (Sent irql) (Irq b) |>) p |>
    <| held ::= fun h => {[ LIpiGlobal ]} ∪ h |>
    <| Processors ::= packet_blocks |>
    <| mmio := log |>.
Proof.
  unfold world_at. pose proof (iw_procs _ Hw) as Hl.
  assert (imap (regs_at (Sent irql) (others p)) (Cpus w) = Cpus w) as Hc.
  { apply imap_id_at. intros i c Hi. unfold regs_at, has_called. case_decide; [done|].
    rewrite bool_decide_eq_true_2; [done|]. apply others_elem. apply lookup_lt_Some in Hi.
    rewrite (iw_cpus _ Hw) in Hi. done. }
  assert (imap (block_at (Sent irql) (others p)) (Processors w) =
    packet_blocks
      (alter (fun b => b <| Irq := own_level (Sent irql) (Irq b) |>) p (Processors w))) as Hp.
  { apply list_eq. intros i. destruct (decide (i < 6)%nat) as [Hi|Hi].
    2:{ rewrite !lookup_ge_None_2; [done|unfold IpiFacts.packet_blocks; rewrite length_imap, length_alter; lia|rewrite length_imap; lia]. }
    rewrite list_lookup_imap. unfold block_at. destruct (decide (i = p)) as [->|Hne].
    - rewrite packet_blocks_self, list_lookup_alter, decide_True by done. done.
    - rewrite packet_blocks_other, lookup_alter_ne_list by done. cbn.
      rewrite bool_decide_eq_true_2; [done|]. by apply others_elem. }
  rewrite Hc, Hp. unfold counters_at. rewrite others_size by apply Hw. reflexivity.
Qed.

Lemma send_run b : Processors w !! p = Some b ->
  exists log, thread_send_ipi_packet entrypoint context count w =
    Ok (Irq b) (world_at (Sent (Irq b)) (others p) log).
Proof.
  intros Hb. pose proof (iw_procs _ Hw) as Hl. pose proof (iw_irq _ Hw _ _ Hb) as HI.
  destruct (cpu_exists p (iw_cpu _ Hw)) as [c Hc].
  unfold thread_send_ipi_packet, thread_get_processor_block. norm. rewrite modify_run. norm. rewrite gets_run.
  rewrite (pr_get_run _ _ _ b) by done. norm.
  set (w1 := w <| Counters ::= <[count := 0]> |>).
  assert (forall k : Z -> K Z, bind (if Irq b <? 2 then thread_raise_irql 2 else ret (Irq b)) k w1 =
    k (Irq b) (w1 <| Processors ::= alter (fun b => b <| Irq := own_level (Sent (Irq b)) (Irq b) |>) p |>)) as Hr.
  { intros k. cbn [own_level]. destruct (Irq b <? 2) eqn:E2.
    - rewrite (raise_irql_run w1 b c) by done. f_equal. unfold set. f_equal.
      apply (list_alter_at _ _ _ _ b Hb). by rewrite E2.
    - rt. f_equal. destruct w; cbn in *. f_equal. symmetry. apply (list_alter_self _ _ _ b Hb). cbn.
      rewrite E2. by destruct b. }
  rewrite Hr. clear Hr. rewrite lock_run by apply Hw.
  set (b' := b <| Irq := own_level (Sent (Irq b)) (Irq b) |>).
  rewrite (pr_get_run _ _ _ b') by (cbn; exact (lookup_alter_eq_Some _ _ _ _ Hb)).
  replace (CurrentProcessor b') with (Z.of_nat p) by (symmetry; exact (iw_id _ Hw _ _ Hb)).
  unfold ipi_send_packet, thread_get_processor_block. norm.
  set (w2 := w1 <| Processors ::= _ |> <| held ::= _ |>).
  assert (forall i, LIpi i ∉ held w2) as Hh by (intros i Hi%elem_of_union; destruct Hi as [Hi|Hi]; [set_solver|by eapply iw_locks]).
  assert (length (Processors w2) = 6%nat) as Hl2 by (cbn; by rewrite length_alter).
  rewrite (packet_run entrypoint context count w Hw w2 _ Hl2 Hh). norm. rewrite gets_run. norm. rewrite (pr_get_run _ _ _ b').
  2:{ change (packet_blocks (Processors w2) !! p = Some b'). rewrite packet_blocks_self. exact (lookup_alter_eq_Some _ _ _ _ Hb). }
  unfold store. norm. rewrite modify_run. eexists. unfold ret. f_equal. rewrite sent_world. reflexivity.
Qed.

(** *** The sender's own call *)

Lemma call_run b irql U log : Processors w !! p = Some b ->
  thread_send_ipi_call ipi_call entrypoint context (world_at (Sent irql) U log) =
    Ok v (world_at (Called irql v) U log).
Proof.
  intros Hb. destruct (cpu_exists p (iw_cpu _ Hw)) as [c Hc].
  unfold thread_send_ipi_call.
  rewrite (raise_irql_run _ (block_at (Sent irql) U p b) (regs_at (Sent irql) U p c)).
  2:{ exact (world_at_proc _ _ _ _ _ Hb). }
  2:{ change (imap (regs_at (Sent irql) U) (Cpus w) !! p = Some (regs_at (Sent irql) U p c)). by rewrite list_lookup_imap, Hc. }
  rewrite ipi_local.
  2:{ change (is_Some (imap (regs_at (Sent irql) U) (Cpus w) !! p)). rewrite list_lookup_imap, Hc. by eexists. }
  assert (alter (set Irq (fun _ => u8 0x78)) p (imap (block_at (Sent irql) U) (Processors w)) =
    imap (block_at (Called irql v) U) (Processors w)) as HP.
  { apply alter_imap; unfold block_at; [intros x _; by rewrite !decide_True|intros j x _ Hj; by rewrite !decide_False]. }
  assert (alter g p (imap (regs_at (Sent irql) U) (Cpus w)) = imap (regs_at (Called irql v) U) (Cpus w)) as HR.
  { apply alter_imap; unfold regs_at, has_called; [intros x _; by rewrite !decide_True|intros j x _ Hj; by rewrite !decide_False]. }
  unfold world_at. rewrite <- HP, <- HR. reflexivity.
Qed.

(** *** The interrupt on another processor *)

Section handler.
Context (u : world) (n : Z) (q : nat) (B : list PROCESSOR) (C : list CPU) (N : gmap nat Z) (h : gset lockid) (log : list (Z * Z)) (b : PROCESSOR).
Context (Hq : cpu u = q) (Hq6 : (q < 6)%nat) (HB : B !! q = Some b) (HCq : is_Some (C !! q)).
Context (HN : N !! count = Some n) (Hh : LIpi q ∉ h).
Context (Hid : CurrentProcessor b = Z.of_nat q) (Hirq : 0 <= Irq b < 0x78).
Context (Htab : InterruptTable b !! 0x1E%nat = Some thread_interrupt_ipi).
Context (Hproc : IpiProc b = Some entrypoint) (Hctx : IpiContext b = context) (Hinc : IpiIncrement b = Some count).

Lemma run_ipi_run B' b' log' : B' !! q = Some b' -> IpiProc b' = IpiProc b -> IpiContext b' = IpiContext b -> IpiIncrement b' = IpiIncrement b ->
  run_ipi ipi_call (soc q) (ipi_world u B' C N h log') =
    Ok tt (ipi_world u (alter (set IpiProc (fun _ => None)) q B') (alter g q C) (<[count := u32 (n + 1)]> N) h log').
Proof.
  intros HB' E1 E2 E3. unfold run_ipi, thread_get_processor_block. norm. rewrite gets_run.
  change (cpu (ipi_world u B' C N h log')) with (cpu u). rewrite Hq, lock_run by done.
  rewrite (pr_get_run _ _ _ b') by done. rewrite E1, Hproc. norm.
  rewrite (pr_get_run _ _ _ b') by done. rewrite E2, Hctx. norm.
  change (set held (fun h => {[ LIpi q ]} ∪ h) (ipi_world u B' C N h log')) with (ipi_world u B' C N ({[ LIpi q ]} ∪ h) log').
  rewrite (bind_ok _ _ _ _ _ (ipi_local (ipi_world u B' C N ({[ LIpi q ]} ∪ h) log') ltac:(cbn; by rewrite Hq))).
  change (set Cpus (alter g (cpu (ipi_world u B' C N ({[LIpi q]} ∪ h) log'))) (ipi_world u B' C N ({[LIpi q]} ∪ h) log'))
    with (ipi_world u B' (alter g (cpu u) C) N ({[ LIpi q ]} ∪ h) log').
  rewrite pr_upd_run by (by eexists).
  change (set Processors ?f (ipi_world u B' ?c N ?l log')) with (ipi_world u (f B') c N l log').
  rewrite (pr_get_run _ _ _ (b' <| IpiProc := None |>)) by exact (lookup_alter_eq_Some _ _ _ _ HB').
  change (IpiIncrement (b' <| IpiProc := None |>)) with (IpiIncrement b'). rewrite E3, Hinc. cbn beta iota.
  unfold atomic_inc_counter, bind. change (Counters (ipi_world ?u ?b ?c ?m ?l ?o)) with m. rewrite HN.
  unfold unlock, modify. f_equal. rewrite Hq.
  transitivity (ipi_world u (alter (set IpiProc (fun _ => None)) q B') (alter g q C) (<[count := u32 (n + 1)]> N) (({[ LIpi q ]} ∪ h) ∖ {[ LIpi q ]}) log');
    [reflexivity|]. by rewrite relock.
Qed.

Lemma handler_run :
  external_interrupt_handler load ipi_call (ipi_world u B C N h log) =
    Ok tt (ipi_world u (alter (set IpiProc (fun _ => None)) q B) (alter g q C) (<[count := u32 (n + 1)]> N) h
             ((soc q + 0x68, Irq b) :: (soc q + 8, 0x78) :: log)).
Proof.
  pose proof (lookup_alter_eq_Some B q (set Irq (fun _ => u8 0x78)) b HB) as HB'.
  unfold external_interrupt_handler, thread_get_processor_block. norm. rewrite gets_run.
  change (cpu (ipi_world u B C N h log)) with (cpu u). rewrite Hq.
  rewrite (pr_get_run _ _ _ b) by done. rewrite Hid. norm. fold (soc q). rewrite ipi_source by done.
  rewrite (pr_get_run _ _ _ b) by done. norm. change (Z.to_nat (0x78 / 4)) with 0x1E%nat. rewrite Htab. change (of_option (Some thread_interrupt_ipi)) with (ret (S := world) thread_interrupt_ipi). rt.
  rewrite decide_True by done. norm. rewrite (pr_get_run _ _ _ b) by done.
  unfold store. norm. rewrite modify_run. norm.
  change (set mmio (cons ?x) (ipi_world u B C N h log)) with (ipi_world u B C N h (x :: log)).
  rewrite pr_upd_run by (by eexists). rt.
  change (set Processors ?f (ipi_world u B ?c ?m ?l ?o)) with (ipi_world u (f B) c m l o).
  unfold run_interrupt.
  rewrite (bind_ok _ _ _ _ _ (run_ipi_run _ _ _ HB' eq_refl eq_refl eq_refl)).
  destruct (Z.eqb_spec (Irq b) 255); [lia|]. rewrite modify_run.
  change (set mmio (cons ?x) (ipi_world u ?b C ?m h ?o)) with (ipi_world u b C m h (x :: o)).
  rewrite pr_upd_end.
  2:{ do 2 apply alter_is_Some. by eexists. }
  f_equal.
  transitivity (ipi_world u (alter (set Irq (fun _ => Irq b)) q (alter (set IpiProc (fun _ => None)) q (alter (set Irq (fun _ => u8 0x78)) q B)))
    (alter g q C) (<[count := u32 (n + 1)]> N) h ((soc q + 0x68, Irq b) :: (soc q + 8, 0x78) :: log)); [reflexivity|].
  f_equal. rewrite !list_alter_twice. apply (list_alter_at _ _ _ _ b HB). by destruct b.
Qed.
End handler.

Lemma serve_run ph U log i :
  ph <> Ready -> U ⊆ others p -> i ∈ U -> exists log',
  on_cpu i (external_interrupt_handler load ipi_call) (world_at ph U log) = Ok tt (world_at ph (U ∖ {[ i ]}) log').
Proof.
  intros Hph HU Hi. pose proof (HU _ Hi) as [Hi6 Hip]%others_elem.
  destruct (proc_exists i Hi6) as [b Hb]. destruct (cpu_exists i Hi6) as [c Hc].
  assert (block_at ph U i b = asked false b) as Hbi.
  { unfold block_at. rewrite decide_False by done. rewrite bool_decide_eq_true_2 by done. by destruct ph. }
  assert (size U = S (size (U ∖ {[ i ]}))) as Hsz.
  { rewrite size_difference by set_solver. rewrite size_singleton.
    assert (size U <> 0)%nat; [|lia]. intros E%size_empty_inv. set_solver. }
  assert (size U <= 5)%nat as H5 by (rewrite <- (others_size p) by apply Hw; by apply subseteq_size).
  unfold on_cpu.
  change (set cpu (fun _ => i) (world_at ph U log)) with
    (ipi_world (w <| cpu := i |>) (imap (block_at ph U) (Processors w)) (imap (regs_at ph U) (Cpus w)) (counters_at ph U) (held_at ph) log).
  erewrite (handler_run _ (5 - Z.of_nat (size U)) i _ _ _ _ _ (asked false b)).
  - eexists. f_equal. unfold world_at.
    assert (alter (set IpiProc (fun _ => None)) i (imap (block_at ph U) (Processors w)) =
      imap (block_at ph (U ∖ {[ i ]})) (Processors w)) as HP.
    { apply alter_imap.
      - intros x _. unfold block_at. rewrite !decide_False by done.
        rewrite bool_decide_eq_true_2, bool_decide_eq_false_2 by set_solver. by destruct ph.
      - intros j x _ Hj. unfold block_at. by rewrite (bool_decide_ext (j ∈ U) (j ∈ U ∖ {[ i ]})) by set_solver. }
    assert (alter g i (imap (regs_at ph U) (Cpus w)) = imap (regs_at ph (U ∖ {[ i ]})) (Cpus w)) as HR.
    { apply alter_imap.
      - intros x _. unfold regs_at, has_called. rewrite !decide_False by done.
        rewrite bool_decide_eq_true_2, bool_decide_eq_false_2 by set_solver. by destruct ph.
      - intros j x _ Hj. unfold regs_at, has_called. by rewrite (bool_decide_ext (j ∈ U) (j ∈ U ∖ {[ i ]})) by set_solver. }
    assert (<[count := u32 (5 - Z.of_nat (size U) + 1)]> (counters_at ph U) = counters_at ph (U ∖ {[ i ]})) as HN.
    { rewrite u32_small by lia. destruct ph; [done|..]; cbn; rewrite insert_insert_eq; f_equal; lia. }
    rewrite <- HP, <- HR, <- HN. reflexivity.
  - done.
  - done.
  - by rewrite list_lookup_imap, Hb, <- Hbi.
  - rewrite list_lookup_imap, Hc. by eexists.
  - destruct ph; [done|..]; apply lookup_insert_eq.
  - destruct ph; cbn; pose proof (iw_locks _ Hw i); set_solver.
  - exact (iw_id _ Hw _ _ Hb).
  - exact (iw_irq _ Hw _ _ Hb).
  - exact (iw_table _ Hw _ _ Hb).
  - done.
  - done.
  - done.
Qed.

(** *** The way out *)

Lemma finish_blocked irql r U log : U <> ∅ -> thread_send_ipi_finish irql count (world_at (Called irql r) U log) = Blocked.
Proof.
  intros HU. unfold thread_send_ipi_finish, bind, get.
  change (Counters (world_at (Called irql r) U log)) with (<[count := 5 - Z.of_nat (size U)]> (Counters w)).
  rewrite lookup_insert_eq. cbn -[size]. destruct (Z.eqb_spec (5 - Z.of_nat (size U)) 5) as [E|]; [|done].
  destruct HU. apply leibniz_equiv, size_empty_inv. lia.
Qed.

Lemma finish_run b r log : Processors w !! p = Some b ->
  thread_send_ipi_finish (Irq b) count (world_at (Called (Irq b) r) ∅ log) = Ok tt (world_at (Done r) ∅ log).
Proof.
  intros Hb. destruct (cpu_exists p (iw_cpu _ Hw)) as [c Hc]. pose proof (iw_irq _ Hw _ _ Hb) as HI.
  unfold thread_send_ipi_finish. unfold bind at 1, get.
  change (Counters (world_at (Called (Irq b) r) ∅ log)) with (<[count := 5]> (Counters w)).
  rewrite lookup_insert_eq. change (of_option (Some 5)) with (ret (S := world) 5). rt. change (5 =? 5) with true. cbn iota.
  unfold unlock. rewrite modify_run.
  set (s := set held _ (world_at (Called (Irq b) r) ∅ log)).
  rewrite (lower_irql_run s (block_at (Called (Irq b) r) ∅ p b) (regs_at (Called (Irq b) r) ∅ p c)).
  2:{ exact (world_at_proc (Called (Irq b) r) ∅ log _ _ Hb). }
  2:{ change (imap (regs_at (Called (Irq b) r) ∅) (Cpus w) !! p = Some (regs_at (Called (Irq b) r) ∅ p c)). by rewrite list_lookup_imap, Hc. }
  unfold ret. f_equal.
  assert (alter (set Irq (fun _ => u8 (Irq b))) p (imap (block_at (Called (Irq b) r) ∅) (Processors w)) =
    imap (block_at (Done r) ∅) (Processors w)) as HP.
  { apply alter_imap; unfold block_at; [intros x Hx; rewrite !decide_True by done|intros j x _ Hj; by rewrite !decide_False].
    rewrite u8_small by lia. simplify_eq. done. }
  assert (({[ LIpiGlobal ]} ∪ held w) ∖ {[ LIpiGlobal ]} = held w) as HH by (apply relock, Hw).
  unfold world_at at 1. unfold held_at. rewrite <- HP, <- HH at 1. reflexivity.
Qed.

(** *** Every execution *)

(** Where a call is: the world is that of its phase, and the pending
    interrupts are among those asked for. *)
Definition ipi_inv (b : PROCESSOR) (s : ipi_state) : Prop :=
  exists log,
  match phase s with
  | Ready => pending s = ∅ /\ state s = w
  | Sent irql => irql = Irq b /\ pending s ⊆ others p /\ state s = world_at (phase s) (pending s) log
  | Called irql r => irql = Irq b /\ r = v /\ pending s ⊆ others p /\ state s = world_at (phase s) (pending s) log
  | Done r => r = v /\ pending s = ∅ /\ state s = world_at (phase s) ∅ log
  end.

(** What is left to do. *)
Definition ipi_left (s : ipi_state) : nat :=
  (size (pending s) + match phase s with Ready => 8 | Sent _ => 2 | Called _ _ => 1 | Done _ => 0 end)%nat.

Local Abbreviation step := (ipi_step load ipi_call entrypoint context count).

Lemma serve_size (U : gset nat) i : i ∈ U -> (size (U ∖ {[ i ]}) < size U)%nat.
Proof. intros H. apply subset_size. set_solver. Qed.

Lemma ipi_inv_step b s s' : Processors w !! p = Some b -> ipi_inv b s -> step s s' -> ipi_inv b s' /\ (ipi_left s' < ipi_left s)%nat.
Proof.
  intros Hb [log H] Hs. destruct Hs as [w0 irql w1 E|irql U w0 r w1 E|ph U w0 i w1 Hi E|irql r U w0 w1 E]; cbn [phase pending state] in H.
  - destruct H as [_ ->]. destruct (send_run b Hb) as [log' E']. rewrite E' in E. injection E as <- <-.
    split; [by exists log'|]. unfold ipi_left; cbn [phase pending]. rewrite others_size by apply Hw. cbn. lia.
  - destruct H as (-> & HU & ->). rewrite (call_run b) in E by done. injection E as <- <-.
    split; [by exists log|]. unfold ipi_left; cbn [phase pending]. lia.
  - assert (ph <> Ready /\ U ⊆ others p /\ w0 = world_at ph U log) as (Hr & HU & ->).
    { destruct ph; [destruct H as [-> _]; set_solver|naive_solver..|destruct H as (_ & -> & _); set_solver]. }
    destruct (serve_run ph U log i Hr HU Hi) as [log' E']. rewrite E' in E. injection E as <-.
    split; [|unfold ipi_left; cbn [phase pending]; pose proof (serve_size U i Hi); lia].
    exists log'. cbn [phase pending state].
    assert (U ∖ {[ i ]} ⊆ others p) by set_solver.
    destruct ph; [done|naive_solver..|]. destruct H as (_ & -> & _). set_solver.
  - destruct H as (-> & -> & HU & ->). destruct (decide (U = ∅)) as [->|Hne].
    + rewrite finish_run in E by done. injection E as <-. split; [by exists log|]. unfold ipi_left; cbn. lia.
    + by rewrite finish_blocked in E.
Qed.

Lemma ipi_inv_progress b s : Processors w !! p = Some b -> ipi_inv b s ->
  (exists r, phase s = Done r) \/ exists s', step s s'.
Proof.
  intros Hb [log H]. destruct s as [ph U w0]. cbn [phase pending state] in H. destruct ph as [|irql|irql r|r].
  - destruct H as [-> ->]. right. destruct (send_run b Hb) as [log' E']. eexists. by constructor.
  - destruct H as (-> & HU & ->). right. eexists. constructor. by apply (call_run b).
  - destruct H as (-> & -> & HU & ->). right. destruct (set_choose_or_empty U) as [[i Hi]|He].
    + destruct (serve_run (Called (Irq b) v) U log i ltac:(done) HU Hi) as [log' E']. eexists. by apply (ipi_serves _ _ _ _ _ _ _ _ i).
    + apply leibniz_equiv in He as ->. eexists. by apply ipi_finishes, finish_run.
  - left. by eexists.
Qed.

Lemma ipi_inv_steps b n s s' : Processors w !! p = Some b -> ipi_inv b s -> nsteps step n s s' ->
  ipi_inv b s' /\ (ipi_left s' + n <= ipi_left s)%nat.
Proof.
  intros Hb H Hn. induction Hn as [|n s s1 s' H1 _ IH]; [split; [done|lia]|].
  destruct (ipi_inv_step b s s1 Hb H H1) as [H' ?]. destruct (IH H') as [? ?]. split; [done|lia].
Qed.

Lemma done_blocks r :
  imap (block_at (Done r) ∅) (Processors w) = imap (fun i b => if decide (i = p) then b else asked true b) (Processors w).
Proof. apply imap_ext_at. intros i x _. unfold block_at. case_decide; [by destruct x|done]. Qed.

Lemma done_regs r : imap (regs_at (Done r) ∅) (Cpus w) = g <$> Cpus w.
Proof.
  apply list_eq. intros i. rewrite list_lookup_imap, list_lookup_fmap. unfold regs_at, has_called.
  by case_decide.
Qed.

Lemma ipi_do_step e s s' : ipi_do load ipi_call entrypoint context count e s = Some s' -> step s s'.
Proof.
  destruct s as [ph U u]. unfold ipi_do. cbn [phase pending state].
  destruct e, ph; try done; intros H; repeat case_match; simplify_eq;
    repeat match goal with x : unit |- _ => destruct x end;
    first [by apply ipi_sends|by apply ipi_calls|by apply ipi_serves|by apply ipi_finishes].
Qed.

Lemma ipi_exec_steps es : forall s s',
  ipi_exec load ipi_call entrypoint context count es s = Some s' -> nsteps step (length es) s s'.
Proof.
  induction es as [|e es IH]; intros s s' H; cbn in H; [injection H as ->; constructor|].
  apply bind_Some in H as (s1 & H1 & H). econstructor; [by eapply ipi_do_step|by apply IH].
Qed.

(** C21: an inter-processor call is a rendezvous, in whatever order the
    processors run.  Take any execution of [thread_send_ipi] on one of six
    processors, in which the five others take the interrupt it requests at any
    time.  It has at most eight steps and is never stuck before
    [thread_send_ipi] returns; when it returns, with the value of the caller's
    own call, every interrupt has been taken, the procedure has run exactly
    once on every processor, and of the rest of the state only the request
    fields of the others, the counter and the device log have changed: levels
    and locks are as before. *)
Theorem ipi_rendezvous n s :
  nsteps (ipi_step load ipi_call entrypoint context count) n (mkIpi Ready ∅ w) s ->
  (n <= 8)%nat /\
  ((exists r, phase s = Done r) \/ exists s', ipi_step load ipi_call entrypoint context count s s') /\
  (forall r, phase s = Done r -> r = v /\ pending s = ∅ /\ exists log,
     state s = ipi_world w (imap (fun i b => if decide (i = p) then b else asked true b) (Processors w))
                 (g <$> Cpus w) (<[count := 5]> (Counters w)) (held w) log).
Proof.
  intros Hn. destruct (proc_exists p (iw_cpu _ Hw)) as [b Hb].
  destruct (ipi_inv_steps b n (mkIpi Ready ∅ w) s Hb ltac:(by exists []) Hn) as [Hs Hl].
  split; [change (ipi_left (mkIpi Ready ∅ w)) with 8%nat in Hl; lia|].
  split; [by apply (ipi_inv_progress b)|]. intros r Hr. destruct Hs as [log H]. rewrite Hr in H.
  destruct H as (-> & HU & HS). split_and!; [done|done|]. exists log. rewrite HS. unfold world_at.
  rewrite done_blocks, done_regs. done.
Qed.
End rendezvous.

(** ** Setting the quantum *)

Section quantum_facts.
Variable quantum_addr : Z.

#[global] Instance quantum_local context : IpiLocal (quantum_call quantum_addr) quantum_addr context (set dec (fun _ => context)) 0.
Proof.
  intros w Hw. unfold quantum_call. rewrite Z.eqb_refl. unfold quantum_length_ipi_routine.
  by rewrite cpu_upd_run.
Qed.
End quantum_facts.

(** A machine of six processors as the start-up leaves it, the third about to
    make the call; an interrupt controller that reports the interrupt of
    inter-processor calls. *)
Definition six_block (i : Z) : PROCESSOR :=
  PROCESSOR_zero i <| InterruptTable := interrupt_table i |> <| CurrentThread := Some 0%nat |>.
Definition six : world :=
  mkWorld 2 (replicate 6 (mkCPU 0x9032 [] 0 77)) (six_block <$> [0; 1; 2; 3; 4; 5]) [THREAD_zero] (Some 0%nat) (Some 0%nat)
    ∅ ∅ ∅ ∅ ∅ ∅ ∅ 0 0 0 50000 6 1 (replicate 12 1) [].
Definition six_load (_ : Z) : Z := 0x78.

#[global] Instance six_source : IpiSource six_load.
Proof. by intros i _. Qed.

Lemma six_lookup i b : Processors six !! i = Some b -> (i < 6)%nat /\ b = six_block (Z.of_nat i).
Proof. intros H. do 6 (destruct i as [|i]; [injection H as <-; split; [lia|done]|]). done. Qed.

Lemma six_wf : ipi_wf six.
Proof.
  split; [done|done|cbn; lia|..|set_solver|set_solver]; intros i b [Hi ->]%six_lookup.
  - done.
  - cbn. lia.
  - do 6 (destruct i as [|i]; [done|]). lia.
Qed.

(** Processor 2 sets the quantum to 10 ms; the others answer out of order, one
    of them before processor 2 has set its own. *)
Definition six_order : list ipi_event := [ESend; EServe 4; ECall; EServe 0; EServe 5; EServe 1; EServe 3; EFinish]%nat.

Lemma ipi_rendezvous_demo : exists s,
  ipi_exec six_load (quantum_call 0x4000) 0x4000 25000 0 six_order (mkIpi Ready ∅ six) = Some s /\
  dec <$> Cpus (state s) = replicate 6 25000.
Proof.
  destruct (ipi_exec six_load (quantum_call 0x4000) 0x4000 25000 0 six_order (mkIpi Ready ∅ six)) as [s|] eqn:E.
  2:{ exfalso. revert E. by vm_compute. }
  exists s. split; [done|].
  assert (phase <$> Some s = Some (Done 0)) as Hd by (rewrite <- E; by vm_compute). injection Hd as Hd.
  destruct (ipi_rendezvous six_load (quantum_call 0x4000) 0x4000 25000 0 _ 0 six six_wf 8 s (ipi_exec_steps _ _ _ _ _ _ _ _ E)) as (_ & _ & HD).
  destruct (HD 0 Hd) as (_ & _ & log & Hs). rewrite Hs. reflexivity.
Defined.

(** ** Starting again after a shutdown *)

(** Code that leaves a part of the world alone. *)
Definition keeps {A T} (F : world -> T) (m : K A) : Prop :=
  forall w a w', m w = Ok a w' -> F w' = F w.

Section keeps_rules.
Context {A B T : Type} (F : world -> T).

Lemma keeps_bind (m : K A) (k : A -> K B) : keeps F m -> (forall a, keeps F (k a)) -> keeps F (bind m k).
Proof.
  intros Hm Hk w b w'' (a & w' & E1 & E2)%bind_ok_inv. rewrite (Hk _ _ _ _ E2). eauto.
Qed.
Lemma keeps_ret (a : A) : keeps F (ret a).
Proof. by intros w a' w' [= _ <-]. Qed.
Lemma keeps_gets (f : world -> A) : keeps F (gets f).
Proof. by intros w a w' [= _ <-]. Qed.
Lemma keeps_modify f : (forall w, F (f w) = F w) -> keeps F (modify f).
Proof. intros H w a w' [= _ <-]. apply H. Qed.
Lemma keeps_th_get i (f : THREAD -> A) : keeps F (th_get i f).
Proof. intros w a w'. unfold th_get. destruct i; [|done]. case_match; [|done]. by intros [= _ <-]. Qed.
Lemma keeps_pr_get i (f : PROCESSOR -> A) : keeps F (pr_get i f).
Proof. intros w a w'. unfold pr_get. case_match; [|done]. by intros [= _ <-]. Qed.
Lemma keeps_cpu_get (f : CPU -> A) : keeps F (cpu_get f).
Proof. intros w a w'. unfold cpu_get. case_match; [|done]. by intros [= _ <-]. Qed.
Lemma keeps_th_upd i f : (forall w P, F (w <| ThreadPool ::= P |>) = F w) -> keeps F (th_upd i f).
Proof. intros H w a w'. unfold th_upd. destruct i; [|done]. case_match; [|done]. intros [= _ <-]. apply H. Qed.
Lemma keeps_pr_upd i f : (forall w P, F (w <| Processors ::= P |>) = F w) -> keeps F (pr_upd i f).
Proof. intros H w a w'. unfold pr_upd. case_match; [|done]. intros [= _ <-]. apply H. Qed.
Lemma keeps_cpu_upd f : (forall w P, F (w <| Cpus ::= P |>) = F w) -> keeps F (cpu_upd f).
Proof. intros H w a w'. unfold cpu_upd. case_match; [|done]. intros [= _ <-]. apply H. Qed.
Lemma keeps_lock l : (forall w P, F (w <| held ::= P |>) = F w) -> keeps F (lock l).
Proof. intros H w a w'. unfold lock. case_decide; [done|]. intros [= _ <-]. apply H. Qed.
Lemma keeps_unlock l : (forall w P, F (w <| held ::= P |>) = F w) -> keeps F (unlock l).
Proof. intros H. apply keeps_modify. intros w. apply H. Qed.
End keeps_rules.

Create HintDb keeps discriminated.
#[export] Hint Constants Opaque : keeps.
#[export] Hint Resolve keeps_bind keeps_ret keeps_gets keeps_th_get keeps_pr_get keeps_cpu_get : keeps.
#[export] Hint Extern 2 (keeps _ (th_upd _ _)) => by apply keeps_th_upd : keeps.
#[export] Hint Extern 2 (keeps _ (pr_upd _ _)) => by apply keeps_pr_upd : keeps.
#[export] Hint Extern 2 (keeps _ (cpu_upd _)) => by apply keeps_cpu_upd : keeps.
#[export] Hint Extern 2 (keeps _ (lock _)) => by apply keeps_lock : keeps.
#[export] Hint Extern 2 (keeps _ (unlock _)) => by apply keeps_unlock : keeps.
#[export] Hint Extern 2 (keeps _ (modify _)) => by apply keeps_modify : keeps.
#[export] Hint Extern 3 (keeps _ (match ?x with _ => _ end)) => destruct x : keeps.

Ltac keeps := cbv zeta; eauto 200 with keeps.

Section restart.
Context (pick : gset Z -> Z -> option Z) (startup_addr idle_loop_addr : Z).

Lemma keeps_raise irql : keeps threads_online (thread_raise_irql irql).
Proof. unfold thread_raise_irql, thread_disable_interrupts, thread_enable_interrupts, thread_get_processor_block. keeps. Qed.
Lemma keeps_lower irql : keeps threads_online (thread_lower_irql irql).
Proof. exact (keeps_raise irql). Qed.
#[local] Hint Resolve keeps_raise keeps_lower : keeps.

Lemma keeps_spinlock l : keeps threads_online (thread_spinlock l).
Proof. unfold thread_spinlock. keeps. Qed.
Lemma keeps_unspin l irql : keeps threads_online (thread_unlock l irql).
Proof. unfold thread_unlock. keeps. Qed.
#[local] Hint Resolve keeps_spinlock keeps_unspin : keeps.

Lemma keeps_locked {A} i (m : K A) : keeps threads_online m -> keeps threads_online (with_thread_locked i m).
Proof. intros H. unfold with_thread_locked. keeps. Qed.
#[local] Hint Resolve keeps_locked : keeps.

Lemma keeps_close i : keeps threads_online (thread_close i).
Proof. unfold thread_close. keeps. Qed.
Lemma keeps_priority i n : keeps threads_online (thread_set_priority i n).
Proof. unfold thread_set_priority. keeps. Qed.
Lemma keeps_boost i n : keeps threads_online (thread_set_priority_boost i n).
Proof. unfold thread_set_priority_boost. keeps. Qed.
Lemma keeps_alloc : keeps threads_online thread_pool_alloc.
Proof. intros w a w'. unfold thread_pool_alloc. case_match; by intros [= _ <-]. Qed.
Lemma keeps_memalign n : keeps threads_online (memalign pick n).
Proof. intros w a w'. unfold memalign. case_match; by intros [= _ <-]. Qed.
#[local] Hint Resolve keeps_close keeps_priority keeps_boost keeps_alloc keeps_memalign : keeps.

Lemma keeps_create e s a f : keeps threads_online (thread_create pick startup_addr e s a f).
Proof. unfold thread_create, insert_processor_list, insert_full_list, thread_get_processor_block, when. keeps. Qed.
#[local] Hint Resolve keeps_create : keeps.

Lemma keeps_idle_thread : keeps threads_online (thread_create_idle_thread pick startup_addr idle_loop_addr).
Proof. unfold thread_create_idle_thread, first_lists, thread_get_processor_block, when. keeps. Qed.
#[local] Hint Resolve keeps_idle_thread : keeps.

(** Code that counts one processor in. *)
Definition counts_in {A} (m : K A) : Prop :=
  forall w a w', m w = Ok a w' -> threads_online w' = u32 (threads_online w + 1).

Lemma counts_after {A B} (m : K A) (k : A -> K B) :
  keeps threads_online m -> (forall a, counts_in (k a)) -> counts_in (bind m k).
Proof. intros Hm Hk w b w'' (a & w' & E1 & E2)%bind_ok_inv. rewrite (Hk _ _ _ _ E2), (Hm _ _ _ E1). done. Qed.

Lemma counts_before {A B} (m : K A) (k : A -> K B) :
  counts_in m -> (forall a, keeps threads_online (k a)) -> counts_in (bind m k).
Proof. intros Hm Hk w b w'' (a & w' & E1 & E2)%bind_ok_inv. rewrite (Hk _ _ _ _ E2). eauto. Qed.

Lemma startup_counts : counts_in (thread_startup pick startup_addr idle_loop_addr).
Proof.
  unfold thread_startup, thread_get_processor_block.
  do 9 (apply counts_after; [keeps|intros ?]).
  apply counts_before; [|keeps]. by intros u r u' [= _ <-].
Qed.

Lemma startups_count l : forall w a w',
  for_each l (fun i : nat =>
    w <- get ;;
    modify (fun w => w <| cpu := i |>) ;;
    thread_startup pick startup_addr idle_loop_addr ;;
    modify (fun w' => w' <| cpu := cpu w |>)) w = Ok a w' ->
  0 <= threads_online w < 2 ^ 32 -> threads_online w' = u32 (threads_online w + Z.of_nat (length l)).
Proof.
  induction l as [|i l IH]; intros w a w' H Hr; cbn [for_each] in H.
  - injection H as _ <-. rewrite Z.add_0_r. by rewrite u32_small.
  - apply bind_ok_inv in H as ([] & w1 & H1 & H). unfold get, bind at 1 in H1.
    rewrite modify_run in H1. apply bind_ok_inv in H1 as ([] & w2 & H2 & H1). injection H1 as <-.
    apply startup_counts in H2. change (threads_online (w <| cpu := i |>)) with (threads_online w) in H2.
    rewrite (IH _ _ _ H); cbn [threads_online set length]; rewrite H2; [|apply u32_range].
    unfold u32. rewrite Zplus_mod_idemp_l. f_equal. lia.
Qed.

(** Threading cannot be started twice.  [threading_shutdown] clears the
    mark that it runs, so that [threading_init] can be called again, but not
    the count of the processors online, which is six since the first start:
    [threading_init] then counts up to twelve, and its wait for six never
    ends. *)
Theorem restart_hangs w :
  threading_init_check w = 0 -> threads_online w = 6 ->
  forall w', threading_init pick startup_addr idle_loop_addr w <> Ok tt w'.
Proof.
  intros Hc Ho w' H. unfold threading_init in H. rewrite gets_run in H. rewrite Hc in H. change (nz 0) with false in H.
  cbn iota in H. rewrite modify_run in H.
  apply bind_ok_inv in H as (a1 & w1 & H1 & H). apply startup_counts in H1.
  apply bind_ok_inv in H as (a2 & w2 & H2 & H). apply startups_count in H2; [|rewrite H1; apply u32_range].
  change (threads_online (threading_init_state w)) with (threads_online w) in H1. rewrite Ho in H1.
  rewrite H1 in H2. rewrite gets_run in H. rewrite H2 in H. by vm_compute in H.
Qed.
End restart.

(** ** Shutting down *)

Section shutdown.
Context (load : Z -> Z) {HL : IpiSource load} (idle_addr : Z).

(** Processor [i] has the request to park and can take it. *)
Definition parkable (s : world) (i : nat) : Prop :=
  (exists b, Processors s !! i = Some b /\ CurrentProcessor b = Z.of_nat i /\
     InterruptTable b !! 0x1E%nat = Some thread_interrupt_ipi /\ IpiProc b = Some idle_addr) /\
  is_Some (Cpus s !! i) /\ LIpi i ∉ held s.

(** What parking does to the world. *)
Definition parked (i : nat) (s s' : world) : Prop :=
  (forall j, j <> i -> parkable s j -> parkable s' j) /\
  wait_ s' = <[(i * 2 + 1)%nat := 0]> (<[(i * 2)%nat := 0]> (wait_ s)) /\
  held s' = {[ LIpi i ]} ∪ held s /\ ThreadPool s' = ThreadPool s /\
  cpu s' = cpu s /\ threading_init_check s' = threading_init_check s /\ Processors s' !! cpu s = Processors s !! cpu s.

Lemma wait_set_run {B} i v s (k : unit -> K B) : (i < length (wait_ s))%nat ->
  bind (wait_set i v) k s = k tt (s <| wait_ ::= <[i := v]> |>).
Proof. intros [x Hx]%lookup_lt_is_Some. unfold bind, wait_set. by rewrite Hx. Qed.

Lemma park_run s i : (i < 6)%nat -> i <> cpu s -> parkable s i -> length (wait_ s) = 12%nat ->
  exists s', on_cpu i (park_ipi idle_addr load) s = Ok tt s' /\ parked i s s'.
Proof.
  intros Hi Hne ((b & Hb & Hid & Ht & Hp) & [c Hc] & Hl) Hw.
  unfold on_cpu, park_ipi, thread_get_processor_block. norm. rewrite gets_run.
  change (cpu (s <| cpu := i |>)) with i. rewrite (pr_get_run _ _ _ b) by done. norm. rewrite Hid. fold (soc i).
  rewrite ipi_source by done. rewrite (pr_get_run _ _ _ b) by done. norm. change (Z.to_nat (0x78 / 4)) with 0x1E%nat.
  rewrite Ht. change (of_option (Some thread_interrupt_ipi)) with (ret (S := world) thread_interrupt_ipi). rt.
  rewrite decide_True by done. unfold store. norm. rewrite modify_run. norm.
  rewrite pr_upd_run by (by eexists). rewrite lock_run by done. norm.
  pose proof (lookup_alter_eq_Some _ _ (set Irq (fun _ => u8 0x78)) _ Hb) as Hb'.
  rewrite (pr_get_run _ _ _ (b <| Irq := u8 0x78 |>)) by exact Hb'. rewrite decide_True by exact Hp.
  unfold thread_idle_ipi_enter, thread_disable_interrupts. norm.
  rewrite (cpu_get_run _ _ c) by done. norm. rewrite cpu_upd_run by (by eexists). norm. rt. norm. rewrite gets_run. norm.
  rewrite wait_set_run by (cbn; lia).
  unfold wait_set at 1.
  match goal with |- context [wait_ ?x !! ?j] => destruct (lookup_lt_is_Some_2 (wait_ x) j) as [z Hz]; [cbn; rewrite length_insert; lia|rewrite Hz] end.
  eexists. split; [reflexivity|]. unfold parked. split_and!; [|reflexivity..|].
  - intros j Hj ((bj & H1 & H2) & H3 & H4). unfold parkable. cbn.
    rewrite !lookup_alter_ne_list by done. split_and!; [by exists bj|done|set_solver].
  - cbn. by rewrite lookup_alter_ne_list.
Qed.

(** Parking some of the processors, in any order. *)
Lemma parks_run l : forall s, NoDup l -> (forall i, i ∈ l -> (i < 6)%nat /\ i <> cpu s /\ parkable s i) -> length (wait_ s) = 12%nat ->
  exists s', for_each l (fun i => on_cpu i (park_ipi idle_addr load)) s = Ok tt s' /\
    (forall i, i ∈ l -> wait_ s' !! (i * 2)%nat = Some 0) /\
    (forall i, i ∉ l -> wait_ s' !! (i * 2)%nat = wait_ s !! (i * 2)%nat) /\
    held s ⊆ held s' /\ (forall i, i ∈ l -> LIpi i ∈ held s') /\ ThreadPool s' = ThreadPool s /\
    cpu s' = cpu s /\ Processors s' !! cpu s = Processors s !! cpu s.
Proof.
  induction l as [|i l IH]; intros s Hnd Hl Hw; cbn [for_each].
  - exists s. split_and!; [done|set_solver..].
  - apply NoDup_cons in Hnd as [Hi Hnd]. destruct (Hl i ltac:(set_solver)) as (H6 & Hc & Hp).
    destruct (park_run s i H6 Hc Hp Hw) as (s1 & E1 & Hk & Ew & Eh & Et & Ec & _ & Ep).
    destruct (IH s1 Hnd) as (s2 & E2 & H0 & Hn & Hh & Hlk & Ht & Hcpu & Hpr).
    { intros j Hj. destruct (Hl j ltac:(set_solver)) as (? & ? & ?). split_and!; [done|congruence|].
      apply Hk; [set_solver|done]. }
    { by rewrite Ew, !length_insert. }
    assert (forall j, j <> i -> wait_ s1 !! (j * 2)%nat = wait_ s !! (j * 2)%nat) as Hother.
    { intros j Hj. rewrite Ew. rewrite !list_lookup_insert_ne by lia. done. }
    assert (wait_ s1 !! (i * 2)%nat = Some 0) as Hself.
    { rewrite Ew. rewrite list_lookup_insert_ne by lia. apply list_lookup_insert_eq. lia. }
    exists s2. rewrite (bind_ok _ _ _ _ _ E1). rewrite Ec in *. split_and!; [done|..|set_solver| |congruence|done|congruence].
    + intros j [->|Hj]%elem_of_cons; [|by apply H0]. by rewrite Hn.
    + intros j Hj. rewrite Hn, Hother by set_solver. done.
    + intros j [->|Hj]%elem_of_cons; [set_solver|by apply Hlk].
Qed.

Definition shut (s : world) : world := s <| threading_init_check := 0 |>.

Lemma finish_waits s :
  (forall i, (1 <= i < 6)%nat -> is_Some (wait_ s !! (i * 2)%nat)) ->
  ((forall i, (1 <= i < 6)%nat -> wait_ s !! (i * 2)%nat = Some 0) -> threading_shutdown_finish s = Ok tt (shut s)) /\
  ((exists i z, (1 <= i < 6)%nat /\ wait_ s !! (i * 2)%nat = Some z /\ z <> 0) -> threading_shutdown_finish s = Blocked).
Proof.
  intros Hs. unfold threading_shutdown_finish.
  assert (forall l k, (forall j, j ∈ l -> exists i, (1 <= i < 6)%nat /\ j = (i * 2)%nat) ->
    bind (for_each l (fun j => v <- wait_get j ;; if v =? 0 then ret tt else blocked)) k s =
    if forallb (fun j => bool_decide (wait_ s !! j = Some 0)) l then k tt s else Blocked (A := unit)) as Hloop.
  { induction l as [|j l IH]; intros k Hl; [done|]. cbn [for_each forallb]. rewrite bind_assoc.
    destruct (Hl j ltac:(set_solver)) as (i & Hi & ->). destruct (Hs i Hi) as [z Hz].
    unfold bind at 1. unfold bind at 1, wait_get at 1. rewrite Hz. cbn -[bind bool_decide].
    destruct (Z.eqb_spec z 0) as [->|Hz0].
    - rewrite bool_decide_eq_true_2 by done. cbn [ret andb]. apply IH. set_solver.
    - by rewrite bool_decide_eq_false_2 by naive_solver. }
  assert (forall j, j ∈ [2; 4; 6; 8; 10]%nat -> exists i, (1 <= i < 6)%nat /\ j = (i * 2)%nat) as Hodd.
  { intros j Hj. exists (Nat.div2 j). repeat (apply elem_of_cons in Hj as [->|Hj]; [cbn; lia|]). by apply not_elem_of_nil in Hj. }
  rewrite Hloop by done. split.
  - intros Hz. rewrite (proj2 (forallb_forall _ _)); [done|]. intros j Hj%list_elem_of_In.
    destruct (Hodd j Hj) as (i & Hi & ->). by apply bool_decide_eq_true_2, Hz.
  - intros (i & z & Hi & Hz & Hn). destruct (forallb _ _) eqn:E; [|done]. exfalso.
    assert (i * 2 ∈ [2; 4; 6; 8; 10])%nat as Hin by (do 6 (destruct i as [|i]; [set_solver by lia|]); lia).
    apply list_elem_of_In, (proj1 (forallb_forall _ _) E), bool_decide_eq_true in Hin. congruence.
Qed.

Lemma shutdown_asks count w : ipi_wf w -> cpu w = 0%nat -> threading_init_check w <> 0 ->
  exists w1, threading_shutdown_start idle_addr count w = Ok true w1 /\
    (forall i, (1 <= i < 6)%nat -> parkable w1 i) /\ wait_ w1 = wait_ w /\ LIpiGlobal ∈ held w1 /\
    ThreadPool w1 = ThreadPool w /\ cpu w1 = cpu w /\ exists b, Processors w1 !! cpu w = Some b /\ Irq b = 0x7C.
Proof.
  intros Hw H0 Hc. pose proof (iw_procs _ Hw) as Hl.
  destruct (lookup_lt_is_Some_2 (Processors w) (cpu w)) as [b Hb]; [rewrite Hl; apply Hw|].
  destruct (lookup_lt_is_Some_2 (Cpus w) (cpu w)) as [c Hcp]; [rewrite (iw_cpus _ Hw); apply Hw|].
  pose proof (iw_id _ Hw _ _ Hb) as Hid.
  unfold threading_shutdown_start, thread_get_processor_block, thread_disable_interrupts, ipi_send_packet, thread_get_processor_block.
  norm. rewrite gets_run. norm. rewrite gets_run. norm. rewrite (pr_get_run _ _ _ b) by done.
  rewrite (proj2 (Z.eqb_neq _ _) Hc). rewrite Hid.
  replace (nz (Z.of_nat (cpu w))) with false by (by rewrite H0). cbn [orb]. cbn iota.
  rewrite (raise_irql_run w b c) by done. norm. rewrite (cpu_get_run _ _ c) by done. norm.
  rewrite cpu_upd_run by (by eexists). rt. norm. rewrite lock_run by apply Hw. norm. rewrite modify_run. norm.
  match goal with |- context [bind (for_each _ _) _ ?x] => set (s := x) end.
  assert (length (Processors s) = 6%nat) as Hls by (unfold s; cbn; by rewrite length_alter).
  assert (forall i, LIpi i ∉ held s) as Hhs.
  { intros i. unfold s. cbn. pose proof (iw_locks _ Hw i). set_solver. }
  assert (Processors s !! cpu w = Some (b <| Irq := u8 0x7C |>)) as Hbs by exact (lookup_alter_eq_Some _ _ _ _ Hb).
  assert (forall i, i <> cpu w -> Processors s !! i = Processors w !! i) as Hos.
  { intros i Hi. unfold s. cbn. by rewrite lookup_alter_ne_list. }
  assert (forall i, i <> cpu w -> Cpus s !! i = Cpus w !! i) as Hcs.
  { intros i Hi. unfold s. cbn. by rewrite lookup_alter_ne_list. }
  assert (wait_ s = wait_ w /\ LIpiGlobal ∈ held s /\ ThreadPool s = ThreadPool w /\ cpu s = cpu w) as (Es1 & Es2 & Es3 & Es4).
  { unfold s. cbn. split_and!; [done|set_solver|done|done]. }
  clearbody s. rewrite (packet_run idle_addr 0 count w Hw s) by done. norm. rewrite gets_run. norm.
  change (cpu (set Processors ?f s)) with (cpu s). rewrite Es4.
  assert (packet_blocks idle_addr 0 count w (Processors s) !! cpu w = Some (b <| Irq := u8 0x7C |>)) as Hbp.
  { by rewrite packet_blocks_self. }
  rewrite (pr_get_run _ _ _ (b <| Irq := u8 0x7C |>)) by exact Hbp.
  unfold store. norm. rewrite modify_run. eexists. split; [reflexivity|].
  split_and!; [|done|done|done|done|by exists (b <| Irq := u8 0x7C |>)].
  intros i Hi. assert (i <> cpu w) as Hne by lia.
  destruct (lookup_lt_is_Some_2 (Processors w) i) as [bi Hbi]; [lia|]. split_and!.
  - exists (asked idle_addr 0 count false bi). split_and!; [|exact (iw_id _ Hw _ _ Hbi)|exact (iw_table _ Hw _ _ Hbi)|done].
    change (packet_blocks idle_addr 0 count w (Processors s) !! i = Some (asked idle_addr 0 count false bi)).
    rewrite packet_blocks_other, Hos, Hbi by (done || lia). done.
  - change (is_Some (Cpus s !! i)). rewrite Hcs by done. apply lookup_lt_is_Some. rewrite (iw_cpus _ Hw). lia.
  - exact (Hhs i).
Qed.

Lemma all_others (l : list nat) : NoDup l -> (forall i, i ∈ l -> (1 <= i < 6)%nat) ->
  length l = 5%nat <-> forall i, (1 <= i < 6)%nat -> i ∈ l.
Proof.
  intros Hnd Hl. assert (l ⊆ seq 1 5) as Hsub by (intros i Hi%Hl; apply elem_of_seq; lia). split.
  - intros H5 i Hi. assert (l ≡ₚ seq 1 5) as ->; [|apply elem_of_seq; lia].
    apply submseteq_length_Permutation; [by apply NoDup_submseteq|by rewrite H5].
  - intros Hall. apply Nat.le_antisymm.
    + by apply (submseteq_length l (seq 1 5)), NoDup_submseteq.
    + apply (submseteq_length (seq 1 5) l), NoDup_submseteq; [apply NoDup_seq|].
      intros i Hi%elem_of_seq. apply Hall. lia.
Qed.

(** C33: shutting down parks the other processors.  On processor 0 of a running
    machine, whatever set [l] of the others has taken the request and in
    whatever order, [threading_shutdown] is still waiting while one is missing
    and returns, with the mark that threading runs cleared, once all five are
    parked; no thread object has changed.  It leaves the lock of the
    inter-processor calls and those of the parked processors taken, so that
    every later [thread_send_ipi] is stuck. *)
Theorem shutdown_parks w count l :
  ipi_wf w -> cpu w = 0%nat -> threading_init_check w <> 0 -> length (wait_ w) = 12%nat ->
  (forall i z, (1 <= i < 6)%nat -> wait_ w !! (i * 2)%nat = Some z -> z <> 0) ->
  NoDup l -> (forall i, i ∈ l -> (1 <= i < 6)%nat) ->
  exists w1 w2, threading_shutdown_start idle_addr count w = Ok true w1 /\
    for_each l (fun i => on_cpu i (park_ipi idle_addr load)) w1 = Ok tt w2 /\
    ThreadPool w2 = ThreadPool w /\ (forall i, i ∈ l -> LIpi i ∈ held w2) /\
    threading_shutdown_finish w2 = (if decide (length l = 5%nat) then Ok tt (shut w2) else Blocked) /\
    forall e c n, thread_send_ipi_packet e c n (shut w2) = Blocked.
Proof.
  intros Hw H0 Hc Hwait Hbusy Hnd Hl.
  destruct (shutdown_asks count w Hw H0 Hc) as (w1 & E1 & Hp & Ew & Hg & Et & Ec & b & Hb & HI).
  destruct (parks_run l w1 Hnd) as (w2 & E2 & Hz & Hk & Hh & Hlk & Et2 & Ec2 & Hb2).
  { intros i Hi%Hl. rewrite Ec, H0. split_and!; [lia|lia|auto]. }
  { by rewrite Ew. }
  rewrite Ec, Hb in Hb2. exists w1, w2. split_and!; [done|done|congruence|done| |].
  - pose proof (all_others l Hnd Hl) as Hfull.
    destruct (finish_waits w2) as [Hok Hbl].
    { intros i Hi. destruct (decide (i ∈ l)) as [Hin|Hin]; [rewrite Hz by done; by eexists|].
      rewrite Hk, Ew by done. apply lookup_lt_is_Some. lia. }
    case_decide as H5.
    + apply Hok. intros i Hi. apply Hz. by apply Hfull.
    + apply Hbl. destruct (decide (Exists (fun i => i ∉ l) (seq 1 5))) as [(i & Hi%elem_of_seq & Hn)%Exists_exists|Hall].
      * destruct (lookup_lt_is_Some_2 (wait_ w) (i * 2)) as [z E]; [lia|].
        exists i, z. split; [lia|]. split; [by rewrite Hk, Ew|eapply Hbusy; [|done]; lia].
      * destruct H5. apply Hfull. intros i Hi. destruct (decide (i ∈ l)); [done|]. destruct Hall.
        apply Exists_exists. exists i. split; [apply elem_of_seq; lia|done].
  - intros e c n. unfold thread_send_ipi_packet, thread_get_processor_block. norm. rewrite modify_run. norm. rewrite gets_run. norm.
    change (cpu (set Counters ?f (shut w2))) with (cpu w2). rewrite Ec2, Ec.
    rewrite (pr_get_run _ _ _ b) by done. rewrite HI. change (0x7C <? 2) with false. cbn iota. rt.
    unfold bind at 1, lock. rewrite decide_True; [done|]. exact (Hh _ Hg).
Qed.
End shutdown.

(** Three of the other processors parked: still waiting. *)
Definition six_main : world := six <| cpu := 0%nat |>.

Lemma six_main_wf : ipi_wf six_main.
Proof. destruct six_wf. by split; [..|cbn; lia|done|done|done|done|done]. Qed.

Lemma shutdown_parks_demo : exists w1 w2,
  threading_shutdown_start 0x5000 0 six_main = Ok true w1 /\
  for_each [5; 1; 3]%nat (fun i => on_cpu i (park_ipi 0x5000 six_load)) w1 = Ok tt w2 /\
  threading_shutdown_finish w2 = Blocked.
Proof.
  destruct (shutdown_parks six_load 0x5000 six_main 0 [5; 1; 3]%nat) as (w1 & w2 & H1 & H2 & _ & _ & H3 & _).
  - exact six_main_wf.
  - reflexivity.
  - by vm_compute.
  - reflexivity.
  - intros i z Hi Hz. do 6 (destruct i as [|i]; [cbn in Hz; by simplify_eq|]). lia.
  - repeat constructor; set_solver.
  - intros i Hi. set_unfold in Hi. lia.
  - by exists w1, w2.
Defined.

(** From switching on to the second start: threading is started, shut down
    with all processors parked, and started again. *)
Definition switched_on : world :=
  mkWorld 0 (replicate 6 (mkCPU 0x1000 [] 0 0)) (PROCESSOR_zero <$> [0; 1; 2; 3; 4; 5]) [] None None
    ∅ ∅ ∅ ∅ ∅ ∅ ∅ 0 0 0 50000 0 0 (replicate 12 0) [].
Definition bump (h : gset Z) (_ : Z) : option Z := Some (0x100000 + 0x10000 * Z.of_nat (size h)).
Definition start_and_stop : K unit :=
  threading_init bump 0x6000 0x7000 ;;
  threading_shutdown_start 0x5000 0 ;;
  for_each [1; 2; 3; 4; 5]%nat (fun i => on_cpu i (park_ipi 0x5000 six_load)) ;;
  threading_shutdown_finish.

Definition marks (o : outcome world unit) : option (Z * Z) :=
  match o with Ok _ w => Some (threading_init_check w, threads_online w) | _ => None end.

Lemma start_and_stop_marks : marks (start_and_stop switched_on) = Some (0, 6).
Proof. vm_compute. reflexivity. Qed.

Lemma restart_hangs_demo : exists w, start_and_stop switched_on = Ok tt w /\
  forall w', threading_init bump 0x6000 0x7000 w <> Ok tt w'.
Proof.
  pose proof start_and_stop_marks as Hm.
  destruct (start_and_stop switched_on) as [[] w| | |]; cbn in Hm; [|done..]. injection Hm as H1 H2.
  exists w. split; [done|]. by apply restart_hangs.
Defined.
