(* ===== verification/Breakpoint.v ===== *)
(** * Breakpoints of the debugger: [drivers/threads/breakpoint.c]

    A table of breakpoints and the code they are patched into, a memory of
    words; a store outside the memory is [Fault].  The flushes of the
    instruction cache have no effect on the state modelled.  The theorem says
    that the table implements a finite map from addresses to "on" or "off" of
    at most a hundred entries, and the code is the program with the entries
    that are on patched in. *)
From S2P Require Import Prelude.

Definition BREAKPOINT_INSTR : Z := 0x0FE00016.
Definition MAX_BREAKPOINTS : nat := 100.

Record BREAKPOINT := mkBP { instruction : Z; bp_addr : Z; bp_valid : Z }.
#[global] Instance eta_BREAKPOINT : Eta BREAKPOINT := fun r => mkBP (instruction r) (bp_addr r) (bp_valid r).

Record bp_state := mkBPs { breakpoints : list BREAKPOINT; code : gmap Z Z }.
#[global] Instance eta_bp_state : Eta bp_state := fun r => mkBPs (breakpoints r) (code r).

(** ** The code *)

(** The first entry with a property, from [i] on. *)
Fixpoint first_entry (f : BREAKPOINT -> bool) (i : nat) (l : list BREAKPOINT) : option nat :=
  match l with
  | [] => None
  | b :: l' => if f b then Some i else first_entry f (S i) l'
  end.

Definition get_breakpoint (addr : Z) : M bp_state (option nat) :=
  gets (fun s => first_entry (fun b => nz (bp_valid b) && (bp_addr b =? addr)) 0 (breakpoints s)).

Definition code_load (addr : Z) : M bp_state Z := fun s =>
  match code s !! addr with Some v => Ok v s | None => Fault end.
Definition code_store (addr v : Z) : M bp_state unit := fun s =>
  match code s !! addr with
  | Some _ => Ok tt (s <| code ::= <[addr := v]> |>)
  | None => Fault
  end.
Definition bp_upd (i : nat) (f : BREAKPOINT -> BREAKPOINT) : M bp_state unit :=
  modify (fun s => s <| breakpoints ::= alter f i |>).
Definition bp_instruction (i : nat) : M bp_state Z := fun s =>
  match breakpoints s !! i with Some b => Ok (instruction b) s | None => Fault end.

Definition set_breakpoint (addr : Z) : M bp_state unit :=
  old <- get_breakpoint addr ;;
  match old with
  | Some _ => ret tt
  | None =>
      bp <- gets (fun s => first_entry (fun b => negb (nz (bp_valid b))) 0 (breakpoints s)) ;;
      match bp with
      | None => ret tt
      | Some i =>
          bp_upd i (set bp_valid (fun _ => 1)) ;;
          bp_upd i (set bp_addr (fun _ => addr)) ;;
          v <- code_load addr ;;
          bp_upd i (set instruction (fun _ => v)) ;;
          code_store addr BREAKPOINT_INSTR
      end
  end.

Definition remove_breakpoint (addr : Z) : M bp_state unit :=
  bp <- get_breakpoint addr ;;
  match bp with
  | None => ret tt
  | Some i =>
      v <- bp_instruction i ;;
      code_store addr v ;;
      bp_upd i (set bp_valid (fun _ => 0))
  end.

Definition enable_breakpoint (addr : Z) : M bp_state unit :=
  bp <- get_breakpoint addr ;;
  match bp with
  | None => ret tt
  | Some _ => code_store addr BREAKPOINT_INSTR
  end.

Definition disable_breakpoint (addr : Z) : M bp_state unit :=
  bp <- get_breakpoint addr ;;
  match bp with
  | None => ret tt
  | Some i => v <- bp_instruction i ;; code_store addr v
  end.

(** The calls of a debugger. *)
Inductive bp_op := Set_bp (a : Z) | Remove_bp (a : Z) | Enable_bp (a : Z) | Disable_bp (a : Z).

Definition bp_run (op : bp_op) : M bp_state unit :=
  match op with
  | Set_bp a => set_breakpoint a
  | Remove_bp a => remove_breakpoint a
  | Enable_bp a => enable_breakpoint a
  | Disable_bp a => disable_breakpoint a
  end.

(** ** What the table promises *)

(** Which breakpoints there are, and whether they are on. *)
Definition bp_spec (op : bp_op) (T : gmap Z bool) : gmap Z bool :=
  match op with
  | Set_bp a => if decide (is_Some (T !! a) \/ (MAX_BREAKPOINTS <= size T)%nat) then T else <[a := true]> T
  | Remove_bp a => delete a T
  | Enable_bp a => if decide (is_Some (T !! a)) then <[a := true]> T else T
  | Disable_bp a => if decide (is_Some (T !! a)) then <[a := false]> T else T
  end.

(** The program with the breakpoints that are on. *)
Definition patched (O : gmap Z Z) (T : gmap Z bool) : gmap Z Z :=
  map_imap (fun a v => Some (if decide (T !! a = Some true) then BREAKPOINT_INSTR else v)) O.

Definition op_addr (op : bp_op) : Z :=
  match op with Set_bp a | Remove_bp a | Enable_bp a | Disable_bp a => a end.

(** ** Entries in use *)

Definition used (b : BREAKPOINT) : list Z := if nz (bp_valid b) then [bp_addr b] else [].
Definition used_addrs (l : list BREAKPOINT) : list Z := l ≫= used.

Lemma first_entry_Some f l : forall k i, first_entry f k l = Some i ->
  exists j b, i = (k + j)%nat /\ l !! j = Some b /\ f b = true.
Proof.
  induction l as [|b l IH]; intros k i H; cbn in H; [done|]. destruct (f b) eqn:E.
  - injection H as <-. exists 0%nat, b. split; [lia|done].
  - apply IH in H as (j & b' & -> & Hj & Hf). exists (S j), b'. split; [lia|done].
Qed.

Lemma first_entry_None f l : forall k, first_entry f k l = None -> forall b, b ∈ l -> f b = false.
Proof.
  induction l as [|c l IH]; intros k H b Hb; [set_solver|]. cbn in H. destruct (f c) eqn:E; [done|].
  apply elem_of_cons in Hb as [->|Hb]; [done|by eapply IH].
Qed.

Lemma used_update l i b b' : l !! i = Some b ->
  used b ++ used_addrs (<[i := b']> l) ≡ₚ used b' ++ used_addrs l.
Proof.
  intros H. pose proof (lookup_lt_Some _ _ _ H) as Hi. rewrite <- (take_drop_middle l i b H) at 2. rewrite insert_take_drop by done.
  unfold used_addrs. rewrite !bind_app, !bind_cons. solve_Permutation.
Qed.

(** ** The invariant *)

Section facts.
Context (O : gmap Z Z).

Record bp_inv (T : gmap Z bool) (s : bp_state) : Prop := {
  bi_len : length (breakpoints s) = MAX_BREAKPOINTS;
  bi_nodup : NoDup (used_addrs (breakpoints s));
  bi_dom a : a ∈ used_addrs (breakpoints s) <-> is_Some (T !! a);
  bi_saved b : b ∈ breakpoints s -> nz (bp_valid b) = true -> O !! bp_addr b = Some (instruction b);
  bi_code : code s = patched O T
}.

Lemma used_elem l a : a ∈ used_addrs l <-> exists b, b ∈ l /\ nz (bp_valid b) = true /\ bp_addr b = a.
Proof.
  unfold used_addrs. rewrite list_elem_of_bind. unfold used. split.
  - intros (b & Ha & Hb). exists b. destruct (nz (bp_valid b)); set_solver.
  - intros (b & Hb & Hv & <-). exists b. rewrite Hv. set_solver.
Qed.

(** *** Looking breakpoints up *)

Lemma get_found T s a : bp_inv T s -> is_Some (T !! a) ->
  exists i b, get_breakpoint a s = Ok (Some i) s /\ breakpoints s !! i = Some b /\
    nz (bp_valid b) = true /\ bp_addr b = a /\ O !! a = Some (instruction b).
Proof.
  intros Hi Ha%(bi_dom _ _ Hi). unfold get_breakpoint, gets.
  destruct (first_entry _ 0 (breakpoints s)) as [i|] eqn:E.
  - apply first_entry_Some in E as (j & b & -> & Hj & [Hv Hb%Z.eqb_eq]%andb_prop). exists (0 + j)%nat, b.
    split_and!; [done|done|done|done|]. rewrite <- Hb. eapply (bi_saved _ _ Hi); [by eapply list_elem_of_lookup_2|done].
  - exfalso. apply used_elem in Ha as (b & Hb & Hv & <-).
    apply (first_entry_None _ _ _ E) in Hb. by rewrite Hv, Z.eqb_refl in Hb.
Qed.

Lemma get_missing T s a : bp_inv T s -> ~ is_Some (T !! a) -> get_breakpoint a s = Ok None s.
Proof.
  intros Hi Ha. unfold get_breakpoint, gets. destruct (first_entry _ 0 (breakpoints s)) as [i|] eqn:E; [|done].
  exfalso. apply Ha, (bi_dom _ _ Hi), used_elem.
  apply first_entry_Some in E as (j & b & _ & Hj & [Hv Hb%Z.eqb_eq]%andb_prop). exists b. eauto using list_elem_of_lookup_2.
Qed.

Lemma used_size T s : bp_inv T s -> size T = length (used_addrs (breakpoints s)).
Proof.
  intros Hi. rewrite <- size_dom. rewrite <- (size_list_to_set (C := gset Z) _ (bi_nodup _ _ Hi)). f_equal.
  apply set_eq. intros a. rewrite elem_of_dom, elem_of_list_to_set. symmetry. apply (bi_dom _ _ Hi).
Qed.

Lemma used_cons b l : used_addrs (b :: l) = used b ++ used_addrs l.
Proof. done. Qed.

Lemma length_used b : length (used b) = if nz (bp_valid b) then 1%nat else 0%nat.
Proof. unfold used. by destruct (nz (bp_valid b)). Qed.

Lemma used_le l : (length (used_addrs l) <= length l)%nat.
Proof.
  induction l as [|b l IH]; [done|]. rewrite used_cons, length_app, length_used, length_cons.
  destruct (nz (bp_valid b)); lia.
Qed.

Lemma used_full l : length (used_addrs l) = length l <-> forall b, b ∈ l -> nz (bp_valid b) = true.
Proof.
  induction l as [|b l IH]; [set_solver|]. rewrite used_cons, length_app, length_used, length_cons. split.
  - intros H c Hc. pose proof (used_le l). destruct (nz (bp_valid b)) eqn:E; [|lia].
    apply elem_of_cons in Hc as [->|Hc]; [done|]. apply IH; [lia|done].
  - intros H. rewrite (H b) by set_solver. assert (length (used_addrs l) = length l); [|lia]. apply IH. set_solver.
Qed.

(** *** The code with one breakpoint changed *)

Lemma patched_lookup T a : patched O T !! a = (fun v => if decide (T !! a = Some true) then BREAKPOINT_INSTR else v) <$> O !! a.
Proof. unfold patched. rewrite map_lookup_imap. by destruct (O !! a). Qed.

Lemma patched_change T T' a v : O !! a = Some v -> (forall b, b <> a -> T' !! b = T !! b) ->
  <[a := if decide (T' !! a = Some true) then BREAKPOINT_INSTR else v]> (patched O T) = patched O T'.
Proof.
  intros Ha Hb. apply map_eq. intros c. rewrite patched_lookup. destruct (decide (a = c)) as [<-|Hne].
  - rewrite lookup_insert_eq, Ha. done.
  - rewrite lookup_insert_ne, patched_lookup, Hb by done. done.
Qed.

Lemma store_run T s a v : bp_inv T s -> is_Some (O !! a) ->
  code_store a v s = Ok tt (s <| code := <[a := v]> (patched O T) |>).
Proof.
  intros Hi [x Hx]. unfold code_store. rewrite (bi_code _ _ Hi), patched_lookup, Hx. cbn. f_equal. f_equal.
  unfold set. cbn. by rewrite (bi_code _ _ Hi).
Qed.

(** A change of the code only. *)
Lemma inv_switch T s a b v : bp_inv T s -> is_Some (T !! a) -> O !! a = Some v ->
  bp_inv (<[a := b]> T) (s <| code := <[a := if decide (b = true) then BREAKPOINT_INSTR else v]> (patched O T) |>).
Proof.
  intros Hi Ha Hv. split; cbn; try apply Hi.
  - intros c. rewrite (bi_dom _ _ Hi). destruct (decide (a = c)) as [<-|Hne]; [rewrite lookup_insert_eq|by rewrite lookup_insert_ne].
    split; [by eexists|done].
  - rewrite <- (patched_change T (<[a := b]> T) a v Hv); [|intros c Hc; by rewrite lookup_insert_ne].
    rewrite lookup_insert_eq. f_equal. repeat case_decide; congruence.
Qed.

Lemma enable_run T s a : bp_inv T s -> is_Some (O !! a) -> runs (enable_breakpoint a) s (fun _ s' => bp_inv (bp_spec (Enable_bp a) T) s').
Proof.
  intros Hi Ho. unfold enable_breakpoint. cbn [bp_spec]. case_decide as Ht.
  - destruct (get_found _ _ _ Hi Ht) as (i & b & E & Hb & Hv & Hba & Hsaved).
    eexists tt, _. rewrite (bind_ok _ _ _ _ _ E). split; [by apply (store_run T)|].
    exact (inv_switch T s a true _ Hi Ht Hsaved).
  - exists tt, s. by rewrite (bind_ok _ _ _ _ _ (get_missing _ _ _ Hi Ht)).
Qed.

Lemma disable_run T s a : bp_inv T s -> is_Some (O !! a) -> runs (disable_breakpoint a) s (fun _ s' => bp_inv (bp_spec (Disable_bp a) T) s').
Proof.
  intros Hi Ho. unfold disable_breakpoint. cbn [bp_spec]. case_decide as Ht.
  - destruct (get_found _ _ _ Hi Ht) as (i & b & E & Hb & Hv & Hba & Hsaved).
    eexists tt, _. rewrite (bind_ok _ _ _ _ _ E). split.
    + unfold bind, bp_instruction. rewrite Hb. by apply (store_run T).
    + exact (inv_switch T s a false _ Hi Ht Hsaved).
  - exists tt, s. by rewrite (bind_ok _ _ _ _ _ (get_missing _ _ _ Hi Ht)).
Qed.

(** *** Changing an entry *)

Lemma alter_as_insert {A} (f : A -> A) (i : nat) (l : list A) x : l !! i = Some x -> alter f i l = <[i := f x]> l.
Proof.
  intros H. apply list_eq. intros j. rewrite list_lookup_alter. destruct (decide (i = j)) as [<-|Hne].
  - rewrite H, list_lookup_insert_eq; [done|]. by eapply lookup_lt_Some.
  - by rewrite list_lookup_insert_ne.
Qed.

(** Entries saved: the entry [i] is replaced by one that is not in use or saved. *)
Lemma saved_update (l : list BREAKPOINT) i b' :
  (forall b, b ∈ l -> nz (bp_valid b) = true -> O !! bp_addr b = Some (instruction b)) ->
  (nz (bp_valid b') = true -> O !! bp_addr b' = Some (instruction b')) ->
  forall b, b ∈ <[i := b']> l -> nz (bp_valid b) = true -> O !! bp_addr b = Some (instruction b).
Proof.
  intros Hl Hb' b [j Hj]%list_elem_of_lookup Hv. apply list_lookup_insert_Some in Hj as [(_ & <- & _)|[_ Hj]]; [auto|].
  apply Hl; [by eapply list_elem_of_lookup_2|done].
Qed.

Lemma remove_run T s a : bp_inv T s -> is_Some (O !! a) -> runs (remove_breakpoint a) s (fun _ s' => bp_inv (bp_spec (Remove_bp a) T) s').
Proof.
  intros Hi Ho. unfold remove_breakpoint. cbn [bp_spec]. destruct (decide (is_Some (T !! a))) as [Ht|Ht].
  2:{ exists tt, s. rewrite (bind_ok _ _ _ _ _ (get_missing _ _ _ Hi Ht)). rewrite delete_id; [done|]. by apply eq_None_not_Some. }
  destruct (get_found _ _ _ Hi Ht) as (i & b & E & Hb & Hv & Hba & Hsaved).
  eexists tt, _. rewrite (bind_ok _ _ _ _ _ E). unfold bind at 1, bp_instruction. rewrite Hb.
  rewrite (bind_ok _ _ _ _ _ (store_run T s a _ Hi Ho)). split; [reflexivity|].
  pose proof (used_update (breakpoints s) i b (b <| bp_valid := 0 |>) Hb) as Hu.
  unfold used at 1 2 in Hu. rewrite Hv, Hba in Hu. cbn [app nz negb Z.eqb] in Hu.
  pose proof (bi_nodup _ _ Hi) as Hnd. rewrite <- Hu in Hnd. apply NoDup_cons in Hnd as [Hna Hnd].
  split; cbn; rewrite ?(alter_as_insert _ _ _ b) by done.
  - rewrite length_insert. apply Hi.
  - done.
  - intros c. destruct (decide (a = c)) as [<-|Hne].
    + rewrite lookup_delete_eq. split; [done|by intros []].
    + rewrite lookup_delete_ne, <- (bi_dom _ _ Hi), <- Hu by done. set_solver.
  - apply saved_update; [apply Hi|done].
  - rewrite <- (patched_change T (delete a T) a _ Hsaved); [|intros c Hc; by rewrite lookup_delete_ne].
    by rewrite decide_False by (by rewrite lookup_delete_eq).
Qed.

Lemma free_entry T s : bp_inv T s -> (size T < MAX_BREAKPOINTS)%nat ->
  exists i b, first_entry (fun b => negb (nz (bp_valid b))) 0 (breakpoints s) = Some i /\ breakpoints s !! i = Some b /\ nz (bp_valid b) = false.
Proof.
  intros Hi Hs. destruct (first_entry _ 0 (breakpoints s)) as [i|] eqn:E.
  - apply first_entry_Some in E as (j & b & -> & Hj & Hf%negb_true_iff). by exists (0 + j)%nat, b.
  - exfalso. rewrite (used_size _ _ Hi), <- (bi_len _ _ Hi) in Hs.
    assert (length (used_addrs (breakpoints s)) = length (breakpoints s)); [|lia]. apply used_full.
    intros b Hb. apply (first_entry_None _ _ _ E) in Hb. by apply negb_false_iff.
Qed.

Lemma no_free_entry T s : bp_inv T s -> (MAX_BREAKPOINTS <= size T)%nat ->
  first_entry (fun b => negb (nz (bp_valid b))) 0 (breakpoints s) = None.
Proof.
  intros Hi Hs. destruct (first_entry _ 0 (breakpoints s)) as [i|] eqn:E; [|done]. exfalso.
  apply first_entry_Some in E as (j & b & _ & Hj & Hf%negb_true_iff).
  rewrite (used_size _ _ Hi), <- (bi_len _ _ Hi) in Hs. pose proof (used_le (breakpoints s)).
  assert (nz (bp_valid b) = true); [|congruence]. apply (used_full (breakpoints s)); [lia|by eapply list_elem_of_lookup_2].
Qed.

Lemma set_entry_run s i a b v : breakpoints s !! i = Some b -> code s !! a = Some v ->
  (bp_upd i (set bp_valid (fun _ => 1)) ;; bp_upd i (set bp_addr (fun _ => a)) ;;
   x <- code_load a ;; bp_upd i (set instruction (fun _ => x)) ;; code_store a BREAKPOINT_INSTR) s =
  Ok tt (mkBPs (<[i := mkBP v a 1]> (breakpoints s)) (<[a := BREAKPOINT_INSTR]> (code s))).
Proof.
  intros Hb Hv. unfold bp_upd, code_load, code_store, bind, modify. cbn. rewrite Hv. cbn. rewrite Hv.
  f_equal. unfold set. cbn. f_equal. rewrite !list_alter_twice. by rewrite (alter_as_insert _ _ _ b Hb).
Qed.

Lemma set_run T s a : bp_inv T s -> is_Some (O !! a) -> runs (set_breakpoint a) s (fun _ s' => bp_inv (bp_spec (Set_bp a) T) s').
Proof.
  intros Hi [v Ho]. unfold set_breakpoint. cbn [bp_spec]. destruct (decide (is_Some (T !! a))) as [Ht|Ht].
  { destruct (get_found _ _ _ Hi Ht) as (i & b & E & _). exists tt, s. rewrite (bind_ok _ _ _ _ _ E).
    by rewrite decide_True by auto. }
  unfold runs. rewrite (bind_ok _ _ _ _ _ (get_missing _ _ _ Hi Ht)). unfold bind at 1, gets.
  destruct (decide (MAX_BREAKPOINTS <= size T)%nat) as [Hf|Hf].
  { rewrite (no_free_entry _ _ Hi Hf), decide_True by auto. by exists tt, s. }
  rewrite decide_False by tauto. destruct (free_entry _ _ Hi) as (i & b & -> & Hb & Hv); [lia|].
  assert (code s !! a = Some v) as Hc.
  { rewrite (bi_code _ _ Hi), patched_lookup, Ho. cbn. rewrite decide_False; [done|]. intros E. apply Ht. by eexists. }
  eexists tt, _. split; [exact (set_entry_run s i a b v Hb Hc)|].
  pose proof (used_update (breakpoints s) i b (mkBP v a 1) Hb) as Hu.
  unfold used at 1 2 in Hu. rewrite Hv in Hu. cbn in Hu.
  split; cbn.
  - rewrite length_insert. apply Hi.
  - rewrite Hu. apply NoDup_cons. split; [by rewrite (bi_dom _ _ Hi)|apply Hi].
  - intros c. rewrite Hu, elem_of_cons, (bi_dom _ _ Hi). destruct (decide (a = c)) as [<-|Hne].
    + rewrite lookup_insert_eq. split; [by eexists|auto].
    + rewrite lookup_insert_ne by done. naive_solver.
  - apply saved_update; [apply Hi|done].
  - rewrite (bi_code _ _ Hi), <- (patched_change T (<[a := true]> T) a _ Ho); [|intros c Hc'; by rewrite lookup_insert_ne].
    by rewrite lookup_insert_eq, decide_True.
Qed.

Lemma bp_run_spec op T s : bp_inv T s -> is_Some (O !! op_addr op) -> runs (bp_run op) s (fun _ s' => bp_inv (bp_spec op T) s').
Proof. destruct op; [apply set_run|apply remove_run|apply enable_run|apply disable_run]. Qed.

(** The table as the program starts with: static memory, all zero. *)
Definition bp_init : bp_state := mkBPs (replicate MAX_BREAKPOINTS (mkBP 0 0 0)) O.

Lemma bp_init_inv : bp_inv ∅ bp_init.
Proof.
  split; cbn [breakpoints code bp_init].
  - apply length_replicate.
  - constructor.
  - intros a. split; [by intros H%not_elem_of_nil|by intros []].
  - intros b [-> _]%elem_of_replicate. done.
  - apply map_eq. intros a. rewrite patched_lookup. by destruct (O !! a).
Qed.

(** C37: breakpoints refine a finite map.  Any sequence of settings, removals,
    enablings and disablings of breakpoints at addresses of the program runs
    without touching memory outside it; the code is then the program with a
    breakpoint instruction exactly at the addresses whose breakpoint is on, of
    at most a hundred; in particular, once every breakpoint is removed or
    disabled, the program is as it was. *)
Theorem breakpoints_refine_map ops :
  Forall (fun op => is_Some (O !! op_addr op)) ops ->
  let T := fold_left (fun T op => bp_spec op T) ops ∅ in
  runs (for_each ops bp_run) bp_init (fun _ s' =>
    code s' = patched O T /\ (size T <= MAX_BREAKPOINTS)%nat /\
    ((forall a, T !! a <> Some true) -> code s' = O)).
Proof.
  intros Hops. assert (forall T s, bp_inv T s -> runs (for_each ops bp_run) s (fun _ s' =>
    bp_inv (fold_left (fun T op => bp_spec op T) ops T) s')) as Hind.
  { induction Hops as [|op ops Hop _ IH]; intros T s Hs; cbn [for_each fold_left]; [by apply runs_ret|].
    apply runs_bind. eapply runs_mono; [|by apply (bp_run_spec op T)]. cbn. intros _ s' Hs'. by apply IH. }
  cbn zeta. eapply runs_mono; [|apply (Hind ∅), bp_init_inv]. cbn beta. intros _ s'.
  generalize (fold_left (fun T op => bp_spec op T) ops ∅). intros T Hs. split_and!.
  - apply Hs.
  - pose proof (used_le (breakpoints s')) as Hle. rewrite (bi_len _ _ Hs) in Hle. by rewrite (used_size _ _ Hs).
  - intros Hoff. rewrite (bi_code _ _ Hs). apply map_eq. intros a. rewrite patched_lookup.
    destruct (O !! a); [|done]. cbn. by rewrite decide_False by apply Hoff.
Qed.
End facts.

(** Two breakpoints in a small program, one disabled, one removed. *)
Lemma breakpoints_refine_map_demo :
  let O : gmap Z Z := {[ 0x80000000 := 0x38600001; 0x80000004 := 0x4E800020 ]} in
  runs (for_each [Set_bp 0x80000000; Set_bp 0x80000004; Disable_bp 0x80000000; Remove_bp 0x80000004] bp_run) (bp_init O)
    (fun _ s' => code s' = O).
Proof.
  cbn zeta. eapply runs_mono; [|apply breakpoints_refine_map; repeat constructor; by eexists].
  cbn beta zeta. intros _ s' (_ & _ & H). apply H. intros a.
  set (T := fold_left _ _ _). assert (T = {[ 0x80000000 := false ]}) as -> by by vm_compute.
  rewrite lookup_singleton. by case_decide.
Defined.
