(* ===== verification/Vm.v ===== *)
(** * User pages: [drivers/ppc/vm.c]

    The page table of the user area, 1280 MB from address 0x30000000 in pages
    of 64 KB, one word a page: the physical page with the access flags in the
    low 16 bits, zero for none.  [tlb] is the list of the addresses whose
    translation the processor has been told to forget, latest first.  A failing
    assertion and an index outside the table are [Fault]; the table itself does
    not check the end of a mapping. *)
From S2P Require Import Prelude Bits.

Definition VM_USER_PAGE_BITS : Z := 16.
Definition VM_USER_PAGE_SIZE : Z := 2 ^ 16.
Definition VM_USER_PAGE_MASK : Z := VM_USER_PAGE_SIZE - 1.
Definition USER_PAGES : nat := Z.to_nat (1280 * 1024 * 1024 / VM_USER_PAGE_SIZE).

Record vm_st := mkVm { userpagetable : list Z; tlb : list Z; vm_segfault_handler : Z }.
#[global] Instance eta_vm : Eta vm_st := fun r => mkVm (userpagetable r) (tlb r) (vm_segfault_handler r).

Definition MV (A : Type) : Type := M vm_st A.
Definition assert (b : bool) : MV unit := if b then ret tt else fault.
Definition page_get (i : Z) : MV Z := fun s =>
  if 0 <=? i then match userpagetable s !! Z.to_nat i with Some v => Ok v s | None => Fault end else Fault.
Definition page_set (i v : Z) : MV unit := fun s =>
  if (0 <=? i) && (i <? Z.of_nat (length (userpagetable s))) then Ok tt (s <| userpagetable ::= <[Z.to_nat i := v]> |>)
  else Fault.
Definition vm_invalidate_tlb (ea : Z) : MV unit := modify (fun s => s <| tlb ::= cons ea |>).

Definition vm_common_check_get_idx (virt_addr size : Z) : MV Z :=
  assert (negb (nz (virt_addr .& VM_USER_PAGE_MASK))) ;;
  assert (negb (nz (size .& VM_USER_PAGE_MASK))) ;;
  assert ((0x30000000 <=? virt_addr) && (virt_addr <? 0x80000000)) ;;
  ret ((virt_addr - 0x30000000) .>> VM_USER_PAGE_BITS).

(** The three loops walk over the pages in the same way: [body] is what they
    do with the page of index [i] at address [v], the [n]th of the mapping. *)
Fixpoint page_loop (fuel : nat) (body : Z -> Z -> Z -> MV unit) (size i v n : Z) : MV unit :=
  if size =? 0 then ret tt else
  match fuel with
  | O => diverge
  | S fuel =>
      body i v n ;;
      page_loop fuel body (s32 (size - VM_USER_PAGE_SIZE)) (i + 1) (u32 (v + VM_USER_PAGE_SIZE)) (n + 1)
  end.

(** Pages of a 31-bit size. *)
Definition vm_fuel : nat := Z.to_nat 65536.

Definition vm_create_user_mapping (virt_addr phys_addr size wimg : Z) : MV unit :=
  assert (negb (nz (phys_addr .& VM_USER_PAGE_MASK))) ;;
  page_idx <- vm_common_check_get_idx virt_addr size ;;
  let page_addr := phys_addr .| wimg in
  page_loop vm_fuel (fun i v n =>
    page_set i (u32 (page_addr + n * VM_USER_PAGE_SIZE)) ;;
    vm_invalidate_tlb v) size page_idx virt_addr 0.

Definition vm_destroy_user_mapping (virt_addr size : Z) : MV unit :=
  page_idx <- vm_common_check_get_idx virt_addr size ;;
  page_loop vm_fuel (fun i v _ =>
    page_set i 0 ;;
    vm_invalidate_tlb v) size page_idx virt_addr 0.

Definition vm_set_user_mapping_flags (virt_addr size wimg : Z) : MV unit :=
  page_idx <- vm_common_check_get_idx virt_addr size ;;
  page_loop vm_fuel (fun i v _ =>
    e <- page_get i ;;
    if nz e then
      page_set i (e .& not32 VM_USER_PAGE_MASK) ;;
      e <- page_get i ;;
      page_set i (u32 (e .| wimg)) ;;
      vm_invalidate_tlb v
    else ret tt) size page_idx virt_addr 0.

Definition vm_set_user_mapping_segfault_handler (handler : Z) : MV unit :=
  modify (fun s => s <| vm_segfault_handler := handler |>).

(** ** What the mappings promise *)

(** The table with the entries of pages [i] to [i + n - 1] replaced, the [k]th
    by [f k] of what it was. *)
Definition remap (i n : nat) (f : nat -> Z -> Z) (t : list Z) : list Z :=
  imap (fun j e => if decide (i <= j < i + n)%nat then f (j - i)%nat e else e) t.

Lemma remap_0 i f t : remap i 0 f t = t.
Proof.
  unfold remap. apply list_eq. intros j. rewrite list_lookup_imap. destruct (t !! j); [|done]. cbn -[decide].
  rewrite decide_False by lia. done.
Qed.

Lemma remap_S i n f t e : t !! i = Some e ->
  remap i (S n) f t = remap (S i) n (fun k => f (S k)) (<[i := f 0%nat e]> t).
Proof.
  intros H. unfold remap. pose proof (lookup_lt_Some _ _ _ H). apply list_eq. intros j. rewrite !list_lookup_imap.
  destruct (decide (j = i)) as [->|Hne].
  - rewrite list_lookup_insert_eq, H by done. cbn -[decide]. rewrite decide_True, decide_False by lia. by rewrite Nat.sub_diag.
  - rewrite list_lookup_insert_ne by done. destruct (t !! j); [|done]. cbn -[decide]. f_equal.
    repeat case_decide; first [lia|done|f_equal; lia].
Qed.

(** ** The loop *)

Lemma size_step n : Z.of_nat n < 32767 -> s32 (Z.of_nat (S n) * VM_USER_PAGE_SIZE - VM_USER_PAGE_SIZE) = Z.of_nat n * VM_USER_PAGE_SIZE.
Proof. intros H. change VM_USER_PAGE_SIZE with 65536. unfold s32. rewrite Z.mod_small; lia. Qed.

Section loop.
Context (body : Z -> Z -> Z -> MV unit) (g : nat -> Z -> Z) (h : Z -> bool).
(** The body replaces entry [e] by [g n e], and drops its translation if [h e]. *)
Context (Hbody : forall s i v n e, userpagetable s !! i = Some e ->
  body (Z.of_nat i) v (Z.of_nat n) s =
  Ok tt (s <| userpagetable ::= <[i := g n e]> |> <| tlb ::= fun l => if h e then v :: l else l |>)).

Lemma page_loop_run n : forall fuel s i k v,
  (n <= fuel)%nat -> Z.of_nat n < 32768 -> (i + n <= length (userpagetable s))%nat -> 0 <= v -> v + Z.of_nat n * VM_USER_PAGE_SIZE < 2 ^ 32 ->
  runs (page_loop fuel body (Z.of_nat n * VM_USER_PAGE_SIZE) (Z.of_nat i) v (Z.of_nat k)) s (fun _ s' =>
    userpagetable s' = remap i n (fun j => g (k + j)) (userpagetable s) /\
    vm_segfault_handler s' = vm_segfault_handler s /\ tlb s ⊆ tlb s' /\
    forall j e, (j < n)%nat -> userpagetable s !! (i + j)%nat = Some e -> h e = true -> v + Z.of_nat j * VM_USER_PAGE_SIZE ∈ tlb s').
Proof.
  assert (VM_USER_PAGE_SIZE = 65536) as HP by done.
  induction n as [|n IH]; intros fuel s i k v Hf Hn Hi Hv Hvn.
  - exists tt, s. destruct fuel; (split; [done|]); rewrite remap_0; (split_and!; [done|done|done|intros; lia]).
  - destruct fuel as [|fuel]; [lia|]. destruct (lookup_lt_is_Some_2 (userpagetable s) i) as [e He]; [lia|]. cbn [page_loop].
    rewrite (proj2 (Z.eqb_neq _ 0)) by lia. unfold runs. rewrite (bind_ok _ _ _ _ _ (Hbody s i v k e He)).
    rewrite size_step by lia.
    rewrite u32_small by lia. replace (Z.of_nat i + 1) with (Z.of_nat (S i)) by lia. replace (Z.of_nat k + 1) with (Z.of_nat (S k)) by lia.
    set (s1 := s <| userpagetable ::= _ |> <| tlb ::= _ |>).
    destruct (IH fuel s1 (S i) (S k) (v + VM_USER_PAGE_SIZE)) as ([] & s' & E & Ht & Hs & Hl & Hin); [lia|lia| |lia|lia|].
    { unfold s1. cbn. rewrite length_insert. lia. }
    exists tt, s'. split; [exact E|]. split_and!.
    + rewrite Ht, (remap_S i n _ _ e) by done. unfold s1. cbn. rewrite Nat.add_0_r. unfold remap. apply list_eq. intros j.
      rewrite !list_lookup_imap. destruct (<[i:=g k e]> (userpagetable s) !! j); [|done]. cbn -[decide]. case_decide; [|done].
      f_equal. f_equal. lia.
    + by rewrite Hs.
    + intros x Hx. apply Hl. unfold s1. cbn. destruct (h e); set_solver.
    + intros [|j] e' Hj He' Hh.
      * rewrite Nat.add_0_r, He in He'. injection He' as <-. apply Hl. unfold s1. cbn. rewrite Hh. rewrite Z.add_0_r. set_solver.
      * replace (v + Z.of_nat (S j) * VM_USER_PAGE_SIZE) with (v + VM_USER_PAGE_SIZE + Z.of_nat j * VM_USER_PAGE_SIZE) by lia.
        apply (Hin j e'); [lia| |done]. unfold s1. cbn. rewrite list_lookup_insert_ne by lia. by rewrite <- Nat.add_succ_comm in He'.
Qed.

Context (Hout : forall s i v n, (length (userpagetable s) <= i)%nat -> body (Z.of_nat i) v (Z.of_nat n) s = Fault).

(** A mapping that does not fit the table. *)
Lemma page_loop_out n : forall fuel s i k v,
  (n <= fuel)%nat -> Z.of_nat n < 32768 -> (i <= length (userpagetable s))%nat -> (length (userpagetable s) < i + n)%nat ->
  page_loop fuel body (Z.of_nat n * VM_USER_PAGE_SIZE) (Z.of_nat i) v (Z.of_nat k) s = Fault.
Proof.
  assert (VM_USER_PAGE_SIZE = 65536) as HP by done.
  induction n as [|n IH]; intros fuel s i k v Hf Hn Hi Hout'; [lia|].
  destruct fuel as [|fuel]; [lia|]. cbn [page_loop]. rewrite (proj2 (Z.eqb_neq _ 0)) by lia.
  destruct (decide (i = length (userpagetable s))) as [->|Hne].
  - unfold bind at 1. by rewrite Hout by done.
  - destruct (lookup_lt_is_Some_2 (userpagetable s) i) as [e He]; [lia|]. rewrite (bind_ok _ _ _ _ _ (Hbody s i v k e He)).
    rewrite size_step by lia.
    replace (Z.of_nat i + 1) with (Z.of_nat (S i)) by lia. replace (Z.of_nat k + 1) with (Z.of_nat (S k)) by lia.
    apply IH; [lia|lia|cbn; rewrite length_insert; lia..].
Qed.
End loop.

(** ** Entries *)

Lemma land_page_mask a : a .& VM_USER_PAGE_MASK = a mod VM_USER_PAGE_SIZE.
Proof. change VM_USER_PAGE_MASK with (Z.ones 16). by apply Z.land_ones. Qed.

Lemma page_or p w : p mod VM_USER_PAGE_SIZE = 0 -> 0 <= w < VM_USER_PAGE_SIZE -> p .| w = p + w.
Proof.
  intros Hp Hw. symmetry. apply Z.add_nocarry_lor. bitwise k Hk. rewrite Z.land_spec, Z.bits_0.
  destruct (Z.ltb_spec k 16).
  - rewrite <- (Z.mod_pow2_bits_low p 16) by lia. change (2 ^ 16) with VM_USER_PAGE_SIZE. by rewrite Hp, Z.bits_0.
  - rewrite (high_bits w 16 k); [apply andb_false_r|done|lia].
Qed.

Lemma frame_of e : is_word e -> e .& not32 VM_USER_PAGE_MASK = e - e mod VM_USER_PAGE_SIZE.
Proof.
  intros He. assert (e .& not32 VM_USER_PAGE_MASK = Z.ldiff e (Z.ones 16)) as ->.
  { change (not32 VM_USER_PAGE_MASK) with (Z.ldiff (Z.ones 32) (Z.ones 16)). bitwise k Hk.
    rewrite Z.land_spec, !Z.ldiff_spec, andb_assoc. f_equal. destruct (Z.ltb_spec k 32).
    - by rewrite Z.ones_spec_low, andb_true_r by lia.
    - rewrite (high_bits e 32 k); [done|done|lia]. }
  rewrite Z.ldiff_ones_r, Z.shiftl_mul_pow2, Z.shiftr_div_pow2 by lia. change (2 ^ 16) with VM_USER_PAGE_SIZE.
  pose proof (Z.div_mod e VM_USER_PAGE_SIZE ltac:(done)). lia.
Qed.

(** The entry of a page: its frame and its flags. *)
Definition entry (frame flags : Z) : Z := u32 (frame + flags).

Lemma u32_page x : x mod VM_USER_PAGE_SIZE = 0 -> u32 x mod VM_USER_PAGE_SIZE = 0.
Proof.
  intros Hx. unfold u32. change (2 ^ 32) with (65536 * VM_USER_PAGE_SIZE).
  rewrite <- Znumtheory.Zmod_div_mod; try done. by exists 65536.
Qed.

Lemma u32_frame x w : x mod VM_USER_PAGE_SIZE = 0 -> 0 <= w < VM_USER_PAGE_SIZE -> u32 (x + w) = u32 x + w.
Proof.
  intros Hx Hw. pose proof (u32_page x Hx) as Hu. pose proof (u32_range x) as Hr.
  assert (u32 (x + w) = u32 (u32 x + w)) as -> by (unfold u32; by rewrite Zplus_mod_idemp_l).
  apply u32_small. pose proof (Z.div_mod (u32 x) VM_USER_PAGE_SIZE ltac:(done)) as Hd. rewrite Hu in Hd.
  change VM_USER_PAGE_SIZE with 65536 in *. lia.
Qed.

Lemma entry_spec x w : x mod VM_USER_PAGE_SIZE = 0 -> 0 <= w < VM_USER_PAGE_SIZE ->
  is_word (entry x w) /\ entry x w .& not32 VM_USER_PAGE_MASK = u32 x /\ entry x w .& VM_USER_PAGE_MASK = w /\
  u32 x mod VM_USER_PAGE_SIZE = 0.
Proof.
  intros Hx Hw. assert (is_word (entry x w)) as He by apply is_word_u32.
  assert (u32 x mod VM_USER_PAGE_SIZE = 0) as Hu.
  { by apply u32_page. }
  assert (entry x w mod VM_USER_PAGE_SIZE = w) as Hm.
  { unfold entry. rewrite u32_frame by done. rewrite <- Zplus_mod_idemp_l, Hu. by apply Z.mod_small. }
  split_and!; [done| | |done].
  - rewrite frame_of, Hm by done. unfold entry. rewrite u32_frame by done. lia.
  - by rewrite land_page_mask.
Qed.

(** ** The operations *)

Definition user_addr (i : nat) : Z := 0x30000000 + Z.of_nat i * VM_USER_PAGE_SIZE.

Lemma remap_in i n f t k e : (k < n)%nat -> t !! (i + k)%nat = Some e -> remap i n f t !! (i + k)%nat = Some (f k e).
Proof.
  intros Hk H. unfold remap. rewrite list_lookup_imap, H. cbn -[decide]. rewrite decide_True by lia. do 2 f_equal. lia.
Qed.
Lemma remap_out i n f t j : (j < i \/ i + n <= j)%nat -> remap i n f t !! j = t !! j.
Proof.
  intros Hj. unfold remap. rewrite list_lookup_imap. destruct (t !! j); [|done]. cbn -[decide]. by rewrite decide_False by lia.
Qed.
Lemma length_remap i n f t : length (remap i n f t) = length t.
Proof. apply length_imap. Qed.

Lemma user_pages : Z.of_nat USER_PAGES = 20480.
Proof. done. Qed.

Lemma check_run {B} i n s (k : Z -> MV B) : (i < USER_PAGES)%nat ->
  bind (vm_common_check_get_idx (user_addr i) (Z.of_nat n * VM_USER_PAGE_SIZE)) k s = k (Z.of_nat i) s.
Proof.
  intros Hi. pose proof user_pages as HU. unfold vm_common_check_get_idx, user_addr. rewrite !land_page_mask.
  assert (VM_USER_PAGE_SIZE = 65536) as HP by done.
  rewrite Z.mod_mul by done.
  replace ((0x30000000 + Z.of_nat i * VM_USER_PAGE_SIZE) mod VM_USER_PAGE_SIZE) with 0
    by (symmetry; rewrite Z.mod_add by done; done).
  replace ((0x30000000 <=? 0x30000000 + Z.of_nat i * VM_USER_PAGE_SIZE) && (0x30000000 + Z.of_nat i * VM_USER_PAGE_SIZE <? 0x80000000))
    with true by (symmetry; rewrite andb_true_iff, Z.leb_le, Z.ltb_lt; lia).
  unfold bind, assert, ret. cbn [nz negb Z.eqb]. f_equal. unfold VM_USER_PAGE_BITS. rewrite Z.shiftr_div_pow2 by lia.
  replace (0x30000000 + Z.of_nat i * VM_USER_PAGE_SIZE - 0x30000000) with (Z.of_nat i * VM_USER_PAGE_SIZE) by lia. by apply Z.div_mul.
Qed.

Lemma page_set_run s i v e : userpagetable s !! i = Some e ->
  page_set (Z.of_nat i) v s = Ok tt (s <| userpagetable ::= <[i := v]> |>).
Proof.
  intros H%lookup_lt_Some. unfold page_set. rewrite (proj2 (Z.leb_le 0 _)), (proj2 (Z.ltb_lt _ _)) by lia. by rewrite Nat2Z.id.
Qed.
Lemma page_set_out s i v : (length (userpagetable s) <= i)%nat -> page_set (Z.of_nat i) v s = Fault.
Proof. intros H. unfold page_set. by rewrite (proj2 (Z.ltb_ge _ _)), andb_false_r by lia. Qed.
Lemma page_get_run s i e : userpagetable s !! i = Some e -> page_get (Z.of_nat i) s = Ok e s.
Proof. intros H. unfold page_get. rewrite (proj2 (Z.leb_le 0 _)), Nat2Z.id by lia. by rewrite H. Qed.
Lemma page_get_out s i : (length (userpagetable s) <= i)%nat -> page_get (Z.of_nat i) s = Fault.
Proof. intros H. unfold page_get. rewrite (proj2 (Z.leb_le 0 _)), Nat2Z.id by lia. by rewrite lookup_ge_None_2. Qed.

(** What an operation does to the pages [i] to [i + n - 1]: entries by [g],
    translations dropped where [h]. *)
Definition remapped (i n : nat) (g : nat -> Z -> Z) (h : Z -> bool) (s s' : vm_st) : Prop :=
  userpagetable s' = remap i n g (userpagetable s) /\ vm_segfault_handler s' = vm_segfault_handler s /\ tlb s ⊆ tlb s' /\
  forall k e, (k < n)%nat -> userpagetable s !! (i + k)%nat = Some e -> h e = true -> user_addr (i + k) ∈ tlb s'.

Lemma remap_ext i n f g t : (forall k e, (k < n)%nat -> t !! (i + k)%nat = Some e -> f k e = g k e) -> remap i n f t = remap i n g t.
Proof.
  intros H. apply list_eq. intros j. unfold remap. rewrite !list_lookup_imap. destruct (t !! j) as [e|] eqn:E; [|done].
  cbn -[decide]. case_decide; [|done]. f_equal. apply H; [lia|]. by replace (i + (j - i))%nat with j by lia.
Qed.

Section ops.
Context (s : vm_st) (i n : nat).
Context (Hlen : length (userpagetable s) = USER_PAGES) (Hi : (i < USER_PAGES)%nat) (Hn : (i + n <= USER_PAGES)%nat).

Lemma mapping_loop body g h :
  (forall s i v n e, userpagetable s !! i = Some e -> body (Z.of_nat i) v (Z.of_nat n) s =
    Ok tt (s <| userpagetable ::= <[i := g n e]> |> <| tlb ::= fun l => if h e : bool then v :: l else l |>)) ->
  runs (page_loop vm_fuel body (Z.of_nat n * VM_USER_PAGE_SIZE) (Z.of_nat i) (user_addr i) 0) s (fun _ s' => remapped i n g h s s').
Proof.
  intros Hbody. pose proof user_pages as HU. assert (VM_USER_PAGE_SIZE = 65536) as HP by done.
  eapply runs_mono; [|apply (page_loop_run body g h Hbody n vm_fuel s i 0); unfold vm_fuel, user_addr; lia].
  cbn beta. intros _ s' (H1 & H2 & H3 & H4). unfold remapped. split_and!; [done|done|done|].
  intros k e Hk He Hh. replace (user_addr (i + k)) with (user_addr i + Z.of_nat k * VM_USER_PAGE_SIZE) by (unfold user_addr; lia).
  by apply (H4 k e).
Qed.

Lemma create_mapping_run phys wimg : phys mod VM_USER_PAGE_SIZE = 0 -> 0 <= wimg < VM_USER_PAGE_SIZE ->
  runs (vm_create_user_mapping (user_addr i) phys (Z.of_nat n * VM_USER_PAGE_SIZE) wimg) s (fun _ s' =>
    remapped i n (fun k _ => entry (phys + Z.of_nat k * VM_USER_PAGE_SIZE) wimg) (fun _ => true) s s').
Proof.
  intros Hp Hw. unfold vm_create_user_mapping, assert. rewrite land_page_mask, Hp. cbn [nz negb Z.eqb]. apply runs_bind, runs_ret.
  unfold runs. rewrite check_run by done. apply mapping_loop.
  intros s0 j v k e He. rewrite (bind_ok _ _ _ _ _ (page_set_run s0 j _ e He)). rewrite page_or by done. unfold entry.
  replace (phys + wimg + Z.of_nat k * VM_USER_PAGE_SIZE) with (phys + Z.of_nat k * VM_USER_PAGE_SIZE + wimg) by lia. done.
Qed.

Lemma destroy_run :
  runs (vm_destroy_user_mapping (user_addr i) (Z.of_nat n * VM_USER_PAGE_SIZE)) s (fun _ s' => remapped i n (fun _ _ => 0) (fun _ => true) s s').
Proof.
  unfold vm_destroy_user_mapping, runs. rewrite check_run by done. apply mapping_loop.
  intros s0 j v k e He. by rewrite (bind_ok _ _ _ _ _ (page_set_run s0 j _ e He)).
Qed.

Lemma flags_run wimg :
  runs (vm_set_user_mapping_flags (user_addr i) (Z.of_nat n * VM_USER_PAGE_SIZE) wimg) s (fun _ s' =>
    remapped i n (fun _ e => if nz e then u32 (e .& not32 VM_USER_PAGE_MASK .| wimg) else e) nz s s').
Proof.
  unfold vm_set_user_mapping_flags, runs. rewrite check_run by done. apply mapping_loop.
  intros s0 j v k e He. rewrite (bind_ok _ _ _ _ _ (page_get_run s0 j e He)). destruct (nz e) eqn:E.
  - rewrite (bind_ok _ _ _ _ _ (page_set_run s0 j _ e He)).
    assert (<[j := e .& not32 VM_USER_PAGE_MASK]> (userpagetable s0) !! j = Some (e .& not32 VM_USER_PAGE_MASK)) as He'
      by (apply list_lookup_insert_eq; by eapply lookup_lt_Some).
    set (s1 := s0 <| userpagetable ::= _ |>).
    rewrite (bind_ok _ _ _ _ _ (page_get_run s1 j _ He')), (bind_ok _ _ _ _ _ (page_set_run s1 j _ _ He')).
    unfold vm_invalidate_tlb, modify. f_equal. unfold s1. destruct s0; cbn. f_equal. apply list_insert_insert_eq.
  - unfold ret. f_equal. destruct s0; cbn in *. f_equal. symmetry. by apply list_insert_id.
Qed.
End ops.

(** A page is mapped to a frame with flags. *)
Definition maps_to (s : vm_st) (j : nat) (frame flags : Z) : Prop :=
  exists e, userpagetable s !! j = Some e /\ e .& not32 VM_USER_PAGE_MASK = frame /\ e .& VM_USER_PAGE_MASK = flags.

(** User mappings.  Creating a mapping of [n] pages inside the user area
    enters for each of them the frame at the same distance in physical memory
    (of 32 bits) with the flags asked for, and drops the old translation;
    setting flags then changes the flags and no frame, destroying the mapping
    clears the entries and drops the translations; pages outside the mapping
    are never touched. *)
Theorem user_mapping_spec s i n phys wimg :
  length (userpagetable s) = USER_PAGES -> (i < USER_PAGES)%nat -> (i + n <= USER_PAGES)%nat ->
  phys mod VM_USER_PAGE_SIZE = 0 -> 0 < wimg < VM_USER_PAGE_SIZE ->
  let size := Z.of_nat n * VM_USER_PAGE_SIZE in
  let same s' := forall j, (j < i \/ i + n <= j)%nat -> userpagetable s' !! j = userpagetable s !! j in
  let frame k := u32 (phys + Z.of_nat k * VM_USER_PAGE_SIZE) in
  runs (vm_create_user_mapping (user_addr i) phys size wimg) s (fun _ s1 =>
    same s1 /\
    (forall k, (k < n)%nat -> maps_to s1 (i + k) (frame k) wimg /\ user_addr (i + k) ∈ tlb s1) /\
    (forall w', 0 <= w' < VM_USER_PAGE_SIZE ->
       runs (vm_set_user_mapping_flags (user_addr i) size w') s1 (fun _ s2 =>
         same s2 /\ forall k, (k < n)%nat -> maps_to s2 (i + k) (frame k) w')) /\
    runs (vm_destroy_user_mapping (user_addr i) size) s1 (fun _ s2 =>
      same s2 /\ forall k, (k < n)%nat -> userpagetable s2 !! (i + k)%nat = Some 0 /\ user_addr (i + k) ∈ tlb s2)).
Proof.
  intros Hlen Hi Hn Hp Hw. cbv zeta. eapply runs_mono; [|by apply create_mapping_run; [..|lia]]. cbn beta. intros _ s1 (Ht & _ & _ & Htlb).
  assert (length (userpagetable s1) = USER_PAGES) as Hlen1 by (by rewrite Ht, length_remap).
  assert (forall k, (k < n)%nat -> exists e, userpagetable s !! (i + k)%nat = Some e) as Hs by (intros k Hk; apply lookup_lt_is_Some; lia).
  assert (forall k, (phys + Z.of_nat k * VM_USER_PAGE_SIZE) mod VM_USER_PAGE_SIZE = 0) as Hpk by (intros k; by rewrite Z.mod_add).
  assert (forall k, (k < n)%nat -> userpagetable s1 !! (i + k)%nat = Some (entry (phys + Z.of_nat k * VM_USER_PAGE_SIZE) wimg)) as He.
  { intros k Hk. destruct (Hs k Hk) as [e E]. rewrite Ht. exact (remap_in i n _ _ k e Hk E). }
  assert (forall j, (j < i \/ i + n <= j)%nat -> userpagetable s1 !! j = userpagetable s !! j) as Hsame
    by (intros j Hj; by rewrite Ht, remap_out).
  split_and!; [done| | |].
  - intros k Hk. destruct (Hs k Hk) as [e E]. destruct (entry_spec _ wimg (Hpk k) ltac:(lia)) as (_ & H1 & H2 & _).
    split; [eexists; split; [exact (He k Hk)|done]|by apply (Htlb k e)].
  - intros w' Hw'. eapply runs_mono; [|by apply flags_run]. cbn beta. intros _ s2 (Ht2 & _). split.
    + intros j Hj. by rewrite Ht2, remap_out, Hsame.
    + intros k Hk. destruct (entry_spec _ wimg (Hpk k) ltac:(lia)) as (Hword & H1 & H2 & H3).
      destruct (entry_spec _ w' (u32_page _ (Hpk k)) Hw') as (_ & H4 & H5 & _).
      eexists. split; [rewrite Ht2; exact (remap_in i n _ _ k _ Hk (He k Hk))|]. cbn beta.
      replace (nz (entry (phys + Z.of_nat k * VM_USER_PAGE_SIZE) wimg)) with true.
      2:{ symmetry. unfold nz. apply negb_true_iff, Z.eqb_neq. intros E. rewrite E, Z.land_0_l in H2. lia. }
      rewrite H1, page_or by done. split; [|exact H5]. etransitivity; [exact H4|]. apply u32_id, is_word_u32.
  - eapply runs_mono; [|by apply destroy_run]. cbn beta. intros _ s2 (Ht2 & _ & _ & Htlb2). split.
    + intros j Hj. by rewrite Ht2, remap_out, Hsame.
    + intros k Hk. split; [rewrite Ht2; exact (remap_in i n _ _ k _ Hk (He k Hk))|]. by apply (Htlb2 k _ Hk (He k Hk)).
Qed.

(** A mapping that starts in the user area and runs over its end is not
    refused: the stores go on outside the table. *)
Theorem mapping_past_end s i n phys wimg :
  length (userpagetable s) = USER_PAGES -> (i < USER_PAGES)%nat -> (USER_PAGES < i + n)%nat -> Z.of_nat n < 32768 ->
  phys mod VM_USER_PAGE_SIZE = 0 ->
  vm_create_user_mapping (user_addr i) phys (Z.of_nat n * VM_USER_PAGE_SIZE) wimg s = Fault.
Proof.
  intros Hlen Hi Hout Hn Hp. unfold vm_create_user_mapping, assert. rewrite land_page_mask, Hp. cbn [nz negb Z.eqb].
  unfold bind at 1, ret at 1. rewrite check_run by done.
  apply (page_loop_out _ (fun k _ => u32 ((phys .| wimg) + Z.of_nat k * VM_USER_PAGE_SIZE)) (fun _ => true)) with (k := 0%nat); [| |unfold vm_fuel; lia..].
  - intros s0 j v k e He. by rewrite (bind_ok _ _ _ _ _ (page_set_run s0 j _ e He)).
  - intros s0 j v k Hj. unfold bind. by rewrite page_set_out.
Qed.

(** Two pages at 0x40000000 for the frames from 0x10000000 on. *)
Definition vm_boot : vm_st := mkVm (replicate USER_PAGES 0) [] 0.

Lemma user_mapping_demo :
  runs (vm_create_user_mapping 0x40000000 0x10000000 0x20000 0x190) vm_boot (fun _ s1 => maps_to s1 4097 0x10010000 0x190).
Proof.
  assert (Z.of_nat (Z.to_nat 4096) = 4096) as H4 by done.
  eapply runs_mono; [|apply (user_mapping_spec vm_boot (Z.to_nat 4096) 2 0x10000000 0x190)].
  - cbv zeta. cbn beta. intros _ s1 (_ & H & _). destruct (H 1%nat ltac:(lia)) as [H1 _]. exact H1.
  - apply length_replicate.
  - pose proof user_pages. lia.
  - pose proof user_pages. lia.
  - done.
  - done.
Defined.
