(* ===== verification/DpcFacts.v ===== *)
(** * The queue of deferred procedure calls: what [dpc_queue] does *)
From S2P Require Import Prelude ThreadDefs Ring ThreadFacts Sched SchedFacts SchedCorrect ThreadApi ThreadApiFacts Examples.

(** The queue that starts at [p]: its DPCs, in order. *)
Fixpoint dpc_chain (D : gmap nat DPC) (p : ptr) (l : list nat) : Prop :=
  match l with
  | [] => p = None
  | i :: l => p = Some i /\ exists d, D !! i = Some d /\ dpc_chain D (NextDPC d) l
  end.

Definition dpc_prio (D : gmap nat DPC) (i : nat) : Z := default 0 (DpcPriority <$> D !! i).

(** Insertion behind all that are at least as urgent. *)
Fixpoint insert_dpc (D : gmap nat DPC) (i : nat) (l : list nat) : list nat :=
  match l with
  | [] => [i]
  | j :: l => if dpc_prio D j <? dpc_prio D i then i :: j :: l else j :: insert_dpc D i l
  end.

(** The first two are at least as urgent as [i]. *)
Definition behind_two (D : gmap nat DPC) (i : nat) (l : list nat) : bool :=
  match l with
  | h :: n :: _ => (dpc_prio D i <=? dpc_prio D h) && (dpc_prio D i <=? dpc_prio D n)
  | _ => false
  end.

Lemma chain_insert D p l i d : i ∉ l -> dpc_chain (<[i := d]> D) p l <-> dpc_chain D p l.
Proof.
  revert p. induction l as [|j l IH]; intros p Hi; [done|]. apply not_elem_of_cons in Hi as [Hne Hi]. cbn.
  rewrite lookup_insert_ne by done. split; intros (-> & dj & Hj & Hc); (split; [done|]); exists dj; split; try done; by apply IH.
Qed.

Section queue.
Context (w : world) (b : PROCESSOR) (i : nat) (d : DPC) (l : list nat).
Local Abbreviation p := (cpu w).
Context (Hb : Processors w !! p = Some b) (Hi : Dpcs w !! i = Some d) (Hil : i ∉ l) (Hnd : NoDup l).

Lemma dpc_get_run {A B} (F : DPC -> A) (v : world) j dj (k : A -> K B) :
  Dpcs v !! j = Some dj -> bind (dpc_get (Some j) F) k v = k (F dj) v.
Proof. intros H. unfold bind, dpc_get. cbn. by rewrite H. Qed.
Lemma dpc_upd_end f (v : world) j dj :
  Dpcs v !! j = Some dj -> dpc_upd (Some j) f v = Ok tt (v <| Dpcs ::= <[j := f dj]> |>).
Proof. intros H. unfold dpc_upd. by rewrite H. Qed.
Lemma dpc_upd_run {B} f (v : world) j dj (k : unit -> K B) :
  Dpcs v !! j = Some dj -> bind (dpc_upd (Some j) f) k v = k tt (v <| Dpcs ::= <[j := f dj]> |>).
Proof. intros H. unfold bind. by rewrite (dpc_upd_end f v j dj H). Qed.

Lemma dpc_prio_lookup D j dj : D !! j = Some dj -> dpc_prio D j = DpcPriority dj.
Proof. intros H. unfold dpc_prio. by rewrite H. Qed.

(** The search loop looks at the same pair in every round. *)
Lemma insert_loop_stuck fuel h n dh dn :
  Dpcs w !! h = Some dh -> NextDPC dh = Some n -> Dpcs w !! n = Some dn -> DpcPriority d <= DpcPriority dn ->
  dpc_insert_loop fuel (Some h) (Some i) w = Diverge.
Proof.
  intros Hh Hn Hdn Hp. induction fuel as [|fuel IH]; [done|]. cbn [dpc_insert_loop].
  rewrite (dpc_get_run _ _ _ _ _ Hh), Hn. norm. rewrite (dpc_get_run _ _ _ _ _ Hdn), (dpc_get_run _ _ _ _ _ Hi).
  by rewrite (proj2 (Z.ltb_ge _ _)).
Qed.

(** The DPCs with [i] behind the head [h]. *)
Definition after_head (h : nat) (dh : DPC) : gmap nat DPC :=
  <[h := dh <| NextDPC := Some i |>]> (<[i := d <| NextDPC := NextDPC dh |>]> (Dpcs w)).

(** It stops when the head is alone or the second is less urgent. *)
Lemma insert_loop_after fuel h dh : h <> i -> NextDPC d = None -> Dpcs w !! h = Some dh -> (0 < fuel)%nat ->
  (forall n, NextDPC dh = Some n -> exists dn, Dpcs w !! n = Some dn /\ DpcPriority dn < DpcPriority d) ->
  dpc_insert_loop fuel (Some h) (Some i) w = Ok tt (w <| Dpcs := after_head h dh |>).
Proof.
  intros Hne Hnx Hh Hf Hn. destruct fuel as [|fuel]; [lia|]. cbn [dpc_insert_loop]. rewrite (dpc_get_run _ _ _ _ _ Hh).
  unfold after_head. destruct (NextDPC dh) as [n|] eqn:En.
  - destruct (Hn n eq_refl) as (dn & Hdn & Hlt). norm. rewrite (dpc_get_run _ _ _ _ _ Hdn), (dpc_get_run _ _ _ _ _ Hi).
    rewrite (proj2 (Z.ltb_lt _ _)) by lia. rewrite (dpc_upd_run _ _ _ _ _ Hi).
    rewrite (dpc_upd_end _ _ h dh) by (cbn; by rewrite lookup_insert_ne). by destruct w.
  - rewrite (dpc_upd_end _ _ _ _ Hh). assert (d <| NextDPC := None |> = d) as -> by (destruct d; cbn in *; by rewrite Hnx).
    rewrite (insert_id (Dpcs w) i d Hi). by destruct w.
Qed.

Lemma after_head_chain h dh l' : h <> i -> h ∉ l' -> i ∉ l' -> dpc_chain (Dpcs w) (NextDPC dh) l' ->
  dpc_chain (after_head h dh) (Some h) (h :: i :: l').
Proof.
  intros Hne Hh Hi' Hc. unfold after_head. split; [done|]. eexists. split; [apply lookup_insert_eq|]. split; [done|].
  eexists. split; [rewrite lookup_insert_ne by done; apply lookup_insert_eq|]. cbn. by rewrite !chain_insert.
Qed.

(** Linking [i] in: stuck, or in its place. *)
Lemma dpc_link_spec fuel : NextDPC d = None -> dpc_chain (Dpcs w) (DPCList b) l -> (0 < fuel)%nat ->
  if behind_two (Dpcs w) i l then dpc_link fuel p (Some i) w = Diverge
  else exists D' q, dpc_link fuel p (Some i) w = Ok tt (w <| Dpcs := D' |> <| Processors ::= alter (set DPCList (fun _ => q)) p |>) /\
    dpc_chain D' q (insert_dpc (Dpcs w) i l) /\ (exists d', D' !! i = Some d' /\ d' <| NextDPC := None |> = d).
Proof.
  intros Hnx Hc Hf. assert (d <| NextDPC := None |> = d) as Hd by (destruct d; cbn in *; by rewrite Hnx).
  unfold dpc_link. rewrite (pr_get_run _ _ _ _ _ Hb). destruct l as [|h l']; cbn [dpc_chain behind_two insert_dpc] in *.
  { rewrite Hc, pr_upd_end by eauto. exists (Dpcs w), (Some i). split; [by destruct w|]. cbn. split; [|by exists d]. split; [done|]. by exists d. }
  destruct Hc as (Hhead & dh & Hh & Hc). apply not_elem_of_cons in Hil as [Hih Hil']. apply NoDup_cons in Hnd as [Hhl Hnd'].
  rewrite Hhead, (dpc_get_run _ _ _ _ _ Hh), (dpc_get_run _ _ _ _ _ Hi), (dpc_prio_lookup _ _ _ Hh), (dpc_prio_lookup _ _ _ Hi).
  destruct (Z.ltb_spec (DpcPriority dh) (DpcPriority d)) as [Hlt|Hge].
  - rewrite (proj2 (Z.leb_gt _ _)) by lia. assert (match l' with n :: _ => false && (DpcPriority d <=? dpc_prio (Dpcs w) n) | [] => false end = false) as -> by (by destruct l').
    rewrite (dpc_upd_run _ _ _ _ _ Hi), pr_upd_end by (cbn; eauto).
    exists (<[i := d <| NextDPC := Some h |>]> (Dpcs w)), (Some i). split; [by destruct w|].
    split; [|exists (d <| NextDPC := Some h |>); by rewrite lookup_insert_eq].
    cbn. split; [done|]. eexists. split; [apply lookup_insert_eq|]. cbn. split; [done|]. exists dh.
    rewrite lookup_insert_ne by done. split; [done|]. by apply chain_insert.
  - assert (forall r, insert_dpc (Dpcs w) i l' = i :: r -> r = l' -> (forall n, NextDPC dh = Some n -> exists dn, Dpcs w !! n = Some dn /\ DpcPriority dn < DpcPriority d) ->
      exists D' q, dpc_insert_loop fuel (Some h) (Some i) w = Ok tt (w <| Dpcs := D' |> <| Processors ::= alter (set DPCList (fun _ => q)) p |>) /\
        dpc_chain D' q (h :: insert_dpc (Dpcs w) i l') /\ (exists d', D' !! i = Some d' /\ d' <| NextDPC := None |> = d)) as Hafter.
    { intros r Er -> Hn. rewrite (insert_loop_after fuel h dh) by done. exists (after_head h dh), (Some h). rewrite Er. split; [|split].
      - destruct w; cbn in *. do 2 f_equal. symmetry. apply (list_alter_self _ _ _ b Hb). destruct b; cbn in *. by rewrite Hhead.
      - by apply after_head_chain.
      - unfold after_head. eexists. split; [rewrite lookup_insert_ne by done; apply lookup_insert_eq|]. by destruct d. }
    rewrite (proj2 (Z.leb_le _ _)) by lia. cbn [andb]. destruct l' as [|n l'']; [apply (Hafter []); [done|done|by cbn in Hc; rewrite Hc]|].
    cbn [dpc_chain] in Hc. destruct Hc as (Hnext & dn & Hdn & Hc). rewrite (dpc_prio_lookup _ _ _ Hdn).
    destruct (Z.leb_spec (DpcPriority d) (DpcPriority dn)) as [Hle|Hgt]; [by apply (insert_loop_stuck fuel h n dh dn)|].
    apply (Hafter (n :: l'')); [|done|rewrite Hnext; intros ? [= <-]; by exists dn].
    cbn. rewrite (dpc_prio_lookup _ _ _ Hdn), (dpc_prio_lookup _ _ _ Hi). by rewrite (proj2 (Z.ltb_lt _ _)).
Qed.
End queue.

(** ** The whole call *)

Lemma dpc_prio_insert D i d d' j : D !! i = Some d -> DpcPriority d' = DpcPriority d -> dpc_prio (<[i := d']> D) j = dpc_prio D j.
Proof.
  intros Hi E. unfold dpc_prio. destruct (decide (j = i)) as [->|Hne]; [by rewrite lookup_insert_eq, Hi; cbn; rewrite E|by rewrite lookup_insert_ne].
Qed.
Lemma insert_dpc_ext D D' i l : (forall j, dpc_prio D' j = dpc_prio D j) -> insert_dpc D' i l = insert_dpc D i l /\ behind_two D' i l = behind_two D i l.
Proof.
  intros H. split.
  - induction l as [|j l IH]; [done|]. cbn. by rewrite !H, IH.
  - destruct l as [|h [|n l]]; [done|done|]. cbn. by rewrite !H.
Qed.

(** The DPC with its parameters, marked as queued. *)
Definition loaded (d : DPC) (p1 p2 p3 : Z) : DPC :=
  d <| Param1 := p1 |> <| Param2 := p2 |> <| Param3 := p3 |> <| Queued := 1 |>.

Section call.
Context (w : world) (b : PROCESSOR) (c : CPU) (i : nat) (d : DPC) (l : list nat) (fuel : nat) (p1 p2 p3 : Z).
Local Abbreviation p := (cpu w).
Context (Hb : Processors w !! p = Some b) (HI : 0 <= Irq b < 256) (Hc : Cpus w !! p = Some c) (Hf : (0 < fuel)%nat).
Context (Hl1 : LThreadList ∉ held w) (Hl2 : ProcessingDPC b = 0 -> LDpc p ∉ held w).
Context (Hi : Dpcs w !! i = Some d) (Hq : Queued d = 0) (Hnx : NextDPC d = None).
Context (Hch : dpc_chain (Dpcs w) (DPCList b) l) (Hil : i ∉ l) (Hnd : NoDup l).

(** The locks held inside the call. *)
Definition dpc_locks : gset lockid :=
  (if ProcessingDPC b =? 0 then {[ LDpc p ]} else ∅) ∪ ({[ LThreadList ]} ∪ held w).

(** The world when the DPC is linked in. *)
Definition inside : world :=
  w <| Processors ::= alter (set Irq (fun _ => 2)) p |> <| held := dpc_locks |> <| Dpcs ::= <[i := loaded d p1 p2 p3]> |>.

Lemma enter_dpc {B} (k : Z -> K B) :
  (irql <- thread_spinlock LThreadList ;; processing <- pr_get p ProcessingDPC ;;
   when (processing =? 0) (lock (LDpc p)) ;; k irql) w =
  k (Irq b) (w <| Processors ::= alter (set Irq (fun _ => 2)) p |> <| held := dpc_locks |>).
Proof.
  unfold thread_spinlock. norm. rewrite (raise_irql_run w b c Hb Hc). norm. unfold lock at 1. unfold bind at 1.
  cbn [held set]. rewrite decide_False by exact Hl1. cbn beta iota. rt.
  rewrite (pr_get_run _ _ _ (b <| Irq := 2 |>)) by exact (lookup_alter_eq_Some _ _ _ _ Hb).
  change (ProcessingDPC (b <| Irq := 2 |>)) with (ProcessingDPC b). unfold dpc_locks.
  destruct (Z.eqb_spec (ProcessingDPC b) 0) as [E|E]; cbn [when].
  - unfold lock, bind at 1. cbn [held set].
    rewrite decide_False by (rewrite not_elem_of_union, not_elem_of_singleton; split; [done|by apply Hl2]). by destruct w.
  - norm. rt. destruct w; cbn. by rewrite (left_id_L ∅ (∪)).
Qed.

(** Leaving: the locks are as before, and the level. *)
Lemma leave_dpc D' q :
  (processing2 <- pr_get p ProcessingDPC ;; when (processing2 =? 0) (unlock (LDpc p)) ;; thread_unlock LThreadList (Irq b) ;; ret 1)
    (inside <| Dpcs := D' |> <| Processors ::= alter (set DPCList (fun _ => q)) p |>) =
  Ok 1 (w <| Dpcs := D' |> <| Processors ::= alter (set DPCList (fun _ => q)) p |>).
Proof.
  set (b2 := b <| Irq := 2 |> <| DPCList := q |>).
  assert (Processors (inside <| Dpcs := D' |> <| Processors ::= alter (set DPCList (fun _ => q)) p |>) !! p = Some b2) as Hb2
    by exact (lookup_alter_eq_Some _ _ _ _ (lookup_alter_eq_Some _ _ _ _ Hb)).
  rewrite (pr_get_run _ _ _ b2 _ Hb2). change (ProcessingDPC b2) with (ProcessingDPC b).
  assert (forall h, h = {[LThreadList]} ∪ held w ->
    (thread_unlock LThreadList (Irq b) ;; ret 1) (inside <| Dpcs := D' |> <| Processors ::= alter (set DPCList (fun _ => q)) p |> <| held := h |>) =
    Ok 1 (w <| Dpcs := D' |> <| Processors ::= alter (set DPCList (fun _ => q)) p |>)) as Hrest.
  { intros h ->. unfold thread_unlock, unlock. norm. md. norm.
    match goal with |- bind (thread_lower_irql _) _ ?v = _ => rewrite (lower_irql_run v b2 c Hb2 Hc) end. rt. f_equal.
    assert (({[LThreadList]} ∪ held w) ∖ {[LThreadList]} = held w) as Hh by set_solver.
    cbn. f_equal; [|exact Hh].
    rewrite !list_alter_twice. apply (list_alter_at _ _ _ _ b Hb). cbn. rewrite u8_small by done. by destruct b. }
  assert (forall v, v = inside <| Dpcs := D' |> <| Processors ::= alter (set DPCList (fun _ => q)) p |> <| held := {[LThreadList]} ∪ held w |> ->
    (thread_unlock LThreadList (Irq b) ;; ret 1) v = Ok 1 (w <| Dpcs := D' |> <| Processors ::= alter (set DPCList (fun _ => q)) p |>)) as Hgo
    by (intros v ->; by apply Hrest).
  destruct (Z.eqb_spec (ProcessingDPC b) 0) as [E|E]; cbn [when].
  - unfold unlock at 1. md. apply Hgo. assert (held inside ∖ {[LDpc p]} = {[LThreadList]} ∪ held w) as Hh.
    { cbn. unfold dpc_locks. rewrite E. specialize (Hl2 E). cbn. set_solver. }
    cbn in Hh |- *. f_equal. exact Hh.
  - rt. apply Hgo. assert (held inside = {[LThreadList]} ∪ held w) as Hh
      by (cbn; unfold dpc_locks; rewrite (proj2 (Z.eqb_neq _ _)) by done; set_solver).
    cbn in Hh |- *. f_equal. exact Hh.
Qed.

(** C32: queueing a deferred call.  On a processor whose queue is [l], a DPC that
    is not queued yet is given its parameters and put behind all entries at
    least as urgent and before the rest, locks and interrupt level are given
    back and the call returns 1, unless the first two entries are both at
    least as urgent as it: then the search for its place does not end, and the
    processor spins with the thread list locked. *)
Theorem dpc_queue_spec :
  if behind_two (Dpcs w) i l then dpc_queue fuel (Some i) p1 p2 p3 w = Diverge
  else exists w' b', dpc_queue fuel (Some i) p1 p2 p3 w = Ok 1 w' /\
    Processors w' !! p = Some b' /\ dpc_chain (Dpcs w') (DPCList b') (insert_dpc (Dpcs w) i l) /\
    Irq b' = Irq b /\ held w' = held w /\
    exists d', Dpcs w' !! i = Some d' /\ d' <| NextDPC := None |> = loaded d p1 p2 p3.
Proof.
  destruct (insert_dpc_ext (Dpcs w) (Dpcs inside) i l) as [E1 E2]; [intros j; by apply (dpc_prio_insert _ _ d)|].
  assert (Processors inside !! cpu inside = Some (b <| Irq := 2 |>)) as Hb2 by exact (lookup_alter_eq_Some _ _ _ _ Hb).
  pose proof (dpc_link_spec inside (b <| Irq := 2 |>) i (loaded d p1 p2 p3) l Hb2 ltac:(apply lookup_insert_eq)
    Hil Hnd fuel Hnx ltac:(by apply chain_insert) Hf) as Hlink. rewrite E1, E2 in Hlink. change (cpu inside) with p in Hlink.
  unfold dpc_queue, thread_get_processor_block. gt. rewrite enter_dpc. rewrite (dpc_get_run _ _ i d) by exact Hi. rewrite Hq. change (0 =? 0) with true. cbn iota. norm.
  rewrite (dpc_upd_run _ _ i d) by exact Hi. do 3 (norm; erewrite dpc_upd_run by apply lookup_insert_eq). norm.
  match goal with |- context [bind (dpc_link _ _ _) _ ?v] => replace v with inside by (unfold inside; cbn; by rewrite !insert_insert_eq) end.
  destruct (behind_two (Dpcs w) i l).
  - unfold bind at 1. by rewrite Hlink.
  - destruct Hlink as (D' & q & E & Hc' & d' & Hd' & Hdd). rewrite (bind_ok _ _ _ _ _ E). norm. rt. rewrite leave_dpc.
    eexists _, (b <| DPCList := q |>). split; [reflexivity|]. split; [exact (lookup_alter_eq_Some _ _ _ _ Hb)|].
    split; [exact Hc'|]. split; [done|]. split; [done|]. exists d'. split; [exact Hd'|exact Hdd].
Qed.
End call.

(** ** On the demo machine *)

(** A medium and a high call are queued; a low one comes. *)
Definition dpc_block : PROCESSOR := demo_block <| DPCList := Some 1%nat |>.
Definition demo_dpcs : world := demo <| Processors := [dpc_block] |>
  <| Dpcs := {[ 0%nat := mkDPC 0 0 0 0 DPC_PRIORITY_LOW None 0; 1%nat := mkDPC 0x100 0 0 0 DPC_PRIORITY_HIGH (Some 2%nat) 1;
                2%nat := mkDPC 0x200 0 0 0 DPC_PRIORITY_MEDIUM None 1 ]} |>.

Lemma demo_dpc_chain : dpc_chain (Dpcs demo_dpcs) (DPCList dpc_block) [1; 2]%nat.
Proof. split; [done|]. eexists. split; [reflexivity|]. split; [done|]. eexists. split; [reflexivity|done]. Qed.

Lemma dpc_queue_spec_demo : dpc_queue 1000 (Some 0%nat) 1 2 3 demo_dpcs = Diverge.
Proof.
  apply (dpc_queue_spec demo_dpcs dpc_block demo_cpu 0 (mkDPC 0 0 0 0 DPC_PRIORITY_LOW None 0) [1; 2]%nat 1000 1 2 3);
    [reflexivity|vm_compute; split; congruence|reflexivity|lia|set_solver|intros _; set_solver|reflexivity..|apply demo_dpc_chain|set_solver|
     repeat constructor; set_solver].
Defined.
