(* ===== verification/Des.v ===== *)
(** * DES and triple DES: [drivers/crypt/des.c]

    The cipher with its tables, key schedules and the ECB and CBC modes.  A
    [des_context] is its 32 words of subkeys, a [des3_context] its 96; a buffer
    is a list of bytes.  A read past the end of a buffer is [None]. *)
From S2P Require Import Prelude Bits.

(** ** Tables *)

Definition SB1 : list Z :=
  [0x01010400; 0x00000000; 0x00010000; 0x01010404;
   0x01010004; 0x00010404; 0x00000004; 0x00010000;
   0x00000400; 0x01010400; 0x01010404; 0x00000400;
   0x01000404; 0x01010004; 0x01000000; 0x00000004;
   0x00000404; 0x01000400; 0x01000400; 0x00010400;
   0x00010400; 0x01010000; 0x01010000; 0x01000404;
   0x00010004; 0x01000004; 0x01000004; 0x00010004;
   0x00000000; 0x00000404; 0x00010404; 0x01000000;
   0x00010000; 0x01010404; 0x00000004; 0x01010000;
   0x01010400; 0x01000000; 0x01000000; 0x00000400;
   0x01010004; 0x00010000; 0x00010400; 0x01000004;
   0x00000400; 0x00000004; 0x01000404; 0x00010404;
   0x01010404; 0x00010004; 0x01010000; 0x01000404;
   0x01000004; 0x00000404; 0x00010404; 0x01010400;
   0x00000404; 0x01000400; 0x01000400; 0x00000000;
   0x00010004; 0x00010400; 0x00000000; 0x01010004].

Definition SB2 : list Z :=
  [0x80108020; 0x80008000; 0x00008000; 0x00108020;
   0x00100000; 0x00000020; 0x80100020; 0x80008020;
   0x80000020; 0x80108020; 0x80108000; 0x80000000;
   0x80008000; 0x00100000; 0x00000020; 0x80100020;
   0x00108000; 0x00100020; 0x80008020; 0x00000000;
   0x80000000; 0x00008000; 0x00108020; 0x80100000;
   0x00100020; 0x80000020; 0x00000000; 0x00108000;
   0x00008020; 0x80108000; 0x80100000; 0x00008020;
   0x00000000; 0x00108020; 0x80100020; 0x00100000;
   0x80008020; 0x80100000; 0x80108000; 0x00008000;
   0x80100000; 0x80008000; 0x00000020; 0x80108020;
   0x00108020; 0x00000020; 0x00008000; 0x80000000;
   0x00008020; 0x80108000; 0x00100000; 0x80000020;
   0x00100020; 0x80008020; 0x80000020; 0x00100020;
   0x00108000; 0x00000000; 0x80008000; 0x00008020;
   0x80000000; 0x80100020; 0x80108020; 0x00108000].

Definition SB3 : list Z :=
  [0x00000208; 0x08020200; 0x00000000; 0x08020008;
   0x08000200; 0x00000000; 0x00020208; 0x08000200;
   0x00020008; 0x08000008; 0x08000008; 0x00020000;
   0x08020208; 0x00020008; 0x08020000; 0x00000208;
   0x08000000; 0x00000008; 0x08020200; 0x00000200;
   0x00020200; 0x08020000; 0x08020008; 0x00020208;
   0x08000208; 0x00020200; 0x00020000; 0x08000208;
   0x00000008; 0x08020208; 0x00000200; 0x08000000;
   0x08020200; 0x08000000; 0x00020008; 0x00000208;
   0x00020000; 0x08020200; 0x08000200; 0x00000000;
   0x00000200; 0x00020008; 0x08020208; 0x08000200;
   0x08000008; 0x00000200; 0x00000000; 0x08020008;
   0x08000208; 0x00020000; 0x08000000; 0x08020208;
   0x00000008; 0x00020208; 0x00020200; 0x08000008;
   0x08020000; 0x08000208; 0x00000208; 0x08020000;
   0x00020208; 0x00000008; 0x08020008; 0x00020200].

Definition SB4 : list Z :=
  [0x00802001; 0x00002081; 0x00002081; 0x00000080;
   0x00802080; 0x00800081; 0x00800001; 0x00002001;
   0x00000000; 0x00802000; 0x00802000; 0x00802081;
   0x00000081; 0x00000000; 0x00800080; 0x00800001;
   0x00000001; 0x00002000; 0x00800000; 0x00802001;
   0x00000080; 0x00800000; 0x00002001; 0x00002080;
   0x00800081; 0x00000001; 0x00002080; 0x00800080;
   0x00002000; 0x00802080; 0x00802081; 0x00000081;
   0x00800080; 0x00800001; 0x00802000; 0x00802081;
   0x00000081; 0x00000000; 0x00000000; 0x00802000;
   0x00002080; 0x00800080; 0x00800081; 0x00000001;
   0x00802001; 0x00002081; 0x00002081; 0x00000080;
   0x00802081; 0x00000081; 0x00000001; 0x00002000;
   0x00800001; 0x00002001; 0x00802080; 0x00800081;
   0x00002001; 0x00002080; 0x00800000; 0x00802001;
   0x00000080; 0x00800000; 0x00002000; 0x00802080].

Definition SB5 : list Z :=
  [0x00000100; 0x02080100; 0x02080000; 0x42000100;
   0x00080000; 0x00000100; 0x40000000; 0x02080000;
   0x40080100; 0x00080000; 0x02000100; 0x40080100;
   0x42000100; 0x42080000; 0x00080100; 0x40000000;
   0x02000000; 0x40080000; 0x40080000; 0x00000000;
   0x40000100; 0x42080100; 0x42080100; 0x02000100;
   0x42080000; 0x40000100; 0x00000000; 0x42000000;
   0x02080100; 0x02000000; 0x42000000; 0x00080100;
   0x00080000; 0x42000100; 0x00000100; 0x02000000;
   0x40000000; 0x02080000; 0x42000100; 0x40080100;
   0x02000100; 0x40000000; 0x42080000; 0x02080100;
   0x40080100; 0x00000100; 0x02000000; 0x42080000;
   0x42080100; 0x00080100; 0x42000000; 0x42080100;
   0x02080000; 0x00000000; 0x40080000; 0x42000000;
   0x00080100; 0x02000100; 0x40000100; 0x00080000;
   0x00000000; 0x40080000; 0x02080100; 0x40000100].

Definition SB6 : list Z :=
  [0x20000010; 0x20400000; 0x00004000; 0x20404010;
   0x20400000; 0x00000010; 0x20404010; 0x00400000;
   0x20004000; 0x00404010; 0x00400000; 0x20000010;
   0x00400010; 0x20004000; 0x20000000; 0x00004010;
   0x00000000; 0x00400010; 0x20004010; 0x00004000;
   0x00404000; 0x20004010; 0x00000010; 0x20400010;
   0x20400010; 0x00000000; 0x00404010; 0x20404000;
   0x00004010; 0x00404000; 0x20404000; 0x20000000;
   0x20004000; 0x00000010; 0x20400010; 0x00404000;
   0x20404010; 0x00400000; 0x00004010; 0x20000010;
   0x00400000; 0x20004000; 0x20000000; 0x00004010;
   0x20000010; 0x20404010; 0x00404000; 0x20400000;
   0x00404010; 0x20404000; 0x00000000; 0x20400010;
   0x00000010; 0x00004000; 0x20400000; 0x00404010;
   0x00004000; 0x00400010; 0x20004010; 0x00000000;
   0x20404000; 0x20000000; 0x00400010; 0x20004010].

Definition SB7 : list Z :=
  [0x00200000; 0x04200002; 0x04000802; 0x00000000;
   0x00000800; 0x04000802; 0x00200802; 0x04200800;
   0x04200802; 0x00200000; 0x00000000; 0x04000002;
   0x00000002; 0x04000000; 0x04200002; 0x00000802;
   0x04000800; 0x00200802; 0x00200002; 0x04000800;
   0x04000002; 0x04200000; 0x04200800; 0x00200002;
   0x04200000; 0x00000800; 0x00000802; 0x04200802;
   0x00200800; 0x00000002; 0x04000000; 0x00200800;
   0x04000000; 0x00200800; 0x00200000; 0x04000802;
   0x04000802; 0x04200002; 0x04200002; 0x00000002;
   0x00200002; 0x04000000; 0x04000800; 0x00200000;
   0x04200800; 0x00000802; 0x00200802; 0x04200800;
   0x00000802; 0x04000002; 0x04200802; 0x04200000;
   0x00200800; 0x00000000; 0x00000002; 0x04200802;
   0x00000000; 0x00200802; 0x04200000; 0x00000800;
   0x04000002; 0x04000800; 0x00000800; 0x00200002].

Definition SB8 : list Z :=
  [0x10001040; 0x00001000; 0x00040000; 0x10041040;
   0x10000000; 0x10001040; 0x00000040; 0x10000000;
   0x00040040; 0x10040000; 0x10041040; 0x00041000;
   0x10041000; 0x00041040; 0x00001000; 0x00000040;
   0x10040000; 0x10000040; 0x10001000; 0x00001040;
   0x00041000; 0x00040040; 0x10040040; 0x10041000;
   0x00001040; 0x00000000; 0x00000000; 0x10040040;
   0x10000040; 0x10001000; 0x00041040; 0x00040000;
   0x00041040; 0x00040000; 0x10041000; 0x00001000;
   0x00000040; 0x10040040; 0x00001000; 0x00041040;
   0x10001000; 0x00000040; 0x10000040; 0x10040000;
   0x10040040; 0x10000000; 0x00040000; 0x10001040;
   0x00000000; 0x10041040; 0x00040040; 0x10000040;
   0x10040000; 0x10001000; 0x10001040; 0x00000000;
   0x10041040; 0x00041000; 0x00041000; 0x00001040;
   0x00001040; 0x00040040; 0x10000000; 0x10041000].

Definition LHs : list Z :=
  [0x00000000; 0x00000001; 0x00000100; 0x00000101;
   0x00010000; 0x00010001; 0x00010100; 0x00010101;
   0x01000000; 0x01000001; 0x01000100; 0x01000101;
   0x01010000; 0x01010001; 0x01010100; 0x01010101].

Definition RHs : list Z :=
  [0x00000000; 0x01000000; 0x00010000; 0x01010000;
   0x00000100; 0x01000100; 0x00010100; 0x01010100;
   0x00000001; 0x01000001; 0x00010001; 0x01010001;
   0x00000101; 0x01000101; 0x00010101; 0x01010101].

(** [SBn[i]]; the code masks every index to the size of the table. *)
Definition tab (t : list Z) (i : Z) : Z := nth (Z.to_nat i) t 0.

(** ** Permutations and the round *)

(** [T = ((X >> n) ^ Y) & m; Y ^= T; X ^= (T << n);] *)
Definition xswap (n m : Z) (XY : Z * Z) : Z * Z :=
  let (X, Y) := XY in
  let T := ((X .>> n) .^ Y) .& m in
  (X .^ (T .<< n), Y .^ T).

Definition flip (XY : Z * Z) : Z * Z := (snd XY, fst XY).
(** The same with the roles of [X] and [Y] exchanged. *)
Definition yswap (n m : Z) (XY : Z * Z) : Z * Z := flip (xswap n m (flip XY)).

Definition rol1 (x : Z) : Z := ((x .<< 1) .| (x .>> 31)) .& 0xFFFFFFFF.
Definition ror1 (x : Z) : Z := ((x .<< 31) .| (x .>> 1)) .& 0xFFFFFFFF.

Definition DES_IP (XY : Z * Z) : Z * Z :=
  let XY := xswap 4 0x0F0F0F0F XY in
  let XY := xswap 16 0x0000FFFF XY in
  let XY := yswap 2 0x33333333 XY in
  let XY := yswap 8 0x00FF00FF XY in
  let XY := (fst XY, rol1 (snd XY)) in
  let XY := xswap 0 0xAAAAAAAA XY in
  (rol1 (fst XY), snd XY).

Definition DES_FP (XY : Z * Z) : Z * Z :=
  let XY := (ror1 (fst XY), snd XY) in
  let XY := xswap 0 0xAAAAAAAA XY in
  let XY := (fst XY, ror1 (snd XY)) in
  let XY := yswap 8 0x00FF00FF XY in
  let XY := yswap 2 0x33333333 XY in
  let XY := xswap 16 0x0000FFFF XY in
  xswap 4 0x0F0F0F0F XY.

(** What [DES_ROUND(X,Y)] with the subkey words [k1], [k2] does to [Y]. *)
Definition DES_ROUND (k1 k2 X Y : Z) : Z :=
  let T := k1 .^ X in
  let Y := Y .^ (tab SB8 (T .& 0x3F) .^ tab SB6 ((T .>> 8) .& 0x3F) .^
                 tab SB4 ((T .>> 16) .& 0x3F) .^ tab SB2 ((T .>> 24) .& 0x3F)) in
  let T := k2 .^ ((X .<< 28) .| (X .>> 4)) in
  Y .^ (tab SB7 (T .& 0x3F) .^ tab SB5 ((T .>> 8) .& 0x3F) .^
        tab SB3 ((T .>> 16) .& 0x3F) .^ tab SB1 ((T .>> 24) .& 0x3F)).

(** ** Key schedule *)

Definition get_ulong_be (b : list Z) (i : nat) : Z :=
  get_be (nth i b 0) (nth (i + 1) b 0) (nth (i + 2) b 0) (nth (i + 3) b 0).

(** Permuted choice 1. *)
Definition des_pc1 (key : list Z) : Z * Z :=
  let X := get_ulong_be key 0 in
  let Y := get_ulong_be key 4 in
  let T := ((Y .>> 4) .^ X) .& 0x0F0F0F0F in
  let X := X .^ T in let Y := Y .^ (T .<< 4) in
  let T := (Y .^ X) .& 0x10101010 in
  let X := X .^ T in let Y := Y .^ T in
  let X := (tab LHs (X .& 0xF) .<< 3) .| (tab LHs ((X .>> 8) .& 0xF) .<< 2)
        .| (tab LHs ((X .>> 16) .& 0xF) .<< 1) .| tab LHs ((X .>> 24) .& 0xF)
        .| (tab LHs ((X .>> 5) .& 0xF) .<< 7) .| (tab LHs ((X .>> 13) .& 0xF) .<< 6)
        .| (tab LHs ((X .>> 21) .& 0xF) .<< 5) .| (tab LHs ((X .>> 29) .& 0xF) .<< 4) in
  let Y := (tab RHs ((Y .>> 1) .& 0xF) .<< 3) .| (tab RHs ((Y .>> 9) .& 0xF) .<< 2)
        .| (tab RHs ((Y .>> 17) .& 0xF) .<< 1) .| tab RHs ((Y .>> 25) .& 0xF)
        .| (tab RHs ((Y .>> 4) .& 0xF) .<< 7) .| (tab RHs ((Y .>> 12) .& 0xF) .<< 6)
        .| (tab RHs ((Y .>> 20) .& 0xF) .<< 5) .| (tab RHs ((Y .>> 28) .& 0xF) .<< 4) in
  (X .& 0x0FFFFFFF, Y .& 0x0FFFFFFF).

Definition des_rotate (i : nat) (x : Z) : Z :=
  if (i <? 2)%nat || (i =? 8)%nat || (i =? 15)%nat
  then ((x .<< 1) .| (x .>> 27)) .& 0x0FFFFFFF
  else ((x .<< 2) .| (x .>> 26)) .& 0x0FFFFFFF.

Definition des_subkey1 (X Y : Z) : Z :=
  ((X .<< 4) .& 0x24000000) .| ((X .<< 28) .& 0x10000000)
     .| ((X .<< 14) .& 0x08000000) .| ((X .<< 18) .& 0x02080000)
     .| ((X .<< 6) .& 0x01000000) .| ((X .<< 9) .& 0x00200000)
     .| ((X .>> 1) .& 0x00100000) .| ((X .<< 10) .& 0x00040000)
     .| ((X .<< 2) .& 0x00020000) .| ((X .>> 10) .& 0x00010000)
     .| ((Y .>> 13) .& 0x00002000) .| ((Y .>> 4) .& 0x00001000)
     .| ((Y .<< 6) .& 0x00000800) .| ((Y .>> 1) .& 0x00000400)
     .| ((Y .>> 14) .& 0x00000200) .| (Y .& 0x00000100)
     .| ((Y .>> 5) .& 0x00000020) .| ((Y .>> 10) .& 0x00000010)
     .| ((Y .>> 3) .& 0x00000008) .| ((Y .>> 18) .& 0x00000004)
     .| ((Y .>> 26) .& 0x00000002) .| ((Y .>> 24) .& 0x00000001).
Definition des_subkey2 (X Y : Z) : Z :=
  ((X .<< 15) .& 0x20000000) .| ((X .<< 17) .& 0x10000000)
     .| ((X .<< 10) .& 0x08000000) .| ((X .<< 22) .& 0x04000000)
     .| ((X .>> 2) .& 0x02000000) .| ((X .<< 1) .& 0x01000000)
     .| ((X .<< 16) .& 0x00200000) .| ((X .<< 11) .& 0x00100000)
     .| ((X .<< 3) .& 0x00080000) .| ((X .>> 6) .& 0x00040000)
     .| ((X .<< 15) .& 0x00020000) .| ((X .>> 4) .& 0x00010000)
     .| ((Y .>> 2) .& 0x00002000) .| ((Y .<< 8) .& 0x00001000)
     .| ((Y .>> 14) .& 0x00000808) .| ((Y .>> 9) .& 0x00000400)
     .| (Y .& 0x00000200) .| ((Y .<< 7) .& 0x00000100)
     .| ((Y .>> 7) .& 0x00000020) .| ((Y .>> 3) .& 0x00000011)
     .| ((Y .<< 2) .& 0x00000004) .| ((Y .>> 21) .& 0x00000002).

(** The loop over the 16 rounds, from round [i] on. *)
Fixpoint des_subkeys (n i : nat) (X Y : Z) : list Z :=
  match n with
  | O => []
  | S n =>
      let X := des_rotate i X in
      let Y := des_rotate i Y in
      des_subkey1 X Y :: des_subkey2 X Y :: des_subkeys n (S i) X Y
  end.

Definition des_setkey (key : list Z) : list Z :=
  let '(X, Y) := des_pc1 key in des_subkeys 16 0 X Y.

Definition des_setkey_enc (key : list Z) : list Z := des_setkey key.

(** [SWAP(sk[i], sk[j])] *)
Definition swap_words (sk : list Z) (i j : nat) : list Z :=
  <[j := nth i sk 0]> (<[i := nth j sk 0]> sk).

Definition des_setkey_dec (key : list Z) : list Z :=
  fold_left (fun sk i => swap_words (swap_words sk i (30 - i)) (i + 1) (31 - i))
    [0; 2; 4; 6; 8; 10; 12; 14]%nat (des_setkey key).

Definition even_indices : list nat := [0; 2; 4; 6; 8; 10; 12; 14; 16; 18; 20; 22; 24; 26; 28; 30]%nat.

(** The two arrays before the call are [esk] and [dsk]. *)
Definition des3_set2key (esk dsk key : list Z) : list Z * list Z :=
  let esk := write_at 0 (des_setkey key) esk in
  let dsk := write_at 32 (des_setkey (drop 8 key)) dsk in
  fold_left (fun '(esk, dsk) i =>
    let dsk := <[i := nth (30 - i) esk 0]> dsk in
    let dsk := <[(i + 1)%nat := nth (31 - i) esk 0]> dsk in
    let esk := <[(i + 32)%nat := nth (62 - i) dsk 0]> esk in
    let esk := <[(i + 33)%nat := nth (63 - i) dsk 0]> esk in
    let esk := <[(i + 64)%nat := nth i esk 0]> esk in
    let esk := <[(i + 65)%nat := nth (i + 1) esk 0]> esk in
    let dsk := <[(i + 64)%nat := nth i dsk 0]> dsk in
    let dsk := <[(i + 65)%nat := nth (i + 1) dsk 0]> dsk in
    (esk, dsk)) even_indices (esk, dsk).

Definition des3_set3key (esk dsk key : list Z) : list Z * list Z :=
  let esk := write_at 0 (des_setkey key) esk in
  let dsk := write_at 32 (des_setkey (drop 8 key)) dsk in
  let esk := write_at 64 (des_setkey (drop 16 key)) esk in
  fold_left (fun '(esk, dsk) i =>
    let dsk := <[i := nth (94 - i) esk 0]> dsk in
    let dsk := <[(i + 1)%nat := nth (95 - i) esk 0]> dsk in
    let esk := <[(i + 32)%nat := nth (62 - i) dsk 0]> esk in
    let esk := <[(i + 33)%nat := nth (63 - i) dsk 0]> esk in
    let dsk := <[(i + 64)%nat := nth (30 - i) esk 0]> dsk in
    let dsk := <[(i + 65)%nat := nth (31 - i) esk 0]> dsk in
    (esk, dsk)) even_indices (esk, dsk).

(** The context's array is [ctx], the local one [sk]. *)
Definition des3_set2key_enc (ctx sk key : list Z) : list Z := fst (des3_set2key ctx sk key).
Definition des3_set2key_dec (ctx sk key : list Z) : list Z := snd (des3_set2key sk ctx key).
Definition des3_set3key_enc (ctx sk key : list Z) : list Z := fst (des3_set3key ctx sk key).
Definition des3_set3key_dec (ctx sk key : list Z) : list Z := snd (des3_set3key sk ctx key).

(** ** Blocks *)

(** [for (i = 0; i < n; i++) { DES_ROUND(Y, X); DES_ROUND(X, Y); }], taking
    four words of [SK] a time; returns what is left of [SK] too. *)
Fixpoint des_rounds (n : nat) (SK : list Z) (XY : Z * Z) : list Z * (Z * Z) :=
  match n, SK with
  | S n, k1 :: k2 :: k3 :: k4 :: SK =>
      let (X, Y) := XY in
      let X := DES_ROUND k1 k2 Y X in
      let Y := DES_ROUND k3 k4 X Y in
      des_rounds n SK (X, Y)
  | _, _ => (SK, XY)
  end.

Definition load_block (input : list Z) : Z * Z := (get_ulong_be input 0, get_ulong_be input 4).
(** [DES_FP(Y, X)] and the output of [Y], then [X]. *)
Definition store_block (XY : Z * Z) : list Z :=
  let (Y, X) := DES_FP (flip XY) in put_be Y ++ put_be X.

Definition des_crypt_ecb (sk input : list Z) : list Z :=
  let '(_, XY) := des_rounds 8 sk (DES_IP (load_block input)) in
  store_block XY.

(** The middle loop has [DES_ROUND(X, Y); DES_ROUND(Y, X)]. *)
Definition des3_crypt_ecb (sk input : list Z) : list Z :=
  let '(sk, XY) := des_rounds 8 sk (DES_IP (load_block input)) in
  let '(sk, YX) := des_rounds 8 sk (flip XY) in
  let '(_, XY) := des_rounds 8 sk (flip YX) in
  store_block XY.

(** ** Cipher block chaining *)

Definition xor_bytes (a b : list Z) : list Z := zip_with (fun x y => u8 (x .^ y)) a b.

Inductive mode := DES_DECRYPT | DES_ENCRYPT.

Section cbc.
(** [des_crypt_ecb(ctx, _)] or [des3_crypt_ecb(ctx, _)]. *)
Variable ecb : list Z -> list Z.

(** One round of the loop: the output and the new [iv]. *)
Definition cbc_block (md : mode) (iv block : list Z) : list Z * list Z :=
  match md with
  | DES_ENCRYPT => let output := ecb (xor_bytes block iv) in (output, output)
  | DES_DECRYPT => (xor_bytes (ecb block) iv, block)
  end.

(** [length] goes down by 8 until it is not positive; the rounds are bounded
    by [fuel]. *)
Fixpoint crypt_cbc (fuel : nat) (md : mode) (len : Z) (iv input : list Z) : option (list Z * list Z) :=
  if len <=? 0 then Some ([], iv) else
  match fuel with
  | O => None
  | S fuel =>
      if (length input <? 8)%nat then None else
      let (output, iv) := cbc_block md iv (take 8 input) in
      match crypt_cbc fuel md (len - 8) iv (drop 8 input) with
      | Some (rest, iv) => Some (output ++ rest, iv)
      | None => None
      end
  end.
End cbc.

(** Bytes written and the updated [iv]; a round per byte is always enough. *)
Definition des_crypt_cbc (sk : list Z) (md : mode) (len : Z) (iv input : list Z) : option (list Z * list Z) :=
  crypt_cbc (des_crypt_ecb sk) (Z.to_nat len) md len iv input.
Definition des3_crypt_cbc (sk : list Z) (md : mode) (len : Z) (iv input : list Z) : option (list Z * list Z) :=
  crypt_cbc (des3_crypt_ecb sk) (Z.to_nat len) md len iv input.
