(* ===== verification/DesFacts.v ===== *)
(** * DES and triple DES: decryption undoes encryption

    The permutations are inverse to each other, a Feistel network run with the
    subkeys in reverse order undoes itself, and the decryption key schedules
    are the encryption ones in reverse order. *)
From S2P Require Import Prelude Bits Des.

(** ** The permutations *)

Definition words (XY : Z * Z) : Prop := is_word (fst XY) /\ is_word (snd XY).

Lemma flip_flip XY : flip (flip XY) = XY.
Proof. by destruct XY. Qed.
Lemma flip_words XY : words XY -> words (flip XY).
Proof. intros []. by split. Qed.

(** The masks of the swaps: shifted up they stay in the word. *)
Definition good_mask (n m : Z) : Prop := 0 <= n /\ 0 <= m /\ is_word (Z.shiftl m n).

Lemma mask_shift n m x : good_mask n m -> (x .& m) .<< n = Z.shiftl (x .& m) n.
Proof.
  intros (Hn & Hm & Hw). bitwise k Hk. rewrite u32_bits by done. destruct (Z.ltb_spec k 32); [done|].
  cbn. rewrite Z.shiftl_spec, Z.land_spec by done.
  assert (Z.testbit (Z.shiftl m n) k = false) as E by (apply (high_bits _ 32); [done|lia]).
  rewrite Z.shiftl_spec in E by done. by rewrite E, andb_false_r.
Qed.

Lemma xswap_involutive n m XY : good_mask n m -> xswap n m (xswap n m XY) = XY.
Proof.
  intros Hg. destruct XY as [X Y]. unfold xswap. rewrite !mask_shift by done.
  set (T := ((X .>> n) .^ Y) .& m).
  assert ((((X .^ Z.shiftl T n) .>> n) .^ (Y .^ T)) .& m = T) as E.
  { unfold T. destruct Hg as (Hn & _). bitwise k Hk.
    rewrite !Z.land_spec, !Z.lxor_spec, Z.shiftr_spec, !Z.lxor_spec, Z.shiftl_spec by lia.
    replace (k + n - n) with k by lia.
    rewrite !Z.land_spec, !Z.lxor_spec, Z.shiftr_spec by lia.
    by destruct (Z.testbit X (k + n)), (Z.testbit Y k), (Z.testbit m k). }
  rewrite E. f_equal; bitwise k Hk; rewrite !Z.lxor_spec;
    [destruct (Z.testbit (Z.shiftl T n) k), (Z.testbit X k)|destruct (Z.testbit T k), (Z.testbit Y k)]; done.
Qed.

Lemma yswap_involutive n m XY : good_mask n m -> yswap n m (yswap n m XY) = XY.
Proof. intros. unfold yswap. rewrite flip_flip, xswap_involutive by done. apply flip_flip. Qed.

Lemma xswap_words n m XY : good_mask n m -> is_word m -> words XY -> words (xswap n m XY).
Proof.
  intros Hg Hm [HX HY]. destruct XY as [X Y]. unfold xswap. split; cbn.
  - apply is_word_lxor; [done|]. apply is_word_u32.
  - apply is_word_lxor; [done|]. by apply is_word_land.
Qed.
Lemma yswap_words n m XY : good_mask n m -> is_word m -> words XY -> words (yswap n m XY).
Proof. intros. by apply flip_words, xswap_words, flip_words. Qed.

Lemma rol1_bits x n : is_word x -> 0 <= n ->
  Z.testbit (rol1 x) n = (n <? 32) && Z.testbit x (if n =? 0 then 31 else n - 1).
Proof.
  intros Hx Hn. unfold rol1. change 0xFFFFFFFF with (Z.ones 32).
  rewrite Z.land_spec, Z.testbit_ones_nonneg, Z.lor_spec, u32_bits, Z.shiftl_spec, Z.shiftr_spec by lia.
  destruct (Z.eqb_spec n 0) as [->|].
  - cbn [Z.ltb Z.compare]. by rewrite andb_true_r.
  - rewrite (high_bits x 32 (n + 31)) by (done || lia). rewrite orb_false_r.
    destruct (n <? 32); by rewrite ?andb_true_r, ?andb_false_r.
Qed.
Lemma ror1_bits x n : is_word x -> 0 <= n ->
  Z.testbit (ror1 x) n = (n <? 32) && Z.testbit x (if n =? 31 then 0 else n + 1).
Proof.
  intros Hx Hn. unfold ror1. change 0xFFFFFFFF with (Z.ones 32).
  rewrite Z.land_spec, Z.testbit_ones_nonneg, Z.lor_spec, u32_bits, Z.shiftl_spec, Z.shiftr_spec by lia.
  destruct (Z.eqb_spec n 31) as [->|].
  - cbn [Z.ltb Z.compare]. rewrite (high_bits x 32 (31 + 1)) by (done || lia). by rewrite orb_false_r, andb_true_r.
  - destruct (Z.ltb_spec n 32); [|by rewrite andb_false_r].
    rewrite (Z.testbit_neg_r x (n - 31)) by lia. by rewrite andb_true_r.
Qed.

Lemma rol1_word x : is_word (rol1 x).
Proof. unfold rol1. apply is_word_land. unfold is_word. lia. Qed.
Lemma ror1_word x : is_word (ror1 x).
Proof. unfold ror1. apply is_word_land. unfold is_word. lia. Qed.

Lemma rol1_ror1 x : is_word x -> rol1 (ror1 x) = x.
Proof.
  intros Hx. bitwise n Hn. rewrite rol1_bits by (done || apply ror1_word).
  destruct (Z.ltb_spec n 32); [|by rewrite (high_bits x 32) by (done || lia)]. cbn.
  destruct (Z.eqb_spec n 0) as [->|]; rewrite ror1_bits by (done || lia); [done|].
  rewrite (proj2 (Z.ltb_lt _ _)), (proj2 (Z.eqb_neq _ _)) by lia. cbn. f_equal. lia.
Qed.
Lemma ror1_rol1 x : is_word x -> ror1 (rol1 x) = x.
Proof.
  intros Hx. bitwise n Hn. rewrite ror1_bits by (done || apply rol1_word).
  destruct (Z.ltb_spec n 32); [|by rewrite (high_bits x 32) by (done || lia)]. cbn.
  destruct (Z.eqb_spec n 31) as [->|]; rewrite rol1_bits by (done || lia); [done|].
  rewrite (proj2 (Z.ltb_lt _ _)), (proj2 (Z.eqb_neq _ _)) by lia. cbn. f_equal. lia.
Qed.

Ltac mask := first [split; [lia|split; [lia|vm_compute; split; congruence]] | vm_compute; split; congruence].

Ltac swap_words_tac :=
  lazymatch goal with
  | |- words (yswap _ _ _) => apply yswap_words; [mask|mask|swap_words_tac]
  | |- words (xswap _ _ _) => apply xswap_words; [mask|mask|swap_words_tac]
  | |- _ => idtac
  end.

Lemma DES_FP_IP XY : words XY -> DES_FP (DES_IP XY) = XY.
Proof.
  intros H. unfold DES_FP, DES_IP. cbv zeta.
  set (A := yswap 8 0x00FF00FF (yswap 2 0x33333333 (xswap 16 0x0000FFFF (xswap 4 0x0F0F0F0F XY)))).
  assert (words A) as [HA1 HA2] by (unfold A; swap_words_tac; exact H).
  set (B := xswap 0 0xAAAAAAAA (fst A, rol1 (snd A))).
  assert (words B) as [HB1 HB2] by (apply xswap_words; [mask|mask|by split; [|apply rol1_word]]).
  cbn [fst snd]. rewrite ror1_rol1 by done. rewrite <- surjective_pairing. unfold B.
  rewrite xswap_involutive by mask. cbn [fst snd]. rewrite ror1_rol1 by done.
  rewrite <- surjective_pairing. unfold A.
  rewrite !yswap_involutive, !xswap_involutive by mask. done.
Qed.

Lemma DES_IP_FP XY : words XY -> DES_IP (DES_FP XY) = XY.
Proof.
  intros [H1 H2]. unfold DES_FP, DES_IP. cbv zeta.
  rewrite !xswap_involutive, !yswap_involutive by mask.
  set (A := xswap 0 0xAAAAAAAA (ror1 (fst XY), snd XY)).
  assert (words A) as [HA1 HA2] by (apply xswap_words; [mask|mask|by split; [apply ror1_word|]]).
  cbn [fst snd]. rewrite rol1_ror1 by done. rewrite <- surjective_pairing. unfold A.
  rewrite xswap_involutive by mask. cbn [fst snd]. rewrite rol1_ror1 by done. by destruct XY.
Qed.

Lemma DES_IP_words XY : words XY -> words (DES_IP XY).
Proof.
  intros H. unfold DES_IP. cbv zeta. split; [apply rol1_word|]. cbn [snd].
  apply xswap_words; [mask|mask|]. split; [|apply rol1_word]. cbn [fst].
  apply (yswap_words 8 0x00FF00FF); [mask|mask|]. swap_words_tac. exact H.
Qed.

Lemma DES_FP_words XY : words XY -> words (DES_FP XY).
Proof.
  intros [H1 H2]. unfold DES_FP. cbv zeta.
  swap_words_tac. split; [|apply ror1_word]. cbn [fst].
  apply xswap_words; [mask|mask|]. by split; [apply ror1_word|].
Qed.

(** ** The Feistel network *)

(** Half a pass of the loop body with the roles of [X] and [Y] exchanged
    after it, so that both halves read alike. *)
Definition half (XY : Z * Z) (k : Z * Z) : Z * Z :=
  (snd XY, DES_ROUND (fst k) (snd k) (snd XY) (fst XY)).

Fixpoint pairs (SK : list Z) : list (Z * Z) :=
  match SK with k1 :: k2 :: SK => (k1, k2) :: pairs SK | _ => [] end.
Fixpoint unpairs (ks : list (Z * Z)) : list Z :=
  match ks with (k1, k2) :: ks => k1 :: k2 :: unpairs ks | [] => [] end.
(** The subkeys of the rounds in reverse order. *)
Definition revkeys (SK : list Z) : list Z := unpairs (rev (pairs SK)).

Definition network (SK : list Z) (XY : Z * Z) : Z * Z := fold_left half (pairs SK) XY.

Lemma rounds_network n SK rest XY :
  length SK = (4 * n)%nat -> des_rounds n (SK ++ rest) XY = (rest, network SK XY).
Proof.
  revert SK XY. induction n as [|n IH]; intros SK XY HL.
  - by destruct SK.
  - destruct SK as [|k1 [|k2 [|k3 [|k4 SK]]]]; simpl in HL; try lia.
    destruct XY as [X Y]. cbn. rewrite IH by lia. done.
Qed.

Lemma ROUND_twice k X Y : DES_ROUND (fst k) (snd k) X (DES_ROUND (fst k) (snd k) X Y) = Y.
Proof.
  unfold DES_ROUND. cbv zeta.
  match goal with |- Y .^ ?a .^ ?b .^ ?c .^ ?d = _ => change c with a; change d with b; set (A := a); set (B := b) end.
  bitwise n Hn. rewrite !Z.lxor_spec. by destruct (Z.testbit Y n), (Z.testbit A n), (Z.testbit B n).
Qed.

Lemma half_undo k XY : half (flip (half XY k)) k = flip XY.
Proof. unfold half, flip. cbn [fst snd]. by rewrite ROUND_twice. Qed.

Lemma pairs_unpairs ks : pairs (unpairs ks) = ks.
Proof. induction ks as [|[] ks IH]; cbn; [done|]. by rewrite IH. Qed.

Lemma network_undo SK XY : network (revkeys SK) (flip (network SK XY)) = flip XY.
Proof.
  unfold network, revkeys. rewrite pairs_unpairs. revert XY.
  induction (pairs SK) as [|k ks IH]; intros XY; [done|]. cbn [rev].
  rewrite fold_left_app. cbn [fold_left]. rewrite IH. apply half_undo.
Qed.

Lemma length_unpairs ks : length (unpairs ks) = (2 * length ks)%nat.
Proof. induction ks as [|[] ks IH]; cbn; lia. Qed.
Lemma length_pairs n SK : length SK = (2 * n)%nat -> length (pairs SK) = n.
Proof.
  revert SK. induction n as [|n IH]; intros SK H; [by destruct SK|].
  destruct SK as [|a [|b SK]]; simpl in *; try lia. rewrite IH; lia.
Qed.
Lemma length_revkeys n SK : length SK = (2 * n)%nat -> length (revkeys SK) = (2 * n)%nat.
Proof. intros H. unfold revkeys. rewrite length_unpairs, length_rev. by rewrite (length_pairs n). Qed.

Lemma unpairs_pairs n SK : length SK = (2 * n)%nat -> unpairs (pairs SK) = SK.
Proof.
  revert SK. induction n as [|n IH]; intros SK H; [by destruct SK|].
  destruct SK as [|a [|b SK]]; simpl in *; try lia. rewrite IH; [done|lia].
Qed.
Lemma revkeys_twice n SK : length SK = (2 * n)%nat -> revkeys (revkeys SK) = SK.
Proof.
  intros H. unfold revkeys. rewrite pairs_unpairs, rev_involutive. by apply (unpairs_pairs n).
Qed.

Lemma network_undo' n SK XY : length SK = (2 * n)%nat -> network SK (flip (network (revkeys SK) XY)) = flip XY.
Proof. intros H. rewrite <- (revkeys_twice n SK) at 1 by done. apply network_undo. Qed.

(** Words stay words. *)
Lemma tab_word t i : Forall is_word t -> is_word (tab t i).
Proof.
  intros H. unfold tab. destruct (nth_in_or_default (Z.to_nat i) t 0) as [Hin| ->].
  - eapply Forall_forall in H; [exact H|]. by apply list_elem_of_In.
  - unfold is_word. lia.
Qed.

Lemma ROUND_word k1 k2 X Y : is_word Y -> is_word (DES_ROUND k1 k2 X Y).
Proof.
  intros HY. unfold DES_ROUND. cbv zeta. repeat apply is_word_lxor; try done; apply tab_word;
    (repeat apply Forall_cons_2; [vm_compute; split; congruence..|apply Forall_nil_2]).
Qed.

Lemma network_words SK XY : words XY -> words (network SK XY).
Proof.
  unfold network. revert XY. induction (pairs SK) as [|k ks IH]; intros XY H; [done|].
  apply IH. destruct H as [HX HY]. split; [done|]. by apply ROUND_word.
Qed.

(** ** Blocks *)

Definition block (b : list Z) : Prop := length b = 8%nat /\ Forall is_byte b.

Lemma block_bytes b : block b -> exists b0 b1 b2 b3 b4 b5 b6 b7, b = [b0; b1; b2; b3; b4; b5; b6; b7] /\
  Forall is_byte [b0; b1; b2; b3; b4; b5; b6; b7].
Proof.
  intros [HL HF]. do 8 (destruct b as [|? b]; [done|]). destruct b; [|done].
  do 8 eexists. split; [reflexivity|done].
Qed.

Lemma load_words b : block b -> words (load_block b).
Proof.
  intros (b0 & b1 & b2 & b3 & b4 & b5 & b6 & b7 & -> & HF)%block_bytes.
  rewrite !Forall_cons in HF. destruct HF as (? & ? & ? & ? & ? & ? & ? & ? & _).
  unfold words, load_block, get_ulong_be. cbn [fst snd nth Nat.add].
  split; apply is_word_get_be; assumption.
Qed.

Lemma put_be_block Y X : block (put_be Y ++ put_be X).
Proof. split; [done|]. repeat constructor; apply is_byte_u8. Qed.

Lemma load_put Y X : is_word Y -> is_word X -> load_block (put_be Y ++ put_be X) = (Y, X).
Proof. intros. unfold load_block, get_ulong_be, put_be. cbn. by rewrite !get_put_be. Qed.

Lemma store_block_block XY : block (store_block XY).
Proof. unfold store_block. destruct (DES_FP _). apply put_be_block. Qed.

Lemma load_store XY : words XY -> DES_IP (load_block (store_block XY)) = flip XY.
Proof.
  intros H. unfold store_block. pose proof (DES_FP_words _ (flip_words _ H)) as [H1 H2].
  pose proof (DES_IP_FP _ (flip_words _ H)) as E. destruct (DES_FP (flip XY)) as [Y X].
  by rewrite load_put.
Qed.

Lemma store_load b : block b -> store_block (flip (DES_IP (load_block b))) = b.
Proof.
  intros Hb. unfold store_block. rewrite flip_flip, DES_FP_IP by (by apply load_words).
  destruct (block_bytes b Hb) as (b0 & b1 & b2 & b3 & b4 & b5 & b6 & b7 & -> & HF).
  rewrite !Forall_cons in HF. destruct HF as (? & ? & ? & ? & ? & ? & ? & ? & _).
  unfold load_block, get_ulong_be. cbn [nth Nat.add]. by rewrite !put_get_be by assumption.
Qed.

(** Encryption and decryption of a block with reversed subkeys. *)
Lemma ecb_network sk b : length sk = 32%nat -> des_crypt_ecb sk b = store_block (network sk (DES_IP (load_block b))).
Proof.
  intros HL. unfold des_crypt_ecb. rewrite <- (app_nil_r sk) at 1. by rewrite rounds_network.
Qed.
Lemma ecb3_network k1 k2 k3 b :
  length k1 = 32%nat -> length k2 = 32%nat -> length k3 = 32%nat ->
  des3_crypt_ecb (k1 ++ k2 ++ k3) b =
    store_block (network k3 (flip (network k2 (flip (network k1 (DES_IP (load_block b))))))).
Proof.
  intros H1 H2 H3. unfold des3_crypt_ecb. rewrite rounds_network by done. rewrite rounds_network by done.
  rewrite <- (app_nil_r k3) at 1. by rewrite rounds_network.
Qed.

Lemma ecb_undo sk b : length sk = 32%nat -> block b -> des_crypt_ecb (revkeys sk) (des_crypt_ecb sk b) = b.
Proof.
  intros HL Hb. rewrite !ecb_network by (done || by apply (length_revkeys 16)).
  rewrite load_store by (by apply network_words, DES_IP_words, load_words).
  rewrite network_undo. by apply store_load.
Qed.

Lemma ecb3_undo k1 k2 k3 b :
  length k1 = 32%nat -> length k2 = 32%nat -> length k3 = 32%nat -> block b ->
  des3_crypt_ecb (revkeys k3 ++ k2 ++ revkeys k1) (des3_crypt_ecb (k1 ++ revkeys k2 ++ k3) b) = b.
Proof.
  intros H1 H2 H3 Hb. rewrite !ecb3_network by (done || by apply (length_revkeys 16)).
  rewrite load_store.
  2:{ apply network_words, flip_words, network_words, flip_words, network_words, DES_IP_words, load_words, Hb. }
  rewrite network_undo, flip_flip, (network_undo' 16) by done.
  rewrite flip_flip, network_undo. by apply store_load.
Qed.

(** ** Key schedules *)

Lemma length_setkey key : length (des_setkey key) = 32%nat.
Proof. unfold des_setkey. by destruct (des_pc1 key). Qed.

(** A list of a known length, as its elements. *)
Ltac listify l H :=
  first [destruct l as [|? l]; [discriminate H|listify l H] | destruct l; [clear H|discriminate H]].

Lemma setkey_dec_revkeys key : des_setkey_dec key = revkeys (des_setkey key).
Proof.
  unfold des_setkey_dec. pose proof (length_setkey key) as H. generalize dependent (des_setkey key).
  intros sk H. listify sk H. vm_compute. reflexivity.
Qed.

(** The schedules of triple DES: with two keys and with three. *)
Lemma set2key_keys esk dsk key :
  length esk = 96%nat -> length dsk = 96%nat ->
  let k1 := des_setkey key in let k2 := des_setkey (drop 8 key) in
  des3_set2key esk dsk key = (k1 ++ revkeys k2 ++ k1, revkeys k1 ++ k2 ++ revkeys k1).
Proof.
  intros HE HD k1 k2. unfold des3_set2key. fold k1 k2.
  assert (length k1 = 32%nat) as H1 by apply length_setkey.
  assert (length k2 = 32%nat) as H2 by apply length_setkey.
  clearbody k1 k2. listify k1 H1. listify k2 H2. listify esk HE. listify dsk HD.
  vm_compute. reflexivity.
Qed.

Lemma set3key_keys esk dsk key :
  length esk = 96%nat -> length dsk = 96%nat ->
  let k1 := des_setkey key in let k2 := des_setkey (drop 8 key) in let k3 := des_setkey (drop 16 key) in
  des3_set3key esk dsk key = (k1 ++ revkeys k2 ++ k3, revkeys k3 ++ k2 ++ revkeys k1).
Proof.
  intros HE HD k1 k2 k3. unfold des3_set3key. fold k1 k2 k3.
  assert (length k1 = 32%nat) as H1 by apply length_setkey.
  assert (length k2 = 32%nat) as H2 by apply length_setkey.
  assert (length k3 = 32%nat) as H3 by apply length_setkey.
  clearbody k1 k2 k3. listify k1 H1. listify k2 H2. listify k3 H3. listify esk HE. listify dsk HD.
  vm_compute. reflexivity.
Qed.

Lemma ecb_block sk b : block (des_crypt_ecb sk b).
Proof. unfold des_crypt_ecb. destruct (des_rounds _ _ _). apply store_block_block. Qed.
Lemma ecb3_block sk b : block (des3_crypt_ecb sk b).
Proof.
  unfold des3_crypt_ecb. destruct (des_rounds 8 sk _) as [sk' XY].
  destruct (des_rounds 8 sk' _) as [sk'' YX]. destruct (des_rounds 8 sk'' _). apply store_block_block.
Qed.

(** ** Chaining *)

Lemma xor_bytes_block a b : block a -> block b -> block (xor_bytes a b).
Proof.
  intros [HA _] [HB _]. split; [unfold xor_bytes; rewrite length_zip_with; lia|].
  unfold xor_bytes. apply Forall_zip_with_fst with (P := fun _ => True); [by apply Forall_true|].
  apply Forall_true. intros y x _. apply is_byte_u8.
Qed.

Lemma xor_bytes_twice a b : block a -> block b -> xor_bytes (xor_bytes a b) b = a.
Proof.
  intros [HA FA] [HB FB]. unfold xor_bytes. revert b HB FB. generalize dependent 8%nat.
  induction a as [|x a IH]; intros n HA b HB FB; [by destruct b|].
  destruct b as [|y b]; simpl in *; [lia|]. inversion FA. inversion FB. subst. f_equal.
  - rewrite (u8_id (x .^ y)) by (by apply is_byte_lxor).
    rewrite Z.lxor_assoc, Z.lxor_nilpotent, Z.lxor_0_r. by apply u8_id.
  - by apply (IH H2 (length a)); [|lia|].
Qed.

Section chaining.
Context (enc dec : list Z -> list Z).
Context (Hblock : forall b, block b -> block (enc b)) (Hdec : forall b, block b -> dec (enc b) = b).

Lemma cbc_undo n iv input fuel :
  length input = (8 * n)%nat -> Forall is_byte input -> block iv -> (n <= fuel)%nat ->
  exists output iv',
    crypt_cbc enc fuel DES_ENCRYPT (Z.of_nat (8 * n)) iv input = Some (output, iv') /\
    crypt_cbc dec fuel DES_DECRYPT (Z.of_nat (8 * n)) iv output = Some (input, iv') /\
    length output = (8 * n)%nat /\ Forall is_byte output.
Proof.
  revert n iv input. induction fuel as [|fuel IH]; intros n iv input HL HF Hiv Hn.
  { assert (n = 0%nat) as -> by lia. destruct input; [|done]. by exists [], iv. }
  destruct n as [|n].
  { destruct input; [|done]. by exists [], iv. }
  set (b := take 8 input).
  assert (block b) as Hb by (split; [unfold b; rewrite length_take; lia|by apply Forall_take]).
  set (c := enc (xor_bytes b iv)).
  assert (block c) as Hc by (by apply Hblock, xor_bytes_block).
  destruct (IH n c (drop 8 input)) as (out & iv' & E1 & E2 & L & F);
    [rewrite length_drop; lia|by apply Forall_drop|done|lia|].
  assert (xor_bytes (dec c) iv = b) as Ec.
  { unfold c. rewrite Hdec by (by apply xor_bytes_block). by apply xor_bytes_twice. }
  destruct Hc as [Lc Fc]. exists (c ++ out), iv'.
  cbn [crypt_cbc]. rewrite (proj2 (Z.leb_gt _ _)) by lia.
  replace (Z.of_nat (8 * S n) - 8) with (Z.of_nat (8 * n)) by lia.
  assert (forall l : list Z, (8 <= length l)%nat -> (length l <? 8)%nat = false) as Hlen
    by (intros; by apply Nat.ltb_ge).
  rewrite !Hlen by (rewrite ?length_app; lia). cbn [cbc_block]. fold b c. rewrite E1.
  rewrite take_app_length', drop_app_length' by done. rewrite E2, Ec.
  split_and!; [done|unfold b; by rewrite take_drop|rewrite length_app; lia|by apply Forall_app].
Qed.
End chaining.

(** ** The ciphers *)

(** DES decrypts what it encrypts: for every key, a block encrypted with
    the encryption schedule and then decrypted with the decryption schedule is
    the block. *)
Theorem des_decrypts key b :
  block b -> des_crypt_ecb (des_setkey_dec key) (des_crypt_ecb (des_setkey_enc key) b) = b.
Proof.
  intros Hb. rewrite setkey_dec_revkeys. unfold des_setkey_enc.
  apply ecb_undo; [apply length_setkey|done].
Qed.

(** C4: triple DES decrypts what it encrypts, with two keys and with three,
    whatever the context and the local array held before the schedules were
    made. *)
Theorem des3_decrypts key b ctx sk ctx' sk' :
  block b -> Forall (fun a => length a = 96%nat) [ctx; sk; ctx'; sk'] ->
  des3_crypt_ecb (des3_set2key_dec ctx' sk' key) (des3_crypt_ecb (des3_set2key_enc ctx sk key) b) = b /\
  des3_crypt_ecb (des3_set3key_dec ctx' sk' key) (des3_crypt_ecb (des3_set3key_enc ctx sk key) b) = b.
Proof.
  intros Hb HF. rewrite !Forall_cons in HF. destruct HF as (H1 & H2 & H3 & H4 & _).
  unfold des3_set2key_dec, des3_set2key_enc, des3_set3key_dec, des3_set3key_enc.
  rewrite !set2key_keys, !set3key_keys by done. cbn [fst snd].
  split; apply ecb3_undo; auto using length_setkey.
Qed.

(** The CBC modes of DES and triple DES are inverse: a buffer of whole
    blocks encrypted and then decrypted from the same [iv] is the buffer, and
    both leave the same [iv] for the next call. *)
Theorem cbc_decrypts key n iv input ctx sk :
  length input = (8 * n)%nat -> Forall is_byte input -> block iv ->
  length ctx = 96%nat -> length sk = 96%nat ->
  let len := Z.of_nat (8 * n) in
  (exists output iv',
     des_crypt_cbc (des_setkey_enc key) DES_ENCRYPT len iv input = Some (output, iv') /\
     des_crypt_cbc (des_setkey_dec key) DES_DECRYPT len iv output = Some (input, iv')) /\
  (exists output iv',
     des3_crypt_cbc (des3_set3key_enc ctx sk key) DES_ENCRYPT len iv input = Some (output, iv') /\
     des3_crypt_cbc (des3_set3key_dec ctx sk key) DES_DECRYPT len iv output = Some (input, iv')).
Proof.
  intros HL HF Hiv H1 H2 len. unfold des_crypt_cbc, des3_crypt_cbc.
  assert (n <= Z.to_nat len)%nat as Hn by lia. split.
  - assert (forall b, block b -> des_crypt_ecb (des_setkey_dec key) (des_crypt_ecb (des_setkey_enc key) b) = b) as Hd.
    { intros b Hb. rewrite setkey_dec_revkeys. apply ecb_undo; [apply length_setkey|done]. }
    destruct (cbc_undo _ _ (fun b _ => ecb_block _ b) Hd n iv input _ HL HF Hiv Hn) as (out & iv' & E1 & E2 & _).
    exists out, iv'. split; [exact E1|exact E2].
  - assert (forall b, block b -> des3_crypt_ecb (des3_set3key_dec ctx sk key)
      (des3_crypt_ecb (des3_set3key_enc ctx sk key) b) = b) as Hd.
    { intros b Hb. unfold des3_set3key_enc, des3_set3key_dec. rewrite !set3key_keys by done.
      cbn [fst snd]. apply ecb3_undo; auto using length_setkey. }
    destruct (cbc_undo _ _ (fun b _ => ecb3_block _ b) Hd n iv input _ HL HF Hiv Hn) as (out & iv' & E1 & E2 & _).
    exists out, iv'. split; [exact E1|exact E2].
Qed.

(** The vector of the self test: "Now is t" under its first key. *)
Definition DES3_key : list Z := [0x01; 0x23; 0x45; 0x67; 0x89; 0xAB; 0xCD; 0xEF].
Definition DES3_init : list Z := [0x4E; 0x6F; 0x77; 0x20; 0x69; 0x73; 0x20; 0x74].

Lemma DES3_init_block : block DES3_init.
Proof. split; [done|]. repeat constructor; vm_compute; congruence. Qed.

Lemma des_decrypts_vector :
  des_crypt_ecb (des_setkey_enc DES3_key) DES3_init = [0x3F; 0xA4; 0x0E; 0x8A; 0x98; 0x4D; 0x48; 0x15] /\
  des_crypt_ecb (des_setkey_dec DES3_key) (des_crypt_ecb (des_setkey_enc DES3_key) DES3_init) = DES3_init.
Proof.
  split; [vm_compute; reflexivity|]. apply des_decrypts. exact DES3_init_block.
Defined.

Lemma des3_decrypts_vector :
  let z := replicate 96 0 in let key := DES3_key ++ DES3_key ++ DES3_key in
  des3_crypt_ecb (des3_set2key_dec z z key) (des3_crypt_ecb (des3_set2key_enc z z key) DES3_init) = DES3_init.
Proof.
  intros z key. apply (des3_decrypts key DES3_init z z z z); [exact DES3_init_block|by repeat constructor].
Defined.

Lemma cbc_decrypts_vector :
  let z := replicate 96 0 in let key := DES3_key ++ DES3_key ++ DES3_key in
  exists output iv',
    des_crypt_cbc (des_setkey_enc key) DES_ENCRYPT (Z.of_nat (8 * 2)) DES3_init (DES3_init ++ DES3_key) = Some (output, iv') /\
    des_crypt_cbc (des_setkey_dec key) DES_DECRYPT (Z.of_nat (8 * 2)) DES3_init output = Some (DES3_init ++ DES3_key, iv').
Proof.
  intros z key.
  destruct (cbc_decrypts key 2 DES3_init (DES3_init ++ DES3_key) z z) as [(output & iv' & E1 & E2) _];
    [reflexivity|repeat constructor; vm_compute; congruence|exact DES3_init_block|reflexivity|reflexivity|].
  exists output, iv'. split; [exact E1|exact E2].
Defined.
