(* ===== verification/Rc4.v ===== *)
(** * RC4: [drivers/crypt/rc4.c]

    The state is the array of 256 bytes the callers pass; an index outside an
    array is [None].  [rc4_crypt] works in place; the model returns the state
    and the data it leaves. *)
From S2P Require Import Prelude Bits.

(** [t = state[i]; state[i] = state[j]; state[j] = t;] *)
Definition rc4_swap (state : list Z) (i j : Z) : option (list Z) :=
  match state !! Z.to_nat i, state !! Z.to_nat j with
  | Some t, Some u => Some (<[Z.to_nat j := t]> (<[Z.to_nat i := u]> state))
  | _, _ => None
  end.

(** The second loop of [rc4_init], [n] rounds from [i] on. *)
Fixpoint rc4_mix (n : nat) (i j : Z) (key : list Z) (len : Z) (state : list Z) : option (list Z) :=
  match n with
  | O => Some state
  | S n =>
      match state !! Z.to_nat i, key !! Z.to_nat (Z.rem i len) with
      | Some si, Some k =>
          let j := Z.rem (j + si + k) 256 in
          match rc4_swap state i j with
          | Some state => rc4_mix n (i + 1) j key len state
          | None => None
          end
      | _, _ => None
      end
  end.

Definition rc4_identity : list Z := Z.of_nat <$> seq 0 256.

(** [i % len] with a zero length is undefined. *)
Definition rc4_init (key : list Z) (len : Z) : option (list Z) :=
  if len =? 0 then None else rc4_mix 256 0 0 key len rc4_identity.

(** The loop of [rc4_crypt] over the [n] bytes left. *)
Fixpoint rc4_loop (n : nat) (i j : Z) (state data : list Z) : option (list Z * list Z) :=
  match n, data with
  | O, _ => Some (state, data)
  | S _, [] => None
  | S n, d :: data =>
      let i := Z.rem (i + 1) 256 in
      match state !! Z.to_nat i with
      | None => None
      | Some si =>
          let j := Z.rem (j + si) 256 in
          match rc4_swap state i j with
          | None => None
          | Some state =>
              match state !! Z.to_nat i, state !! Z.to_nat j with
              | Some a, Some b =>
                  match state !! Z.to_nat (Z.rem (a + b) 256) with
                  | Some k =>
                      match rc4_loop n i j state data with
                      | Some (state, data) => Some (state, u8 (d .^ k) :: data)
                      | None => None
                      end
                  | None => None
                  end
              | _, _ => None
              end
          end
      end
  end.

Definition rc4_crypt (state data : list Z) (len : Z) : option (list Z * list Z) :=
  rc4_loop (Z.to_nat len) 0 0 state data.

(** ** The state stays a permutation *)

(** Every byte value once. *)
Definition rc4_state (state : list Z) : Prop := state ≡ₚ rc4_identity.

Lemma insert_perm (l : list Z) j a b : l !! j = Some b -> b :: <[j := a]> l ≡ₚ a :: l.
Proof.
  intros Hj. rewrite insert_take_drop by (by eapply lookup_lt_Some).
  rewrite <- (take_drop_middle l j b Hj) at 3. rewrite <- !Permutation_middle. constructor.
Qed.

Lemma swap_perm (l : list Z) i j a b :
  l !! i = Some a -> l !! j = Some b -> <[j := a]> (<[i := b]> l) ≡ₚ l.
Proof.
  revert i j. induction l as [|x l IH]; intros i j Hi Hj; [done|].
  destruct i as [|i], j as [|j]; simplify_eq/=; [done|by apply insert_perm..|].
  constructor. by apply IH.
Qed.

Lemma state_lookup s i : rc4_state s -> 0 <= i < 256 -> exists v, s !! Z.to_nat i = Some v /\ is_byte v.
Proof.
  intros Hs Hi. unfold rc4_state in Hs. assert (length s = 256%nat) as HL by (by rewrite Hs).
  destruct (lookup_lt_is_Some_2 s (Z.to_nat i)) as [v Hv]; [lia|]. exists v. split; [done|].
  apply list_elem_of_lookup_2 in Hv. rewrite Hs in Hv. unfold rc4_identity in Hv.
  apply list_elem_of_fmap in Hv as (n & -> & Hn%elem_of_seq). unfold is_byte. lia.
Qed.

Lemma rem_256 x : 0 <= x -> 0 <= Z.rem x 256 < 256.
Proof. intros. apply Z.rem_bound_pos; lia. Qed.

Lemma rc4_swap_ok s i j : rc4_state s -> 0 <= i < 256 -> 0 <= j < 256 ->
  exists s', rc4_swap s i j = Some s' /\ rc4_state s'.
Proof.
  intros Hs Hi Hj. destruct (state_lookup s i Hs Hi) as (a & Ha & _). destruct (state_lookup s j Hs Hj) as (b & Hb & _).
  unfold rc4_swap. rewrite Ha, Hb. eexists. split; [done|]. unfold rc4_state in *. rewrite <- Hs. by apply swap_perm.
Qed.

Lemma rc4_mix_ok n i j key len s :
  rc4_state s -> 0 <= i -> i + Z.of_nat n <= 256 -> 0 <= j < 256 ->
  0 < len <= Z.of_nat (length key) -> Forall is_byte key ->
  exists s', rc4_mix n i j key len s = Some s' /\ rc4_state s'.
Proof.
  revert i j s. induction n as [|n IH]; intros i j s Hs Hi Hn Hj Hlen Hk; [by exists s|].
  cbn [rc4_mix]. destruct (state_lookup s i Hs ltac:(lia)) as (a & Ha & Hab). rewrite Ha.
  assert (0 <= Z.rem i len < len) as Hr by (apply Z.rem_bound_pos; lia).
  destruct (lookup_lt_is_Some_2 key (Z.to_nat (Z.rem i len))) as [k Hkk]; [lia|]. rewrite Hkk.
  assert (is_byte k) as Hkb by (eapply Forall_lookup_1; eauto). unfold is_byte in *.
  destruct (rc4_swap_ok s i (Z.rem (j + a + k) 256) Hs ltac:(lia) (rem_256 (j + a + k) ltac:(lia))) as (s' & -> & Hs').
  apply IH; try done; try lia. apply rem_256. lia.
Qed.

(** For every key of at least one byte, [rc4_init] fills the state with a
    permutation of the 256 byte values. *)
Theorem rc4_init_permutation key len :
  0 < len <= Z.of_nat (length key) -> Forall is_byte key ->
  exists state, rc4_init key len = Some state /\ rc4_state state.
Proof.
  intros Hlen Hk. unfold rc4_init. rewrite (proj2 (Z.eqb_neq _ _)) by lia.
  apply rc4_mix_ok; [unfold rc4_state; reflexivity|lia|lia|lia|done|done].
Qed.

(** ** Decryption *)

(** From any permutation the loop runs to the end of its data; running it again
    from the same state on what it produced gives the data back. *)
Lemma rc4_loop_undo n i j s data :
  rc4_state s -> 0 <= i < 256 -> 0 <= j < 256 -> Forall is_byte data -> (n <= length data)%nat ->
  exists s' out, rc4_loop n i j s data = Some (s', out) /\ rc4_loop n i j s out = Some (s', data) /\
    rc4_state s' /\ Forall is_byte out /\ length out = length data.
Proof.
  revert i j s data. induction n as [|n IH]; intros i j s data Hs Hi Hj HF HL; [by exists s, data|].
  destruct data as [|d data]; [simpl in HL; lia|]. inversion HF as [|?? Hd HF']; subst. cbn [rc4_loop].
  pose proof (rem_256 (i + 1) ltac:(lia)) as Hi'. set (i' := Z.rem (i + 1) 256) in *.
  destruct (state_lookup s i' Hs Hi') as (a & Ha & Hab). rewrite Ha. unfold is_byte in Hab.
  pose proof (rem_256 (j + a) ltac:(lia)) as Hj'. set (j' := Z.rem (j + a) 256) in *.
  destruct (rc4_swap_ok s i' j' Hs Hi' Hj') as (s1 & -> & Hs1).
  destruct (state_lookup s1 i' Hs1 Hi') as (x & -> & Hx). destruct (state_lookup s1 j' Hs1 Hj') as (y & -> & Hy).
  unfold is_byte in Hx, Hy.
  destruct (state_lookup s1 (Z.rem (x + y) 256) Hs1 (rem_256 (x + y) ltac:(lia))) as (k & -> & Hk).
  destruct (IH i' j' s1 data Hs1 Hi' Hj' HF' ltac:(simpl in HL; lia)) as (s' & out & E1 & E2 & Hs' & HFo & HLo).
  exists s', (u8 (d .^ k) :: out). rewrite E1, E2. split; [done|]. split.
  - repeat f_equal. rewrite (u8_id (d .^ k)) by (by apply is_byte_lxor).
    rewrite Z.lxor_assoc, Z.lxor_nilpotent, Z.lxor_0_r. by apply u8_id.
  - split_and!; [done|constructor; [apply is_byte_u8|done]|simpl; lia].
Qed.

(** RC4 decrypts what it encrypts: with the state of the same key, a second
    [rc4_crypt] of what the first produced gives the data back, and both leave
    the same state, again a permutation. *)
Theorem rc4_decrypts key klen data :
  0 < klen <= Z.of_nat (length key) -> Forall is_byte key -> Forall is_byte data ->
  exists state state' out, rc4_init key klen = Some state /\
    let len := Z.of_nat (length data) in
    rc4_crypt state data len = Some (state', out) /\
    rc4_crypt state out len = Some (state', data) /\ rc4_state state'.
Proof.
  intros Hlen Hk HF. unfold rc4_init. rewrite (proj2 (Z.eqb_neq _ _)) by lia.
  destruct (rc4_mix_ok 256 0 0 key klen rc4_identity) as (s & Es & Hs); [unfold rc4_state; reflexivity|lia|lia|lia|done|done|].
  destruct (rc4_loop_undo (length data) 0 0 s data Hs ltac:(lia) ltac:(lia) HF ltac:(lia))
    as (s' & out & E1 & E2 & Hs' & _). exists s, s', out. split; [done|].
  unfold rc4_crypt. by rewrite Nat2Z.id.
Qed.

(** The known vector: "Plaintext" under the key "Key". *)
Definition rc4_key : list Z := [0x4B; 0x65; 0x79].
Definition rc4_plain : list Z := [0x50; 0x6C; 0x61; 0x69; 0x6E; 0x74; 0x65; 0x78; 0x74].

Lemma rc4_init_permutation_vector :
  exists state, rc4_init rc4_key 3 = Some state /\ rc4_state state.
Proof.
  apply rc4_init_permutation; [vm_compute; split; congruence|repeat constructor; vm_compute; congruence].
Defined.

Lemma rc4_decrypts_vector :
  (s ← rc4_init rc4_key 3; snd <$> rc4_crypt s rc4_plain 9)
    = Some [0xBB; 0xF3; 0x16; 0xE8; 0xD9; 0x40; 0xAF; 0x0A; 0xD3] /\
  exists state state' out, rc4_init rc4_key 3 = Some state /\
    rc4_crypt state rc4_plain 9 = Some (state', out) /\ rc4_crypt state out 9 = Some (state', rc4_plain).
Proof.
  split; [vm_compute; reflexivity|].
  destruct (rc4_decrypts rc4_key 3 rc4_plain) as (state & state' & out & H1 & H2 & H3 & _);
    [vm_compute; split; congruence|repeat constructor; vm_compute; congruence..|].
  exists state, state', out. split; [exact H1|]. split; [exact H2|exact H3].
Defined.
