(* ===== verification/Sha1.v ===== *)
(** * SHA-1 and HMAC-SHA-1: [drivers/crypt/sha1.c], [hmac_sha1.c]

    Buffers are lists of bytes.  [SHA1_Transform] expands the message schedule
    in the buffer it is given, so it returns the buffer as well as the state;
    [SHA1_Update] hands it pieces of the caller's data, so it returns the
    caller's data as it leaves it. *)
From S2P Require Import Prelude Bits.

(** ** The compression function *)

Definition SHA1_BLOCK_LENGTH : nat := 64.
Definition SHA1_DIGEST_LENGTH : nat := 20.

(** [state[0]] to [state[4]]. *)
Definition hash : Type := (Z * Z * Z * Z * Z)%type.

Definition at_ (l : list Z) (i : Z) : Z := nth (Z.to_nat i) l 0.

(** [blk(i)]: the value, and the block with [l[i&15]] assigned. *)
Definition blk (l : list Z) (i : Z) : Z * list Z :=
  let v := rol (at_ l ((i + 13) .& 15) .^ at_ l ((i + 8) .& 15) .^ at_ l ((i + 2) .& 15) .^ at_ l (i .& 15)) 1 in
  (v, <[Z.to_nat (i .& 15) := v]> l).
(** [blk0(i)] on a big-endian machine. *)
Definition blk0 (l : list Z) (i : Z) : Z * list Z := (at_ l i, l).

(** The rounds [Rn(v,w,x,y,z,i)].  The code names the five variables in
    rotated order from one round to the next; here the tuple is rotated. *)
Definition R_ (f : Z -> Z -> Z -> Z) (k : Z) (b : list Z -> Z -> Z * list Z)
    (st : hash * list Z) (i : Z) : hash * list Z :=
  let '((v, w, x, y, z), l) := st in
  let (m, l) := b l i in
  ((u32 (z + u32 (f w x y + m + k + rol v 5)), v, rol w 30, x, y), l).

Definition R0 := R_ (fun w x y => (w .& (x .^ y)) .^ y) 0x5A827999 blk0.
Definition R1 := R_ (fun w x y => (w .& (x .^ y)) .^ y) 0x5A827999 blk.
Definition R2 := R_ (fun w x y => w .^ x .^ y) 0x6ED9EBA1 blk.
Definition R3 := R_ (fun w x y => ((w .| x) .& y) .| (w .& x)) 0x8F1BBCDC blk.
Definition R4 := R_ (fun w x y => w .^ x .^ y) 0xCA62C1D6 blk.

Definition range (a b : nat) : list Z := Z.of_nat <$> seq a (b - a).

Definition SHA1_Transform (state : hash) (buffer : list Z) : hash * list Z :=
  let '(a, b, c, d, e) := state in
  let st := (state, words_of buffer) in
  let st := fold_left R0 (range 0 16) st in
  let st := fold_left R1 (range 16 20) st in
  let st := fold_left R2 (range 20 40) st in
  let st := fold_left R3 (range 40 60) st in
  let st := fold_left R4 (range 60 80) st in
  let '((a', b', c', d', e'), l) := st in
  ((u32 (a + a'), u32 (b + b'), u32 (c + c'), u32 (d + d'), u32 (e + e')), bytes_of l).

(** ** Contexts *)

Record SHA_CTX := mkSHA_CTX {
  state : hash;
  count0 : Z; count1 : Z;       (* count[2]: bits, low word first *)
  buffer : list Z               (* [64] *)
}.
#[global] Instance eta_SHA_CTX : Eta SHA_CTX := fun r =>
  mkSHA_CTX (state r) (count0 r) (count1 r) (buffer r).

Definition SHA1_Init (context : SHA_CTX) : SHA_CTX :=
  context <| state := (0x67452301, 0xEFCDAB89, 0x98BADCFE, 0x10325476, 0xC3D2E1F0) |>
    <| count1 := 0 |> <| count0 := 0 |>.

(** [for ( ; i + 63 < len; i += 64) SHA1_Transform(state, &data[i]);]: the
    state, the data and [i] it leaves.  [fuel] bounds the rounds. *)
Fixpoint update_blocks (fuel : nat) (st : hash) (data : list Z) (i len : Z) : hash * list Z * Z :=
  match fuel with
  | O => (st, data, i)
  | S fuel =>
      if u32 (i + 63) <? len then
        let (st, b) := SHA1_Transform st (take 64 (drop (Z.to_nat i) data)) in
        update_blocks fuel st (write_at (Z.to_nat i) b data) (u32 (i + 64)) len
      else (st, data, i)
  end.

(** The context and the caller's data after the call.  A block takes 64 bytes,
    so [len] rounds are enough. *)
Definition SHA1_Update (context : SHA_CTX) (data : list Z) (len : Z) : SHA_CTX * list Z :=
  let j := (count0 context .>> 3) .& 63 in
  let c0 := u32 (count0 context + (len .<< 3)) in
  let c1 := if c0 <? (len .<< 3) then u32 (count1 context + 1) else count1 context in
  let c1 := u32 (c1 + (len .>> 29)) in
  if 63 <? u32 (j + len) then
    let i := 64 - j in
    let buf := write_at (Z.to_nat j) (take (Z.to_nat i) data) (buffer context) in
    let (st, buf) := SHA1_Transform (state context) buf in
    let '(st, data, i) := update_blocks (Z.to_nat len) st data i len in
    (mkSHA_CTX st c0 c1 (write_at 0 (take (Z.to_nat (len - i)) (drop (Z.to_nat i) data)) buf), data)
  else
    (mkSHA_CTX (state context) c0 c1 (write_at (Z.to_nat j) (take (Z.to_nat len) data) (buffer context)), data).

(** [while ((context->count[0] & 504) != 448) SHA1_Update(context, "\0", 1);]
    at most 64 rounds. *)
Fixpoint pad_zeros (fuel : nat) (context : SHA_CTX) : SHA_CTX :=
  match fuel with
  | O => context
  | S fuel =>
      if negb ((count0 context .& 504) =? 448)
      then pad_zeros fuel (fst (SHA1_Update context [0] 1))
      else context
  end.

Definition digest_of (st : hash) : list Z :=
  let '(a, b, c, d, e) := st in bytes_of [a; b; c; d; e].

(** The digest, and the wiped context. *)
Definition SHA1_Final (context : SHA_CTX) : list Z * SHA_CTX :=
  let finalcount := put_be (count1 context) ++ put_be (count0 context) in
  let context := fst (SHA1_Update context [0x80] 1) in
  let context := pad_zeros 64 context in
  let context := fst (SHA1_Update context finalcount 8) in
  (digest_of (state context), mkSHA_CTX (0, 0, 0, 0, 0) 0 0 (replicate 64 0)).

(** ** HMAC *)

Definition IPAD_BYTE : Z := 0x36.
Definition OPAD_BYTE : Z := 0x5c.
Definition HMAC_SHA1_BLOCK_LENGTH : nat := 64.
Definition HMAC_SHA1_DIGEST_LENGTH : nat := 20.

Record HMAC_SHA1_CTX := mkHMAC {
  ipad : list Z; opad : list Z;        (* [64] *)
  shactx : SHA_CTX;
  key : list Z;                        (* [64] *)
  keylen : Z; hashkey : Z
}.
#[global] Instance eta_HMAC : Eta HMAC_SHA1_CTX := fun r =>
  mkHMAC (ipad r) (opad r) (shactx r) (key r) (keylen r) (hashkey r).

Definition HMAC_SHA1_Init (ctx : HMAC_SHA1_CTX) : HMAC_SHA1_CTX :=
  ctx <| key := replicate 64 0 |> <| ipad := replicate 64 IPAD_BYTE |>
      <| opad := replicate 64 OPAD_BYTE |> <| keylen := 0 |> <| hashkey := 0 |>.

(** The context and the caller's key bytes. *)
Definition HMAC_SHA1_UpdateKey (ctx : HMAC_SHA1_CTX) (k : list Z) (len : Z) : HMAC_SHA1_CTX * list Z :=
  if len <? 1 then (ctx, k) else
  if nz (hashkey ctx) || (64 <? u32 (len + keylen ctx)) then
    let ctx :=
      if hashkey ctx =? 0 then
        let c := SHA1_Init (shactx ctx) in
        let ctx :=
          if 0 <? keylen ctx then
            let (c, kb) := SHA1_Update c (key ctx) (keylen ctx) in
            ctx <| shactx := c |> <| key := kb |>
          else ctx <| shactx := c |> in
        ctx <| hashkey := 1 |> <| keylen := 20 |>
      else ctx in
    let (c, k) := SHA1_Update (shactx ctx) k len in
    (ctx <| shactx := c |>, k)
  else
    (ctx <| key ::= write_at (Z.to_nat (keylen ctx)) (take (Z.to_nat len) k) |>
         <| keylen ::= fun n => u32 (n + len) |>, k).

(** [for (i = 0; i < keylen; i++) *pad++ ^= *key++;] *)
Definition xor_prefix (n : nat) (pad k : list Z) : list Z :=
  zip_with (fun p x => u8 (p .^ x)) (take n pad) (take n k) ++ drop n pad.

Definition HMAC_SHA1_EndKey (ctx : HMAC_SHA1_CTX) : HMAC_SHA1_CTX :=
  let ctx :=
    if nz (hashkey ctx) then
      let (d, c) := SHA1_Final (shactx ctx) in
      ctx <| key := write_at 0 d (replicate 64 0) |> <| shactx := c |>
    else ctx in
  let i := 64 - keylen ctx in
  let ctx :=
    if 0 <? i then ctx <| key ::= write_at (Z.to_nat (keylen ctx)) (replicate (Z.to_nat i) 0) |>
    else ctx in
  let n := Z.to_nat (keylen ctx) in
  ctx <| ipad ::= fun p => xor_prefix n p (key ctx) |> <| opad ::= fun p => xor_prefix n p (key ctx) |>.

Definition HMAC_SHA1_StartMessage (ctx : HMAC_SHA1_CTX) : HMAC_SHA1_CTX :=
  let (c, p) := SHA1_Update (SHA1_Init (shactx ctx)) (ipad ctx) 64 in
  ctx <| shactx := c |> <| ipad := p |>.

Definition HMAC_SHA1_UpdateMessage (ctx : HMAC_SHA1_CTX) (data : list Z) (datalen : Z) : HMAC_SHA1_CTX * list Z :=
  let (c, data) := SHA1_Update (shactx ctx) data datalen in
  (ctx <| shactx := c |>, data).

Definition HMAC_SHA1_EndMessage (ctx : HMAC_SHA1_CTX) : list Z * HMAC_SHA1_CTX :=
  let (buf, c) := SHA1_Final (shactx ctx) in
  let (c, p) := SHA1_Update (SHA1_Init c) (opad ctx) 64 in
  let (c, _) := SHA1_Update c buf 20 in
  let (out, c) := SHA1_Final c in
  (out, ctx <| shactx := c |> <| opad := p |>).

Definition HMAC_SHA1_Done (ctx : HMAC_SHA1_CTX) : HMAC_SHA1_CTX :=
  ctx <| ipad := replicate 64 0 |> <| key := replicate 64 0 |> <| keylen := 0 |> <| hashkey := 0 |>.

(** The 16 bytes written to [res], and the caller's data after the call; the
    local context starts as [ctx]. *)
Definition HMAC_SHA1 (ctx : HMAC_SHA1_CTX) (secret data : list Z) (len : Z) : list Z * list Z :=
  let ctx := HMAC_SHA1_Init ctx in
  let (ctx, _) := HMAC_SHA1_UpdateKey ctx secret 0x10 in
  let ctx := HMAC_SHA1_EndKey ctx in
  let ctx := HMAC_SHA1_StartMessage ctx in
  let (ctx, data) := HMAC_SHA1_UpdateMessage ctx data len in
  let (out, _) := HMAC_SHA1_EndMessage ctx in
  (take 16 out, data).
