(* ===== verification/Sha1Facts.v ===== *)
(** * SHA-1 and HMAC-SHA-1: the code computes the standard functions

    The standard's hash function is written with its 80-word message schedule
    and its padding; the code's in-place schedule, buffering and counting are
    shown to compute it, however the message is cut into calls. *)
From S2P Require Import Prelude Bits Sha1.

(** ** The standard (FIPS 180) *)

(** The schedule [W] grown by [n] words. *)
Fixpoint expand (n : nat) (W : list Z) : list Z :=
  match n with
  | O => W
  | S n => let t := length W in
      expand n (W ++ [rol (nth (t - 3) W 0 .^ nth (t - 8) W 0 .^ nth (t - 14) W 0 .^ nth (t - 16) W 0) 1])
  end.

Definition fips_f (t : nat) (x y z : Z) : Z :=
  if (t <? 20)%nat then (x .& y) .^ Z.ldiff z x
  else if (t <? 40)%nat then x .^ y .^ z
  else if (t <? 60)%nat then (x .& y) .^ (x .& z) .^ (y .& z)
  else x .^ y .^ z.
Definition fips_k (t : nat) : Z :=
  if (t <? 20)%nat then 0x5A827999 else if (t <? 40)%nat then 0x6ED9EBA1
  else if (t <? 60)%nat then 0x8F1BBCDC else 0xCA62C1D6.

Definition fips_round (W : list Z) (h : hash) (t : nat) : hash :=
  let '(a, b, c, d, e) := h in
  (u32 (rol a 5 + fips_f t b c d + e + fips_k t + nth t W 0), a, rol b 30, c, d).

Definition fips_compress (h : hash) (M : list Z) : hash :=
  let '(a, b, c, d, e) := h in
  let '(a', b', c', d', e') := fold_left (fips_round (expand 64 M)) (seq 0 80) h in
  (u32 (a + a'), u32 (b + b'), u32 (c + c'), u32 (d + d'), u32 (e + e')).

(** The first [n] blocks of [m]. *)
Fixpoint hash_blocks (n : nat) (h : hash) (m : list Z) : hash :=
  match n with
  | O => h
  | S n => hash_blocks n (fips_compress h (words_of (take 64 m))) (drop 64 m)
  end.

Definition fips_H0 : hash := (0x67452301, 0xEFCDAB89, 0x98BADCFE, 0x10325476, 0xC3D2E1F0).

(** The message, a one bit, zeros up to 8 bytes before the end of a block, and
    the length in bits. *)
Definition fips_zeros (n : nat) : nat := Z.to_nat ((55 - Z.of_nat n) mod 64).
Definition fips_pad (m : list Z) : list Z :=
  let bits := 8 * Z.of_nat (length m) in
  m ++ [0x80] ++ replicate (fips_zeros (length m)) 0 ++ put_be (u32 (bits / 2 ^ 32)) ++ put_be (u32 bits).
Definition fips_sha1 (m : list Z) : list Z :=
  let p := fips_pad m in digest_of (hash_blocks (length p / 64) fips_H0 p).

(** ** The message schedule *)

Lemma expand_length n W : length (expand n W) = (length W + n)%nat.
Proof. revert W. induction n as [|n IH]; intros W; cbn; [lia|]. rewrite IH, length_app. cbn. lia. Qed.

Lemma expand_old n W t : (t < length W)%nat -> nth t (expand n W) 0 = nth t W 0.
Proof.
  revert W. induction n as [|n IH]; intros W H; cbn; [done|].
  rewrite IH by (rewrite length_app; lia). by rewrite app_nth1.
Qed.

Lemma expand_new n W t :
  (length W <= t < length W + n)%nat -> (16 <= length W)%nat ->
  let X := expand n W in
  nth t X 0 = rol (nth (t - 3) X 0 .^ nth (t - 8) X 0 .^ nth (t - 14) X 0 .^ nth (t - 16) X 0) 1.
Proof.
  revert W. induction n as [|n IH]; intros W H H16 X; [lia|]. unfold X. cbn [expand].
  destruct (decide (t = length W)) as [->|Hne].
  - rewrite !(expand_old n) by (rewrite length_app; cbn; lia).
    rewrite (app_nth2 W) by lia. rewrite Nat.sub_diag. cbn [nth]. by rewrite !app_nth1 by lia.
  - apply IH; rewrite length_app; cbn; lia.
Qed.

(** The circular block of 16 words holds the last 16 words of the schedule
    before round [t]. *)
Definition holds_schedule (W l : list Z) (t : nat) : Prop :=
  length l = 16%nat /\ forall s, (t - 16 <= s < t)%nat -> nth (s mod 16) l 0 = nth s W 0.

Lemma land_15 x : 0 <= x -> x .& 15 = x mod 16.
Proof. intros. change 15 with (Z.ones 4). by rewrite Z.land_ones. Qed.

Lemma at_15 l n : at_ l (Z.of_nat n .& 15) = nth (n mod 16) l 0.
Proof.
  unfold at_. rewrite land_15 by lia. f_equal. change 16 with (Z.of_nat 16).
  by rewrite <- Nat2Z.inj_mod, Nat2Z.id.
Qed.

Lemma blk_schedule M l t :
  length M = 16%nat -> (16 <= t < 80)%nat -> holds_schedule (expand 64 M) l t ->
  let W := expand 64 M in
  fst (blk l (Z.of_nat t)) = nth t W 0 /\ holds_schedule W (snd (blk l (Z.of_nat t))) (S t).
Proof.
  intros HM Ht [HL Hs] W. assert (fst (blk l (Z.of_nat t)) = nth t W 0) as E.
  { unfold W. rewrite (expand_new 64 M t) by lia. cbn [blk fst].
    replace (Z.of_nat t + 13) with (Z.of_nat (t - 3 + 16)) by lia.
    replace (Z.of_nat t + 8) with (Z.of_nat (t - 8 + 16)) by lia.
    replace (Z.of_nat t + 2) with (Z.of_nat (t - 14 + 16)) by lia.
    rewrite !at_15. rewrite <- !(Hs (t - _)%nat) by lia.
    assert (forall a, (a + 16) mod 16 = a mod 16)%nat as Hm 
      by (intros a; replace (a + 16)%nat with (a + 1 * 16)%nat by lia; apply Nat.Div0.mod_add).
    rewrite !Hm. replace (t mod 16)%nat with ((t - 16) mod 16)%nat; [done|]. rewrite <- Hm. f_equal. lia. }
  split; [done|].
  change (snd (blk l (Z.of_nat t))) with (<[Z.to_nat (Z.of_nat t .& 15) := fst (blk l (Z.of_nat t))]> l).
  rewrite E, land_15 by lia. clear E.
  replace (Z.to_nat (Z.of_nat t mod 16)) with (t mod 16)%nat
    by (change 16 with (Z.of_nat 16); by rewrite <- Nat2Z.inj_mod, Nat2Z.id).
  pose proof (Nat.mod_upper_bound t 16 ltac:(lia)).
  split; [by rewrite length_insert|]. intros s Hss. destruct (decide (s = t)) as [->|Hne].
  - rewrite nth_lookup, list_lookup_insert_eq by lia. done.
  - rewrite nth_lookup, list_lookup_insert_ne, <- nth_lookup; [apply Hs; lia|].
    intros Em. pose proof (Nat.div_mod s 16 ltac:(lia)). pose proof (Nat.div_mod t 16 ltac:(lia)). lia.
Qed.

(** ** The rounds *)

Lemma choose_eq w x y : (w .& (x .^ y)) .^ y = (w .& x) .^ Z.ldiff y w.
Proof.
  bitwise n Hn. rewrite !Z.lxor_spec, !Z.land_spec, Z.ldiff_spec, Z.lxor_spec.
  by destruct (Z.testbit w n), (Z.testbit x n), (Z.testbit y n).
Qed.
Lemma majority_eq w x y : ((w .| x) .& y) .| (w .& x) = (w .& x) .^ (w .& y) .^ (x .& y).
Proof.
  bitwise n Hn. rewrite !Z.lxor_spec, !Z.lor_spec, !Z.land_spec, Z.lor_spec.
  by destruct (Z.testbit w n), (Z.testbit x n), (Z.testbit y n).
Qed.

Lemma u32_add_r a b : u32 (a + u32 b) = u32 (a + b).
Proof. unfold u32. apply Zplus_mod_idemp_r. Qed.
Lemma u32_add_l a b : u32 (u32 a + b) = u32 (a + b).
Proof. unfold u32. apply Zplus_mod_idemp_l. Qed.

Lemma R_step f k b W h l t :
  (forall x y z, f x y z = fips_f t x y z) -> k = fips_k t -> fst (b l (Z.of_nat t)) = nth t W 0 ->
  R_ f k b (h, l) (Z.of_nat t) = (fips_round W h t, snd (b l (Z.of_nat t))).
Proof.
  intros Hf -> Hb. unfold R_. destruct h as [[[[v w] x] y] z]. destruct (b l (Z.of_nat t)) as [m l'] eqn:E.
  cbn in Hb. subst m. unfold fips_round. rewrite u32_add_r, Hf. do 5 f_equal. f_equal. lia.
Qed.

Section phases.
Context (M : list Z) (HM : length M = 16%nat).
Let W := expand 64 M.

Lemma phase_blk f k s n h l :
  (16 <= s)%nat -> (s + n <= 80)%nat ->
  (forall t, (s <= t < s + n)%nat -> (forall x y z, f x y z = fips_f t x y z) /\ k = fips_k t) ->
  holds_schedule W l s ->
  exists l', fold_left (R_ f k blk) (Z.of_nat <$> seq s n) (h, l) = (fold_left (fips_round W) (seq s n) h, l') /\
    holds_schedule W l' (s + n).
Proof.
  revert s h l. induction n as [|n IH]; intros s h l Hs Hn Hf Hl.
  { exists l. by rewrite Nat.add_0_r. }
  destruct (blk_schedule M l s HM ltac:(lia) Hl) as [E Hl'].
  destruct (Hf s ltac:(lia)) as [Hf1 Hk]. cbn [seq fmap list_fmap fold_left].
  rewrite (R_step f k blk W h l s Hf1 Hk E).
  destruct (IH (S s) (fips_round W h s) (snd (blk l (Z.of_nat s)))) as (l' & -> & H'); [lia|lia| |done|].
  - intros t Ht. apply Hf. lia.
  - exists l'. split; [done|]. by rewrite Nat.add_succ_comm in H'.
Qed.

Lemma phase_blk0 f k n h :
  (n <= 16)%nat -> (forall t, (t < n)%nat -> (forall x y z, f x y z = fips_f t x y z) /\ k = fips_k t) ->
  fold_left (R_ f k blk0) (Z.of_nat <$> seq 0 n) (h, M) = (fold_left (fips_round W) (seq 0 n) h, M).
Proof.
  intros Hn. assert (forall s k0 h, (s + k0 <= 16)%nat ->
    (forall t, (s <= t < s + k0)%nat -> (forall x y z, f x y z = fips_f t x y z) /\ k = fips_k t) ->
    fold_left (R_ f k blk0) (Z.of_nat <$> seq s k0) (h, M) = (fold_left (fips_round W) (seq s k0) h, M)) as G.
  { intros s k0. revert s. induction k0 as [|k0 IH]; intros s h0 Hs Hf; [done|]. cbn [seq fmap list_fmap fold_left].
    destruct (Hf s ltac:(lia)) as [Hf1 Hk].
    rewrite (R_step f k blk0 W h0 M s Hf1 Hk).
    - apply IH; [lia|]. intros t Ht. apply Hf. lia.
    - unfold blk0, at_. cbn [fst]. rewrite Nat2Z.id. unfold W. symmetry. apply expand_old. lia. }
  intros Hf. apply G; [lia|]. intros t Ht. apply Hf. lia.
Qed.

Ltac phase_side :=
  intros t Ht; unfold fips_f, fips_k;
  repeat first [rewrite (proj2 (Nat.ltb_lt _ _)) by lia | rewrite (proj2 (Nat.ltb_ge _ _)) by lia];
  split; [intros; apply choose_eq || apply majority_eq || done|done].

Lemma rounds_schedule h :
  exists l, fold_left R4 (range 60 80) (fold_left R3 (range 40 60) (fold_left R2 (range 20 40)
    (fold_left R1 (range 16 20) (fold_left R0 (range 0 16) (h, M))))) = (fold_left (fips_round W) (seq 0 80) h, l) /\
    length l = 16%nat.
Proof.
  unfold range, R0, R1, R2, R3, R4. cbn [Nat.sub]. rewrite phase_blk0 by (lia || phase_side).
  assert (holds_schedule W M 16) as H0.
  { split; [done|]. intros s Hs. rewrite Nat.mod_small by lia. unfold W. symmetry. apply expand_old. lia. }
  set (h1 := fold_left (fips_round W) (seq 0 16) h).
  destruct (phase_blk (fun w x y => (w .& (x .^ y)) .^ y) 0x5A827999 16 4 h1 M ltac:(lia) ltac:(lia) ltac:(phase_side) H0) as (l1 & -> & H1).
  destruct (phase_blk (fun w x y => w .^ x .^ y) 0x6ED9EBA1 20 20 (fold_left (fips_round W) (seq 16 4) h1) l1
    ltac:(lia) ltac:(lia) ltac:(phase_side) H1) as (l2 & -> & H2).
  set (h2 := fold_left (fips_round W) (seq 20 20) _).
  destruct (phase_blk (fun w x y => ((w .| x) .& y) .| (w .& x)) 0x8F1BBCDC 40 20 h2 l2 ltac:(lia) ltac:(lia) ltac:(phase_side) H2) as (l3 & -> & H3).
  destruct (phase_blk (fun w x y => w .^ x .^ y) 0xCA62C1D6 60 20 (fold_left (fips_round W) (seq 40 20) h2) l3
    ltac:(lia) ltac:(lia) ltac:(phase_side) H3) as (l4 & -> & H4).
  exists l4. split; [|apply H4]. apply (f_equal (fun x => (x, l4))). unfold h2, h1.
  rewrite <- !fold_left_app. reflexivity.
Qed.
End phases.

(** The compression function of the code is the standard's; the block it works
    in keeps its size. *)
Lemma transform_spec h b :
  length b = 64%nat ->
  exists b', SHA1_Transform h b = (fips_compress h (words_of b), b') /\ length b' = 64%nat.
Proof.
  intros HL. destruct (rounds_schedule (words_of b) (words_of_length 16 b HL) h) as (l & E & Hl).
  unfold SHA1_Transform, fips_compress. destruct h as [[[[h0 h1] h2] h3] h4]. rewrite E.
  destruct (fold_left (fips_round (expand 64 (words_of b))) (seq 0 80) (h0, h1, h2, h3, h4)) as [[[[a' b'] c'] d'] e'].
  eexists. split; [done|]. rewrite bytes_of_length. lia.
Qed.

(** ** Messages in pieces *)

Lemma hash_blocks_app n h m d : (64 * n <= length m)%nat -> hash_blocks n h (m ++ d) = hash_blocks n h m.
Proof.
  revert h m. induction n as [|n IH]; intros h m Hn; [done|]. cbn.
  rewrite take_app_le, drop_app_le by lia. apply IH. rewrite length_drop. lia.
Qed.
Lemma hash_blocks_add n k h m : hash_blocks (n + k) h m = hash_blocks k (hash_blocks n h m) (drop (64 * n) m).
Proof.
  revert h m. induction n as [|n IH]; intros h m; [done|]. cbn [hash_blocks Nat.add].
  rewrite IH, drop_drop. do 2 f_equal. lia.
Qed.

(** The loop over whole blocks of the caller's data, from position [i] on:
    [k] blocks of it are hashed; the data behind them is as it was. *)
Lemma update_blocks_spec k fuel h data i len :
  length data = Z.to_nat len -> 0 <= i -> len < 2 ^ 32 - 128 ->
  i + 64 * Z.of_nat k <= len < i + 64 * Z.of_nat k + 64 -> (k < fuel)%nat ->
  exists data', update_blocks fuel h data i len =
      (hash_blocks k h (drop (Z.to_nat i) data), data', i + 64 * Z.of_nat k) /\
    length data' = length data /\
    drop (Z.to_nat (i + 64 * Z.of_nat k)) data' = drop (Z.to_nat (i + 64 * Z.of_nat k)) data /\
    (k = 0%nat -> data' = data).
Proof.
  revert fuel h data i. induction k as [|k IH]; intros fuel h data i HL Hi Hlen Hk Hf.
  - exists data. destruct fuel as [|fuel]; [lia|]. cbn [update_blocks]. rewrite u32_small by lia.
    rewrite (proj2 (Z.ltb_ge _ _)) by lia. split_and!; try done. f_equal. lia.
  - destruct fuel as [|fuel]; [lia|]. cbn [update_blocks]. rewrite u32_small by lia.
    rewrite (proj2 (Z.ltb_lt _ _)) by lia.
    set (b := take 64 (drop (Z.to_nat i) data)).
    assert (length b = 64%nat) as Hb by (unfold b; rewrite length_take, length_drop; lia).
    destruct (transform_spec h b Hb) as (b' & -> & Hb').
    set (data1 := write_at (Z.to_nat i) b' data).
    assert (length data1 = length data) as HL1 by (apply length_write_at; lia).
    rewrite u32_small by lia.
    destruct (IH fuel (fips_compress h (words_of b)) data1 (i + 64)) as (data' & -> & HL' & HD' & _); [lia..|].
    assert (forall j, i + 64 <= j -> drop (Z.to_nat j) data1 = drop (Z.to_nat j) data) as Hdrop.
    { intros j Hj. apply drop_write_at; lia. }
    exists data'. split_and!; [|lia| |done].
    + rewrite Hdrop by lia. cbn [hash_blocks]. fold b. rewrite drop_drop.
      replace (Z.to_nat i + 64)%nat with (Z.to_nat (i + 64)) by lia. f_equal. lia.
    + replace (i + 64 * Z.of_nat (S k)) with (i + 64 + 64 * Z.of_nat k) by lia. rewrite HD'. apply Hdrop. lia.
Qed.

(** A context that has absorbed the message [m]. *)
Record absorbed (ctx : SHA_CTX) (m : list Z) : Prop := {
  ab_count0 : count0 ctx = u32 (8 * Z.of_nat (length m));
  ab_count1 : count1 ctx = u32 (8 * Z.of_nat (length m) / 2 ^ 32);
  ab_state : state ctx = hash_blocks (length m / 64) fips_H0 m;
  ab_buffer : length (buffer ctx) = 64%nat;
  ab_rest : take (length m mod 64) (buffer ctx) = drop (64 * (length m / 64)) m
}.

Lemma count_index n : (u32 (8 * Z.of_nat n) .>> 3) .& 63 = Z.of_nat (n mod 64).
Proof.
  change 63 with (Z.ones 6). rewrite Z.land_ones, Z.shiftr_div_pow2 by lia. unfold u32.
  change (2 ^ 32) with (8 * 2 ^ 29). change (2 ^ 3) with 8.
  rewrite Z.mul_mod_distr_l by lia. rewrite (Z.mul_comm 8), Z.div_mul by lia.
  rewrite Nat2Z.inj_mod. change (2 ^ 6) with 64. change (Z.of_nat 64) with 64.
  apply Z.mod_mod_divide. exists (2 ^ 23). lia.
Qed.

Lemma count_add n len :
  0 <= len < 2 ^ 32 ->
  let a0 := u32 (8 * n) in let a1 := u32 (8 * n / 2 ^ 32) in let b0 := len .<< 3 in
  let c0 := u32 (a0 + b0) in
  c0 = u32 (8 * (n + len)) /\
  u32 ((if c0 <? b0 then u32 (a1 + 1) else a1) + (len .>> 29)) = u32 (8 * (n + len) / 2 ^ 32).
Proof.
  intros Hlen. cbv zeta. rewrite Z.shiftl_mul_pow2, Z.shiftr_div_pow2 by lia. change (2 ^ 3) with 8.
  set (A := 8 * n). set (B := len * 8). replace (8 * (n + len)) with (A + B) by lia.
  assert (len / 2 ^ 29 = B / 2 ^ 32) as ->.
  { unfold B. change (2 ^ 32) with (2 ^ 29 * 8). by rewrite Z.div_mul_cancel_r. }
  unfold u32. rewrite <- Zplus_mod. split; [done|].
  pose proof (Z.div_mod A (2 ^ 32) ltac:(lia)) as EA. pose proof (Z.div_mod B (2 ^ 32) ltac:(lia)) as EB.
  pose proof (Z.div_mod (A + B) (2 ^ 32) ltac:(lia)) as EC.
  pose proof (Z.mod_pos_bound A (2 ^ 32) ltac:(lia)) as HA. pose proof (Z.mod_pos_bound B (2 ^ 32) ltac:(lia)) as HB.
  pose proof (Z.mod_pos_bound (A + B) (2 ^ 32) ltac:(lia)) as HC.
  destruct (Z.ltb_spec ((A + B) mod 2 ^ 32) (B mod 2 ^ 32)).
  - replace ((A + B) / 2 ^ 32) with (A / 2 ^ 32 + 1 + B / 2 ^ 32) by lia.
    rewrite Zplus_mod_idemp_l. rewrite <- (Zplus_mod_idemp_l (A / 2 ^ 32 + 1)).
    rewrite <- (Zplus_mod_idemp_l (A / 2 ^ 32) 1). by rewrite Zplus_mod_idemp_l.
  - rewrite Zplus_mod_idemp_l. f_equal. lia.
Qed.

(** The first block completed by [d]: what is in the buffer and the first bytes
    of [d]. *)
Lemma filled_block ctx m d :
  absorbed ctx m -> (64 <= length m mod 64 + length d)%nat ->
  let j := (length m mod 64)%nat in
  write_at j (take (64 - j) d) (buffer ctx) = take 64 (drop (64 * (length m / 64)) (m ++ d)).
Proof.
  intros [_ _ _ HB HR] Hd j. pose proof (Nat.mod_upper_bound (length m) 64 ltac:(lia)) as Hj. fold j in Hj, HR.
  pose proof (Nat.div_mod (length m) 64 ltac:(lia)) as Hm. fold j in Hm.
  rewrite drop_app_le, <- HR by lia. unfold write_at. rewrite length_take.
  replace (j + min (64 - j) (length d))%nat with 64%nat by lia.
  rewrite (drop_ge (buffer ctx)), app_nil_r by lia.
  rewrite (take_app_ge (take j (buffer ctx))) by (rewrite length_take; lia).
  rewrite length_take. do 2 f_equal. lia.
Qed.

Lemma div_mod_add m d q : (64 * q <= m + d < 64 * q + 64)%nat -> ((m + d) / 64 = q /\ (m + d) mod 64 = m + d - 64 * q)%nat.
Proof.
  intros H. assert ((m + d) / 64 = q)%nat as E by (symmetry; apply (Nat.div_unique _ 64 q (m + d - 64 * q)); lia).
  split; [done|]. pose proof (Nat.div_mod (m + d) 64 ltac:(lia)). lia.
Qed.

(** Absorbing [d] after [m]: the context is right, and data of which no whole
    block is hashed in place comes back unchanged. *)
Lemma update_absorbed ctx m d :
  absorbed ctx m -> Z.of_nat (length d) < 2 ^ 32 - 128 ->
  let r := SHA1_Update ctx d (Z.of_nat (length d)) in
  absorbed (fst r) (m ++ d) /\ length (snd r) = length d /\
  ((length m mod 64 + length d < 128)%nat -> snd r = d).
Proof.
  intros Hab Hlen r. pose proof (filled_block ctx m d Hab) as Hfill.
  destruct Hab as [H0 H1 HS HB HR]. unfold r, SHA1_Update.
  rewrite H0, H1, count_index.
  destruct (count_add (Z.of_nat (length m)) (Z.of_nat (length d)) ltac:(lia)) as [E0 E1].
  rewrite E1. rewrite E0.
  pose proof (Nat.mod_upper_bound (length m) 64 ltac:(lia)) as Hj. pose proof (Nat.div_mod (length m) 64 ltac:(lia)) as Hm.
  set (j := (length m mod 64)%nat) in *. set (q := (length m / 64)%nat) in *.
  rewrite u32_small by lia. rewrite !Nat2Z.id.
  assert (Z.of_nat (length m) + Z.of_nat (length d) = Z.of_nat (length (m ++ d))) as EL by (rewrite length_app; lia).
  rewrite EL. destruct (Z.ltb_spec 63 (Z.of_nat j + Z.of_nat (length d))) as [Hbig|Hsmall].
  2:{ cbn [fst snd]. split; [|done].
      destruct (div_mod_add (length m) (length d) q ltac:(lia)) as [Eq Er]. rewrite <- length_app in Eq, Er.
      rewrite take_ge by lia. split; cbn [count0 count1 state buffer]; try done.
      - rewrite HS, Eq. symmetry. apply hash_blocks_app. lia.
      - apply eq_trans with (length (buffer ctx)); [apply length_write_at; lia|done].
      - rewrite Eq, Er. rewrite drop_app_le, <- HR by lia.
        replace (length (m ++ d) - 64 * q)%nat with (j + length d)%nat by (rewrite length_app; lia).
        apply take_write_at. lia. }
  replace (Z.to_nat (64 - Z.of_nat j)) with (64 - j)%nat by lia. rewrite Hfill by lia.
  set (b := take 64 (drop (64 * q) (m ++ d))).
  assert (length b = 64%nat) as Hb by (unfold b; rewrite length_take, length_drop, length_app; lia).
  destruct (transform_spec (state ctx) b Hb) as (b' & -> & Hb').
  set (k := ((length d - (64 - j)) / 64)%nat).
  pose proof (Nat.div_mod (length d - (64 - j)) 64 ltac:(lia)) as Hk. fold k in Hk.
  pose proof (Nat.mod_upper_bound (length d - (64 - j)) 64 ltac:(lia)) as Hk'.
  destruct (update_blocks_spec k (length d) (fips_compress (state ctx) (words_of b)) d
    (64 - Z.of_nat j) (Z.of_nat (length d))) as (d' & -> & HL' & HD' & Hk0); [lia..|].
  cbn [fst snd]. split; [|split; [done|intros; apply Hk0; lia]].
  destruct (div_mod_add (length m) (length d) (q + 1 + k) ltac:(lia)) as [Eq Er]. rewrite <- length_app in Eq, Er.
  set (rest := take _ (drop _ d')).
  assert (rest = drop (64 - j + 64 * k) d) as Erest.
  { unfold rest. rewrite HD'. replace (Z.to_nat (64 - Z.of_nat j + 64 * Z.of_nat k)) with (64 - j + 64 * k)%nat by lia.
    apply take_ge. rewrite length_drop. lia. }
  assert (length rest = (length d - (64 - j) - 64 * k)%nat) as Hrest by (rewrite Erest, length_drop; lia).
  split; cbn [count0 count1 state buffer]; try done.
  - rewrite Eq, !hash_blocks_add. cbn [hash_blocks]. rewrite (hash_blocks_app q), <- HS by lia. fold b. f_equal.
    rewrite drop_app_ge by lia. f_equal. lia.
  - rewrite length_write_at; lia.
  - rewrite Eq, Er. replace (length (m ++ d) - 64 * (q + 1 + k))%nat with (0 + length rest)%nat by (rewrite length_app; lia).
    rewrite take_write_at by lia. rewrite take_0, app_nil_l. rewrite Erest, drop_app_ge by lia. f_equal. lia.
Qed.

Lemma init_absorbed ctx : length (buffer ctx) = 64%nat -> absorbed (SHA1_Init ctx) [].
Proof. intros H. by split. Qed.

(** ** Padding *)

Lemma count_504 n : u32 (8 * Z.of_nat n) .& 504 = 8 * Z.of_nat (n mod 64).
Proof.
  unfold u32. change (2 ^ 32) with (8 * 2 ^ 29). rewrite Z.mul_mod_distr_l by lia.
  change 504 with (Z.shiftl (Z.ones 6) 3). rewrite (Z.mul_comm 8). change 8 with (2 ^ 3) at 1.
  rewrite <- Z.shiftl_mul_pow2, <- Z.shiftl_land, Z.land_ones by lia.
  rewrite Z.shiftl_mul_pow2 by lia. rewrite Nat2Z.inj_mod. change (Z.of_nat 64) with (2 ^ 6).
  rewrite Z.mul_comm. f_equal. apply Z.mod_mod_divide. exists (2 ^ 23). lia.
Qed.

Lemma pad_zeros_absorbed z fuel ctx m :
  absorbed ctx m -> ((length m + z) mod 64 = 56)%nat -> (z < 64)%nat -> (z < fuel)%nat ->
  absorbed (pad_zeros fuel ctx) (m ++ replicate z 0).
Proof.
  revert fuel ctx m. induction z as [|z IH]; intros fuel ctx m Hab Hz H64 Hf; (destruct fuel as [|fuel]; [lia|]);
    cbn [pad_zeros]; rewrite (ab_count0 _ _ Hab), count_504.
  - rewrite Nat.add_0_r in Hz. rewrite Hz. cbn. by rewrite app_nil_r.
  - assert (length m mod 64 <> 56)%nat as Hne.
    { intros E. pose proof (Nat.div_mod (length m) 64 ltac:(lia)) as H1. rewrite E in H1.
      pose proof (Nat.div_mod (length m + S z) 64 ltac:(lia)) as H2. rewrite Hz in H2. lia. }
    rewrite (proj2 (Z.eqb_neq _ _)) by lia. cbn [negb].
    destruct (update_absorbed ctx m [0] Hab ltac:(cbn; lia)) as [Hab' _]. cbn [length Z.of_nat] in Hab'.
    cbn [replicate]. rewrite cons_middle, app_assoc. apply IH; [exact Hab'| |lia|lia].
    rewrite length_app. cbn [length]. by replace (length m + 1 + z)%nat with (length m + S z)%nat by lia.
Qed.

Lemma fips_zeros_spec n : ((n + 1 + fips_zeros n) mod 64 = 56 /\ fips_zeros n < 64)%nat.
Proof.
  unfold fips_zeros. pose proof (Z.mod_pos_bound (55 - Z.of_nat n) 64 ltac:(lia)) as Hb.
  pose proof (Z.div_mod (55 - Z.of_nat n) 64 ltac:(lia)) as Hd. split; [|lia].
  set (z := (55 - Z.of_nat n) mod 64) in *. symmetry.
  apply (Nat.mod_unique _ 64 (Z.to_nat (- ((55 - Z.of_nat n) / 64)))); lia.
Qed.

Lemma final_absorbed ctx m : absorbed ctx m -> fst (SHA1_Final ctx) = fips_sha1 m.
Proof.
  intros Hab. unfold SHA1_Final. cbv zeta. cbn [fst].
  destruct (update_absorbed ctx m [0x80] Hab ltac:(cbn; lia)) as [Hab1 _]. cbn [length Z.of_nat] in Hab1.
  change (Z.pos (Pos.of_succ_nat 0)) with 1 in Hab1. set (c1 := fst (SHA1_Update ctx [0x80] 1)) in *.
  destruct (fips_zeros_spec (length m)) as [Hz1 Hz2].
  pose proof (pad_zeros_absorbed (fips_zeros (length m)) 64 c1 _ Hab1
    ltac:(rewrite length_app; cbn [length]; exact Hz1) Hz2 Hz2) as Hab2. set (c2 := pad_zeros 64 c1) in *.
  set (fc := put_be (count1 ctx) ++ put_be (count0 ctx)).
  destruct (update_absorbed c2 _ fc Hab2 ltac:(cbn; lia)) as [Hab3 _].
  change (Z.of_nat (length fc)) with 8 in Hab3.
  rewrite (ab_state _ _ Hab3). unfold fips_sha1, fips_pad. unfold fc.
  rewrite (ab_count0 _ _ Hab), (ab_count1 _ _ Hab). by rewrite <- !app_assoc.
Qed.

(** ** The hash of a message in any number of pieces *)

Definition SHA1_Updates (ctx : SHA_CTX) (ds : list (list Z)) : SHA_CTX :=
  fold_left (fun c d => fst (SHA1_Update c d (Z.of_nat (length d)))) ds ctx.

Lemma updates_absorbed ctx m ds :
  absorbed ctx m -> Forall (fun d => Z.of_nat (length d) < 2 ^ 32 - 128) ds ->
  absorbed (SHA1_Updates ctx ds) (m ++ concat ds).
Proof.
  revert ctx m. induction ds as [|d ds IH]; intros ctx m Hab HF; cbn; [by rewrite app_nil_r|].
  inversion HF; subst. rewrite app_assoc. apply IH; [|done]. by apply update_absorbed.
Qed.

(** C5: SHA-1 is computed as the standard says, however the message is cut into
    calls: from any context [SHA1_Init], any sequence of [SHA1_Update]s and
    [SHA1_Final] give the standard's hash of the pieces put together. *)
Theorem sha1_streaming ctx ds :
  length (buffer ctx) = 64%nat -> Forall (fun d => Z.of_nat (length d) < 2 ^ 32 - 128) ds ->
  fst (SHA1_Final (SHA1_Updates (SHA1_Init ctx) ds)) = fips_sha1 (concat ds).
Proof.
  intros HB HF. apply final_absorbed. apply (updates_absorbed _ []); [by apply init_absorbed|done].
Qed.

(** What [SHA1_Update] does to the data it is given.  It leaves it alone as
    long as the bytes of the call and those waiting in the context make up less
    than two blocks; with two blocks it overwrites the second one with its
    message schedule, as the call with 128 bytes shows. *)
Theorem sha1_update_data ctx m d :
  absorbed ctx m -> Z.of_nat (length d) < 2 ^ 32 - 128 ->
  ((length m mod 64 + length d < 128)%nat -> snd (SHA1_Update ctx d (Z.of_nat (length d))) = d) /\
  (exists data, length data = 128%nat /\
     snd (SHA1_Update (SHA1_Init ctx) data 128) <> data).
Proof.
  intros Hab Hd. split; [by apply update_absorbed|].
  exists (replicate 64 0 ++ replicate 64 1). split; [done|]. intros E.
  apply (f_equal (drop 64)) in E. revert E.
  assert (absorbed (SHA1_Init ctx) []) as [_ _ HS HB _] by (apply init_absorbed, (ab_buffer _ _ Hab)).
  intros E. apply (f_equal (fun l => nth 0 l 7)) in E. vm_compute in E. done.
Qed.

(** ** HMAC (RFC 2104) *)

Definition rfc_key (k : list Z) : list Z :=
  let k := if decide (64 < length k)%nat then fips_sha1 k else k in
  k ++ replicate (64 - length k) 0.
Definition rfc_pad (c : Z) (k : list Z) : list Z := (fun x => u8 (c .^ x)) <$> rfc_key k.
Definition rfc_hmac (k m : list Z) : list Z :=
  fips_sha1 (rfc_pad 0x5c k ++ fips_sha1 (rfc_pad 0x36 k ++ m)).

Lemma digest_length st : length (digest_of st) = 20%nat.
Proof. by destruct st as [[[[a b] c] d] e]. Qed.

Lemma sha1_length m : length (fips_sha1 m) = 20%nat.
Proof. apply digest_length. Qed.

(** The context while the key [k] is being given. *)
Record keyed (ctx : HMAC_SHA1_CTX) (k : list Z) : Prop := {
  ky_ipad : ipad ctx = replicate 64 IPAD_BYTE;
  ky_opad : opad ctx = replicate 64 OPAD_BYTE;
  ky_buffer : length (buffer (shactx ctx)) = 64%nat;
  ky_key : if decide (64 < length k)%nat
    then hashkey ctx = 1 /\ keylen ctx = 20 /\ absorbed (shactx ctx) k
    else hashkey ctx = 0 /\ keylen ctx = Z.of_nat (length k) /\ length (key ctx) = 64%nat /\
         take (length k) (key ctx) = k
}.

Lemma init_keyed ctx : length (buffer (shactx ctx)) = 64%nat -> keyed (HMAC_SHA1_Init ctx) [].
Proof. intros H. by split. Qed.

(** A buffer longer than the bytes given is read up to those bytes only. *)
Lemma update_prefix ctx d n :
  absorbed ctx [] -> length d = 64%nat -> (0 < n <= 64)%nat ->
  absorbed (fst (SHA1_Update ctx d (Z.of_nat n))) (take n d).
Proof.
  intros Hab Hd Hn.
  destruct (update_absorbed ctx [] (take n d) Hab ltac:(rewrite length_take; lia)) as [H _].
  rewrite length_take, Hd, Nat.min_l in H by lia. cbn [app] in H.
  destruct (decide (n = 64%nat)) as [->|Hne]; [by rewrite take_ge in * by lia|].
  revert H. unfold SHA1_Update. rewrite (ab_count0 _ _ Hab). change (u32 (8 * Z.of_nat (length (@nil Z)))) with 0.
  change ((0 .>> 3) .& 63) with 0. rewrite Z.add_0_l. unfold u32. rewrite (Z.mod_small (Z.of_nat n)) by lia.
  rewrite (proj2 (Z.ltb_ge 63 (Z.of_nat n))) by lia. cbn [fst]. by rewrite Nat2Z.id, take_take, Nat.min_id.
Qed.

Lemma update_keyed ctx k d :
  keyed ctx k -> Z.of_nat (length d) < 2 ^ 32 - 128 ->
  keyed (fst (HMAC_SHA1_UpdateKey ctx d (Z.of_nat (length d)))) (k ++ d).
Proof.
  intros [Hi Ho Hb Hk] Hd. unfold HMAC_SHA1_UpdateKey.
  destruct (Z.ltb_spec (Z.of_nat (length d)) 1) as [H1|H1].
  { destruct d; [|cbn in H1; lia]. rewrite app_nil_r. by split. }
  case_decide as Hlk.
  - (* hashing already *)
    destruct Hk as (Hh & Hkl & Hab). rewrite Hh. cbn [nz negb orb Z.eqb].
    destruct (update_absorbed _ _ d Hab Hd) as (Hab' & _).
    destruct (SHA1_Update (shactx ctx) d (Z.of_nat (length d))) as [c k'] eqn:E. cbn [fst] in *.
    split; [exact Hi|exact Ho|exact (ab_buffer _ _ Hab')|].
    rewrite decide_True by (rewrite length_app; lia). by split_and!.
  - destruct Hk as (Hh & Hkl & Hlen & Htk). rewrite Hh, Hkl. cbn [nz negb orb Z.eqb].
    unfold u32. rewrite Z.mod_small by lia.
    destruct (Z.ltb_spec 64 (Z.of_nat (length d) + Z.of_nat (length k))) as [Hgt|Hle].
    + set (c := SHA1_Init (shactx ctx)). assert (absorbed c []) as Hc by (by apply init_absorbed).
      assert (exists ctx', (if 0 <? Z.of_nat (length k)
                then let (c0, kb) := SHA1_Update c (key ctx) (Z.of_nat (length k)) in
                     ctx <| shactx := c0 |> <| key := kb |>
                else ctx <| shactx := c |>) = ctx' /\
               ipad ctx' = ipad ctx /\ opad ctx' = opad ctx /\ absorbed (shactx ctx') k) as (ctx' & -> & Hi' & Ho' & Hab).
      { destruct (Z.ltb_spec 0 (Z.of_nat (length k))) as [Hpos|Hnil].
        - pose proof (update_prefix c (key ctx) (length k) Hc Hlen ltac:(lia)) as Hp. rewrite Htk in Hp.
          destruct (SHA1_Update c (key ctx) (Z.of_nat (length k))) as [c0 kb]. eexists. by split.
        - eexists. split; [done|]. destruct k; [by split|cbn in Hnil; lia]. }
      match goal with |- context [SHA1_Update ?x d _] => change x with (shactx ctx') end.
      destruct (update_absorbed _ _ d Hab Hd) as (Hab' & _).
      destruct (SHA1_Update (shactx ctx') d (Z.of_nat (length d))) as [c1 k1]. cbn [fst] in *.
      split; [exact (eq_trans Hi' Hi)|exact (eq_trans Ho' Ho)|exact (ab_buffer _ _ Hab')|].
      rewrite decide_True by (rewrite length_app; lia). by split_and!.
    + cbn [fst]. split; [done..|]. rewrite decide_False by (rewrite length_app; lia).
      rewrite !Nat2Z.id. rewrite (take_ge d) by lia. split_and!; [exact Hh| | |].
      * change (u32 (keylen ctx + Z.of_nat (length d)) = Z.of_nat (length (k ++ d))).
        unfold u32. rewrite Hkl, length_app, Z.mod_small by lia. lia.
      * change (length (write_at (length k) d (key ctx)) = 64%nat). rewrite length_write_at; lia.
      * change (take (length (k ++ d)) (write_at (length k) d (key ctx)) = k ++ d). rewrite length_app.
        rewrite take_write_at by lia. by rewrite Htk.
Qed.

Lemma xor_prefix_pad c (kk : list Z) (n : nat) :
  (n <= 64)%nat -> length kk = 64%nat -> is_byte c -> drop n kk = replicate (64 - n) 0 ->
  xor_prefix n (replicate 64 c) kk = (fun x => u8 (c .^ x)) <$> kk.
Proof.
  intros Hn Hk Hc Hz. unfold xor_prefix. rewrite <- (take_drop n kk) at 2. rewrite fmap_app, Hz.
  rewrite take_replicate, drop_replicate, Nat.min_l by lia. f_equal.
  - assert (length (take n kk) = n) as Hl by (rewrite length_take; lia). revert Hl. generalize (take n kk).
    clear. induction n as [|n IH]; intros [|x l] Hl; cbn in *; try done. f_equal. apply IH. lia.
  - rewrite fmap_replicate, Z.lxor_0_r. f_equal. unfold u8, is_byte in *. rewrite Z.mod_small; lia.
Qed.

(** The key buffer when the key is complete. *)
Lemma end_key ctx k :
  keyed ctx k ->
  let e := HMAC_SHA1_EndKey ctx in
  ipad e = rfc_pad 0x36 k /\ opad e = rfc_pad 0x5c k /\ length (buffer (shactx e)) = 64%nat.
Proof.
  intros [Hi Ho Hb Hk] e.
  assert (exists ctx' n, (if nz (hashkey ctx)
      then let (d, c) := SHA1_Final (shactx ctx) in ctx <| key := write_at 0 d (replicate 64 0) |> <| shactx := c |>
      else ctx) = ctx' /\ ipad ctx' = replicate 64 IPAD_BYTE /\ opad ctx' = replicate 64 OPAD_BYTE /\
      length (buffer (shactx ctx')) = 64%nat /\ keylen ctx' = Z.of_nat n /\ (n <= 64)%nat /\
      length (key ctx') = 64%nat /\ take n (key ctx') ++ replicate (64 - n) 0 = rfc_key k)
    as (ctx' & n & E & Hi' & Ho' & Hb' & Hn & Hn64 & Hkl & Hkk).
  { unfold rfc_key. case_decide as Hlk.
    - destruct Hk as (Hh & Hkl & Hab). rewrite Hh. cbn [nz negb Z.eqb].
      pose proof (final_absorbed _ _ Hab) as Hf.
      destruct (SHA1_Final (shactx ctx)) as [d c] eqn:Ef. cbn [fst] in Hf. subst d.
      eexists _, 20%nat. rewrite sha1_length. split; [reflexivity|].
      assert (c = mkSHA_CTX (0, 0, 0, 0, 0) 0 0 (replicate 64 0)) as -> by (unfold SHA1_Final in Ef; congruence).
      split_and!; [exact Hi|exact Ho|done|exact Hkl|lia| |].
      + change (length (write_at 0 (fips_sha1 k) (replicate 64 0)) = 64%nat).
        rewrite length_write_at, length_replicate; [done|]. rewrite sha1_length, length_replicate. lia.
      + change (take 20 (write_at 0 (fips_sha1 k) (replicate 64 0)) ++ replicate (64 - 20) 0
                = fips_sha1 k ++ replicate (64 - 20) 0). f_equal.
        unfold write_at. rewrite take_0, app_nil_l. apply take_app_length'. symmetry; apply sha1_length.
    - destruct Hk as (Hh & Hkl & Hlen & Htk). rewrite Hh. cbn [nz negb Z.eqb].
      exists ctx, (length k). split_and!; try done; [lia|by rewrite Htk]. }
  unfold e, HMAC_SHA1_EndKey. rewrite E. clear E Hk Hi Ho Hb. rewrite Hn.
  set (c1 := if 0 <? 64 - Z.of_nat n then _ else ctx').
  assert (key c1 = rfc_key k /\ ipad c1 = ipad ctx' /\ opad c1 = opad ctx' /\ shactx c1 = shactx ctx' /\
          keylen c1 = Z.of_nat n) as (Ek & Ei & Eo & Es & El).
  { unfold c1. destruct (Z.ltb_spec 0 (64 - Z.of_nat n)) as [Hlt|Hge]; [|rewrite <- Hkk; replace (64 - n)%nat with 0%nat by lia;
      rewrite app_nil_r, take_ge by lia; by split_and!].
    split_and!; try done. change (write_at (Z.to_nat (Z.of_nat n)) (replicate (Z.to_nat (64 - Z.of_nat n)) 0) (key ctx') = rfc_key k).
    rewrite <- Hkk. unfold write_at. rewrite length_replicate, drop_ge, app_nil_r by lia. do 2 f_equal; lia. }
  clearbody c1. rewrite El, Nat2Z.id.
  assert (length (rfc_key k) = 64%nat) as Hlr by (rewrite <- Hkk, length_app, length_take, length_replicate; lia).
  assert (drop n (rfc_key k) = replicate (64 - n) 0) as Hdr
    by (rewrite <- Hkk; apply drop_app_length'; rewrite length_take; lia).
  split_and!.
  - change (xor_prefix n (ipad c1) (key c1) = rfc_pad 0x36 k). rewrite Ek, Ei, Hi'. by apply xor_prefix_pad.
  - change (xor_prefix n (opad c1) (key c1) = rfc_pad 0x5c k). rewrite Ek, Eo, Ho'. by apply xor_prefix_pad.
  - change (length (buffer (shactx c1)) = 64%nat). by rewrite Es.
Qed.

Lemma rfc_pad_length c k : length (rfc_pad c k) = 64%nat.
Proof.
  unfold rfc_pad, rfc_key. rewrite length_fmap. case_decide as H;
    rewrite length_app, length_replicate, ?sha1_length; lia.
Qed.

Definition HMAC_SHA1_UpdateKeys (ctx : HMAC_SHA1_CTX) (ks : list (list Z)) : HMAC_SHA1_CTX :=
  fold_left (fun c k => fst (HMAC_SHA1_UpdateKey c k (Z.of_nat (length k)))) ks ctx.
Definition HMAC_SHA1_UpdateMessages (ctx : HMAC_SHA1_CTX) (ds : list (list Z)) : HMAC_SHA1_CTX :=
  fold_left (fun c d => fst (HMAC_SHA1_UpdateMessage c d (Z.of_nat (length d)))) ds ctx.

Lemma updates_keyed ctx k ks :
  keyed ctx k -> Forall (fun d => Z.of_nat (length d) < 2 ^ 32 - 128) ks ->
  keyed (HMAC_SHA1_UpdateKeys ctx ks) (k ++ concat ks).
Proof.
  revert ctx k. induction ks as [|d ds IH]; intros ctx m Hab HF; cbn; [by rewrite app_nil_r|].
  inversion HF; subst. rewrite app_assoc. apply IH; [|done]. by apply update_keyed.
Qed.

(** Between [HMAC_SHA1_StartMessage] and [HMAC_SHA1_EndMessage]. *)
Definition messaged (ctx : HMAC_SHA1_CTX) (k m : list Z) : Prop :=
  opad ctx = rfc_pad 0x5c k /\ absorbed (shactx ctx) (rfc_pad 0x36 k ++ m).

Lemma start_messaged ctx k : keyed ctx k -> messaged (HMAC_SHA1_StartMessage (HMAC_SHA1_EndKey ctx)) k [].
Proof.
  intros Hk. destruct (end_key _ _ Hk) as (Hi & Ho & Hb). set (e := HMAC_SHA1_EndKey ctx) in *. clearbody e.
  unfold HMAC_SHA1_StartMessage. rewrite Hi.
  destruct (update_absorbed _ [] (rfc_pad 0x36 k) (init_absorbed _ Hb) ltac:(rewrite rfc_pad_length; lia)) as (H & _).
  rewrite rfc_pad_length in H. change (Z.of_nat 64) with 64 in H. rewrite app_nil_l in H.
  destruct (SHA1_Update (SHA1_Init (shactx e)) (rfc_pad 54 k) 64) as [c p]. split; [exact Ho|].
  rewrite app_nil_r. exact H.
Qed.

Lemma update_messaged ctx k m d :
  messaged ctx k m -> Z.of_nat (length d) < 2 ^ 32 - 128 ->
  messaged (fst (HMAC_SHA1_UpdateMessage ctx d (Z.of_nat (length d)))) k (m ++ d).
Proof.
  intros [Ho Ha] Hd. unfold HMAC_SHA1_UpdateMessage. destruct (update_absorbed _ _ _ Ha Hd) as (H & _).
  destruct (SHA1_Update _ _ _) as [c p]. split; [exact Ho|]. rewrite app_assoc. exact H.
Qed.

Lemma updates_messaged ctx k m ds :
  messaged ctx k m -> Forall (fun d => Z.of_nat (length d) < 2 ^ 32 - 128) ds ->
  messaged (HMAC_SHA1_UpdateMessages ctx ds) k (m ++ concat ds).
Proof.
  revert ctx m. induction ds as [|d ds IH]; intros ctx m Hab HF; cbn; [by rewrite app_nil_r|].
  inversion HF; subst. rewrite app_assoc. apply IH; [|done]. by apply update_messaged.
Qed.

Lemma final_pair ctx m : absorbed ctx m ->
  SHA1_Final ctx = (fips_sha1 m, mkSHA_CTX (0, 0, 0, 0, 0) 0 0 (replicate 64 0)).
Proof. intros H. rewrite <- (final_absorbed _ _ H). unfold SHA1_Final. reflexivity. Qed.

Lemma end_message ctx k m : messaged ctx k m -> fst (HMAC_SHA1_EndMessage ctx) = rfc_hmac k m.
Proof.
  intros [Ho Ha]. unfold HMAC_SHA1_EndMessage, rfc_hmac. rewrite (final_pair _ _ Ha), Ho.
  set (c0 := SHA1_Init _). assert (absorbed c0 []) as H0 by (by apply init_absorbed). clearbody c0.
  destruct (update_absorbed _ _ (rfc_pad 0x5c k) H0 ltac:(rewrite rfc_pad_length; lia)) as (H1 & _).
  rewrite rfc_pad_length in H1. change (Z.of_nat 64) with 64 in H1.
  destruct (SHA1_Update c0 (rfc_pad 0x5c k) 64) as [c1 p]. cbn [fst app] in H1.
  set (h := fips_sha1 (_ ++ m)).
  destruct (update_absorbed _ _ h H1 ltac:(unfold h; rewrite sha1_length; lia)) as (H2 & _).
  unfold h in H2 at 2. rewrite sha1_length in H2. change (Z.of_nat 20) with 20 in H2.
  destruct (SHA1_Update c1 h 20) as [c2 p2]. cbn [fst] in H2.
  rewrite (final_pair _ _ H2). reflexivity.
Qed.

(** C25: the incremental HMAC interface computes the HMAC of RFC 2104 over
    SHA-1, for keys of any length (longer ones than a block are hashed first) and
    however the key and the message are cut into calls. *)
Theorem hmac_streaming ctx ks ds :
  length (buffer (shactx ctx)) = 64%nat ->
  Forall (fun d => Z.of_nat (length d) < 2 ^ 32 - 128) ks ->
  Forall (fun d => Z.of_nat (length d) < 2 ^ 32 - 128) ds ->
  fst (HMAC_SHA1_EndMessage (HMAC_SHA1_UpdateMessages
        (HMAC_SHA1_StartMessage (HMAC_SHA1_EndKey (HMAC_SHA1_UpdateKeys (HMAC_SHA1_Init ctx) ks))) ds))
  = rfc_hmac (concat ks) (concat ds).
Proof.
  intros HB Hks Hds. apply end_message. apply (updates_messaged _ _ []); [|done].
  apply start_messaged. apply (updates_keyed _ []); [by apply init_keyed|done].
Qed.

Lemma hmac_sha1_rfc ctx secret data :
  length (buffer (shactx ctx)) = 64%nat -> length secret = 16%nat -> Z.of_nat (length data) < 2 ^ 32 - 128 ->
  fst (HMAC_SHA1 ctx secret data (Z.of_nat (length data))) = take 16 (rfc_hmac secret data).
Proof.
  intros HB Hs Hd. unfold HMAC_SHA1.
  pose proof (update_keyed _ [] secret (init_keyed _ HB) ltac:(lia)) as Hk. rewrite Hs in Hk.
  change (Z.of_nat 16) with 0x10 in Hk. destruct (HMAC_SHA1_UpdateKey _ _ _) as [c1 k1]. cbn [fst app] in Hk.
  pose proof (update_messaged _ _ _ data (start_messaged _ _ Hk) Hd) as Hm. cbn [app] in Hm.
  destruct (HMAC_SHA1_UpdateMessage _ _ _) as [c2 d2]. cbn [fst] in Hm.
  rewrite <- (end_message _ _ _ Hm). by destruct (HMAC_SHA1_EndMessage c2).
Qed.

(** ** Witnesses *)

Definition fresh_sha : SHA_CTX := mkSHA_CTX (0, 0, 0, 0, 0) 0 0 (replicate 64 0).
Definition fresh_hmac : HMAC_SHA1_CTX := mkHMAC [] [] fresh_sha [] 0 0.

(** "abc" in two pieces. *)
Lemma sha1_streaming_abc :
  fst (SHA1_Final (SHA1_Updates (SHA1_Init fresh_sha) [[97]; [98; 99]])) =
  [0xa9; 0x99; 0x3e; 0x36; 0x47; 0x06; 0x81; 0x6a; 0xba; 0x3e; 0x25; 0x71; 0x78; 0x50; 0xc2; 0x6c; 0x9c; 0xd0; 0xd8; 0x9d].
Proof.
  rewrite (sha1_streaming fresh_sha [[97]; [98; 99]]); [vm_compute; reflexivity|reflexivity|repeat constructor].
Defined.

Lemma sha1_update_data_abc :
  snd (SHA1_Update (SHA1_Init fresh_sha) [97; 98; 99] 3) = [97; 98; 99].
Proof.
  exact (proj1 (sha1_update_data (SHA1_Init fresh_sha) [] [97; 98; 99]
    (init_absorbed fresh_sha eq_refl) eq_refl) ltac:(cbn; lia)).
Defined.

(** RFC 2202, test case 2: the key "Jefe" in two pieces, "what do ya want for
    nothing?" in one. *)
Lemma hmac_streaming_rfc2202 :
  fst (HMAC_SHA1_EndMessage (HMAC_SHA1_UpdateMessages
        (HMAC_SHA1_StartMessage (HMAC_SHA1_EndKey (HMAC_SHA1_UpdateKeys (HMAC_SHA1_Init fresh_hmac) [[74]; [101; 102; 101]])))
        [[119; 104; 97; 116; 32; 100; 111; 32; 121; 97; 32; 119; 97; 110; 116; 32; 102; 111; 114; 32; 110; 111; 116; 104; 105; 110; 103; 63]]))
  = [0xef; 0xfc; 0xdf; 0x6a; 0xe5; 0xeb; 0x2f; 0xa2; 0xd2; 0x74; 0x16; 0xd5; 0xf1; 0x84; 0xdf; 0x9c; 0x25; 0x9a; 0x7c; 0x79].
Proof.
  rewrite (hmac_streaming fresh_hmac [[74]; [101; 102; 101]]);
    [vm_compute; reflexivity|reflexivity|repeat constructor|repeat constructor].
Defined.
