(* ===== verification/Queue.v ===== *)
(** * Queues: [drivers/nocfe/lib_queue.c]

    Circular doubly linked lists with a queue block as their header, used by
    the USB code.  Elements are named by numbers; the links of all elements
    are the state, a null link is [None] and following it a [Fault].  A queue
    is shown to behave as the list of its elements. *)
From S2P Require Import Prelude Ring.

(** [queue_t] of every element. *)
Record links := mkLinks { q_next : nat -> option nat; q_prev : nat -> option nat }.

Definition next_of (q : nat) : M links nat := o <- gets (fun s => q_next s q) ;; of_option o.
Definition prev_of (q : nat) : M links nat := o <- gets (fun s => q_prev s q) ;; of_option o.
Definition set_next (q v : nat) : M links unit := modify (fun s => mkLinks (upd (q_next s) q (Some v)) (q_prev s)).
Definition set_prev (q v : nat) : M links unit := modify (fun s => mkLinks (q_next s) (upd (q_prev s) q (Some v))).

Definition q_enqueue (qb item : nat) : M links unit :=
  p <- prev_of qb ;;
  set_next p item ;;
  set_next item qb ;;
  p <- prev_of qb ;;
  set_prev item p ;;
  set_prev qb item.

Definition q_dequeue (item : nat) : M links unit :=
  p <- prev_of item ;;
  n <- next_of item ;;
  set_next p n ;;
  n <- next_of item ;;
  p <- prev_of item ;;
  set_prev n p.

Definition q_deqnext (qb : nat) : M links (option nat) :=
  n <- next_of qb ;;
  if decide (n = qb) then ret None else
  let qb := n in
  q_dequeue qb ;;
  ret (Some qb).

(** The callback of [q_map] may change the links. *)
Fixpoint map_loop (fuel : nat) (qb : nat) (func : nat -> Z -> Z -> M links Z) (a b : Z) (qe : nat) : M links Z :=
  match fuel with
  | O => diverge
  | S fuel =>
      if decide (qe = qb) then ret 0 else
      nextq <- next_of qe ;;
      res <- func qe a b ;;
      if nz res then ret res else map_loop fuel qb func a b nextq
  end.
Definition q_map (fuel : nat) (qb : nat) (func : nat -> Z -> Z -> M links Z) (a b : Z) : M links Z :=
  qe <- next_of qb ;; map_loop fuel qb func a b qe.

Fixpoint count_loop (fuel : nat) (qb qe : nat) (res : Z) : M links Z :=
  match fuel with
  | O => diverge
  | S fuel =>
      n <- next_of qe ;;
      if decide (n = qb) then ret res else count_loop fuel qb n (s32 (res + 1))
  end.
Definition q_count (fuel : nat) (qb : nat) : M links Z := count_loop fuel qb qb 0.

Fixpoint find_loop (fuel : nat) (qb item q : nat) (res : Z) : M links Z :=
  match fuel with
  | O => diverge
  | S fuel =>
      if decide (q = item) then ret res else
      if decide (q = qb) then ret 0 else
      n <- next_of q ;; find_loop fuel qb item n (s32 (res + 1))
  end.
Definition q_find (fuel : nat) (qb item : nat) : M links Z :=
  q <- next_of qb ;; find_loop fuel qb item q 1.

(** ** A queue is a list *)

(** The queue block [qb] holds the elements [l], in order. *)
Definition is_queue (s : links) (qb : nat) (l : list nat) : Prop := ring (q_next s) (q_prev s) (qb :: l).

Lemma next_ok s q n : q_next s q = Some n -> next_of q s = Ok n s.
Proof. intros H. unfold next_of, gets, bind. by rewrite H. Qed.
Lemma prev_ok s q n : q_prev s q = Some n -> prev_of q s = Ok n s.
Proof. intros H. unfold prev_of, gets, bind. by rewrite H. Qed.

Lemma queue_last s qb l z :
  is_queue s qb l -> last (qb :: l) = Some z -> q_next s z = Some qb /\ q_prev s qb = Some z.
Proof. apply ring_next_last. Qed.

Lemma last_exists {A} (x : A) l : exists z, last (x :: l) = Some z /\ z ∈ x :: l.
Proof.
  destruct (last (x :: l)) as [z|] eqn:E; [|by apply last_None in E].
  exists z. split; [done|]. apply last_Some in E as [l' ->]. set_solver.
Qed.

Lemma enqueue_ok s qb l item :
  is_queue s qb l -> item ∉ qb :: l ->
  exists s', q_enqueue qb item s = Ok tt s' /\ is_queue s' qb (l ++ [item]).
Proof.
  intros H Hi. destruct (last_exists qb l) as (z & Hz & Hin). destruct (queue_last _ _ _ _ H Hz) as [Hn Hp].
  assert (item <> z) as Hne by (intros ->; done). assert (item <> qb) as Hne' by (intros ->; set_solver).
  unfold q_enqueue. mstep (prev_ok _ _ _ Hp). mstep (eq_refl (set_next z item s)).
  set (s1 := mkLinks (upd (q_next s) z (Some item)) (q_prev s)). mstep (eq_refl (set_next item qb s1)).
  set (s2 := mkLinks (upd (q_next s1) item (Some qb)) (q_prev s1)). mstep (prev_ok s2 _ _ Hp).
  eexists. split; [reflexivity|]. unfold is_queue. cbn [q_next q_prev].
  pose proof (ring_insert _ _ _ _ z item H Hz Hi) as Hr.
  apply (ring_rotate _ _ [item] (qb :: l)) in Hr. eapply ring_ext; [| |exact Hr]; intros x _.
  - unfold s2, s1. cbn [q_next]. unfold upd. repeat case_decide; congruence.
  - done.
Qed.

Lemma dequeue_ok s qb l1 item l2 :
  is_queue s qb (l1 ++ item :: l2) ->
  exists s', q_dequeue item s = Ok tt s' /\ is_queue s' qb (l1 ++ l2).
Proof.
  intros H. unfold is_queue in H. pose proof H as Hr. apply (ring_rotate _ _ (qb :: l1) (item :: l2)) in Hr.
  change ((item :: l2) ++ qb :: l1) with (item :: (l2 ++ qb :: l1)) in Hr.
  destruct (head (l2 ++ qb :: l1)) as [y|] eqn:Ey; [|by destruct l2].
  destruct (last (l2 ++ qb :: l1)) as [z|] eqn:Ez; [|by apply last_None in Ez; destruct l2].
  destruct (ring_unlink _ _ _ _ _ _ Hr Ey Ez) as (Hn & Hp & Hu).
  assert (item <> z) as Hiz.
  { pose proof (ring_nodup _ _ _ Hr) as Hnd. apply NoDup_cons in Hnd as [Hnd _]. intros ->. apply Hnd.
    apply last_Some in Ez as [k ->]. set_solver. }
  unfold q_dequeue. mstep (prev_ok _ _ _ Hp). mstep (next_ok _ _ _ Hn).
  mstep (eq_refl (set_next z y s)). set (s1 := mkLinks (upd (q_next s) z (Some y)) (q_prev s)).
  assert (q_next s1 item = Some y) as Hn1 by (cbn; by rewrite upd_ne).
  mstep (next_ok s1 _ _ Hn1). mstep (prev_ok s1 _ _ Hp). eexists. split; [reflexivity|].
  apply (ring_rotate _ _ l2 (qb :: l1)) in Hu. exact Hu.
Qed.

Lemma deqnext_ok s qb l :
  is_queue s qb l ->
  match l with
  | [] => q_deqnext qb s = Ok None s
  | x :: r => exists s', q_deqnext qb s = Ok (Some x) s' /\ is_queue s' qb r
  end.
Proof.
  intros H. unfold q_deqnext. destruct l as [|x r].
  - destruct (queue_last _ _ _ _ H eq_refl) as [Hn _]. mstep (next_ok _ _ _ Hn). by rewrite decide_True.
  - destruct (ring_next _ _ [] _ _ _ H) as [Hn _]. mstep (next_ok _ _ _ Hn).
    rewrite decide_False; [|intros ->; apply ring_nodup, NoDup_cons in H as [H _]; set_solver].
    destruct (dequeue_ok s qb [] x r H) as (s' & E & Hq). mstep E. by exists s'.
Qed.

(** Walking along the queue. *)
Lemma walk_next s qb l l1 x l2 :
  is_queue s qb l -> qb :: l = l1 ++ x :: l2 ->
  q_next s x = Some (match l2 with y :: _ => y | [] => qb end) /\ (forall y r, l2 = y :: r -> y <> qb).
Proof.
  intros H E. unfold is_queue in H. pose proof (ring_nodup _ _ _ H) as Hnd. rewrite E in H, Hnd.
  pose proof (ring_succ _ _ _ _ _ H) as Hs. rewrite Hs. destruct l1 as [|q l1]; simplify_eq/=.
  - split; [by destruct l2|]. intros y r ->. intros ->. apply NoDup_cons in Hnd as [Hnd _]. set_solver.
  - split; [by destruct l2|]. intros y r -> ->. apply NoDup_cons in Hnd as [Hnd _]. set_solver.
Qed.

Lemma count_loop_ok s qb l l2 : forall l1 x fuel res,
  is_queue s qb l -> qb :: l = l1 ++ x :: l2 -> (length l2 < fuel)%nat ->
  0 <= res -> res + Z.of_nat (length l2) < 2 ^ 31 ->
  count_loop fuel qb x res s = Ok (res + Z.of_nat (length l2)) s.
Proof.
  induction l2 as [|y l2 IH]; intros l1 x fuel res H E Hf Hr Hb; (destruct fuel as [|fuel]; [lia|]);
    destruct (walk_next _ _ _ _ _ _ H E) as [Hn Hne]; cbn [count_loop]; mstep (next_ok _ _ _ Hn).
  - rewrite decide_True by done. unfold ret. f_equal. cbn. lia.
  - rewrite decide_False by (by eapply Hne). cbn [length] in *.
    assert (s32 (res + 1) = res + 1) as -> by (unfold s32; rewrite Z.mod_small; lia).
    rewrite (IH (l1 ++ [x]) y fuel (res + 1)); [f_equal; lia|done|by rewrite <- app_assoc|lia..].
Qed.

Lemma find_loop_ok s qb l item l2 : forall l1 x fuel res,
  is_queue s qb l -> qb :: l = l1 ++ x :: l2 -> l1 <> [] -> (S (length l2) < fuel)%nat ->
  0 <= res -> res + Z.of_nat (length l2) < 2 ^ 31 - 2 ->
  (forall k1 k2, x :: l2 = k1 ++ item :: k2 -> find_loop fuel qb item x res s = Ok (res + Z.of_nat (length k1)) s) /\
  (item ∉ qb :: l -> find_loop fuel qb item x res s = Ok 0 s).
Proof.
  induction l2 as [|y l2 IH]; intros l1 x fuel res H E Hl1 Hf Hr Hb; (destruct fuel as [|fuel]; [lia|]);
    destruct (walk_next _ _ _ _ _ _ H E) as [Hn Hne]; cbn [find_loop];
    pose proof (ring_nodup _ _ _ H) as Hnd; rewrite E in Hnd;
    (assert (x <> qb) as Hxq by (destruct l1 as [|q l1]; [done|]; simplify_eq/=; apply NoDup_cons in Hnd as [Hnd _];
       intros ->; apply Hnd; set_solver)).
  - split.
    + intros [|? [|? ?]] k2 Ek; simplify_eq/=. rewrite decide_True by done. unfold ret. f_equal. lia.
    + intros Hi. rewrite decide_False by (intros ->; apply Hi; rewrite E; set_solver).
      rewrite decide_False by done. mstep (next_ok _ _ _ Hn). destruct fuel as [|fuel]; [cbn in Hf; lia|].
      cbn [find_loop]. rewrite decide_False by (intros ->; apply Hi; by left). by rewrite decide_True.
  - cbn [length] in *. assert (s32 (res + 1) = res + 1) as Es by (unfold s32; rewrite Z.mod_small; lia).
    destruct (IH (l1 ++ [x]) y fuel (res + 1) H) as [IH1 IH2]; [by rewrite <- app_assoc|by destruct l1|lia..|].
    apply NoDup_app in Hnd as (_ & _ & Hnd). apply NoDup_cons in Hnd as [Hnd _]. split.
    + intros [|x' k1] k2 Ek; injection Ek as Ex Ek; [rewrite decide_True by done; unfold ret; f_equal; cbn; lia|].
      rewrite decide_False by (intros ->; apply Hnd; rewrite Ek; set_solver). rewrite decide_False by done.
      mstep (next_ok _ _ _ Hn). rewrite Es, (IH1 _ _ Ek). cbn [length]. f_equal. lia.
    + intros Hi. rewrite decide_False by (intros ->; apply Hi; rewrite E; set_solver). rewrite decide_False by done.
      mstep (next_ok _ _ _ Hn). rewrite Es. by apply IH2.
Qed.

(** C39: a queue is the list of its elements, in the order they were put in.
    [q_enqueue] appends, [q_deqnext] takes the first element and returns null on
    an empty queue, [q_dequeue] takes an element out wherever it is, [q_count]
    counts and [q_find] gives the position, 0 for what is not on the queue. *)
Theorem queue_is_list s qb l fuel :
  is_queue s qb l -> Z.of_nat (length l) < 2 ^ 31 - 2 -> (S (length l) < fuel)%nat ->
  (forall item, item ∉ qb :: l -> exists s', q_enqueue qb item s = Ok tt s' /\ is_queue s' qb (l ++ [item])) /\
  (forall l1 item l2, l = l1 ++ item :: l2 -> exists s', q_dequeue item s = Ok tt s' /\ is_queue s' qb (l1 ++ l2)) /\
  match l with
  | [] => q_deqnext qb s = Ok None s
  | x :: r => exists s', q_deqnext qb s = Ok (Some x) s' /\ is_queue s' qb r
  end /\
  q_count fuel qb s = Ok (Z.of_nat (length l)) s /\
  (forall l1 item l2, l = l1 ++ item :: l2 -> q_find fuel qb item s = Ok (Z.of_nat (length l1) + 1) s) /\
  (forall item, item ∉ qb :: l -> q_find fuel qb item s = Ok 0 s).
Proof.
  intros H Hl Hf. split_and!.
  - intros item Hi. by apply enqueue_ok.
  - intros l1 item l2 ->. by apply dequeue_ok.
  - by apply deqnext_ok.
  - unfold q_count. rewrite (count_loop_ok s qb l l [] qb fuel 0) by (done || lia). done.
  - intros l1 item l2 E. unfold q_find. destruct l as [|x r]; [by destruct l1|].
    destruct (walk_next _ _ _ [] qb (x :: r) H eq_refl) as [Hn _]. mstep (next_ok _ _ _ Hn).
    destruct (find_loop_ok s qb (x :: r) item r [qb] x fuel 1 H) as [H1 _]; [done|done|cbn in *; lia..|].
    rewrite (H1 _ _ E). f_equal. lia.
  - intros item Hi. unfold q_find. destruct (walk_next _ _ _ [] qb l H eq_refl) as [Hn _]. mstep (next_ok _ _ _ Hn).
    destruct l as [|x r].
    + destruct fuel as [|fuel]; [lia|]. cbn [find_loop]. rewrite decide_False by (intros ->; apply Hi; by left).
      by rewrite decide_True.
    + destruct (find_loop_ok s qb (x :: r) item r [qb] x fuel 1 H) as [_ H1]; [done|done|cbn in *; lia..|]. by apply H1.
Qed.

(** The first result that is not zero. *)
Fixpoint first_nz (l : list Z) : Z := match l with [] => 0 | r :: l => if nz r then r else first_nz l end.

Lemma map_loop_pure s qb l func a b f l2 : forall l1 fuel,
  is_queue s qb l -> l = l1 ++ l2 -> (length l2 < fuel)%nat ->
  (forall x, x ∈ l -> func x a b s = Ok (f x) s) ->
  map_loop fuel qb func a b (match l2 with [] => qb | x :: _ => x end) s = Ok (first_nz (f <$> l2)) s.
Proof.
  induction l2 as [|x l2 IH]; intros l1 fuel H E Hf Hfn; (destruct fuel as [|fuel]; [lia|]); cbn [map_loop].
  { by rewrite decide_True. }
  assert (qb :: l = (qb :: l1) ++ x :: l2) as E' by (by rewrite E).
  destruct (walk_next _ _ _ _ _ _ H E') as [Hn _].
  rewrite decide_False by (intros ->; apply ring_nodup, NoDup_cons in H as [H _]; rewrite E in H; set_solver).
  mstep (next_ok _ _ _ Hn). assert (func x a b s = Ok (f x) s) as Ex by (apply Hfn; rewrite E; set_solver). mstep Ex.
  cbn [fmap list_fmap first_nz]. destruct (nz (f x)); [done|]. cbn [length] in Hf.
  apply (IH (l1 ++ [x])); [done|by rewrite <- app_assoc|lia|done].
Qed.

Lemma map_loop_dequeue qb func a b l2 : forall s fuel,
  is_queue s qb l2 -> (length l2 < fuel)%nat ->
  (forall x s, func x a b s = (q_dequeue x ;; ret 0) s) ->
  exists s', map_loop fuel qb func a b (match l2 with [] => qb | x :: _ => x end) s = Ok 0 s' /\ is_queue s' qb [].
Proof.
  induction l2 as [|x l2 IH]; intros s fuel H Hf Hfn; (destruct fuel as [|fuel]; [lia|]); cbn [map_loop].
  { rewrite decide_True by done. by exists s. }
  destruct (walk_next s qb (x :: l2) [qb] x l2 H eq_refl) as [Hn _].
  rewrite decide_False by (intros ->; apply ring_nodup, NoDup_cons in H as [H _]; set_solver).
  mstep (next_ok _ _ _ Hn). destruct (dequeue_ok s qb [] x l2 H) as (s1 & E1 & H1).
  assert (func x a b s = Ok 0 s1) as Ex by (rewrite Hfn; unfold bind; by rewrite E1). mstep Ex.
  change (nz 0) with false. cbn iota. cbn [length] in Hf. apply (IH s1); [done|lia|done].
Qed.

(** [q_map] goes over the elements in order and stops at the first one for
    which the function does not return 0, whose result it returns; since it
    reads the next link before it calls the function, a function that takes its
    element out of the queue is allowed, and empties the queue. *)
Theorem q_map_visits s qb l fuel func a b f :
  is_queue s qb l -> (length l < fuel)%nat ->
  ((forall x, x ∈ l -> func x a b s = Ok (f x) s) ->
   q_map fuel qb func a b s = Ok (first_nz (f <$> l)) s) /\
  ((forall x s, func x a b s = (q_dequeue x ;; ret 0) s) ->
   exists s', q_map fuel qb func a b s = Ok 0 s' /\ is_queue s' qb []).
Proof.
  intros H Hf. destruct (walk_next _ _ _ [] qb l H eq_refl) as [Hn _]. unfold q_map. split; intros Hfn.
  - mstep (next_ok _ _ _ Hn). by apply (map_loop_pure s qb l func a b f l []).
  - destruct (map_loop_dequeue qb func a b l s fuel H Hf Hfn) as (s' & E & Hs').
    exists s'. mstep (next_ok _ _ _ Hn). by split.
Qed.

Definition demo_links : links :=
  mkLinks (fun x => match x with 0 => Some 5 | _ => Some 0 end)%nat (fun x => match x with 0 => Some 5 | _ => Some 0 end)%nat.

Lemma q_map_visits_demo :
  exists s', q_map 3 0 (fun x _ _ => q_dequeue x ;; ret 0) 1 2 demo_links = Ok 0 s' /\ is_queue s' 0 [].
Proof.
  apply (q_map_visits demo_links 0 [5%nat] 3 (fun x _ _ => q_dequeue x ;; ret 0) 1 2 (fun _ => 0)); [|cbn; lia|done].
  split; [apply NoDup_cons; split; [set_solver|apply NoDup_singleton]|]. done.
Defined.

Lemma queue_is_list_demo :
  exists s, q_enqueue 0 7 (mkLinks (fun _ => Some 0%nat) (fun _ => Some 0%nat)) = Ok tt s /\ is_queue s 0 [7%nat].
Proof.
  destruct (queue_is_list (mkLinks (fun _ => Some 0%nat) (fun _ => Some 0%nat)) 0 [] 2) as (H & _);
    [by apply ring_singleton|done|cbn; lia|]. apply (H 7%nat). set_solver.
Defined.
