(* ===== verification/Malloc.v ===== *)
(** * The memory pool: [drivers/nocfe/lib_malloc.c]

    The pool's nodes live in the memory they manage.  The memory is modelled as
    32-bit words at their addresses (the code is built for 32 bits, and the
    pool's buffer must be pointer-aligned): loads and stores of words at
    addresses that are null or not aligned are a [Fault], so a run that returns
    made none.  A [memnode_t] has six words: [seal] at 0, [next] at 4, [length]
    at 8, [status] at 12, [data] at 16 and [memnodeptr] at 20.

    [fuel] bounds the walks along the node list: a walk along a cyclic list is
    [Diverge]. *)
From S2P Require Import Prelude Bits.

(** [mempool_t], the memory and the flag of [kmem_init]. *)
Record kheap := mkHeap {
  words : gmap Z Z;
  root : Z;
  base : Z;
  plength : Z;
  kmem_init_done : Z
}.
#[global] Instance eta_kheap : Eta kheap := fun r =>
  mkHeap (words r) (root r) (base r) (plength r) (kmem_init_done r).

Definition MEMNODE_SEAL : Z := 0xFAAFA123.
Definition MINBLKSIZE : Z := 64.
Definition memnode_free : Z := 0.
Definition memnode_alloc : Z := 1.
Definition sizeof_memnode : Z := 24.

(** A word of the memory. *)
Definition word (w : gmap Z Z) (a : Z) : Z := default 0 (w !! a).

Definition usable (a : Z) : bool := (0 <? a) && (a mod 4 =? 0).
Definition ld (a : Z) : M kheap Z := if usable a then gets (fun h => word (words h) a) else fault.
Definition st (a v : Z) : M kheap unit := if usable a then modify (fun h => h <| words ::= <[a := v]> |>) else fault.

(** The fields of a node. *)
Definition f_seal (m : Z) : Z := m.
Definition f_next (m : Z) : Z := u32 (m + 4).
Definition f_length (m : Z) : Z := u32 (m + 8).
Definition f_status (m : Z) : Z := u32 (m + 12).
Definition f_data (m : Z) : Z := u32 (m + 16).

Definition memnode_data (m : Z) : Z := u32 (m + sizeof_memnode).

Definition kmeminit (buffer len : Z) : M kheap unit :=
  modify (fun h => h <| root := buffer |>) ;;
  st (f_seal buffer) MEMNODE_SEAL ;;
  st (f_length buffer) (u32 (len - sizeof_memnode)) ;;
  st (f_data buffer) (memnode_data buffer) ;;
  st (f_status buffer) memnode_free ;;
  st (f_next buffer) 0 ;;
  modify (fun h => h <| base := buffer |> <| plength := u32 len |>).

Definition kmempoolbase : M kheap Z := gets base.
Definition kmempoolsize : M kheap Z := gets (fun h => s32 (plength h)).

(** One pass of [kmemcompact] from [m] on: how many nodes it merged, or [None]
    when a node has no seal. *)
Fixpoint compact_pass (fuel : nat) (m compacted : Z) : M kheap (option Z) :=
  match fuel with
  | O => diverge
  | S fuel =>
      if m =? 0 then ret (Some compacted) else
      sl <- ld (f_seal m) ;;
      if negb (sl =? MEMNODE_SEAL) then ret None else
      nx <- ld (f_next m) ;;
      both <- (if nx =? 0 then ret false else
               s <- ld (f_status m) ;;
               if negb (s =? memnode_free) then ret false else
               s' <- ld (f_status nx) ;;
               ret (s' =? memnode_free)) ;;
      if both : bool then
        len <- ld (f_length m) ;;
        nlen <- ld (f_length nx) ;;
        st (f_length m) (u32 (len + (sizeof_memnode + nlen))) ;;
        st (f_seal nx) 0 ;;
        nnx <- ld (f_next nx) ;;
        st (f_next m) nnx ;;
        compact_pass fuel nnx (compacted + 1)
      else compact_pass fuel nx compacted
  end.

(** [passes] bounds the rounds of the [do] loop. *)
Fixpoint compact_loop (fuel passes : nat) : M kheap unit :=
  match passes with
  | O => diverge
  | S passes =>
      m <- gets root ;;
      r <- compact_pass fuel m 0 ;;
      match r with
      | None => ret tt
      | Some compacted => if 0 <? compacted then compact_loop fuel passes else ret tt
      end
  end.
Definition kmemcompact (fuel : nat) : M kheap unit := compact_loop fuel fuel.

Definition kfree (fuel : nat) (ptr : Z) : M kheap unit :=
  h <- get ;;
  if (ptr <? base h) || (u32 (base h + plength h) <=? ptr) then ret tt else
  m <- ld (u32 (ptr - 4)) ;;
  sl <- ld (f_seal m) ;;
  if negb (sl =? MEMNODE_SEAL) then ret tt else
  st (f_status m) memnode_free ;;
  kmemcompact fuel.

(** The alignment and the size [kmalloc] works with. *)
Definition pointer_align (align : Z) : Z := if align <? 4 then 8 else align.
Definition round_size (size : Z) : Z :=
  let size := if size =? 0 then 4 else size in
  if nz (size .& 3) then u32 (size + 4) .& not32 3 else size.

(** [if (daddr & (a-1)) { daddr += a; daddr &= ~(a-1); }] *)
Definition align_up (daddr a : Z) : Z :=
  if nz (daddr .& (a - 1)) then u32 (daddr + a) .& not32 (a - 1) else daddr.

(** The bytes asked of a block whose data begin at [daddr]. *)
Definition real_size (size ptralign daddr : Z) : Z :=
  let extra := if nz (daddr .& (ptralign - 1))
    then u32 (size + (ptralign - (daddr .& (ptralign - 1)))) else 0 in
  u32 (size + extra).

(** The search: the node ([0] if there is none) and the last values of [daddr]
    and [realsize]. *)
Fixpoint find_node (fuel : nat) (size ptralign m daddr realsize : Z) : M kheap (Z * Z * Z) :=
  match fuel with
  | O => diverge
  | S fuel =>
      if m =? 0 then ret (m, daddr, realsize) else
      s <- ld (f_status m) ;;
      if s =? memnode_alloc then
        nx <- ld (f_next m) ;; find_node fuel size ptralign nx daddr realsize
      else
        let daddr := memnode_data m in
        let realsize := real_size size ptralign daddr in
        len <- ld (f_length m) ;;
        if len <? realsize then
          nx <- ld (f_next m) ;; find_node fuel size ptralign nx daddr realsize
        else ret (m, daddr, realsize)
  end.

(** The pointer, or [0]. *)
Definition kmalloc (fuel : nat) (size align : Z) : M kheap Z :=
  let ptralign := pointer_align align in
  let size := round_size size in
  m0 <- gets root ;;
  let* (m, daddr, realsize) := find_node fuel size ptralign m0 0 0 in
  if m =? 0 then ret 0 else
  let daddr := align_up daddr ptralign in
  st (f_data m) daddr ;;
  st (f_status m) memnode_alloc ;;
  st (u32 (daddr - 4)) m ;;
  len <- ld (f_length m) ;;
  if u32 (len - realsize) <? MINBLKSIZE then ld (f_data m) else
  let newm := align_up (u32 (daddr + size)) 4 in
  let blkend := u32 (memnode_data m + len) in
  nx <- ld (f_next m) ;;
  st (f_next newm) nx ;;
  st (f_length m) (u32 (newm - memnode_data m)) ;;
  st (f_next m) newm ;;
  st (f_status m) memnode_alloc ;;
  st (f_seal newm) MEMNODE_SEAL ;;
  st (f_data newm) (memnode_data newm) ;;
  st (f_length newm) (u32 (blkend - memnode_data newm)) ;;
  st (f_status newm) memnode_free ;;
  ld (f_data m).

Record memstats_t := mkStats {
  mem_totalbytes : Z; mem_allocbytes : Z; mem_freebytes : Z;
  mem_allocnodes : Z; mem_freenodes : Z; mem_largest : Z
}.
#[global] Instance eta_memstats : Eta memstats_t := fun r =>
  mkStats (mem_totalbytes r) (mem_allocbytes r) (mem_freebytes r)
    (mem_allocnodes r) (mem_freenodes r) (mem_largest r).

(** The counting of one node. *)
Definition count_node (s len : Z) (stats : memstats_t) : memstats_t :=
  if nz s then
    stats <| mem_allocnodes ::= fun n => s32 (n + 1) |> <| mem_allocbytes ::= fun n => s32 (n + len) |>
  else
    let stats := stats <| mem_freenodes ::= fun n => s32 (n + 1) |> <| mem_freebytes ::= fun n => s32 (n + len) |> in
    if u32 (mem_largest stats) <? len then stats <| mem_largest := s32 len |> else stats.

Fixpoint stats_loop (fuel : nat) (m : Z) (stats : memstats_t) : M kheap (Z * memstats_t) :=
  match fuel with
  | O => diverge
  | S fuel =>
      if m =? 0 then ret (0, stats) else
      s <- ld (f_status m) ;;
      len <- ld (f_length m) ;;
      let stats := count_node s len stats in
      sl <- ld (f_seal m) ;;
      if negb (sl =? MEMNODE_SEAL) then ret (-1, stats) else
      nx <- ld (f_next m) ;;
      if nz nx && negb (u32 (memnode_data m + len) =? nx) then ret (-1, stats) else
      if nz nx && (nx <? m) then ret (-1, stats) else
      d <- ld (f_data m) ;;
      if d <? m then ret (-1, stats) else
      if s =? memnode_alloc then
        b <- ld (u32 (d - 4)) ;;
        if negb (b =? m) then ret (-1, stats) else stats_loop fuel nx stats
      else stats_loop fuel nx stats
  end.

Definition kmemstats (fuel : nat) : M kheap (Z * memstats_t) :=
  h <- get ;;
  stats_loop fuel (root h) (mkStats (s32 (plength h)) 0 0 0 0 0).

(** [heap] is the address of the static array of one megabyte. *)
Definition kmem_init (heap : Z) : M kheap unit :=
  d <- gets kmem_init_done ;;
  if nz d then ret tt else
  modify (fun h => h <| kmem_init_done := 1 |>) ;;
  kmeminit heap (1 * 1024 * 1024).
