(* ===== verification/MallocFacts.v ===== *)
(** * The memory pool is a tiling of its buffer

    The invariant: the buffer is covered, without gaps or overlaps, by the
    nodes of the list and their data sections; the data handed out lie inside
    the sections of the allocated nodes.  [kmalloc] and [kfree] keep it, and so
    does any store a client makes to memory it was given. *)
From S2P Require Import Prelude Bits Malloc.

(** ** Words of the memory *)

Lemma word_insert_eq w a v : word (<[a := v]> w) a = v.
Proof. unfold word. by rewrite lookup_insert_eq. Qed.
Lemma word_insert_ne w a v b : a <> b -> word (<[a := v]> w) b = word w b.
Proof. intros H. unfold word. by rewrite lookup_insert_ne. Qed.

Ltac word_simpl := repeat (rewrite word_insert_eq || rewrite word_insert_ne by lia).

(** The heap with another memory. *)
Definition wset (h : kheap) (w : gmap Z Z) : kheap :=
  mkHeap w (root h) (base h) (plength h) (kmem_init_done h).
Lemma words_wset h w : words (wset h w) = w.
Proof. done. Qed.
Lemma wset_wset h w w' : wset (wset h w) w' = wset h w'.
Proof. done. Qed.

Lemma ld_ok a h : 0 < a -> a mod 4 = 0 -> ld a h = Ok (word (words h) a) h.
Proof. intros H1 H2. unfold ld, usable. rewrite H2, (proj2 (Z.ltb_lt 0 a)) by done. done. Qed.
Lemma st_ok a v h : 0 < a -> a mod 4 = 0 -> st a v h = Ok tt (wset h (<[a := v]> (words h))).
Proof. intros H1 H2. unfold st, usable. rewrite H2, (proj2 (Z.ltb_lt 0 a)) by done. done. Qed.

(** A place for a node. *)
Definition placed (m : Z) : Prop := 0 < m /\ m mod 4 = 0 /\ m + 24 < 2 ^ 32.

Lemma mod4_add a k : a mod 4 = 0 -> (a + 4 * k) mod 4 = 0.
Proof. intros H. rewrite (Z.mul_comm 4), Z_mod_plus_full. done. Qed.

Section fields.
Context (m : Z) (h : kheap) (Hm : placed m).
Local Ltac field k := destruct Hm as (? & ? & ?);
  rewrite u32_small by lia; (apply ld_ok || apply st_ok); [lia|by apply (mod4_add m k)].

Lemma ld_seal : ld (f_seal m) h = Ok (word (words h) m) h.
Proof. destruct Hm as (? & ? & ?). by apply ld_ok. Qed.
Lemma ld_next : ld (f_next m) h = Ok (word (words h) (m + 4)) h.
Proof. unfold f_next. field 1. Qed.
Lemma ld_length : ld (f_length m) h = Ok (word (words h) (m + 8)) h.
Proof. unfold f_length. field 2. Qed.
Lemma ld_status : ld (f_status m) h = Ok (word (words h) (m + 12)) h.
Proof. unfold f_status. field 3. Qed.
Lemma ld_data : ld (f_data m) h = Ok (word (words h) (m + 16)) h.
Proof. unfold f_data. field 4. Qed.
Lemma st_seal v : st (f_seal m) v h = Ok tt (wset h (<[m := v]> (words h))).
Proof. destruct Hm as (? & ? & ?). by apply st_ok. Qed.
Lemma st_next v : st (f_next m) v h = Ok tt (wset h (<[m + 4 := v]> (words h))).
Proof. unfold f_next. field 1. Qed.
Lemma st_length v : st (f_length m) v h = Ok tt (wset h (<[m + 8 := v]> (words h))).
Proof. unfold f_length. field 2. Qed.
Lemma st_status v : st (f_status m) v h = Ok tt (wset h (<[m + 12 := v]> (words h))).
Proof. unfold f_status. field 3. Qed.
Lemma st_data v : st (f_data m) v h = Ok tt (wset h (<[m + 16 := v]> (words h))).
Proof. unfold f_data. field 4. Qed.
Lemma memnode_data_placed : memnode_data m = m + 24.
Proof. destruct Hm as (? & ? & ?). unfold memnode_data, sizeof_memnode. apply u32_small. lia. Qed.
End fields.

(** Run the next load or store of a field of a node known to be [placed]. *)
Ltac heap_step :=
  match goal with
  | |- context [bind (ld (f_seal ?m)) _ ?h] => rewrite (bind_ok _ _ _ _ _ (ld_seal m h ltac:(assumption)))
  | |- context [bind (ld (f_next ?m)) _ ?h] => rewrite (bind_ok _ _ _ _ _ (ld_next m h ltac:(assumption)))
  | |- context [bind (ld (f_length ?m)) _ ?h] => rewrite (bind_ok _ _ _ _ _ (ld_length m h ltac:(assumption)))
  | |- context [bind (ld (f_status ?m)) _ ?h] => rewrite (bind_ok _ _ _ _ _ (ld_status m h ltac:(assumption)))
  | |- context [bind (ld (f_data ?m)) _ ?h] => rewrite (bind_ok _ _ _ _ _ (ld_data m h ltac:(assumption)))
  | |- context [bind (st (f_seal ?m) ?v) _ ?h] => rewrite (bind_ok _ _ _ _ _ (st_seal m h ltac:(assumption) v))
  | |- context [bind (st (f_next ?m) ?v) _ ?h] => rewrite (bind_ok _ _ _ _ _ (st_next m h ltac:(assumption) v))
  | |- context [bind (st (f_length ?m) ?v) _ ?h] => rewrite (bind_ok _ _ _ _ _ (st_length m h ltac:(assumption) v))
  | |- context [bind (st (f_status ?m) ?v) _ ?h] => rewrite (bind_ok _ _ _ _ _ (st_status m h ltac:(assumption) v))
  | |- context [bind (st (f_data ?m) ?v) _ ?h] => rewrite (bind_ok _ _ _ _ _ (st_data m h ltac:(assumption) v))
  end; cbn beta iota; rewrite ?words_wset, ?wset_wset.

(** ** Blocks *)

(** A node and its data section; [b_use] is the pointer handed out and the
    number of bytes it is good for. *)
Record blk_t := mkBlk { b_addr : Z; b_len : Z; b_use : option (Z * Z) }.

Definition b_end (b : blk_t) : Z := b_addr b + 24 + b_len b.
Definition b_free (b : blk_t) : bool := match b_use b with None => true | _ => false end.
Definition b_status (b : blk_t) : Z := if b_free b then memnode_free else memnode_alloc.

Record node_ok (w : gmap Z Z) (b : blk_t) (nx : Z) : Prop := {
  no_placed : placed (b_addr b);
  no_len : 0 <= b_len b;
  no_seal : word w (b_addr b) = MEMNODE_SEAL;
  no_next : word w (b_addr b + 4) = nx;
  no_length : word w (b_addr b + 8) = b_len b;
  no_status : word w (b_addr b + 12) = b_status b;
  no_data : b_addr b <= word w (b_addr b + 16);
  no_use : match b_use b with
    | None => True
    | Some (p, n) => word w (b_addr b + 16) = p /\ p mod 4 = 0 /\ b_addr b + 24 <= p /\
                     0 < n /\ p + n <= b_end b /\ word w (p - 4) = b_addr b
    end
}.

Definition next_addr (l : list blk_t) (nx : Z) : Z := match l with [] => nx | b :: _ => b_addr b end.

(** The blocks [l] tile the memory from [a] to [e]; the last one's next
    pointer is [nx]. *)
Fixpoint tiles (w : gmap Z Z) (a : Z) (l : list blk_t) (e nx : Z) : Prop :=
  match l with
  | [] => a = e
  | b :: r => b_addr b = a /\ node_ok w b (next_addr r nx) /\ tiles w (b_end b) r e nx
  end.

Definition allocs (l : list blk_t) : list (Z * Z) := omap b_use l.

(** The pool [h] with the blocks [l]. *)
Record pool_ok (h : kheap) (l : list blk_t) : Prop := {
  po_root : root h = base h;
  po_base : 0 < base h;
  po_end : base h + plength h < 2 ^ 32;
  po_some : l <> [];
  po_tiles : tiles (words h) (base h) l (base h + plength h) 0
}.

Lemma tiles_le w a l e nx : tiles w a l e nx -> a <= e.
Proof.
  revert a. induction l as [|b l IH]; intros a; cbn; [lia|]. intros (<- & Hn & Ht).
  apply IH in Ht. pose proof (no_len _ _ _ Hn). unfold b_end in Ht. lia.
Qed.

Lemma tiles_app w a l1 l2 e nx :
  tiles w a (l1 ++ l2) e nx <-> exists c, tiles w a l1 c (next_addr l2 nx) /\ tiles w c l2 e nx.
Proof.
  revert a. induction l1 as [|b l1 IH]; intros a; cbn.
  - split; [intros H; by exists a|by intros (c & -> & H)].
  - assert (next_addr (l1 ++ l2) nx = next_addr l1 (next_addr l2 nx)) as -> by (by destruct l1).
    split.
    + intros (H1 & H2 & H3). apply IH in H3 as (c & H3 & H4). exists c. by split_and!.
    + intros (c & (H1 & H2 & H3) & H4). split_and!; [done..|]. apply IH. by exists c.
Qed.

(** Only the words of the node and the back pointer matter. *)
Lemma node_ok_ext w w' b nx :
  (forall x, b_addr b <= x < b_addr b + 24 -> word w' x = word w x) ->
  (forall p n, b_use b = Some (p, n) -> word w' (p - 4) = word w (p - 4)) ->
  node_ok w b nx -> node_ok w' b nx.
Proof.
  intros Hx Hp [[Hp1 Hp2] H2 H3 H4 H5 H6 H7 H8].
  split; rewrite ?Hx by lia; try done.
  destruct (b_use b) as [[p n]|] eqn:E; [|done]. rewrite (Hp p n) by done.
  destruct H8 as (? & ? & ? & ? & ? & ?). split_and!; done.
Qed.

Lemma tiles_ext w w' a l e nx :
  (forall x, a <= x < e -> word w' x = word w x) -> tiles w a l e nx -> tiles w' a l e nx.
Proof.
  revert a. induction l as [|b l IH]; intros a Hx; [done|]. intros (<- & Hn & Ht).
  pose proof (tiles_le _ _ _ _ _ Ht) as Hle. pose proof (no_len _ _ _ Hn). pose proof (no_use _ _ _ Hn) as Hu.
  unfold b_end in *. split; [done|]. split.
  - apply (node_ok_ext w); [intros; apply Hx; lia| |done]. intros p n E. rewrite E in Hu. apply Hx. lia.
  - apply IH; [|done]. intros x Hb. apply Hx. unfold b_end in Hb. lia.
Qed.

Lemma tiles_next w a l e nx : tiles w a l e nx -> l <> [] -> next_addr l nx = a.
Proof. destruct l; [done|]. by intros (H & _) _. Qed.

(** Replacing the blocks in the middle by others that tile the same memory. *)
Lemma tiles_replace w w' a l1 old new l2 e nx x y :
  tiles w a (l1 ++ old ++ l2) e nx -> old <> [] -> new <> [] ->
  tiles w x old y (next_addr l2 nx) ->
  (forall z, z < x \/ y <= z -> word w' z = word w z) ->
  tiles w' x new y (next_addr l2 nx) ->
  tiles w' a (l1 ++ new ++ l2) e nx.
Proof.
  intros Ht Ho Hn Hold Hw Hnew. apply tiles_app in Ht as (c & H1 & H2). apply tiles_app in H2 as (d & H2 & H3).
  assert (forall (k k' : list blk_t), k <> [] -> next_addr (k ++ k') nx = next_addr k nx) as Hna by (by intros [|? ?] ?).
  assert (c = x) as ->.
  { pose proof (tiles_next _ _ _ _ _ H2 Ho). pose proof (tiles_next _ _ _ _ _ Hold Ho). congruence. }
  assert (d = y) as ->.
  { clear -H2 Hold. revert x H2 Hold. induction old as [|b old IH]; intros x; cbn; [congruence|].
    intros (_ & _ & H) (_ & _ & H'). by eapply IH. }
  pose proof (tiles_le _ _ _ _ _ Hold). pose proof (tiles_le _ _ _ _ _ H1).
  apply tiles_app. exists x. split.
  - rewrite (Hna new) by done. replace (next_addr new nx) with x.
    + rewrite (Hna old) in H1 by done. replace (next_addr old nx) with x in H1.
      * apply (tiles_ext w); [intros; apply Hw; lia|done].
      * destruct old; [done|]. by destruct Hold.
    + destruct new; [done|]. by destruct Hnew.
  - apply tiles_app. exists y. split; [done|]. apply (tiles_ext w); [intros; apply Hw; lia|done].
Qed.

Lemma tiles_mid w a l1 b l2 e nx :
  tiles w a (l1 ++ b :: l2) e nx ->
  node_ok w b (next_addr l2 nx) /\ a <= b_addr b /\ b_end b <= e.
Proof.
  intros H. apply tiles_app in H as (c & H1 & (<- & H2 & H3)).
  apply tiles_le in H1. apply tiles_le in H3. done.
Qed.

(** Different blocks do not overlap. *)
Lemma tiles_disjoint w a l1 b l2 e nx b' :
  tiles w a (l1 ++ b :: l2) e nx -> b' ∈ l1 ++ l2 ->
  b_end b' <= b_addr b \/ b_end b <= b_addr b'.
Proof.
  intros H Hin. apply tiles_app in H as (c & H1 & (<- & H2 & H3)). apply elem_of_app in Hin as [Hin|Hin];
    apply list_elem_of_split in Hin as (k1 & k2 & ->); [left; apply tiles_mid in H1|right; apply tiles_mid in H3]; tauto.
Qed.

Lemma use_inside w b nx p n :
  node_ok w b nx -> b_use b = Some (p, n) ->
  p mod 4 = 0 /\ b_addr b + 24 <= p /\ 0 < n /\ p + n <= b_end b /\ word w (p - 4) = b_addr b.
Proof. intros Hn E. pose proof (no_use _ _ _ Hn) as H. rewrite E in H. tauto. Qed.

Lemma allocs_in l p n : (p, n) ∈ allocs l -> exists l1 b l2, l = l1 ++ b :: l2 /\ b_use b = Some (p, n).
Proof.
  intros H. unfold allocs in H. apply list_elem_of_omap in H as (b & Hb & E).
  apply list_elem_of_split in Hb as (l1 & l2 & ->). eauto.
Qed.

Lemma allocs_app l1 l2 : allocs (l1 ++ l2) = allocs l1 ++ allocs l2.
Proof. unfold allocs. induction l1 as [|b l1 IH]; [done|]. cbn. destruct (b_use b); cbn; by rewrite IH. Qed.

Lemma allocs_mid l1 b l2 x : b_use b = Some x -> allocs (l1 ++ b :: l2) ≡ₚ x :: allocs (l1 ++ l2).
Proof.
  intros Hu. rewrite !allocs_app. unfold allocs at 2. cbn [omap list_omap]. rewrite Hu.
  symmetry. apply Permutation_middle.
Qed.

Lemma allocs_mid_free l1 b l2 : b_use b = None -> allocs (l1 ++ b :: l2) = allocs (l1 ++ l2).
Proof. intros Hu. rewrite !allocs_app. unfold allocs at 2. cbn [omap list_omap]. by rewrite Hu. Qed.

(** ** A client's stores *)

Lemma client_store h l p n x v :
  pool_ok h l -> (p, n) ∈ allocs l -> p <= x < p + n ->
  pool_ok (h <| words ::= <[x := v]> |>) l.
Proof.
  intros [H1 H2 H3 H4 H5] Hin Hx. split; try done. cbn [words base plength].
  change (tiles (<[x := v]> (words h)) (base h) l (base h + plength h) 0).
  apply allocs_in in Hin as (l1 & b & l2 & -> & E).
  destruct (tiles_mid _ _ _ _ _ _ _ H5) as (Hn & _ & _).
  destruct (use_inside _ _ _ _ _ Hn E) as (? & ? & ? & ? & ?).
  assert (forall z, z <> x -> word (<[x := v]> (words h)) z = word (words h) z) as Hw
    by (intros z Hz; apply word_insert_ne; congruence).
  apply (tiles_replace (words h) _ _ l1 [b] [b] l2 _ _ (b_addr b) (b_end b)); [done|done|done| | |].
  - split; [done|]. by split.
  - intros z Hz. apply Hw. unfold b_end in *. lia.
  - split; [done|]. split; [|done]. apply (node_ok_ext (words h)); [intros; apply Hw; lia| |done].
    intros p' n' E'. rewrite E in E'. simplify_eq. apply Hw. lia.
Qed.

(** ** Alignment *)

Lemma land_not32 x k : 0 <= k <= 32 -> 0 <= x < 2 ^ 32 -> x .& not32 (2 ^ k - 1) = x - x mod 2 ^ k.
Proof.
  intros Hk Hx. assert (x .& not32 (2 ^ k - 1) = Z.ldiff x (Z.ones k)) as ->.
  { replace (2 ^ k - 1) with (Z.ones k) by (rewrite Z.ones_equiv; lia). unfold not32. change 0xFFFFFFFF with (Z.ones 32).
    apply Z.bits_inj'. intros n Hn. rewrite Z.land_spec, Z.lxor_spec, Z.ldiff_spec, !Z.testbit_ones_nonneg by lia.
    destruct (Z.ltb_spec n 32); [by destruct (n <? k)|]. by rewrite (high_bits x 32) by lia. }
  rewrite Z.ldiff_ones_r, Z.shiftr_div_pow2, Z.shiftl_mul_pow2 by lia.
  rewrite (Z.div_mod x (2 ^ k)) at 2 by lia. lia.
Qed.

Lemma land_mask x k : 0 <= k -> x .& (2 ^ k - 1) = x mod 2 ^ k.
Proof. intros Hk. rewrite <- Z.land_ones by lia. by rewrite Z.ones_equiv, Z.sub_1_r. Qed.

(** Rounding an address up to a multiple of [2 ^ k]: the distance, and the
    multiple. *)
Definition pad_to (x k : Z) : Z := if x mod 2 ^ k =? 0 then 0 else 2 ^ k - x mod 2 ^ k.

Lemma pad_to_range x k : 0 <= k -> 0 <= pad_to x k < 2 ^ k.
Proof.
  intros Hk. unfold pad_to. pose proof (Z.mod_pos_bound x (2 ^ k) ltac:(lia)).
  destruct (Z.eqb_spec (x mod 2 ^ k) 0); lia.
Qed.

Lemma pad_to_mod x k : 0 <= k -> (x + pad_to x k) mod 2 ^ k = 0.
Proof.
  intros Hk. unfold pad_to. destruct (Z.eqb_spec (x mod 2 ^ k) 0) as [E|E]; [by rewrite Z.add_0_r|].
  rewrite Z.mod_eq by lia. pose proof (Z.div_mod x (2 ^ k) ltac:(lia)) as Hd.
  replace (x + (2 ^ k - x mod 2 ^ k)) with ((x / 2 ^ k + 1) * 2 ^ k) by lia. rewrite Z.div_mul by lia. lia.
Qed.

Lemma align_up_pad x k :
  0 <= k <= 32 -> 0 <= x -> x + pad_to x k < 2 ^ 32 -> align_up x (2 ^ k) = x + pad_to x k.
Proof.
  intros Hk Hx Hb0. assert (x + pad_to x k + 2 ^ k <= 2 ^ 32) as Hb.
  { pose proof (pad_to_mod x k ltac:(lia)) as Hm. apply Z.mod_divide in Hm; [|lia].
    assert (2 ^ k | 2 ^ 32) as H32 by (exists (2 ^ (32 - k)); rewrite <- Z.pow_add_r by lia; f_equal; lia).
    pose proof (Z.divide_pos_le (2 ^ k) (2 ^ 32 - (x + pad_to x k)) ltac:(lia) (Z.divide_sub_r _ _ _ H32 Hm)). lia. }
  revert Hb. clear Hb0. unfold pad_to. intros Hb. pose proof (Z.mod_pos_bound x (2 ^ k) ltac:(lia)).
  unfold align_up, pad_to, nz. rewrite land_mask by lia.
  destruct (Z.eqb_spec (x mod 2 ^ k) 0) as [E|E]; cbn [negb]; [lia|].
  rewrite u32_small, land_not32 by lia. replace (x + 2 ^ k) with (x + 1 * 2 ^ k) at 2 by lia.
  rewrite Z_mod_plus_full. lia.
Qed.

Lemma real_size_pad size k x :
  0 <= k <= 31 -> 0 <= size -> 2 * size + 2 ^ k < 2 ^ 32 ->
  real_size size (2 ^ k) x = if x mod 2 ^ k =? 0 then size else 2 * size + pad_to x k.
Proof.
  intros Hk Hs Hb. unfold real_size, pad_to, nz. rewrite land_mask by lia.
  pose proof (Z.mod_pos_bound x (2 ^ k) ltac:(lia)).
  destruct (Z.eqb_spec (x mod 2 ^ k) 0) as [E|E]; cbn [negb].
  - rewrite u32_small; lia.
  - rewrite (u32_small (size + (2 ^ k - x mod 2 ^ k))) by lia. rewrite u32_small; lia.
Qed.

Lemma mod4_pow2 x k : 2 <= k -> x mod 2 ^ k = 0 -> x mod 4 = 0.
Proof.
  intros Hk H. apply Z.mod_divide in H; [|lia]. apply Z.mod_divide; [lia|].
  apply Z.divide_trans with (2 ^ k); [|done]. exists (2 ^ (k - 2)). change 4 with (2 ^ 2). rewrite <- Z.pow_add_r by lia.
  f_equal. lia.
Qed.

Lemma pad_to_4 x k : 2 <= k -> x mod 4 = 0 -> pad_to x k mod 4 = 0.
Proof.
  intros Hk Hx. pose proof (mod4_pow2 _ k Hk (pad_to_mod x k ltac:(lia))) as H.
  rewrite Z.add_mod, Hx, Z.add_0_l, Z.mod_mod in H by lia. done.
Qed.

Lemma round_size_spec size :
  0 <= size <= 2 ^ 32 - 8 -> size <= round_size size < size + 5 /\ 4 <= round_size size /\ round_size size mod 4 = 0.
Proof.
  intros Hs. unfold round_size. set (s := if size =? 0 then 4 else size).
  assert (0 < s <= 2 ^ 32 - 8 /\ size <= s /\ (size = 0 /\ s = 4 \/ s = size)) as (Hs' & Hs2 & Hs3)
    by (unfold s; destruct (Z.eqb_spec size 0); lia).
  clearbody s. pose proof (land_mask s 2 ltac:(lia)) as L1. change (2 ^ 2) with 4 in L1. change (4 - 1) with 3 in L1. rewrite L1.
  unfold nz. destruct (Z.eqb_spec (s mod 4) 0) as [E|E]; cbn [negb]; [Z.to_euclidean_division_equations; lia|].
  pose proof (land_not32 (u32 (s + 4)) 2 ltac:(lia) (u32_range _)) as L2. change (2 ^ 2) with 4 in L2.
  change (4 - 1) with 3 in L2. rewrite L2, u32_small by lia. Z.to_euclidean_division_equations. lia.
Qed.

Lemma pointer_align_pow align :
  align = 0 \/ (exists j, 0 <= j <= 31 /\ align = 2 ^ j) ->
  exists k, 2 <= k <= 31 /\ pointer_align align = 2 ^ k.
Proof.
  unfold pointer_align. intros [->|(j & Hj & ->)]; [by exists 3|].
  destruct (Z.ltb_spec (2 ^ j) 4) as [H|H]; [by exists 3|]. exists j. split; [|done].
  destruct (decide (2 <= j)) as [|Hj2]; [lia|]. exfalso.
  pose proof (Z.pow_le_mono_r 2 j 1 ltac:(lia) ltac:(lia)). lia.
Qed.

(** ** Setting the pool up *)

Lemma kmeminit_ok h buffer len :
  0 < buffer -> buffer mod 4 = 0 -> 24 <= len -> buffer + len < 2 ^ 32 ->
  exists h', kmeminit buffer len h = Ok tt h' /\ base h' = buffer /\ plength h' = len /\
    kmem_init_done h' = kmem_init_done h /\
    pool_ok h' [mkBlk buffer (len - 24) None].
Proof.
  intros H1 H2 H3 H4. destruct (decide (buffer + 24 < 2 ^ 32)) as [Hlt|]; [|lia].
  assert (placed buffer) as Hp by done. unfold kmeminit.
  unfold sizeof_memnode. rewrite (u32_small (len - 24)), (u32_small len) by lia. rewrite memnode_data_placed by done.
  mstep (eq_refl (modify (fun h => h <| root := buffer |>) h)).
  repeat heap_step.
  eexists. split; [reflexivity|]. split; [done|]. split; [done|]. split; [done|].
  split; [done|exact H1|exact H4|done|]. split; [done|]. split.
  - split; cbn [b_addr b_len b_use]; [done|lia|..]; try done; cbn [set words wset]; word_simpl; try done; lia.
  - change (buffer + 24 + (len - 24) = buffer + len). lia.
Qed.

(** ** The search *)

(** A free block that is long enough. *)
Definition fits (size ptralign : Z) (b : blk_t) : bool :=
  b_free b && (real_size size ptralign (b_addr b + 24) <=? b_len b).

Lemma find_node_spec h size al l fuel a e d r :
  tiles (words h) a l e 0 -> (length l < fuel)%nat ->
  (exists l1 b l2, l = l1 ++ b :: l2 /\ forallb (fun c => negb (fits size al c)) l1 /\ fits size al b /\
     find_node fuel size al (next_addr l 0) d r h =
       Ok (b_addr b, b_addr b + 24, real_size size al (b_addr b + 24)) h) \/
  (forallb (fun c => negb (fits size al c)) l /\
   exists d' r', find_node fuel size al (next_addr l 0) d r h = Ok (0, d', r') h).
Proof.
  revert fuel a d r. induction l as [|b l IH]; intros fuel a d r Ht Hf; (destruct fuel as [|fuel]; [lia|]).
  { right. split; [done|]. by exists d, r. }
  destruct Ht as (<- & Hn & Ht). pose proof (no_placed _ _ _ Hn) as Hp. cbn [next_addr].
  assert (forall d' r', fits size al b = false ->
    find_node (S fuel) size al (b_addr b) d r h = find_node fuel size al (next_addr l 0) d' r' h ->
    (exists l1 b0 l2, b :: l = l1 ++ b0 :: l2 /\ forallb (fun c => negb (fits size al c)) l1 /\ fits size al b0 /\
      find_node (S fuel) size al (b_addr b) d r h = Ok (b_addr b0, b_addr b0 + 24, real_size size al (b_addr b0 + 24)) h) \/
    (forallb (fun c => negb (fits size al c)) (b :: l) /\
     exists d' r', find_node (S fuel) size al (b_addr b) d r h = Ok (0, d', r') h)) as Hskip.
  { intros d' r' Hno ->. cbn [length] in Hf. cbn [forallb]. rewrite Hno.
    destruct (IH fuel _ d' r' Ht ltac:(lia)) as [(l1 & b0 & l2 & -> & H1 & H2 & H3)|(H1 & H2)].
    - left. exists (b :: l1), b0, l2. cbn [forallb]. rewrite Hno. by split_and!.
    - right. by split. }
  cbn [find_node] in *. rewrite (proj2 (Z.eqb_neq (b_addr b) 0)) in * by (destruct Hp; lia).
  revert Hskip. mstep (ld_status _ h Hp). rewrite (no_status _ _ _ Hn). unfold b_status.
  assert (b_free b = true \/ b_free b = false) as [Efr|Efr] by (destruct (b_free b); tauto); rewrite Efr.
  - change (memnode_free =? memnode_alloc) with false. cbv zeta. cbn beta iota. rewrite memnode_data_placed by done. mstep (ld_length _ h Hp). rewrite (no_length _ _ _ Hn).
    destruct (Z.ltb_spec (b_len b) (real_size size al (b_addr b + 24))) as [Hlt|Hge].
    + mstep (ld_next _ h Hp). rewrite (no_next _ _ _ Hn). intros Hskip. eapply Hskip; [|reflexivity].
      unfold fits. rewrite (proj2 (Z.leb_gt _ _)) by done. by rewrite andb_false_r.
    + intros _. left. exists [], b, l. split_and!; try done. unfold fits. rewrite Efr, (proj2 (Z.leb_le _ _)) by done. done.
  - change (memnode_alloc =? memnode_alloc) with true. cbn beta iota.
    mstep (ld_next _ h Hp). rewrite (no_next _ _ _ Hn). intros Hskip. eapply Hskip; [|reflexivity].
    unfold fits. by rewrite Efr.
Qed.

(** ** Carving a block *)

(** The blocks that replace the free block [b]: data of [n] bytes at [p]. *)
Definition carved (b : blk_t) (p n real : Z) : list blk_t :=
  if b_len b - real <? MINBLKSIZE then [mkBlk (b_addr b) (b_len b) (Some (p, n))]
  else [mkBlk (b_addr b) (p + n - (b_addr b + 24)) (Some (p, n));
        mkBlk (p + n) (b_end b - (p + n + 24)) None].

Lemma carve_ok h b nx e p n real k :
  node_ok (words h) b nx -> b_end b <= e -> e < 2 ^ 32 ->
  2 <= k <= 31 -> 4 <= n -> n mod 4 = 0 ->
  p = b_addr b + 24 + pad_to (b_addr b + 24) k -> p - (b_addr b + 24) + n <= real -> real <= b_len b ->
  exists h', (st (f_data (b_addr b)) p ;;
    st (f_status (b_addr b)) memnode_alloc ;;
    st (u32 (p - 4)) (b_addr b) ;;
    len <- ld (f_length (b_addr b)) ;;
    if u32 (len - real) <? MINBLKSIZE then ld (f_data (b_addr b)) else
    let newm := align_up (u32 (p + n)) 4 in
    let blkend := u32 (memnode_data (b_addr b) + len) in
    nx <- ld (f_next (b_addr b)) ;;
    st (f_next newm) nx ;;
    st (f_length (b_addr b)) (u32 (newm - memnode_data (b_addr b))) ;;
    st (f_next (b_addr b)) newm ;;
    st (f_status (b_addr b)) memnode_alloc ;;
    st (f_seal newm) MEMNODE_SEAL ;;
    st (f_data newm) (memnode_data newm) ;;
    st (f_length newm) (u32 (blkend - memnode_data newm)) ;;
    st (f_status newm) memnode_free ;;
    ld (f_data (b_addr b))) h = Ok p h' /\
  root h' = root h /\ base h' = base h /\ plength h' = plength h /\
  (forall z, z < b_addr b \/ b_end b <= z -> word (words h') z = word (words h) z) /\
  tiles (words h') (b_addr b) (carved b p n real) (b_end b) nx.
Proof.
  intros Hn He He32 Hk Hn4 Hn0 Hp Hreal Hlen. pose proof (no_placed _ _ _ Hn) as Hpl. pose proof Hpl as (Ha0 & Ha4 & Ha24).
  set (a := b_addr b) in *. unfold b_end in *. fold a. fold a in He.
  pose proof (pad_to_range (a + 24) k ltac:(lia)) as Hpr.
  assert ((a + 24) mod 4 = 0) as Hd4 by (by apply (mod4_add a 6)).
  pose proof (pad_to_4 (a + 24) k ltac:(lia) Hd4) as Hp4.
  assert (p mod 4 = 0) as Hpm by (subst p; rewrite Z.add_mod, Hd4, Hp4 by lia; done).
  assert (p = a + 24 \/ a + 28 <= p) as Hback
    by (subst p; clear -Hp4 Hpr; Z.to_euclidean_division_equations; lia).
  clear Hp Hp4 Hpr. heap_step. heap_step. rewrite (u32_small (p - 4)) by lia.
  assert ((p - 4) mod 4 = 0) as Hp4 by (apply (mod4_add p (-1)); done).
  mstep (st_ok (p - 4) a (wset h (<[a + 12 := memnode_alloc]> (<[a + 16 := p]> (words h)))) ltac:(lia) Hp4).
  rewrite words_wset, wset_wset. heap_step. word_simpl.
  pose proof (no_length _ _ _ Hn) as HL. fold a in HL. rewrite HL.
  set (w1 := <[p - 4 := a]> _).
  assert (forall z, z < a \/ a + 24 + b_len b <= z -> word w1 z = word (words h) z) as Hw1
    by (intros z Hz; unfold w1; word_simpl; done).
  unfold carved. rewrite (u32_small (b_len b - real)) by lia.
  destruct (Z.ltb_spec (b_len b - real) MINBLKSIZE) as [Hsmall|Hbig].
  - rewrite ld_data by done. rewrite words_wset. unfold w1 at 1. word_simpl. eexists. split; [reflexivity|].
    split_and!; [done..|exact Hw1|]. split; [done|]. split; [|done].
    destruct Hn as [_ N1 N2 N3 N4 N5 N6 N7]. split; cbn [b_addr b_len b_use]; fold a in N1, N2, N3, N4, N5, N6 |- *;
      rewrite ?words_wset; unfold w1; word_simpl; try done; [lia|].
    unfold b_end. cbn [b_addr b_len]. fold a. split_and!; lia || done.
  - unfold MINBLKSIZE in Hbig. cbv zeta. rewrite (u32_small (p + n)) by lia.
    assert ((p + n) mod 4 = 0) as Hq4 by (rewrite Z.add_mod, Hpm, Hn0 by lia; done).
    assert (align_up (p + n) 4 = p + n) as ->
      by (unfold align_up; change (4 - 1) with (2 ^ 2 - 1); rewrite (land_mask (p + n) 2) by lia; change (2 ^ 2) with 4; by rewrite Hq4).
    set (q := p + n) in *. assert (placed q) as Hq by (unfold placed; lia).
    rewrite (memnode_data_placed a), (memnode_data_placed q) by done.
    rewrite (u32_small (a + 24 + b_len b)), (u32_small (q - (a + 24))), (u32_small (a + 24 + b_len b - (q + 24))) by lia.
    do 9 heap_step. rewrite ld_data by done. rewrite words_wset.
    assert (word w1 (a + 4) = nx) as -> by (unfold w1; word_simpl; exact (no_next _ _ _ Hn)).
    match goal with |- context [wset h ?w] => set (w2 := w) end.
    assert (word w2 (a + 16) = p) as -> by (unfold w2, w1; word_simpl; done).
    eexists. split; [reflexivity|].
    split_and!; [done..| |].
    + intros z Hz. rewrite words_wset. rewrite <- (Hw1 z) by done. unfold w2. word_simpl. done.
    + pose proof (no_seal _ _ _ Hn) as Hs. fold a in Hs. rewrite words_wset. split; [done|]. split; [|split; [unfold b_end; cbn [b_addr b_len]; lia|split]].
      * split; cbn [b_addr b_len b_use next_addr]; fold a; [done|lia|..]; unfold w2, w1; word_simpl; try done; [lia|].
        unfold b_end. cbn [b_addr b_len]. split_and!; lia || done.
      * split; unfold b_end; cbn [b_addr b_len b_use next_addr]; fold a; [done|lia|..]; unfold w2, w1; word_simpl; done || lia.
      * cbn [tiles]. unfold b_end. cbn [b_addr b_len]. fold a. lia.
Qed.

Lemma tiles_count w a l e nx : tiles w a l e nx -> 24 * Z.of_nat (length l) <= e - a.
Proof.
  revert a. induction l as [|b l IH]; intros a; cbn; [lia|]. intros (<- & Hn & Ht).
  apply IH in Ht. pose proof (no_len _ _ _ Hn). unfold b_end in Ht. lia.
Qed.

(** Enough fuel to walk along the node list. *)
Definition fuel_ok (h : kheap) (fuel : nat) : Prop := plength h < 24 * Z.of_nat fuel.
Lemma fuel_ok_length h l fuel : pool_ok h l -> fuel_ok h fuel -> (length l < fuel)%nat.
Proof. intros [_ _ _ _ H] Hf. apply tiles_count in H. unfold fuel_ok in Hf. lia. Qed.

(** What [kmalloc] can be asked for: the alignment is zero or a power of two,
    and twice the size does not wrap. *)
Definition request_ok (size align : Z) : Prop :=
  (align = 0 \/ exists j, 0 <= j <= 31 /\ align = 2 ^ j) /\
  0 <= size /\ 2 * size + pointer_align align <= 2 ^ 32 - 16.

(** [kmalloc] takes the first block that fits and carves it. *)
Lemma kmalloc_cases h l fuel size align :
  pool_ok h l -> fuel_ok h fuel -> request_ok size align ->
  let n := round_size size in let al := pointer_align align in
  (forallb (fun c => negb (fits n al c)) l /\ kmalloc fuel size align h = Ok 0 h) \/
  (exists l1 b l2 p h', l = l1 ++ b :: l2 /\ b_use b = None /\
     forallb (fun c => negb (fits n al c)) l1 /\
     kmalloc fuel size align h = Ok p h' /\ p mod al = 0 /\ p <> 0 /\
     base h' = base h /\ plength h' = plength h /\
     pool_ok h' (l1 ++ carved b p n (real_size n al (b_addr b + 24)) ++ l2) /\
     b_addr b + 24 <= p /\ p + n <= b_end b /\
     (forall z, z < b_addr b \/ b_end b <= z -> word (words h') z = word (words h) z)).
Proof.
  intros Hok Hf (Hal & Hs0 & Hs2) n al. pose proof (fuel_ok_length _ _ _ Hok Hf) as Hlen.
  destruct Hok as [H1 H2 H3 H4 H5]. destruct (pointer_align_pow align Hal) as (k & Hk & Ek). fold al in Ek.
  pose proof (Z.pow_le_mono_r 2 2 k ltac:(lia) ltac:(lia)) as Hk4. change (2 ^ 2) with 4 in Hk4.
  fold al in Hs2. destruct (round_size_spec size ltac:(lia)) as (Hn1 & Hn2 & Hn3). fold n in Hn1, Hn2, Hn3.
  unfold kmalloc. fold al. fold n. cbv zeta. mstep (eq_refl (gets root h)).
  pose proof (tiles_next _ _ _ _ _ H5 H4) as Hroot. rewrite H1, <- Hroot.
  destruct (find_node_spec h n al l fuel _ _ 0 0 H5 Hlen) as [(l1 & b & l2 & -> & Hl1 & Hfit & E)|(Hno & d & r & E)].
  2: { left. split; [done|]. mstep E. done. }
  right. mstep E. destruct (tiles_mid _ _ _ _ _ _ _ H5) as (Hn & Hb1 & Hb2).
  pose proof (no_placed _ _ _ Hn) as (Hp0 & Hp4 & Hp24).
  rewrite (proj2 (Z.eqb_neq (b_addr b) 0)) by lia.
  apply andb_prop_elim in Hfit as [Hfree Hfit]. apply Is_true_true, Z.leb_le in Hfit.
  set (real := real_size n al (b_addr b + 24)) in *.
  assert (pad_to (b_addr b + 24) k + n <= real) as Hreal.
  { unfold real. rewrite Ek, real_size_pad by lia. pose proof (pad_to_range (b_addr b + 24) k ltac:(lia)).
    unfold pad_to in *. destruct (Z.eqb_spec ((b_addr b + 24) mod 2 ^ k) 0); lia. }
  set (p := b_addr b + 24 + pad_to (b_addr b + 24) k). unfold b_end in Hb2.
  pose proof (pad_to_range (b_addr b + 24) k ltac:(lia)) as Hpr.
  assert (align_up (b_addr b + 24) al = p) as -> by (rewrite Ek; apply align_up_pad; lia).
  destruct (carve_ok h b _ _ p n real k Hn Hb2 H3 Hk Hn2 Hn3 eq_refl ltac:(lia) Hfit)
    as (h' & Erun & R1 & R2 & R3 & Hw & Ht).
  exists l1, b, l2, p, h'. assert (b_use b = None) as Hu by (unfold b_free in Hfree; by destruct (b_use b)).
  split_and!; try done; try (unfold b_end; lia).
  - rewrite Ek. apply pad_to_mod. lia.
  - split; rewrite ?R1, ?R2, ?R3; [done..| |].
    + unfold carved. destruct (_ <? _); by destruct l1.
    + apply (tiles_replace (words h) _ _ l1 [b] _ l2 _ _ (b_addr b) (b_end b)); try done.
      unfold carved. by destruct (_ <? _).
Qed.

Lemma allocs_carved b p n real : allocs (carved b p n real) = [(p, n)].
Proof. unfold carved. by destruct (_ <? _). Qed.

(** Where the data handed out lie. *)
Lemma alloc_place h l p n : pool_ok h l -> (p, n) ∈ allocs l ->
  p mod 4 = 0 /\ base h + 24 <= p /\ 0 < n /\ p + n <= base h + plength h.
Proof.
  intros [_ _ _ _ Ht] Hin. apply allocs_in in Hin as (l1 & b & l2 & -> & E).
  destruct (tiles_mid _ _ _ _ _ _ _ Ht) as (Hn & H1 & H2). destruct (use_inside _ _ _ _ _ Hn E) as (? & ? & ? & ? & ?).
  split_and!; lia.
Qed.

(** C26: [kmalloc] hands out fresh memory.  For a request [request_ok] allows
    (an alignment that is zero or a power of two, and a size that is not
    negative with twice the size plus the alignment at most 2^32 - 16; for
    sizes that wrap it does not hold, see [kmalloc_size_wraps]) it returns
    null, and changes
    nothing, only if no free block is long enough; otherwise the pointer is
    aligned as asked, its [n >= size] bytes lie inside the pool and overlap none
    of the blocks handed out before, whose contents stay, and the pool's
    invariant holds with the new block added. *)
Theorem kmalloc_fresh h l fuel size align :
  pool_ok h l -> fuel_ok h fuel -> request_ok size align ->
  exists p h', kmalloc fuel size align h = Ok p h' /\
  (p = 0 -> h' = h /\ forall b, b ∈ l -> b_use b = None ->
     b_len b < real_size (round_size size) (pointer_align align) (b_addr b + 24)) /\
  (p <> 0 -> exists n l', size <= n /\ pool_ok h' l' /\ p mod pointer_align align = 0 /\
     base h' = base h /\ plength h' = plength h /\
     base h <= p /\ p + n <= base h + plength h /\
     allocs l' ≡ₚ (p, n) :: allocs l /\
     forall q m, (q, m) ∈ allocs l ->
       (q + m <= p \/ p + n <= q) /\ forall x, q <= x < q + m -> word (words h') x = word (words h) x).
Proof.
  intros Hok Hf Hreq. pose proof Hreq as (_ & Hs & Hs2).
  destruct (kmalloc_cases h l fuel size align Hok Hf Hreq)
    as [[Hno E]|(l1 & b & l2 & p & h' & -> & Hu & _ & E & Hal & Hp0 & Eb & El & Hok' & Hpb & Hpe & Hw)].
  - exists 0, h. split; [done|]. split; [|done]. intros _. split; [done|]. intros b Hb Hu.
    apply forallb_True, Forall_forall with (x := b) in Hno; [|done]. apply negb_prop_elim in Hno.
    destruct (Z.lt_ge_cases (b_len b) (real_size (round_size size) (pointer_align align) (b_addr b + 24))) as [|Hge]; [done|].
    exfalso. apply Hno. unfold fits, b_free. rewrite Hu. by apply Is_true_true, Z.leb_le.
  - exists p, h'. split; [done|]. split; [done|]. intros _.
    assert (0 < pointer_align align) as Hpa.
    { unfold pointer_align. destruct (Z.ltb_spec align 4); lia. }
    eexists (round_size size), _. destruct (round_size_spec size ltac:(lia)) as (Hn1 & Hn2 & _).
    split; [lia|]. split; [exact Hok'|]. split; [done|]. split; [done|]. split; [done|].
    destruct Hok as [_ _ _ _ Ht]. destruct (tiles_mid _ _ _ _ _ _ _ Ht) as (_ & Hb1 & Hb2).
    split; [lia|]. split; [lia|]. split.
    + rewrite allocs_mid_free, !allocs_app, allocs_carved by done. symmetry. apply Permutation_middle.
    + intros q m Hin'. rewrite allocs_mid_free in Hin' by done.
      apply list_elem_of_omap in Hin' as (c & Hc & Ec).
      pose proof (tiles_disjoint _ _ _ _ _ _ _ c Ht Hc) as Hdis.
      assert (c ∈ l1 ++ b :: l2) as Hc' by (clear -Hc; set_solver).
      apply list_elem_of_split in Hc' as (k1 & k2 & Ek). rewrite Ek in Ht.
      destruct (tiles_mid _ _ _ _ _ _ _ Ht) as (Hnc & _ & _).
      destruct (use_inside _ _ _ _ _ Hnc Ec) as (_ & Hq1 & _ & Hq2 & _). split; [lia|].
      intros x Hx. apply Hw. lia.
Qed.

(** ** Compaction *)

Definition merge (b1 b2 : blk_t) : blk_t := mkBlk (b_addr b1) (b_len b1 + (24 + b_len b2)) None.

(** One pass over the blocks. *)
Fixpoint pass (l : list blk_t) : list blk_t :=
  match l with
  | b1 :: t =>
      match t with
      | b2 :: r => if b_free b1 && b_free b2 then merge b1 b2 :: pass r else b1 :: pass t
      | [] => l
      end
  | [] => l
  end.

(** Two steps at a time. *)
Lemma pair_ind (P : list blk_t -> Prop) :
  P [] -> (forall b, P [b]) -> (forall b1 b2 r, P r -> P (b2 :: r) -> P (b1 :: b2 :: r)) -> forall l, P l.
Proof.
  intros H0 H1 H2 l. enough (P l /\ forall b, P (b :: l)) by tauto.
  induction l as [|b l [IH1 IH2]]; [by split|]. split; [done|]. intros b'. by apply H2.
Qed.

Lemma pass_cons b1 b2 r :
  pass (b1 :: b2 :: r) = if b_free b1 && b_free b2 then merge b1 b2 :: pass r else b1 :: pass (b2 :: r).
Proof. done. Qed.

Lemma pass_next l nx : next_addr (pass l) nx = next_addr l nx.
Proof. destruct l as [|b1 [|b2 r]]; [done..|]. rewrite pass_cons. by destruct (_ && _). Qed.

Lemma pass_allocs l : allocs (pass l) = allocs l.
Proof.
  induction l as [|b|b1 b2 r IH1 IH2] using pair_ind; [done..|]. rewrite pass_cons.
  destruct (b_free b1) eqn:E1, (b_free b2) eqn:E2; cbn [andb];
    unfold b_free in E1, E2; unfold allocs in *; cbn [omap list_omap merge b_use] in *;
    destruct (b_use b1) eqn:U1, (b_use b2) eqn:U2; cbn in *; congruence.
Qed.

Lemma pass_length l : (length (pass l) <= length l)%nat.
Proof.
  induction l as [|b|b1 b2 r IH1 IH2] using pair_ind; [done..|]. rewrite pass_cons.
  destruct (_ && _); cbn [length] in *; lia.
Qed.

Lemma pass_some l : l <> [] -> pass l <> [].
Proof. destruct l as [|b1 [|b2 r]]; [done..|]. rewrite pass_cons. by destruct (_ && _). Qed.

(** No two neighbours are free. *)
Definition coalesced (l : list blk_t) : Prop :=
  forall l1 b1 b2 l2, l = l1 ++ b1 :: b2 :: l2 -> b_use b1 = None -> b_use b2 = None -> False.

Lemma coalesced_single b : coalesced [b].
Proof. intros [|? [|? ?]] ? ? ? E; by simplify_eq. Qed.

Lemma pass_fixpoint l : length (pass l) = length l -> pass l = l /\ coalesced l.
Proof.
  induction l as [|b|b1 b2 r IH1 IH2] using pair_ind; [|by (split; [|apply coalesced_single])|].
  { split; [done|]. by intros [|? ?] ? ? ? E. }
  rewrite pass_cons. destruct (b_free b1 && b_free b2) eqn:E; cbn [length] in *.
  - pose proof (pass_length r). lia.
  - intros Hl. destruct IH2 as [E2 H2]; [cbn [length]; lia|]. split; [by rewrite E2|].
    intros [|c l1] d1 d2 l2 El U1 U2; simplify_eq/=; [|by eapply H2].
    unfold b_free in E. by rewrite U1, U2 in E.
Qed.

Lemma status_free b : (b_status b =? memnode_free) = b_free b.
Proof. unfold b_status. by destruct (b_free b). Qed.

(** The test of two neighbours. *)
Lemma both_free h b1 b2 nx :
  node_ok (words h) b1 (b_addr b2) -> node_ok (words h) b2 nx ->
  (if b_addr b2 =? 0 then ret false else
   s <- ld (f_status (b_addr b1)) ;;
   if negb (s =? memnode_free) then ret false else
   s' <- ld (f_status (b_addr b2)) ;; ret (s' =? memnode_free)) h = Ok (b_free b1 && b_free b2) h.
Proof.
  intros H1 H2. pose proof (no_placed _ _ _ H1) as P1. pose proof (no_placed _ _ _ H2) as P2.
  rewrite (proj2 (Z.eqb_neq (b_addr b2) 0)) by (destruct P2; lia).
  heap_step. rewrite (no_status _ _ _ H1), status_free. destruct (b_free b1); cbn [negb andb]; [|done].
  heap_step. rewrite (no_status _ _ _ H2), status_free. done.
Qed.

Definition used_same (l : list blk_t) (w w' : gmap Z Z) : Prop :=
  forall b, b ∈ l -> b_use b <> None -> forall x, b_addr b <= x < b_end b -> word w' x = word w x.

Lemma compact_pass_spec l : forall h fuel a e c,
  tiles (words h) a l e 0 -> e < 2 ^ 32 -> (length l < fuel)%nat ->
  exists w', compact_pass fuel (next_addr l 0) c h =
      Ok (Some (c + Z.of_nat (length l - length (pass l)))) (wset h w') /\
    tiles w' a (pass l) e 0 /\ (forall x, x < a \/ e <= x -> word w' x = word (words h) x) /\
    used_same l (words h) w'.
Proof.
  induction l as [|b|b1 b2 r IH1 IH2] using pair_ind; intros h fuel a e c Ht He Hf.
  - destruct fuel as [|fuel]; [cbn in Hf; lia|]. exists (words h).
    replace (wset h (words h)) with h by (by destruct h). split_and!; try done. cbn. by rewrite Z.add_0_r.
  - destruct fuel as [|[|fuel]]; [cbn in Hf; lia..|]. exists (words h).
    replace (wset h (words h)) with h by (by destruct h). split_and!; try done.
    destruct Ht as (<- & Hn & _). pose proof (no_placed _ _ _ Hn) as P. cbn [compact_pass next_addr].
    rewrite (proj2 (Z.eqb_neq (b_addr b) 0)) by (destruct P; lia).
    heap_step. rewrite (no_seal _ _ _ Hn). cbn [Z.eqb negb MEMNODE_SEAL Pos.eqb]. heap_step. rewrite (no_next _ _ _ Hn).
    cbn. by rewrite Z.add_0_r.
  - destruct fuel as [|fuel]; [cbn in Hf; lia|]. cbn [length] in Hf.
    destruct Ht as (<- & Hn1 & Ht). pose proof Ht as (E2 & Hn2 & Hr). cbn [next_addr] in Hn1.
    pose proof (no_placed _ _ _ Hn1) as P1. pose proof (no_placed _ _ _ Hn2) as P2.
    pose proof (no_len _ _ _ Hn1). pose proof (no_len _ _ _ Hn2). pose proof (tiles_le _ _ _ _ _ Hr) as Hle.
    change (next_addr (b1 :: b2 :: r) 0) with (b_addr b1). cbn [compact_pass].
    rewrite (proj2 (Z.eqb_neq (b_addr b1) 0)) by (destruct P1; lia).
    heap_step. rewrite (no_seal _ _ _ Hn1). change (MEMNODE_SEAL =? MEMNODE_SEAL) with true. cbn [negb]. cbn iota.
    heap_step. rewrite (no_next _ _ _ Hn1). mstep (both_free _ _ _ _ Hn1 Hn2). rewrite pass_cons.
    destruct (b_free b1 && b_free b2) eqn:Efree.
    + apply andb_true_iff in Efree as [F1 F2]. unfold b_end in *.
      do 4 heap_step. heap_step. unfold sizeof_memnode.
      word_simpl. rewrite (no_length _ _ _ Hn1), (no_length _ _ _ Hn2), (no_next _ _ _ Hn2).
      rewrite u32_small by (destruct P1; lia). heap_step.
      match goal with |- context [wset h ?w] => set (w1 := w) end.
      assert (forall x, x < b_addr b1 \/ b_addr b2 + 24 + b_len b2 <= x -> word w1 x = word (words h) x) as Hw1
        by (intros x Hx; unfold w1; word_simpl; done).
      destruct (IH1 (wset h w1) fuel (b_end b2) e (c + 1)) as (w' & E & Ht' & Hw' & Hu); [|done|lia|].
      { rewrite words_wset. apply (tiles_ext (words h)); [|exact Hr]. intros x Hx. apply Hw1. unfold b_end in Hx. lia. }
      exists w'. rewrite E, wset_wset. unfold b_end in *. rewrite words_wset in *. split_and!.
      * pose proof (pass_length r). cbn [length]. replace (c + 1 + Z.of_nat (length r - length (pass r)))
          with (c + Z.of_nat (S (S (length r)) - S (length (pass r)))) by lia. done.
      * split; [done|]. rewrite pass_next. split; [|].
        -- assert (forall x, x < b_addr b2 + 24 + b_len b2 -> word w' x = word w1 x) as Hw2 by (intros; apply Hw'; lia).
           split; cbn [merge b_addr b_len b_use]; [done|lia|..]; rewrite ?Hw2 by lia; unfold w1; word_simpl; try done;
             [exact (no_seal _ _ _ Hn1)|rewrite (no_status _ _ _ Hn1); unfold b_status; by rewrite F1|exact (no_data _ _ _ Hn1)].
        -- unfold b_end. cbn [merge b_addr b_len].
           replace (b_addr b1 + 24 + (b_len b1 + (24 + b_len b2))) with (b_addr b2 + 24 + b_len b2) by lia. done.
      * intros x Hx. rewrite Hw' by lia. apply Hw1. lia.
      * intros b Hb Hbu x Hx. apply elem_of_cons in Hb as [->|Hb]; [unfold b_free in F1; by destruct (b_use b1)|].
        apply elem_of_cons in Hb as [->|Hb]; [unfold b_free in F2; by destruct (b_use b2)|].
        rewrite (Hu b Hb Hbu x Hx). apply Hw1. right. apply list_elem_of_split in Hb as (k1 & k2 & ->).
        destruct (tiles_mid _ _ _ _ _ _ _ Hr) as (_ & ? & _). lia.
    + destruct (IH2 h fuel (b_end b1) e c Ht He ltac:(cbn [length]; lia)) as (w' & E & Ht' & Hw' & Hu).
      exists w'. change (next_addr (b2 :: r) 0) with (b_addr b2) in E. rewrite E. split_and!.
      * do 4 f_equal.
      * split; [done|]. split; [|done]. rewrite pass_next. cbn [next_addr].
        apply (node_ok_ext (words h)); [intros; apply Hw'; unfold b_end; lia| |done].
        intros p n Eu. destruct (use_inside _ _ _ _ _ Hn1 Eu) as (? & ? & ? & ? & ?). apply Hw'. lia.
      * intros x Hx. apply Hw'. unfold b_end. lia.
      * intros b Hb Hbu x Hx. apply elem_of_cons in Hb as [->|Hb]; [apply Hw'; lia|]. by apply (Hu b).
Qed.

Lemma pass_used l b : b ∈ l -> b_use b <> None -> b ∈ pass l.
Proof.
  induction l as [|b'|b1 b2 r IH1 IH2] using pair_ind; [done..|]. intros Hb Hu. rewrite pass_cons.
  destruct (b_free b1 && b_free b2) eqn:E.
  - apply andb_true_iff in E as [F1 F2]. unfold b_free in F1, F2.
    apply elem_of_cons in Hb as [->|Hb]; [by destruct (b_use b1)|].
    apply elem_of_cons in Hb as [->|Hb]; [by destruct (b_use b2)|]. apply elem_of_cons. right. by apply IH1.
  - apply elem_of_cons in Hb as [->|Hb]; apply elem_of_cons; [by left|right]. by apply IH2.
Qed.

Lemma compact_loop_spec passes : forall h l fuel,
  pool_ok h l -> (length l < fuel)%nat -> (length l < passes)%nat ->
  exists w' l', compact_loop fuel passes h = Ok tt (wset h w') /\ pool_ok (wset h w') l' /\
    coalesced l' /\ allocs l' = allocs l /\ used_same l (words h) w'.
Proof.
  induction passes as [|passes IH]; intros h l fuel Hok Hf Hp; [lia|]. pose proof Hok as [H1 H2 H3 H4 H5].
  cbn [compact_loop]. mstep (eq_refl (gets root h)).
  destruct (compact_pass_spec l h fuel _ _ 0 H5 H3 Hf) as (w' & E & Ht & _ & Hu).
  rewrite (tiles_next _ _ _ _ _ H5 H4) in E. rewrite H1. mstep E.
  assert (pool_ok (wset h w') (pass l)) as Hok' by (split; try done; by apply pass_some).
  pose proof (pass_length l) as Hlen.
  destruct (Z.ltb_spec 0 (0 + Z.of_nat (length l - length (pass l)))) as [Hlt|Hge].
  - destruct (IH (wset h w') (pass l) fuel Hok' ltac:(lia) ltac:(lia)) as (w2 & l2 & E2 & Hok2 & Hco & Hal & Hu2).
    rewrite wset_wset in *. exists w2, l2. split_and!; [done..|by rewrite Hal, pass_allocs|].
    intros b Hb Hbu x Hx. rewrite (Hu2 b (pass_used _ _ Hb Hbu) Hbu x Hx). by apply (Hu b).
  - destruct (pass_fixpoint l ltac:(lia)) as [Efix Hco]. exists w', l. rewrite Efix in Hok'. by split_and!.
Qed.

(** ** Freeing *)

Lemma pool_coalesced_empty h l : pool_ok h l -> coalesced l -> allocs l = [] ->
  l = [mkBlk (base h) (plength h - 24) None].
Proof.
  intros [_ _ _ Hne Ht] Hco Hal. destruct l as [|b1 [|b2 l]]; [done| |].
  - destruct Ht as (E & Hn & Et). cbn in Et. destruct b1 as [a len u]. unfold b_end in Et. cbn [b_addr b_len] in *.
    unfold allocs in Hal. cbn in Hal. destruct u; [done|]. subst a. do 2 f_equal. lia.
  - exfalso. unfold allocs in Hal. cbn in Hal. destruct (b_use b1) eqn:U1; [done|]. destruct (b_use b2) eqn:U2; [done|].
    by apply (Hco [] b1 b2 l).
Qed.

Lemma kfree_cases h l1 b l2 p n fuel :
  pool_ok h (l1 ++ b :: l2) -> b_use b = Some (p, n) -> fuel_ok h fuel ->
  exists w' l', kfree fuel p h = Ok tt (wset h w') /\ pool_ok (wset h w') l' /\ coalesced l' /\
    allocs l' = allocs l1 ++ allocs l2 /\ used_same (l1 ++ l2) (words h) w'.
Proof.
  intros Hok Hu Hf. pose proof Hok as [H1 H2 H3 H4 H5].
  destruct (tiles_mid _ _ _ _ _ _ _ H5) as (Hn & Hb1 & Hb2). pose proof (no_placed _ _ _ Hn) as Hp.
  destruct (use_inside _ _ _ _ _ Hn Hu) as (U1 & U2 & U3 & U4 & U5). pose proof Hp as (P1 & P2 & P3).
  unfold kfree. mstep (eq_refl (get h)).
  rewrite (u32_small (base h + plength h)) by lia.
  rewrite (proj2 (Z.ltb_ge p (base h))), (proj2 (Z.leb_gt (base h + plength h) p)) by lia. cbn [orb].
  rewrite u32_small by lia. mstep (ld_ok (p - 4) h ltac:(lia) (mod4_add p (-1) U1)). rewrite U5.
  heap_step. rewrite (no_seal _ _ _ Hn). change (MEMNODE_SEAL =? MEMNODE_SEAL) with true. cbn [negb]. cbn iota.
  heap_step. set (w1 := <[b_addr b + 12 := memnode_free]> (words h)).
  set (b' := mkBlk (b_addr b) (b_len b) None).
  assert (forall x, x <> b_addr b + 12 -> word w1 x = word (words h) x) as Hw1 by (intros; unfold w1; by word_simpl).
  pose proof (no_len _ _ _ Hn) as Hlen. assert (pool_ok (wset h w1) (l1 ++ b' :: l2)) as Hok1.
  { split; try done; [by destruct l1|].
    apply (tiles_replace (words h) _ _ l1 [b] [b'] l2 _ _ (b_addr b) (b_end b)); [done|done|done|by split_and!| |].
    - intros z Hz. apply Hw1. unfold b_end in Hz. lia.
    - split; [done|]. split; [|done]. destruct Hn as [_ _ N2 N3 N4 N5 N6 _].
      split; cbn [b' b_addr b_len b_use next_addr]; rewrite ?words_wset, ?Hw1 by lia; try done.
      unfold w1. by word_simpl. }
  pose proof (fuel_ok_length (wset h w1) _ _ Hok1 Hf) as Hfl.
  destruct (compact_loop_spec fuel (wset h w1) _ fuel Hok1 Hfl Hfl) as (w' & l' & E & Hok' & Hco & Hal & Hus).
  rewrite wset_wset in *. exists w', l'. split_and!; [exact E|done|done|by rewrite Hal, allocs_app|].
  intros c Hc Hcu x Hx. rewrite (Hus c) by (done || (clear -Hc; set_solver)). apply Hw1.
  pose proof (tiles_disjoint _ _ _ _ _ _ _ c H5 Hc) as Hd. unfold b_end in *. lia.
Qed.

(** C27: [kfree] takes back exactly what it is given.  Freeing a pointer that
    was handed out returns, keeps the pool's invariant and the contents of all
    other blocks handed out, leaves no two free blocks next to each other, and,
    once everything has been given back, the pool is one free block again. *)
Theorem kfree_returns h l fuel p n :
  pool_ok h l -> fuel_ok h fuel -> (p, n) ∈ allocs l ->
  exists h' l', kfree fuel p h = Ok tt h' /\ pool_ok h' l' /\ coalesced l' /\
    base h' = base h /\ plength h' = plength h /\
    allocs l ≡ₚ (p, n) :: allocs l' /\
    (forall q m, (q, m) ∈ allocs l' -> forall x, q <= x < q + m -> word (words h') x = word (words h) x) /\
    (allocs l' = [] -> l' = [mkBlk (base h) (plength h - 24) None]).
Proof.
  intros Hok Hf Hin. apply allocs_in in Hin as (l1 & b & l2 & -> & Hu).
  destruct (kfree_cases h l1 b l2 p n fuel Hok Hu Hf) as (w' & l' & E & Hok' & Hco & Hal & Hus).
  exists (wset h w'), l'. split_and!; [done..| | |].
  - rewrite Hal, <- allocs_app. by apply allocs_mid.
  - intros q m Hq x Hx. rewrite Hal, <- allocs_app in Hq. apply list_elem_of_omap in Hq as (c & Hc & Ec).
    assert (c ∈ l1 ++ b :: l2) as Hc' by (clear -Hc; set_solver).
    apply list_elem_of_split in Hc' as (k1 & k2 & Ek). destruct Hok as [_ _ _ _ Ht]. rewrite Ek in Ht.
    destruct (tiles_mid _ _ _ _ _ _ _ Ht) as (Hnc & _ & _). destruct (use_inside _ _ _ _ _ Hnc Ec) as (_ & ? & _ & ? & _).
    apply (Hus c Hc); [by rewrite Ec|lia].
  - by apply (pool_coalesced_empty _ _ Hok').
Qed.

(** ** Histories of a pool *)

(** No two of a list of regions overlap. *)
Definition apart (x y : Z * Z) : Prop := x.1 + x.2 <= y.1 \/ y.1 + y.2 <= x.1.
Fixpoint pairwise_apart (l : list (Z * Z)) : Prop :=
  match l with [] => True | x :: l => Forall (apart x) l /\ pairwise_apart l end.

#[global] Instance pairwise_apart_perm : Proper ((≡ₚ) ==> iff) pairwise_apart.
Proof.
  assert (forall l k, l ≡ₚ k -> pairwise_apart l -> pairwise_apart k) as H.
  { induction 1 as [|x l k Hp IH|x y l|l k m Hp1 IH1 Hp2 IH2]; cbn; [done| | |tauto].
    - intros [H1 H2]. split; [by rewrite <- Hp|tauto].
    - intros (H1 & H2 & H3). inversion H1; subst. split; [|done]. constructor; [|done]. unfold apart in *. tauto. }
  intros l k Hp. split; apply H; [done|by symmetry].
Qed.

Lemma tiles_apart w a l e nx :
  tiles w a l e nx -> pairwise_apart (allocs l) /\ Forall (fun x => a <= x.1 /\ x.1 + x.2 <= e) (allocs l).
Proof.
  revert a. induction l as [|b l IH]; intros a; [done|]. intros (<- & Hn & Ht).
  pose proof (tiles_le _ _ _ _ _ Ht) as Hle. destruct (IH _ Ht) as [H1 H2]. pose proof (no_len _ _ _ Hn).
  assert (Forall (fun x => b_addr b <= x.1 /\ x.1 + x.2 <= e) (allocs l)) as H3
    by (eapply Forall_impl; [exact H2|]; unfold b_end; cbn; lia).
  unfold allocs. cbn [omap list_omap]. destruct (b_use b) as [[p n]|] eqn:E; [|done]. fold (allocs l).
  destruct (use_inside _ _ _ _ _ Hn E) as (_ & ? & ? & ? & _). cbn. split; [split; [|done]|].
  - eapply Forall_impl; [exact H2|]. unfold apart. cbn. lia.
  - constructor; [cbn; lia|done].
Qed.

(** The memory a client owns: what it asked for, at the pointers it got. *)
Definition owned : Type := list (Z * Z).

Inductive pool_step (fuel : nat) : kheap * owned -> kheap * owned -> Prop :=
  | step_malloc h o size align p h' :
      request_ok size align -> kmalloc fuel size align h = Ok p h' -> p <> 0 ->
      pool_step fuel (h, o) (h', (p, size) :: o)
  | step_malloc_null h o size align h' :
      request_ok size align -> kmalloc fuel size align h = Ok 0 h' ->
      pool_step fuel (h, o) (h', o)
  | step_free h o1 p size o2 h' :
      kfree fuel p h = Ok tt h' ->
      pool_step fuel (h, o1 ++ (p, size) :: o2) (h', o1 ++ o2)
  | step_store h o p size x v :
      (p, size) ∈ o -> p <= x < p + size ->
      pool_step fuel (h, o) (h <| words ::= <[x := v]> |>, o).

(** What the client owns is inside what the pool has handed out. *)
Definition covers (o : owned) (al : list (Z * Z)) : Prop :=
  exists al', al' ≡ₚ al /\ Forall2 (fun x y => x.1 = y.1 /\ x.2 <= y.2) o al'.

Definition pool_inv (buffer len : Z) (s : kheap * owned) : Prop :=
  exists l, pool_ok (fst s) l /\ base (fst s) = buffer /\ plength (fst s) = len /\ covers (snd s) (allocs l).

Lemma covers_split o1 x o2 al :
  covers (o1 ++ x :: o2) al -> exists y, y ∈ al /\ x.1 = y.1 /\ x.2 <= y.2.
Proof.
  intros (al' & Hp & HF). apply Forall2_app_inv_l in HF as (k1 & k2 & _ & H2 & ->).
  inversion H2 as [|? y ? k3 [? ?] ?]; subst. exists y. rewrite <- Hp. split; [set_solver|done].
Qed.

Lemma tiles_pointers w a l e nx : tiles w a l e nx -> NoDup (allocs l).*1.
Proof.
  revert a. induction l as [|c l IH]; intros a; [by constructor|]. intros (<- & Hn & Ht).
  unfold allocs. cbn [omap list_omap]. destruct (b_use c) as [[q m]|] eqn:E; [|by apply (IH _ Ht)].
  cbn. constructor; [|by apply (IH _ Ht)]. rewrite list_elem_of_fmap. intros ([q' m'] & E' & Hin). cbn in E'. subst q'.
  destruct (use_inside _ _ _ _ _ Hn E) as (_ & ? & ? & ? & _). destruct (tiles_apart _ _ _ _ _ Ht) as [_ HF].
  rewrite Forall_forall in HF. apply HF in Hin. cbn in Hin. lia.
Qed.

Lemma covers_remove o1 p size o2 n al :
  NoDup (p :: al.*1) -> covers (o1 ++ (p, size) :: o2) ((p, n) :: al) -> covers (o1 ++ o2) al.
Proof.
  intros Hnd (al' & Hp' & HF). apply Forall2_app_inv_l in HF as (k1 & k2 & F1 & F2 & ->).
  inversion F2 as [|? [q m] ? k3 [Hq Hm] F3]; subst. cbn in Hq. subst q.
  exists (k1 ++ k3). split; [|by apply Forall2_app]. rewrite <- Permutation_middle in Hp'.
  assert ((p, m) ∈ (p, n) :: al) as Hin by (rewrite <- Hp'; left).
  apply elem_of_cons in Hin as [?|Hin]; [simplify_eq; by apply Permutation_cons_inv in Hp'|].
  apply NoDup_cons in Hnd as [Hnd _]. exfalso. apply Hnd. by apply (list_elem_of_fmap_2 fst _ (p, m)).
Qed.

Lemma covers_perm o al al' : al ≡ₚ al' -> covers o al -> covers o al'.
Proof. intros Hp (k & Hk & HF). exists k. split; [by rewrite Hk|done]. Qed.

Lemma pool_step_inv fuel buffer len s s' :
  len < 24 * Z.of_nat fuel -> pool_inv buffer len s -> pool_step fuel s s' -> pool_inv buffer len s'.
Proof.
  intros Hfuel (l & Hok & Hb & Hl & Hc) Hstep. unfold pool_inv.
  destruct Hstep as [h o size align p h' Hreq E Hp|h o size align h' Hreq E|h o1 p size o2 h' E|h o p size x v Hin Hx];
    cbn [fst snd] in *; assert (fuel_ok h fuel) as Hf by (unfold fuel_ok; lia).
  - destruct (kmalloc_cases h l fuel size align Hok Hf Hreq)
      as [[_ E']|(l1 & b & l2 & q & h2 & -> & Hu & _ & E' & _ & _ & Eb & El & Hok' & _)];
      rewrite E' in E; simplify_eq. eexists. split; [exact Hok'|]. split; [congruence|]. split; [congruence|].
    rewrite allocs_mid_free in Hc by done. destruct Hc as (al' & Hp' & HF).
    exists ((p, round_size size) :: al'). split.
    + rewrite Hp', !allocs_app, allocs_carved. apply Permutation_middle.
    + constructor; [|done]. cbn. destruct Hreq as (_ & ? & ?). split; [done|].
      apply round_size_spec. unfold pointer_align in *. destruct (Z.ltb_spec align 4); lia.
  - destruct (kmalloc_cases h l fuel size align Hok Hf Hreq)
      as [[_ E']|(l1 & b & l2 & q & h2 & -> & Hu & _ & E' & _ & ? & _)];
      rewrite E' in E; simplify_eq. by exists l.
  - destruct (covers_split _ _ _ _ Hc) as ([q n] & Hin & Heq & _). cbn in Heq. subst q.
    apply allocs_in in Hin as (l1 & b & l2 & -> & Hu).
    destruct (kfree_cases h l1 b l2 p n fuel Hok Hu Hf) as (w' & l' & E' & Hok' & _ & Hal & _).
    rewrite E' in E. simplify_eq. exists l'. split_and!; try done. rewrite <- allocs_app in Hal. rewrite Hal.
    pose proof (allocs_mid l1 b l2 _ Hu) as Hmid.
    apply (covers_remove o1 p size o2 n); [|by apply (covers_perm _ _ _ Hmid)].
    change (p :: (allocs (l1 ++ l2)).*1) with (((p, n) :: allocs (l1 ++ l2)).*1). rewrite <- Hmid.
    eapply tiles_pointers, po_tiles, Hok.
  - apply list_elem_of_split in Hin as (o1 & o2 & ->).
    destruct (covers_split _ _ _ _ Hc) as ([q n] & Hin & Heq & Hle). cbn in Heq, Hle. subst q.
    exists l. split; [|done]. apply (client_store h l p n x v Hok Hin). lia.
Qed.

Lemma covers_apart o al : covers o al -> pairwise_apart al -> pairwise_apart o.
Proof.
  intros (al' & <- & HF). clear al. induction HF as [|x y o al [H1 H2] HF IH]; [done|]. cbn. intros [HA HP].
  split; [|by apply IH]. clear IH HP. induction HF as [|x' y' o al [H1' H2'] HF IH]; [done|].
  inversion HA; subst. constructor; [|by apply IH]. unfold apart in *. lia.
Qed.

Lemma covers_inside o al a e : covers o al ->
  Forall (fun x => a <= x.1 /\ x.1 + x.2 <= e) al -> Forall (fun x => a <= x.1 /\ x.1 + x.2 <= e) o.
Proof.
  intros (al' & <- & HF). clear al. induction HF as [|x y o al [H1 H2] HF IH]; [done|]. intros HA.
  inversion HA; subst. constructor; [lia|by apply IH].
Qed.

Lemma pool_history_inv fuel buffer len h h0 s :
  0 < buffer -> buffer mod 4 = 0 -> 24 <= len -> buffer + len < 2 ^ 32 -> len < 24 * Z.of_nat fuel ->
  kmeminit buffer len h = Ok tt h0 -> rtc (pool_step fuel) (h0, []) s -> pool_inv buffer len s.
Proof.
  intros H1 H2 H3 H4 Hf E Hs. destruct (kmeminit_ok h buffer len H1 H2 H3 H4) as (h0' & E' & Hb & Hl & _ & Hok).
  rewrite E' in E. simplify_eq.
  assert (pool_inv (base h0) (plength h0) (h0, [])) as Hinv.
  { eexists. split; [exact Hok|]. split; [done|]. split; [done|]. exists []. by split. }
  clear Hok E'. induction Hs as [|s1 s2 s3 Hst Hs IH]; [done|]. apply IH. by apply (pool_step_inv fuel _ _ s1).
Qed.

(** C2: a pool never hands memory out twice.  In every history of a pool,
    from [kmeminit] on, of allocations, failed allocations, frees and stores of
    the clients to memory they own, in which the clients ask only for what
    [request_ok] allows (an alignment that is zero or a power of two, and a
    [size] that is not negative with twice the size plus the alignment at most
    2^32 - 16, so that no size wraps), the blocks owned at any time are inside
    the buffer and no two of them overlap, and the next such allocation, or the
    free of any of them, returns: the pool's lists are not damaged.  A request
    outside these limits can damage them ([kmalloc_size_wraps]). *)
Theorem pool_safe fuel buffer len h h0 h1 o :
  0 < buffer -> buffer mod 4 = 0 -> 24 <= len -> buffer + len < 2 ^ 32 -> len < 24 * Z.of_nat fuel ->
  kmeminit buffer len h = Ok tt h0 -> rtc (pool_step fuel) (h0, []) (h1, o) ->
  pairwise_apart o /\
  Forall (fun x => buffer <= x.1 /\ x.1 + x.2 <= buffer + len) o /\
  (forall size align, request_ok size align -> exists p h2, kmalloc fuel size align h1 = Ok p h2) /\
  (forall p size, (p, size) ∈ o -> exists h2, kfree fuel p h1 = Ok tt h2).
Proof.
  intros H1 H2 H3 H4 Hf E Hs.
  destruct (pool_history_inv fuel buffer len h h0 _ H1 H2 H3 H4 Hf E Hs) as (l & Hok & Hb & Hl & Hc).
  cbn [fst snd] in *. destruct (tiles_apart _ _ _ _ _ (po_tiles _ _ Hok)) as [HA HI].
  assert (fuel_ok h1 fuel) as Hfu by (unfold fuel_ok; lia). split_and!.
  - by apply (covers_apart _ _ Hc).
  - rewrite Hb, Hl in HI. by apply (covers_inside _ _ _ _ Hc).
  - intros size align Hreq. destruct (kmalloc_cases h1 l fuel size align Hok Hfu Hreq)
      as [[_ E']|(l1 & b & l2 & q & h2 & _ & _ & _ & E' & _)]; eauto.
  - intros p size Hin. apply list_elem_of_split in Hin as (o1 & o2 & ->).
    destruct (covers_split _ _ _ _ Hc) as ([q n] & Hin & Heq & _). cbn in Heq. subst q.
    apply allocs_in in Hin as (l1 & b & l2 & -> & Hu).
    destruct (kfree_cases h1 l1 b l2 p n fuel Hok Hu Hfu) as (w' & l' & E' & _). eauto.
Qed.

(** ** Statistics *)

Definition sum_len (l : list blk_t) : Z := fold_right (fun b s => b_len b + s) 0 l.
Definition frees (l : list blk_t) : list blk_t := List.filter b_free l.
Definition useds (l : list blk_t) : list blk_t := List.filter (fun b => negb (b_free b)) l.
Definition max_len (l : list blk_t) : Z := fold_right (fun b s => Z.max (b_len b) s) 0 l.

Lemma s32_small z : - 2 ^ 31 <= z < 2 ^ 31 -> s32 z = z.
Proof. intros. unfold s32. rewrite Z.mod_small; lia. Qed.

Lemma tiles_sum w a l e nx : tiles w a l e nx ->
  a + 24 * Z.of_nat (length l) + sum_len l = e /\
  sum_len l = sum_len (frees l) + sum_len (useds l) /\ 0 <= sum_len (frees l) /\ 0 <= sum_len (useds l) /\
  0 <= max_len (frees l) <= sum_len (frees l) /\
  length l = (length (frees l) + length (useds l))%nat.
Proof.
  revert a. induction l as [|b l IH]; intros a; [cbn; lia|]. intros (<- & Hn & Ht). apply IH in Ht.
  pose proof (no_len _ _ _ Hn). unfold b_end in Ht. cbn [length sum_len fold_right frees useds List.filter].
  fold (sum_len l). fold (frees l). fold (useds l). destruct (b_free b); cbn [negb sum_len max_len fold_right length];
    fold (sum_len (frees l)); fold (sum_len (useds l)); fold (max_len (frees l)); lia.
Qed.

Lemma count_free len t ab fb an fn lg :
  0 <= len -> 0 <= fb -> 0 <= fn -> 0 <= lg < 2 ^ 31 -> fb + len < 2 ^ 31 -> fn + 1 < 2 ^ 31 ->
  count_node memnode_free len (mkStats t ab fb an fn lg) = mkStats t ab (fb + len) an (fn + 1) (Z.max lg len).
Proof.
  intros. unfold count_node. change (nz memnode_free) with false. cbn iota.
  cbv beta iota zeta delta [set mem_totalbytes mem_allocbytes mem_freebytes mem_allocnodes mem_freenodes mem_largest].
  rewrite (s32_small (fb + len)), (s32_small (fn + 1)), u32_small by lia.
  destruct (Z.ltb_spec lg len); [rewrite s32_small, Z.max_r by lia|rewrite Z.max_l by lia]; done.
Qed.

Lemma count_alloc len t ab fb an fn lg :
  0 <= len -> 0 <= ab -> 0 <= an -> ab + len < 2 ^ 31 -> an + 1 < 2 ^ 31 ->
  count_node memnode_alloc len (mkStats t ab fb an fn lg) = mkStats t (ab + len) fb (an + 1) fn lg.
Proof.
  intros. unfold count_node. change (nz memnode_alloc) with true. cbn iota.
  cbv beta iota zeta delta [set mem_totalbytes mem_allocbytes mem_freebytes mem_allocnodes mem_freenodes mem_largest].
  by rewrite (s32_small (ab + len)), (s32_small (an + 1)) by lia.
Qed.

Lemma stats_loop_spec l : forall h fuel a e t ab fb an fn lg,
  tiles (words h) a l e 0 -> e < 2 ^ 32 -> (length l < fuel)%nat ->
  0 <= ab -> 0 <= fb -> 0 <= an -> 0 <= fn -> 0 <= lg < 2 ^ 31 ->
  ab + fb + an + fn + (e - a) < 2 ^ 31 ->
  stats_loop fuel (next_addr l 0) (mkStats t ab fb an fn lg) h =
  Ok (0, mkStats t (ab + sum_len (useds l)) (fb + sum_len (frees l))
           (an + Z.of_nat (length (useds l))) (fn + Z.of_nat (length (frees l))) (Z.max (max_len (frees l)) lg)) h.
Proof.
  induction l as [|b l IH]; intros h fuel a e t ab fb an fn lg Ht He Hf Hab Hfb Han Hfn Hlg Hsum;
    (destruct fuel as [|fuel]; [lia|]).
  { cbn. rewrite !Z.add_0_r, Z.max_r by lia. done. }
  destruct (tiles_sum _ _ _ _ _ Ht) as (S1 & S2 & S3 & S4 & S5 & S6).
  destruct Ht as (<- & Hn & Ht). pose proof (no_placed _ _ _ Hn) as Hp. pose proof Hp as (P0 & P4 & P24).
  destruct (tiles_sum _ _ _ _ _ Ht) as (T1 & T2 & T3 & T4 & T5 & T6).
  pose proof (no_len _ _ _ Hn) as Hlen. pose proof (tiles_le _ _ _ _ _ Ht) as Hle. cbn [length] in Hf.
  cbn [stats_loop next_addr]. rewrite (proj2 (Z.eqb_neq (b_addr b) 0)) by lia.
  heap_step. heap_step. rewrite (no_status _ _ _ Hn), (no_length _ _ _ Hn). cbv zeta.
  heap_step. rewrite (no_seal _ _ _ Hn). change (MEMNODE_SEAL =? MEMNODE_SEAL) with true. cbn [negb]. cbn iota.
  heap_step. rewrite (no_next _ _ _ Hn). rewrite memnode_data_placed by done. unfold b_end in *.
  rewrite (u32_small (b_addr b + 24 + b_len b)) by lia.
  assert (nz (next_addr l 0) && negb (b_addr b + 24 + b_len b =? next_addr l 0) = false /\
          nz (next_addr l 0) && (next_addr l 0 <? b_addr b) = false) as [-> ->].
  { destruct l as [|c l]; [done|]. destruct Ht as (E & Hc & _). cbn [next_addr].
    rewrite E, Z.eqb_refl, (proj2 (Z.ltb_ge _ _)) by lia. by rewrite !andb_false_r. }
  heap_step. rewrite (proj2 (Z.ltb_ge _ _)) by exact (no_data _ _ _ Hn).
  cbn [useds frees List.filter]. fold (useds l). fold (frees l).
  unfold b_status. pose proof (no_use _ _ _ Hn) as Hu. destruct (b_free b) eqn:Efr; unfold b_free in Efr.
  - change (memnode_free =? memnode_alloc) with false. cbn iota.
    rewrite count_free by lia. rewrite (IH h fuel _ e) by (done || lia).
    cbn [negb sum_len fold_right max_len length]. fold (sum_len (frees l)). fold (max_len (frees l)).
    do 3 f_equal; lia.
  - change (memnode_alloc =? memnode_alloc) with true. cbn iota. destruct (b_use b) as [[p n]|]; [|done].
    destruct Hu as (-> & U1 & U2 & U3 & U4 & U5). unfold b_end in U4. rewrite (u32_small (p - 4)) by lia.
    mstep (ld_ok (p - 4) h ltac:(lia) (mod4_add p (-1) U1)). rewrite U5, Z.eqb_refl. cbn [negb]. cbn iota.
    rewrite count_alloc by lia. rewrite (IH h fuel _ e) by (done || lia).
    cbn [negb sum_len fold_right max_len length]. fold (sum_len (useds l)).
    do 3 f_equal; lia.
Qed.

(** [kmemstats] accepts a pool that was used properly, and its numbers are
    right: the bytes and nodes allocated and free, the longest free block; the
    bytes of the nodes, 24 for each, make up the rest of the pool. *)
Theorem kmemstats_counts h l fuel :
  pool_ok h l -> fuel_ok h fuel -> plength h < 2 ^ 31 ->
  exists s, kmemstats fuel h = Ok (0, s) h /\
    mem_totalbytes s = plength h /\
    mem_allocbytes s = sum_len (useds l) /\ mem_freebytes s = sum_len (frees l) /\
    mem_allocnodes s = Z.of_nat (length (useds l)) /\ mem_freenodes s = Z.of_nat (length (frees l)) /\
    mem_largest s = max_len (frees l) /\
    mem_allocbytes s + mem_freebytes s + 24 * (mem_allocnodes s + mem_freenodes s) = mem_totalbytes s.
Proof.
  intros Hok Hf H31. pose proof (fuel_ok_length _ _ _ Hok Hf) as Hlen. destruct Hok as [H1 H2 H3 H4 H5].
  destruct (tiles_sum _ _ _ _ _ H5) as (S1 & S2 & S3 & S4 & S5 & S6).
  eexists. split.
  - unfold kmemstats. mstep (eq_refl (get h)). rewrite H1, <- (tiles_next _ _ _ _ _ H5 H4).
    rewrite s32_small by lia. apply (stats_loop_spec l h fuel (base h) (base h + plength h)); done || lia.
  - cbn [mem_totalbytes mem_allocbytes mem_freebytes mem_allocnodes mem_freenodes mem_largest]. lia.
Qed.

(** ** Sizes that wrap *)

Definition run_heap {A} (o : outcome kheap A) : kheap :=
  match o with Ok _ h => h | _ => mkHeap ∅ 0 0 0 0 end.
Definition demo_pool : kheap := run_heap (kmeminit 0x1000 1024 (mkHeap ∅ 0 0 0 0)).
Definition demo_used : kheap := run_heap (kmalloc 50 100 16 demo_pool).
Definition demo_blocks : list blk_t :=
  [mkBlk 0x1000 108 (Some (0x1020, 100)); mkBlk 0x1084 868 None].

Lemma demo_pool_ok : pool_ok demo_pool [mkBlk 0x1000 1000 None].
Proof.
  destruct (kmeminit_ok (mkHeap ∅ 0 0 0 0) 0x1000 1024) as (h & E & _ & _ & _ & H); [done..|].
  unfold demo_pool. rewrite E. exact H.
Qed.

Lemma demo_used_ok : pool_ok demo_used demo_blocks.
Proof.
  split; [by vm_compute..|]. cbn [demo_blocks tiles]. split; [done|]. split.
  - split; cbn [b_addr b_len b_use]; [done|lia|by vm_compute..].
  - split; [done|]. split; [|done]. split; cbn [b_addr b_len b_use]; [done|lia|by vm_compute..].
Qed.

(** The size is not checked against wrap-around.  Asked for 2^32 - 1 bytes
    (what a negative length becomes), [kmalloc] on a pool of one kilobyte rounds
    the size to 0 and returns a pointer that is not null: it points at the header
    of the next node, so that the first store of the client destroys the node
    list, as [kmemstats] then reports. *)
Theorem kmalloc_size_wraps :
  exists p h, kmalloc 50 (2 ^ 32 - 1) 0 demo_pool = Ok p h /\ p <> 0 /\
    word (words h) 0x1004 = p /\ word (words h) p = MEMNODE_SEAL /\
    (exists s, kmemstats 50 h = Ok (0, s) h) /\
    (exists s h', (st p 0 ;; kmemstats 50) h = Ok (-1, s) h').
Proof.
  eexists _, _. split; [vm_compute; reflexivity|]. split; [done|]. split; [by vm_compute|]. split; [by vm_compute|].
  split; [eexists|eexists _, _]; vm_compute; reflexivity.
Qed.

(** ** Witnesses *)

Lemma demo_request : request_ok 100 16.
Proof. split; [right; by exists 4|]. vm_compute. split; congruence. Qed.

Lemma kmalloc_fresh_demo : exists p h', kmalloc 50 100 16 demo_pool = Ok p h' /\ p <> 0 /\ p mod 16 = 0.
Proof.
  destruct (kmalloc_fresh demo_pool _ 50 100 16 demo_pool_ok ltac:(by vm_compute) demo_request)
    as (p & h' & E & Hnull & Hp).
  exists p, h'. split; [exact E|]. destruct (decide (p = 0)) as [->|Hne].
  - exfalso. destruct (Hnull eq_refl) as [_ H]. specialize (H (mkBlk 0x1000 1000 None) ltac:(by left) eq_refl).
    vm_compute in H. done.
  - split; [done|]. destruct (Hp Hne) as (n & l' & _ & _ & Hal & _). exact Hal.
Defined.

Lemma kfree_returns_demo : exists h', kfree 50 0x1020 demo_used = Ok tt h' /\ pool_ok h' [mkBlk 0x1000 1000 None].
Proof.
  destruct (kfree_returns demo_used demo_blocks 50 0x1020 100 demo_used_ok ltac:(by vm_compute) ltac:(by left))
    as (h' & l' & E & Hok & _ & _ & _ & Hperm & _ & Hall).
  exists h'. split; [exact E|]. apply Permutation_cons_inv in Hperm. apply Permutation_nil_l in Hperm.
  rewrite (Hall (eq_sym Hperm)) in Hok. exact Hok.
Defined.

Lemma pool_safe_demo :
  pairwise_apart [(0x1020, 100)] /\ exists h2, kfree 50 0x1020 demo_used = Ok tt h2.
Proof.
  destruct (pool_safe 50 0x1000 1024 (mkHeap ∅ 0 0 0 0) demo_pool demo_used [(0x1020, 100)])
    as (H1 & _ & _ & H2); [done|done|done|done|done|reflexivity| |].
  - apply rtc_once. apply (step_malloc 50 demo_pool [] 100 16 0x1020 demo_used demo_request); [vm_compute; reflexivity|done].
  - split; [exact H1|]. apply (H2 0x1020 100). by left.
Defined.

Lemma kmemstats_counts_demo : exists s, kmemstats 50 demo_used = Ok (0, s) demo_used /\ mem_largest s = 868.
Proof.
  destruct (kmemstats_counts demo_used demo_blocks 50 demo_used_ok ltac:(by vm_compute) ltac:(by vm_compute))
    as (s & E & _ & _ & _ & _ & _ & Hl & _).
  exists s. split; [exact E|]. rewrite Hl. reflexivity.
Defined.
