(* ===== verification/Sfcx.v ===== *)
(** * The NAND flash controller: [drivers/xenon_nand/xenon_sfcx.c]

    The controller is hardware: its registers are reached through [rd] and
    [wr] of the class [Nand], over a type of device states the model leaves
    open.  Pages are lists of bytes.  [fuel] bounds the waits for the
    controller: a wait on a controller that stays busy is [Diverge]. *)
From S2P Require Import Prelude Bits.

(** A controller: reading a register, which may change it, and writing one. *)
Class Nand (D : Type) := { rd : Z -> D -> Z * D; wr : Z -> Z -> D -> D }.

(** ** Constants *)

Definition SFCX_CONFIG : Z := 0x00.
Definition SFCX_STATUS : Z := 0x04.
Definition SFCX_COMMAND : Z := 0x08.
Definition SFCX_ADDRESS : Z := 0x0C.
Definition SFCX_DATA : Z := 0x10.
Definition SFCX_PHISON : Z := 0xFC.

Definition PAGE_BUF_TO_REG : Z := 0x00.
Definition REG_TO_PAGE_BUF : Z := 0x01.
Definition LOG_PAGE_TO_BUF : Z := 0x02.
Definition PHY_PAGE_TO_BUF : Z := 0x03.
Definition WRITE_PAGE_TO_PHY : Z := 0x04.
Definition BLOCK_ERASE : Z := 0x05.
Definition UNLOCK_CMD_0 : Z := 0x55.
Definition UNLOCK_CMD_1 : Z := 0xAA.

Definition CONFIG_DMA_LEN : Z := 0x3C0.
Definition CONFIG_WP_EN : Z := 0x8.
Definition CONFIG_INT_EN : Z := 0x4.

Definition STATUS_ILL_LOG : Z := 0x800.
Definition STATUS_ADDR_ER : Z := 0x80.
Definition STATUS_BB_ER : Z := 0x40.
Definition STATUS_RNP_ER : Z := 0x20.
Definition STATUS_ECC_ER : Z := 0x1C.
Definition STATUS_WR_ER : Z := 0x2.
Definition STATUS_BUSY : Z := 0x1.
Definition STATUS_ERROR : Z :=
  STATUS_ILL_LOG .| STATUS_ADDR_ER .| STATUS_BB_ER .| STATUS_RNP_ER .| STATUS_ECC_ER .| STATUS_WR_ER.
Definition SFCX_SUCCESS (status : Z) : bool := (status .& STATUS_ERROR) =? 0.

Definition MAX_PAGE_SZ : Z := 0x210.
Definition META_TYPE_0 : Z := 0.
Definition META_TYPE_1 : Z := 1.
Definition META_TYPE_2 : Z := 2.
Definition CONFIG_BLOCKS : Z := 4.
Definition RAW_NAND_64 : Z := 0x4200000.
Definition SFCX_INITIALIZED : Z := 1.

(** [struct sfc] *)
Record sfc_t := mkSfc {
  initialized : Z; meta_type : Z;
  page_sz : Z; meta_sz : Z; page_sz_phys : Z;
  pages_in_block : Z; block_sz : Z; block_sz_phys : Z;
  size_mb : Z; size_bytes : Z; size_bytes_phys : Z; size_pages : Z; size_blocks : Z;
  blocks_per_lg_block : Z; size_usable_fs : Z; addr_config : Z; len_config : Z
}.
#[global] Instance eta_sfc : Eta sfc_t := fun r =>
  mkSfc (initialized r) (meta_type r) (page_sz r) (meta_sz r) (page_sz_phys r)
    (pages_in_block r) (block_sz r) (block_sz_phys r)
    (size_mb r) (size_bytes r) (size_bytes_phys r) (size_pages r) (size_blocks r)
    (blocks_per_lg_block r) (size_usable_fs r) (addr_config r) (len_config r).
Definition sfc0 : sfc_t := mkSfc 0 0 0 0 0 0 0 0 0 0 0 0 0 0 0 0 0.

(** [__builtin_bswap32] *)
Definition bswap32 (x : Z) : Z := get_be (u8 x) (u8 (x .>> 8)) (u8 (x .>> 16)) (u8 (x .>> 24)).

Definition byte_at (data : list Z) (i : Z) : Z := nth (Z.to_nat i) data 0.
Definition set_byte (data : list Z) (i v : Z) : list Z := <[Z.to_nat i := v]> data.

(** The word stored at [data + i]. *)
Definition word_at (data : list Z) (i : Z) : Z :=
  get_be (byte_at data i) (byte_at data (i + 1)) (byte_at data (i + 2)) (byte_at data (i + 3)).

(** ** Access to the flash *)

(** The driver's state and the controller. *)
Record nst (D : Type) := mkNst { sfc : sfc_t; dev : D }.
Arguments mkNst {D}. Arguments sfc {D}. Arguments dev {D}.

Section access.
Context {D : Type} {N : Nand D} (fuel : nat).
Local Abbreviation MN := (M (nst D)).

Definition sfcx_writereg (addr data : Z) : MN unit :=
  modify (fun s => mkNst (sfc s) (wr addr data (dev s))).
Definition sfcx_readreg (addr : Z) : MN Z := fun s =>
  let (v, d) := rd addr (dev s) in Ok v (mkNst (sfc s) d).

(** [while ((status = sfcx_readreg(SFCX_STATUS)) & STATUS_BUSY);] *)
Fixpoint wait_busy (n : nat) : MN Z :=
  match n with
  | O => diverge
  | S n => status <- sfcx_readreg SFCX_STATUS ;;
      if nz (status .& STATUS_BUSY) then wait_busy n else ret status
  end.

(** The words of the page buffer into [data], from offset [i]: [n] more. *)
Fixpoint read_words (n : nat) (data : list Z) (i : Z) : MN (list Z) :=
  match n with
  | O => ret data
  | S n =>
      sfcx_writereg SFCX_COMMAND PAGE_BUF_TO_REG ;;
      v <- sfcx_readreg SFCX_DATA ;;
      read_words n (write_at (Z.to_nat i) (put_be (bswap32 v)) data) (i + 4)
  end.

(** How many steps of 4 the loop [for (i = 0; i < sz; i += 4)] makes. *)
Definition steps4 (sz : Z) : nat := Z.to_nat ((sz + 3) / 4).

(** The status, and [data] after the call. *)
Definition sfcx_read_page (data : list Z) (address : Z) (raw : bool) : MN (Z * list Z) :=
  st0 <- sfcx_readreg SFCX_STATUS ;;
  sfcx_writereg SFCX_STATUS st0 ;;
  sfcx_writereg SFCX_ADDRESS (u32 address) ;;
  sfcx_writereg SFCX_COMMAND (if raw then PHY_PAGE_TO_BUF else LOG_PAGE_TO_BUF) ;;
  status <- wait_busy fuel ;;
  sfcx_writereg SFCX_ADDRESS 0 ;;
  s <- get ;;
  let sz := if raw then page_sz_phys (sfc s) else page_sz (sfc s) in
  data <- read_words (steps4 sz) data 0 ;;
  ret (status, data).

Fixpoint write_words (n : nat) (data : list Z) (i : Z) : MN unit :=
  match n with
  | O => ret tt
  | S n =>
      sfcx_writereg SFCX_DATA (bswap32 (word_at data i)) ;;
      sfcx_writereg SFCX_COMMAND REG_TO_PAGE_BUF ;;
      write_words n data (i + 4)
  end.

Definition sfcx_write_page (data : list Z) (address : Z) : MN Z :=
  sfcx_writereg SFCX_STATUS 0xFF ;;
  c <- sfcx_readreg SFCX_CONFIG ;;
  sfcx_writereg SFCX_CONFIG (c .| CONFIG_WP_EN) ;;
  sfcx_writereg SFCX_ADDRESS 0 ;;
  s <- get ;;
  write_words (steps4 (page_sz_phys (sfc s))) data 0 ;;
  sfcx_writereg SFCX_ADDRESS (u32 address) ;;
  sfcx_writereg SFCX_COMMAND UNLOCK_CMD_0 ;;
  sfcx_writereg SFCX_COMMAND UNLOCK_CMD_1 ;;
  wait_busy fuel ;;
  sfcx_writereg SFCX_COMMAND WRITE_PAGE_TO_PHY ;;
  wait_busy fuel ;;
  status <- sfcx_readreg SFCX_STATUS ;;
  c <- sfcx_readreg SFCX_CONFIG ;;
  sfcx_writereg SFCX_CONFIG (c .& not32 CONFIG_WP_EN) ;;
  ret status.

(** The pages [p], [p + 1], ... of a block: [n] more. *)
Fixpoint read_pages (n : nat) (data : list Z) (address p : Z) (raw : bool) (status : Z) : MN (Z * list Z) :=
  match n with
  | O => ret (status, data)
  | S n =>
      s <- get ;;
      let sz := if raw then page_sz_phys (sfc s) else page_sz (sfc s) in
      let off := Z.to_nat (p * sz) in
      let* (st, tl) := sfcx_read_page (drop off data) (s32 (address + p * page_sz (sfc s))) raw in
      read_pages n (take off data ++ tl) address (p + 1) raw (status .| st)
  end.
Definition sfcx_read_block (data : list Z) (address : Z) (raw : bool) : MN (Z * list Z) :=
  s <- get ;; read_pages (Z.to_nat (pages_in_block (sfc s))) data address 0 raw 0.

Fixpoint write_pages (n : nat) (data : list Z) (address p status : Z) : MN Z :=
  match n with
  | O => ret status
  | S n =>
      s <- get ;;
      st <- sfcx_write_page (drop (Z.to_nat (p * page_sz_phys (sfc s))) data) (s32 (address + p * page_sz (sfc s))) ;;
      write_pages n data address (p + 1) (status .| st)
  end.
Definition sfcx_write_block (data : list Z) (address : Z) : MN Z :=
  s <- get ;; write_pages (Z.to_nat (pages_in_block (sfc s))) data address 0 0.

Definition sfcx_erase_block (address : Z) : MN Z :=
  c <- sfcx_readreg SFCX_CONFIG ;;
  sfcx_writereg SFCX_CONFIG (c .| CONFIG_WP_EN) ;;
  sfcx_writereg SFCX_STATUS 0xFF ;;
  sfcx_writereg SFCX_ADDRESS (u32 address) ;;
  wait_busy fuel ;;
  sfcx_writereg SFCX_COMMAND UNLOCK_CMD_1 ;;
  sfcx_writereg SFCX_COMMAND UNLOCK_CMD_0 ;;
  wait_busy fuel ;;
  sfcx_writereg SFCX_COMMAND BLOCK_ERASE ;;
  wait_busy fuel ;;
  status <- sfcx_readreg SFCX_STATUS ;;
  sfcx_writereg SFCX_STATUS 0xFF ;;
  c <- sfcx_readreg SFCX_CONFIG ;;
  sfcx_writereg SFCX_CONFIG (c .& not32 CONFIG_WP_EN) ;;
  ret status.

(** ** Setting the driver up *)

(** The fields of a small-block flash (16 KB blocks). *)
Definition small_block (nblocks fs : Z) (c : sfc_t) : sfc_t :=
  let c := c <| block_sz := 0x4000 |> <| size_blocks := nblocks |> in
  let c := c <| size_bytes := s32 (Z.shiftl (size_blocks c) 0xE) |> <| size_usable_fs := fs |> in
  c <| addr_config := s32 ((size_usable_fs c - CONFIG_BLOCKS) * block_sz c) |>.

(** The fields of a large-block flash.  [1 << n] is what the processor's shift
    gives: 0 from 32 on. *)
Definition large_block (config bsz shift fs : Z) (c : sfc_t) : sfc_t :=
  let c := c <| meta_type := META_TYPE_2 |> <| block_sz := bsz |> in
  let n := ((config .>> 19) .& 0x3) + ((config .>> 21) .& 0xF) + 0x17 in
  let c := c <| size_bytes := s32 (Z.shiftl 1 n) |> in
  let c := c <| size_blocks := size_bytes c .>> shift |> <| blocks_per_lg_block := 1 |> <| size_usable_fs := fs |> in
  c <| addr_config := s32 ((size_usable_fs c - CONFIG_BLOCKS) * block_sz c) |>.

(** The nested [switch]: the fields, or the code of an unsupported flash (with
    the fields already assigned). *)
Definition sfcx_layout (config : Z) (c : sfc_t) : sfc_t * option Z :=
  let major := (config .>> 17) .& 0x03 in
  let minor := (config .>> 4) .& 0x3 in
  if major =? 0 then
    let c := c <| meta_type := META_TYPE_0 |> <| blocks_per_lg_block := 8 |> in
    if minor =? 0 then (c, Some 1)
    else if minor =? 1 then (small_block 0x400 0x3E0 c, None)
    else if minor =? 2 then (small_block 0x800 0x7C0 c, None)
    else (small_block 0x1000 0xF80 c, None)
  else if (major =? 1) || (major =? 2) then
    if minor =? 0 then
      if major =? 1 then (c <| meta_type := META_TYPE_0 |>, Some 2)
      else (small_block 0x400 0x3E0 (c <| meta_type := META_TYPE_1 |>) <| blocks_per_lg_block := 8 |>, None)
    else if minor =? 1 then
      if major =? 1 then (small_block 0x400 0x3E0 (c <| meta_type := META_TYPE_1 |>) <| blocks_per_lg_block := 8 |>, None)
      else (small_block 0x1000 0xF80 (c <| meta_type := META_TYPE_1 |>) <| blocks_per_lg_block := 8 |>, None)
    else if minor =? 2 then (large_block config 0x20000 0x11 0x1E0 c, None)
    else (large_block config 0x40000 0x12 0xF0 c, None)
  else (c, Some 3).

(** What is computed from the layout. *)
Definition sfcx_derive (c : sfc_t) : sfc_t :=
  let c := c <| len_config := s32 (block_sz c * 0x04) |> in
  let c := c <| pages_in_block := Z.quot (block_sz c) (page_sz c) |> in
  let c := c <| block_sz_phys := s32 (pages_in_block c * page_sz_phys c) |> in
  let c := c <| size_pages := Z.quot (size_bytes c) (page_sz c) |> in
  let c := c <| size_blocks := Z.quot (size_bytes c) (block_sz c) |> in
  let c := c <| size_bytes_phys := s32 (block_sz_phys c * size_blocks c) |> in
  c <| size_mb := size_bytes c .>> 20 |>.

(** [revision] is what [xenon_get_PCIBridgeRevisionID] returns. *)
Definition sfcx_init (revision : Z) : MN Z :=
  phison <- (if 0x70 <=? revision then v <- sfcx_readreg SFCX_PHISON ;; ret (nz v) else ret false) ;;
  if phison : bool then ret 3 else
  config <- sfcx_readreg SFCX_CONFIG ;;
  s <- get ;;
  if nz (initialized (sfc s)) then ret config else
  let c := sfc s <| initialized := 0 |> <| meta_type := 0 |> <| page_sz := 0x200 |> <| meta_sz := 0x10 |> in
  let c := c <| page_sz_phys := page_sz c + meta_sz c |> in
  sfcx_writereg SFCX_CONFIG (config .& not32 (CONFIG_INT_EN .| CONFIG_WP_EN .| CONFIG_DMA_LEN)) ;;
  let (c, err) := sfcx_layout config c in
  match err with
  | Some code => modify (fun s => mkNst c (dev s)) ;; ret code
  | None =>
      modify (fun s => mkNst (sfcx_derive c <| initialized := SFCX_INITIALIZED |>) (dev s)) ;;
      ret config
  end.

(** ** Flashing an image *)

(** [rawflash_writeImage] from block [i] on.  [read_file k] is what the [k]-th
    [read] of the file delivers, [None] for an error: [read] puts the bytes it
    delivers at the start of the buffer and leaves the rest of it. *)
Definition secondPgOffset (c : sfc_t) : Z :=
  if meta_type c =? META_TYPE_2 then 0x1080 else page_sz_phys c.

(** The byte of the spare data that marks a good block, by [meta_type]. *)
Definition valid_index (meta : Z) : option Z :=
  if meta =? META_TYPE_0 then Some 5 else if meta =? META_TYPE_1 then Some 5
  else if meta =? META_TYPE_2 then Some 0 else None.
Definition sfcx_is_pagevalid (c : sfc_t) (data : list Z) : bool :=
  match valid_index (meta_type c) with
  | Some i => byte_at data (page_sz c + i) =? 0xFF
  | None => false
  end.

Fixpoint write_image (n : nat) (read_file : nat -> option (list Z)) (k : nat) (i : Z) (blockbuf : list Z) : MN bool :=
  match n with
  | O => ret true
  | S n =>
      s <- get ;;
      let c := sfc s in
      let addr := s32 (i * block_sz c) in
      let* (status, blockbuf) := sfcx_read_block blockbuf addr true in
      let status :=
        if negb (sfcx_is_pagevalid c blockbuf) ||
           negb (sfcx_is_pagevalid c (drop (Z.to_nat (secondPgOffset c)) blockbuf))
        then status .| STATUS_BB_ER else status in
      match read_file k with
      | None => ret false
      | Some l =>
          let blockbuf := write_at 0 l blockbuf in
          (if (status .& (STATUS_BB_ER .| STATUS_ECC_ER)) =? 0 then
             sfcx_erase_block addr ;;
             sfcx_write_block blockbuf addr ;;
             ret tt
           else ret tt) ;;
          write_image n read_file (S k) (i + 1) blockbuf
      end
  end.

(** [malloc] gives the initial bytes of the buffer, or [None]. *)
Definition rawflash_writeImage (malloc : Z -> option (list Z)) (read_file : nat -> option (list Z)) (len : Z) : MN bool :=
  s <- get ;;
  let c := sfc s in
  match malloc (s32 (pages_in_block c * page_sz_phys c)) with
  | None => ret false
  | Some buf => write_image (Z.to_nat (Z.quot len (block_sz_phys c))) read_file 0 0 buf
  end.

(** The size [try_rawflash] flashes, by the size of the file. *)
Definition rawflash_size (size : Z) : option Z :=
  if (size =? RAW_NAND_64 * 4) || (size =? RAW_NAND_64 * 8) then Some RAW_NAND_64
  else if negb (size =? 0x1080000) && negb (size =? RAW_NAND_64) then None
  else Some size.
End access.

(** ** The spare data of a page *)

Section spare.
Context (c : sfc_t).
Implicit Types data : list Z.

(** The bytes that hold the block number (low byte first) and the version. *)
Definition number_indices (meta : Z) : option (Z * Z) :=
  if meta =? META_TYPE_0 then Some (0, 1)
  else if (meta =? META_TYPE_1) || (meta =? META_TYPE_2) then Some (1, 2) else None.
Definition version_indices (meta : Z) : option (Z * Z * Z * Z) :=
  if meta =? META_TYPE_0 then Some (2, 3, 4, 6)
  else if meta =? META_TYPE_1 then Some (0, 3, 4, 6)
  else if meta =? META_TYPE_2 then Some (5, 3, 4, 6) else None.

Definition sfcx_get_blocknumber data : Z :=
  match number_indices (meta_type c) with
  | Some (lo, hi) => (byte_at data (page_sz c + hi) .<< 8) .| byte_at data (page_sz c + lo)
  | None => 0
  end.
Definition sfcx_set_blocknumber data (num : Z) : list Z :=
  match number_indices (meta_type c) with
  | Some (lo, hi) =>
      set_byte (set_byte data (page_sz c + hi) ((num .>> 8) .& 0xFF)) (page_sz c + lo) ((num .>> 0) .& 0xFF)
  | None => data
  end.

(** [int] values: the bit pattern of a word is read back as signed. *)
Definition sfcx_get_blockversion data : Z :=
  match version_indices (meta_type c) with
  | Some (b0, b1, b2, b3) =>
      s32 ((byte_at data (page_sz c + b3) .<< 24) .| (byte_at data (page_sz c + b2) .<< 16) .|
           (byte_at data (page_sz c + b1) .<< 8) .| byte_at data (page_sz c + b0))
  | None => 0
  end.
Definition sfcx_set_blockversion data (ver : Z) : list Z :=
  match version_indices (meta_type c) with
  | Some (b0, b1, b2, b3) =>
      let data := set_byte data (page_sz c + b0) ((ver .>> 0) .& 0xFF) in
      let data := set_byte data (page_sz c + b1) ((ver .>> 8) .& 0xFF) in
      let data := set_byte data (page_sz c + b2) ((ver .>> 16) .& 0xFF) in
      set_byte data (page_sz c + b3) ((ver .>> 24) .& 0xFF)
  | None => data
  end.

Definition set_valid_byte data (v : Z) : list Z :=
  match valid_index (meta_type c) with Some i => set_byte data (page_sz c + i) v | None => data end.
Definition sfcx_set_pagevalid data : list Z := set_valid_byte data 0xFF.
Definition sfcx_set_pageinvalid data : list Z := set_valid_byte data 0x00.

Definition sfcx_is_pagezeroed data : bool := forallb (fun b => b =? 0) (take (Z.to_nat (page_sz c)) data).
Definition sfcx_is_pageerased data : bool := forallb (fun b => b =? 0xFF) (take (Z.to_nat (page_sz_phys c)) data).

Definition sfcx_block_to_address (block : Z) : Z := s32 (block * block_sz c).
Definition sfcx_address_to_block (address : Z) : Z := Z.quot address (block_sz c).
Definition sfcx_block_to_rawaddress (block : Z) : Z := s32 (block * block_sz_phys c).
Definition sfcx_rawaddress_to_block (address : Z) : Z := Z.quot address (block_sz_phys c).

(** ** Error correction *)

(** The word taken from [data] the [j]-th time, swapped and inverted. *)
Definition ecc_word (data : list Z) (j : Z) : Z := not32 (bswap32 (word_at data (4 * j))).

(** One round of the loop: [i] counts the bits, [v] holds what is left of the
    current word. *)
Definition ecc_step (data : list Z) (st : Z * Z) (i : nat) : Z * Z :=
  let (val, v) := st in
  let v := if (Z.of_nat i .& 31) =? 0 then ecc_word data (Z.of_nat i / 32) else v in
  let val := val .^ (v .& 1) in
  let v := v .>> 1 in
  let val := if nz (val .& 1) then val .^ 0x6954559 else val in
  (val .>> 1, v).

(** The rounds of the loop. *)
Definition ECC_BITS : nat := Z.to_nat 0x1066.

Definition ecc_value (data : list Z) : Z := not32 (fst (fold_left (ecc_step data) (seq 0 ECC_BITS) (0, 0))).

Definition sfcx_calcecc data : list Z :=
  let val := ecc_value data in
  let e := page_sz c in
  let data := set_byte data (e + 0xC) (((val .<< 6) .| (byte_at data (e + 0xC) .& 0x3F)) .& 0xFF) in
  let data := set_byte data (e + 0xD) ((val .>> 2) .& 0xFF) in
  let data := set_byte data (e + 0xE) ((val .>> 10) .& 0xFF) in
  set_byte data (e + 0xF) ((val .>> 18) .& 0xFF).
End spare.
