(* ===== verification/SfcxFacts.v ===== *)
(** * The NAND flash driver: spare data, error correction, geometry, access *)
From S2P Require Import Prelude Bits Sfcx.

(** ** Bytes of a page *)

Lemma byte_at_set data i v j : 0 <= i < Z.of_nat (length data) -> 0 <= j ->
  byte_at (set_byte data i v) j = if decide (i = j) then v else byte_at data j.
Proof.
  intros Hi Hj. unfold byte_at, set_byte. rewrite !nth_lookup. case_decide as E.
  - subst. by rewrite list_lookup_insert_eq by lia.
  - by rewrite list_lookup_insert_ne by lia.
Qed.

Lemma length_set_byte data i v : length (set_byte data i v) = length data.
Proof. apply length_insert. Qed.

Lemma land_ff x : x .& 0xFF = u8 x.
Proof. change 0xFF with (Z.ones 8). by rewrite Z.land_ones. Qed.

Lemma shl_small x n : 0 <= n -> 0 <= x < 2 ^ (32 - n) -> n <= 32 -> x .<< n = x * 2 ^ n.
Proof.
  intros Hn Hx H32. rewrite Z.shiftl_mul_pow2 by lia. apply u32_small.
  assert (2 ^ 32 = 2 ^ (32 - n) * 2 ^ n) as -> by (rewrite <- Z.pow_add_r by lia; f_equal; lia). nia.
Qed.

(** A page with its spare data. *)
Record page_ok (c : sfc_t) (data : list Z) : Prop := {
  pk_size : 0 <= page_sz c;
  pk_length : Z.of_nat (length data) = page_sz c + 16;
  pk_meta : meta_type c = META_TYPE_0 \/ meta_type c = META_TYPE_1 \/ meta_type c = META_TYPE_2
}.

Lemma u16_split n : 0 <= n < 2 ^ 16 -> (u8 (n .>> 8) .<< 8) .| u8 (n .>> 0) = n.
Proof.
  intros Hn. apply Z.bits_inj'. intros k Hk. rewrite Z.shiftr_0_r, Z.lor_spec, u32_bits, Z.shiftl_spec, (u8_bits n k) by lia.
  destruct (Z.ltb_spec k 8), (Z.ltb_spec k 32); cbn [andb].
  - rewrite Z.testbit_neg_r by lia. done.
  - lia.
  - rewrite orb_false_r, u8_bits, Z.shiftr_spec by lia. replace (k - 8 + 8) with k by lia.
    destruct (Z.ltb_spec (k - 8) 8); [done|]. by rewrite (high_bits n 16) by lia.
  - by rewrite (high_bits n 16) by lia.
Qed.

Lemma s32_u32 x : s32 (u32 x) = s32 x.
Proof. unfold s32, u32. by rewrite Zplus_mod_idemp_l. Qed.
Lemma s32_id x : - 2 ^ 31 <= x < 2 ^ 31 -> s32 x = x.
Proof. intros H. unfold s32. rewrite Z.mod_small; lia. Qed.

Lemma bytes_u32 v :
  (u8 (v .>> 24) .<< 24) .| (u8 (v .>> 16) .<< 16) .| (u8 (v .>> 8) .<< 8) .| u8 (v .>> 0) = u32 v.
Proof.
  apply Z.bits_inj'. intros k Hk. rewrite Z.shiftr_0_r, !Z.lor_spec, !u32_bits, !Z.shiftl_spec by lia.
  destruct (Z.ltb_spec k 32) as [H|H]; cbn [andb]; [|by rewrite u8_bits, (proj2 (Z.ltb_ge k 8)) by lia].
  assert (forall n, 0 <= n -> Z.testbit (u8 (v .>> n)) (k - n) = (n <=? k) && (k <? n + 8) && Z.testbit v k) as Hb.
  { intros n Hn. destruct (Z.leb_spec n k).
    - rewrite u8_bits, Z.shiftr_spec by lia. replace (k - n + n) with k by lia.
      by destruct (Z.ltb_spec (k - n) 8), (Z.ltb_spec k (n + 8)); try lia.
    - by rewrite Z.testbit_neg_r by lia. }
  rewrite !Hb, u8_bits by lia.
  destruct (Z.testbit v k); rewrite ?andb_false_r, ?andb_true_r; [|done].
  destruct (Z.leb_spec 24 k), (Z.leb_spec 16 k), (Z.leb_spec 8 k), (Z.ltb_spec k (24 + 8)),
    (Z.ltb_spec k (16 + 8)), (Z.ltb_spec k (8 + 8)), (Z.ltb_spec k 8); cbn; done || lia.
Qed.

Local Ltac page_bytes :=
  repeat (rewrite byte_at_set by (rewrite ?length_set_byte; lia));
  repeat (first [rewrite decide_True by lia | rewrite decide_False by lia]).

(** The spare data of a page.  For each of the three layouts, the block
    number, the version and the mark of a good page are read back as they were
    set, and setting one of them leaves the other two and the user data
    alone. *)
Theorem spare_roundtrip c data n v :
  page_ok c data -> 0 <= n < 2 ^ 16 -> - 2 ^ 31 <= v < 2 ^ 31 ->
  let num := sfcx_set_blocknumber c data n in
  let ver := sfcx_set_blockversion c data v in
  sfcx_get_blocknumber c num = n /\ sfcx_get_blockversion c ver = v /\
  sfcx_is_pagevalid c (sfcx_set_pagevalid c data) = true /\
  sfcx_is_pagevalid c (sfcx_set_pageinvalid c data) = false /\
  sfcx_get_blockversion c num = sfcx_get_blockversion c data /\
  sfcx_is_pagevalid c num = sfcx_is_pagevalid c data /\
  sfcx_get_blocknumber c ver = sfcx_get_blocknumber c data /\
  sfcx_is_pagevalid c ver = sfcx_is_pagevalid c data /\
  (forall x, sfcx_get_blocknumber c (set_valid_byte c data x) = sfcx_get_blocknumber c data /\
             sfcx_get_blockversion c (set_valid_byte c data x) = sfcx_get_blockversion c data) /\
  (forall i, 0 <= i < page_sz c -> byte_at num i = byte_at data i /\ byte_at ver i = byte_at data i /\
     forall x, byte_at (set_valid_byte c data x) i = byte_at data i).
Proof.
  intros [Hs Hl Hm] Hn Hv num ver. unfold num, ver, sfcx_get_blocknumber, sfcx_set_blocknumber, sfcx_get_blockversion,
    sfcx_set_blockversion, sfcx_set_pagevalid, sfcx_set_pageinvalid, sfcx_is_pagevalid, set_valid_byte,
    number_indices, version_indices, valid_index.
  destruct Hm as [Hm|[Hm|Hm]]; rewrite Hm; cbn [Z.eqb orb META_TYPE_0 META_TYPE_1 META_TYPE_2 Pos.eqb]; cbv zeta;
    split_and!; try (intros x); try split;
    page_bytes; rewrite ?land_ff; try done;
    first [by rewrite u16_split | by rewrite bytes_u32, s32_u32, s32_id | split; [done|intros y; by page_bytes]].
Qed.

Definition demo_sfc : sfc_t := mkSfc 1 2 512 16 528 32 16384 16896 16 16777216 17301504 32768 1024 8 992 16187392 65536.

Lemma demo_page_ok : page_ok demo_sfc (replicate 528 0).
Proof. split; [done|done|right; by right]. Qed.

Lemma spare_roundtrip_demo :
  sfcx_get_blocknumber demo_sfc (sfcx_set_blocknumber demo_sfc (replicate 528 0) 0x123) = 0x123.
Proof.
  pose proof (spare_roundtrip demo_sfc (replicate 528 0) 0x123 7 demo_page_ok ltac:(lia) ltac:(lia)) as H.
  exact (proj1 H).
Defined.

(** ** Error correction: the loop is a shift register over the bits of the page *)

Definition page_bytes (data : list Z) : Prop := Forall is_byte data.

(** Bit [k] of the page, the lowest bit of a byte first. *)
Definition page_bit (data : list Z) (k : nat) : bool :=
  Z.testbit (byte_at data (Z.of_nat k / 8)) (Z.of_nat k mod 8).

Definition lfsr (val : Z) (b : bool) : Z :=
  let x := val .^ Z.b2z b in (if Z.odd x then x .^ 0x6954559 else x) .>> 1.

Lemma byte_at_byte data i : page_bytes data -> is_byte (byte_at data i).
Proof.
  intros H. unfold byte_at. rewrite nth_lookup. destruct (data !! Z.to_nat i) as [b|] eqn:E; cbn; [|done].
  unfold page_bytes in H. rewrite Forall_lookup in H. by eapply H.
Qed.

Lemma bswap_get_be a b c d :
  is_byte a -> is_byte b -> is_byte c -> is_byte d -> bswap32 (get_be a b c d) = get_be d c b a.
Proof.
  intros Ha Hb Hc Hd. pose proof (put_get_be a b c d Ha Hb Hc Hd) as E. unfold put_be in E.
  injection E as E1 E2 E3 E4. unfold bswap32. by rewrite E1, E2, E3, E4.
Qed.

Lemma not32_bits x n : 0 <= n < 32 -> Z.testbit (not32 x) n = negb (Z.testbit x n).
Proof.
  intros Hn. unfold not32. change 0xFFFFFFFF with (Z.ones 32). rewrite Z.lxor_spec, Z.testbit_ones_nonneg by lia.
  rewrite (proj2 (Z.ltb_lt n 32)) by lia. by destruct (Z.testbit x n).
Qed.

Lemma ecc_word_bit data i :
  page_bytes data ->
  Z.testbit (ecc_word data (Z.of_nat i / 32)) (Z.of_nat i mod 32) = negb (page_bit data i).
Proof.
  intros H. unfold ecc_word, word_at. pose proof (Z.mod_pos_bound (Z.of_nat i) 32 ltac:(lia)) as Hr.
  rewrite bswap_get_be by (by apply byte_at_byte). rewrite not32_bits by lia. f_equal.
  rewrite get_be_bits by (lia || by apply byte_at_byte). unfold page_bit.
  pose proof (Z.div_mod (Z.of_nat i) 32 ltac:(lia)) as Hd. set (q := Z.of_nat i / 32) in *. set (r := Z.of_nat i mod 32) in *.
  assert (forall n, 0 <= n -> 8 * n <= r < 8 * n + 8 ->
    byte_at data (Z.of_nat i / 8) = byte_at data (4 * q + n) /\ Z.of_nat i mod 8 = r - 8 * n) as Hn.
  { intros n Hn0 Hrn. split; [f_equal|]; Z.to_euclidean_division_equations; lia. }
  destruct (Z.ltb_spec r 8); [destruct (Hn 0) as [-> ->]; [lia..|]; rewrite Z.add_0_r; f_equal; lia|].
  destruct (Z.ltb_spec r 16); [destruct (Hn 1) as [-> ->]; [lia..|]; f_equal; lia|].
  destruct (Z.ltb_spec r 24); [destruct (Hn 2) as [-> ->]; [lia..|]; f_equal; lia|].
  destruct (Hn 3) as [-> ->]; [lia..|]; f_equal; lia.
Qed.

Lemma land_1 x : x .& 1 = Z.b2z (Z.odd x).
Proof. change 1 with (Z.ones 1). rewrite Z.land_ones by lia. change (2 ^ 1) with 2. by rewrite Zmod_odd; destruct (Z.odd x). Qed.

Lemma ecc_step_bit data val v i :
  page_bytes data ->
  (Z.of_nat i mod 32 <> 0 -> v = ecc_word data (Z.of_nat i / 32) .>> (Z.of_nat i mod 32)) ->
  ecc_step data (val, v) i =
    (lfsr val (negb (page_bit data i)), ecc_word data (Z.of_nat i / 32) .>> (Z.of_nat i mod 32 + 1)).
Proof.
  intros Hb Hv. unfold ecc_step. change 31 with (Z.ones 5). rewrite Z.land_ones by lia. change (2 ^ 5) with 32.
  pose proof (Z.mod_pos_bound (Z.of_nat i) 32 ltac:(lia)) as Hr.
  set (w := ecc_word data (Z.of_nat i / 32)) in *.
  assert ((if Z.of_nat i mod 32 =? 0 then w else v) = w .>> (Z.of_nat i mod 32)) as ->.
  { destruct (Z.eqb_spec (Z.of_nat i mod 32) 0) as [E|E]; [by rewrite E, Z.shiftr_0_r|by apply Hv]. }
  rewrite <- ecc_word_bit by done. fold w. f_equal; [|by rewrite Z.shiftr_shiftr by lia].
  rewrite (land_1 (w .>> _)), <- (Z.bit0_odd (w .>> _)), Z.shiftr_spec, Z.add_0_l by lia. unfold lfsr, nz. rewrite land_1.
  by destruct (Z.odd (val .^ Z.b2z (Z.testbit w (Z.of_nat i mod 32)))).
Qed.

Lemma ecc_fold data n : forall a val v,
  page_bytes data ->
  (Z.of_nat a mod 32 <> 0 -> v = ecc_word data (Z.of_nat a / 32) .>> (Z.of_nat a mod 32)) ->
  fst (fold_left (ecc_step data) (seq a n) (val, v)) =
  fold_left lfsr ((fun i => negb (page_bit data i)) <$> seq a n) val.
Proof.
  induction n as [|n IH]; intros a val v Hb Hv; [done|]. cbn [seq fold_left fmap list_fmap].
  rewrite ecc_step_bit by done. apply IH; [done|]. intros Hne.
  pose proof (Z.mod_pos_bound (Z.of_nat a) 32 ltac:(lia)) as Hr.
  assert (Z.of_nat (S a) / 32 = Z.of_nat a / 32 /\ Z.of_nat (S a) mod 32 = Z.of_nat a mod 32 + 1) as [-> ->]; [|done].
  clear -Hne Hr. Z.to_euclidean_division_equations. lia.
Qed.

(** ** The register never forgets a difference *)

Lemma lfsr_range val b : 0 <= val < 2 ^ 26 -> 0 <= lfsr val b < 2 ^ 26.
Proof.
  intros Hv. unfold lfsr. set (x := val .^ Z.b2z b).
  assert (0 <= x) as Hx0 by (apply Z.lxor_nonneg; split; intros; [destruct b; cbn; lia|lia]).
  assert (forall n, 26 <= n -> Z.testbit x n = false) as Hx.
  { intros n Hn. unfold x. rewrite Z.lxor_spec, (high_bits val 26) by lia. destruct b; [|by rewrite Z.bits_0].
    by rewrite (high_bits 1 1) by lia. }
  apply bits_range; [lia| |].
  - apply Z.shiftr_nonneg. destruct (Z.odd x); [|done]. apply Z.lxor_nonneg. split; lia.
  - intros n Hn. rewrite Z.shiftr_spec by lia. destruct (Z.odd x); [|by apply Hx; lia].
    by rewrite Z.lxor_spec, Hx, (high_bits 0x6954559 27) by lia.
Qed.

Lemma lfsr_injective v1 v2 b :
  0 <= v1 < 2 ^ 26 -> 0 <= v2 < 2 ^ 26 -> lfsr v1 b = lfsr v2 b -> v1 = v2.
Proof.
  intros H1 H2. unfold lfsr.
  assert (forall v n, 0 <= v < 2 ^ 26 -> 26 <= n -> Z.testbit (v .^ Z.b2z b) n = false) as Hx.
  { intros v n Hv Hn. rewrite Z.lxor_spec, (high_bits v 26) by lia. destruct b; [|by rewrite Z.bits_0].
    by rewrite (high_bits 1 1) by lia. }
  pose proof (Hx v1) as Hx1. pose proof (Hx v2) as Hx2. clear Hx.
  intros E. enough (v1 .^ Z.b2z b = v2 .^ Z.b2z b) as E'.
  { apply (f_equal (fun z => z .^ Z.b2z b)) in E'. by rewrite !Z.lxor_assoc, !Z.lxor_nilpotent, !Z.lxor_0_r in E'. }
  set (x1 := v1 .^ Z.b2z b) in *. set (x2 := v2 .^ Z.b2z b) in *.
  assert (Z.odd x1 = Z.odd x2) as Eo.
  { pose proof (f_equal (fun z => Z.testbit z 25) E) as E25. cbn beta in E25. rewrite !Z.shiftr_spec in E25 by lia.
    change (25 + 1) with 26 in E25.
    destruct (Z.odd x1), (Z.odd x2); try done; rewrite ?Z.lxor_spec, Hx1, Hx2 in E25 by lia; done. }
  bitwise n Hn. destruct (decide (n = 0)) as [->|Hne]; [by rewrite !Z.bit0_odd|].
  pose proof (f_equal (fun z => Z.testbit z (n - 1)) E) as En. cbn beta in En. rewrite !Z.shiftr_spec in En by lia.
  replace (n - 1 + 1) with n in En by lia. rewrite <- Eo in En. destruct (Z.odd x1); [|done].
  rewrite !Z.lxor_spec in En. by destruct (Z.testbit x1 n), (Z.testbit x2 n), (Z.testbit 0x6954559 n).
Qed.

Lemma lfsr_fold_injective bs : forall v1 v2,
  0 <= v1 < 2 ^ 26 -> 0 <= v2 < 2 ^ 26 -> fold_left lfsr bs v1 = fold_left lfsr bs v2 -> v1 = v2.
Proof.
  induction bs as [|b bs IH]; intros v1 v2 H1 H2 E; [done|]. cbn in E.
  apply IH in E; [|by apply lfsr_range..]. by apply lfsr_injective in E.
Qed.

Lemma lfsr_fold_range bs v : 0 <= v < 2 ^ 26 -> 0 <= fold_left lfsr bs v < 2 ^ 26.
Proof. revert v. induction bs as [|b bs IH]; intros v H; [done|]. cbn. apply IH. by apply lfsr_range. Qed.

Lemma lfsr_bit_differs v b : 0 <= v < 2 ^ 26 -> lfsr v b <> lfsr v (negb b).
Proof.
  intros Hv E. assert (lfsr v (negb b) = lfsr (v .^ 1) b) as E'.
  { unfold lfsr. assert (v .^ Z.b2z (negb b) = v .^ 1 .^ Z.b2z b) as ->; [|done].
    rewrite Z.lxor_assoc. f_equal. by destruct b. }
  rewrite E' in E. apply lfsr_injective in E; [|done|].
  - assert (v .^ (v .^ 1) = 0) as E2 by (rewrite <- E; apply Z.lxor_nilpotent).
    rewrite <- Z.lxor_assoc, Z.lxor_nilpotent, Z.lxor_0_l in E2. done.
  - apply bits_range; [lia|apply Z.lxor_nonneg; lia|]. intros n Hn.
    by rewrite Z.lxor_spec, (high_bits v 26), (high_bits 1 1) by lia.
Qed.

(** ** Every error of one bit is found *)

Definition flip (data : list Z) (k : nat) : list Z :=
  set_byte data (Z.of_nat k / 8) (byte_at data (Z.of_nat k / 8) .^ Z.shiftl 1 (Z.of_nat k mod 8)).

(** A raw page: 512 bytes and 16 of spare data, 4224 bits. *)
Definition raw_page (data : list Z) : Prop := Z.of_nat (length data) = 528 /\ page_bytes data.

Lemma set_byte_bytes data i v : page_bytes data -> is_byte v -> page_bytes (set_byte data i v).
Proof. intros H Hv. by apply Forall_insert. Qed.

Lemma div8_bound k : Z.of_nat k < 4224 -> 0 <= Z.of_nat k / 8 < 528.
Proof. intros. Z.to_euclidean_division_equations. lia. Qed.

Lemma flip_raw data k : raw_page data -> Z.of_nat k < 4224 -> raw_page (flip data k).
Proof.
  intros [Hl Hb] Hk. split; [by unfold flip; rewrite length_set_byte|]. apply set_byte_bytes; [done|].
  apply is_byte_lxor; [by apply byte_at_byte|]. pose proof (Z.mod_pos_bound (Z.of_nat k) 8 ltac:(lia)).
  unfold is_byte. rewrite Z.shiftl_1_l. split; [lia|]. apply Z.pow_lt_mono_r; lia.
Qed.

Lemma flip_bit data k j : raw_page data -> Z.of_nat k < 4224 ->
  page_bit (flip data k) j = if decide (j = k) then negb (page_bit data j) else page_bit data j.
Proof.
  intros [Hl Hb] Hk. unfold page_bit, flip. pose proof (div8_bound k Hk).
  pose proof (Z.mod_pos_bound (Z.of_nat k) 8 ltac:(lia)). pose proof (Z.mod_pos_bound (Z.of_nat j) 8 ltac:(lia)).
  rewrite byte_at_set by (try lia; apply Z.div_pos; lia).
  destruct (decide (Z.of_nat k / 8 = Z.of_nat j / 8)) as [E|E].
  - rewrite E, Z.lxor_spec, Z.shiftl_1_l. rewrite Z.pow2_bits_eqb by lia. destruct (Z.eqb_spec (Z.of_nat k mod 8) (Z.of_nat j mod 8)) as [E'|E'].
    + rewrite decide_True by (Z.to_euclidean_division_equations; lia). by rewrite xorb_true_r.
    + rewrite decide_False by (intros ->; done). by rewrite xorb_false_r.
  - rewrite decide_False by (intros ->; done). done.
Qed.

Lemma page_bits_inj d1 d2 : raw_page d1 -> raw_page d2 ->
  (forall i, Z.of_nat i < 4224 -> page_bit d1 i = page_bit d2 i) -> d1 = d2.
Proof.
  intros [L1 B1] [L2 B2] H. apply (nth_ext _ _ 0 0); [lia|]. intros n Hn.
  assert (forall d, nth n d 0 = byte_at d (Z.of_nat n)) as E by (intros; unfold byte_at; by rewrite Nat2Z.id).
  rewrite !E. bitwise k Hk. destruct (decide (k < 8)) as [Hk8|Hk8].
  - specialize (H (8 * n + Z.to_nat k)%nat ltac:(lia)). unfold page_bit in H.
    replace (Z.of_nat (8 * n + Z.to_nat k) / 8) with (Z.of_nat n) in H by (Z.to_euclidean_division_equations; lia).
    replace (Z.of_nat (8 * n + Z.to_nat k) mod 8) with k in H by (Z.to_euclidean_division_equations; lia). done.
  - rewrite !(high_bits _ 8) by (lia || by apply byte_at_byte). done.
Qed.

Definition covered (data : list Z) : list bool := (fun i => negb (page_bit data i)) <$> seq 0 ECC_BITS.

Lemma ECC_BITS_Z : Z.of_nat ECC_BITS = 0x1066.
Proof. unfold ECC_BITS. apply Z2Nat.id. lia. Qed.
#[local] Opaque ECC_BITS.

Lemma ecc_value_covered data : page_bytes data -> ecc_value data = not32 (fold_left lfsr (covered data) 0).
Proof. 
  intros H. unfold ecc_value, covered. rewrite (ecc_fold data ECC_BITS 0 0 0 H); [reflexivity|].
  intros E. by destruct E.
Qed.

Lemma ecc_value_ext d1 d2 : page_bytes d1 -> page_bytes d2 ->
  (forall i, Z.of_nat i < 0x1066 -> page_bit d1 i = page_bit d2 i) -> ecc_value d1 = ecc_value d2.
Proof.
  intros H1 H2 H. rewrite (ecc_value_covered d1 H1), (ecc_value_covered d2 H2).
  assert (covered d1 = covered d2) as ->; [|reflexivity]. apply list_fmap_ext. intros i x Hx.
  apply lookup_seq in Hx as [-> Hi]. pose proof ECC_BITS_Z. rewrite H by lia. reflexivity.
Qed.

Lemma ecc_value_flip data k : raw_page data -> Z.of_nat k < 0x1066 ->
  exists n, 0 <= n < 26 /\ Z.testbit (ecc_value (flip data k)) n <> Z.testbit (ecc_value data) n.
Proof.
  intros Hr Hk. pose proof (flip_raw data k Hr ltac:(lia)) as Hr'.
  rewrite (ecc_value_covered data (proj2 Hr)), (ecc_value_covered _ (proj2 Hr')).
  set (b := negb (page_bit data k)).
  assert (exists l1 l2, covered data = l1 ++ b :: l2 /\ covered (flip data k) = l1 ++ negb b :: l2) as (l1 & l2 & E1 & E2).
  { unfold covered. pose proof ECC_BITS_Z. replace ECC_BITS with (k + S (ECC_BITS - k - 1))%nat by lia. rewrite seq_app, !fmap_app.
    cbn [seq fmap list_fmap]. rewrite Nat.add_0_l. eexists _, _. split; [reflexivity|].
    rewrite flip_bit, decide_True by (done || lia). f_equal; [|f_equal].
    - apply list_fmap_ext. intros i x Hx. apply lookup_seq in Hx as [-> Hi]. rewrite flip_bit, decide_False by (done || lia). done.
    - apply list_fmap_ext. intros i x Hx. apply lookup_seq in Hx as [-> Hi]. rewrite flip_bit, decide_False by (done || lia). done. }
  rewrite E1, E2, !fold_left_app. cbn [fold_left].
  pose proof (lfsr_fold_range l1 0 ltac:(lia)) as Hv. set (v := fold_left lfsr l1 0) in *.
  pose proof (lfsr_fold_range l2 _ (lfsr_range v b Hv)) as R1. pose proof (lfsr_fold_range l2 _ (lfsr_range v (negb b) Hv)) as R2.
  assert (fold_left lfsr l2 (lfsr v b) <> fold_left lfsr l2 (lfsr v (negb b))) as Hne.
  { intros E. apply lfsr_fold_injective in E; [|by apply lfsr_range..]. by apply lfsr_bit_differs in E. }
  destruct (decide (Forall (fun n => Z.testbit (fold_left lfsr l2 (lfsr v b)) (Z.of_nat n) =
                                     Z.testbit (fold_left lfsr l2 (lfsr v (negb b))) (Z.of_nat n)) (seq 0 26))) as [HF|HF].
  - exfalso. apply Hne. bitwise n Hn. destruct (decide (n < 26)) as [Hn26|Hn26].
    + rewrite Forall_forall in HF. specialize (HF (Z.to_nat n) ltac:(apply elem_of_seq; lia)). by rewrite Z2Nat.id in HF by lia.
    + by rewrite !(high_bits _ 26) by lia.
  - apply not_Forall_Exists in HF; [|apply _]. apply Exists_exists in HF as (n & Hn & HF). apply elem_of_seq in Hn.
    exists (Z.of_nat n). split; [lia|]. rewrite !not32_bits by lia. cbn in HF.
    intros E. apply HF. by destruct (Z.testbit _ _), (Z.testbit _ _).
Qed.

Lemma land_ff_bits x r : 0 <= r < 8 -> Z.testbit (x .& 0xFF) r = Z.testbit x r.
Proof. intros Hr. rewrite land_ff, u8_bits by lia. by rewrite (proj2 (Z.ltb_lt r 8)) by lia. Qed.

(** The error correction bits are the last 26 bits of the page. *)
Lemma calcecc_bits c data i : page_sz c = 0x200 -> raw_page data -> Z.of_nat i < 4224 ->
  page_bit (sfcx_calcecc c data) i =
    if decide (Z.of_nat i < 0x1066) then page_bit data i else Z.testbit (ecc_value data) (Z.of_nat i - 0x1066).
Proof.
  intros Hc [Hl Hb] Hi. unfold sfcx_calcecc. rewrite Hc. set (val := ecc_value data). unfold page_bit.
  pose proof (div8_bound i Hi) as Hd. pose proof (Z.mod_pos_bound (Z.of_nat i) 8 ltac:(lia)) as Hr.
  pose proof (Z.div_mod (Z.of_nat i) 8 ltac:(lia)) as Hdm.
  set (j := Z.of_nat i / 8) in *. set (r := Z.of_nat i mod 8) in *. change (0x200 + 0xC) with 524.
  change (0x200 + 0xD) with 525. change (0x200 + 0xE) with 526. change (0x200 + 0xF) with 527.
  repeat (rewrite byte_at_set by (rewrite ?length_set_byte; lia)).
  repeat case_decide; try lia; rewrite ?land_ff_bits by lia; try done;
    try (rewrite Z.shiftr_spec by lia; f_equal; lia).
  - rewrite Z.lor_spec, u32_bits, Z.land_spec by lia. change 0x3F with (Z.ones 6).
    rewrite Z.testbit_ones_nonneg, Z.shiftl_spec, Z.testbit_neg_r by lia. rewrite andb_false_r, orb_false_l.
    rewrite (proj2 (Z.ltb_lt r 6)) by lia. rewrite andb_true_r. by replace 524 with j.
  - rewrite Z.lor_spec, u32_bits, Z.land_spec by lia. change 0x3F with (Z.ones 6).
    rewrite Z.testbit_ones_nonneg, Z.shiftl_spec, (proj2 (Z.ltb_ge r 6)), (proj2 (Z.ltb_lt r 32)) by lia.
    rewrite andb_false_r, orb_false_r. cbn [andb]. f_equal. lia.
Qed.

Lemma calcecc_raw c data : page_sz c = 0x200 -> raw_page data -> raw_page (sfcx_calcecc c data).
Proof.
  intros Hc [Hl Hb]. unfold sfcx_calcecc. split; [by rewrite !length_set_byte|].
  repeat apply set_byte_bytes; rewrite ?land_ff; auto using is_byte_u8.
Qed.

(** C24: the error correction bits find every error of one bit.  Computing them
    changes no other bit of the page, computing them again changes nothing, and
    if any one of the page's 4224 bits is inverted, in the data, the spare data
    or the error correction bits, recomputing them shows it. *)
Theorem ecc_finds_errors c data :
  page_sz c = 0x200 -> raw_page data ->
  let p := sfcx_calcecc c data in
  (forall i, Z.of_nat i < 0x1066 -> page_bit p i = page_bit data i) /\
  sfcx_calcecc c p = p /\
  (forall k, Z.of_nat k < 4224 -> sfcx_calcecc c (flip p k) <> flip p k).
Proof.
  intros Hc Hr p. pose proof (calcecc_raw c data Hc Hr) as Hp. fold p in Hp.
  assert (forall i, Z.of_nat i < 0x1066 -> page_bit p i = page_bit data i) as Hsame.
  { intros i Hi. unfold p. rewrite calcecc_bits by (done || lia). by rewrite decide_True. }
  assert (ecc_value p = ecc_value data) as Hev by (apply ecc_value_ext; [apply Hp|apply Hr|exact Hsame]).
  assert (forall i, Z.of_nat i < 4224 -> ~ Z.of_nat i < 0x1066 ->
    page_bit p i = Z.testbit (ecc_value p) (Z.of_nat i - 0x1066)) as Hecc.
  { intros i Hi Hn. rewrite Hev. unfold p. rewrite calcecc_bits by (done || lia). by rewrite decide_False. }
  clearbody p. split; [exact Hsame|]. clear Hsame Hev. split.
  - apply page_bits_inj; [by apply calcecc_raw|done|]. intros i Hi. rewrite calcecc_bits by done.
    case_decide; [done|]. by rewrite Hecc.
  - intros k Hk E. pose proof (flip_raw p k Hp Hk) as Hf.
    destruct (decide (Z.of_nat k < 0x1066)) as [Hcov|Hcov].
    + destruct (ecc_value_flip p k Hp Hcov) as (n & Hn & Hne). apply Hne.
      set (i := Z.to_nat (n + 0x1066)). assert (Z.of_nat i = n + 0x1066) as Hi by (unfold i; lia).
      pose proof (Hecc i ltac:(lia) ltac:(lia)) as E1. rewrite Hi in E1. replace (n + 0x1066 - 0x1066) with n in E1 by lia.
      pose proof (calcecc_bits c (flip p k) i Hc Hf ltac:(lia)) as E2. rewrite E, Hi in E2.
      rewrite decide_False in E2 by lia. replace (n + 0x1066 - 0x1066) with n in E2 by lia.
      rewrite (flip_bit p k i Hp Hk), decide_False in E2 by lia. rewrite <- E2, <- E1. reflexivity.
    + pose proof (calcecc_bits c (flip p k) k Hc Hf Hk) as E2. rewrite E, decide_False in E2 by exact Hcov.
      rewrite (flip_bit p k k Hp Hk), decide_True in E2 by reflexivity. rewrite (Hecc k Hk Hcov) in E2.
      rewrite (ecc_value_ext (flip p k) p) in E2; [by destruct (Z.testbit _ _)|apply Hf|apply Hp|].
      intros i Hi. rewrite (flip_bit p k i Hp Hk). apply decide_False. lia.
Qed.

Lemma zero_page_raw : raw_page (replicate 528 0).
Proof. split; [done|]. apply Forall_replicate. done. Qed.

Lemma ecc_finds_errors_demo :
  sfcx_calcecc demo_sfc (flip (sfcx_calcecc demo_sfc (replicate 528 0)) 100) <>
  flip (sfcx_calcecc demo_sfc (replicate 528 0)) 100.
Proof.
  pose proof (ecc_finds_errors demo_sfc (replicate 528 0) eq_refl zero_page_raw) as H.
  exact (proj2 (proj2 H) 100%nat ltac:(lia)).
Defined.

(** ** Geometry *)

(** The sizes fit together, and the configuration blocks are the last blocks of
    the part of the flash the file system may use. *)
Record geometry_ok (c : sfc_t) : Prop := {
  g_page : page_sz c = 0x200 /\ meta_sz c = 0x10 /\ page_sz_phys c = page_sz c + meta_sz c;
  g_block : 0 < pages_in_block c /\ pages_in_block c * page_sz c = block_sz c /\
            block_sz_phys c = pages_in_block c * page_sz_phys c;
  g_size : 0 < size_blocks c /\ size_blocks c * block_sz c = size_bytes c /\ size_pages c * page_sz c = size_bytes c /\
           size_bytes_phys c = size_pages c * page_sz_phys c /\ size_bytes_phys c < 2 ^ 31 /\
           size_mb c * 2 ^ 20 = size_bytes c;
  g_config : len_config c = CONFIG_BLOCKS * block_sz c /\
             addr_config c + len_config c = size_usable_fs c * block_sz c /\
             0 < addr_config c /\ addr_config c + len_config c < size_bytes c;
  g_meta : meta_type c = META_TYPE_0 \/ meta_type c = META_TYPE_1 \/ meta_type c = META_TYPE_2
}.

(** A large-block flash of 64 MB to 1 GB, or a small-block one. *)
Definition size_supported (config : Z) : Prop :=
  ((config .>> 17) .& 3 = 1 \/ (config .>> 17) .& 3 = 2) -> 2 <= (config .>> 4) .& 3 ->
  26 <= ((config .>> 19) .& 0x3) + ((config .>> 21) .& 0xF) + 0x17 <= 30.

Lemma land_3 x : x .& 3 = 0 \/ x .& 3 = 1 \/ x .& 3 = 2 \/ x .& 3 = 3.
Proof.
  assert (x .& 3 = x mod 4) as -> by (change 3 with (Z.ones 2); by rewrite Z.land_ones by lia).
  pose proof (Z.mod_pos_bound x 4). lia.
Qed.

(** The flashes by the generation of the controller (bits 17 and 18 of the
    configuration) and the size field (bits 4 and 5): refused with a code, or
    the kind of spare data, the bytes of a block, those of the flash, the
    blocks the file system may use and the small blocks of a large one.  A
    large-block flash has [2 ^ n] bytes for the exponent the register gives. *)
Record flash := mkFlash { fl_meta : Z; fl_block : Z; fl_bytes : Z; fl_usable : Z; fl_group : Z }.
Definition MB (n : Z) : Z := n * 2 ^ 20.
Definition KB (n : Z) : Z := n * 2 ^ 10.
Definition flash_table (n : Z) : list ((Z * Z) * (Z + flash)) :=
  [ ((0, 0), inl 1);
    ((0, 1), inr (mkFlash 0 (KB 16) (MB 16) 992 8)); ((0, 2), inr (mkFlash 0 (KB 16) (MB 32) 1984 8));
    ((0, 3), inr (mkFlash 0 (KB 16) (MB 64) 3968 8));
    ((1, 0), inl 2); ((2, 0), inr (mkFlash 1 (KB 16) (MB 16) 992 8));
    ((1, 1), inr (mkFlash 1 (KB 16) (MB 16) 992 8)); ((2, 1), inr (mkFlash 1 (KB 16) (MB 64) 3968 8));
    ((1, 2), inr (mkFlash 2 (KB 128) (2 ^ n) 480 1)); ((2, 2), inr (mkFlash 2 (KB 128) (2 ^ n) 480 1));
    ((1, 3), inr (mkFlash 2 (KB 256) (2 ^ n) 240 1)); ((2, 3), inr (mkFlash 2 (KB 256) (2 ^ n) 240 1));
    ((3, 0), inl 3); ((3, 1), inl 3); ((3, 2), inl 3); ((3, 3), inl 3) ].
Definition flash_of (config : Z) : option (Z + flash) :=
  let n := config / 2 ^ 19 mod 4 + config / 2 ^ 21 mod 16 + 23 in
  snd <$> List.find (fun x => bool_decide (x.1 = (config / 2 ^ 17 mod 4, config / 2 ^ 4 mod 4))) (flash_table n).

(** The driver's fields describe the flash. *)
Definition describes (f : flash) (c : sfc_t) : Prop :=
  meta_type c = fl_meta f /\ block_sz c = fl_block f /\ size_bytes c = fl_bytes f /\ size_usable_fs c = fl_usable f /\
  blocks_per_lg_block c = fl_group f.

Lemma field_div config k n : 0 <= k -> 0 <= n -> (config .>> k) .& (Z.ones n) = config / 2 ^ k mod 2 ^ n.
Proof. intros. by rewrite Z.land_ones, Z.shiftr_div_pow2 by lia. Qed.

(** The layout is that of a supported flash, or its error code says why not. *)
Lemma sfcx_layout_ok config c c' err :
  page_sz c = 0x200 -> meta_sz c = 0x10 -> page_sz_phys c = 0x210 -> initialized c = 0 ->
  sfcx_layout config c = (c', err) ->
  match err with
  | Some code => flash_of config = Some (inl code) /\ initialized c' = 0
  | None => exists f, flash_of config = Some (inr f) /\ (size_supported config ->
      describes f (sfcx_derive c' <| initialized := SFCX_INITIALIZED |>) /\
      geometry_ok (sfcx_derive c' <| initialized := SFCX_INITIALIZED |>))
  end.
Proof.
  intros H1 H2 H3 H4 E. destruct c as [i mt ps ms pp pb bs bp mb sb sp sg sl bl us ac lc].
  cbn [page_sz meta_sz page_sz_phys initialized] in *. subst ps ms pp i. unfold sfcx_layout in E.
  pose proof (land_3 (config .>> 17)) as Hma. pose proof (land_3 (config .>> 4)) as Hmi. unfold size_supported, flash_of.
  rewrite <- (field_div config 17 2 : _ -> _ -> _ = _ mod 4), <- (field_div config 4 2 : _ -> _ -> _ = _ mod 4),
    <- (field_div config 19 2 : _ -> _ -> _ = _ mod 4), <- (field_div config 21 4 : _ -> _ -> _ = _ mod 16) by lia.
  change (Z.ones 2) with 3. change (Z.ones 4) with 0xF.
  set (ma := (config .>> 17) .& 3) in *. set (mi := (config .>> 4) .& 3) in *.
  set (n := ((config .>> 19) .& 0x3) + ((config .>> 21) .& 0xF) + 0x17).
  unfold large_block in E. fold n in E. clearbody ma mi n.
  destruct Hma as [->|[->|[->| ->]]], Hmi as [->|[->|[->| ->]]]; cbn [Z.eqb orb Pos.eqb] in E;
    injection E as <- <-; try (split; reflexivity); (eexists; split; [reflexivity|]);
    intros Hsup; try (assert (n = 26 \/ n = 27 \/ n = 28 \/ n = 29 \/ n = 30) as [->|[->|[->|[->| ->]]]] by (specialize (Hsup ltac:(lia) ltac:(lia)); lia));
    clear; (split; [vm_compute; tauto|]); (split; [vm_compute; tauto..|vm_compute; tauto]).
Qed.

(** C40: [sfcx_init] sets the driver up once, for the flash that is there.
    Whatever the controller answers, it returns.  On an eMMC flash it returns 3
    and touches nothing; a driver already set up is left alone.  Otherwise
    writes, interrupts and DMA are off in the value written to the configuration
    register, and the generation and size fields of that register decide: the
    flashes that the table [flash_of] refuses are refused, with its code, and
    the driver stays uninitialised; every other flash is accepted and the driver
    marked as initialised, and then (for a large-block flash, from 64 MB to
    1 GB) block size, size, usable blocks and kind of spare data are those of
    the table and all of the driver's sizes fit together ([geometry_ok]). *)
Theorem sfcx_init_sets_up `{N : Nand D} revision (s : nst D) :
  let (ph, d0) := rd SFCX_PHISON (dev s) in
  let emmc := (0x70 <=? revision) && nz ph in
  let d1 := if 0x70 <=? revision then d0 else dev s in
  let (config, d2) := rd SFCX_CONFIG d1 in
  if emmc then sfcx_init revision s = Ok 3 (mkNst (sfc s) d1)
  else if nz (initialized (sfc s)) then sfcx_init revision s = Ok config (mkNst (sfc s) d2)
  else exists r c, sfcx_init revision s =
    Ok r (mkNst c (wr SFCX_CONFIG (config .& not32 (CONFIG_INT_EN .| CONFIG_WP_EN .| CONFIG_DMA_LEN)) d2)) /\
    match flash_of config with
    | Some (inl code) => r = code /\ initialized c = 0
    | Some (inr f) => r = config /\ initialized c = SFCX_INITIALIZED /\
        (size_supported config -> describes f c /\ geometry_ok c)
    | None => False
    end.
Proof.
  destruct (rd SFCX_PHISON (dev s)) as [ph d0] eqn:Eph. cbv zeta.
  destruct (rd SFCX_CONFIG (if 0x70 <=? revision then d0 else dev s)) as [config d2] eqn:Ec.
  assert ((if 112 <=? revision then v <- sfcx_readreg SFCX_PHISON ;; ret (nz v) else ret false) s =
    Ok ((112 <=? revision) && nz ph) (mkNst (sfc s) (if 112 <=? revision then d0 else dev s))) as E1.
  { destruct (112 <=? revision); [|by destruct s]. unfold bind, sfcx_readreg. by rewrite Eph. }
  unfold sfcx_init. mstep E1. set (s1 := mkNst (sfc s) (if 112 <=? revision then d0 else dev s)).
  destruct ((112 <=? revision) && nz ph) eqn:Eem; [reflexivity|].
  assert (sfcx_readreg SFCX_CONFIG s1 = Ok config (mkNst (sfc s) d2)) as E2 by (unfold sfcx_readreg, s1; cbn; by rewrite Ec).
  mstep E2. mstep (eq_refl (get (mkNst (sfc s) d2))). cbn [sfc].
  destruct (nz (initialized (sfc s))) eqn:Ei; [reflexivity|]. cbv zeta.
  mstep (eq_refl (sfcx_writereg SFCX_CONFIG (config .& not32 (CONFIG_INT_EN .| CONFIG_WP_EN .| CONFIG_DMA_LEN)) (mkNst (sfc s) d2))).
  match goal with |- context [sfcx_layout config ?c] => set (c0 := c) end.
  destruct (sfcx_layout config c0) as [c' err] eqn:El.
  pose proof (sfcx_layout_ok config c0 c' err eq_refl eq_refl eq_refl eq_refl El) as Hl.
  destruct err as [code|]; [destruct Hl as [-> Hl]|destruct Hl as (f & -> & Hl)]; eexists _, _; (split; [reflexivity|]); by split_and!.
Qed.

(** Block numbers and addresses.  With the sizes set up as above, the
    address of a block inside the flash is inside it, and converting it back
    gives the block, for logical and for raw addresses; an address anywhere in a
    block belongs to it. *)
Theorem block_address_roundtrip c b off :
  geometry_ok c -> 0 <= b < size_blocks c -> 0 <= off < block_sz c ->
  sfcx_address_to_block c (sfcx_block_to_address c b) = b /\
  sfcx_rawaddress_to_block c (sfcx_block_to_rawaddress c b) = b /\
  sfcx_address_to_block c (sfcx_block_to_address c b + off) = b /\
  0 <= sfcx_block_to_address c b + off < size_bytes c /\
  0 <= sfcx_block_to_rawaddress c b < size_bytes_phys c.
Proof.
  intros [(G1 & G2 & G3) (G4 & G5 & G6) (G7 & G8 & G9 & G10 & G11 & G12) _ _] Hb Hoff.
  assert (0 < block_sz c /\ 0 < block_sz_phys c) as [Hbs Hbp] by nia.
  assert (size_bytes_phys c = size_blocks c * block_sz_phys c) as Ep by nia.
  unfold sfcx_address_to_block, sfcx_block_to_address, sfcx_rawaddress_to_block, sfcx_block_to_rawaddress.
  rewrite !s32_id by nia. rewrite !Z.quot_div_nonneg by nia. split_and!; [..|nia|nia|nia|nia].
  - apply Z.div_mul. lia.
  - apply Z.div_mul. lia.
  - rewrite Z.add_comm, Z.div_add, Z.div_small by lia. lia.
Qed.

Lemma demo_geometry : geometry_ok demo_sfc.
Proof. split; vm_compute; tauto. Qed.

Lemma block_address_roundtrip_demo : sfcx_address_to_block demo_sfc (sfcx_block_to_address demo_sfc 1000) = 1000.
Proof. apply (block_address_roundtrip demo_sfc 1000 7 demo_geometry); cbn; lia. Defined.
