(* ===== verification/SfcxAccess.v ===== *)
(** * The NAND flash driver against the controller's documented behaviour

    What the driver relies on is stated as a class, [NandLaws]: the controller
    follows the abstract machine [nand], whose steps are the commands as
    [xenon_sfcx.h] describes them, and is busy for a bounded number of status
    reads.  Against any such controller, reading, writing and erasing do what
    their names say. *)
From S2P Require Import Prelude Bits Sfcx SfcxFacts.

(** ** The abstract machine *)

Record nand := mkNand {
  n_config : Z;
  n_addr : Z;                 (* flash address, and pointer into the page buffer *)
  n_data : Z;                 (* data register *)
  n_buf : list Z;             (* page buffer *)
  n_unlock : list Z;          (* unlock commands since the last other command, latest first *)
  n_flash : Z -> list Z;      (* raw pages, by the logical address of the page *)
  n_remap : Z -> Z;           (* where the controller finds a logical page *)
  n_block : Z -> Z -> bool    (* do two addresses belong to one block? *)
}.
#[global] Instance eta_nand : Eta nand := fun r =>
  mkNand (n_config r) (n_addr r) (n_data r) (n_buf r) (n_unlock r) (n_flash r) (n_remap r) (n_block r).

Definition erased_page : list Z := replicate 528 0xFF.

(** A little-endian word, and its bytes. *)
Definition le_word (b : list Z) : Z := get_be (nth 3 b 0) (nth 2 b 0) (nth 1 b 0) (nth 0 b 0).
Definition le_bytes (v : Z) : list Z := put_be (bswap32 v).

Definition writable (n : nand) : bool := nz (n_config n .& CONFIG_WP_EN).

(** Writing a page replaces what it held, whether or not it was erased. *)
Definition nand_command (cmd : Z) (n : nand) : nand :=
  let n' := n <| n_unlock := [] |> in
  if cmd =? PAGE_BUF_TO_REG then
    n' <| n_data := le_word (take 4 (drop (Z.to_nat (n_addr n)) (n_buf n))) |> <| n_addr := n_addr n + 4 |>
  else if cmd =? REG_TO_PAGE_BUF then
    n' <| n_buf := write_at (Z.to_nat (n_addr n)) (le_bytes (n_data n)) (n_buf n) |> <| n_addr := n_addr n + 4 |>
  else if cmd =? LOG_PAGE_TO_BUF then n' <| n_buf := n_flash n (n_remap n (n_addr n)) |>
  else if cmd =? PHY_PAGE_TO_BUF then n' <| n_buf := n_flash n (n_addr n) |>
  else if (cmd =? UNLOCK_CMD_0) || (cmd =? UNLOCK_CMD_1) then n <| n_unlock ::= cons cmd |>
  else if cmd =? WRITE_PAGE_TO_PHY then
    if writable n && bool_decide (take 2 (n_unlock n) = [UNLOCK_CMD_1; UNLOCK_CMD_0])
    then n' <| n_flash := fun a => if a =? n_addr n then n_buf n else n_flash n a |>
    else n'
  else if cmd =? BLOCK_ERASE then
    if writable n && bool_decide (take 2 (n_unlock n) = [UNLOCK_CMD_0; UNLOCK_CMD_1])
    then n' <| n_flash := fun a => if n_block n a (n_addr n) then erased_page else n_flash n a |>
    else n'
  else n'.

Definition nand_write (r v : Z) (n : nand) : nand :=
  if r =? SFCX_CONFIG then n <| n_config := v |>
  else if r =? SFCX_ADDRESS then n <| n_addr := v |>
  else if r =? SFCX_DATA then n <| n_data := v |>
  else if r =? SFCX_COMMAND then nand_command v n
  else n.

(** ** What the driver relies on *)

Class NandLaws (D : Type) {N : Nand D} := {
  view : D -> nand;
  busy : D -> nat;
  max_busy : nat;
  busy_bound : forall d, (busy d <= max_busy)%nat;
  wr_view : forall r v d, In r [SFCX_CONFIG; SFCX_STATUS; SFCX_COMMAND; SFCX_ADDRESS; SFCX_DATA] ->
    view (wr r v d) = nand_write r v (view d);
  rd_view : forall r d, view (snd (rd r d)) = view d;
  rd_config : forall d, fst (rd SFCX_CONFIG d) = n_config (view d);
  rd_data : forall d, fst (rd SFCX_DATA d) = n_data (view d);
  rd_status : forall d, nz (fst (rd SFCX_STATUS d) .& STATUS_BUSY) = (0 <? busy d)%nat;
  rd_busy : forall d, busy (snd (rd SFCX_STATUS d)) = pred (busy d)
}.

(** ** Running a piece of the driver *)

Section runs.
Context {D : Type} {N : Nand D} {L : NandLaws D}.

(** The driver has the sizes [c], the controller is the machine [n]. *)
Definition sees (s : nst D) (c : sfc_t) (n : nand) : Prop := sfc s = c /\ view (dev s) = n.

Lemma runs_write r v s c n (Q : unit -> nst D -> Prop) :
  sees s c n -> In r [SFCX_CONFIG; SFCX_STATUS; SFCX_COMMAND; SFCX_ADDRESS; SFCX_DATA] ->
  (forall s', sees s' c (nand_write r v n) -> Q tt s') -> runs (sfcx_writereg r v) s Q.
Proof.
  intros [E1 E2] Hr HQ. eexists _, _. split; [reflexivity|]. apply HQ. split; [done|]. cbn. by rewrite wr_view, E2.
Qed.

Lemma runs_read r s c n (Q : Z -> nst D -> Prop) :
  sees s c n -> (forall s', sees s' c n -> Q (fst (rd r (dev s))) s') -> runs (sfcx_readreg r) s Q.
Proof.
  intros [E1 E2] HQ. unfold runs, sfcx_readreg. pose proof (rd_view r (dev s)) as Hv.
  destruct (rd r (dev s)) as [v d']. cbn in *. eexists _, _. split; [reflexivity|]. apply HQ. split; [done|]. cbn. congruence.
Qed.

Lemma runs_wait_n k : forall s c n (Q : Z -> nst D -> Prop),
  sees s c n -> (busy (dev s) < k)%nat ->
  (forall v s', sees s' c n -> Q v s') -> runs (wait_busy k) s Q.
Proof.
  induction k as [|k IH]; intros s c n Q Hs Hb HQ; [lia|]. cbn [wait_busy]. apply runs_bind.
  unfold runs at 1, sfcx_readreg. pose proof (rd_status (dev s)) as Hst. pose proof (rd_busy (dev s)) as Hbu.
  pose proof (rd_view SFCX_STATUS (dev s)) as Hv. destruct (rd SFCX_STATUS (dev s)) as [v d']. cbn [fst snd] in *.
  eexists _, _. split; [reflexivity|].
  assert (sees (mkNst (sfc s) d') c n) as Hs' by (destruct Hs as [E1 E2]; split; [done|cbn; congruence]).
  rewrite Hst. destruct (Nat.ltb_spec 0 (busy (dev s))).
  - apply (IH _ c n); [done|cbn; lia|done].
  - apply runs_ret. by apply HQ.
Qed.

Lemma runs_wait fuel s c n (Q : Z -> nst D -> Prop) :
  sees s c n -> (max_busy < fuel)%nat -> (forall v s', sees s' c n -> Q v s') -> runs (wait_busy fuel) s Q.
Proof. intros Hs Hf. apply runs_wait_n; [done|]. pose proof (busy_bound (dev s)). lia. Qed.
End runs.

(** ** Bytes through the data register *)

Lemma bytes4 (b : list Z) : length b = 4%nat -> exists b0 b1 b2 b3, b = [b0; b1; b2; b3].
Proof. destruct b as [|b0 [|b1 [|b2 [|b3 [|? ?]]]]]; try done. intros _. by exists b0, b1, b2, b3. Qed.

Lemma le_bytes_word b : length b = 4%nat -> page_bytes b -> le_bytes (le_word b) = b.
Proof.
  intros Hl Hb. destruct (bytes4 b Hl) as (b0 & b1 & b2 & b3 & ->). unfold page_bytes in Hb.
  repeat (apply Forall_cons in Hb as [? Hb]). unfold le_bytes, le_word. cbn [nth].
  rewrite bswap_get_be by done. by apply put_get_be.
Qed.

Lemma take4_word data i : (i + 4 <= length data)%nat -> page_bytes data ->
  le_bytes (bswap32 (word_at data (Z.of_nat i))) = take 4 (drop i data).
Proof.
  intros Hl Hb. assert (exists b0 b1 b2 b3, take 4 (drop i data) = [b0; b1; b2; b3]) as (b0 & b1 & b2 & b3 & E)
    by (apply bytes4; rewrite length_take, length_drop; lia).
  assert (page_bytes [b0; b1; b2; b3]) as Hbb by (rewrite <- E; by apply Forall_take, Forall_drop).
  assert (forall j b, [b0; b1; b2; b3] !! j = Some b -> byte_at data (Z.of_nat i + Z.of_nat j) = b) as Hn.
  { intros j b Hj. rewrite <- E in Hj. rewrite lookup_take_Some, lookup_drop in Hj. destruct Hj as [Hj Hj4].
    unfold byte_at. replace (Z.to_nat (Z.of_nat i + Z.of_nat j)) with (i + j)%nat by lia. by rewrite nth_lookup, Hj. }
  unfold page_bytes in Hbb. repeat (apply Forall_cons in Hbb as [? Hbb]). unfold word_at.
  rewrite <- (Z.add_0_r (Z.of_nat i)) at 1. change 0 with (Z.of_nat 0) at 1. change 1 with (Z.of_nat 1). change 2 with (Z.of_nat 2).
  change 3 with (Z.of_nat 3). rewrite (Hn 0%nat b0), (Hn 1%nat b1), (Hn 2%nat b2), (Hn 3%nat b3) by reflexivity.
  unfold le_bytes. rewrite !bswap_get_be by done. rewrite E. by apply put_get_be.
Qed.

Section loops.
Context {D : Type} {N : Nand D} {L : NandLaws D}.

(** What moving data through the page buffer leaves alone. *)
Definition same_flash (n n' : nand) : Prop :=
  n_config n' = n_config n /\ n_flash n' = n_flash n /\ n_remap n' = n_remap n /\ n_block n' = n_block n.

Lemma read_words_runs k : forall (s : nst D) c n data i,
  sees s c n -> n_addr n = Z.of_nat i -> (i + 4 * k <= length (n_buf n))%nat -> page_bytes (n_buf n) ->
  (i + 4 * k <= length data)%nat ->
  runs (read_words k data (Z.of_nat i)) s (fun data' s' =>
    data' = take i data ++ take (4 * k) (drop i (n_buf n)) ++ drop (i + 4 * k) data /\
    exists n', sees s' c n' /\ same_flash n n' /\ n_buf n' = n_buf n).
Proof.
  induction k as [|k IH]; intros s c n data i Hs Ha Hb Hby Hd; cbn [read_words].
  - apply runs_ret. split; [|exists n; by split_and!]. rewrite Nat.mul_0_r, take_0, Nat.add_0_r. cbn. by rewrite take_drop.
  - apply runs_bind. eapply runs_write; [exact Hs|cbn; tauto|]. intros s1 Hs1.
    apply runs_bind. eapply runs_read; [exact Hs1|]. intros s2 Hs2. rewrite rd_data. destruct Hs1 as [_ ->].
    set (n1 := nand_write SFCX_COMMAND PAGE_BUF_TO_REG n) in *.
    assert (n_data n1 = le_word (take 4 (drop i (n_buf n)))) as Edata
      by (change (n_data n1) with (le_word (take 4 (drop (Z.to_nat (n_addr n)) (n_buf n)))); by rewrite Ha, Nat2Z.id).
    assert (n_buf n1 = n_buf n /\ n_addr n1 = n_addr n + 4 /\ same_flash n n1) as (Eb & Ea & Esame) by done.
    assert (length (take 4 (drop i (n_buf n))) = 4%nat) as Hl4 by (rewrite length_take, length_drop; lia).
    rewrite Nat2Z.id, Edata. change (put_be (bswap32 ?v)) with (le_bytes v).
    rewrite le_bytes_word by (done || by apply Forall_take, Forall_drop). clearbody n1.
    replace (Z.of_nat i + 4) with (Z.of_nat (i + 4)) by lia.
    set (b := take 4 (drop i (n_buf n))) in *. set (data1 := write_at i b data).
    assert (length data1 = length data) as Hl1 by (apply length_write_at; lia).
    eapply runs_mono; [|apply (IH s2 c n1 data1 (i + 4)%nat Hs2); [lia|rewrite Eb; lia|by rewrite Eb|lia]].
    intros data' s' (-> & n' & Hs' & Hsame & Hbuf). split.
    + pose proof (take_write_at i b data ltac:(lia)) as Htk. rewrite Hl4 in Htk.
      rewrite Eb. unfold data1. rewrite Htk, drop_write_at by lia. rewrite <- app_assoc. f_equal. rewrite app_assoc. f_equal; [|f_equal; lia].
      unfold b. rewrite <- drop_drop. replace (4 * S k)%nat with (4 + 4 * k)%nat by lia. by rewrite take_take_drop.
    + exists n'. split; [done|]. split; [unfold same_flash in *; intuition congruence|congruence].
Qed.

Lemma write_words_runs k : forall (s : nst D) c n data i,
  sees s c n -> n_addr n = Z.of_nat i -> (i + 4 * k <= length (n_buf n))%nat -> page_bytes data ->
  (i + 4 * k <= length data)%nat ->
  runs (write_words k data (Z.of_nat i)) s (fun _ s' =>
    exists n', sees s' c n' /\ same_flash n n' /\
      n_buf n' = take i (n_buf n) ++ take (4 * k) (drop i data) ++ drop (i + 4 * k) (n_buf n)).
Proof.
  induction k as [|k IH]; intros s c n data i Hs Ha Hb Hby Hd; cbn [write_words].
  - apply runs_ret. exists n. split_and!; [done|by split_and!|]. rewrite Nat.mul_0_r, take_0, Nat.add_0_r. cbn. by rewrite take_drop.
  - apply runs_bind. eapply runs_write; [exact Hs|cbn; tauto|]. intros s1 Hs1.
    apply runs_bind. eapply runs_write; [exact Hs1|cbn; tauto|]. intros s2 Hs2.
    set (n1 := nand_write SFCX_COMMAND REG_TO_PAGE_BUF _) in *.
    set (b := take 4 (drop i data)). assert (length b = 4%nat) as Hl4 by (unfold b; rewrite length_take, length_drop; lia).
    assert (n_buf n1 = write_at i b (n_buf n)) as Eb.
    { change (n_buf n1) with (write_at (Z.to_nat (n_addr n)) (le_bytes (bswap32 (word_at data (Z.of_nat i)))) (n_buf n)).
      rewrite Ha, Nat2Z.id. by rewrite take4_word by (done || lia). }
    assert (n_addr n1 = n_addr n + 4 /\ same_flash n n1) as (Ea & Esame) by done. clearbody n1.
    replace (Z.of_nat i + 4) with (Z.of_nat (i + 4)) by lia.
    assert (length (n_buf n1) = length (n_buf n)) as Hl1 by (rewrite Eb; apply length_write_at; lia).
    eapply runs_mono; [|apply (IH s2 c n1 data (i + 4)%nat Hs2); [lia|lia|done|lia]].
    intros _ s' (n' & Hs' & Hsame & Ebuf). exists n'. split; [done|]. split; [unfold same_flash in *; intuition congruence|].
    pose proof (take_write_at i b (n_buf n) ltac:(lia)) as Htk. rewrite Hl4 in Htk.
    rewrite Ebuf, Eb, Htk, drop_write_at by lia.
    rewrite <- app_assoc. f_equal. rewrite app_assoc. f_equal; [|f_equal; lia].
    unfold b. rewrite <- drop_drop. replace (4 * S k)%nat with (4 + 4 * k)%nat by lia. by rewrite take_take_drop.
Qed.
End loops.

(** ** Pages *)

Lemma wp_set x : nz ((x .| CONFIG_WP_EN) .& CONFIG_WP_EN) = true.
Proof.
  unfold nz. destruct (Z.eqb_spec ((x .| CONFIG_WP_EN) .& CONFIG_WP_EN) 0) as [E|]; [|done].
  apply (f_equal (fun z => Z.testbit z 3)) in E. rewrite Z.land_spec, Z.lor_spec, Z.bits_0 in E.
  change (Z.testbit CONFIG_WP_EN 3) with true in E. by rewrite orb_true_r in E.
Qed.
Lemma wp_clear x : nz ((x .& not32 CONFIG_WP_EN) .& CONFIG_WP_EN) = false.
Proof.
  unfold nz. rewrite <- Z.land_assoc. change (not32 CONFIG_WP_EN .& CONFIG_WP_EN) with 0. by rewrite Z.land_0_r.
Qed.

Section pages.
Context {D : Type} {N : Nand D} {L : NandLaws D} (fuel : nat) (Hfuel : (max_busy < fuel)%nat).
Context (c : sfc_t) (Hps : page_sz c = 0x200) (Hpp : page_sz_phys c = 0x210).

(** A controller whose pages are pages. *)
Definition nand_ok (n : nand) : Prop := length (n_buf n) = 528%nat /\ forall a, raw_page (n_flash n a).

(** Run the next register access of the goal. *)
Local Ltac reg := apply runs_bind;
  first [ eapply runs_write; [eassumption|cbn; tauto|]; intros ? ?
        | eapply runs_read; [eassumption|]; intros ? ?
        | eapply runs_wait; [eassumption|exact Hfuel|]; intros ? ? ?
        | apply runs_get ].

Lemma read_page_runs (s : nst D) n data address raw :
  sees s c n -> nand_ok n -> is_word address -> ((if raw : bool then 528 else 512) <= length data)%nat ->
  runs (sfcx_read_page fuel data address raw) s (fun r s' =>
    snd r = (if raw then n_flash n address ++ drop 528 data
             else take 512 (n_flash n (n_remap n address)) ++ drop 512 data) /\
    exists n', sees s' c n' /\ same_flash n n' /\ nand_ok n').
Proof.
  intros Hs [Hbuf Hraw] Ha32 Hd. unfold sfcx_read_page. rewrite (u32_id address Ha32). do 7 reg.
  match goal with H : sees ?s6 c ?n0 |- runs _ ?s6 _ => set (n1 := n0) in *; rename H into H6 end.
  rewrite (proj1 H6), Hps, Hpp.
  assert (same_flash n n1 /\ n_addr n1 = Z.of_nat 0) as [Hsame Ha] by (by destruct raw).
  set (page := if raw then n_flash n address else n_flash n (n_remap n address)).
  assert (n_buf n1 = page) as Hb1 by (by destruct raw). clearbody n1.
  assert (raw_page page) as [Hpl Hpb] by (unfold page; destruct raw; apply Hraw).
  set (k := if raw then 132%nat else 128%nat).
  assert (steps4 (if raw then 0x210 else 0x200) = k) as -> by (by destruct raw).
  assert (4 * k = if raw then 528 else 512)%nat as Hk by (by destruct raw).
  apply runs_bind. eapply runs_mono; [|apply (read_words_runs k _ c n1 data 0 H6 Ha);
    [rewrite Hb1, Hk; destruct raw; lia|by rewrite Hb1|rewrite Hk; destruct raw; lia]].
  intros data' s6 (-> & n' & Hs' & Hsame' & Hbuf'). apply runs_ret. cbn [snd]. split.
  - rewrite Hb1, Nat.add_0_l, Hk, take_0, drop_0. cbn [app]. unfold page. destruct raw; [|done].
    by rewrite (take_ge (n_flash n address)) by (destruct (Hraw address); lia).
  - exists n'. unfold same_flash in *. split; [done|]. split; [intuition congruence|].
    split; [rewrite Hbuf', Hb1; lia|]. intros a. destruct Hsame as (_ & Ef & _), Hsame' as (_ & Ef' & _).
    by rewrite Ef', Ef.
Qed.

(** The flash with the page at [address] replaced. *)
Definition put_page (n : nand) (address : Z) (page : list Z) : Z -> list Z :=
  fun a => if a =? address then page else n_flash n a.

(** The unlock sequences, and what they allow. *)
Lemma write_unlocked n address v : writable n = true ->
  let n' := nand_write SFCX_CONFIG (v .& not32 CONFIG_WP_EN)
    (nand_write SFCX_COMMAND WRITE_PAGE_TO_PHY (nand_write SFCX_COMMAND UNLOCK_CMD_1
      (nand_write SFCX_COMMAND UNLOCK_CMD_0 (nand_write SFCX_ADDRESS address n)))) in
  n_flash n' = put_page n address (n_buf n) /\ n_buf n' = n_buf n /\ n_remap n' = n_remap n /\ n_block n' = n_block n /\
  writable n' = false.
Proof.
  intros Hw n'. assert (n' = n <| n_addr := address |> <| n_unlock := [] |>
    <| n_flash := put_page n address (n_buf n) |> <| n_config := v .& not32 CONFIG_WP_EN |>) as ->; [|split_and!; try done; apply wp_clear].
  unfold n', nand_write at 1. cbn [Z.eqb SFCX_CONFIG]. unfold nand_write at 1.
  change (SFCX_COMMAND =? SFCX_CONFIG) with false. change (SFCX_COMMAND =? SFCX_ADDRESS) with false.
  change (SFCX_COMMAND =? SFCX_DATA) with false. change (SFCX_COMMAND =? SFCX_COMMAND) with true. cbn iota.
  set (nu := nand_write SFCX_COMMAND UNLOCK_CMD_1 _).
  assert (writable nu = true) as Hwu by exact Hw.
  assert (take 2 (n_unlock nu) = [UNLOCK_CMD_1; UNLOCK_CMD_0]) as Hu by done.
  assert (nand_command WRITE_PAGE_TO_PHY nu = nu <| n_unlock := [] |>
    <| n_flash := fun a => if a =? n_addr nu then n_buf nu else n_flash nu a |>) as ->; [|done].
  unfold nand_command. cbn [Z.eqb WRITE_PAGE_TO_PHY PAGE_BUF_TO_REG REG_TO_PAGE_BUF LOG_PAGE_TO_BUF PHY_PAGE_TO_BUF UNLOCK_CMD_0 UNLOCK_CMD_1 Pos.eqb orb].
  rewrite Hwu, bool_decide_true by exact Hu. done.
Qed.

Lemma write_page_runs (s : nst D) n data address :
  sees s c n -> nand_ok n -> is_word address -> (528 <= length data)%nat -> page_bytes data ->
  runs (sfcx_write_page fuel data address) s (fun _ s' =>
    exists n', sees s' c n' /\ nand_ok n' /\ n_flash n' = put_page n address (take 528 data) /\
      n_remap n' = n_remap n /\ n_block n' = n_block n /\ writable n' = false).
Proof.
  intros Hs [Hbuf Hraw] Ha32 Hd Hby. unfold sfcx_write_page. rewrite (u32_id address Ha32). do 5 reg.
  match goal with H : sees ?s6 c ?n0 |- runs _ ?s6 _ => set (n1 := n0) in *; rename H into Hn1 end.
  rewrite (proj1 Hn1), Hpp. change (steps4 0x210) with 132%nat.
  assert (n_flash n1 = n_flash n /\ n_remap n1 = n_remap n /\ n_block n1 = n_block n /\ n_buf n1 = n_buf n /\ n_addr n1 = Z.of_nat 0)
    as (F1 & R1 & B1 & U1 & A1) by done.
  assert (writable n1 = true) as W1 by apply wp_set. clearbody n1.
  apply runs_bind. eapply runs_mono; [|apply (write_words_runs 132 _ c n1 data 0 Hn1 A1); [rewrite U1; lia|done|lia]].
  intros _ s6 (n2 & Hn2 & (C2 & F2 & R2 & B2) & U2). change (4 * 132)%nat with 528%nat in U2.
  rewrite U1, Nat.add_0_l, drop_0, take_0, drop_ge, app_nil_r in U2 by lia. cbn [app] in U2.
  assert (writable n2 = true) as W2 by (unfold writable in *; by rewrite C2).
  do 9 reg. apply runs_ret.
  match goal with H : sees ?s6 c ?n0 |- context [sees ?s6 c _] => rename H into Hn3 end.
  match type of Hn3 with context [nand_write SFCX_CONFIG (?v .& _)] =>
    destruct (write_unlocked n2 address v W2) as (F3 & U3 & R3 & B3 & W3) end.
  eexists. split; [exact Hn3|].
  assert (forall a, put_page n2 address (n_buf n2) a = put_page n address (take 528 data) a) as Hf
    by (intros a; unfold put_page; by rewrite U2, F2, F1).
  split; [split; [rewrite U3, U2, length_take; lia|]|split_and!; [|congruence..|done]].
  - intros a. rewrite F3, Hf. unfold put_page. destruct (a =? address); [|apply Hraw].
    split; [rewrite length_take; lia|by apply Forall_take].
  - rewrite F3. unfold put_page. by rewrite U2, F2, F1.
Qed.
Lemma erase_unlocked n address v : writable n = true ->
  let n' := nand_write SFCX_CONFIG (v .& not32 CONFIG_WP_EN) (nand_write SFCX_STATUS 0xFF
    (nand_write SFCX_COMMAND BLOCK_ERASE (nand_write SFCX_COMMAND UNLOCK_CMD_0
      (nand_write SFCX_COMMAND UNLOCK_CMD_1 (nand_write SFCX_ADDRESS address n))))) in
  n_flash n' = (fun a => if n_block n a address then erased_page else n_flash n a) /\
  n_buf n' = n_buf n /\ n_remap n' = n_remap n /\ n_block n' = n_block n /\ writable n' = false.
Proof.
  intros Hw n'. assert (n' = n <| n_addr := address |> <| n_unlock := [] |>
    <| n_flash := fun a => if n_block n a address then erased_page else n_flash n a |>
    <| n_config := v .& not32 CONFIG_WP_EN |>) as ->; [|split_and!; try done; apply wp_clear].
  unfold n', nand_write at 1. cbn [Z.eqb SFCX_CONFIG]. unfold nand_write at 1.
  cbn [Z.eqb SFCX_CONFIG SFCX_STATUS SFCX_ADDRESS SFCX_DATA SFCX_COMMAND Pos.eqb]. unfold nand_write at 1.
  change (SFCX_COMMAND =? SFCX_CONFIG) with false. change (SFCX_COMMAND =? SFCX_ADDRESS) with false.
  change (SFCX_COMMAND =? SFCX_DATA) with false. change (SFCX_COMMAND =? SFCX_COMMAND) with true. cbn iota.
  set (nu := nand_write SFCX_COMMAND UNLOCK_CMD_0 _).
  assert (writable nu = true) as Hwu by exact Hw.
  assert (take 2 (n_unlock nu) = [UNLOCK_CMD_0; UNLOCK_CMD_1]) as Hu by done.
  assert (nand_command BLOCK_ERASE nu = nu <| n_unlock := [] |>
    <| n_flash := fun a => if n_block nu a (n_addr nu) then erased_page else n_flash nu a |>) as ->; [|done].
  unfold nand_command. cbn [Z.eqb WRITE_PAGE_TO_PHY BLOCK_ERASE PAGE_BUF_TO_REG REG_TO_PAGE_BUF LOG_PAGE_TO_BUF PHY_PAGE_TO_BUF UNLOCK_CMD_0 UNLOCK_CMD_1 Pos.eqb orb].
  rewrite Hwu, bool_decide_true by exact Hu. done.
Qed.

Lemma erased_raw : raw_page erased_page.
Proof. split; [done|]. by apply Forall_replicate. Qed.

Lemma erase_block_runs (s : nst D) n address :
  sees s c n -> nand_ok n -> is_word address ->
  runs (sfcx_erase_block fuel address) s (fun _ s' =>
    exists n', sees s' c n' /\ nand_ok n' /\
      n_flash n' = (fun a => if n_block n a address then erased_page else n_flash n a) /\
      n_remap n' = n_remap n /\ n_block n' = n_block n /\ writable n' = false).
Proof.
  intros Hs [Hbuf Hraw] Ha32. unfold sfcx_erase_block. rewrite (u32_id address Ha32). do 2 reg.
  match goal with H : sees ?s6 c ?n0 |- runs _ ?s6 _ => set (n1 := n0) in *; rename H into Hn1 end.
  assert (n_flash n1 = n_flash n /\ n_remap n1 = n_remap n /\ n_block n1 = n_block n /\ n_buf n1 = n_buf n)
    as (F1 & R1 & B1 & U1) by done.
  assert (writable n1 = true) as W1 by apply wp_set. clearbody n1. reg.
  match goal with H : sees ?s6 c ?n0 |- runs _ ?s6 _ => change n0 with n1 in H end.
  do 11 reg. apply runs_ret.
  match goal with H : sees ?s6 c ?n0 |- context [sees ?s6 c _] => rename H into Hn3 end.
  match type of Hn3 with context [nand_write SFCX_CONFIG (?v .& _)] =>
    destruct (erase_unlocked n1 address v W1) as (F3 & U3 & R3 & B3 & W3) end.
  eexists. split; [exact Hn3|]. rewrite F1, B1 in F3.
  split; [split; [rewrite U3, U1; lia|]|split_and!; [exact F3|congruence..|done]].
  intros a. rewrite F3. destruct (n_block n a address); [apply erased_raw|apply Hraw].
Qed.
(** ** Blocks *)

(** The [j]-th page of a raw block image, and its address. *)
Definition image_page (data : list Z) (j : nat) : list Z := take 528 (drop (528 * j) data).
Definition page_addr (address : Z) (j : nat) : Z := address + Z.of_nat j * 512.

(** The flash with the pages [p] to [p + k - 1] of the block at [address] taken from [data]. *)
Fixpoint put_pages (f : Z -> list Z) (data : list Z) (address : Z) (p k : nat) : Z -> list Z :=
  match k with
  | O => f
  | S k => put_pages (fun a => if a =? page_addr address p then image_page data p else f a) data address (S p) k
  end.

Lemma put_pages_other k : forall f data address p a,
  (forall j, (p <= j < p + k)%nat -> a <> page_addr address j) -> put_pages f data address p k a = f a.
Proof.
  induction k as [|k IH]; intros f data address p a H; [done|]. cbn. rewrite IH by (intros; apply H; lia).
  by rewrite (proj2 (Z.eqb_neq _ _)) by (apply H; lia).
Qed.

Lemma put_pages_page k : forall f data address p j, (p <= j < p + k)%nat ->
  put_pages f data address p k (page_addr address j) = image_page data j.
Proof.
  induction k as [|k IH]; intros f data address p j H; [lia|]. cbn. destruct (decide (j = p)) as [->|Hne].
  - rewrite put_pages_other by (unfold page_addr; lia). by rewrite Z.eqb_refl.
  - apply IH. lia.
Qed.

Lemma write_pages_runs k : forall (s : nst D) n data address p status,
  sees s c n -> nand_ok n -> (528 * (p + k) <= length data)%nat -> page_bytes data ->
  0 <= address -> page_addr address (p + k) < 2 ^ 31 ->
  runs (write_pages fuel k data address (Z.of_nat p) status) s (fun _ s' =>
    exists n', sees s' c n' /\ nand_ok n' /\ n_flash n' = put_pages (n_flash n) data address p k /\
      n_remap n' = n_remap n /\ n_block n' = n_block n).
Proof.
  induction k as [|k IH]; intros s n data address p status Hs Hok Hd Hby Ha Hb; cbn [write_pages].
  - apply runs_ret. by exists n.
  - reg. rewrite (proj1 Hs), Hps, Hpp. unfold page_addr in Hb.
    replace (Z.to_nat (Z.of_nat p * 0x210)) with (528 * p)%nat by lia.
    assert (s32 (address + Z.of_nat p * 0x200) = page_addr address p) as -> by (apply s32_id; unfold page_addr; lia).
    apply runs_bind. eapply runs_mono; [|apply (write_page_runs s n (drop (528 * p) data) (page_addr address p) Hs Hok);
      [unfold is_word, page_addr; lia|rewrite length_drop; lia|by apply Forall_drop]].
    intros st1 s1 (n1 & Hn1 & Hok1 & F1 & R1 & B1 & _). replace (Z.of_nat p + 1) with (Z.of_nat (S p)) by lia.
    eapply runs_mono; [|apply (IH s1 n1 data address (S p) _ Hn1 Hok1); [lia|done|done|unfold page_addr; lia]].
    intros st s2 (n2 & Hn2 & Hok2 & F2 & R2 & B2). exists n2. split_and!; [done|done| |congruence|congruence].
    rewrite F2, F1. reflexivity.
Qed.

(** The raw pages [p] to [p + k - 1] of the block at [address], one after the other. *)
Definition flash_pages (f : Z -> list Z) (address : Z) (p k : nat) : list Z :=
  concat ((fun j => f (page_addr address j)) <$> seq p k).

Lemma read_pages_runs k : forall (s : nst D) n data address p status,
  sees s c n -> nand_ok n -> (528 * (p + k) <= length data)%nat ->
  0 <= address -> page_addr address (p + k) < 2 ^ 31 ->
  runs (read_pages fuel k data address (Z.of_nat p) true status) s (fun r s' =>
    snd r = take (528 * p) data ++ flash_pages (n_flash n) address p k ++ drop (528 * (p + k)) data /\
    exists n', sees s' c n' /\ nand_ok n' /\ same_flash n n').
Proof.
  induction k as [|k IH]; intros s n data address p status Hs Hok Hd Ha Hb; cbn [read_pages].
  - apply runs_ret. unfold flash_pages. cbn [snd seq fmap list_fmap concat app]. rewrite Nat.add_0_r, take_drop. split; [done|]. exists n. by split_and!.
  - reg. rewrite (proj1 Hs), Hps, Hpp. unfold page_addr in Hb.
    replace (Z.to_nat (Z.of_nat p * 0x210)) with (528 * p)%nat by lia.
    assert (s32 (address + Z.of_nat p * 0x200) = page_addr address p) as -> by (apply s32_id; unfold page_addr; lia).
    apply runs_bind. eapply runs_mono; [|apply (read_page_runs s n (drop (528 * p) data) (page_addr address p) true Hs Hok);
      [unfold is_word, page_addr; lia|rewrite length_drop; lia]].
    intros [st tl] s1 (Etl & n1 & Hn1 & Hsame1 & Hok1). cbn [snd] in Etl. replace (Z.of_nat p + 1) with (Z.of_nat (S p)) by lia.
    set (pg := n_flash n (page_addr address p)) in *. assert (length pg = 528%nat) as Hpg by (unfold pg; destruct Hok as [_ Hr]; destruct (Hr (page_addr address p)); lia).
    set (data1 := take (528 * p) data ++ tl).
    assert (data1 = take (528 * p) data ++ pg ++ drop (528 * S p) data) as E1.
    { unfold data1. rewrite Etl, drop_drop. do 3 f_equal. lia. }
    assert (length data1 = length data) as Hl1 by (rewrite E1, !length_app, Hpg, length_take, length_drop; lia).
    eapply runs_mono; [|apply (IH s1 n1 data1 address (S p) _ Hn1 Hok1); [lia|done|unfold page_addr; lia]].
    intros r s2 (Er & n2 & Hn2 & Hok2 & Hsame2). split; [|exists n2; split_and!; [done|done|unfold same_flash in *; intuition congruence]].
    rewrite Er. destruct Hsame1 as (_ & F1 & _). rewrite F1, E1. unfold flash_pages. cbn [seq fmap list_fmap concat]. fold pg.
    rewrite (app_assoc (take _ data) pg). rewrite take_app_length' by (rewrite length_app, length_take; lia).
    rewrite drop_app_ge by (rewrite length_app, length_take; lia). rewrite length_app, length_take, drop_drop, Hpg.
    rewrite <- !app_assoc. do 4 f_equal. lia.
Qed.
Lemma image_concat data : forall k p, (528 * (p + k) <= length data)%nat ->
  concat (image_page data <$> seq p k) = take (528 * k) (drop (528 * p) data).
Proof.
  induction k as [|k IH]; intros p H; [by rewrite Nat.mul_0_r, take_0|]. cbn [seq fmap list_fmap concat].
  rewrite IH by lia. unfold image_page. replace (528 * S p)%nat with (528 * p + 528)%nat by lia.
  rewrite <- drop_drop. replace (528 * S k)%nat with (528 + 528 * k)%nat by lia. by rewrite take_take_drop.
Qed.

(** C23: what is written to a block is read back.  On any controller that
    follows its documentation, with enough patience for its busy times, erasing
    a block, writing a raw image to it and reading it raw returns, and delivers
    the image byte for byte; pages of other blocks keep their contents. *)
Theorem flash_block_roundtrip (s : nst D) n data buf address :
  sees s c n -> nand_ok n -> page_bytes data -> 0 <= pages_in_block c ->
  Z.of_nat (length data) = pages_in_block c * 528 -> Z.of_nat (length buf) = pages_in_block c * 528 ->
  0 <= address -> address + pages_in_block c * 512 < 2 ^ 31 ->
  runs (sfcx_erase_block fuel address ;; sfcx_write_block fuel data address ;; sfcx_read_block fuel buf address true) s
    (fun r s' => snd r = data /\ exists n', sees s' c n' /\ nand_ok n' /\
      forall a, n_block n a address = false -> (forall j, 0 <= j < pages_in_block c -> a <> address + j * 512) ->
        n_flash n' a = n_flash n a).
Proof.
  intros Hs Hok Hby Hpb Hd Hbuf Ha Hend. set (k := Z.to_nat (pages_in_block c)).
  apply runs_bind. eapply runs_mono; [|apply (erase_block_runs s n address Hs Hok); unfold is_word; lia].
  intros st1 s1 (n1 & Hn1 & Hok1 & F1 & _ & _ & _). apply runs_bind. unfold sfcx_write_block. reg. rewrite (proj1 Hn1). fold k.
  eapply runs_mono; [|apply (write_pages_runs k s1 n1 data address 0 0 Hn1 Hok1); [lia|done|done|unfold page_addr; lia]].
  intros st2 s2 (n2 & Hn2 & Hok2 & F2 & _). unfold sfcx_read_block. reg. rewrite (proj1 Hn2). fold k.
  eapply runs_mono; [|apply (read_pages_runs k s2 n2 buf address 0 0 Hn2 Hok2); [lia|done|unfold page_addr; lia]].
  intros r s3 (Er & n3 & Hn3 & Hok3 & Hsame). split.
  - rewrite Er, Nat.mul_0_r, take_0, drop_ge, app_nil_r by lia. cbn [app]. unfold flash_pages.
    transitivity (concat (image_page data <$> seq 0 k)).
    + f_equal. apply list_fmap_ext. intros i x Hi. apply lookup_seq in Hi as [-> Hi]. rewrite F2. apply put_pages_page. lia.
    + rewrite image_concat by lia. rewrite Nat.mul_0_r, drop_0. apply take_ge. lia.
  - exists n3. split_and!; [done|done|]. intros a Hblk Hne. destruct Hsame as (_ & F3 & _). rewrite F3, F2.
    rewrite put_pages_other by (intros j Hj; unfold page_addr; apply Hne; lia). rewrite F1. by rewrite Hblk.
Qed.
End pages.

(** ** A controller *)

(** The abstract machine with a busy counter: three status reads after each
    command. *)
Definition controller : Type := nand * nat.
#[global] Instance controller_nand : Nand controller := {|
  rd r d :=
    if r =? SFCX_STATUS then (0x200 .| (if (0 <? Nat.min (snd d) 3)%nat then 1 else 0), (fst d, pred (Nat.min (snd d) 3)))
    else if r =? SFCX_CONFIG then (n_config (fst d), d)
    else if r =? SFCX_DATA then (n_data (fst d), d)
    else (0, d);
  wr r v d := (nand_write r v (fst d), if r =? SFCX_COMMAND then 3%nat else snd d)
|}.

#[global] Instance controller_laws : NandLaws controller.
Proof.
  refine {| view := fst; busy d := Nat.min (snd d) 3; max_busy := 3%nat |}.
  - intros d. lia.
  - done.
  - intros r d. cbn. repeat case_match; done.
  - done.
  - done.
  - intros [n b].
    change (nz ((0x200 .| (if (0 <? Nat.min b 3)%nat then 1 else 0)) .& STATUS_BUSY) = (0 <? Nat.min b 3)%nat).
    by destruct (0 <? Nat.min b 3)%nat.
  - intros [n b]. change (Nat.min (pred (Nat.min b 3)) 3 = pred (Nat.min b 3)). lia.
Defined.

(** A flash of one block of 32 pages, each full of its number. *)
Definition demo_nand : nand :=
  mkNand 0 0 0 (replicate 528 0) [] (fun a => replicate 528 (u8 (a / 512))) id (fun a b => a / 16384 =? b / 16384).
Definition demo_state : nst controller := mkNst demo_sfc (demo_nand, 0%nat).

Lemma demo_nand_ok : nand_ok demo_nand.
Proof. split; [done|]. intros a. split; [reflexivity|]. apply Forall_replicate, is_byte_u8. Qed.

Lemma flash_block_roundtrip_demo :
  runs (sfcx_erase_block 4 0 ;; sfcx_write_block 4 (replicate (Z.to_nat 16896) 9) 0 ;;
        sfcx_read_block 4 (replicate (Z.to_nat 16896) 0) 0 true) demo_state
    (fun r _ => snd r = replicate (Z.to_nat 16896) 9).
Proof.
  set (img := replicate (Z.to_nat 16896) 9). set (buf := replicate (Z.to_nat 16896) 0).
  assert (Z.of_nat (length img) = 32 * 528) as H1 by (unfold img; rewrite length_replicate, Z2Nat.id; lia).
  assert (Z.of_nat (length buf) = 32 * 528) as H2 by (unfold buf; rewrite length_replicate, Z2Nat.id; lia).
  assert (page_bytes img) as H3 by (apply Forall_replicate; unfold is_byte; lia).
  assert (sees demo_state demo_sfc demo_nand) as H4 by (split; reflexivity).
  eapply runs_mono; [|apply (flash_block_roundtrip (L := controller_laws) 4 ltac:(cbn; lia) demo_sfc eq_refl eq_refl
    demo_state demo_nand img buf 0 H4 demo_nand_ok H3 ltac:(cbn; lia) H1 H2 ltac:(lia) ltac:(cbn; lia))].
  intros r s' [H _]. exact H.
Defined.
