(* ===== verification/Config.v ===== *)
(** * The console's settings: [drivers/xenon_nand/xenon_config.c]

    The settings are the bytes of [struct XCONFIG_SECURED_SETTINGS]; fields are
    read at their offsets.  The module's globals and the flash driver's state
    make up [config_st]. *)
From S2P Require Import Prelude Bits Sfcx SfcxFacts SfcxAccess.

Definition BLOCK_OFFSET : Z := 3.

(** Offsets in [struct XCONFIG_SECURED_SETTINGS]: [PowerVcsControl] takes 10
    bytes, so the whole is 0x208 bytes long. *)
Definition off_MACAddress : Z := 0x20.
Definition off_AVRegion : Z := 0x28.
Definition off_VIDDelta : Z := 0x40.
Definition off_PowerVcsControl : Z := 0x42.
Definition sizeof_POWER_VCS_CONTROL : Z := 5 * 2.
Definition off_ReservedRegion : Z := off_PowerVcsControl + sizeof_POWER_VCS_CONTROL.
Definition sizeof_secured_settings : Z := off_ReservedRegion + 0x1bc.

Record config_st (D : Type) := mkConfig {
  flash : nst D;
  secured_settings : list Z;
  xenon_config_initialized : Z;
  pagebuf : list Z                (* [MAX_PAGE_SZ] *)
}.
Arguments mkConfig {D}. Arguments flash {D}. Arguments secured_settings {D}.
Arguments xenon_config_initialized {D}. Arguments pagebuf {D}.
#[global] Instance eta_config D : Eta (config_st D) := fun r =>
  mkConfig (flash r) (secured_settings r) (xenon_config_initialized r) (pagebuf r).

Section config.
Context {D : Type} {N : Nand D} (fuel : nat) (revision : Z).

(** A call into the flash driver. *)
Definition on_flash {A} (m : M (nst D) A) : M (config_st D) A := fun s =>
  match m (flash s) with
  | Ok a f => Ok a (s <| flash := f |>)
  | Fault => Fault | Blocked => Blocked | Diverge => Diverge
  end.

(** The address of the settings. *)
Definition settings_addr (c : sfc_t) : Z := s32 (addr_config c + BLOCK_OFFSET * block_sz c + page_sz c).

Definition xenon_config_init : M (config_st D) unit :=
  s <- get ;;
  if nz (xenon_config_initialized s) then ret tt else
  on_flash (sfcx_init revision) ;;
  s <- get ;;
  if negb (initialized (sfc (flash s)) =? SFCX_INITIALIZED) then ret tt else
  let* (status, buf) := on_flash (sfcx_read_page fuel (pagebuf s) (settings_addr (sfc (flash s))) false) in
  modify (fun s => s <| pagebuf := buf |>) ;;
  if SFCX_SUCCESS status then
    modify (fun s => s <| secured_settings := take (Z.to_nat sizeof_secured_settings) (pagebuf s) |>) ;;
    modify (fun s => s <| xenon_config_initialized := 1 |>)
  else ret tt.
End config.

Section getters.
Implicit Types settings : list Z.

(** Three equal bytes: what erased or zeroed flash looks like. *)
Definition all3 (v : Z) (b : list Z) : bool :=
  (byte_at b 0 =? v) && (byte_at b 1 =? v) && (byte_at b 2 =? v).

Definition xenon_config_get_avregion settings : Z :=
  let buf := take 4 (drop (Z.to_nat off_AVRegion) settings) in
  if all3 0xFF buf then 0 else
  if all3 0x00 buf then 0 else
  if (0x01 <=? byte_at buf 2) && (byte_at buf 2 <=? 0x04) then byte_at buf 2 else byte_at buf 2.

Definition dmac : list Z := [0x00; 0x22; 0x48; 0xFF; 0xFF; 0xFF].
Definition xenon_config_get_mac_addr settings : list Z :=
  let hwaddr := take 6 (drop (Z.to_nat off_MACAddress) settings) in
  let hwaddr := if all3 0xFF hwaddr then dmac else hwaddr in
  if all3 0x00 hwaddr then dmac else hwaddr.

Definition xenon_config_get_vid_delta settings : Z :=
  let delta := byte_at settings off_VIDDelta in
  if (delta =? 0) || (delta =? 0xff) then -1 else delta.
End getters.

(** ** What the settings are *)

(** The network address the driver is given is usable: on settings of any
    contents it is six bytes that are not the blank pattern of erased or zeroed
    flash; it is the stored address unless that is blank, and then Microsoft's
    default. *)
Theorem mac_addr_usable settings :
  (off_MACAddress + 6 <= Z.of_nat (length settings)) ->
  let stored := take 6 (drop (Z.to_nat off_MACAddress) settings) in
  let mac := xenon_config_get_mac_addr settings in
  length mac = 6%nat /\ all3 0xFF mac = false /\ all3 0x00 mac = false /\
  mac = (if all3 0xFF stored || all3 0x00 stored then dmac else stored).
Proof.
  intros Hl stored mac. assert (length stored = 6%nat) as H6.
  { unfold stored. rewrite length_take, length_drop. unfold off_MACAddress in *. lia. }
  unfold mac, xenon_config_get_mac_addr. fold stored.
  destruct (all3 0xFF stored) eqn:EF; [done|]. cbn [orb]. destruct (all3 0x00 stored) eqn:E0; [done|]. done.
Qed.

(** The byte of the settings at an offset, through the copies. *)
Lemma byte_at_take n l i : 0 <= i < Z.of_nat n -> byte_at (take n l) i = byte_at l i.
Proof. intros H. unfold byte_at. rewrite !nth_lookup, lookup_take_lt by lia. done. Qed.
Lemma byte_at_drop n l i : 0 <= i -> byte_at (drop n l) i = byte_at l (Z.of_nat n + i).
Proof. intros H. unfold byte_at. rewrite !nth_lookup, lookup_drop. do 3 f_equal. lia. Qed.

Section init.
Context {D : Type} {N : Nand D} {L : NandLaws D} (fuel : nat) (Hfuel : (max_busy < fuel)%nat) (revision : Z).

Lemma on_flash_ok {A} (m : M (nst D) A) (s : config_st D) a f :
  m (flash s) = Ok a f -> on_flash m s = Ok a (s <| flash := f |>).
Proof. intros H. unfold on_flash. by rewrite H. Qed.

Lemma sfcx_init_again (s : nst D) c n :
  sees s c n -> nz (initialized c) = true -> runs (sfcx_init revision) s (fun _ s' => sees s' c n).
Proof.
  intros Hs Hi. unfold sfcx_init. apply runs_bind.
  apply (runs_mono _ _ (fun _ s' => sees s' c n)).
  - intros [] s' Hs'; [by apply runs_ret|]. apply runs_bind. eapply runs_read; [exact Hs'|]. intros s'' Hs''.
    apply runs_bind, runs_get. rewrite (proj1 Hs''), Hi. by apply runs_ret.
  - destruct (0x70 <=? revision); [|by apply runs_ret].
    apply runs_bind. eapply runs_read; [exact Hs|]. intros s1 Hs1. by apply runs_ret.
Qed.

(** On a flash the driver has been set up for, loading the settings returns
    and takes them from the second page of the last configuration block, as the
    controller delivers it: the module is then marked loaded and every later
    call leaves it alone; when the controller reports an error nothing is taken
    over and the next call tries again. *)
Theorem config_init_loads (s : config_st D) c n :
  sees (flash s) c n -> nand_ok n -> page_sz c = 0x200 -> page_sz_phys c = 0x210 -> initialized c = SFCX_INITIALIZED ->
  length (pagebuf s) = 528%nat -> xenon_config_initialized s = 0 ->
  let addr := addr_config c + 3 * block_sz c + 0x200 in 0 <= addr < 2 ^ 31 ->
  exists s', xenon_config_init fuel revision s = Ok tt s' /\
    (exists n', sees (flash s') c n' /\ n_flash n' = n_flash n) /\
    ((xenon_config_initialized s' = 1 /\
      take 0x200 (secured_settings s') = take 0x200 (n_flash n (n_remap n addr)) /\
      length (secured_settings s') = Z.to_nat sizeof_secured_settings /\
      xenon_config_init fuel revision s' = Ok tt s') \/
     (xenon_config_initialized s' = 0 /\ secured_settings s' = secured_settings s)).
Proof.
  intros Hs Hok Hps Hpp Hi Hl H0 addr Ha. unfold xenon_config_init at 1. rewrite (bind_ok _ _ _ s s) by reflexivity.
  rewrite H0. cbn [nz negb Z.eqb].
  destruct (sfcx_init_again (flash s) c n Hs) as (r & f1 & E1 & Hf1); [by rewrite Hi|].
  rewrite (bind_ok _ _ _ _ _ (on_flash_ok _ _ _ _ E1)). set (s1 := s <| flash := f1 |>).
  rewrite (bind_ok _ _ _ s1 s1) by reflexivity. change (flash s1) with f1. rewrite (proj1 Hf1), Hi.
  change (negb (SFCX_INITIALIZED =? SFCX_INITIALIZED)) with false. cbn iota.
  assert (settings_addr c = addr) as -> by (unfold settings_addr; rewrite Hps; apply s32_id; unfold addr, BLOCK_OFFSET in *; lia).
  destruct (read_page_runs fuel Hfuel c Hps Hpp f1 n (pagebuf s1) addr false Hf1 Hok) as ([st buf] & f2 & E2 & Ebuf & n2 & Hn2 & Hsame & _);
    [unfold is_word; lia|change (pagebuf s1) with (pagebuf s); lia|].
  rewrite (bind_ok _ _ _ _ _ (on_flash_ok _ s1 _ _ E2)). cbn beta iota. cbn [snd] in Ebuf.
  set (s2 := s1 <| flash := f2 |>). rewrite (bind_ok _ _ _ tt (s2 <| pagebuf := buf |>)) by reflexivity.
  destruct (SFCX_SUCCESS st); (eexists; split; [reflexivity|]; split; [exists n2; split; [exact Hn2|apply Hsame]|]);
    [left|right; split; [exact H0|reflexivity]].
  cbn [secured_settings xenon_config_initialized set]. split; [done|].
  set (pg := n_flash n (n_remap n addr)) in *. destruct Hok as [_ Hraw]. destruct (Hraw (n_remap n addr)) as [Hpg _]. fold pg in Hpg.
  change (pagebuf s1) with (pagebuf s) in Ebuf.
  assert (length buf = 528%nat) as Hb by (rewrite Ebuf, length_app, length_take, length_drop; lia).
  change (Z.to_nat sizeof_secured_settings) with 520%nat. split; [|split; [|reflexivity]].
  - change (0x200)%nat with 512%nat. change (pagebuf _) with buf at 1. rewrite take_take, Nat.min_l by lia. rewrite Ebuf, take_app_le, take_take by (rewrite length_take; lia). f_equal.
  - change (pagebuf _) with buf. rewrite length_take. lia.
Qed.
End init.

(** ** The demo flash *)

Definition demo_config : config_st controller := mkConfig demo_state [] 0 (replicate 528 0).

Lemma config_init_loads_demo :
  exists s', xenon_config_init 4 0 demo_config = Ok tt s' /\
    ((xenon_config_initialized s' = 1 /\ length (secured_settings s') = 520%nat) \/
     (xenon_config_initialized s' = 0 /\ secured_settings s' = [])).
Proof.
  destruct (config_init_loads (L := controller_laws) 4 ltac:(cbn; lia) 0 demo_config demo_sfc demo_nand)
    as (s' & E & _ & [(H1 & _ & H2 & _)|H]);
    [split; reflexivity|apply demo_nand_ok|reflexivity..|vm_compute; split; congruence| |].
  - exists s'. split; [exact E|]. left. split; [exact H1|exact H2].
  - exists s'. split; [exact E|]. right. exact H.
Defined.

Lemma mac_addr_usable_demo :
  xenon_config_get_mac_addr (replicate 520 0xFF) = dmac /\ length (xenon_config_get_mac_addr (replicate 520 0xFF)) = 6%nat.
Proof.
  split; [reflexivity|]. apply (mac_addr_usable (replicate 520 0xFF)). vm_compute. congruence.
Defined.
