(* ===== verification/Smc.v ===== *)
(** * The system management controller: [drivers/xenon_smc/xenon_smc.c]

    The controller is reached through memory-mapped registers, the class
    [Mmio]; the accessors of [drivers/pci/io.c] swap the bytes of a word or
    not.  A message is a list of 16 bytes.  [fuel] bounds the polling loops. *)
From S2P Require Import Prelude Bits Sfcx.

(** A 32-bit load and store on the bus; a load may change the device. *)
Class Mmio (D : Type) := { ld32 : Z -> D -> Z * D; st32 : Z -> Z -> D -> D }.

(** The module's global and the device. *)
Record smc_st (D : Type) := mkSmc { xenon_smc_last_ir : Z; smc_dev : D }.
Arguments mkSmc {D}. Arguments xenon_smc_last_ir {D}. Arguments smc_dev {D}.
#[global] Instance eta_smc D : Eta (smc_st D) := fun r => mkSmc (xenon_smc_last_ir r) (smc_dev r).

Definition SMC_BASE : Z := 0xea001000.

Section smc.
Context {D : Type} {IO : Mmio D} (fuel : nat).
Local Abbreviation MS := (M (smc_st D)).
Implicit Types msg buf : list Z.

Definition read32n (addr : Z) : MS Z := fun s =>
  let (v, d) := ld32 addr (smc_dev s) in Ok v (s <| smc_dev := d |>).
Definition write32n (addr val : Z) : MS unit := modify (fun s => s <| smc_dev ::= st32 addr val |>).
Definition read32 (addr : Z) : MS Z := v <- read32n addr ;; ret (bswap32 v).
Definition write32 (addr val : Z) : MS unit := write32n addr (bswap32 val).

(** ** Messages *)

(** [while (!(read32(SMC_BASE + 0x84) & 4));] *)
Fixpoint send_wait (n : nat) : MS unit :=
  match n with
  | O => diverge
  | S n => v <- read32 (SMC_BASE + 0x84) ;; if negb (nz (v .& 4)) then send_wait n else ret tt
  end.

Definition xenon_smc_send_message msg : MS unit :=
  send_wait fuel ;;
  write32 (SMC_BASE + 0x84) 4 ;;
  write32n (SMC_BASE + 0x80) (word_at msg 0) ;;
  write32n (SMC_BASE + 0x80) (word_at msg 4) ;;
  write32n (SMC_BASE + 0x80) (word_at msg 8) ;;
  write32n (SMC_BASE + 0x80) (word_at msg 12) ;;
  write32 (SMC_BASE + 0x84) 0.

(** The words of a message into [msg], from offset [i]: [n] more. *)
Fixpoint receive_words (n i : nat) msg : MS (list Z) :=
  match n with
  | O => ret msg
  | S n => w <- read32n (SMC_BASE + 0x90) ;; receive_words n (i + 4) (write_at i (put_be w) msg)
  end.

Definition xenon_smc_receive_message msg : MS (Z * list Z) :=
  v <- read32 (SMC_BASE + 0x94) ;;
  if nz (v .& 4) then
    write32 (SMC_BASE + 0x94) 4 ;;
    msg <- receive_words 4 0 msg ;;
    write32 (SMC_BASE + 0x94) 0 ;;
    ret (0, msg)
  else ret (-1, msg).

Definition xenon_smc_get_ir : MS Z :=
  r <- gets xenon_smc_last_ir ;;
  modify (fun s => s <| xenon_smc_last_ir := -1 |>) ;;
  ret r.

(** The other cases of the [switch] only print. *)
Definition xenon_smc_handle_bulk msg : MS unit :=
  if byte_at msg 1 =? 0x23 then modify (fun s => s <| xenon_smc_last_ir := byte_at msg 3 |>) else ret tt.

Definition xenon_smc_poll : MS Z :=
  let* (r, buf) := xenon_smc_receive_message (replicate 16 0) in
  if negb (nz r) then
    when (byte_at buf 0 =? 0x83) (xenon_smc_handle_bulk buf) ;;
    ret 0
  else ret (-1).

Fixpoint response_loop (n : nat) msg : MS (Z * list Z) :=
  match n with
  | O => diverge
  | S n =>
      let* (r, msg) := xenon_smc_receive_message msg in
      if nz r then response_loop n msg else
      if byte_at msg 0 =? 0x83 then xenon_smc_handle_bulk msg ;; response_loop n msg
      else ret (0, msg)
  end.
Definition xenon_smc_receive_response msg : MS (Z * list Z) := response_loop fuel msg.

(** ** Requests *)

(** [xenon_smc_send_message(buf); xenon_smc_receive_response(buf);] *)
Definition exchange buf : MS (list Z) :=
  xenon_smc_send_message buf ;;
  let* (_, buf) := xenon_smc_receive_response buf in
  ret buf.

(** The message whose first bytes are [l]. *)
Definition message (l : list Z) : list Z := l ++ replicate (16 - length l) 0.

(** [if (buf[1] != 0) return -1; return 0;] *)
Definition status_of buf : Z := if negb (byte_at buf 1 =? 0) then -1 else 0.

Definition ana_write_msg (addr val : Z) : list Z :=
  message [0x11; 0x60; 0; 0x80 .| 0x70; 0; 0; addr; 0; u8 val; u8 (val .>> 8); u8 (val .>> 16); u8 (val .>> 24)].
Definition xenon_smc_ana_write (addr val : Z) : MS Z :=
  buf <- exchange (ana_write_msg addr val) ;; ret (status_of buf).

Definition ana_read_msg (addr : Z) : list Z := message [0x11; 0x10; 5; 0x80 .| 0x70; 0; 0xF0; addr].
(** The code, and what [*val] is left as. *)
Definition xenon_smc_ana_read (addr val : Z) : MS (Z * Z) :=
  buf <- exchange (ana_read_msg addr) ;;
  if negb (byte_at buf 1 =? 0) then ret (-1, val) else
  ret (0, byte_at buf 4 .| (byte_at buf 5 .<< 8) .| (byte_at buf 6 .<< 16) .| (byte_at buf 7 .<< 24)).

Definition ddc_lock_msg (lock : Z) : list Z := message [0x11; if nz lock then 3 else 5].
Definition xenon_smc_i2c_ddc_lock (lock : Z) : MS Z :=
  buf <- exchange (ddc_lock_msg lock) ;; ret (status_of buf).

Definition i2c_bus (addr : Z) : Z := if 0x200 <=? addr then 0x3d else 0x39.
Definition i2c_ddc (addr : Z) : bool := (0x1d0 <=? addr) && (addr <=? 0x1f5).
Definition i2c_write_msg (addr val : Z) : list Z :=
  message [0x11; if i2c_ddc addr then 0x21 else 0x20; 0; i2c_bus addr .| 0x80; 0; 0; addr .& 0xff; val].
Definition xenon_smc_i2c_write (addr val : Z) : MS Z :=
  buf <- exchange (i2c_write_msg addr val) ;; ret (status_of buf).

Definition i2c_read_msg (addr : Z) : list Z :=
  let b := i2c_bus addr .| 0x80 in
  message [0x11; if i2c_ddc addr then 0x11 else 0x10; 1; b; 0; b; addr .& 0xff].
Definition xenon_smc_i2c_read (addr val : Z) : MS (Z * Z) :=
  buf <- exchange (i2c_read_msg addr) ;;
  if negb (byte_at buf 1 =? 0) then ret (-1, val) else ret (0, byte_at buf 3).

Definition xenon_smc_set_led (override value : Z) : MS unit :=
  xenon_smc_send_message (message [0x99; u8 override; u8 value]).
Definition xenon_smc_set_power_led (override state startanim : Z) : MS unit :=
  xenon_smc_send_message
    (message [0x8C; (if nz override then 1 else 0) .| (if nz state then 0 else 2); u8 startanim]).
Definition xenon_smc_power_shutdown : MS unit := xenon_smc_send_message (message [0x82; 0x01]).
Definition xenon_smc_power_reboot : MS unit := xenon_smc_send_message (message [0x82; 0x04; 0x30; 0x00]).
Definition xenon_smc_start_bootanim : MS unit :=
  let buf := message [0x8c; 0x01; 0x00] in
  xenon_smc_send_message buf ;;
  xenon_smc_send_message (set_byte buf 2 0x01).

(** The four readings, each 16 bits. *)
Definition xenon_smc_query_sensors : MS (list Z) :=
  buf <- exchange (message [0x07]) ;;
  ret ((fun i => byte_at buf (i * 2 + 1) .| (byte_at buf (i * 2 + 2) .<< 8)) <$> [0; 1; 2; 3]).

Definition xenon_smc_read_avpack : MS Z := buf <- exchange (message [0x0f]) ;; ret (byte_at buf 1).
Definition xenon_smc_set_fan_algorithm (algorithm : Z) : MS unit :=
  xenon_smc_send_message (message [0x88; u8 algorithm]).

(** ** General-purpose pins: [xenon_gpio.c] *)

Definition gpio_regs : list Z := [0x20; 0x24; 0x28; 0x30; 0x34; 0x38; 0x40; 0x44; 0x48].
Definition xenon_gpio_control (reg clear set_ : Z) : MS unit :=
  r <- of_option (gpio_regs !! Z.to_nat reg) ;;
  b <- read32 (SMC_BASE .| r) ;;
  write32 (SMC_BASE .| r) ((b .& not32 clear) .| set_).
Definition xenon_gpio_set_oe (clear set_ : Z) : MS unit :=
  b <- read32 (SMC_BASE + 0x20) ;; write32 (SMC_BASE + 0x20) ((b .& not32 clear) .| set_).
Definition xenon_gpio_set (clear set_ : Z) : MS unit :=
  b <- read32 (SMC_BASE + 0x34) ;; write32 (SMC_BASE + 0x34) ((b .& not32 clear) .| set_).
End smc.
