(* ===== verification/SmcFacts.v ===== *)
(** * The system management controller's protocol

    The driver is run against an abstract mailbox, [smc]: a message written
    through the transmit registers reaches the firmware, whose answers and
    notices queue up for the receive registers.  The firmware is a parameter;
    a device that follows the mailbox, with bounded delays, is an instance of
    [SmcLaws]. *)
From S2P Require Import Prelude Bits Sfcx SfcxFacts Smc.

(** ** The mailbox *)

Record smc (F : Type) := mkAbs {
  sm_tx : option (list Z);     (* words written since the transmission began *)
  sm_open : list Z;            (* words left of the message being read *)
  sm_rx : list (list Z);       (* messages for the processor, oldest first *)
  sm_fw : F                    (* the firmware's state *)
}.
Arguments mkAbs {F}. Arguments sm_tx {F}. Arguments sm_open {F}. Arguments sm_rx {F}. Arguments sm_fw {F}.
#[global] Instance eta_mailbox F : Eta (smc F) := fun r => mkAbs (sm_tx r) (sm_open r) (sm_rx r) (sm_fw r).

Definition TX_DATA : Z := SMC_BASE + 0x80.
Definition TX_CTRL : Z := SMC_BASE + 0x84.
Definition RX_DATA : Z := SMC_BASE + 0x90.
Definition RX_CTRL : Z := SMC_BASE + 0x94.

(** The firmware gets [msg] and queues its messages. *)
Definition deliver {F} (firmware : F -> list Z -> F * list (list Z)) (m : smc F) (msg : list Z) : smc F :=
  let (f, ms) := firmware (sm_fw m) msg in mkAbs None (sm_open m) (sm_rx m ++ ms) f.

(** A store to a register; control registers are little-endian. *)
Definition smc_write {F} (firmware : F -> list Z -> F * list (list Z)) (r v : Z) (m : smc F) : smc F :=
  if r =? TX_CTRL then
    if v =? bswap32 4 then m <| sm_tx := Some [] |>
    else match sm_tx m with Some ws => deliver firmware m (bytes_of ws) | None => m end
  else if r =? TX_DATA then m <| sm_tx ::= fmap (fun ws => ws ++ [v]) |>
  else if r =? RX_CTRL then
    if v =? bswap32 4 then
      match sm_rx m with x :: rx => m <| sm_open := words_of x |> <| sm_rx := rx |> | [] => m end
    else m <| sm_open := [] |>
  else m.

Definition no_messages {F} (m : smc F) : bool := match sm_rx m with [] => true | _ => false end.

Class SmcLaws (D F : Type) {IO : Mmio D} (firmware : F -> list Z -> F * list (list Z)) := {
  sview : D -> smc F;
  delay : D -> nat;
  max_delay : nat;
  delay_bound : forall d, (delay d <= max_delay)%nat;
  st_view : forall r v d, In r [TX_DATA; TX_CTRL; RX_CTRL] -> sview (st32 r v d) = smc_write firmware r v (sview d);
  ld_tx : forall d, nz (bswap32 (fst (ld32 TX_CTRL d)) .& 4) = (delay d =? 0)%nat;
  ld_rx : forall d, nz (bswap32 (fst (ld32 RX_CTRL d)) .& 4) = (delay d =? 0)%nat && negb (no_messages (sview d));
  ld_ctrl : forall r d, In r [TX_CTRL; RX_CTRL] -> sview (snd (ld32 r d)) = sview d /\ delay (snd (ld32 r d)) = pred (delay d);
  ld_data : forall d w ws, sm_open (sview d) = w :: ws ->
    fst (ld32 RX_DATA d) = w /\ sview (snd (ld32 RX_DATA d)) = (sview d <| sm_open := ws |>)
}.

(** ** Messages *)

Definition message_ok (msg : list Z) : Prop := length msg = 16%nat /\ Forall is_byte msg.
Definition is_bulk (msg : list Z) : Prop := byte_at msg 0 = 0x83.

(** The last remote-control key among some messages. *)
Definition ir_after (bulks : list (list Z)) (ir : Z) : Z :=
  fold_left (fun ir b => if byte_at b 1 =? 0x23 then byte_at b 3 else ir) bulks ir.

(** A message is its four words. *)
Lemma message_words msg : message_ok msg ->
  words_of msg = [word_at msg 0; word_at msg 4; word_at msg 8; word_at msg 12].
Proof. intros [Hl _]. do 17 (destruct msg as [|? msg]; try done). Qed.

Section protocol.
Context {D F : Type} {IO : Mmio D} {firmware : F -> list Z -> F * list (list Z)} {L : SmcLaws D F firmware}.
Context (fuel : nat).
Implicit Types (s : smc_st D) (m : smc F).

(** The driver's key and the mailbox. *)
Definition mail s (ir : Z) m : Prop := xenon_smc_last_ir s = ir /\ sview (smc_dev s) = m.

Lemma runs_st r v s ir m (Q : unit -> smc_st D -> Prop) :
  mail s ir m -> In r [TX_DATA; TX_CTRL; RX_CTRL] ->
  (forall s', mail s' ir (smc_write firmware r v m) -> Q tt s') -> runs (write32n r v) s Q.
Proof. intros [E1 E2] Hr HQ. apply runs_modify, HQ. split; [done|]. cbn. by rewrite st_view, E2. Qed.

Lemma runs_ctrl r s ir m (Q : Z -> smc_st D -> Prop) :
  mail s ir m -> In r [TX_CTRL; RX_CTRL] ->
  (forall s', mail s' ir m -> delay (smc_dev s') = pred (delay (smc_dev s)) -> Q (bswap32 (fst (ld32 r (smc_dev s)))) s') ->
  runs (read32 r) s Q.
Proof.
  intros [E1 E2] Hr HQ. destruct (ld_ctrl r (smc_dev s) Hr) as [Hv Hd].
  exists (bswap32 (fst (ld32 r (smc_dev s)))), (s <| smc_dev := snd (ld32 r (smc_dev s)) |>). split.
  - unfold read32, bind, read32n. by destruct (ld32 r (smc_dev s)).
  - apply HQ; [|done]. split; [done|]. cbn. congruence.
Qed.

Lemma send_wait_runs n : forall s ir m,
  mail s ir m -> (delay (smc_dev s) < n)%nat -> runs (send_wait n) s (fun _ s' => mail s' ir m).
Proof.
  induction n as [|n IH]; intros s ir m Hs Hd; [lia|]. cbn [send_wait]. apply runs_bind.
  apply (runs_ctrl TX_CTRL s ir m); [done|cbn; tauto|]. intros s' Hs' Hd'. rewrite ld_tx.
  destruct (Nat.eqb_spec (delay (smc_dev s)) 0); cbn [negb]; [by apply runs_ret|]. apply IH; [done|lia].
Qed.

Local Ltac store := first [apply runs_bind; eapply runs_st | eapply runs_st]; [eassumption|cbn; tauto|]; intros ? ?.

Lemma send_runs s ir m msg :
  mail s ir m -> message_ok msg -> (max_delay < fuel)%nat ->
  runs (xenon_smc_send_message fuel msg) s (fun _ s' => mail s' ir (deliver firmware m msg)).
Proof.
  intros Hs Hm Hf. unfold xenon_smc_send_message, write32. apply runs_bind.
  eapply runs_mono; [|apply (send_wait_runs fuel s ir m Hs); pose proof (delay_bound (smc_dev s)); lia].
  intros [] s0 Hs0. do 6 store. match goal with H : mail ?s' ir ?n |- mail ?s' _ _ => replace n with (deliver firmware m msg) in H; [done|] end.
  assert (bytes_of [word_at msg 0; word_at msg 4; word_at msg 8; word_at msg 12] = msg) as E
    by (rewrite <- message_words by done; destruct Hm; by apply (words_bytes msg 4)).
  rewrite <- E at 1. reflexivity.
Qed.

Lemma receive_words_runs n : forall s ir m msg i ws,
  mail s ir m -> sm_open m = ws -> length ws = n -> (i + 4 * n <= length msg)%nat ->
  runs (receive_words n i msg) s (fun msg' s' =>
    msg' = take i msg ++ bytes_of ws ++ drop (i + 4 * n) msg /\ mail s' ir (m <| sm_open := [] |>)).
Proof.
  induction n as [|n IH]; intros s ir m msg i ws Hs Ho Hl Hi; destruct ws as [|w ws]; try (simpl in Hl; lia); cbn [receive_words].
  - apply runs_ret. rewrite Nat.mul_0_r, Nat.add_0_r. cbn [bytes_of mbind list_bind app]. rewrite take_drop. split; [done|].
    destruct Hs as [? Hv]. split; [done|]. rewrite Hv. destruct m. cbn in *. congruence.
  - destruct (ld_data (smc_dev s) w ws) as [Ew Ev]; [by rewrite (proj2 Hs)|]. apply runs_bind.
    exists w, (s <| smc_dev := snd (ld32 RX_DATA (smc_dev s)) |>). split.
    { unfold read32n. change (SMC_BASE + 0x90) with RX_DATA. destruct (ld32 RX_DATA (smc_dev s)) as [v d]. cbn in *. by subst v. }
    set (s1 := s <| smc_dev := _ |>). assert (mail s1 ir (m <| sm_open := ws |>)) as Hs1
      by (destruct Hs as [E1 E2]; split; [done|cbn; by rewrite Ev, E2]).
    eapply runs_mono; [|apply (IH s1 ir _ (write_at i (put_be w) msg) (i + 4)%nat ws Hs1 eq_refl);
      [simpl in Hl; lia|rewrite length_write_at by (cbn [length put_be]; lia); lia]].
    intros msg' s' (-> & Hs'). split; [|done]. rewrite (take_write_at i (put_be w)) by lia.
    rewrite drop_write_at by (cbn [length put_be]; lia). unfold bytes_of. cbn [mbind list_bind]. rewrite <- !app_assoc. do 3 f_equal. f_equal. lia.
Qed.

(** One call: nothing yet, or the oldest message. *)
Lemma receive_runs s ir m msg x rx :
  mail s ir m -> sm_rx m = x :: rx -> message_ok x -> length msg = 16%nat ->
  runs (xenon_smc_receive_message msg) s (fun r s' =>
    (r = (-1, msg) /\ mail s' ir m /\ S (delay (smc_dev s')) = delay (smc_dev s)) \/
    (r = (0, x) /\ mail s' ir (mkAbs (sm_tx m) [] rx (sm_fw m)))).
Proof.
  intros Hs Hrx Hx Hl. unfold xenon_smc_receive_message, write32. apply runs_bind.
  apply (runs_ctrl RX_CTRL s ir m); [done|cbn; tauto|]. intros s1 Hs1 Hd1. rewrite ld_rx.
  destruct Hs as [_ Hv]. rewrite Hv. unfold no_messages. rewrite Hrx, andb_true_r.
  destruct (Nat.eqb_spec (delay (smc_dev s)) 0); [|apply runs_ret; left; split_and!; [done|done|lia]].
  store. match goal with H : mail ?s' ir ?n |- runs _ ?s' _ => replace n with (m <| sm_open := words_of x |> <| sm_rx := rx |>) in H; [rename H into Hs2|] end.
  2: { unfold smc_write. change (SMC_BASE + 0x94) with RX_CTRL. change (RX_CTRL =? TX_CTRL) with false.
       change (RX_CTRL =? TX_DATA) with false. rewrite !Z.eqb_refl. by rewrite Hrx. }
  apply runs_bind. eapply runs_mono; [|apply (receive_words_runs 4 _ ir _ msg 0 (words_of x) Hs2 eq_refl);
    [by rewrite message_words|lia]].
  intros msg' s3 (-> & Hs3). store. apply runs_ret. right. destruct Hx as [Hx1 Hx2].
  rewrite (words_bytes x 4) by done. rewrite take_0, drop_ge, app_nil_r by lia. split; [done|].
  destruct m as [tx op rx0 fw]. assumption.
Qed.

Lemma response_runs n : forall s ir m msg bulks r rest,
  mail s ir m -> sm_rx m = bulks ++ r :: rest ->
  Forall message_ok bulks -> Forall is_bulk bulks -> message_ok r -> ~ is_bulk r -> length msg = 16%nat ->
  (delay (smc_dev s) + (max_delay + 1) * length bulks < n)%nat ->
  runs (response_loop n msg) s (fun res s' =>
    res = (0, r) /\ exists m', mail s' (ir_after bulks ir) m' /\ sm_rx m' = rest /\ sm_fw m' = sm_fw m).
Proof.
  induction n as [|n IH]; intros s ir m msg bulks r rest Hs Hrx Hok Hb Hr Hnb Hl Hn; [lia|]. cbn [response_loop].
  apply runs_bind. destruct bulks as [|b bulks].
  - eapply runs_mono; [|apply (receive_runs s ir m msg r rest Hs Hrx Hr Hl)].
    intros res s1 [(-> & Hs1 & Hd)|(-> & Hs1)]; cbn [nz negb Z.eqb].
    + apply (IH s1 ir m msg [] r rest); try done. cbn [length] in *. lia.
    + unfold is_bulk in Hnb. rewrite (proj2 (Z.eqb_neq _ _)) by done. apply runs_ret. split; [done|]. eexists. by split; [exact Hs1|].
  - apply Forall_cons in Hok as [Hob Hok], Hb as [Hbb Hb].
    eapply runs_mono; [|apply (receive_runs s ir m msg b (bulks ++ r :: rest) Hs Hrx Hob Hl)].
    intros res s1 [(-> & Hs1 & Hd)|(-> & Hs1)]; cbn [nz negb Z.eqb].
    + apply (IH s1 ir m msg (b :: bulks) r rest); try done; [by constructor|by constructor|]. lia.
    + rewrite Hbb, Z.eqb_refl. apply runs_bind. unfold xenon_smc_handle_bulk. pose proof (delay_bound (smc_dev s1)).
      set (ir1 := if byte_at b 1 =? 0x23 then byte_at b 3 else ir).
      set (m1 := mkAbs (sm_tx m) [] (bulks ++ r :: rest) (sm_fw m)) in *.
      assert (forall s2, smc_dev s2 = smc_dev s1 -> xenon_smc_last_ir s2 = ir1 ->
        runs (response_loop n b) s2 (fun res s' => res = (0, r) /\ exists m', mail s' (ir_after bulks ir1) m' /\
          sm_rx m' = rest /\ sm_fw m' = sm_fw m)) as Hgo.
      { intros s2 Ed Ei. apply (IH s2 ir1 m1 b bulks r rest); try done; [|by destruct Hob|rewrite Ed; cbn [length] in Hn; lia].
        split; [done|]. rewrite Ed. apply Hs1. }
      unfold ir1 in *. destruct (byte_at b 1 =? 0x23) eqn:E23; [apply runs_modify|apply runs_ret]; cbn [ir_after fold_left];
        rewrite E23; apply Hgo; try done. apply Hs1.
Qed.

(** The fuel that is enough for an answer behind [k] notices. *)
Definition enough (k : nat) : Prop := ((max_delay + 1) * (k + 1) < fuel)%nat.

(** A request and its answer, behind notices. *)
Lemma exchange_runs s ir m msg f bulks r rest :
  mail s ir m -> message_ok msg -> firmware (sm_fw m) msg = (f, rest) -> sm_rx m ++ rest = bulks ++ [r] ->
  Forall message_ok bulks -> Forall is_bulk bulks -> message_ok r -> ~ is_bulk r -> enough (length bulks) ->
  runs (exchange fuel msg) s (fun buf s' =>
    buf = r /\ exists m', mail s' (ir_after bulks ir) m' /\ sm_rx m' = [] /\ sm_fw m' = f).
Proof.
  intros Hs Hm Hfw Hrx Hok Hb Hr Hnb Hn. unfold enough in Hn. unfold exchange. apply runs_bind.
  eapply runs_mono; [|apply (send_runs s ir m msg Hs Hm); lia]. intros [] s1 Hs1. unfold deliver in Hs1. rewrite Hfw in Hs1.
  apply runs_bind. pose proof (delay_bound (smc_dev s1)).
  eapply runs_mono; [|apply (response_runs fuel s1 ir _ msg bulks r [] Hs1 Hrx Hok Hb Hr Hnb); [apply Hm|lia]].
  intros res s2 (-> & m' & H1 & H2 & H3). apply runs_ret. split; [done|]. by exists m'.
Qed.

(** The answer to a request is found behind any number of unsolicited
    messages: when the controller's queue holds notices and then an answer,
    [xenon_smc_receive_response] returns, delivers the answer, leaves what came
    after it queued, and of the notices keeps the last remote-control key. *)
Theorem receive_response_skips_bulk s ir m msg bulks r rest :
  mail s ir m -> sm_rx m = bulks ++ r :: rest ->
  Forall message_ok bulks -> Forall is_bulk bulks -> message_ok r -> ~ is_bulk r -> length msg = 16%nat ->
  enough (length bulks) ->
  runs (xenon_smc_receive_response fuel msg) s (fun res s' =>
    res = (0, r) /\ exists m', mail s' (ir_after bulks ir) m' /\ sm_rx m' = rest /\ sm_fw m' = sm_fw m).
Proof.
  intros. pose proof (delay_bound (smc_dev s)). unfold enough in *. eapply response_runs; eauto. lia.
Qed.
End protocol.

(** ** The analog chip behind the controller *)

Definition notices (l : list (list Z)) : Prop := Forall message_ok l /\ Forall is_bulk l.

(** The sixteen bytes of a request to the analog chip, as the firmware reads
    them: an access to the bus (0x11), a write (0x60) or a read (0x10) of a word
    at the address of the chip (0x70, with bit 7), the register in byte 6, the
    value of a write in bytes 8 to 11, its low byte first. *)
Definition write_request (a v : Z) : list Z :=
  [0x11; 0x60; 0; 0xF0; 0; 0; a; 0; v mod 256; v / 2 ^ 8 mod 256; v / 2 ^ 16 mod 256; v / 2 ^ 24 mod 256; 0; 0; 0; 0].
Definition read_request (a : Z) : list Z := [0x11; 0x10; 5; 0xF0; 0; 0xF0; a; 0; 0; 0; 0; 0; 0; 0; 0; 0].

(** What the driver relies on of the firmware: it serves the registers [ana] of
    the chip, with at most [max_notices] notices ahead of an answer; the second
    byte of an answer is zero when the request was carried out. *)
Class AnaLaws (F : Type) (firmware : F -> list Z -> F * list (list Z)) := {
  ana : F -> Z -> Z;
  max_notices : nat;
  ana_word : forall f a, is_word (ana f a);
  ana_write_answer : forall f a v, is_byte a -> is_word v -> exists f' bulks r,
    firmware f (write_request a v) = (f', bulks ++ [r]) /\ notices bulks /\ (length bulks <= max_notices)%nat /\
    message_ok r /\ ~ is_bulk r /\ byte_at r 1 = 0 /\ forall b, ana f' b = if b =? a then v else ana f b;
  ana_read_answer : forall f a, is_byte a -> exists f' bulks r,
    firmware f (read_request a) = (f', bulks ++ [r]) /\ notices bulks /\ (length bulks <= max_notices)%nat /\
    message_ok r /\ ~ is_bulk r /\ byte_at r 1 = 0 /\
    (forall i, 0 <= i < 4 -> byte_at r (4 + i) = u8 (ana f a .>> (8 * i))) /\ forall b, ana f' b = ana f b
}.

(** The driver's messages are these requests. *)
Lemma ana_write_msg_bytes a v : ana_write_msg a v = write_request a v.
Proof. unfold ana_write_msg, write_request, message, u8. rewrite !Z.shiftr_div_pow2 by lia. done. Qed.
Lemma ana_read_msg_bytes a : ana_read_msg a = read_request a.
Proof. done. Qed.

Lemma ana_msgs_ok a v : is_byte a -> message_ok (ana_write_msg a v) /\ message_ok (ana_read_msg a).
Proof.
  intros Ha. unfold message_ok, ana_write_msg, ana_read_msg, message. cbn [length app replicate Nat.sub].
  split; (split; [done|]); repeat (apply Forall_cons_2; [first [exact Ha|apply is_byte_u8|split; [discriminate|reflexivity]]|]); apply Forall_nil_2.
Qed.

Lemma le_word_bytes v : is_word v -> u8 v .| (u8 (v .>> 8) .<< 8) .| (u8 (v .>> 16) .<< 16) .| (u8 (v .>> 24) .<< 24) = v.
Proof.
  intros Hv. transitivity (get_be (u8 (v .>> 24)) (u8 (v .>> 16)) (u8 (v .>> 8)) (u8 v)); [|by apply get_put_be].
  unfold get_be. bitwise n Hn. rewrite !Z.lor_spec. repeat match goal with |- context [Z.testbit ?x n] => destruct (Z.testbit x n) end; done.
Qed.

Section ana.
Context {D F : Type} {IO : Mmio D} {firmware : F -> list Z -> F * list (list Z)} {L : SmcLaws D F firmware}
  {A : AnaLaws F firmware}.
Context (fuel : nat).

(** Enough for an answer behind [k] old notices and those that come with it. *)
Definition patient (k : nat) : Prop := ((max_delay + 1) * (k + max_notices + 1) < fuel)%nat.

Lemma enough_patient k n : patient k -> (n <= k + max_notices)%nat -> enough fuel n.
Proof. unfold patient, enough. intros. nia. Qed.

Lemma ana_write_runs (s : smc_st D) ir (m : smc F) a v :
  mail s ir m -> notices (sm_rx m) -> is_byte a -> is_word v -> patient (length (sm_rx m)) ->
  runs (xenon_smc_ana_write fuel a v) s (fun r s' => r = 0 /\ exists ir' m', mail s' ir' m' /\ sm_rx m' = [] /\
    forall b, ana (sm_fw m') b = if b =? a then v else ana (sm_fw m) b).
Proof.
  intros Hs [H1 H2] Ha Hv Hp.
  destruct (ana_write_answer (sm_fw m) a v Ha Hv) as (f & bulks & r & Ef & [H3 H4] & Hlen & Hr & Hnb & H0 & Hana).
  unfold xenon_smc_ana_write. rewrite <- ana_write_msg_bytes in Ef. apply runs_bind. eapply runs_mono; [|apply (exchange_runs fuel s ir m _ f (sm_rx m ++ bulks) r (bulks ++ [r]) Hs);
    [by apply (ana_msgs_ok a v)|done|by rewrite app_assoc|by apply Forall_app|by apply Forall_app|done|done|
     eapply enough_patient; [exact Hp|rewrite length_app; lia]]].
  intros buf s' (-> & m' & Hm' & Hrx & Hf). apply runs_ret. unfold status_of. rewrite H0. split; [done|]. eexists _, m'. by rewrite Hf.
Qed.

Lemma ana_read_runs (s : smc_st D) ir (m : smc F) a w :
  mail s ir m -> notices (sm_rx m) -> is_byte a -> patient (length (sm_rx m)) ->
  runs (xenon_smc_ana_read fuel a w) s (fun r s' => r = (0, ana (sm_fw m) a) /\ exists ir' m', mail s' ir' m' /\ sm_rx m' = [] /\
    forall b, ana (sm_fw m') b = ana (sm_fw m) b).
Proof.
  intros Hs [H1 H2] Ha Hp.
  destruct (ana_read_answer (sm_fw m) a Ha) as (f & bulks & r & Ef & [H3 H4] & Hlen & Hr & Hnb & H0 & Hval & Hana).
  unfold xenon_smc_ana_read. rewrite <- ana_read_msg_bytes in Ef. apply runs_bind. eapply runs_mono; [|apply (exchange_runs fuel s ir m _ f (sm_rx m ++ bulks) r (bulks ++ [r]) Hs);
    [by apply (ana_msgs_ok a 0)|done|by rewrite app_assoc|by apply Forall_app|by apply Forall_app|done|done|
     eapply enough_patient; [exact Hp|rewrite length_app; lia]]].
  intros buf s' (-> & m' & Hm' & Hrx & Hf). rewrite H0. apply runs_ret. split; [|eexists _, m'; by rewrite Hf].
  assert (forall i j k, 0 <= i < 4 -> 4 + i = j -> 8 * i = k -> byte_at r j = u8 (ana (sm_fw m) a .>> k)) as V by (intros i j k Hi <- <-; by apply Hval).
  rewrite (V 0 4 0), (V 1 5 8), (V 2 6 16), (V 3 7 24), Z.shiftr_0_r by lia.
  by rewrite le_word_bytes by apply ana_word.
Qed.

(** C34: a register of the analog chip reads back what was written to it: over
    the controller's message protocol, whatever notices arrive in between, and
    with a firmware that serves exactly the requests [write_request] and
    [read_request], given byte by byte,
    [xenon_smc_ana_write] and then [xenon_smc_ana_read] of the same register
    both succeed and the second delivers the value written; no other register
    has changed. *)
Theorem ana_roundtrip (s : smc_st D) ir (m : smc F) a v w :
  mail s ir m -> notices (sm_rx m) -> is_byte a -> is_word v -> patient (length (sm_rx m)) ->
  runs (st <- xenon_smc_ana_write fuel a v ;; r <- xenon_smc_ana_read fuel a w ;; ret (st, r)) s (fun r s' =>
    r = (0, (0, v)) /\ exists ir' m', mail s' ir' m' /\ forall b, b <> a -> ana (sm_fw m') b = ana (sm_fw m) b).
Proof.
  intros Hs Hn Ha Hv Hp. apply runs_bind. eapply runs_mono; [|by apply (ana_write_runs s ir m a v)].
  intros st s1 (-> & ir1 & m1 & Hs1 & Hrx1 & Hana1). apply runs_bind.
  eapply runs_mono; [|apply (ana_read_runs s1 ir1 m1 a w Hs1); [by rewrite Hrx1|done|rewrite Hrx1; unfold patient in *; cbn [length]; nia]].
  intros r s2 (-> & ir2 & m2 & Hs2 & _ & Hana2). apply runs_ret. rewrite Hana1, Z.eqb_refl. split; [done|].
  exists ir2, m2. split; [done|]. intros b Hb. rewrite Hana2, Hana1. by rewrite (proj2 (Z.eqb_neq _ _)).
Qed.
End ana.

(** ** A device *)

(** A firmware that keeps the chip's registers and reports a remote-control key
    ahead of every answer. *)
Definition ir_notice : list Z := message [0x83; 0x23; 0; 0x42].
Definition demo_firmware (f : Z -> Z) (msg : list Z) : (Z -> Z) * list (list Z) :=
  let a := byte_at msg 6 in
  if byte_at msg 1 =? 0x60 then
    (fun b => if b =? a then byte_at msg 8 .| (byte_at msg 9 .<< 8) .| (byte_at msg 10 .<< 16) .| (byte_at msg 11 .<< 24) else f b,
     [ir_notice; message [0x11]])
  else (f, [ir_notice; message [0x11; 0; 0; 0; u8 (f a .>> 0); u8 (f a .>> 8); u8 (f a .>> 16); u8 (f a .>> 24)]]).

Lemma message_cases l : (length l <= 16)%nat -> Forall is_byte l -> message_ok (message l).
Proof.
  intros Hl Hb. unfold message_ok, message. rewrite length_app, length_replicate. split; [lia|].
  apply Forall_app. split; [done|]. apply Forall_replicate. split; [discriminate|reflexivity].
Qed.

Lemma ir_notice_ok : notices [ir_notice].
Proof.
  split; apply Forall_singleton; [|done]. apply message_cases; [cbn; lia|].
  repeat (apply Forall_cons_2; [split; [discriminate|reflexivity]|]). apply Forall_nil_2.
Qed.

#[global] Instance demo_ana : AnaLaws (Z -> Z) demo_firmware.
Proof.
  refine {| ana f a := u32 (f a); max_notices := 1 |}; [intros; apply is_word_u32|..].
  - intros f a v Ha Hv. eexists _, [ir_notice], (message [0x11]). split; [reflexivity|].
    split_and!; [apply ir_notice_ok|cbn; lia|apply message_cases; [cbn; lia|apply Forall_singleton; done]|done|done|].
    intros b. change (byte_at (write_request a v) 6) with a. destruct (b =? a); [|done].
    transitivity (u32 v); [|by apply u32_id]. f_equal. rewrite <- ana_write_msg_bytes. by apply le_word_bytes.
  - intros f a Ha. eexists _, [ir_notice], _. split; [reflexivity|].
    split_and!; [apply ir_notice_ok|cbn; lia| |done|done| |done].
    + apply message_cases; [cbn; lia|]. repeat (apply Forall_cons_2; [first [apply is_byte_u8|split; [discriminate|reflexivity]]|]).
      apply Forall_nil_2.
    + change (byte_at (read_request a) 6) with a. intros i Hi.
      assert (u8 (u32 (f a) .>> (8 * i)) = u8 (f a .>> (8 * i))) as ->.
      { bitwise n Hn. rewrite !u8_bits, !Z.shiftr_spec, u32_bits by lia. destruct (Z.ltb_spec n 8); [|done].
        by rewrite (proj2 (Z.ltb_lt _ _)) by lia. }
      assert (i = 0 \/ i = 1 \/ i = 2 \/ i = 3) as [->|[->|[->| ->]]] by lia; done.
Defined.

(** The mailbox with a counter: two status reads before it is ready again. *)
Definition mailbox : Type := smc (Z -> Z) * nat.
Definition mb_wait (d : mailbox) : nat := Nat.min (snd d) 2.
#[global] Instance mailbox_io : Mmio mailbox := {|
  ld32 r d :=
    if r =? TX_CTRL then (if (mb_wait d =? 0)%nat then bswap32 4 else 0, (fst d, pred (mb_wait d)))
    else if r =? RX_CTRL then
      (if (mb_wait d =? 0)%nat && negb (no_messages (fst d)) then bswap32 4 else 0, (fst d, pred (mb_wait d)))
    else match sm_open (fst d) with
         | w :: ws => (w, (fst d <| sm_open := ws |>, snd d))
         | [] => (0, d)
         end;
  st32 r v d := (smc_write demo_firmware r v (fst d), 2%nat)
|}.

#[global] Instance mailbox_laws : SmcLaws mailbox (Z -> Z) demo_firmware.
Proof.
  refine {| sview := fst; delay := mb_wait; max_delay := 2 |}.
  - intros d. unfold mb_wait. lia.
  - done.
  - intros d. cbn. by destruct (mb_wait d =? 0)%nat.
  - intros d. cbn. by destruct ((mb_wait d =? 0)%nat && _).
  - intros r d Hr. assert (fst (snd (ld32 r d)) = fst d /\ snd (snd (ld32 r d)) = pred (mb_wait d)) as [E1 E2]
      by (destruct Hr as [<-|[<-|[]]]; done).
    split; [done|]. unfold mb_wait at 1. rewrite E2. unfold mb_wait. lia.
  - intros d w ws H. cbn. by rewrite H.
Defined.

Definition demo_mailbox : smc (Z -> Z) := mkAbs None [] [ir_notice] (fun _ => 0).
Definition demo_smc : smc_st mailbox := mkSmc (-1) (demo_mailbox, 0%nat).

Lemma ana_roundtrip_demo :
  runs (st <- xenon_smc_ana_write 20 0xFE 0x12345678 ;; r <- xenon_smc_ana_read 20 0xFE 0 ;; ret (st, r)) demo_smc
    (fun r _ => r = (0, (0, 0x12345678))).
Proof.
  eapply runs_mono; [|apply (ana_roundtrip (L := mailbox_laws) 20 demo_smc (-1) demo_mailbox);
    [split; reflexivity|apply ir_notice_ok|split; [discriminate|reflexivity]..|unfold patient; cbn; lia]].
  intros r s' [H _]. exact H.
Defined.

Definition answer : list Z := message [0x0f; 0x57].
Lemma answer_ok : message_ok answer.
Proof. apply message_cases; [cbn; lia|]. repeat (apply Forall_cons_2; [split; [discriminate|reflexivity]|]). apply Forall_nil_2. Qed.

Definition answered : smc (Z -> Z) := mkAbs None [] [ir_notice; answer] (fun _ => 0).

Lemma receive_response_skips_bulk_demo :
  runs (xenon_smc_receive_response 20 (replicate 16 0)) (mkSmc (-1) (answered, 0%nat))
    (fun res s' => res = (0, answer) /\ xenon_smc_last_ir s' = 0x42).
Proof.
  destruct ir_notice_ok as [H1 H2].
  eapply runs_mono; [|apply (receive_response_skips_bulk (L := mailbox_laws) 20 _ (-1) answered _ [ir_notice] answer []);
    [split; reflexivity|reflexivity|exact H1|exact H2|exact answer_ok|discriminate|reflexivity|unfold enough; cbn; lia]].
  intros res s' [E (m' & [E1 _] & _)]. split; [exact E|exact E1].
Defined.
