(* ===== verification/Sound.v ===== *)
(** * Sound output: [drivers/xenon_sound/sound.c]

    Samples are put in a circular buffer of 65536 bytes that the device plays
    through 32 descriptors of 2048 bytes.  The theorems say that submitting a
    block of any length is the same as writing its bytes one after the other
    round the buffer, and that a client that submits no more than it is told is
    free never overwrites bytes that are still to be played. *)
From S2P Require Import Prelude Bits Sfcx Smc.

Record snd_st (D : Type) := mkSnd {
  wptr : Z; buffer_len : Z;        (* static int *)
  buffer : list Z;                 (* static uint8_t[65536] *)
  descr : list Z;                  (* static uint32_t[0x20 * 2] *)
  snd_smc : smc_st D               (* the other drivers and the devices *)
}.
Arguments mkSnd {D}. Arguments wptr {D}. Arguments buffer_len {D}. Arguments buffer {D}.
Arguments descr {D}. Arguments snd_smc {D}.
#[global] Instance eta_snd D : Eta (snd_st D) := fun r =>
  mkSnd (wptr r) (buffer_len r) (buffer r) (descr r) (snd_smc r).

Definition snd_base : Z := 0xea001600.
Definition BUFFER_SIZE : Z := 65536.

Section sound.
Context {D : Type} {IO : Mmio D} (fuel : nat).
Local Abbreviation MS := (M (snd_st D)).

(** Code of the other drivers. *)
Definition dev {A} (m : M (smc_st D) A) : MS A := fun s =>
  match m (snd_smc s) with
  | Ok a d => Ok a (s <| snd_smc := d |>)
  | Fault => Fault
  | Blocked => Blocked
  | Diverge => Diverge
  end.

(** ** Set-up *)

(** The writes that switch the sound of the HDMI chip on. *)
Definition hdmi_audio : list (Z * Z) :=
  [(0x0214, 0x11); (0x0202, 0x03); (0x0203, 0x00); (0x0204, 0x18); (0x0205, 0x00); (0x021d, 0x40);
   (0x0221, 0x02); (0x0222, 0x2b); (0x022f, 0x01); (0x023e, 0x3f); (0x02df, 0x10)].

(** The descriptors of a buffer at physical address [base]. *)
Definition descriptors (base len : Z) : list Z :=
  seq 0 0x20 ≫= (fun i => [bswap32 (u32 (base + Z.quot len 0x20 * Z.of_nat i)); bswap32 (0x80000000 .| Z.quot len 0x20)]).

(** [xenos_is_hdmi] and the addresses of the two arrays are inputs. *)
Definition xenon_sound_init (xenos_is_hdmi buffer_addr descr_addr : Z) : MS unit :=
  dev (xenon_gpio_control 5 0x1000 0x1000) ;;
  dev (xenon_gpio_control 0 0x1000 0x1000) ;;
  dev (xenon_gpio_control 4 0x1000 0x1000) ;;
  when (nz xenos_is_hdmi)
    (for_each hdmi_audio (fun '(a, v) => dev (xenon_smc_i2c_write fuel a v) ;; ret tt)) ;;
  dev (xenon_smc_send_message fuel (message [0x8d; 1; 1])) ;;
  let descr_base := descr_addr .& 0x1fffffff in
  modify (fun s => s <| buffer_len := BUFFER_SIZE |>) ;;
  modify (fun s => s <| buffer := replicate (Z.to_nat BUFFER_SIZE) 0 |>) ;;
  let buffer_base := buffer_addr .& 0x1fffffff in
  modify (fun s => s <| descr := descriptors buffer_base (buffer_len s) |>) ;;
  dev (write32 (snd_base + 8) 0) ;;
  dev (write32 (snd_base + 8) 0x2000000) ;;
  dev (write32 (snd_base + 0) descr_base) ;;
  dev (write32 (snd_base + 8) 0x1d08001c) ;;
  dev (write32 (snd_base + 0xC) 0x1c) ;;
  modify (fun s => s <| wptr := 0 |>).

(** ** Submitting samples *)

(** [memcpy(buffer + wptr, data + i, av)]; outside the arrays it is a fault. *)
Definition copy_in (data : list Z) (i av : Z) : MS unit := fun s =>
  let piece := take (Z.to_nat av) (drop (Z.to_nat i) data) in
  if (0 <=? av) && (i + av <=? Z.of_nat (length data)) && (0 <=? wptr s) && (wptr s + av <=? Z.of_nat (length (buffer s)))
  then Ok tt (s <| buffer ::= write_at (Z.to_nat (wptr s)) piece |>)
  else Fault.

(** A round of the loop: [i] bytes are done, [len] are left. *)
Definition submit_step (data : list Z) (st : Z * Z) : MS (option (Z * Z)) :=
  let '(i, len) := st in
  if len =? 0 then ret None else
  bl <- gets buffer_len ;;
  p <- gets wptr ;;
  let av := bl - p in
  let av := if len <? av then len else av in
  copy_in data i av ;;
  modify (fun s => s <| wptr ::= fun p => p + av |>) ;;
  p <- gets wptr ;;
  when (p =? bl) (modify (fun s => s <| wptr := 0 |>)) ;;
  ret (Some (i + av, len - av)).

Definition xenon_sound_submit (data : list Z) (len : Z) : MS unit :=
  while (S (length data)) (submit_step data) (0, len) ;;
  p <- gets wptr ;;
  bl <- gets buffer_len ;;
  let cur_descr := (Z.quot p (Z.quot bl 0x20) - 1) .& 0x1f in
  dev (write32 (snd_base + 4) (cur_descr .<< 8)) ;;
  v <- dev (read32 snd_base) ;;
  dev (write32 (snd_base + 8) (v .| 0x1000000)).

(** ** How much is left *)

(** The fields of the position register. *)
Definition rptr_descr (reg : Z) : Z := reg .& 0x1f.
Definition last_valid_descr (reg : Z) : Z := (reg .& 0x1f00) .>> 8.
Definition cur_len (reg : Z) : Z := (reg .>> 16) .& 0xFFFF.

Definition free_bytes (reg p bl : Z) : Z :=
  if (rptr_descr reg =? last_valid_descr reg) && negb (nz (cur_len reg)) then bl else
  let rptr := rptr_descr reg * Z.quot bl 0x20 in
  let av := rptr - p in
  if av <? 0 then av + bl else av.

Definition xenon_sound_get_free : MS Z :=
  reg <- dev (read32 (snd_base + 4)) ;;
  bl <- gets buffer_len ;;
  p <- gets wptr ;;
  ret (free_bytes reg p bl).

Definition unplayed_bytes (reg bl : Z) : Z :=
  let l := last_valid_descr reg - rptr_descr reg in
  let l := if l <? 0 then l + 0x20 else l in
  l * Z.quot bl 0x20 + cur_len reg.

Definition xenon_sound_get_unplayed : MS Z :=
  reg <- dev (read32 (snd_base + 4)) ;;
  bl <- gets buffer_len ;;
  ret (unplayed_bytes reg bl).

(** ** One byte at a time *)

Fixpoint ring_put (data : list Z) (p : Z) (buf : list Z) : Z * list Z :=
  match data with
  | [] => (p, buf)
  | x :: data => ring_put data ((p + 1) mod BUFFER_SIZE) (<[Z.to_nat p := x]> buf)
  end.

Lemma ring_put_app d1 d2 p buf :
  ring_put (d1 ++ d2) p buf = let (p', buf') := ring_put d1 p buf in ring_put d2 p' buf'.
Proof. revert p buf. induction d1 as [|x d1 IH]; intros p buf; cbn [app ring_put]; [done|apply IH]. Qed.

(** A piece that does not run over the end is one copy. *)
Lemma ring_put_piece d : forall p buf, 0 <= p -> length buf = Z.to_nat BUFFER_SIZE ->
  p + Z.of_nat (length d) <= BUFFER_SIZE -> p < BUFFER_SIZE ->
  ring_put d p buf = ((p + Z.of_nat (length d)) mod BUFFER_SIZE, write_at (Z.to_nat p) d buf).
Proof.
  assert (0 < BUFFER_SIZE) as HB by done.
  induction d as [|x d IH]; intros p buf Hp Hl Hd Hlt; cbn [ring_put].
  - rewrite Z.add_0_r, Z.mod_small by lia. unfold write_at. cbn. by rewrite Nat.add_0_r, take_drop.
  - rewrite length_cons in *. destruct (decide (d = [])) as [->|Hne].
    + cbn [ring_put length]. f_equal. unfold write_at. rewrite insert_take_drop by lia. cbn. by rewrite Nat.add_1_r.
    + assert (0 < length d)%nat by (destruct d; cbn; [done|lia]).
      rewrite (Z.mod_small (p + 1)) by lia. rewrite IH by (rewrite ?length_insert; lia).
      f_equal; [f_equal; lia|]. unfold write_at. rewrite Z2Nat.inj_add by lia. change (Z.to_nat 1) with 1%nat.
      rewrite Nat.add_1_r, (take_S_r _ _ x) by (apply list_lookup_insert_eq; lia).
      rewrite take_insert_ge, <- app_assoc by lia. cbn [app]. rewrite drop_insert_lt by lia. do 4 f_equal. rewrite length_cons. lia.
Qed.

(** ** The invariant of the buffer *)

Record snd_wf (s : snd_st D) : Prop := {
  sw_len : buffer_len s = BUFFER_SIZE;
  sw_buffer : length (buffer s) = Z.to_nat BUFFER_SIZE;
  sw_wptr : 0 <= wptr s < BUFFER_SIZE
}.

(** The state with bytes [d] put in. *)
Definition put_bytes (d : list Z) (s : snd_st D) : snd_st D :=
  let (p, buf) := ring_put d (wptr s) (buffer s) in s <| wptr := p |> <| buffer := buf |>.

Lemma put_bytes_app d1 d2 s : put_bytes (d1 ++ d2) s = put_bytes d2 (put_bytes d1 s).
Proof.
  unfold put_bytes. rewrite ring_put_app. destruct (ring_put d1 (wptr s) (buffer s)) as [p buf]. cbn.
  by destruct (ring_put d2 p buf).
Qed.

Lemma ring_put_length d : forall p buf, length (snd (ring_put d p buf)) = length buf.
Proof. induction d as [|x d IH]; intros p buf; cbn [ring_put]; [done|]. rewrite IH. apply length_insert. Qed.

Lemma ring_put_ptr d : forall p buf, 0 <= p < BUFFER_SIZE -> fst (ring_put d p buf) = (p + Z.of_nat (length d)) mod BUFFER_SIZE.
Proof.
  induction d as [|x d IH]; intros p buf Hp; cbn [ring_put fst].
  - rewrite Z.add_0_r. by rewrite Z.mod_small.
  - rewrite IH by (apply Z.mod_pos_bound; done). rewrite Zplus_mod_idemp_l. f_equal. rewrite length_cons. lia.
Qed.

Lemma put_bytes_wf d s : snd_wf s -> snd_wf (put_bytes d s).
Proof.
  intros [H1 H2 H3]. pose proof (ring_put_length d (wptr s) (buffer s)) as Hl. pose proof (ring_put_ptr d (wptr s) (buffer s) H3) as Hp.
  unfold put_bytes. destruct (ring_put d (wptr s) (buffer s)) as [p buf]. cbn [fst snd] in *. split; cbn.
  - done.
  - congruence.
  - rewrite Hp. by apply Z.mod_pos_bound.
Qed.

(** *** The loop *)

Lemma submit_step_run data i len s : snd_wf s -> 0 <= i -> 0 < len -> i + len = Z.of_nat (length data) ->
  exists av, 0 < av <= len /\
    submit_step data (i, len) s =
    Ok (Some (i + av, len - av)) (put_bytes (take (Z.to_nat av) (drop (Z.to_nat i) data)) s).
Proof.
  intros [H1 H2 H3] Hi Hlen Hd. set (av := if len <? BUFFER_SIZE - wptr s then len else BUFFER_SIZE - wptr s).
  assert (0 < av <= len /\ av <= BUFFER_SIZE - wptr s) as [Hav Hroom].
  { unfold av. destruct (Z.ltb_spec len (BUFFER_SIZE - wptr s)); lia. }
  exists av. split; [done|]. unfold submit_step. rewrite (proj2 (Z.eqb_neq len 0)) by lia.
  unfold bind at 1 2, gets at 1 2. rewrite H1. fold av. cbn zeta. clearbody av.
  set (piece := take (Z.to_nat av) (drop (Z.to_nat i) data)).
  assert (Z.of_nat (length piece) = av) as Hpl by (unfold piece; rewrite length_take, length_drop; lia).
  unfold bind at 1, copy_in. rewrite H2.
  replace ((0 <=? av) && (i + av <=? Z.of_nat (length data)) && (0 <=? wptr s) && (wptr s + av <=? Z.of_nat (Z.to_nat BUFFER_SIZE)))
    with true by (symmetry; rewrite !andb_true_iff, !Z.leb_le; lia).
  fold piece. unfold put_bytes. rewrite (ring_put_piece piece) by (done || lia). rewrite Hpl.
  unfold bind at 1, modify at 1. unfold bind at 1, gets. cbn [set wptr].
  destruct (Z.eqb_spec (wptr s + av) BUFFER_SIZE) as [E|E].
  - unfold when, bind, modify, ret. f_equal. rewrite E, Z.mod_same by done. done.
  - unfold when, bind, ret. f_equal. rewrite Z.mod_small by lia. done.
Qed.

Lemma submit_loop data : forall n i len s, snd_wf s -> 0 <= i -> 0 <= len -> i + len = Z.of_nat (length data) -> len < Z.of_nat n ->
  while n (submit_step data) (i, len) s = Ok (i + len, 0) (put_bytes (drop (Z.to_nat i) data) s).
Proof.
  induction n as [|n IH]; intros i len s Hs Hi Hlen Hd Hn; [lia|]. cbn [while].
  destruct (decide (len = 0)) as [->|Hne].
  - unfold bind, submit_step, ret. cbn [Z.eqb]. rewrite Z.add_0_r, drop_ge by lia. unfold put_bytes. cbn [ring_put]. by destruct s.
  - destruct (submit_step_run data i len s Hs Hi ltac:(lia) Hd) as (av & Hav & E). rewrite (bind_ok _ _ _ _ _ E).
    rewrite IH by (try apply put_bytes_wf; done || lia). f_equal; [f_equal; lia|].
    rewrite <- put_bytes_app. f_equal. rewrite Z2Nat.inj_add, <- drop_drop by lia. apply take_drop.
Qed.

(** ** Where the bytes go *)

Lemma ring_dist j p : 0 <= p < BUFFER_SIZE -> 0 <= j < BUFFER_SIZE ->
  (j - p) mod BUFFER_SIZE = if p <=? j then j - p else j - p + BUFFER_SIZE.
Proof.
  intros Hp Hj. destruct (Z.leb_spec p j).
  - apply Z.mod_small. lia.
  - rewrite <- (Z_mod_plus_full _ 1), Z.mul_1_l. apply Z.mod_small. lia.
Qed.

Ltac split_leb := repeat match goal with |- context [?a <=? ?b] => destruct (Z.leb_spec a b) end.

(** One place on, the distance to the others is one less. *)
Lemma ring_dist_next j p : 0 <= p < BUFFER_SIZE -> 0 <= j < BUFFER_SIZE ->
  (j - (p + 1) mod BUFFER_SIZE) mod BUFFER_SIZE =
  if j =? p then BUFFER_SIZE - 1 else (j - p) mod BUFFER_SIZE - 1.
Proof.
  intros Hp Hj. rewrite !ring_dist by (done || by apply Z.mod_pos_bound).
  destruct (decide (p + 1 = BUFFER_SIZE)) as [E|E].
  - rewrite E, Z.mod_same by done. destruct (Z.eqb_spec j p); split_leb; lia.
  - rewrite Z.mod_small by lia. destruct (Z.eqb_spec j p); split_leb; lia.
Qed.

Lemma ring_put_lookup d : forall p buf j, 0 <= p < BUFFER_SIZE -> 0 <= j < BUFFER_SIZE ->
  length buf = Z.to_nat BUFFER_SIZE -> Z.of_nat (length d) <= BUFFER_SIZE ->
  snd (ring_put d p buf) !! Z.to_nat j =
    let k := Z.to_nat ((j - p) mod BUFFER_SIZE) in
    if decide (k < length d)%nat then d !! k else buf !! Z.to_nat j.
Proof.
  induction d as [|x d IH]; intros p buf j Hp Hj Hl Hd; cbn [ring_put snd]; cbv zeta.
  - rewrite decide_False by (cbn; lia). done.
  - rewrite length_cons in *. assert (0 <= (p + 1) mod BUFFER_SIZE < BUFFER_SIZE) as Hp' by (by apply Z.mod_pos_bound).
    rewrite IH by (rewrite ?length_insert; lia). cbv zeta. rewrite ring_dist_next by done.
    destruct (Z.eqb_spec j p) as [->|Hne].
    + rewrite decide_False by lia. rewrite Z.sub_diag. change (Z.to_nat (0 mod BUFFER_SIZE)) with 0%nat.
      rewrite list_lookup_insert_eq by lia. rewrite decide_True by lia. done.
    + rewrite list_lookup_insert_ne by lia.
      assert (0 < (j - p) mod BUFFER_SIZE) as Hk by (rewrite ring_dist by done; split_leb; lia).
      replace (Z.to_nat ((j - p) mod BUFFER_SIZE)) with (S (Z.to_nat ((j - p) mod BUFFER_SIZE - 1))) by lia.
      generalize (Z.to_nat ((j - p) mod BUFFER_SIZE - 1)). intros m. cbn [lookup list_lookup]. repeat case_decide; try done; lia.
Qed.

Lemma submit_run data s : snd_wf s ->
  runs (xenon_sound_submit data (Z.of_nat (length data))) s (fun _ s' =>
    buffer s' = buffer (put_bytes data s) /\ wptr s' = wptr (put_bytes data s) /\ snd_wf s').
Proof.
  intros Hs. unfold xenon_sound_submit.
  pose proof (submit_loop data (S (length data)) 0 (Z.of_nat (length data)) s Hs ltac:(lia) ltac:(lia) ltac:(lia) ltac:(lia)) as E.
  change (drop (Z.to_nat 0) data) with data in E. unfold runs. rewrite (bind_ok _ _ _ _ _ E).
  pose proof (put_bytes_wf data s Hs) as Hw. generalize dependent (put_bytes data s). intros s1 _ Hw.
  unfold dev, write32, write32n, read32, read32n, bind, gets, modify, ret. cbn -[ld32 st32 Z.quot].
  match goal with |- context [ld32 ?a ?d] => destruct (ld32 a d) as [v d'] end.
  eexists tt, _. split; [reflexivity|]. cbn. split_and!; [done|done|]. by destruct Hw.
Qed.

(** ** What a client may submit *)

(** The device has played everything it was given. *)
Definition idle (reg : Z) : bool := (rptr_descr reg =? last_valid_descr reg) && negb (nz (cur_len reg)).
(** The place in the buffer the device reads from. *)
Definition rptr (reg : Z) : Z := rptr_descr reg * 2048.
(** The position register. *)
Definition position (s : snd_st D) : Z := bswap32 (fst (ld32 (snd_base + 4) (smc_dev (snd_smc s)))).

Lemma rptr_range reg : 0 <= rptr reg < BUFFER_SIZE.
Proof.
  unfold rptr, rptr_descr. change 0x1f with (Z.ones 5). rewrite Z.land_ones by lia.
  pose proof (Z.mod_pos_bound reg (2 ^ 5) ltac:(lia)). change BUFFER_SIZE with (2048 * 2 ^ 5). lia.
Qed.

Lemma free_bytes_spec reg p : 0 <= p < BUFFER_SIZE ->
  free_bytes reg p BUFFER_SIZE = if idle reg then BUFFER_SIZE else (rptr reg - p) mod BUFFER_SIZE.
Proof.
  intros Hp. unfold free_bytes. fold (idle reg). destruct (idle reg); [done|].
  change (Z.quot BUFFER_SIZE 0x20) with 2048. fold (rptr reg). pose proof (rptr_range reg).
  rewrite ring_dist by done. destruct (Z.ltb_spec (rptr reg - p) 0); split_leb; lia.
Qed.

Lemma get_free_run s : snd_wf s ->
  runs xenon_sound_get_free s (fun n s1 =>
    n = (if idle (position s) then BUFFER_SIZE else (rptr (position s) - wptr s) mod BUFFER_SIZE) /\
    wptr s1 = wptr s /\ buffer s1 = buffer s /\ snd_wf s1).
Proof.
  intros Hs. unfold xenon_sound_get_free, dev, read32, read32n, position, runs, bind, gets, ret.
  destruct (ld32 (snd_base + 4) (smc_dev (snd_smc s))) as [v d]. cbn -[BUFFER_SIZE idle rptr free_bytes].
  eexists _, _. split; [reflexivity|]. rewrite (sw_len _ Hs), free_bytes_spec by apply Hs. split_and!; [done|done|done|]. by destruct Hs.
Qed.

(** C38: a client that submits no more than it is told is free loses no
    samples.  After [xenon_sound_get_free] has answered [n], with [0 <= n <=
    65536], submitting any block of at most [n] bytes returns; its bytes are in
    the buffer one after the other from the write position, going round at the
    end, and the write position is behind them; and unless the device had
    played everything, the bytes from its read position up to the write
    position, which are still to be played, are as they were. *)
Theorem sound_submit_safe s : snd_wf s ->
  runs xenon_sound_get_free s (fun n s1 =>
    0 <= n <= BUFFER_SIZE /\
    forall data, Z.of_nat (length data) <= n ->
    runs (xenon_sound_submit data (Z.of_nat (length data))) s1 (fun _ s2 =>
      snd_wf s2 /\ wptr s2 = (wptr s + Z.of_nat (length data)) mod BUFFER_SIZE /\
      (forall k, (k < length data)%nat -> buffer s2 !! Z.to_nat ((wptr s + Z.of_nat k) mod BUFFER_SIZE) = data !! k) /\
      (idle (position s) = false -> forall j, 0 <= j < BUFFER_SIZE ->
         (j - rptr (position s)) mod BUFFER_SIZE < (wptr s - rptr (position s)) mod BUFFER_SIZE ->
         buffer s2 !! Z.to_nat j = buffer s !! Z.to_nat j))).
Proof.
  intros Hs. eapply runs_mono; [|by apply get_free_run]. cbn beta. intros n s1 (Hn & Hp & Hb & Hs1).
  pose proof (sw_wptr _ Hs) as Hw. pose proof (rptr_range (position s)) as Hr.
  assert (0 <= (rptr (position s) - wptr s) mod BUFFER_SIZE < BUFFER_SIZE) as Hm by (by apply Z.mod_pos_bound).
  split; [rewrite Hn; destruct (idle (position s)); [split; [done|reflexivity]|lia]|].
  intros data Hd. assert (Z.of_nat (length data) <= BUFFER_SIZE) as HdB by (rewrite Hn in Hd; destruct (idle (position s)); lia).
  eapply runs_mono; [|by apply submit_run]. cbn beta. intros _ s2 (Eb & Ep & Hs2).
  pose proof (ring_put_ptr data (wptr s) (buffer s) Hw) as Hptr.
  assert (forall j, 0 <= j < BUFFER_SIZE -> buffer s2 !! Z.to_nat j =
    let k := Z.to_nat ((j - wptr s) mod BUFFER_SIZE) in if decide (k < length data)%nat then data !! k else buffer s !! Z.to_nat j) as Hlk.
  { intros j Hj. rewrite <- (ring_put_lookup data (wptr s) (buffer s) j Hw Hj (sw_buffer _ Hs) HdB). rewrite Eb. unfold put_bytes. rewrite Hp, Hb.
    by destruct (ring_put data (wptr s) (buffer s)). }
  split_and!; [done| | |].
  - rewrite Ep, <- Hptr. unfold put_bytes. rewrite Hp, Hb. by destruct (ring_put data (wptr s) (buffer s)).
  - intros k Hk. rewrite Hlk by (by apply Z.mod_pos_bound). cbv zeta.
    rewrite Zminus_mod_idemp_l. replace (wptr s + Z.of_nat k - wptr s) with (Z.of_nat k) by lia.
    rewrite Z.mod_small, Nat2Z.id by lia. by rewrite decide_True.
  - intros Hidle j Hj Hrange. rewrite Hlk by done. cbv zeta. rewrite decide_False; [done|].
    rewrite Hidle in Hn. rewrite Hn in Hd. revert Hd Hrange. rewrite !ring_dist by done. split_leb; lia.
Qed.

(** [xenon_sound_init] makes the state the others rely on. *)
Lemma dev_keeps {A} (m : M (smc_st D) A) s a s' : dev m s = Ok a s' -> buffer_len s' = buffer_len s /\ buffer s' = buffer s.
Proof. unfold dev. destruct (m (snd_smc s)); [|done..]. by intros [= _ <-]. Qed.

Lemma init_wf h b d s s' : xenon_sound_init h b d s = Ok tt s' -> snd_wf s'.
Proof.
  pose proof (length_replicate (Z.to_nat BUFFER_SIZE) 0) as HL. unfold xenon_sound_init. cbv zeta.
  generalize dependent (replicate (Z.to_nat BUFFER_SIZE) 0). intros zeros HL H. minv.
  repeat match goal with E : dev _ _ = Ok _ _ |- _ => apply dev_keeps in E as [? ?] end.
  unfold modify in *. simplify_eq. cbn [set buffer buffer_len wptr] in *.
  split; cbn [set buffer buffer_len wptr].
  - congruence.
  - congruence.
  - split; [done|reflexivity].
Qed.
End sound.

(** A device whose position register says that descriptor 1 is being played
    and descriptor 2 is the last, with the write position before the end of
    the buffer: 2048 bytes are free up to the end and 2048 more from its start
    on. *)
Definition demo_position : Z := bswap32 0x00100201.
#[global] Instance position_io : Mmio unit := {| ld32 := fun _ d => (demo_position, d); st32 := fun _ _ d => d |}.
Definition demo_snd : snd_st unit := mkSnd 63488 BUFFER_SIZE (replicate (Z.to_nat BUFFER_SIZE) 7) [] (mkSmc 0 tt).

Lemma sound_submit_safe_demo :
  runs xenon_sound_get_free demo_snd (fun n s1 =>
    runs (xenon_sound_submit (replicate 3000 9) 3000) s1 (fun _ s2 => wptr s2 = 952)).
Proof.
  assert (snd_wf demo_snd) as Hwf.
  { split; [done|cbn [buffer demo_snd]; apply length_replicate|cbn [wptr demo_snd]; split; [done|reflexivity]]. }
  pose proof (get_free_run demo_snd Hwf) as (n & s1 & E & Hn & _).
  pose proof (sound_submit_safe demo_snd Hwf) as (n' & s1' & E' & _ & Hsub).
  rewrite E in E'. injection E' as <- <-. exists n, s1. split; [done|].
  assert (n = 4096) as -> by (rewrite Hn; by vm_compute).
  eapply runs_mono; [|apply (Hsub (replicate 3000 9)); by vm_compute]. cbn beta. intros _ s2 (_ & -> & _). by vm_compute.
Defined.
