(* ===== verification/Xb360.v ===== *)
(** * The console's keys and its boot loader: [drivers/xb360/xb360.c]

    The key vault is read from flash, decrypted and checked; the boot loader in
    flash is replaced.  [fuses] is the content of the fuse lines
    ([xenon_soc/xenon_secotp.c] reads them); [uninit n] is what a fresh local
    array of [n] bytes holds, [stack_ctx] what a fresh local context holds. *)
From S2P Require Import Prelude Bits Sfcx Sha1 Rc4 Smc.

(** ** The key vault's directory *)

Definition XEKEY_MANUFACTURING_MODE : Z := 0x00.
Definition XEKEY_ALTERNATE_KEY_VAULT : Z := 0x01.
Definition XEKEY_RESERVED_BYTE2 : Z := 0x02.
Definition XEKEY_RESERVED_BYTE3 : Z := 0x03.
Definition XEKEY_RESERVED_WORD1 : Z := 0x04.
Definition XEKEY_RESERVED_WORD2 : Z := 0x05.
Definition XEKEY_RESTRICTED_HVEXT_LOADER : Z := 0x06.
Definition XEKEY_RESERVED_DWORD2 : Z := 0x07.
Definition XEKEY_RESERVED_DWORD3 : Z := 0x08.
Definition XEKEY_RESERVED_DWORD4 : Z := 0x09.
Definition XEKEY_RESTRICTED_PRIVILEDGES : Z := 0x0A.
Definition XEKEY_RESERVED_QWORD2 : Z := 0x0B.
Definition XEKEY_RESERVED_QWORD3 : Z := 0x0C.
Definition XEKEY_RESERVED_QWORD4 : Z := 0x0D.
Definition XEKEY_RESERVED_KEY1 : Z := 0x0E.
Definition XEKEY_RESERVED_KEY2 : Z := 0x0F.
Definition XEKEY_RESERVED_KEY3 : Z := 0x10.
Definition XEKEY_RESERVED_KEY4 : Z := 0x11.
Definition XEKEY_RESERVED_RANDOM_KEY1 : Z := 0x12.
Definition XEKEY_RESERVED_RANDOM_KEY2 : Z := 0x13.
Definition XEKEY_CONSOLE_SERIAL_NUMBER : Z := 0x14.
Definition XEKEY_MOBO_SERIAL_NUMBER : Z := 0x15.
Definition XEKEY_GAME_REGION : Z := 0x16.
Definition XEKEY_CONSOLE_OBFUSCATION_KEY : Z := 0x17.
Definition XEKEY_KEY_OBFUSCATION_KEY : Z := 0x18.
Definition XEKEY_ROAMABLE_OBFUSCATION_KEY : Z := 0x19.
Definition XEKEY_DVD_KEY : Z := 0x1A.
Definition XEKEY_PRIMARY_ACTIVATION_KEY : Z := 0x1B.
Definition XEKEY_SECONDARY_ACTIVATION_KEY : Z := 0x1C.
Definition XEKEY_GLOBAL_DEVICE_2DES_KEY1 : Z := 0x1D.
Definition XEKEY_GLOBAL_DEVICE_2DES_KEY2 : Z := 0x1E.
Definition XEKEY_WIRELESS_CONTROLLER_MS_2DES_KEY1 : Z := 0x1F.
Definition XEKEY_WIRELESS_CONTROLLER_MS_2DES_KEY2 : Z := 0x20.
Definition XEKEY_WIRED_WEBCAM_MS_2DES_KEY1 : Z := 0x21.
Definition XEKEY_WIRED_WEBCAM_MS_2DES_KEY2 : Z := 0x22.
Definition XEKEY_WIRED_CONTROLLER_MS_2DES_KEY1 : Z := 0x23.
Definition XEKEY_WIRED_CONTROLLER_MS_2DES_KEY2 : Z := 0x24.
Definition XEKEY_MEMORY_UNIT_MS_2DES_KEY1 : Z := 0x25.
Definition XEKEY_MEMORY_UNIT_MS_2DES_KEY2 : Z := 0x26.
Definition XEKEY_OTHER_XSM3_DEVICE_MS_2DES_KEY1 : Z := 0x27.
Definition XEKEY_OTHER_XSM3_DEVICE_MS_2DES_KEY2 : Z := 0x28.
Definition XEKEY_WIRELESS_CONTROLLER_3P_2DES_KEY1 : Z := 0x29.
Definition XEKEY_WIRELESS_CONTROLLER_3P_2DES_KEY2 : Z := 0x2A.
Definition XEKEY_WIRED_WEBCAM_3P_2DES_KEY1 : Z := 0x2B.
Definition XEKEY_WIRED_WEBCAM_3P_2DES_KEY2 : Z := 0x2C.
Definition XEKEY_WIRED_CONTROLLER_3P_2DES_KEY1 : Z := 0x2D.
Definition XEKEY_WIRED_CONTROLLER_3P_2DES_KEY2 : Z := 0x2E.
Definition XEKEY_MEMORY_UNIT_3P_2DES_KEY1 : Z := 0x2F.
Definition XEKEY_MEMORY_UNIT_3P_2DES_KEY2 : Z := 0x30.
Definition XEKEY_OTHER_XSM3_DEVICE_3P_2DES_KEY1 : Z := 0x31.
Definition XEKEY_OTHER_XSM3_DEVICE_3P_2DES_KEY2 : Z := 0x32.
Definition XEKEY_CONSOLE_PRIVATE_KEY : Z := 0x33.
Definition XEKEY_XEIKA_PRIVATE_KEY : Z := 0x34.
Definition XEKEY_CARDEA_PRIVATE_KEY : Z := 0x35.
Definition XEKEY_CONSOLE_CERTIFICATE : Z := 0x36.
Definition XEKEY_XEIKA_CERTIFICATE : Z := 0x37.
Definition XEKEY_CARDEA_CERTIFICATE : Z := 0x38.

Definition KV_FLASH_SIZE : Z := 0x4000.
Definition KV_FLASH_PAGES : Z := Z.quot KV_FLASH_SIZE 0x200.
Definition KV_FLASH_PTR : Z := 0x6C.

Record kventry := mkEntry { id : Z; offset : Z; length_ : Z }.

Definition kvlookup : list kventry := [
  mkEntry XEKEY_MANUFACTURING_MODE 0x18 0x01;
  mkEntry XEKEY_ALTERNATE_KEY_VAULT 0x19 0x01;
  mkEntry XEKEY_RESERVED_BYTE2 0x1A 0x01;
  mkEntry XEKEY_RESERVED_BYTE3 0x1B 0x01;
  mkEntry XEKEY_RESERVED_WORD1 0x1C 0x02;
  mkEntry XEKEY_RESERVED_WORD2 0x1E 0x02;
  mkEntry XEKEY_RESTRICTED_HVEXT_LOADER 0x20 0x02;
  mkEntry XEKEY_RESERVED_DWORD2 0x24 0x04;
  mkEntry XEKEY_RESERVED_DWORD3 0x28 0x04;
  mkEntry XEKEY_RESERVED_DWORD4 0x2c 0x04;
  mkEntry XEKEY_RESTRICTED_PRIVILEDGES 0x30 0x08;
  mkEntry XEKEY_RESERVED_QWORD2 0x38 0x08;
  mkEntry XEKEY_RESERVED_QWORD3 0x40 0x08;
  mkEntry XEKEY_RESERVED_QWORD4 0x48 0x08;
  mkEntry XEKEY_RESERVED_KEY1 0x50 0x10;
  mkEntry XEKEY_RESERVED_KEY2 0x60 0x10;
  mkEntry XEKEY_RESERVED_KEY3 0x70 0x10;
  mkEntry XEKEY_RESERVED_KEY4 0x80 0x10;
  mkEntry XEKEY_RESERVED_RANDOM_KEY1 0x90 0x10;
  mkEntry XEKEY_RESERVED_RANDOM_KEY2 0xA0 0x10;
  mkEntry XEKEY_CONSOLE_SERIAL_NUMBER 0xB0 0x0C;
  mkEntry XEKEY_MOBO_SERIAL_NUMBER 0xBC 0x0C;
  mkEntry XEKEY_GAME_REGION 0xC8 0x02;
  mkEntry XEKEY_CONSOLE_OBFUSCATION_KEY 0xD0 0x10;
  mkEntry XEKEY_KEY_OBFUSCATION_KEY 0xE0 0x10;
  mkEntry XEKEY_ROAMABLE_OBFUSCATION_KEY 0xF0 0x10;
  mkEntry XEKEY_DVD_KEY 0x100 0x10;
  mkEntry XEKEY_PRIMARY_ACTIVATION_KEY 0x110 0x18;
  mkEntry XEKEY_SECONDARY_ACTIVATION_KEY 0x128 0x10;
  mkEntry XEKEY_GLOBAL_DEVICE_2DES_KEY1 0x138 0x10;
  mkEntry XEKEY_GLOBAL_DEVICE_2DES_KEY2 0x148 0x10;
  mkEntry XEKEY_WIRELESS_CONTROLLER_MS_2DES_KEY1 0x158 0x10;
  mkEntry XEKEY_WIRELESS_CONTROLLER_MS_2DES_KEY2 0x168 0x10;
  mkEntry XEKEY_WIRED_WEBCAM_MS_2DES_KEY1 0x178 0x10;
  mkEntry XEKEY_WIRED_WEBCAM_MS_2DES_KEY2 0x188 0x10;
  mkEntry XEKEY_WIRED_CONTROLLER_MS_2DES_KEY1 0x198 0x10;
  mkEntry XEKEY_WIRED_CONTROLLER_MS_2DES_KEY2 0x1A8 0x10;
  mkEntry XEKEY_MEMORY_UNIT_MS_2DES_KEY1 0x1B8 0x10;
  mkEntry XEKEY_MEMORY_UNIT_MS_2DES_KEY2 0x1C8 0x10;
  mkEntry XEKEY_OTHER_XSM3_DEVICE_MS_2DES_KEY1 0x1D8 0x10;
  mkEntry XEKEY_OTHER_XSM3_DEVICE_MS_2DES_KEY2 0x1E8 0x10;
  mkEntry XEKEY_WIRELESS_CONTROLLER_3P_2DES_KEY1 0x1F8 0x10;
  mkEntry XEKEY_WIRELESS_CONTROLLER_3P_2DES_KEY2 0x208 0x10;
  mkEntry XEKEY_WIRED_WEBCAM_3P_2DES_KEY1 0x218 0x10;
  mkEntry XEKEY_WIRED_WEBCAM_3P_2DES_KEY2 0x228 0x10;
  mkEntry XEKEY_WIRED_CONTROLLER_3P_2DES_KEY1 0x238 0x10;
  mkEntry XEKEY_WIRED_CONTROLLER_3P_2DES_KEY2 0x248 0x10;
  mkEntry XEKEY_MEMORY_UNIT_3P_2DES_KEY1 0x258 0x10;
  mkEntry XEKEY_MEMORY_UNIT_3P_2DES_KEY2 0x268 0x10;
  mkEntry XEKEY_OTHER_XSM3_DEVICE_3P_2DES_KEY1 0x278 0x10;
  mkEntry XEKEY_OTHER_XSM3_DEVICE_3P_2DES_KEY2 0x288 0x10;
  mkEntry XEKEY_CONSOLE_PRIVATE_KEY 0x298 0x1D0;
  mkEntry XEKEY_XEIKA_PRIVATE_KEY 0x468 0x390;
  mkEntry XEKEY_CARDEA_PRIVATE_KEY 0x7F8 0x1D0;
  mkEntry XEKEY_CONSOLE_CERTIFICATE 0x9C8 0x1A8;
  mkEntry XEKEY_XEIKA_CERTIFICATE 0xB70 0x1388;
  mkEntry XEKEY_CARDEA_CERTIFICATE 0x1EF8 0x2108
].

(** The code, and what the caller's [keybuf] and [keybuflen] are left as;
    [None] for a copy that leaves an array. *)
Definition kv_get_key (keyid : Z) (keybuf : list Z) (keybuflen : Z) (keyvault : list Z) : option (Z * list Z * Z) :=
  if 0x38 <? keyid then Some (1, keybuf, keybuflen) else
  match kvlookup !! Z.to_nat keyid with
  | None => None
  | Some e =>
      if negb (keybuflen =? length_ e) then Some (2, keybuf, length_ e) else
      if (offset e + length_ e <=? Z.of_nat (length keyvault)) && (length_ e <=? Z.of_nat (length keybuf)) then
        Some (0, write_at 0 (take (Z.to_nat (length_ e)) (drop (Z.to_nat (offset e)) keyvault)) keybuf, keybuflen)
      else None
  end.

Section xb360.
Context {D : Type} {N : Nand D} (fuel : nat).
Context (fuses : Z -> Z) (uninit : Z -> list Z) (stack_ctx : HMAC_SHA1_CTX).
Local Abbreviation MN := (M (nst D)).
Implicit Types data : list Z.

(** ** The processor's key *)

Definition xenon_secotp_read_line (nr : Z) : Z := if (nr <? 0) || (12 <=? nr) then 2 ^ 64 - 1 else fuses nr.

(** An [unsigned long long] in memory. *)
Definition put_be64 (v : Z) : list Z := put_be (v .>> 32) ++ put_be v.

Definition cpu_get_key data : Z * list Z :=
  let data := write_at 0 (put_be64 (xenon_secotp_read_line 3)) data in
  (0, write_at 8 (put_be64 (xenon_secotp_read_line 5)) data).

Definition vfuses_offset : Z := 0x95000.
Definition virtualfuses_read data : MN (Z * list Z) :=
  s <- get ;;
  if negb (initialized (sfc s) =? SFCX_INITIALIZED) then ret (1, data) else
  let* (status, data) := sfcx_read_page fuel data vfuses_offset false in
  if negb (SFCX_SUCCESS status) then ret (2, data) else ret (0, data).

Definition get_virtual_cpukey data : MN (Z * list Z) :=
  let* (result, buffer) := virtualfuses_read (uninit MAX_PAGE_SZ) in
  if negb (result =? 0) then ret (result, data) else
  if (byte_at buffer 0 =? 0xC0) && (byte_at buffer 1 =? 0xFF) && (byte_at buffer 2 =? 0xFF) && (byte_at buffer 3 =? 0xFF)
  then ret (0, write_at 0 (take 0x10 (drop 0x20 buffer)) data)
  else ret (1, data).

(** ** The key vault *)

(** [while (togo)]: page [page] to [&data[cntr * page_sz]]. *)
Fixpoint kv_pages (togo : nat) data (page cntr : Z) : MN (list Z) :=
  match togo with
  | O => ret data
  | S togo =>
      s <- get ;;
      let off := Z.to_nat (cntr * page_sz (sfc s)) in
      let* (_, tl) := sfcx_read_page fuel (drop off data) (s32 (page * page_sz (sfc s))) false in
      kv_pages togo (take off data ++ tl) (page + 1) (cntr + 1)
  end.

Definition kv_ptr (buffer : list Z) : Z :=
  s32 (get_be (byte_at buffer (KV_FLASH_PTR + 0)) (byte_at buffer (KV_FLASH_PTR + 1))
              (byte_at buffer (KV_FLASH_PTR + 2)) (byte_at buffer (KV_FLASH_PTR + 3))).

(** Decrypting the vault in place. *)
Definition kv_decrypt (cpu_key data : list Z) : option (list Z) :=
  let hmac_key := take 0x10 data in
  let (rc4_key, _) := HMAC_SHA1 stack_ctx cpu_key hmac_key 0x10 in
  match rc4_init rc4_key 0x10 with
  | None => None
  | Some rc4_state =>
      match rc4_crypt rc4_state (drop 0x10 data) (KV_FLASH_SIZE - 0x10) with
      | Some (_, plain) => Some (take 0x10 data ++ plain)
      | None => None
      end
  end.

(** The hash over a copy of the decrypted vault and the two bytes [tmp]. *)
Definition kv_hash (cpu_key data : list Z) : list Z :=
  let ctx := HMAC_SHA1_Init stack_ctx in
  let (ctx, _) := HMAC_SHA1_UpdateKey ctx cpu_key 0x10 in
  let ctx := HMAC_SHA1_EndKey ctx in
  let ctx := HMAC_SHA1_StartMessage ctx in
  let (ctx, _) := HMAC_SHA1_UpdateMessage ctx (drop 0x10 data) (KV_FLASH_SIZE - 0x10) in
  let (ctx, _) := HMAC_SHA1_UpdateMessage ctx [0x07; 0x12] 0x02 in
  fst (HMAC_SHA1_EndMessage ctx).

(** [while (index < 0x10) if (data[index] != out[index]) return 2;]: [n] more. *)
Fixpoint kv_compare (n : nat) (index : Z) (data out : list Z) : Z :=
  match n with
  | O => 0
  | S n => if negb (byte_at data index =? byte_at out index) then 2 else kv_compare n (index + 1) data out
  end.

Definition kv_read data (virtualcpukey : bool) : MN (Z * list Z) :=
  s <- get ;;
  if negb (initialized (sfc s) =? SFCX_INITIALIZED) then ret (1, data) else
  let* (_, buffer) := sfcx_read_page fuel (replicate (Z.to_nat MAX_PAGE_SZ) 0) 0 false in
  s <- get ;;
  let page := Z.quot (kv_ptr buffer) (page_sz (sfc s)) in
  data <- kv_pages (Z.to_nat KV_FLASH_PAGES) data page 0 ;;
  let* (_, cpu_key) := (if virtualcpukey then get_virtual_cpukey (uninit 0x10) else ret (cpu_get_key (uninit 0x10))) in
  data <- of_option (kv_decrypt cpu_key data) ;;
  ret (kv_compare 0x10 0 data (kv_hash cpu_key data), data).

Definition kv_get_dvd_key (dvd_key : list Z) : MN (Z * list Z) :=
  let* (result, buffer) := kv_read (uninit KV_FLASH_SIZE) false in
  let* (result, buffer) :=
    (if result =? 2 then
       let* (r, _) := get_virtual_cpukey (uninit 0x10) in
       if r =? 0 then kv_read buffer true else ret (result, buffer)
     else ret (result, buffer)) in
  if negb (result =? 0) then ret (1, dvd_key) else
  r <- of_option (kv_get_key XEKEY_DVD_KEY dvd_key 0x10 buffer) ;;
  let '(result, dvd_key, _) := r in
  if negb (result =? 0) then ret (result, dvd_key) else ret (0, dvd_key).

(** ** Replacing the boot loader *)

Definition XELL_SIZE : Z := 256 * 1024.
Definition XELL_FOOTER_OFFSET : Z := 256 * 1024 - 16.
Definition XELL_FOOTER : list Z := replicate 16 0x78.
Definition xelloffsets : list Z := [0x70000; 0x95060; 0x100000; 0xC0000; 0xE0000; 0xB80000].

(** The first inner loop: raw page [i] split into its user and spare parts,
    [n] pages to go. *)
Fixpoint xell_read (n : nat) (i j : Z) (user spare pagebuf : list Z) : MN (list Z * list Z * list Z) :=
  match n with
  | O => ret (user, spare, pagebuf)
  | S n =>
      s <- get ;;
      let c := sfc s in
      let* (_, pagebuf) := sfcx_read_page fuel pagebuf (s32 (i * page_sz c)) true in
      let user := write_at (Z.to_nat (j * page_sz c)) (take (Z.to_nat (page_sz c)) pagebuf) user in
      let spare := write_at (Z.to_nat (j * meta_sz c))
        (take (Z.to_nat (meta_sz c)) (drop (Z.to_nat (page_sz c)) pagebuf)) spare in
      xell_read n (i + 1) (j + 1) user spare pagebuf
  end.

(** The page the second loop writes, from its two parts. *)
Definition xell_page (c : sfc_t) (j : Z) (user spare pagebuf : list Z) : list Z :=
  let pagebuf := write_at 0 (take (Z.to_nat (page_sz c)) (drop (Z.to_nat (j * page_sz c)) user)) pagebuf in
  write_at (Z.to_nat (page_sz c)) (take (Z.to_nat (meta_sz c)) (drop (Z.to_nat (j * meta_sz c)) spare)) pagebuf.

Fixpoint xell_write (n : nat) (i j : Z) (user spare pagebuf : list Z) : MN unit :=
  match n with
  | O => ret tt
  | S n =>
      s <- get ;;
      let c := sfc s in
      (if negb (nz (Z.rem i (pages_in_block c))) then sfcx_erase_block fuel (s32 (i * page_sz c)) ;; ret tt else ret tt) ;;
      let pagebuf := xell_page c j user spare pagebuf in
      pagebuf <- (if negb (sfcx_is_pageerased c pagebuf) then
          let pagebuf := write_at (Z.to_nat (page_sz c + 0x0C)) [0; 0; 0; 0] pagebuf in
          let pagebuf := sfcx_calcecc c pagebuf in
          sfcx_write_page fuel pagebuf (s32 (i * page_sz c)) ;; ret pagebuf
        else ret pagebuf) ;;
      xell_write n (i + 1) (j + 1) user spare pagebuf
  end.

(** How [updateXeLL] ends: it returns, or flashes and spins until reboot. *)
Inductive update_end := Returned (code : Z) | Flashed.

(** The loop over the offsets from the [k]-th on.  [malloc k n] is what the
    [k]-th allocation, of [n] bytes, gives.  Running past an array is [fault]. *)
Fixpoint try_offsets (malloc : nat -> Z -> option (list Z)) (addr : list Z) (len : Z) (k : nat) (offsets : list Z) : MN update_end :=
  match offsets with
  | [] => ret (Returned (-1))
  | current :: offsets =>
      s <- get ;;
      let c := sfc s in
      let offsetinblock := Z.rem current (block_sz c) in
      let startblock := Z.quot current (block_sz c) in
      let blockcnt := if nz offsetinblock then Z.quot XELL_SIZE (block_sz c) + 1 else Z.quot XELL_SIZE (block_sz c) in
      match malloc (2 * k)%nat (blockcnt * pages_in_block c * meta_sz c), malloc (2 * k + 1)%nat (blockcnt * block_sz c) with
      | Some spare, Some user =>
          let first := startblock * pages_in_block c in
          let n := Z.to_nat (blockcnt * pages_in_block c) in
          let* (user, spare, pagebuf) := xell_read n first 0 user spare (uninit MAX_PAGE_SZ) in
          if bool_decide (take 16 (drop (Z.to_nat (offsetinblock + XELL_FOOTER_OFFSET)) user) = XELL_FOOTER) then
            if (offsetinblock + len <=? Z.of_nat (length user)) && (len <=? Z.of_nat (length addr)) then
              let user := write_at (Z.to_nat offsetinblock) (take (Z.to_nat len) addr) user in
              xell_write n first 0 user spare pagebuf ;;
              ret Flashed
            else fault
          else try_offsets malloc addr len (S k) offsets
      | _, _ => ret (Returned (-1))
      end
  end.

Definition updateXeLL (malloc : nat -> Z -> option (list Z)) (addr : list Z) (len : Z) : MN update_end :=
  s <- get ;;
  if negb (initialized (sfc s) =? SFCX_INITIALIZED) then ret (Returned (-1)) else
  try_offsets malloc addr len 0 xelloffsets.
End xb360.

(** ** Which console this is *)

Definition REV_XENON : Z := 0.
Definition REV_ZEPHYR : Z := 1.
Definition REV_FALCON : Z := 2.
Definition REV_JASPER : Z := 3.
Definition REV_TRINITY : Z := 4.
Definition REV_CORONA : Z := 5.
Definition REV_WINCHESTER : Z := 6.
Definition REV_UNKNOWN : Z := -1.

Section console.
Context {D : Type} {IO : Mmio D} (fuel : nat) (pvr dve_uninit : Z).
Local Abbreviation MS := (M (smc_st D)).

Definition xenon_get_DVE : MS Z :=
  let* (_, DVEversion) := xenon_smc_ana_read fuel 0xfe dve_uninit in
  let tmp := (DVEversion .& not32 0xF0) .| ((DVEversion .>> 12) .& 0xF0) in
  ret (tmp .& 0xFF).

Definition xenon_get_PCIBridgeRevisionID : MS Z := v <- read32 0xd0000008 ;; ret ((v .<< 24) .>> 24).
Definition xenon_get_CPU_PVR : MS Z := ret pvr.
Definition xenon_get_XenosID : MS Z := v <- read32 0xd0010000 ;; ret ((v .>> 16) .& 0xFFFF).

(** The decision, from the values read. *)
Definition console_type_of (PVR consoleVersion DVEversion : Z) : Z :=
  if (PVR =? 0x710200) || (PVR =? 0x710300) then REV_ZEPHYR
  else if consoleVersion <? 0x5821 then REV_XENON
  else if (0x5821 <=? consoleVersion) && (consoleVersion <? 0x5831) then REV_FALCON
  else if (0x5831 <=? consoleVersion) && (consoleVersion <? 0x5841) then REV_JASPER
  else if (0x5841 <=? consoleVersion) && (consoleVersion <? 0x5851) then
    if 0x20 <=? DVEversion then REV_CORONA else REV_TRINITY
  else if 0x5851 <=? consoleVersion then REV_WINCHESTER
  else REV_UNKNOWN.

Definition xenon_get_console_type : MS Z :=
  xenon_get_PCIBridgeRevisionID ;;
  consoleVersion <- xenon_get_XenosID ;;
  DVEversion <- xenon_get_DVE ;;
  PVR <- xenon_get_CPU_PVR ;;
  ret (console_type_of PVR consoleVersion DVEversion).
End console.
