(* ===== verification/Xb360Facts.v ===== *)
(** * The key vault

    What [kv_get_key], [kv_read] and [kv_get_dvd_key] deliver, against any
    flash controller that follows its documentation ([NandLaws]). *)
From S2P Require Import Prelude Bits Sfcx SfcxFacts SfcxAccess Sha1 Sha1Facts Rc4 Smc Xb360.

(** ** The directory *)

Definition entry_ok (i : nat) (e : kventry) : bool :=
  (id e =? Z.of_nat i) && (0x18 <=? offset e) && (0 <? length_ e) && (offset e + length_ e <=? KV_FLASH_SIZE).
Fixpoint entries_apart (l : list kventry) : bool :=
  match l with
  | e :: ((e' :: _) as l) => (offset e + length_ e <=? offset e') && entries_apart l
  | _ => true
  end.

Lemma kvlookup_ok : forallb (fun p => entry_ok (fst p) (snd p)) (zip (seq 0 57) kvlookup) = true /\ entries_apart kvlookup = true.
Proof. split; vm_compute; reflexivity. Qed.

Lemma kvlookup_entry k : (k < 57)%nat -> exists e, kvlookup !! k = Some e /\ entry_ok k e = true.
Proof.
  intros Hk. destruct (lookup_lt_is_Some_2 kvlookup k) as [e He]; [exact Hk|]. exists e. split; [done|].
  destruct kvlookup_ok as [H _]. rewrite forallb_forall in H. apply (H (k, e)). apply list_elem_of_In.
  apply list_elem_of_lookup. exists k. apply lookup_zip_with_Some. exists k, e. split_and!; [done|by apply lookup_seq|done].
Qed.

(** Fetching a key.  For every key number a byte can hold and a vault of
    the full size the copy stays inside the vault: an unknown number is refused
    with 1; a buffer size that is not the key's is refused with 2 and the right
    size reported; with the right size the key's bytes are delivered. *)
Theorem kv_get_key_spec keyid keybuf buflen vault :
  0 <= keyid < 256 -> Z.of_nat (length vault) = KV_FLASH_SIZE -> buflen <= Z.of_nat (length keybuf) ->
  if 0x38 <? keyid then kv_get_key keyid keybuf buflen vault = Some (1, keybuf, buflen)
  else exists e, kvlookup !! Z.to_nat keyid = Some e /\ id e = keyid /\ offset e + length_ e <= KV_FLASH_SIZE /\
    kv_get_key keyid keybuf buflen vault =
      if buflen =? length_ e
      then Some (0, take (Z.to_nat (length_ e)) (drop (Z.to_nat (offset e)) vault) ++ drop (Z.to_nat buflen) keybuf, buflen)
      else Some (2, keybuf, length_ e).
Proof.
  intros Hid Hv Hb. unfold kv_get_key. destruct (Z.ltb_spec 0x38 keyid) as [H|H]; [done|].
  destruct (kvlookup_entry (Z.to_nat keyid)) as (e & He & Hok); [lia|]. rewrite He. exists e. split; [done|].
  unfold entry_ok in Hok. apply andb_prop in Hok as [Hok H4]. apply andb_prop in Hok as [Hok H3]. apply andb_prop in Hok as [H1 H2].
  apply Z.eqb_eq in H1. apply Z.leb_le in H2, H4. apply Z.ltb_lt in H3. split; [lia|]. split; [done|].
  destruct (Z.eqb_spec buflen (length_ e)) as [E|E]; cbn [negb]; [|done].
  rewrite (proj2 (Z.leb_le _ _)), (proj2 (Z.leb_le (length_ e) _)) by lia. cbn [andb]. unfold write_at. rewrite take_0. cbn [app].
  rewrite length_take, length_drop, Nat.min_l, Nat.add_0_l, E by lia. done.
Qed.

Lemma kv_get_key_spec_dvd : kv_get_key XEKEY_DVD_KEY (replicate 16 0) 0x10 (replicate (Z.to_nat 0x4000) 7) =
  Some (0, replicate 16 7, 0x10).
Proof.
  assert (Z.of_nat (length (replicate (Z.to_nat 0x4000) 7)) = KV_FLASH_SIZE) as Hl
    by (rewrite length_replicate, Z2Nat.id; [reflexivity|lia]).
  destruct (kv_get_key_spec XEKEY_DVD_KEY (replicate 16 0) 0x10 _ ltac:(vm_compute; split; congruence) Hl ltac:(vm_compute; congruence))
    as (e & He & _ & _ & E).
  change (kvlookup !! Z.to_nat XEKEY_DVD_KEY) with (Some (mkEntry XEKEY_DVD_KEY 0x100 0x10)) in He. injection He as <-.
  rewrite E. cbn [length_ offset Z.eqb Pos.eqb]. rewrite drop_replicate, take_replicate.
  rewrite (Nat.min_l (Z.to_nat 0x10)) by lia. reflexivity.
Defined.

(** ** The hashes *)

Lemma digest_bytes st : Forall is_byte (digest_of st).
Proof. destruct st as [[[[a b] c] d] e]. repeat (apply Forall_cons_2; [apply is_byte_u8|]). apply Forall_nil_2. Qed.

Lemma hmac_bytes k m : Forall is_byte (rfc_hmac k m).
Proof. unfold rfc_hmac, fips_sha1. apply digest_bytes. Qed.

Lemma hmac_length k m : length (rfc_hmac k m) = 20%nat.
Proof. apply sha1_length. Qed.

(** RC4 under a key, from the start. *)
Definition rc4 (k data : list Z) : option (list Z) :=
  st ← rc4_init k (Z.of_nat (length k)); snd <$> rc4_crypt st data (Z.of_nat (length data)).

Lemma rc4_involutive k data : (0 < length k)%nat -> Forall is_byte k -> Forall is_byte data ->
  exists out, rc4 k data = Some out /\ rc4 k out = Some data /\ length out = length data /\ Forall is_byte out.
Proof.
  intros Hk Hb Hd. unfold rc4, rc4_init. rewrite (proj2 (Z.eqb_neq _ _)) by lia.
  destruct (rc4_mix_ok 256 0 0 k (Z.of_nat (length k)) rc4_identity) as (st & -> & Hst);
    [unfold rc4_state; reflexivity|lia|lia|lia|lia|done|].
  destruct (rc4_loop_undo (length data) 0 0 st data Hst ltac:(lia) ltac:(lia) Hd ltac:(lia)) as (st' & out & E1 & E2 & _ & Hb' & Hl).
  exists out. cbn [mbind option_bind]. unfold rc4_crypt. rewrite Hl, Nat2Z.id, E1, E2. done.
Qed.

Lemma kv_compare_n n : forall i data out, (i + n <= length data)%nat -> (i + n <= length out)%nat ->
  kv_compare n (Z.of_nat i) data out = if decide (take n (drop i data) = take n (drop i out)) then 0 else 2.
Proof.
  induction n as [|n IH]; intros i data out H1 H2; cbn [kv_compare]; [by rewrite decide_True|].
  destruct (lookup_lt_is_Some_2 data i) as [x Hx]; [lia|]. destruct (lookup_lt_is_Some_2 out i) as [y Hy]; [lia|].
  unfold byte_at. rewrite Nat2Z.id, !nth_lookup, Hx, Hy. cbn [default from_option].
  rewrite (drop_S _ _ _ Hx), (drop_S _ _ _ Hy). cbn [take]. replace (Z.of_nat i + 1) with (Z.of_nat (S i)) by lia.
  rewrite IH by lia. unfold Datatypes.id. destruct (Z.eqb_spec x y) as [->|Hne]; cbn [negb].
  - destruct (decide (take n (drop (S i) data) = take n (drop (S i) out))) as [E|E].
    + rewrite decide_True; [done|]. by rewrite E.
    + rewrite decide_False; [done|]. intros [=]. done.
  - rewrite decide_False; [done|]. intros [=]. done.
Qed.

Lemma kv_compare_spec data out : (16 <= length data)%nat -> (16 <= length out)%nat ->
  kv_compare 16 0 data out = if decide (take 16 data = take 16 out) then 0 else 2.
Proof. intros. rewrite (kv_compare_n 16 0) by lia. by rewrite !drop_0. Qed.
Section vault.
Context (stack_ctx : HMAC_SHA1_CTX) (Hctx : length (buffer (shactx stack_ctx)) = 64%nat).
Context (cpu_key : list Z) (Hkey : length cpu_key = 16%nat).
Implicit Types (stored plain : list Z).

(** The length of the vault behind its header. *)
Definition body_len : nat := Z.to_nat (KV_FLASH_SIZE - 0x10).
Lemma body_len_Z : Z.of_nat body_len = KV_FLASH_SIZE - 0x10.
Proof. reflexivity. Qed.

(** The key the vault is encrypted with, from its header. *)
Definition vault_key (header : list Z) : list Z := take 16 (rfc_hmac cpu_key header).
(** The header that authenticates a plain vault. *)
Definition vault_header plain : list Z := take 16 (rfc_hmac cpu_key (plain ++ [0x07; 0x12])).

(** A vault as it is kept in flash. *)
Definition seal plain : option (list Z) :=
  let h := vault_header plain in (fun c => h ++ c) <$> rc4 (vault_key h) plain.

Lemma vault_key_ok h : length (vault_key h) = 16%nat /\ Forall is_byte (vault_key h).
Proof. unfold vault_key. rewrite length_take, hmac_length. split; [done|]. apply Forall_take, hmac_bytes. Qed.

Lemma header_ok plain : length (vault_header plain) = 16%nat /\ Forall is_byte (vault_header plain).
Proof. unfold vault_header. rewrite length_take, hmac_length. split; [done|]. apply Forall_take, hmac_bytes. Qed.

Lemma kv_decrypt_spec stored : length stored = (16 + body_len)%nat ->
  kv_decrypt stack_ctx cpu_key stored = (fun p => take 16 stored ++ p) <$> rc4 (vault_key (take 16 stored)) (drop 16 stored).
Proof.
  intros Hl. unfold kv_decrypt, rc4. pose proof (hmac_sha1_rfc stack_ctx cpu_key (take 16 stored) Hctx Hkey) as E.
  rewrite length_take_le in E by lia. specialize (E ltac:(lia)). change (Z.of_nat 16) with 0x10 in E.
  change (take 0x10 stored) with (take 16 stored). destruct (HMAC_SHA1 _ _ _ _) as [k d]. cbn [fst] in E. subst k. fold (vault_key (take 16 stored)).
  rewrite (proj1 (vault_key_ok (take 16 stored))). change (Z.of_nat 16) with 0x10.
  destruct (rc4_init (vault_key (take 16 stored)) 0x10) as [st|]; [|done]. cbn [mbind option_bind].
  assert (Z.of_nat (length (drop 16 stored)) = KV_FLASH_SIZE - 0x10) as -> by (rewrite length_drop, <- body_len_Z; lia).
  change (drop 0x10 stored) with (drop 16 stored). by destruct (rc4_crypt st (drop 16 stored) _) as [[]|].
Qed.

Lemma kv_hash_spec data : length data = (16 + body_len)%nat ->
  kv_hash stack_ctx cpu_key data = rfc_hmac cpu_key (drop 16 data ++ [0x07; 0x12]).
Proof.
  intros Hl. unfold kv_hash.
  pose proof (update_keyed _ [] cpu_key (init_keyed _ Hctx) ltac:(lia)) as Hk. rewrite Hkey in Hk.
  change (Z.of_nat 16) with 0x10 in Hk. destruct (HMAC_SHA1_UpdateKey _ _ _) as [c1 k1]. cbn [fst app] in Hk.
  assert (Z.of_nat (length (drop 16 data)) = KV_FLASH_SIZE - 0x10) as Hlen by (rewrite length_drop, <- body_len_Z; lia).
  pose proof (update_messaged _ _ _ (drop 16 data) (start_messaged _ _ Hk)) as Hm. rewrite Hlen in Hm. specialize (Hm ltac:(done)).
  change (drop 0x10 data) with (drop 16 data). destruct (HMAC_SHA1_UpdateMessage _ _ (KV_FLASH_SIZE - 0x10)) as [c2 d2]. cbn [fst app] in Hm.
  pose proof (update_messaged _ _ _ [0x07; 0x12] Hm ltac:(done)) as Hm2. change (Z.of_nat (length [0x07; 0x12])) with 0x02 in Hm2.
  destruct (HMAC_SHA1_UpdateMessage c2 _ _) as [c3 d3]. cbn [fst] in Hm2. by rewrite (end_message _ _ _ Hm2).
Qed.

End vault.

(** ** Reading the vault *)

(** [k] logical pages as the controller delivers them, from page [page] on. *)
Fixpoint log_bytes (n : nand) (page : Z) (k : nat) : list Z :=
  match k with
  | O => []
  | S k => take 512 (n_flash n (n_remap n (page * 512))) ++ log_bytes n (page + 1) k
  end.

Lemma log_bytes_same n n' k : forall page, same_flash n n' -> log_bytes n' page k = log_bytes n page k.
Proof.
  induction k as [|k IH]; intros page H; [done|]. cbn. rewrite IH by done. destruct H as (_ & -> & -> & _). done.
Qed.
Lemma log_bytes_ok n k : forall page, nand_ok n -> length (log_bytes n page k) = (512 * k)%nat /\ Forall is_byte (log_bytes n page k).
Proof.
  induction k as [|k IH]; intros page H; [done|]. cbn [log_bytes]. destruct (IH (page + 1) H) as [IH1 IH2].
  destruct H as [_ H]. destruct (H (n_remap n (page * 512))) as [H1 H2]. rewrite length_app, length_take, IH1. split; [lia|].
  apply Forall_app. split; [by apply Forall_take|done].
Qed.

Section read.
Context {D : Type} {N : Nand D} {L : NandLaws D} (fuel : nat) (Hfuel : (max_busy < fuel)%nat).
Context (c : sfc_t) (Hps : page_sz c = 0x200) (Hpp : page_sz_phys c = 0x210) (Hinit : initialized c = SFCX_INITIALIZED).
Context (fuses : Z -> Z) (uninit : Z -> list Z) (Huninit : forall k, Z.of_nat (length (uninit k)) = Z.max 0 k).
Context (stack_ctx : HMAC_SHA1_CTX) (Hctx : length (buffer (shactx stack_ctx)) = 64%nat).

(** The processor's key: two fuse lines. *)
Definition fused_key : list Z := put_be64 (fuses 3) ++ put_be64 (fuses 5).

Lemma cpu_get_key_spec : cpu_get_key fuses (uninit 0x10) = (0, fused_key).
Proof.
  unfold cpu_get_key, xenon_secotp_read_line. cbn [orb Z.ltb Z.leb Z.compare Pos.compare Pos.compare_cont].
  f_equal. unfold fused_key. pose proof (Huninit 0x10) as Hl. set (u := uninit 0x10) in *. clearbody u.
  unfold write_at. change (length (put_be64 ?v)) with 8%nat. rewrite take_0, Nat.add_0_l. cbn [app].
  rewrite take_app_length' by done. f_equal. rewrite drop_ge; [by rewrite app_nil_r|].
  rewrite length_app, length_drop. change (length (put_be64 (fuses 3))) with 8%nat. lia.
Qed.

Lemma kv_pages_runs k : forall (s : nst D) n data page p,
  sees s c n -> nand_ok n -> (512 * (p + k) <= length data)%nat -> 0 <= page -> (page + Z.of_nat k) * 512 < 2 ^ 31 ->
  runs (kv_pages fuel k data page (Z.of_nat p)) s (fun data' s' =>
    data' = take (512 * p) data ++ log_bytes n page k ++ drop (512 * (p + k)) data /\
    exists n', sees s' c n' /\ same_flash n n' /\ nand_ok n').
Proof.
  induction k as [|k IH]; intros s n data page p Hs Hok Hd Hp Hend; cbn [kv_pages].
  - apply runs_ret. rewrite Nat.add_0_r. cbn [log_bytes app]. rewrite take_drop. split; [done|]. exists n. by split_and!.
  - apply runs_bind, runs_get. rewrite (proj1 Hs), Hps. replace (Z.to_nat (Z.of_nat p * 0x200)) with (512 * p)%nat by lia.
    rewrite s32_id by lia. apply runs_bind.
    eapply runs_mono; [|apply (read_page_runs fuel Hfuel c Hps Hpp s n (drop (512 * p) data) (page * 512) false Hs Hok);
      [unfold is_word; lia|rewrite length_drop; lia]].
    intros [st tl] s1 (Etl & n1 & Hn1 & Hsame1 & Hok1). cbn [snd] in Etl. replace (Z.of_nat p + 1) with (Z.of_nat (S p)) by lia.
    set (pg := take 512 (n_flash n (n_remap n (page * 512)))) in *.
    assert (length pg = 512%nat) as Hpg by (unfold pg; destruct Hok as [_ Hr]; destruct (Hr (n_remap n (page * 512))); rewrite length_take; lia).
    set (data1 := take (512 * p) data ++ tl).
    assert (data1 = take (512 * p) data ++ pg ++ drop (512 * S p) data) as E1.
    { unfold data1. rewrite Etl, drop_drop. do 3 f_equal. lia. }
    assert (length data1 = length data) as Hl1 by (rewrite E1, !length_app, Hpg, length_take, length_drop; lia).
    eapply runs_mono; [|apply (IH s1 n1 data1 (page + 1) (S p) Hn1 Hok1); lia].
    intros data' s2 (-> & n2 & Hn2 & Hsame2 & Hok2). split; [|exists n2; split_and!; [done|unfold same_flash in *; intuition congruence|done]].
    rewrite (log_bytes_same n n1) by done. cbn [log_bytes]. fold pg. rewrite E1, (app_assoc (take _ data) pg).
    rewrite take_app_length' by (rewrite length_app, length_take; lia).
    rewrite drop_app_ge by (rewrite length_app, length_take; lia). rewrite length_app, length_take, drop_drop, Hpg.
    rewrite <- !app_assoc. do 4 f_equal. lia.
Qed.

(** Where the vault is, and the bytes the controller delivers for it. *)
Definition vault_page (n : nand) : Z := kv_ptr (log_bytes n 0 1) / 512.
Definition stored_vault (n : nand) : list Z := log_bytes n (vault_page n) 32.
Definition vault_in_flash (n : nand) : Prop := 0 <= kv_ptr (log_bytes n 0 1) /\ (vault_page n + 32) * 512 < 2 ^ 31.

Lemma kv_ptr_ext b1 b2 : take 512 b1 = take 512 b2 -> kv_ptr b1 = kv_ptr b2.
Proof.
  intros H. unfold kv_ptr. assert (forall i, 0 <= i < 512 -> byte_at b1 i = byte_at b2 i) as Hb.
  { intros i Hi. unfold byte_at. rewrite !nth_lookup. rewrite <- (lookup_take_lt b1 512), <- (lookup_take_lt b2 512) by lia. by rewrite H. }
  rewrite !Hb by (vm_compute; split; congruence). done.
Qed.

Lemma kv_read_runs (s : nst D) n data :
  sees s c n -> nand_ok n -> vault_in_flash n -> Z.of_nat (length data) = KV_FLASH_SIZE ->
  exists plain, rc4 (vault_key fused_key (take 16 (stored_vault n))) (drop 16 (stored_vault n)) = Some plain /\
  runs (kv_read fuel fuses uninit stack_ctx data false) s (fun r s' =>
    r = (if decide (take 16 (stored_vault n) = vault_header fused_key plain) then 0 else 2, take 16 (stored_vault n) ++ plain) /\
    exists n', sees s' c n' /\ same_flash n n' /\ nand_ok n').
Proof.
  intros Hs Hok [Hp1 Hp2] Hd. set (v := stored_vault n).
  destruct (log_bytes_ok n 32 (vault_page n) Hok) as [Hvl Hvb]. fold (stored_vault n) in Hvl, Hvb. fold v in Hvl, Hvb.
  assert (length v = (16 + body_len)%nat) as Hvl' by (pose proof body_len_Z as Hb; unfold KV_FLASH_SIZE in Hb; lia).
  destruct (rc4_involutive (vault_key fused_key (take 16 v)) (drop 16 v)) as (plain & Erc & _ & Hpl & Hpb);
    [rewrite (proj1 (vault_key_ok _ _)); lia|apply vault_key_ok|by apply Forall_drop|].
  exists plain. split; [exact Erc|]. unfold kv_read. apply runs_bind, runs_get. rewrite (proj1 Hs), Hinit.
  change (negb (SFCX_INITIALIZED =? SFCX_INITIALIZED)) with false. cbn iota. apply runs_bind.
  set (b0 := replicate (Z.to_nat MAX_PAGE_SZ) 0). assert (length b0 = 528%nat) as Hb0 by reflexivity. clearbody b0.
  eapply runs_mono; [|apply (read_page_runs fuel Hfuel c Hps Hpp s n b0 0 false Hs Hok); [unfold is_word; lia|lia]].
  intros [st buf] s1 (Ebuf & n1 & Hn1 & Hsame1 & Hok1). cbn [snd] in Ebuf.
  assert (kv_ptr buf = kv_ptr (log_bytes n 0 1)) as ->.
  { apply kv_ptr_ext. rewrite Ebuf. cbn [log_bytes]. rewrite app_nil_r. change (0 * 512) with 0.
    destruct Hok as [_ Hr]. destruct (Hr (n_remap n 0)) as [Hr1 _].
    rewrite take_app_le by (rewrite length_take; lia). by rewrite !take_take. }
  apply runs_bind, runs_get. rewrite (proj1 Hn1), Hps. assert (Z.quot (kv_ptr (log_bytes n 0 1)) 0x200 = vault_page n) as -> by (apply Z.quot_div_nonneg; lia).
  replace (Z.to_nat KV_FLASH_PAGES) with 32%nat by reflexivity. apply runs_bind.
  assert (512 * (0 + 32) <= length data)%nat as Hdl by (unfold KV_FLASH_SIZE in Hd; lia).
  eapply runs_mono; [|apply (kv_pages_runs 32 s1 n1 data (vault_page n) 0 Hn1 Hok1); [exact Hdl|unfold vault_page; apply Z.div_pos; lia|exact Hp2]].
  intros data1 s2 (-> & n2 & Hn2 & Hsame2 & Hok2). rewrite (log_bytes_same n n1) by done. fold (stored_vault n). fold v.
  rewrite take_0, drop_ge, app_nil_r by (unfold KV_FLASH_SIZE in Hd; lia). cbn [app]. rewrite cpu_get_key_spec.
  apply runs_bind, runs_ret. cbn beta iota. apply runs_bind.
  rewrite (kv_decrypt_spec stack_ctx Hctx fused_key eq_refl v Hvl'), Erc. cbn [fmap option_fmap option_map of_option]. apply runs_ret. apply runs_ret.
  assert (length (take 16 v) = 16%nat) as Hv16 by (rewrite length_take; lia). rewrite length_drop in Hpl.
  split; [|exists n2; split_and!; [done|unfold same_flash in *; intuition congruence|done]].
  f_equal. change 0x10%nat with 16%nat. rewrite kv_compare_spec.
  - rewrite kv_hash_spec; [|done|done|rewrite length_app; lia]. rewrite take_app_length' by lia. rewrite drop_app_length' by lia. done.
  - rewrite length_app. lia.
  - rewrite kv_hash_spec; [rewrite hmac_length; lia|done|done|rewrite length_app; lia].
Qed.

(** The vault is authenticated.  Whatever the flash holds where the header
    points, [kv_read] returns and fills the buffer with the vault's header and
    its body decrypted under the processor's key; the code is 0 when the header
    is the keyed hash of that body and 2 when it is not, and the flash is left
    alone. *)
Theorem kv_read_authenticates (s : nst D) n data :
  sees s c n -> nand_ok n -> vault_in_flash n -> Z.of_nat (length data) = KV_FLASH_SIZE ->
  exists plain, rc4 (vault_key fused_key (take 16 (stored_vault n))) (drop 16 (stored_vault n)) = Some plain /\
  runs (kv_read fuel fuses uninit stack_ctx data false) s (fun r s' =>
    snd r = take 16 (stored_vault n) ++ plain /\
    (fst r = 0 <-> take 16 (stored_vault n) = vault_header fused_key plain) /\ (fst r = 0 \/ fst r = 2) /\
    exists n', sees s' c n' /\ n_flash n' = n_flash n).
Proof.
  intros Hs Hok Hv Hd. destruct (kv_read_runs s n data Hs Hok Hv Hd) as (plain & E & Hr). exists plain. split; [done|].
  eapply runs_mono; [|exact Hr]. intros r s' (-> & n' & Hn' & Hsame & _). cbn [fst snd]. split; [done|].
  split; [by case_decide|]. split; [case_decide; auto|]. exists n'. split; [done|]. apply Hsame.
Qed.

(** A sealed vault opens to what was sealed. *)
Lemma seal_opens plain stored : Forall is_byte plain -> seal fused_key plain = Some stored ->
  take 16 stored = vault_header fused_key plain /\
  rc4 (vault_key fused_key (take 16 stored)) (drop 16 stored) = Some plain.
Proof.
  intros Hb Hs. unfold seal in Hs. destruct (header_ok fused_key plain) as [Hl _].
  destruct (rc4_involutive (vault_key fused_key (vault_header fused_key plain)) plain) as (out & E1 & E2 & _ & _);
    [rewrite (proj1 (vault_key_ok _ _)); lia|apply vault_key_ok|done|].
  rewrite E1 in Hs. set (h := vault_header fused_key plain) in *. clearbody h. cbn [fmap option_fmap option_map] in Hs. injection Hs as <-.
  rewrite take_app_length' by done. rewrite drop_app_length' by done. done.
Qed.

(** The vault round trip.  When the flash holds, where its header points, a
    vault sealed under this console's key (header: the keyed hash of the plain
    body; body: RC4 under a key derived from the header), [kv_read] returns 0
    and delivers the header and the plain body. *)
Theorem kv_read_opens (s : nst D) n data plain :
  sees s c n -> nand_ok n -> vault_in_flash n -> Z.of_nat (length data) = KV_FLASH_SIZE ->
  Forall is_byte plain -> seal fused_key plain = Some (stored_vault n) ->
  runs (kv_read fuel fuses uninit stack_ctx data false) s (fun r _ => r = (0, vault_header fused_key plain ++ plain)).
Proof.
  intros Hs Hok Hv Hd Hb Hseal. destruct (seal_opens plain _ Hb Hseal) as [E1 E2].
  destruct (kv_read_runs s n data Hs Hok Hv Hd) as (plain' & E & Hr). assert (plain' = plain) as -> by congruence.
  eapply runs_mono; [|exact Hr]. intros r s' (-> & _). rewrite E1, decide_True by done. done.
Qed.

(** C22: the DVD key.  From a vault sealed under this console's key,
    [kv_get_dvd_key] delivers the 16 bytes at offset 0x100 of the opened
    vault and returns 0. *)
Theorem kv_get_dvd_key_spec (s : nst D) n plain dvd_key :
  sees s c n -> nand_ok n -> vault_in_flash n -> Forall is_byte plain -> length plain = body_len ->
  seal fused_key plain = Some (stored_vault n) -> length dvd_key = 16%nat ->
  runs (kv_get_dvd_key fuel fuses uninit stack_ctx dvd_key) s (fun r _ => r = (0, take 16 (drop 0xF0 plain))).
Proof.
  intros Hs Hok Hv Hb Hpl Hseal Hd. destruct (seal_opens plain _ Hb Hseal) as [E1 E2].
  pose proof (Huninit KV_FLASH_SIZE) as Hu. rewrite Z.max_r in Hu by done.
  destruct (kv_read_runs s n (uninit KV_FLASH_SIZE) Hs Hok Hv Hu) as (plain' & E & Hr).
  assert (plain' = plain) as -> by congruence. unfold kv_get_dvd_key. apply runs_bind.
  eapply runs_mono; [|exact Hr]. intros r s' (-> & _). rewrite E1, decide_True by done. cbn beta iota.
  apply runs_bind, runs_ret. cbn [negb Z.eqb]. set (vault := vault_header fused_key plain ++ plain).
  destruct (header_ok fused_key plain) as [Hhl _].
  assert (Z.of_nat (length vault) = KV_FLASH_SIZE) as Hvl
    by (unfold vault; rewrite length_app, Hhl, Hpl, Nat2Z.inj_add, body_len_Z; reflexivity).
  assert (kv_get_key XEKEY_DVD_KEY dvd_key 0x10 vault = Some (0, take 16 (drop 0xF0 plain), 0x10)) as ->.
  { unfold kv_get_key. change (0x38 <? XEKEY_DVD_KEY) with false. cbn iota.
    change (kvlookup !! Z.to_nat XEKEY_DVD_KEY) with (Some (mkEntry XEKEY_DVD_KEY 0x100 0x10)). cbn [length_ offset Z.eqb Pos.eqb negb].
    rewrite Hvl, Hd. change ((0x100 + 0x10 <=? KV_FLASH_SIZE) && (0x10 <=? Z.of_nat 16)) with true. cbn iota.
    unfold vault. rewrite drop_app_ge by (rewrite Hhl; lia). rewrite Hhl. replace (Z.to_nat 0x100 - 16)%nat with 240%nat by lia.
    change (Z.to_nat 0x10) with 16%nat. change 0xF0%nat with 240%nat. set (k := take 16 (drop 240 plain)).
    assert (length k = 16%nat) as Hk.
    { unfold k. rewrite length_take, length_drop, Hpl. pose proof body_len_Z as HZ. unfold KV_FLASH_SIZE in HZ. lia. }
    unfold write_at. rewrite take_0, Hk, drop_ge, app_nil_r by lia. reflexivity. }
  apply runs_bind, runs_ret. cbn beta iota. by apply runs_ret.
Qed.
End read.

(** ** A console *)

(** A flash that holds an image. *)
Definition image_nand (image : list Z) : nand :=
  mkNand 0 0 0 (replicate 528 0) []
    (fun a => take 512 (drop (Z.to_nat a) image ++ replicate 512 0) ++ replicate 16 0) (fun a => a) (fun a b => a / 16384 =? b / 16384).

Lemma image_nand_ok image : page_bytes image -> nand_ok (image_nand image).
Proof.
  intros Hb. split; [reflexivity|]. intros a. assert (forall k, page_bytes (replicate k 0)) as H0
    by (intros k; apply Forall_replicate; split; [lia|reflexivity]). cbn [n_flash image_nand]. split.
  - rewrite length_app, length_take, length_app, !length_replicate. lia.
  - apply Forall_app. split; [|apply H0]. apply Forall_take, Forall_app. split; [by apply Forall_drop|apply H0].
Qed.

Lemma log_bytes_image image k : forall p, (512 * (p + k) <= length image)%nat ->
  log_bytes (image_nand image) (Z.of_nat p) k = take (512 * k) (drop (512 * p) image).
Proof.
  induction k as [|k IH]; intros p H; [by rewrite Nat.mul_0_r, take_0|]. cbn [log_bytes].
  replace (Z.of_nat p + 1) with (Z.of_nat (S p)) by lia. rewrite IH by lia. cbn [n_flash n_remap image_nand].
  replace (Z.to_nat (Z.of_nat p * 512)) with (512 * p)%nat by lia.
  rewrite take_app_le by (rewrite length_take, length_app, length_drop, length_replicate; lia). rewrite take_take, Nat.min_id.
  rewrite take_app_le by (rewrite length_drop; lia).
  replace (512 * S k)%nat with (512 + 512 * k)%nat by lia. replace (512 * S p)%nat with (512 * p + 512)%nat by lia.
  rewrite <- drop_drop. by rewrite take_take_drop.
Qed.

(** The first page points to the second, where the vault begins. *)
Definition boot_page : list Z := replicate 0x6C 0 ++ [0; 0; 2; 0] ++ replicate 0x190 0.
Definition demo_plain : list Z := replicate body_len 7.
Definition demo_uninit (k : Z) : list Z := replicate (Z.to_nat k) 0xAA.
Definition demo_fuses (k : Z) : Z := k.

Lemma demo_plain_bytes : Forall is_byte demo_plain.
Proof. apply Forall_replicate. split; [lia|reflexivity]. Qed.
Lemma demo_uninit_length k : Z.of_nat (length (demo_uninit k)) = Z.max 0 k.
Proof. unfold demo_uninit. rewrite length_replicate. lia. Qed.

(** The sealed vault of the demo console, in its flash. *)
Lemma demo_vault : exists stored, seal (fused_key demo_fuses) demo_plain = Some stored /\
  let n := image_nand (boot_page ++ stored) in nand_ok n /\ vault_in_flash n /\ stored_vault n = stored.
Proof.
  destruct (header_ok (fused_key demo_fuses) demo_plain) as [Hl Hhb]. unfold seal.
  set (h := vault_header (fused_key demo_fuses) demo_plain) in *.
  destruct (rc4_involutive (vault_key (fused_key demo_fuses) h) demo_plain) as (out & E1 & _ & Hlo & Hbo);
    [rewrite (proj1 (vault_key_ok _ _)); lia|apply vault_key_ok|apply demo_plain_bytes|].
  rewrite E1. eexists. split; [reflexivity|]. clearbody h. clear E1. set (stored := h ++ out).
  assert (length stored = 512 * 32)%nat as Hsl.
  { unfold stored. rewrite length_app, Hl, Hlo. unfold demo_plain. rewrite length_replicate. pose proof body_len_Z as HZ. unfold KV_FLASH_SIZE in HZ. lia. }
  assert (page_bytes stored) as Hsb by (apply Forall_app; by split). clearbody stored. clear h out Hl Hhb Hlo Hbo.
  set (image := boot_page ++ stored). set (n := image_nand image). cbn zeta.
  assert (length image = 512 + 512 * 32)%nat as Hil by (unfold image; rewrite length_app, Hsl; reflexivity).
  assert (log_bytes n 0 1 = boot_page) as Hb.
  { etransitivity; [apply (log_bytes_image image 1 0); lia|]. unfold image. rewrite Nat.mul_0_r, drop_0. by rewrite take_app_length'. }
  assert (kv_ptr (log_bytes n 0 1) = 512) as Hp by (rewrite Hb; reflexivity).
  assert (vault_page n = Z.of_nat 1) as Hpg by (unfold vault_page; by rewrite Hp).
  split; [apply image_nand_ok, Forall_app; split; [|done]|].
  { repeat (apply Forall_cons_2; [split; [lia|reflexivity]|]). apply Forall_nil_2. }
  unfold vault_in_flash, stored_vault. rewrite Hp, Hpg. split; [lia|]. unfold n. rewrite (log_bytes_image image 32 1) by lia.
  unfold image. rewrite drop_app_length' by reflexivity. by rewrite take_ge by lia.
Qed.

Lemma kv_read_authenticates_demo : exists n plain, nand_ok n /\
  runs (kv_read 4 demo_fuses demo_uninit fresh_hmac (demo_uninit KV_FLASH_SIZE) false) (mkNst demo_sfc (n, 0%nat))
    (fun r _ => snd r = take 16 (stored_vault n) ++ plain /\ (fst r = 0 \/ fst r = 2)).
Proof.
  destruct demo_vault as (stored & _ & Hok & Hv & _). set (n := image_nand (boot_page ++ stored)) in *. clearbody n.
  destruct (kv_read_authenticates (L := controller_laws) 4 ltac:(cbn; lia) demo_sfc eq_refl eq_refl eq_refl demo_fuses demo_uninit demo_uninit_length
    fresh_hmac eq_refl (mkNst demo_sfc (n, 0%nat)) n (demo_uninit KV_FLASH_SIZE) (conj eq_refl eq_refl) Hok Hv (demo_uninit_length _))
    as (plain & _ & H).
  exists n, plain. split; [exact Hok|]. eapply runs_mono; [|exact H]. intros r s' (H1 & _ & H2 & _). split; [exact H1|exact H2].
Defined.

Lemma kv_read_opens_demo : exists n,
  runs (kv_read 4 demo_fuses demo_uninit fresh_hmac (demo_uninit KV_FLASH_SIZE) false) (mkNst demo_sfc (n, 0%nat))
    (fun r _ => r = (0, vault_header (fused_key demo_fuses) demo_plain ++ demo_plain)).
Proof.
  destruct demo_vault as (stored & Hseal & Hok & Hv & Hst). set (n := image_nand (boot_page ++ stored)) in *. clearbody n.
  exists n. apply (kv_read_opens (L := controller_laws) 4 ltac:(cbn; lia) demo_sfc eq_refl eq_refl eq_refl demo_fuses demo_uninit demo_uninit_length
    fresh_hmac eq_refl (mkNst demo_sfc (n, 0%nat)) n (demo_uninit KV_FLASH_SIZE) demo_plain (conj eq_refl eq_refl) Hok Hv (demo_uninit_length _)
    demo_plain_bytes). rewrite Hst. exact Hseal.
Defined.

Lemma kv_get_dvd_key_spec_demo : exists n,
  runs (kv_get_dvd_key 4 demo_fuses demo_uninit fresh_hmac (replicate 16 0)) (mkNst demo_sfc (n, 0%nat))
    (fun r _ => r = (0, take 16 (drop 0xF0 demo_plain))).
Proof.
  destruct demo_vault as (stored & Hseal & Hok & Hv & Hst). set (n := image_nand (boot_page ++ stored)) in *. clearbody n.
  exists n. apply (kv_get_dvd_key_spec (L := controller_laws) 4 ltac:(cbn; lia) demo_sfc eq_refl eq_refl eq_refl demo_fuses demo_uninit demo_uninit_length
    fresh_hmac eq_refl (mkNst demo_sfc (n, 0%nat)) n demo_plain (replicate 16 0) (conj eq_refl eq_refl) Hok Hv demo_plain_bytes (length_replicate _ _));
    [rewrite Hst; exact Hseal|reflexivity].
Defined.
