(* ===== verification/XellFacts.v ===== *)
(** * Replacing the boot loader in flash

    [updateXeLL] looks for the loader's footer at six places, and where it
    finds it rewrites the blocks around it.  Against any controller that
    follows its documentation: either the flash is left alone, or exactly the
    loader's bytes are replaced. *)
From S2P Require Import Prelude Bits Sfcx SfcxFacts SfcxAccess Sha1 Rc4 Smc Xb360.

(** ** Pages and their parts *)

(** The user data and the spare data of [k] raw pages, from page [i] on. *)
Fixpoint user_pages (f : Z -> list Z) (i : Z) (k : nat) : list Z :=
  match k with O => [] | S k => take 512 (f (i * 512)) ++ user_pages f (i + 1) k end.
Fixpoint spare_pages (f : Z -> list Z) (i : Z) (k : nat) : list Z :=
  match k with O => [] | S k => take 16 (drop 512 (f (i * 512))) ++ spare_pages f (i + 1) k end.

Lemma pages_ok f k : forall i, (forall a, raw_page (f a)) ->
  length (user_pages f i k) = (512 * k)%nat /\ length (spare_pages f i k) = (16 * k)%nat /\
  page_bytes (user_pages f i k) /\ page_bytes (spare_pages f i k).
Proof.
  unfold page_bytes. induction k as [|k IH]; intros i H; [done|]. cbn [user_pages spare_pages].
  destruct (IH (i + 1) H) as (H1 & H2 & H3 & H4). destruct (H (i * 512)) as [Hl Hb].
  rewrite !length_app, !length_take, length_drop, H1, H2. split_and!; [lia|lia|..]; apply Forall_app; split; try done.
  - by apply Forall_take.
  - by apply Forall_take, Forall_drop.
Qed.

(** The user data of a sequence of pages, page by page. *)
Lemma user_pages_of f l k : forall i, length l = (512 * k)%nat ->
  (forall t, (t < k)%nat -> take 512 (f ((i + Z.of_nat t) * 512)) = take 512 (drop (512 * t) l)) ->
  user_pages f i k = l.
Proof.
  revert l. induction k as [|k IH]; intros l i Hl H; [by destruct l|]. cbn [user_pages].
  pose proof (H 0%nat ltac:(lia)) as H0. rewrite Z.add_0_r, Nat.mul_0_r, drop_0 in H0. rewrite H0.
  rewrite <- (take_drop 512 l) at 2. f_equal. apply IH; [rewrite length_drop; lia|].
  intros t Ht. replace (i + 1 + Z.of_nat t) with (i + Z.of_nat (S t)) by lia. rewrite H by lia. rewrite drop_drop. do 2 f_equal. lia.
Qed.

Section xell.
Context {D : Type} {N : Nand D} {L : NandLaws D} (fuel : nat) (Hfuel : (max_busy < fuel)%nat).
Context (c : sfc_t) (Hps : page_sz c = 0x200) (Hpp : page_sz_phys c = 0x210) (Hms : meta_sz c = 0x10).
Context (Hppb : 0 < pages_in_block c) (Hbs : block_sz c = pages_in_block c * 0x200).
Local Abbreviation ppb := (pages_in_block c).

Lemma xell_read_runs k : forall (s : nst D) n i j user spare pagebuf,
  sees s c n -> nand_ok n -> 0 <= i -> (i + Z.of_nat k) * 512 < 2 ^ 31 ->
  (512 * (j + k) <= length user)%nat -> (16 * (j + k) <= length spare)%nat -> length pagebuf = 528%nat ->
  runs (xell_read fuel k i (Z.of_nat j) user spare pagebuf) s (fun r s' =>
    fst (fst r) = take (512 * j) user ++ user_pages (n_flash n) i k ++ drop (512 * (j + k)) user /\
    snd (fst r) = take (16 * j) spare ++ spare_pages (n_flash n) i k ++ drop (16 * (j + k)) spare /\
    length (snd r) = 528%nat /\ exists n', sees s' c n' /\ same_flash n n' /\ nand_ok n').
Proof.
  induction k as [|k IH]; intros s n i j user spare pagebuf Hs Hok Hi Hend Hu Hsp Hpb; cbn [xell_read].
  - apply runs_ret. cbn [fst snd user_pages spare_pages app]. rewrite Nat.add_0_r, !take_drop. split_and!; try done. exists n. by split_and!.
  - apply runs_bind, runs_get. rewrite (proj1 Hs), Hps, Hms, s32_id by lia. apply runs_bind.
    eapply runs_mono; [|apply (read_page_runs fuel Hfuel c Hps Hpp s n pagebuf (i * 512) true Hs Hok); [unfold is_word; lia|lia]].
    intros [st pg] s1 (Epg & n1 & Hn1 & Hsame1 & Hok1). cbn [snd] in Epg. rewrite drop_ge, app_nil_r in Epg by lia. subst pg.
    assert (length (n_flash n (i * 512)) = 528%nat) as Hpl by (destruct Hok as [_ Hr]; destruct (Hr (i * 512)); lia).
    replace (Z.to_nat (Z.of_nat j * 0x200)) with (512 * j)%nat by lia. replace (Z.to_nat (Z.of_nat j * 0x10)) with (16 * j)%nat by lia.
    change (Z.to_nat 0x200) with 512%nat. change (Z.to_nat 0x10) with 16%nat. replace (Z.of_nat j + 1) with (Z.of_nat (S j)) by lia.
    set (u := take 512 (n_flash n (i * 512))). set (v := take 16 (drop 512 (n_flash n (i * 512)))).
    assert (length u = 512%nat) as Hul by (unfold u; rewrite length_take; lia).
    assert (length v = 16%nat) as Hvl by (unfold v; rewrite length_take, length_drop; lia).
    eapply runs_mono; [|apply (IH s1 n1 (i + 1) (S j) _ _ _ Hn1 Hok1); [lia|lia|rewrite length_write_at; lia|rewrite length_write_at; lia|done]].
    intros [[us sp] pb] s2 (E1 & E2 & E3 & n2 & Hn2 & Hsame2 & Hok2). cbn [fst snd] in *.
    assert (n_flash n1 = n_flash n) as F1 by apply Hsame1. rewrite F1 in E1, E2.
    pose proof (take_write_at (512 * j) u user ltac:(lia)) as T1. rewrite Hul in T1.
    pose proof (take_write_at (16 * j) v spare ltac:(lia)) as T2. rewrite Hvl in T2.
    replace (512 * S j)%nat with (512 * j + 512)%nat in E1 by lia. replace (16 * S j)%nat with (16 * j + 16)%nat in E2 by lia.
    rewrite T1, drop_write_at, <- app_assoc in E1 by lia. rewrite T2, drop_write_at, <- app_assoc in E2 by lia.
    cbn [user_pages spare_pages]. fold u v. rewrite <- !app_assoc.
    split_and!; [rewrite E1; do 4 f_equal; lia|rewrite E2; do 4 f_equal; lia|done|].
    exists n2. split_and!; [done|unfold same_flash in *; intuition congruence|done].
Qed.

(** ** The page that is written *)

Definition joined (user spare : list Z) (j : nat) : list Z :=
  take 512 (drop (512 * j) user) ++ take 16 (drop (16 * j) spare).
Definition zero_edc (page : list Z) : list Z := write_at 524 [0; 0; 0; 0] page.
Definition xell_final (user spare : list Z) (j : nat) : list Z :=
  let page := joined user spare j in
  if sfcx_is_pageerased c page then erased_page else sfcx_calcecc c (zero_edc page).

Lemma joined_raw user spare j : page_bytes user -> page_bytes spare ->
  (512 * (j + 1) <= length user)%nat -> (16 * (j + 1) <= length spare)%nat -> raw_page (joined user spare j).
Proof.
  intros H1 H2 H3 H4. unfold joined, raw_page, page_bytes in *. rewrite length_app, !length_take, !length_drop. split; [lia|].
  apply Forall_app. split; by apply Forall_take, Forall_drop.
Qed.

Lemma zero_edc_raw page : raw_page page -> raw_page (zero_edc page).
Proof.
  intros [Hl Hb]. unfold zero_edc. split; [rewrite length_write_at by (cbn [length]; lia); done|].
  unfold write_at. apply Forall_app. split; [by apply Forall_take|]. apply Forall_app. split; [|by apply Forall_drop].
  repeat (apply Forall_cons_2; [split; [discriminate|reflexivity]|]). apply Forall_nil_2.
Qed.

Lemma xell_page_joined user spare pagebuf j : length pagebuf = 528%nat ->
  (512 * (j + 1) <= length user)%nat -> (16 * (j + 1) <= length spare)%nat ->
  xell_page c (Z.of_nat j) user spare pagebuf = joined user spare j.
Proof.
  intros Hl Hu Hs. unfold xell_page, joined. rewrite Hps, Hms.
  replace (Z.to_nat (Z.of_nat j * 0x200)) with (512 * j)%nat by lia. replace (Z.to_nat (Z.of_nat j * 0x10)) with (16 * j)%nat by lia.
  change (Z.to_nat 0x200) with 512%nat. change (Z.to_nat 0x10) with 16%nat.
  set (u := take 512 (drop (512 * j) user)). set (v := take 16 (drop (16 * j) spare)).
  assert (length u = 512%nat) as Hul by (unfold u; rewrite length_take, length_drop; lia).
  assert (length v = 16%nat) as Hvl by (unfold v; rewrite length_take, length_drop; lia).
  unfold write_at at 1. pose proof (take_write_at 0 u pagebuf ltac:(lia)) as T. rewrite Hul, Nat.add_0_l, take_0 in T. cbn [app] in T.
  rewrite T, Hvl, drop_write_at by lia. rewrite drop_ge by lia. by rewrite app_nil_r.
Qed.

Lemma calcecc_user page : raw_page page -> take 512 (sfcx_calcecc c page) = take 512 page.
Proof.
  intros _. unfold sfcx_calcecc, set_byte. rewrite Hps. rewrite !take_insert_ge by lia. done.
Qed.

Lemma calcecc_stable page : raw_page page -> sfcx_calcecc c (sfcx_calcecc c page) = sfcx_calcecc c page.
Proof.
  intros Hr. pose proof (calcecc_raw c page Hps Hr) as Hr1. apply page_bits_inj; [by apply calcecc_raw|done|].
  intros i Hi. rewrite calcecc_bits by done. case_decide as Hlt; [done|]. rewrite (calcecc_bits c page) by done.
  rewrite decide_False by done. rewrite (ecc_value_ext (sfcx_calcecc c page) page); [done|apply Hr1|apply Hr|].
  intros k Hk. rewrite calcecc_bits by (done || lia). by rewrite decide_True.
Qed.

Lemma erased_page_is page : raw_page page -> sfcx_is_pageerased c page = true -> page = erased_page.
Proof.
  intros [Hl _] He. unfold sfcx_is_pageerased in He. rewrite Hpp, take_ge in He by lia. unfold erased_page.
  assert (length page = 528%nat) as Hn by lia. rewrite <- Hn. symmetry. apply replicate_as_Forall. split; [done|].
  apply Forall_forall. intros x Hx. rewrite forallb_forall in He. symmetry. apply Z.eqb_eq, He. by apply list_elem_of_In.
Qed.

Lemma xell_final_raw user spare j : raw_page (joined user spare j) -> raw_page (xell_final user spare j).
Proof. intros H. unfold xell_final. destruct (sfcx_is_pageerased _ _); [apply erased_raw|]. by apply calcecc_raw, zero_edc_raw. Qed.

Lemma xell_final_user user spare j : raw_page (joined user spare j) -> (512 * (j + 1) <= length user)%nat ->
  take 512 (xell_final user spare j) = take 512 (drop (512 * j) user).
Proof.
  intros H Hu. assert (take 512 (joined user spare j) = take 512 (drop (512 * j) user)) as E.
  { unfold joined. rewrite take_app_le by (rewrite length_take, length_drop; lia). by rewrite take_take. }
  unfold xell_final. destruct (sfcx_is_pageerased _ _) eqn:He.
  - rewrite <- E. by rewrite (erased_page_is _ H He).
  - rewrite calcecc_user by (by apply zero_edc_raw). unfold zero_edc. rewrite <- E.
    unfold write_at. destruct H as [Hl _]. rewrite take_app_le by (rewrite length_take; lia). rewrite take_take. f_equal.
Qed.

(** ** Writing the blocks *)

(** The controller's blocks are the driver's. *)
Definition blocks_ok (n : nand) : Prop := forall a b, n_block n a b = (a / block_sz c =? b / block_sz c).

(** An address the pages [i] to [i + k - 1] and the blocks that begin with one
    of them do not reach. *)
Definition untouched (i : Z) (k : nat) (a : Z) : Prop :=
  forall t, i <= t < i + Z.of_nat k -> a <> t * 512 /\ (t mod ppb = 0 -> a / block_sz c <> t / ppb).

Lemma page_block t : (t * 512) / block_sz c = t / ppb.
Proof. rewrite Hbs. apply Z.div_mul_cancel_r; lia. Qed.

Lemma page_untouched i k t : t < i -> untouched i k (t * 512).
Proof.
  intros Ht t' Ht'. split; [lia|]. intros H0 E. rewrite page_block in E.
  pose proof (Z.div_mod t ppb ltac:(lia)). pose proof (Z.div_mod t' ppb ltac:(lia)). pose proof (Z.mod_pos_bound t ppb Hppb). nia.
Qed.

(** The pages of the block of [i] from [i] on are erased. *)
Definition rest_erased (n : nand) (i : Z) : Prop := forall t, i <= t -> t / ppb = i / ppb -> n_flash n (t * 512) = erased_page.

Lemma same_block_next i t : 0 <= i -> (i + 1) mod ppb <> 0 -> t / ppb = (i + 1) / ppb -> t / ppb = i / ppb.
Proof.
  intros Hi Hm ->. pose proof (Z.div_mod i ppb ltac:(lia)). pose proof (Z.div_mod (i + 1) ppb ltac:(lia)).
  pose proof (Z.mod_pos_bound i ppb Hppb). pose proof (Z.mod_pos_bound (i + 1) ppb Hppb). nia.
Qed.

(** The block of page [i] is erased when [i] is its first. *)
Lemma xell_erase_runs (s : nst D) n i :
  sees s c n -> nand_ok n -> blocks_ok n -> 0 <= i -> i * 512 < 2 ^ 31 -> (i mod ppb <> 0 -> rest_erased n i) ->
  runs (if negb (nz (Z.rem i ppb)) then sfcx_erase_block fuel (s32 (i * page_sz c)) ;; ret tt else ret tt) s (fun _ s' =>
    exists n', sees s' c n' /\ nand_ok n' /\ n_block n' = n_block n /\ n_remap n' = n_remap n /\ rest_erased n' i /\
      forall a, (i mod ppb = 0 -> a / block_sz c <> i / ppb) -> n_flash n' a = n_flash n a).
Proof.
  intros Hs Hok Hblk Hi Hend Hre. rewrite Z.rem_mod_nonneg by lia. unfold nz. rewrite negb_involutive.
  destruct (Z.eqb_spec (i mod ppb) 0) as [E|E].
  - rewrite Hps, s32_id by lia. apply runs_bind.
    eapply runs_mono; [|apply (erase_block_runs fuel Hfuel c s n (i * 512) Hs Hok); unfold is_word; lia].
    intros st s1 (n1 & Hn1 & Hok1 & F1 & R1 & B1 & _). apply runs_ret. exists n1. split_and!; try done.
    + intros t Ht Hb. rewrite F1, Hblk, !page_block, Hb, Z.eqb_refl. done.
    + intros a Ha. rewrite F1, Hblk, page_block. by rewrite (proj2 (Z.eqb_neq _ _)) by auto.
  - apply runs_ret. exists n. split_and!; try done. by apply Hre.
Qed.

(** Page [i] gets its final content. *)
Lemma xell_put_runs (s : nst D) n i user spare j :
  sees s c n -> nand_ok n -> 0 <= i -> i * 512 < 2 ^ 31 -> rest_erased n i -> raw_page (joined user spare j) ->
  runs (if negb (sfcx_is_pageerased c (joined user spare j)) then
          let pagebuf := write_at (Z.to_nat (page_sz c + 0x0C)) [0; 0; 0; 0] (joined user spare j) in
          let pagebuf := sfcx_calcecc c pagebuf in
          sfcx_write_page fuel pagebuf (s32 (i * page_sz c)) ;; ret pagebuf
        else ret (joined user spare j)) s (fun pagebuf s' =>
    length pagebuf = 528%nat /\ exists n', sees s' c n' /\ nand_ok n' /\ n_block n' = n_block n /\ n_remap n' = n_remap n /\
      n_flash n' (i * 512) = xell_final user spare j /\ forall a, a <> i * 512 -> n_flash n' a = n_flash n a).
Proof.
  intros Hs Hok Hi Hend Hre Hj. unfold xell_final. destruct (sfcx_is_pageerased c (joined user spare j)) eqn:He; cbn [negb].
  - apply runs_ret. split; [destruct Hj; lia|]. exists n. split_and!; try done. by apply Hre.
  - rewrite Hps, s32_id by lia. change (Z.to_nat (0x200 + 0x0C)) with 524%nat. fold (zero_edc (joined user spare j)).
    pose proof (calcecc_raw c _ Hps (zero_edc_raw _ Hj)) as [Hl Hb]. set (page := sfcx_calcecc c (zero_edc (joined user spare j))) in *.
    clearbody page. cbv zeta. apply runs_bind.
    eapply runs_mono; [|apply (write_page_runs fuel Hfuel c Hpp s n page (i * 512) Hs Hok); [unfold is_word; lia|lia|done]].
    intros st s1 (n1 & Hn1 & Hok1 & F1 & R1 & B1 & _). apply runs_ret. split; [lia|]. exists n1. split_and!; try done.
    + rewrite F1. unfold put_page. rewrite Z.eqb_refl. apply take_ge. lia.
    + intros a Ha. rewrite F1. unfold put_page. by rewrite (proj2 (Z.eqb_neq _ _)).
Qed.

Lemma xell_write_runs k : forall (s : nst D) n i j user spare pagebuf,
  sees s c n -> nand_ok n -> blocks_ok n -> 0 <= i -> (i + Z.of_nat k) * 512 < 2 ^ 31 -> (i mod ppb <> 0 -> rest_erased n i) ->
  page_bytes user -> page_bytes spare -> (512 * (j + k) <= length user)%nat -> (16 * (j + k) <= length spare)%nat -> length pagebuf = 528%nat ->
  runs (xell_write fuel k i (Z.of_nat j) user spare pagebuf) s (fun _ s' =>
    exists n', sees s' c n' /\ nand_ok n' /\
      (forall t, (t < k)%nat -> n_flash n' ((i + Z.of_nat t) * 512) = xell_final user spare (j + t)) /\
      (forall a, untouched i k a -> n_flash n' a = n_flash n a)).
Proof.
  induction k as [|k IH]; intros s n i j user spare pagebuf Hs Hok Hblk Hi Hend Hre Hub Hsb Hul Hsl Hpb; cbn [xell_write].
  - apply runs_ret. exists n. split_and!; try done. intros t Ht. lia.
  - apply runs_bind, runs_get. rewrite (proj1 Hs). apply runs_bind.
    eapply runs_mono; [|apply (xell_erase_runs s n i Hs Hok Hblk Hi); [lia|exact Hre]].
    intros [] s1 (n1 & Hn1 & Hok1 & B1 & R1 & Hre1 & F1).
    rewrite xell_page_joined by (done || lia). pose proof (joined_raw user spare j Hub Hsb ltac:(lia) ltac:(lia)) as Hj. cbv zeta. apply runs_bind.
    eapply runs_mono; [|apply (xell_put_runs s1 n1 i user spare j Hn1 Hok1 Hi ltac:(lia) Hre1 Hj)].
    intros pb s2 (Hpl & n2 & Hn2 & Hok2 & B2 & R2 & F2 & F2'). replace (Z.of_nat j + 1) with (Z.of_nat (S j)) by lia.
    eapply runs_mono; [|apply (IH s2 n2 (i + 1) (S j) user spare pb Hn2 Hok2); try done; try lia].
    + intros [] s3 (n3 & Hn3 & Hok3 & F3 & F3'). exists n3. split_and!; [done|done| |].
      * intros [|t] Ht.
        -- rewrite Z.add_0_r, Nat.add_0_r, F3' by (apply page_untouched; lia). exact F2.
        -- replace (i + Z.of_nat (S t)) with (i + 1 + Z.of_nat t) by lia. replace (j + S t)%nat with (S j + t)%nat by lia. apply F3. lia.
      * intros a Ha. rewrite F3', F2', F1; [done|..].
        -- intros E. by apply (Ha i ltac:(lia)).
        -- by apply (Ha i ltac:(lia)).
        -- intros t Ht. apply Ha. lia.
    + intros a b. rewrite B2, B1. apply Hblk.
    + intros Hm t Ht Hb. rewrite F2' by lia. apply Hre1; [lia|]. by apply same_block_next.
Qed.

(** ** Looking for the loader *)

Lemma calcecc_spare page : take 12 (drop 512 (sfcx_calcecc c page)) = take 12 (drop 512 page).
Proof.
  unfold sfcx_calcecc, set_byte. rewrite Hps. rewrite !take_drop_commute. rewrite !take_insert_ge by lia. done.
Qed.

Lemma xell_final_spare user spare j : raw_page (joined user spare j) ->
  (512 * (j + 1) <= length user)%nat -> (16 * (j + 1) <= length spare)%nat ->
  take 12 (drop 512 (xell_final user spare j)) = take 12 (drop (16 * j) spare).
Proof.
  intros H Hu Hs. assert (take 12 (drop 512 (joined user spare j)) = take 12 (drop (16 * j) spare)) as E.
  { unfold joined. rewrite drop_app_length' by (rewrite length_take, length_drop; lia). by rewrite take_take. }
  unfold xell_final. destruct (sfcx_is_pageerased _ _) eqn:He.
  - rewrite <- E. by rewrite (erased_page_is _ H He).
  - rewrite calcecc_spare, <- E. unfold zero_edc, write_at. destruct H as [Hl _]. rewrite !take_drop_commute.
    rewrite take_app_le by (rewrite length_take; lia). rewrite take_take. done.
Qed.

Lemma spare_page_at f k : forall i t, (forall a, raw_page (f a)) -> (t < k)%nat ->
  take 12 (drop (16 * t) (spare_pages f i k)) = take 12 (drop 512 (f ((i + Z.of_nat t) * 512))).
Proof.
  induction k as [|k IH]; intros i t Hf Ht; [lia|]. cbn [spare_pages]. destruct (Hf (i * 512)) as [Hl _]. destruct t as [|t].
  - rewrite Nat.mul_0_r, drop_0, Z.add_0_r. rewrite take_app_le by (rewrite length_take, length_drop; lia). by rewrite take_take.
  - rewrite drop_app_ge by (rewrite length_take, length_drop; lia). rewrite length_take, length_drop.
    replace (i + Z.of_nat (S t)) with (i + 1 + Z.of_nat t) by lia. rewrite <- (IH (i + 1) t Hf) by lia. do 2 f_equal. lia.
Qed.

(** The blocks that hold a loader at offset [o], its place in them, and their
    user data. *)
Definition loader_block (o : Z) : Z := o / block_sz c.
Definition loader_off (o : Z) : Z := o mod block_sz c.
Definition loader_blocks (o : Z) : Z := XELL_SIZE / block_sz c + (if loader_off o =? 0 then 0 else 1).
Definition loader_first (o : Z) : Z := loader_block o * ppb.
Definition loader_pages (o : Z) : nat := Z.to_nat (loader_blocks o * ppb).
Definition loader_user (f : Z -> list Z) (o : Z) : list Z := user_pages f (loader_first o) (loader_pages o).
Definition has_loader (f : Z -> list Z) (o : Z) : Prop :=
  take 16 (drop (Z.to_nat (loader_off o + XELL_FOOTER_OFFSET)) (loader_user f o)) = XELL_FOOTER.
#[global] Instance has_loader_dec f o : Decision (has_loader f o) := ltac:(unfold has_loader; apply _).

Context (Hbig : block_sz c <= 0x40000) (uninit : Z -> list Z) (Hun : Z.of_nat (length (uninit MAX_PAGE_SZ)) = MAX_PAGE_SZ).
Context (malloc : nat -> Z -> option (list Z)) (Hmalloc : forall k z, 0 <= z -> exists l, malloc k z = Some l /\ Z.of_nat (length l) = z).

Lemma loader_bounds o : 0 <= o < 0x1000000 ->
  0 <= loader_first o /\ 0 <= loader_blocks o /\ (loader_first o + Z.of_nat (loader_pages o)) * 512 < 2 ^ 31 /\
  Z.of_nat (loader_pages o) = loader_blocks o * ppb.
Proof.
  intros Ho. unfold loader_first, loader_pages, loader_blocks, loader_block, XELL_SIZE.
  assert (0 < block_sz c) as Hb0 by lia. pose proof (Z.div_pos o (block_sz c) ltac:(lia) Hb0) as H1.
  pose proof (Z.mul_div_le o (block_sz c) Hb0) as H2. change (256 * 1024) with 262144. pose proof (Z.div_pos 262144 (block_sz c) ltac:(lia) Hb0) as H3.
  pose proof (Z.mul_div_le 262144 (block_sz c) Hb0) as H4. set (q := o / block_sz c) in *. set (r := 262144 / block_sz c) in *.
  assert (0 <= (if loader_off o =? 0 then 0 else 1) <= 1) as H5 by (destruct (_ =? _); lia).
  set (e := if loader_off o =? 0 then 0 else 1) in *. clearbody q r e. rewrite Z2Nat.id by nia. rewrite Hbs in *.
  split_and!; [nia|nia|nia|done].
Qed.

(** One offset is read without changing the flash. *)
Lemma try_offset_runs (s : nst D) n addr len k o offs (Q : update_end -> nst D -> Prop) :
  sees s c n -> nand_ok n -> 0 <= o < 0x1000000 ->
  (forall s' n' pagebuf, sees s' c n' -> same_flash n n' -> nand_ok n' -> length pagebuf = 528%nat ->
    runs (if bool_decide (has_loader (n_flash n) o) then
            if (loader_off o + len <=? Z.of_nat (length (loader_user (n_flash n) o))) && (len <=? Z.of_nat (length addr)) then
              xell_write fuel (loader_pages o) (loader_first o) 0
                (write_at (Z.to_nat (loader_off o)) (take (Z.to_nat len) addr) (loader_user (n_flash n) o))
                (spare_pages (n_flash n) (loader_first o) (loader_pages o)) pagebuf ;; ret Flashed
            else fault
          else try_offsets fuel uninit malloc addr len (S k) offs) s' Q) ->
  runs (try_offsets fuel uninit malloc addr len k (o :: offs)) s Q.
Proof.
  intros Hs Hok Ho Hgo. destruct (loader_bounds o Ho) as (H1 & H2 & H3 & H4). cbn [try_offsets].
  apply runs_bind, runs_get. rewrite (proj1 Hs). rewrite Z.rem_mod_nonneg, (Z.quot_div_nonneg o) by lia.
  assert (Z.quot XELL_SIZE (block_sz c) = XELL_SIZE / block_sz c) as -> by (apply Z.quot_div_nonneg; unfold XELL_SIZE; lia).
  fold (loader_off o) (loader_block o).
  assert ((if nz (loader_off o) then XELL_SIZE / block_sz c + 1 else XELL_SIZE / block_sz c) = loader_blocks o) as ->
    by (unfold loader_blocks, nz; destruct (loader_off o =? 0); cbn [negb]; lia).
  fold (loader_first o) (loader_pages o).
  destruct (Hmalloc (2 * k)%nat (loader_blocks o * ppb * meta_sz c)) as (spare & Em1 & Hl1); [rewrite Hms; nia|].
  destruct (Hmalloc (2 * k + 1)%nat (loader_blocks o * block_sz c)) as (user & Em2 & Hl2); [nia|]. rewrite Em1, Em2.
  rewrite Hms in Hl1. rewrite Hbs in Hl2. apply runs_bind. unfold MAX_PAGE_SZ in Hun at 2.
  eapply runs_mono; [|apply (xell_read_runs (loader_pages o) s n (loader_first o) 0 user spare (uninit MAX_PAGE_SZ) Hs Hok H1 H3); nia].
  intros [[us sp] pb] s1 (E1 & E2 & E3 & n1 & Hn1 & Hsame & Hok1). cbn [fst snd] in *.
  rewrite Nat.mul_0_r, take_0, drop_ge, app_nil_r in E1 by nia. rewrite Nat.mul_0_r, take_0, drop_ge, app_nil_r in E2 by nia.
  cbn [app] in E1, E2. subst us sp. exact (Hgo s1 n1 pb Hn1 Hsame Hok1 E3).
Qed.

(** Offsets without a loader are passed over. *)
Lemma try_offsets_skip addr len post (Q : update_end -> nst D -> Prop) pre : forall (s : nst D) n k,
  sees s c n -> nand_ok n -> Forall (fun o => 0 <= o < 0x1000000 /\ ~ has_loader (n_flash n) o) pre ->
  (forall s' n' k', sees s' c n' -> same_flash n n' -> nand_ok n' -> runs (try_offsets fuel uninit malloc addr len k' post) s' Q) ->
  runs (try_offsets fuel uninit malloc addr len k (pre ++ post)) s Q.
Proof.
  induction pre as [|o pre IH]; intros s n k Hs Hok HF Hgo; [by apply (Hgo s n)|]. apply Forall_cons in HF as [[Ho Hno] HF].
  apply (try_offset_runs s n addr len k o _ Q Hs Hok Ho). intros s' n' pb Hs' Hsame Hok' _. rewrite bool_decide_false by done.
  assert (n_flash n' = n_flash n) as F by apply Hsame. apply (IH s' n' (S k) Hs' Hok'); [by rewrite F|].
  intros s2 n2 k2 Hs2 Hsame2 Hok2. apply (Hgo s2 n2 k2 Hs2); [|done]. unfold same_flash in *. intuition congruence.
Qed.

Lemma xelloffsets_small : Forall (fun o => 0 <= o < 0x1000000) xelloffsets.
Proof. repeat (apply Forall_cons_2; [split; [discriminate|reflexivity]|]). apply Forall_nil_2. Qed.

(** No loader, no change.  On a flash that holds a loader's footer at none
    of the six places, [updateXeLL] returns -1 and the flash is as it was. *)
Theorem update_without_loader (s : nst D) n addr len :
  sees s c n -> nand_ok n -> initialized c = SFCX_INITIALIZED -> Forall (fun o => ~ has_loader (n_flash n) o) xelloffsets ->
  runs (updateXeLL fuel uninit malloc addr len) s (fun r s' =>
    r = Returned (-1) /\ exists n', sees s' c n' /\ n_flash n' = n_flash n).
Proof.
  intros Hs Hok Hini HF. unfold updateXeLL. apply runs_bind, runs_get. rewrite (proj1 Hs), Hini.
  change (negb (SFCX_INITIALIZED =? SFCX_INITIALIZED)) with false. cbn iota. rewrite <- (app_nil_r xelloffsets).
  apply (try_offsets_skip addr len [] _ xelloffsets s n 0 Hs Hok); [apply Forall_and; split; [apply xelloffsets_small|done]|].
  intros s' n' k' Hs' Hsame Hok'. cbn [try_offsets]. apply runs_ret. split; [done|]. exists n'. split; [done|]. apply Hsame.
Qed.

Lemma loader_untouched o a : 0 <= o < 0x1000000 ->
  ~ (loader_block o <= a / block_sz c < loader_block o + loader_blocks o) -> untouched (loader_first o) (loader_pages o) a.
Proof.
  intros Ho Ha t Ht. destruct (loader_bounds o Ho) as (_ & _ & _ & H4). unfold loader_first in Ht. rewrite H4 in Ht.
  assert (loader_block o <= t / ppb < loader_block o + loader_blocks o) as Hb
    by (split; [apply Z.div_le_lower_bound; lia|apply Z.div_lt_upper_bound; lia]).
  split; [intros ->; rewrite page_block in Ha|intros _ E]; lia.
Qed.

(** C3: the update replaces the loader and nothing else.  When the first place
    with a loader's footer is [o] and the image fits the blocks there,
    [updateXeLL] ends in its final loop with the flash changed as follows: the
    user data of those blocks is the old data with the image at the loader's
    place; every page of them keeps the first 12 bytes of its spare data and is
    either erased or carries correct error correction bits; all other blocks
    hold what they held. *)
Theorem update_replaces_loader (s : nst D) n addr pre o post :
  sees s c n -> nand_ok n -> blocks_ok n -> initialized c = SFCX_INITIALIZED ->
  xelloffsets = pre ++ o :: post -> Forall (fun o => ~ has_loader (n_flash n) o) pre -> has_loader (n_flash n) o ->
  page_bytes addr -> loader_off o + Z.of_nat (length addr) <= loader_blocks o * block_sz c ->
  runs (updateXeLL fuel uninit malloc addr (Z.of_nat (length addr))) s (fun r s' =>
    r = Flashed /\ exists n', sees s' c n' /\
      loader_user (n_flash n') o = write_at (Z.to_nat (loader_off o)) addr (loader_user (n_flash n) o) /\
      (forall t, (t < loader_pages o)%nat ->
        let p := n_flash n' ((loader_first o + Z.of_nat t) * 512) in
        take 12 (drop 512 p) = take 12 (drop 512 (n_flash n ((loader_first o + Z.of_nat t) * 512))) /\
        (p = erased_page \/ sfcx_calcecc c p = p)) /\
      (forall a, ~ (loader_block o <= a / block_sz c < loader_block o + loader_blocks o) -> n_flash n' a = n_flash n a)).
Proof.
  intros Hs Hok Hblk Hini Hsplit HF Hload Hab Hfit. pose proof xelloffsets_small as Hsm. rewrite Hsplit in Hsm.
  apply Forall_app in Hsm as [Hsm1 Hsm2]. apply Forall_cons in Hsm2 as [Ho _].
  unfold updateXeLL. apply runs_bind, runs_get. rewrite (proj1 Hs), Hini.
  change (negb (SFCX_INITIALIZED =? SFCX_INITIALIZED)) with false. cbn iota. rewrite Hsplit.
  apply (try_offsets_skip addr _ (o :: post) _ pre s n 0 Hs Hok); [apply Forall_and; by split|].
  intros s1 n1 k1 Hs1 Hsame1 Hok1. assert (n_flash n1 = n_flash n) as F1 by apply Hsame1.
  apply (try_offset_runs s1 n1 addr _ k1 o post _ Hs1 Hok1 Ho). intros s2 n2 pb Hs2 Hsame2 Hok2 Hpb. rewrite F1.
  assert (n_flash n2 = n_flash n) as F2 by (destruct Hsame2 as (_ & E & _); congruence).
  assert (blocks_ok n2) as Hblk2 by (intros a b; destruct Hsame1 as (_ & _ & _ & E1), Hsame2 as (_ & _ & _ & E2); rewrite E2, E1; apply Hblk).
  destruct (loader_bounds o Ho) as (B1 & B2 & B3 & B4). destruct Hok as [_ Hraw].
  destruct (pages_ok (n_flash n) (loader_pages o) (loader_first o) Hraw) as (P1 & P2 & P3 & P4). fold (loader_user (n_flash n) o) in P1, P3.
  pose proof (Z.mod_pos_bound o (block_sz c) ltac:(lia)) as Hoff. fold (loader_off o) in Hoff.
  rewrite bool_decide_true by done. rewrite (proj2 (Z.leb_le _ _)), (proj2 (Z.leb_le _ _)) by (rewrite ?P1; lia). cbn [andb].
  rewrite Nat2Z.id, take_ge by lia. set (user' := write_at (Z.to_nat (loader_off o)) addr (loader_user (n_flash n) o)).
  set (spare := spare_pages (n_flash n) (loader_first o) (loader_pages o)) in *.
  assert (length user' = 512 * loader_pages o)%nat as Hul by (unfold user'; rewrite length_write_at; [done|rewrite P1; lia]).
  assert (page_bytes user') as Hub.
  { unfold user', write_at. apply Forall_app. split; [by apply Forall_take|]. apply Forall_app. split; [done|by apply Forall_drop]. }
  assert (loader_first o mod ppb = 0) as Hmod by (unfold loader_first; by apply Z.mod_mul; lia).
  apply runs_bind. eapply runs_mono; [|apply (xell_write_runs (loader_pages o) s2 n2 (loader_first o) 0 user' spare pb Hs2 Hok2 Hblk2 B1 B3); [done|done|done|lia|lia|done]].
  intros [] s3 (n3 & Hn3 & Hok3 & F3 & F3'). apply runs_ret. split; [done|]. exists n3. split; [done|].
  assert (forall t, (t < loader_pages o)%nat -> raw_page (joined user' spare t)) as Hj by (intros t Ht; apply joined_raw; done || lia).
  split; [|split].
  - apply user_pages_of; [done|]. intros t Ht. rewrite F3 by done. apply xell_final_user; [by apply Hj|lia].
  - intros t Ht. cbv zeta. rewrite F3 by done. split.
    + rewrite xell_final_spare by (by apply Hj || lia). by apply spare_page_at.
    + unfold xell_final. rewrite Nat.add_0_l. destruct (sfcx_is_pageerased _ _); [by left|]. right. by apply calcecc_stable, zero_edc_raw, Hj.
  - intros a Ha. rewrite F3' by (by apply loader_untouched). by rewrite F2.
Qed.
End xell.

(** ** Two consoles *)

(** A flash every byte of which is [v]. *)
Definition filled_nand (v : Z) : nand :=
  mkNand 0 0 0 (replicate 528 0) [] (fun _ => replicate 528 v) (fun a => a) (fun a b => a / 16384 =? b / 16384).
Definition filled_state (v : Z) : nst controller := mkNst demo_sfc (filled_nand v, 0%nat).

Lemma filled_ok v : is_byte v -> nand_ok (filled_nand v).
Proof. intros Hv. split; [reflexivity|]. intros a. split; [reflexivity|]. by apply Forall_replicate. Qed.

Lemma user_pages_filled v k : forall i, user_pages (fun _ => replicate 528 v) i k = replicate (512 * k) v.
Proof.
  induction k as [|k IH]; intros i; [by rewrite Nat.mul_0_r|]. cbn [user_pages]. rewrite IH, take_replicate.
  replace (512 * S k)%nat with (512 + 512 * k)%nat by lia. rewrite replicate_add. reflexivity.
Qed.

(** A filled flash has a loader's footer everywhere or nowhere. *)
Lemma filled_loader v o : has_loader demo_sfc (fun _ => replicate 528 v) o ->  v = 0x78.
Proof.
  unfold has_loader, loader_user. rewrite user_pages_filled, drop_replicate, take_replicate. unfold XELL_FOOTER. intros E.
  pose proof (f_equal length E) as Hl. rewrite !length_replicate in Hl. rewrite Hl in E. by injection E.
Qed.

Definition demo_malloc (k : nat) (z : Z) : option (list Z) := Some (replicate (Z.to_nat z) 0).
Lemma demo_malloc_ok k z : 0 <= z -> exists l, demo_malloc k z = Some l /\ Z.of_nat (length l) = z.
Proof. intros Hz. eexists. split; [reflexivity|]. rewrite length_replicate. lia. Qed.

Definition stack_bytes (z : Z) : list Z := replicate (Z.to_nat z) 0xAA.

Lemma update_without_loader_demo :
  runs (updateXeLL 4 stack_bytes demo_malloc [1; 2; 3] 3) (filled_state 0) (fun r _ => r = Returned (-1)).
Proof.
  eapply runs_mono; [|apply (update_without_loader (L := controller_laws) 4 ltac:(cbn; lia) demo_sfc eq_refl eq_refl eq_refl
    ltac:(cbn; lia) eq_refl ltac:(cbn; lia) stack_bytes eq_refl demo_malloc demo_malloc_ok (filled_state 0) (filled_nand 0));
    [split; reflexivity|apply filled_ok; split; [lia|reflexivity]|reflexivity|]].
  - intros r s' [H _]. exact H.
  - apply Forall_forall. intros o _ H. apply filled_loader in H. discriminate.
Defined.

Lemma update_replaces_loader_demo :
  runs (updateXeLL 4 stack_bytes demo_malloc [1; 2; 3] 3) (filled_state 0x78) (fun r s' =>
    r = Flashed /\ loader_user demo_sfc (n_flash (fst (dev s'))) 0x70000 =
      write_at 0 [1; 2; 3] (loader_user demo_sfc (fun _ => replicate 528 0x78) 0x70000)).
Proof.
  eapply runs_mono; [|apply (update_replaces_loader (L := controller_laws) 4 ltac:(cbn; lia) demo_sfc eq_refl eq_refl eq_refl
    ltac:(cbn; lia) eq_refl ltac:(cbn; lia) stack_bytes eq_refl demo_malloc demo_malloc_ok (filled_state 0x78) (filled_nand 0x78)
    [1; 2; 3] [] 0x70000 [0x95060; 0x100000; 0xC0000; 0xE0000; 0xB80000]);
    [split; reflexivity|apply filled_ok; split; [lia|reflexivity]|intros a b; reflexivity|reflexivity|reflexivity|apply Forall_nil_2| | |]].
  - intros r s' (H1 & n' & [_ <-] & H2 & _). split; [exact H1|exact H2].
  - unfold has_loader, loader_user. cbn [n_flash filled_nand]. rewrite user_pages_filled, drop_replicate, take_replicate.
    unfold XELL_FOOTER. apply (f_equal (fun k => replicate k 0x78)), Nat.min_l.
    assert (Z.of_nat (loader_pages demo_sfc 0x70000) = 512) as Hp by (vm_compute; reflexivity).
    assert (loader_off demo_sfc 0x70000 = 0) as -> by (vm_compute; reflexivity). unfold XELL_FOOTER_OFFSET. lia.
  - repeat (apply Forall_cons_2; [split; [lia|reflexivity]|]). apply Forall_nil_2.
  - vm_compute. discriminate.
Defined.
