(* ===== verification/Console.v ===== *)
(** * The text console: [drivers/console/console.c]

    The frame buffer is a list of 32-bit pixels, in the tiled order the
    graphics chip uses; a store outside it is a [Fault].  The font is a
    parameter, the byte at an index of [fontdata_8x16]. *)
From S2P Require Import Prelude Bits SfcxFacts.

Record con := mkCon {
  console_initialized : Z;
  console_width : Z; console_height : Z; console_size : Z;
  console_color0 : Z; console_color1 : Z;        (* console_color[2] *)
  console_fb : Z;                                (* address, 0 when unset *)
  fb : list Z;                                   (* the pixels there *)
  cursor_x : Z; cursor_y : Z; max_x : Z; max_y : Z; offset_x : Z; offset_y : Z;
  stdout_hook : bool                             (* is the hook installed? *)
}.
#[global] Instance eta_con : Eta con := fun r =>
  mkCon (console_initialized r) (console_width r) (console_height r) (console_size r)
    (console_color0 r) (console_color1 r) (console_fb r) (fb r)
    (cursor_x r) (cursor_y r) (max_x r) (max_y r) (offset_x r) (offset_y r) (stdout_hook r).

Local Abbreviation MC := (M con).

(** ** Pixels *)

(** [base] of [console_pset32]. *)
Definition pixel_index (width x y : Z) : Z :=
  ((y .>> 5) * 32 * width + Z.shiftl (x .>> 5) 10
   + (x .& 3) + Z.shiftl (y .& 1) 2 + Z.shiftl ((x .& 31) .>> 2) 3 + Z.shiftl ((y .& 31) .>> 1) 6)
  .^ Z.shiftl (y .& 8) 2.

Definition console_pset32 (x y color : Z) : MC unit :=
  s <- get ;;
  let i := pixel_index (console_width s) x y in
  if (0 <=? i) && (i <? Z.of_nat (length (fb s)))
  then modify (fun s => s <| fb ::= <[Z.to_nat i := color]> |>)
  else fault.

Definition console_pset (x y r g b : Z) : MC unit :=
  console_pset32 x y (u32 (Z.shiftl b 24 + Z.shiftl g 16 + Z.shiftl r 8)).

Section font.
Context (font : Z -> Z).

Definition font_pixel (ch x y : Z) : Z := (font (ch * 16 + y) .>> (7 - x)) .& 1.
Definition color_of (s : con) (i : Z) : Z := if i =? 0 then console_color0 s else console_color1 s.

Definition console_draw_char (x y c : Z) : MC unit :=
  for_each (Z.of_nat <$> seq 0 16) (fun ly =>
    for_each (Z.of_nat <$> seq 0 8) (fun lx =>
      s <- get ;; console_pset32 (x + lx) (y + ly) (color_of s (font_pixel c lx ly)))).

(** ** Whole screens *)

Definition console_clrscr : MC unit :=
  s <- get ;;
  let count := console_width s * console_height s in
  if count <=? Z.of_nat (length (fb s)) then
    modify (fun s => s <| fb := replicate (Z.to_nat count) (console_color0 s) ++ drop (Z.to_nat count) (fb s) |>
                       <| cursor_x := 0 |> <| cursor_y := 0 |>)
  else fault.

(** [for (l = lines; l*32 < console_height; l++) memcpy(...)]: [n] rounds at
    most.  [bw] is the size of a row of tiles, in pixels. *)
Fixpoint scroll_rows (n : nat) (l lines bw height : Z) (pixels : list Z) : option (list Z) :=
  match n with
  | O => Some pixels
  | S n =>
      if l * 32 <? height then
        if (bw * l + bw <=? Z.of_nat (length pixels)) && (0 <=? bw * (l - lines)) then
          scroll_rows n (l + 1) lines bw height
            (write_at (Z.to_nat (bw * (l - lines))) (take (Z.to_nat bw) (drop (Z.to_nat (bw * l)) pixels)) pixels)
        else None
      else Some pixels
  end.

Definition console_scroll32 (lines : Z) : MC unit :=
  s <- get ;;
  let bw := console_width s * 32 in
  match scroll_rows (Z.to_nat (console_height s)) lines lines bw (console_height s) (fb s) with
  | None => fault
  | Some pixels =>
      let start := console_size s - bw * lines in
      if (0 <=? start) && (console_size s <=? Z.of_nat (length pixels)) then
        modify (fun s => s <| fb := write_at (Z.to_nat start) (replicate (Z.to_nat (bw * lines)) (console_color0 s)) pixels |>)
      else fault
  end.

(** ** Text *)

Definition console_newline : MC unit :=
  modify (fun s => s <| cursor_x := 0 |> <| cursor_y ::= Z.succ |>) ;;
  s <- get ;;
  if max_y s <=? cursor_y s then
    console_scroll32 1 ;;
    modify (fun s => s <| cursor_y ::= fun y => y - 2 |>)
  else ret tt.

Definition console_putch (c : Z) : MC unit :=
  s <- get ;;
  if console_fb s =? 0 then ret tt else
  if c =? 13 then modify (fun s => s <| cursor_x := 0 |>)
  else if c =? 10 then console_newline
  else
    console_draw_char (cursor_x s * 8 + offset_x s) (cursor_y s * 16 + offset_y s) c ;;
    modify (fun s => s <| cursor_x ::= Z.succ |>) ;;
    s <- get ;;
    if max_x s <=? cursor_x s then console_newline else ret tt.

Definition console_stdout_hook (buf : list Z) : MC unit :=
  s <- get ;;
  if nz (console_initialized s) then for_each buf console_putch else ret tt.
End font.

(** ** Setting up *)

(** The display's registers: base address, width and height; [vram] is the
    memory at the base. *)
Definition console_init (base width height : Z) (overscan : bool) (vram : list Z) : MC unit :=
  modify (fun s => s <| console_initialized := 0 |> <| console_fb := base .| 0x80000000 |> <| fb := vram |>
    <| console_width := ((width + 31) .>> 5) .<< 5 |> <| console_height := ((height + 31) .>> 5) .<< 5 |>) ;;
  modify (fun s => s <| console_size := console_width s * console_height s |> <| offset_x := 0 |> <| offset_y := 0 |>) ;;
  (if overscan then modify (fun s => s <| offset_x := width / 28 |> <| offset_y := height / 28 |>) else ret tt) ;;
  modify (fun s => s <| cursor_x := 0 |> <| cursor_y := 0 |>
    <| max_x := u32 (width - offset_x s * 2) / 8 |> <| max_y := u32 (height - offset_y s * 2) / 16 |>) ;;
  console_clrscr ;;
  modify (fun s => s <| stdout_hook := true |>) ;;
  modify (fun s => s <| console_initialized := 1 |>).

Definition console_is_initialized : MC Z := gets console_initialized.

(** The comparisons are between unsigned values: [-1] is [UINT_MAX]. *)
Definition console_set_colors (background foreground : Z) : MC unit :=
  (if u32 (-1) <? background then modify (fun s => s <| console_color0 := background |>) else ret tt) ;;
  (if u32 (-1) <? foreground then modify (fun s => s <| console_color1 := foreground |>) else ret tt).

Definition console_get_dimensions : MC (Z * Z) := gets (fun s => (max_x s, max_y s)).
Definition console_get_color (num : Z) : MC Z :=
  if (num <? 0) || (1 <? num) then ret 0 else gets (fun s => color_of s num).
Definition console_close : MC unit := modify (fun s => s <| stdout_hook := false |>).
