(* ===== verification/ConsoleFacts.v ===== *)
(** * The text console: where pixels go, and that they stay on the screen *)
From S2P Require Import Prelude Bits SfcxFacts Console.

(** ** The tiled order *)

(** The place of a pixel in its tile of 32 by 32. *)
Definition tile_index (x y : Z) : Z :=
  ((x .& 3) + Z.shiftl (y .& 1) 2 + Z.shiftl ((x .& 31) .>> 2) 3 + Z.shiftl ((y .& 31) .>> 1) 6) .^ Z.shiftl (y .& 8) 2.
(** The pixel at a place of the tile. *)
Definition untile (i : Z) : Z * Z :=
  let y := ((i .>> 6) .& 15) * 2 + ((i .>> 2) .& 1) in
  let j := i .^ Z.shiftl (y .& 8) 2 in
  ((j .& 3) + 4 * ((j .>> 3) .& 7), y).

Definition tile_check : bool :=
  forallb (fun x => forallb (fun y =>
    let i := tile_index (Z.of_nat x) (Z.of_nat y) in
    (0 <=? i) && (i <? 1024) && bool_decide (untile i = (Z.of_nat x, Z.of_nat y))) (seq 0 32)) (seq 0 32).

Lemma tile_ok x y : 0 <= x < 32 -> 0 <= y < 32 -> 0 <= tile_index x y < 1024 /\ untile (tile_index x y) = (x, y).
Proof.
  intros Hx Hy. assert (tile_check = true) as H by (vm_compute; reflexivity). unfold tile_check in H.
  rewrite forallb_forall in H. specialize (H (Z.to_nat x) ltac:(apply in_seq; lia)).
  rewrite forallb_forall in H. specialize (H (Z.to_nat y) ltac:(apply in_seq; lia)). cbv zeta in H.
  rewrite !Z2Nat.id in H by lia. apply andb_prop in H as [H H3]. apply andb_prop in H as [H1 H2].
  apply Z.leb_le in H1. apply Z.ltb_lt in H2. apply bool_decide_eq_true in H3. done.
Qed.

Lemma lxor_low q r s : 0 <= r < 1024 -> 0 <= s < 1024 -> (1024 * q + r) .^ s = 1024 * q + (r .^ s).
Proof.
  intros Hr Hs. assert (forall t, 0 <= t < 1024 -> 1024 * q + t = Z.shiftl q 10 .^ t) as E.
  { intros t Ht. rewrite Z.shiftl_mul_pow2 by lia. replace (q * 2 ^ 10) with (1024 * q) by lia. apply Z.add_nocarry_lxor.
    replace (1024 * q) with (Z.shiftl q 10) by (rewrite Z.shiftl_mul_pow2; lia).
    bitwise n Hn. rewrite Z.land_spec, Z.bits_0. destruct (Z.ltb_spec n 10).
    - by rewrite Z.shiftl_spec_low.
    - by rewrite (high_bits t 10), andb_false_r by lia. }
  rewrite (E r Hr), Z.lxor_assoc. symmetry. apply E. apply (bits_range _ 10); [lia|apply Z.lxor_nonneg; lia|].
  intros n Hn. by rewrite Z.lxor_spec, (high_bits r 10), (high_bits s 10) by lia.
Qed.

Lemma land_low x m k : 0 <= k <= 5 -> m = Z.ones k -> (x mod 32) .& m = x .& m.
Proof.
  intros Hk ->. change 32 with (2 ^ 5). rewrite <- Z.land_ones, <- Z.land_assoc by lia. f_equal.
  rewrite (Z.land_comm (Z.ones 5)), Z.land_ones by lia. apply Z.mod_small. rewrite Z.ones_equiv. pose proof (Z.pow_le_mono_r 2 k 5 ltac:(lia) ltac:(lia)).
  pose proof (Z.pow_pos_nonneg 2 k ltac:(lia) ltac:(lia)). lia.
Qed.

Lemma pixel_index_tile k x y : 0 <= x -> 0 <= y ->
  pixel_index (32 * k) x y = 1024 * (y / 32 * k + x / 32) + tile_index (x mod 32) (y mod 32).
Proof.
  intros Hx Hy. unfold pixel_index, tile_index.
  assert (y mod 32 .& 8 = y .& 8) as E8.
  { change 32 with (2 ^ 5). rewrite <- Z.land_ones, <- Z.land_assoc by lia. done. }
  rewrite (land_low x 3 2), (land_low y 1 1), (land_low x 31 5), (land_low y 31 5), E8 by (lia || done).
  rewrite !Z.shiftr_div_pow2 by lia. rewrite (Z.shiftl_mul_pow2 (x / 2 ^ 5)) by lia. change (2 ^ 5) with 32. change (2 ^ 10) with 1024.
  set (r := (x .& 3) + Z.shiftl (y .& 1) 2 + Z.shiftl ((x .& 31) / 2 ^ 2) 3 + Z.shiftl ((y .& 31) / 2 ^ 1) 6).
  replace (y / 32 * 32 * (32 * k) + x / 32 * 1024 + (x .& 3) + Z.shiftl (y .& 1) 2 + Z.shiftl ((x .& 31) / 2 ^ 2) 3 + Z.shiftl ((y .& 31) / 2 ^ 1) 6)
    with (1024 * (y / 32 * k + x / 32) + r) by (unfold r; lia).
  apply lxor_low.
  - unfold r. rewrite !Z.shiftl_mul_pow2 by lia. clear r E8.
    assert (x .& 3 = x mod 4) as -> by (apply (Z.land_ones x 2); lia). assert (y .& 1 = y mod 2) as -> by (apply (Z.land_ones y 1); lia).
    assert (x .& 31 = x mod 32) as -> by (apply (Z.land_ones x 5); lia). assert (y .& 31 = y mod 32) as -> by (apply (Z.land_ones y 5); lia).
    change (2 ^ 2) with 4. change (2 ^ 1) with 2. change (2 ^ 5) with 32. change (2 ^ 3) with 8. change (2 ^ 6) with 64.
    Z.to_euclidean_division_equations. lia.
  - rewrite Z.shiftl_mul_pow2 by lia. assert (y .& 8 = 0 \/ y .& 8 = 8) as [-> | ->]; [|lia|lia].
    assert (y .& 8 = if Z.testbit y 3 then 8 else 0) as ->; [|destruct (Z.testbit y 3); auto].
    bitwise n Hn. rewrite Z.land_spec. change 8 with (2 ^ 3). rewrite Z.pow2_bits_eqb by lia.
    destruct (Z.eqb_spec 3 n) as [<-|Hne]; [rewrite andb_true_r; by destruct (Z.testbit y 3)|].
    rewrite andb_false_r. destruct (Z.testbit y 3); [|by rewrite Z.bits_0]. by rewrite Z.pow2_bits_false.
Qed.

Lemma pixel_bounds k m x y : 0 <= x < 32 * k -> 0 <= y < 32 * m -> 0 <= pixel_index (32 * k) x y < 32 * k * (32 * m).
Proof.
  intros Hx Hy. rewrite pixel_index_tile by lia.
  destruct (tile_ok (x mod 32) (y mod 32)) as [H _]; [apply Z.mod_pos_bound; lia..|].
  assert (0 <= x / 32 < k) by (split; [apply Z.div_pos|apply Z.div_lt_upper_bound]; lia).
  assert (0 <= y / 32 < m) by (split; [apply Z.div_pos|apply Z.div_lt_upper_bound]; lia). nia.
Qed.

Lemma pixel_inj k x y x' y' : 0 <= x < 32 * k -> 0 <= x' < 32 * k -> 0 <= y -> 0 <= y' ->
  pixel_index (32 * k) x y = pixel_index (32 * k) x' y' -> x = x' /\ y = y'.
Proof.
  intros Hx Hx' Hy Hy' E. rewrite !pixel_index_tile in E by lia.
  destruct (tile_ok (x mod 32) (y mod 32)) as [H U]; [apply Z.mod_pos_bound; lia..|].
  destruct (tile_ok (x' mod 32) (y' mod 32)) as [H' U']; [apply Z.mod_pos_bound; lia..|].
  assert (tile_index (x mod 32) (y mod 32) = tile_index (x' mod 32) (y' mod 32)) as Et by lia.
  rewrite Et, U' in U. injection U as Ux Uy.
  assert (0 <= x / 32 < k) by (split; [apply Z.div_pos|apply Z.div_lt_upper_bound]; lia).
  assert (0 <= x' / 32 < k) by (split; [apply Z.div_pos|apply Z.div_lt_upper_bound]; lia).
  destruct (Z.div_mod_unique k (y / 32) (y' / 32) (x / 32) (x' / 32)) as [Eq1 Eq2]; [lia|lia|lia|].
  pose proof (Z.div_mod x 32 ltac:(lia)). pose proof (Z.div_mod x' 32 ltac:(lia)). pose proof (Z.div_mod y 32 ltac:(lia)).
  pose proof (Z.div_mod y' 32 ltac:(lia)). lia.
Qed.

(** C36: the tiled frame buffer.  On a screen whose sides are multiples of 32
    every pixel has a place inside the frame buffer, and no two pixels share
    one. *)
Theorem pixel_index_bijective k m : 0 < k -> 0 < m ->
  (forall x y, 0 <= x < 32 * k -> 0 <= y < 32 * m -> 0 <= pixel_index (32 * k) x y < 32 * k * (32 * m)) /\
  (forall x y x' y', 0 <= x < 32 * k -> 0 <= y < 32 * m -> 0 <= x' < 32 * k -> 0 <= y' < 32 * m ->
    pixel_index (32 * k) x y = pixel_index (32 * k) x' y' -> x = x' /\ y = y').
Proof.
  intros Hk Hm. split; [by intros; apply pixel_bounds|]. intros x y x' y' Hx Hy Hx' Hy'. apply pixel_inj; lia.
Qed.

Lemma pixel_index_bijective_720p : 0 <= pixel_index (32 * 40) 1279 719 < 32 * 40 * (32 * 23).
Proof. apply (proj1 (pixel_index_bijective 40 23 ltac:(lia) ltac:(lia))); lia. Defined.

(** ** A screen in order *)

(** The frame buffer has its size. *)
Record frame (s : con) : Prop := {
  sc_sides : exists k m, console_width s = 32 * k /\ console_height s = 32 * m /\ 0 < k /\ 0 < m;
  sc_len : Z.of_nat (length (fb s)) = console_width s * console_height s;
  sc_size : console_size s = console_width s * console_height s
}.

(** The text area lies on the frame buffer, the cursor in the text area. *)
Record screen (s : con) : Prop := {
  sc_frame : frame s;
  sc_off : 0 <= offset_x s /\ 0 <= offset_y s;
  sc_area : offset_x s + 8 * max_x s <= console_width s /\ offset_y s + 16 * max_y s <= console_height s;
  sc_lines : 2 <= max_y s;
  sc_cursor : 0 <= cursor_x s < max_x s /\ 0 <= cursor_y s < max_y s
}.

Definition on_screen (s : con) (x y : Z) : Prop := 0 <= x < console_width s /\ 0 <= y < console_height s.
(** The pixel at [x], [y]. *)
Definition pixel (s : con) (x y : Z) : option Z := fb s !! Z.to_nat (pixel_index (console_width s) x y).

Lemma set_fb_same s : s <| fb := fb s |> = s.
Proof. by destruct s. Qed.

Lemma pset32_runs s x y color : frame s -> on_screen s x y ->
  runs (console_pset32 x y color) s (fun _ s' => s' = s <| fb := fb s' |> /\ length (fb s') = length (fb s) /\
    forall px py, on_screen s px py -> pixel s' px py = if decide (px = x /\ py = y) then Some color else pixel s px py).
Proof.
  intros Hs [Hx Hy]. destruct (sc_sides s Hs) as (k & m & Ew & Eh & Hk & Hm). unfold console_pset32. apply runs_bind, runs_get.
  rewrite Ew in *. rewrite Eh in *. pose proof (pixel_bounds k m x y Hx Hy) as Hi. set (i := pixel_index (32 * k) x y) in *.
  pose proof (sc_len s Hs) as Hl. rewrite Ew, Eh in Hl.
  rewrite (proj2 (Z.leb_le _ _)), (proj2 (Z.ltb_lt _ _)) by lia. cbn [andb]. apply runs_modify. cbn. rewrite Ew in *.
  split; [done|]. split; [apply length_insert|]. intros px py [Hpx Hpy]. unfold pixel. cbn. rewrite Ew, Eh in *.
  pose proof (pixel_bounds k m px py Hpx Hpy) as Hp. destruct (decide (px = x /\ py = y)) as [[-> ->]|Hne].
  - apply list_lookup_insert_eq. fold i. lia.
  - apply list_lookup_insert_ne. intros E. apply Hne. apply (pixel_inj k); try lia.
Qed.

Section text.
Context (font : Z -> Z).

(** The pixels of a character cell at [x], [y]: the rows before [i] are drawn
    and of row [i] the columns before [j]. *)
Definition drawn (s : con) (x y c : Z) (i j : nat) (s' : con) : Prop :=
  s' = s <| fb := fb s' |> /\ length (fb s') = length (fb s) /\
  forall px py, on_screen s px py -> pixel s' px py =
    if decide (x <= px < x + 8 /\ y <= py < y + 16 /\ (py < y + Z.of_nat i \/ py = y + Z.of_nat i /\ px < x + Z.of_nat j))
    then Some (color_of s (font_pixel font c (px - x) (py - y))) else pixel s px py.

(** Only the pixels change. *)
Lemma frame_fb s s' : frame s -> s' = s <| fb := fb s' |> -> length (fb s') = length (fb s) -> frame s'.
Proof. intros [] E Hl. rewrite E. cbn in Hl. constructor; cbn; rewrite ?Hl; done. Qed.
Lemma screen_fb s s' : screen s -> s' = s <| fb := fb s' |> -> length (fb s') = length (fb s) -> screen s'.
Proof. intros [Hf] E Hl. pose proof (frame_fb s s' Hf E Hl). rewrite E in *. by constructor. Qed.

Lemma draw_char_runs s x y c : frame s -> 0 <= x -> x + 8 <= console_width s -> 0 <= y -> y + 16 <= console_height s ->
  runs (console_draw_char font x y c) s (fun _ s' => drawn s x y c 16 0 s').
Proof.
  intros Hs Hx Hx8 Hy Hy16. unfold console_draw_char.
  apply (runs_range (fun i s' => drawn s x y c i 0 s') _ 16 0).
  - split; [by rewrite set_fb_same|]. split; [done|]. intros px py _. rewrite decide_False by lia. done.
  - intros i s1 Hi H1. eapply runs_mono; [|apply (runs_range (fun j s' => drawn s x y c i j s') _ 8 0 s1 H1)].
    + intros [] s2 (E1 & E2 & E3). split; [done|]. split; [done|]. intros px py Hp. rewrite (E3 px py Hp).
      destruct (decide _), (decide _); (done || exfalso; lia).
    + intros j s2 Hj (E1 & E2 & E3). apply runs_bind, runs_get.
      assert (color_of s2 = color_of s) as -> by (rewrite E1; reflexivity).
      assert (frame s2) as Hs2 by (by apply (frame_fb s)).
      assert (forall px py, on_screen s2 px py <-> on_screen s px py) as Hon by (intros; rewrite E1; reflexivity).
      eapply runs_mono; [|apply (pset32_runs s2 (x + Z.of_nat j) (y + Z.of_nat i) _ Hs2); apply Hon; split; lia].
      intros [] s3 (F1 & F2 & F3). split; [rewrite F1; cbn; rewrite E1; reflexivity|]. split; [congruence|].
      intros px py Hp. rewrite F3 by (by apply Hon). rewrite E3 by done.
      destruct (decide (px = x + Z.of_nat j /\ py = y + Z.of_nat i)) as [[-> ->]|Hne].
      * rewrite decide_True by lia. do 3 f_equal; lia.
      * destruct (decide _), (decide _); (done || exfalso; lia).
Qed.

(** ** Scrolling *)

Lemma scroll_rows_spec bw m n : forall l pixels,
  length pixels = (bw * m)%nat -> (1 <= l <= m)%nat -> (m <= n + l)%nat ->
  scroll_rows n (Z.of_nat l) 1 (Z.of_nat bw) (32 * Z.of_nat m) pixels =
    Some (take (bw * (l - 1)) pixels ++ drop (bw * l) pixels ++ drop (bw * (m - 1)) pixels).
Proof.
  induction n as [|n IH]; intros l pixels Hlen Hl Hn; cbn [scroll_rows].
  - assert (l = m) as -> by lia. rewrite (drop_ge pixels (bw * m)) by lia. cbn [app]. by rewrite take_drop.
  - destruct (Z.ltb_spec (Z.of_nat l * 32) (32 * Z.of_nat m)) as [H|H].
    + rewrite (proj2 (Z.leb_le _ _)), (proj2 (Z.leb_le 0 _)) by nia. cbn [andb].
      replace (Z.to_nat (Z.of_nat bw * (Z.of_nat l - 1))) with (bw * (l - 1))%nat by nia.
      replace (Z.to_nat (Z.of_nat bw * Z.of_nat l)) with (bw * l)%nat by lia. rewrite Nat2Z.id.
      replace (Z.of_nat l + 1) with (Z.of_nat (S l)) by lia.
      set (row := take bw (drop (bw * l) pixels)). assert (length row = bw) as Hrow by (unfold row; rewrite length_take, length_drop; nia).
      set (p1 := write_at (bw * (l - 1)) row pixels).
      assert (bw * (l - 1) + bw = bw * l)%nat as Ebl by nia. assert (bw * l <= length pixels)%nat as Hle by nia.
      rewrite IH by (try lia; unfold p1; rewrite length_write_at; lia).
      pose proof (take_write_at (bw * (l - 1)) row pixels ltac:(lia)) as T. rewrite Hrow, Ebl in T. fold p1 in T.
      replace (S l - 1)%nat with l by lia. rewrite T. unfold p1. rewrite !drop_write_at by nia. rewrite <- app_assoc. do 2 f_equal.
      rewrite app_assoc. f_equal. unfold row. replace (bw * S l)%nat with (bw * l + bw)%nat by lia. rewrite <- drop_drop. by rewrite take_drop.
    + assert (l = m) as -> by lia. rewrite (drop_ge pixels (bw * m)) by lia. cbn [app]. by rewrite take_drop.
Qed.

(** Scrolling by one row of tiles: 32 rows of pixels go, blank ones come. *)
Lemma scroll_runs s : frame s ->
  let bw := Z.to_nat (console_width s * 32) in
  runs (console_scroll32 1) s (fun _ s' => s' = s <| fb := drop bw (fb s) ++ replicate bw (console_color0 s) |>).
Proof.
  intros Hs bw. destruct (sc_sides s Hs) as (k & m & Ew & Eh & Hk & Hm). pose proof (sc_len s Hs) as Hl. rewrite Ew, Eh in Hl.
  unfold console_scroll32. apply runs_bind, runs_get. rewrite (sc_size s Hs).
  assert (Z.of_nat bw = 32 * k * 32) as Hbw by (unfold bw; rewrite Ew; lia). set (mm := Z.to_nat m).
  assert (length (fb s) = bw * mm)%nat as Hlen by nia. fold bw. rewrite Ew, Eh, <- Hbw. clearbody bw.
  replace (32 * m) with (32 * Z.of_nat mm) by lia. pose proof (scroll_rows_spec bw mm (Z.to_nat (32 * Z.of_nat mm)) 1 (fb s) Hlen ltac:(lia) ltac:(lia)) as E.
  change (Z.of_nat 1) with 1 in E. rewrite E. rewrite Nat.sub_diag, Nat.mul_0_r, take_0, Nat.mul_1_r. cbn [app].
  assert (length (drop (bw * (mm - 1)) (fb s)) = bw) as Hlast by (rewrite length_drop; nia).
  rewrite length_app, length_drop, Hlast, (proj2 (Z.leb_le 0 _)), (proj2 (Z.leb_le _ _)) by nia. cbn [andb]. apply runs_modify.
  rewrite Z.mul_1_r, Nat2Z.id. f_equal. unfold write_at. rewrite length_replicate.
  replace (Z.to_nat (32 * k * (32 * Z.of_nat mm) - Z.of_nat bw)) with (length (drop bw (fb s))) by (rewrite length_drop; nia).
  rewrite take_app_length. rewrite (drop_ge (_ ++ _)) by (rewrite length_app, Hlast; lia). by rewrite app_nil_r.
Qed.

Lemma scrolled_length s : frame s -> let bw := Z.to_nat (console_width s * 32) in
  length (drop bw (fb s) ++ replicate bw (console_color0 s)) = length (fb s).
Proof.
  intros Hs bw. destruct (sc_sides s Hs) as (k & m & Ew & Eh & Hk & Hm). pose proof (sc_len s Hs) as Hl. rewrite Ew, Eh in Hl.
  assert (Z.of_nat bw = 32 * k * 32) as Hbw by (unfold bw; rewrite Ew; lia). clearbody bw.
  rewrite length_app, length_drop, length_replicate. assert (32 * k * 32 <= 32 * k * (32 * m)) by nia. lia.
Qed.

Lemma screen_cursor s x y : screen s -> 0 <= x < max_x s -> 0 <= y < max_y s -> screen (s <| cursor_x := x |> <| cursor_y := y |>).
Proof. intros [[] ?] Hx Hy. by constructor; [constructor|..]. Qed.

(** A new line, from any column. *)
Lemma newline_runs s : screen s ->
  forall x, runs console_newline (s <| cursor_x := x |>) (fun _ s' => screen s' /\
    (if cursor_y s + 1 <? max_y s then s' = s <| cursor_x := 0 |> <| cursor_y := cursor_y s + 1 |>
     else let bw := Z.to_nat (console_width s * 32) in
       s' = s <| fb := drop bw (fb s) ++ replicate bw (console_color0 s) |> <| cursor_x := 0 |> <| cursor_y := cursor_y s - 1 |>)).
Proof.
  intros Hs x. destruct Hs as [Hf Ho Ha Hl Hc] eqn:E. clear E. unfold console_newline. apply runs_bind, runs_modify, runs_bind, runs_get.
  cbn [max_y cursor_y set]. cbn. unfold Z.succ. destruct (Z.ltb_spec (cursor_y s + 1) (max_y s)).
  - rewrite (proj2 (Z.leb_gt _ _)) by lia. apply runs_ret. split; [apply screen_cursor; done || lia|]. by destruct s.
  - rewrite (proj2 (Z.leb_le _ _)) by lia. apply runs_bind.
    eapply runs_mono; [|apply (scroll_runs _)]; [|by destruct Hf]. intros [] s' ->. apply runs_modify. cbn.
    pose proof (scrolled_length s Hf) as Hsl. cbn zeta in Hsl. set (bw := Z.to_nat (console_width s * 32)) in *.
    set (px := drop bw (fb s) ++ replicate bw (console_color0 s)) in *.
    assert (screen (s <| fb := px |>)) as Hs' by (by apply (screen_fb s)).
    replace (cursor_y s - 1) with (cursor_y s + 1 - 2) by lia. split; [|by destruct s].
    match goal with |- screen ?t => replace t with (s <| fb := px |> <| cursor_x := 0 |> <| cursor_y := cursor_y s + 1 - 2 |>) end;
      [apply screen_cursor; cbn; done || lia|by destruct s].
Qed.

Lemma putch_runs s c : screen s -> runs (console_putch font c) s (fun _ s' => screen s').
Proof.
  intros Hs. pose proof Hs as [Hf Ho Ha Hl Hc]. unfold console_putch. apply runs_bind, runs_get. destruct (console_fb s =? 0); [by apply runs_ret|].
  destruct (c =? 13).
  { apply runs_modify. replace (s <| cursor_x := 0 |>) with (s <| cursor_x := 0 |> <| cursor_y := cursor_y s |>) by (by destruct s).
    apply screen_cursor; done || lia. }
  assert (forall s0, screen s0 -> forall x, runs console_newline (s0 <| cursor_x := x |>) (fun _ s' => screen s')) as Hnl.
  { intros s0 H0 x. eapply runs_mono; [|apply (newline_runs s0 H0 x)]. by intros [] s' [H _]. }
  destruct (c =? 10).
  { replace s with (s <| cursor_x := cursor_x s |>) at 1 by (by destruct s). by apply Hnl. }
  apply runs_bind. eapply runs_mono; [|apply (draw_char_runs s _ _ c Hf); lia]. intros [] s1 (E1 & E2 & _).
  assert (screen s1) as Hs1 by (by apply (screen_fb s)). apply runs_bind, runs_modify, runs_bind, runs_get.
  change (max_x (set cursor_x Z.succ s1)) with (max_x s1). change (cursor_x (set cursor_x Z.succ s1)) with (Z.succ (cursor_x s1)).
  destruct (Z.leb_spec (max_x s1) (Z.succ (cursor_x s1))).
  - change (runs console_newline (s1 <| cursor_x := Z.succ (cursor_x s1) |>) (fun _ s' => screen s')). by apply Hnl.
  - apply runs_ret. pose proof Hs1 as [_ _ _ _ Hc1].
    replace (set cursor_x Z.succ s1) with (s1 <| cursor_x := Z.succ (cursor_x s1) |> <| cursor_y := cursor_y s1 |>) by (by destruct s1).
    apply screen_cursor; done || lia.
Qed.

(** C35: printing stays on the screen.  From a console in order, printing any
    text returns without a store outside the frame buffer and leaves the
    console in order: the frame buffer keeps its size, the cursor its place in
    the text area. *)
Theorem console_text_safe s buf : screen s -> runs (console_stdout_hook font buf) s (fun _ s' => screen s').
Proof.
  intros Hs. unfold console_stdout_hook. apply runs_bind, runs_get. destruct (nz _); [|by apply runs_ret].
  apply runs_each; [done|]. intros c s' Hs'. by apply putch_runs.
Qed.

(** A character is drawn in its cell and nowhere else.  Printing a
    character that does not end the line sets the 8 by 16 pixels at the cursor
    to the font's pattern in the console's colours, leaves every other pixel
    of the screen alone and moves the cursor one column on. *)
Theorem console_putch_draws s c : screen s -> console_fb s <> 0 -> c <> 10 -> c <> 13 -> cursor_x s + 1 < max_x s ->
  let x := cursor_x s * 8 + offset_x s in let y := cursor_y s * 16 + offset_y s in
  runs (console_putch font c) s (fun _ s' =>
    cursor_x s' = cursor_x s + 1 /\ cursor_y s' = cursor_y s /\
    forall px py, on_screen s px py -> pixel s' px py =
      if decide (x <= px < x + 8 /\ y <= py < y + 16)
      then Some (color_of s (font_pixel font c (px - x) (py - y))) else pixel s px py).
Proof.
  intros Hs Hfb H10 H13 Hend x y. pose proof Hs as [Hf Ho Ha Hl Hc]. unfold console_putch. apply runs_bind, runs_get.
  rewrite !(proj2 (Z.eqb_neq _ _)) by done. apply runs_bind. fold x y.
  eapply runs_mono; [|apply (draw_char_runs s x y c Hf); unfold x, y; lia]. intros [] s1 (E1 & E2 & E3).
  apply runs_bind, runs_modify, runs_bind, runs_get.
  change (max_x (set cursor_x Z.succ s1)) with (max_x s1). change (cursor_x (set cursor_x Z.succ s1)) with (Z.succ (cursor_x s1)).
  assert (max_x s1 = max_x s /\ cursor_x s1 = cursor_x s /\ cursor_y s1 = cursor_y s /\ console_width s1 = console_width s) as (M1 & M2 & M3 & M4)
    by (rewrite E1; done).
  rewrite (proj2 (Z.leb_gt _ _)) by lia. apply runs_ret.
  change (cursor_x (set cursor_x Z.succ s1)) with (Z.succ (cursor_x s1)). change (cursor_y (set cursor_x Z.succ s1)) with (cursor_y s1).
  split; [lia|]. split; [lia|]. intros px py Hp.
  change (pixel (set cursor_x Z.succ s1) px py) with (pixel s1 px py). rewrite (E3 px py Hp).
  destruct (decide _), (decide _); (done || exfalso; lia).
Qed.
End text.

(** ** Scrolling, as seen *)

Lemma pixel_index_down k x y : 0 <= x -> 0 <= y -> pixel_index (32 * k) x (y + 32) = pixel_index (32 * k) x y + 32 * k * 32.
Proof.
  intros Hx Hy. rewrite !pixel_index_tile by lia. replace (y + 32) with (y + 1 * 32) by lia.
  rewrite Z.div_add, Z.mod_add by lia. lia.
Qed.

(** A new line on the last line scrolls.  The picture moves up by 32 rows
    of pixels, the two text lines that frees are blank, and the cursor is at
    the start of the first of them. *)
Theorem console_newline_scrolls s : screen s -> cursor_y s + 1 = max_y s ->
  runs console_newline s (fun _ s' => cursor_x s' = 0 /\ cursor_y s' = max_y s - 2 /\
    forall px py, on_screen s px py -> pixel s' px py =
      if decide (py + 32 < console_height s) then pixel s px (py + 32) else Some (console_color0 s)).
Proof.
  intros Hs Hlast. replace s with (s <| cursor_x := cursor_x s |>) at 1 by (by destruct s).
  eapply runs_mono; [|apply (newline_runs s Hs)]. intros [] s' [_ Hs']. rewrite (proj2 (Z.ltb_ge _ _)) in Hs' by lia. cbn zeta in Hs'.
  destruct (sc_sides s (sc_frame s Hs)) as (k & m & Ew & Eh & Hk & Hm). pose proof (sc_len s (sc_frame s Hs)) as Hl. rewrite Ew, Eh in Hl.
  set (bw := Z.to_nat (console_width s * 32)) in *. assert (Z.of_nat bw = 32 * k * 32) as Hbw by (unfold bw; rewrite Ew; lia).
  assert (cursor_x s' = 0 /\ cursor_y s' = cursor_y s - 1 /\ console_width s' = console_width s /\
    fb s' = drop bw (fb s) ++ replicate bw (console_color0 s)) as (C1 & C2 & C3 & C4) by (rewrite Hs'; done).
  split; [done|]. split; [lia|]. intros px py [Hx Hy]. unfold pixel. rewrite C3, C4, Ew. rewrite Ew in Hx. rewrite Eh in *. clearbody bw.
  destruct (decide (py + 32 < 32 * m)) as [Hd|Hd].
  - pose proof (pixel_bounds k m px (py + 32) Hx ltac:(lia)) as Hb. rewrite pixel_index_down in * by lia.
    pose proof (pixel_bounds k m px py Hx Hy). rewrite lookup_app_l by (rewrite length_drop; lia). rewrite lookup_drop. f_equal. lia.
  - pose proof (pixel_bounds k 1 px (py - 32 * (m - 1)) Hx ltac:(lia)) as Hb.
    assert (pixel_index (32 * k) px py = pixel_index (32 * k) px (py - 32 * (m - 1)) + 32 * k * 32 * (m - 1)) as Ei.
    { set (q := py - 32 * (m - 1)) in *. assert (0 <= q) as Hq by (unfold q; lia).
      assert (py = q + (m - 1) * 32) as Epy by (unfold q; lia). clearbody q. rewrite Epy.
      rewrite !pixel_index_tile by lia. rewrite Z.div_add, Z.mod_add by lia. lia. }
    assert (length (drop bw (fb s)) = Z.to_nat (32 * k * 32 * (m - 1))) as Hdl by (rewrite length_drop; nia).
    rewrite lookup_app_r by (rewrite Hdl; nia). rewrite Hdl. apply lookup_replicate. split; [done|]. nia.
Qed.

(** ** Setting up *)

Lemma round32 w : 0 <= w < 2 ^ 31 -> ((w + 31) .>> 5) .<< 5 = 32 * ((w + 31) / 32).
Proof.
  intros Hw. rewrite Z.shiftr_div_pow2, Z.shiftl_mul_pow2 by lia. change (2 ^ 5) with 32. rewrite u32_small; [lia|].
  Z.to_euclidean_division_equations. lia.
Qed.

(** [console_init] puts the console in order.  For any display of at least
    16 by 64 pixels, with or without overscan, the frame buffer is blank, the
    text area lies inside it, and output is hooked up. *)
Theorem console_init_screen base width height overscan vram s :
  0 <= base -> 16 <= width < 2 ^ 15 -> 64 <= height < 2 ^ 15 ->
  Z.of_nat (length vram) = 32 * ((width + 31) / 32) * (32 * ((height + 31) / 32)) ->
  runs (console_init base width height overscan vram) s (fun _ s' =>
    screen s' /\ console_fb s' <> 0 /\ console_initialized s' = 1 /\ stdout_hook s' = true /\
    fb s' = replicate (length vram) (console_color0 s)).
Proof.
  intros Hb Hw Hh Hv. unfold console_init. apply runs_bind, runs_modify. rewrite !round32 by lia.
  apply runs_bind, runs_modify. apply runs_bind.
  set (W := 32 * ((width + 31) / 32)) in *. set (H := 32 * ((height + 31) / 32)) in *.
  assert (width <= W /\ 0 < W /\ height <= H /\ 0 < H) as (HW1 & HW2 & HH1 & HH2) by (unfold W, H; Z.to_euclidean_division_equations; lia).
  set (ox := if overscan then width / 28 else 0). set (oy := if overscan then height / 28 else 0).
  assert (0 <= ox <= width / 28 /\ 0 <= oy <= height / 28) as [Hox Hoy]
    by (unfold ox, oy; destruct overscan; Z.to_euclidean_division_equations; lia).
  set (s1 := set offset_y _ _). eapply (runs_mono _ _ (fun _ s' => s' = s1 <| offset_x := ox |> <| offset_y := oy |>)).
  2: { unfold ox, oy. destruct overscan; [by apply runs_modify|]. by apply runs_ret. }
  intros [] s2 ->. apply runs_bind, runs_modify. apply runs_bind. unfold console_clrscr. apply runs_bind, runs_get.
  match goal with |- runs _ ?t _ => set (s3 := t) end.
  assert (console_width s3 = W /\ console_height s3 = H /\ fb s3 = vram /\ console_size s3 = W * H /\ offset_x s3 = ox /\ offset_y s3 = oy /\
    max_x s3 = u32 (width - ox * 2) / 8 /\ max_y s3 = u32 (height - oy * 2) / 16 /\ console_color0 s3 = console_color0 s /\
    console_fb s3 = base .| 0x80000000) as (A1 & A2 & A3 & A4 & A5 & A6 & A7 & A8 & A9 & A10) by done.
  rewrite A1, A2, A3, (proj2 (Z.leb_le _ _)) by lia. clearbody s3. clear s1. apply runs_modify, runs_bind, runs_modify, runs_modify.
  rewrite u32_small in A7, A8 by (Z.to_euclidean_division_equations; lia).
  match goal with |- screen ?t /\ _ => assert (fb t = replicate (length vram) (console_color0 s)) as Hfb end.
  { cbn. rewrite A3, A9. rewrite drop_ge by lia. rewrite app_nil_r. f_equal. lia. }
  split; [constructor; [constructor|..]|split; [|done]].
  - exists ((width + 31) / 32), ((height + 31) / 32). split; [exact A1|]. split; [exact A2|]. unfold W, H in *. lia.
  - rewrite Hfb, length_replicate. cbn. by rewrite A1, A2.
  - cbn. by rewrite A4, A1, A2.
  - cbn. lia.
  - cbn. rewrite A5, A6, A7, A8, A1, A2. Z.to_euclidean_division_equations. lia.
  - cbn. rewrite A8. Z.to_euclidean_division_equations. lia.
  - cbn. rewrite A7, A8. Z.to_euclidean_division_equations. lia.
  - cbn. rewrite A10. intros E. by apply Z.lor_eq_0_iff in E as [_ E].
Qed.

(** [console_set_colors] sets no colour: its arguments are compared as
    unsigned numbers with [-1], the largest of them. *)
Theorem console_set_colors_ignored s background foreground :
  is_word background -> is_word foreground -> console_set_colors background foreground s = Ok tt s.
Proof.
  intros H1 H2. unfold is_word in *. unfold console_set_colors. change (u32 (-1)) with (2 ^ 32 - 1).
  by rewrite !(proj2 (Z.ltb_ge _ _)) by lia.
Qed.

(** ** A small display *)

Definition con0 : con := mkCon 0 0 0 0 0 0xFFA0A000 0 [] 0 0 0 0 0 0 false.
Definition demo_con : con := mkCon 1 64 64 4096 0 1 0x9E000000 (replicate 4096 0) 0 3 8 4 0 0 true.
Definition demo_font (i : Z) : Z := 0x80.

Lemma demo_con_screen : screen demo_con.
Proof. constructor; [constructor|..]; [exists 2, 2; done|reflexivity|reflexivity|cbn; lia..]. Qed.

Lemma console_text_safe_demo : runs (console_stdout_hook demo_font [72; 105; 10; 10; 13; 33]) demo_con (fun _ s' => screen s').
Proof. apply console_text_safe. apply demo_con_screen. Defined.

Lemma console_putch_draws_demo : runs (console_putch demo_font 65) demo_con (fun _ s' => cursor_x s' = 1 /\ pixel s' 0 48 = Some 1 /\ pixel s' 1 48 = Some 0).
Proof.
  eapply runs_mono; [|apply (console_putch_draws demo_font demo_con 65 demo_con_screen); cbn; lia].
  intros [] s' (H1 & _ & H3). split; [exact H1|]. split.
  - rewrite H3 by (split; cbn; lia). reflexivity.
  - rewrite H3 by (split; cbn; lia). reflexivity.
Defined.

Lemma console_newline_scrolls_demo : runs console_newline demo_con (fun _ s' => cursor_y s' = 2 /\ pixel s' 5 63 = Some 0).
Proof.
  eapply runs_mono; [|apply (console_newline_scrolls demo_con demo_con_screen); reflexivity].
  intros [] s' (_ & H2 & H3). split; [exact H2|]. rewrite H3 by (split; cbn; lia). reflexivity.
Defined.

Lemma console_init_screen_demo : runs (console_init 0x1E000000 64 64 true (replicate 4096 7)) con0 (fun _ s' => screen s').
Proof.
  eapply runs_mono; [|apply (console_init_screen 0x1E000000 64 64 true (replicate 4096 7) con0); [lia|lia|lia|reflexivity]].
  intros [] s' [H _]. exact H.
Defined.

Lemma console_set_colors_ignored_demo : console_set_colors 0xFF0000FF 0xFFFFFFFF con0 = Ok tt con0.
Proof. apply console_set_colors_ignored; split; (lia || reflexivity). Defined.
