(* ===== verification/GdbHex.v ===== *)
(** * Debugger stub: numbers, packets [drivers/threads/gdbroutines.c]

    Characters are bytes.  A pointer into a string is the rest of the string
    from there on, without the terminating zero, so that reading through it is
    [peek]; a routine that writes characters and returns the pointer behind
    them is the list of the characters it writes.  The serial line is the
    characters still to arrive and those sent so far; waiting for a character
    that never arrives is [Blocked]. *)
From S2P Require Import Prelude Bits.
From Stdlib Require Import Ascii String.
Open Scope Z_scope.
Open Scope xenon_scope.

(** ** Characters *)

Definition ch (a : ascii) : Z := Z.of_N (N_of_ascii a).
Arguments ch a%_char_scope.
Fixpoint str (s : string) : list Z :=
  match s with
  | EmptyString => []
  | String a s => ch a :: str s
  end.
Arguments str s%_string_scope.

(** [*p] *)
Definition peek (s : list Z) : Z := hd 0 s.

Definition hexchars : list Z := str "0123456789abcdef".
(** [hexchars[n]], with the terminating zero at 16. *)
Definition hexchar (n : Z) : Z := nth (Z.to_nat n) hexchars 0.

Definition hex (c : Z) : Z :=
  if (ch "a" <=? c) && (c <=? ch "f") then c - ch "a" + 10 else
  if (ch "0" <=? c) && (c <=? ch "9") then c - ch "0" else
  if (ch "A" <=? c) && (c <=? ch "F") then c - ch "A" + 10 else -1.

(** [(val << 4) | nibble] on an [int]. *)
Definition push_nibble (val nibble : Z) : Z := s32 (Z.lor (Z.shiftl val 4) nibble).

(** Returns the count, [*ival] and [*ptr]. *)
Fixpoint hexToInt_loop (s : list Z) (val cnt : Z) : Z * Z * list Z :=
  match s with
  | [] => (cnt, val, [])
  | c :: s' =>
      if hex c <? 0 then (cnt, val, s)
      else hexToInt_loop s' (push_nibble val (hex c)) (cnt + 1)
  end.
Definition hexToInt (ptr : list Z) : Z * Z * list Z := hexToInt_loop ptr 0 0.

Definition ptr_seems_valid (p : Z) : bool := (0x80000000 <=? p) && (p <? 0xa0000000).

Definition mem2hstr (mem : list Z) : list Z :=
  mem ≫= (fun c => [hexchar (Z.shiftr c 4); hexchar (Z.land c 0x0f)]).

(** ** Numbers of fixed and of variable width *)

(** [None] for a result of 0. *)
Definition hstr2nibble (buf : list Z) : option Z :=
  let c := peek buf in
  if (ch "0" <=? c) && (c <=? ch "9") then Some (c - ch "0") else
  if (ch "a" <=? c) && (c <=? ch "f") then Some (c - ch "a" + 10) else
  if (ch "A" <=? c) && (c <=? ch "F") then Some (c - ch "A" + 10) else None.

Definition hstr2byte (buf : list Z) : option Z :=
  match hstr2nibble buf with
  | None => None
  | Some hnib =>
      match hstr2nibble (tl buf) with
      | None => None
      | Some lnib => Some (Z.lor (Z.shiftl hnib 4) lnib)
      end
  end.

(** Counting the zeros at the start, at most [n] of them: the final [i] and [buf]. *)
Fixpoint skip_zeros (n : nat) (buf : list Z) : nat * list Z :=
  match n with
  | O => (O, buf)
  | S n' =>
      if negb (peek buf =? ch "0") then (O, buf)
      else let (i, buf') := skip_zeros n' (tl buf) in (S i, buf')
  end.

(** The second loop of [vhstr2int] and [vhstr2thread]: [lim] digits to go,
    [refuse] whether a string without a digit here is refused. *)
Fixpoint digits_loop (lim : nat) (refuse : bool) (val : Z) (buf : list Z) : option (Z * list Z) :=
  match lim with
  | O => match hstr2nibble buf with Some _ => None | None => Some (val, buf) end
  | S lim' =>
      match hstr2nibble buf with
      | None => if refuse then None else Some (val, buf)
      | Some nibble => digits_loop lim' false (push_nibble val nibble) (tl buf)
      end
  end.

Definition vhstr2int (buf : list Z) : option (Z * list Z) :=
  let (i, buf) := skip_zeros 8 buf in
  let found0 := negb (Nat.eqb i 0) in
  digits_loop (8 - i) (negb found0) 0 buf.

(** [for(i=0;i<n;i++,buf++)] over exactly [n] digits. *)
Fixpoint fixed_loop (n : nat) (val : Z) (buf : list Z) : option (Z * list Z) :=
  match n with
  | O => Some (val, buf)
  | S n' =>
      match hstr2nibble buf with
      | None => None
      | Some nibble => fixed_loop n' (push_nibble val nibble) (tl buf)
      end
  end.

Definition fhstr2int (buf : list Z) : option (Z * list Z) := fixed_loop 8 0 buf.

(** [(val>>shift)&0x0f] for [shift] = 28, 24, ..., 0. *)
Definition nibbles (val : Z) : list Z :=
  (fun shift => Z.land (Z.shiftr val shift) 0x0f) <$> [28; 24; 20; 16; 12; 8; 4; 0].

Definition int2fhstr (val : Z) : list Z := hexchar <$> nibbles val.

(** The nibbles from the first that is not zero on. *)
Fixpoint drop_zeros (l : list Z) : list Z :=
  match l with
  | [] => []
  | x :: l' => if nz x then l else drop_zeros l'
  end.

Definition int2vhstr (val : Z) : list Z :=
  match drop_zeros (nibbles val) with
  | [] => [ch "0"]
  | l => hexchar <$> l
  end.

Definition thread2fhstr (thread : Z) : list Z := replicate 8 (ch "0") ++ (hexchar <$> nibbles thread).

Definition thread2vhstr (thread : Z) : list Z :=
  match drop_zeros (nibbles thread) with
  | [] => [ch "0"]
  | l => hexchar <$> l
  end.

(** [n] zeros, or [NULL]. *)
Fixpoint need_zeros (n : nat) (buf : list Z) : option (list Z) :=
  match n with
  | O => Some buf
  | S n' => if negb (peek buf =? ch "0") then None else need_zeros n' (tl buf)
  end.

Definition fhstr2thread (buf : list Z) : option (Z * list Z) :=
  match need_zeros 8 buf with
  | None => None
  | Some buf => fixed_loop 8 0 buf
  end.

Definition vhstr2thread (buf : list Z) : option (Z * list Z) :=
  let (i, buf) := skip_zeros 16 buf in
  let found0 := negb (Nat.eqb i 0) in
  digits_loop (16 - i) found0 0 buf.

(** ** Queries *)

(** [mask] and [thread] of a [qP] packet. *)
Definition parseqp (in_ : list Z) : option (Z * Z) :=
  match fhstr2int (drop 2 in_) with
  | None => None
  | Some (mask, ptr) =>
      match fhstr2thread ptr with
      | None => None
      | Some (thread, _) => Some (mask, thread)
      end
  end.

(** The answer to it.  [name] is the thread's name (empty when it had none) and
    [raw] the memory from the field [Name] of the thread object on, which the
    code copies in place of the name. *)
Definition packqq (mask thread : Z) (name raw : list Z) : list Z :=
  let len := Z.of_nat (List.length name) in
  str "qQ" ++ int2fhstr mask ++ thread2fhstr thread ++
  (if nz (Z.land mask 0x01) then str "00000001" ++ str "10" ++ thread2fhstr thread else []) ++
  (if nz (Z.land mask 0x02) then str "00000002" ++ str "011" else []) ++
  (if nz (Z.land mask 0x04) then str "00000004" ++ [hexchar 0; hexchar 1] ++ [0] else []) ++
  (if nz (Z.land mask 0x08) then
     str "00000008" ++ [hexchar (Z.land (Z.shiftr len 4) 0x0f); hexchar (Z.land len 0x0f)] ++
     take (List.length name) raw
   else []) ++
  (if nz (Z.land mask 0x10) then str "00000010" ++ [hexchar 0; hexchar 1] ++ [0] else []).

(** [type], [addr] and [len] of a [Z] or [z] packet. *)
Definition parsezbreak (in_ : list Z) : option (Z * Z * Z) :=
  let in_ := tl in_ in
  match hstr2nibble in_ with
  | None => None
  | Some ttmp =>
      if negb (peek (tl in_) =? ch ",") then None else
      match vhstr2int (drop 2 in_) with
      | None => None
      | Some (atmp, in_) =>
          if negb (peek in_ =? ch ",") then None else
          match vhstr2int (tl in_) with
          | None => None
          | Some (ltmp, _) => if ltmp <? 1 then None else Some (ttmp, u32 atmp, ltmp)
          end
      end
  end.

(** ** Packets on the serial line *)

Definition BUFMAX : Z := 2048.

Record uart := mkUart { rx : list Z; tx : list Z }.
#[global] Instance eta_uart : Eta uart := fun r => mkUart (rx r) (tx r).
Definition MU (A : Type) : Type := M uart A.

Definition getdbgchar : MU Z := fun s =>
  match rx s with
  | [] => Blocked
  | c :: r => Ok c (s <| rx := r |>)
  end.
Definition putdbgstr (l : list Z) : MU unit := modify (fun s => s <| tx ::= fun t => t ++ l |>).
Definition putdbgchar (c : Z) : MU unit := putdbgstr [c].

(** The frame the code builds in [outbuf]. *)
Definition chksum_of (l : list Z) : Z := u8 (fold_left Z.add l 0).
Definition frame (buffer : list Z) : list Z :=
  let chksum := chksum_of buffer in
  ch "$" :: buffer ++ [ch "#"; hexchar (Z.shiftr chksum 4); hexchar (Z.land chksum 0x0f)].

(** A packet that does not fit [outbuf] with its frame is written past its end. *)
Definition uart_putpacket (fuel : nat) (buffer : list Z) : MU unit :=
  if BUFMAX <? Z.of_nat (List.length buffer) + 5 then fault else
  do_while fuel (fun _ =>
    putdbgstr (frame buffer) ;;
    recv <- getdbgchar ;;
    ret (tt, negb (Z.land recv 0x7f =? ch "+"))) tt.

(** [while((ch=(getdbgchar()&0x7f))!='$');] *)
Definition wait_start (fuel : nat) : MU unit :=
  do_while fuel (fun _ => c <- getdbgchar ;; ret (tt, negb (Z.land c 0x7f =? ch "$"))) tt.

(** The loop over the body of a packet, [n] places left in the buffer; returns
    [cnt], [chksum], the buffer, and whether the end mark was seen. *)
Fixpoint read_body (n : nat) (cnt : nat) (chksum : Z) (buffer : list Z) : MU (nat * Z * list Z * bool) :=
  match n with
  | O => ret (cnt, chksum, buffer, false)
  | S n' =>
      c <- getdbgchar ;;
      let c := Z.land c 0x7f in
      if c =? ch "#" then ret (cnt, chksum, buffer, true)
      else read_body n' (S cnt) (u8 (chksum + c)) (<[cnt := c]> buffer)
  end.

(** [strlen] of a buffer. *)
Fixpoint strlen (l : list Z) : nat :=
  match l with
  | [] => O
  | c :: l' => if c =? 0 then O else S (strlen l')
  end.

(** [for(i=3;i<=cnt;i++) buffer[i-3] = buffer[i];] *)
Definition shift_down (cnt : nat) (buffer : list Z) : list Z :=
  fold_left (fun b i => <[(i - 3)%nat := nth i b 0]> b) (seq 3 (cnt - 2)) buffer.

(** A round of the outer loop: the buffer, and whether to go on. *)
Definition getpacket_round (fuel : nat) (buffer : list Z) : MU (list Z * bool) :=
  wait_start fuel ;;
  let* (cnt, chksum, buffer, hash) := read_body (Z.to_nat BUFMAX) 0 0 buffer in
  if negb hash then ret (buffer, negb (chksum =? u8 (-1))) else
  let buffer := <[cnt := 0]> buffer in
  h <- getdbgchar ;;
  let xmitsum := u8 (Z.shiftl (hex (Z.land h 0x7f)) 4) in
  l <- getdbgchar ;;
  let xmitsum := u8 (Z.lor xmitsum (hex (Z.land l 0x7f))) in
  buffer <- (if negb (chksum =? xmitsum) then putdbgchar (ch "-") ;; ret buffer else
    putdbgchar (ch "+") ;;
    if nth 2 buffer 0 =? ch ":" then
      putdbgchar (nth 0 buffer 0) ;;
      putdbgchar (nth 1 buffer 0) ;;
      ret (shift_down (strlen buffer) buffer)
    else ret buffer) ;;
  ret (buffer, negb (chksum =? xmitsum)).

Definition uart_getpacket (fuel : nat) (buffer : list Z) : MU (list Z) :=
  do_while fuel (getpacket_round fuel) buffer.
