(* ===== verification/GdbFacts.v ===== *)
(** * Debugger stub: numbers and packets arrive as they were sent *)
From S2P Require Import Prelude Bits GdbHex.
From Stdlib Require Import Ascii String.
Open Scope Z_scope.
Open Scope list_scope.
Open Scope xenon_scope.

(** ** Digits *)

Definition is_nibble (n : Z) : Prop := 0 <= n < 16.

(** The sixteen cases of a nibble. *)
Lemma nibble_cases (P : Z -> Prop) : Forall P [0;1;2;3;4;5;6;7;8;9;10;11;12;13;14;15] -> forall n, is_nibble n -> P n.
Proof.
  intros H n Hn. rewrite Forall_forall in H. apply H. assert (n = Z.of_nat (Z.to_nat n)) as -> by (unfold is_nibble in *; lia).
  assert (Z.to_nat n < 16)%nat as Hlt by (unfold is_nibble in *; lia). revert Hlt. generalize (Z.to_nat n). intros m Hm.
  do 16 (destruct m as [|m]; [apply list_elem_of_In; cbn; tauto|]). lia.
Qed.

Ltac nibble_wise :=
  match goal with |- forall n, is_nibble n -> @?P n => apply (nibble_cases P); repeat (apply List.Forall_cons; [reflexivity|]); apply List.Forall_nil end.

Lemma hstr2nibble_hexchar n rest : is_nibble n -> hstr2nibble (hexchar n :: rest) = Some n.
Proof. revert n. nibble_wise. Qed.

Lemma hex_hexchar n : is_nibble n -> hex (Z.land (hexchar n) 0x7f) = n.
Proof. revert n. nibble_wise. Qed.

Lemma hexchar_zero n : is_nibble n -> (hexchar n =? ch "0") = (n =? 0).
Proof. revert n. nibble_wise. Qed.

Lemma high_nibble c : is_byte c -> is_nibble (Z.shiftr c 4).
Proof. unfold is_byte, is_nibble. intros H. rewrite Z.shiftr_div_pow2 by lia. change (2 ^ 4) with 16. split; [apply Z.div_pos; lia|apply Z.div_lt_upper_bound; lia]. Qed.

Lemma land15 c : Z.land c 0x0f = c mod 16.
Proof. change 0x0f with (Z.ones 4). by apply Z.land_ones. Qed.

Lemma low_nibble c : is_nibble (Z.land c 0x0f).
Proof. rewrite land15. apply Z.mod_pos_bound. lia. Qed.

Lemma join_nibbles c : Z.lor (Z.shiftl (Z.shiftr c 4) 4) (Z.land c 0x0f) = c.
Proof.
  bitwise n Hn. rewrite Z.lor_spec, Z.land_spec. destruct (Z.ltb_spec n 4).
  - rewrite Z.shiftl_spec_low by done. cbn. change 0x0f with (Z.ones 4). rewrite Z.ones_spec_low by lia. apply andb_true_r.
  - rewrite Z.shiftl_spec, Z.shiftr_spec by lia. rewrite (high_bits 0x0f 4 n) by lia. rewrite andb_false_r, orb_false_r. f_equal. lia.
Qed.

Lemma nibbles_ok val : Forall is_nibble (nibbles val).
Proof. repeat constructor; apply low_nibble. Qed.

(** ** The value of digits *)

Definition value (l : list Z) : Z := fold_left push_nibble l 0.

Lemma push_nibble_add val n : is_nibble n -> push_nibble val n = s32 (val * 16 + n).
Proof.
  intros Hn. unfold push_nibble. f_equal. rewrite Z.shiftl_mul_pow2 by lia. change (2 ^ 4) with 16.
  symmetry. apply Z.add_nocarry_lor. bitwise k Hk. rewrite Z.land_spec, Z.bits_0. change 16 with (2 ^ 4).
  destruct (Z.ltb_spec k 4); [by rewrite Z.mul_pow2_bits_low by lia|].
  rewrite (high_bits n 4 k); [apply andb_false_r|done|lia].
Qed.

(** One more digit of [u]. *)
Lemma push_digit u s t : 0 <= s -> t = s + 4 -> push_nibble (s32 (Z.shiftr u t)) (Z.land (Z.shiftr u s) 0x0f) = s32 (Z.shiftr u s).
Proof.
  intros Hs ->. rewrite push_nibble_add by apply low_nibble. apply s32_congr.
  rewrite <- Zplus_mod_idemp_l, <- Zmult_mod_idemp_l, s32_mod, Zmult_mod_idemp_l, Zplus_mod_idemp_l. f_equal.
  rewrite land15, !Z.shiftr_div_pow2 by lia. rewrite Z.pow_add_r, <- Z.div_div by lia. change (2 ^ 4) with 16.
  pose proof (Z.div_mod (u / 2 ^ s) 16 ltac:(lia)). lia.
Qed.

Lemma nibbles_u32 val : nibbles val = nibbles (u32 val).
Proof.
  unfold nibbles. apply list_fmap_ext. intros i s Hs.
  assert (0 <= s <= 28) as Hb.
  { apply list_elem_of_lookup_2 in Hs. set_unfold in Hs. lia. }
  bitwise k Hk. rewrite !Z.land_spec, !Z.shiftr_spec by done. destruct (Z.ltb_spec k 4).
  - by rewrite u32_bits, (proj2 (Z.ltb_lt (k + s) 32)) by lia.
  - rewrite (high_bits 0x0f 4 k) by lia. by rewrite !andb_false_r.
Qed.

Lemma value_nibbles val : - 2 ^ 31 <= val < 2 ^ 31 -> value (nibbles val) = val.
Proof.
  intros Hv. rewrite nibbles_u32. set (u := u32 val).
  assert (s32 (Z.shiftr u 32) = 0) as H0.
  { rewrite Z.shiftr_div_pow2 by lia. rewrite Z.div_small by apply u32_range. done. }
  unfold value, nibbles. cbn [fmap list_fmap fold_left]. rewrite <- H0 at 1.
  rewrite (push_digit u 28 32), (push_digit u 24 28), (push_digit u 20 24), (push_digit u 16 20), (push_digit u 12 16),
    (push_digit u 8 12), (push_digit u 4 8), (push_digit u 0 4) by lia.
  rewrite Z.shiftr_0_r. unfold u. rewrite <- (s32_value val Hv) at 2. apply s32_congr. unfold u32. by apply Z.mod_mod.
Qed.

Lemma value_drop_zeros l : value (drop_zeros l) = value l.
Proof.
  unfold value. induction l as [|x l IH]; [done|]. cbn [drop_zeros]. destruct (nz x) eqn:E; [done|].
  rewrite IH. cbn [fold_left]. unfold nz in E. apply negb_false_iff, Z.eqb_eq in E as ->. done.
Qed.

Lemma drop_zeros_spec l : Forall is_nibble l ->
  Forall is_nibble (drop_zeros l) /\ (List.length (drop_zeros l) <= List.length l)%nat /\
  (forall x l', drop_zeros l = x :: l' -> x <> 0).
Proof.
  induction 1 as [|x l Hx Hl (H1 & H2 & H3)]; cbn [drop_zeros]; [repeat split; [done|done|naive_solver]|].
  destruct (nz x) eqn:E; [|cbn; repeat split; [done|lia|done]].
  split_and!; [by constructor|done|]. intros y l' [= <- _] ->. done.
Qed.

(** ** Reading digits *)

(** Nothing a number could go on with. *)
Definition ends (rest : list Z) : Prop := hstr2nibble rest = None.

Lemma ends_not_zero rest : ends rest -> (peek rest =? ch "0") = false.
Proof. unfold ends, hstr2nibble. intros H. apply Z.eqb_neq. intros E. by rewrite E in H. Qed.

Lemma fixed_loop_digits l : forall acc rest, Forall is_nibble l ->
  fixed_loop (List.length l) acc ((hexchar <$> l) ++ rest) = Some (fold_left push_nibble l acc, rest).
Proof.
  induction l as [|x l IH]; intros acc rest Hl; [done|]. inversion_clear Hl as [|? ? Hx Hl'].
  cbn [List.length fmap list_fmap app fixed_loop]. rewrite hstr2nibble_hexchar by done. by apply IH.
Qed.

Lemma digits_loop_digits l : forall lim refuse acc rest, Forall is_nibble l -> ends rest ->
  (List.length l <= lim)%nat -> (l = [] -> refuse = false) ->
  digits_loop lim refuse acc ((hexchar <$> l) ++ rest) = Some (fold_left push_nibble l acc, rest).
Proof.
  induction l as [|x l IH]; intros lim refuse acc rest Hl Hr Hlen Href.
  - cbn [fmap list_fmap app]. destruct lim; cbn [digits_loop]; rewrite Hr; [done|]. by rewrite Href.
  - inversion_clear Hl as [|? ? Hx Hl']. destruct lim as [|lim]; [cbn in Hlen; lia|].
    cbn [fmap list_fmap app digits_loop]. rewrite hstr2nibble_hexchar by done. apply IH; try done. cbn in Hlen. lia.
Qed.

Lemma skip_zeros_none n rest : (peek rest =? ch "0") = false -> skip_zeros n rest = (O, rest).
Proof. intros H. destruct n; cbn [skip_zeros]; [done|]. by rewrite H. Qed.

(** A number without leading zeros, or the single digit zero. *)
Lemma vhstr_digits (n : nat) val rest : (8 <= n)%nat -> - 2 ^ 31 <= val < 2 ^ 31 -> ends rest ->
  (val <> 0 -> skip_zeros n (int2vhstr val ++ rest) = (O, int2vhstr val ++ rest) /\
     forall refuse, digits_loop n refuse 0 (int2vhstr val ++ rest) = Some (val, rest)) /\
  (val = 0 -> int2vhstr val = [ch "0"]).
Proof.
  intros Hn Hv Hr. unfold int2vhstr. destruct (drop_zeros_spec _ (nibbles_ok val)) as (H1 & H2 & H3).
  pose proof (value_drop_zeros (nibbles val)) as Hval. rewrite value_nibbles in Hval by done. split.
  - intros Hne. destruct (drop_zeros (nibbles val)) as [|x l] eqn:E; [cbn in Hval; lia|].
    split.
    + apply skip_zeros_none. cbn [fmap list_fmap app peek hd]. inversion_clear H1.
      rewrite hexchar_zero by done. apply Z.eqb_neq. by eapply H3.
    + intros refuse. rewrite digits_loop_digits; [|done|done|cbn in H2 |- *; lia|done]. do 2 f_equal. exact Hval.
  - intros ->. done.
Qed.

Lemma skip_one_zero n rest : ends rest -> skip_zeros (S n) (ch "0" :: rest) = (1%nat, rest).
Proof. intros Hr. cbn [skip_zeros peek hd tl]. rewrite Z.eqb_refl. cbn [negb]. by rewrite (skip_zeros_none n rest (ends_not_zero _ Hr)). Qed.

Lemma need_zeros_ok n : forall rest, need_zeros n (replicate n (ch "0") ++ rest) = Some rest.
Proof. induction n as [|n IH]; intros rest; [done|]. cbn [replicate app need_zeros peek hd tl]. rewrite Z.eqb_refl. apply IH. Qed.

Lemma fixed_digits n l rest : Forall is_nibble l -> List.length l = n ->
  fixed_loop n 0 ((hexchar <$> l) ++ rest) = Some (value l, rest).
Proof. intros Hl <-. by apply fixed_loop_digits. Qed.

Lemma int2fhstr_nibbles val : int2fhstr val = hexchar <$> nibbles val.
Proof. done. Qed.

Lemma nibbles_length val : List.length (nibbles val) = 8%nat.
Proof. done. Qed.

Lemma eight_digits val rest : - 2 ^ 31 <= val < 2 ^ 31 -> fixed_loop 8 0 (int2fhstr val ++ rest) = Some (val, rest).
Proof.
  intros Hv. rewrite int2fhstr_nibbles, fixed_digits by (apply nibbles_ok || apply nibbles_length). by rewrite value_nibbles.
Qed.

Lemma digits_loop_end n refuse rest : ends rest -> digits_loop n refuse 0 rest = if refuse then (if decide (n = O) then Some (0, rest) else None) else Some (0, rest).
Proof. intros Hr. destruct n; cbn [digits_loop]; rewrite Hr; by destruct refuse. Qed.

Lemma vhstr2int_int2vhstr val rest : - 2 ^ 31 <= val < 2 ^ 31 -> ends rest -> vhstr2int (int2vhstr val ++ rest) = Some (val, rest).
Proof.
  intros Hv Hr. destruct (vhstr_digits 8 val rest ltac:(lia) Hv Hr) as [Hne Hz]. unfold vhstr2int.
  destruct (decide (val = 0)) as [->|H].
  - rewrite (Hz eq_refl). cbn [app]. rewrite skip_one_zero by done. by rewrite digits_loop_end.
  - destruct (Hne H) as [-> Hd]. apply Hd.
Qed.

Lemma vhstr2thread_thread2vhstr val rest : - 2 ^ 31 <= val < 2 ^ 31 -> ends rest ->
  vhstr2thread (thread2vhstr val ++ rest) = if val =? 0 then None else Some (val, rest).
Proof.
  intros Hv Hr. assert (thread2vhstr val = int2vhstr val) as -> by done.
  destruct (vhstr_digits 16 val rest ltac:(lia) Hv Hr) as [Hne Hz]. unfold vhstr2thread.
  destruct (Z.eqb_spec val 0) as [->|H].
  - rewrite (Hz eq_refl). cbn [app]. rewrite skip_one_zero by done. by rewrite digits_loop_end.
  - destruct (Hne H) as [-> Hd]. apply Hd.
Qed.

Lemma thread2fhstr_digits val : thread2fhstr val = replicate 8 (ch "0") ++ int2fhstr val.
Proof. done. Qed.

Lemma fhstr2thread_thread2fhstr val rest : - 2 ^ 31 <= val < 2 ^ 31 -> fhstr2thread (thread2fhstr val ++ rest) = Some (val, rest).
Proof. intros Hv. rewrite thread2fhstr_digits, <- app_assoc. unfold fhstr2thread. rewrite need_zeros_ok. by apply eight_digits. Qed.

(** Numbers survive formatting and parsing.  Every [int] written with
    eight digits, or without leading zeros and followed by something that is no
    digit, is read back, and reading stops behind it; so is every thread
    number in the long format.  In the short format the thread numbers come
    back too, but for the number 0, which the reader refuses. *)
Theorem gdb_numbers_roundtrip val rest : - 2 ^ 31 <= val < 2 ^ 31 -> ends rest ->
  fhstr2int (int2fhstr val ++ rest) = Some (val, rest) /\
  fhstr2thread (thread2fhstr val ++ rest) = Some (val, rest) /\
  vhstr2int (int2vhstr val ++ rest) = Some (val, rest) /\
  vhstr2thread (thread2vhstr val ++ rest) = (if val =? 0 then None else Some (val, rest)).
Proof.
  intros Hv Hr. split_and!.
  - by apply eight_digits.
  - by apply fhstr2thread_thread2fhstr.
  - by apply vhstr2int_int2vhstr.
  - by apply vhstr2thread_thread2vhstr.
Qed.

Lemma gdb_numbers_roundtrip_demo :
  vhstr2int (int2vhstr (-0x7ffeff00) ++ str ",4") = Some (-0x7ffeff00, str ",4") /\ vhstr2thread (thread2vhstr 0 ++ str ",4") = None.
Proof.
  split.
  - apply (gdb_numbers_roundtrip (-0x7ffeff00) (str ",4")); [lia|reflexivity].
  - apply (gdb_numbers_roundtrip 0 (str ",4")); [lia|reflexivity].
Defined.

(** ** Memory and breakpoints *)

Lemma mem2hstr_cons x mem : mem2hstr (x :: mem) = hexchar (Z.shiftr x 4) :: hexchar (Z.land x 0x0f) :: mem2hstr mem.
Proof. done. Qed.

Lemma mem2hstr_bytes mem : Forall is_byte mem -> forall k c rest, mem !! k = Some c ->
  hstr2byte (drop (2 * k) (mem2hstr mem ++ rest)) = Some c.
Proof.
  induction 1 as [|x mem Hx _ IH]; intros k c rest Hk; [done|]. destruct k as [|k].
  - injection Hk as <-. rewrite mem2hstr_cons, Nat.mul_0_r, drop_0. cbn [app]. unfold hstr2byte. cbn [tl].
    rewrite hstr2nibble_hexchar by (by apply high_nibble). rewrite hstr2nibble_hexchar by apply low_nibble.
    f_equal. apply join_nibbles.
  - replace (2 * S k)%nat with (S (S (2 * k))) by lia. rewrite mem2hstr_cons. cbn [app drop]. by apply IH.
Qed.

Lemma mem2hstr_length mem : List.length (mem2hstr mem) = (2 * List.length mem)%nat.
Proof. induction mem as [|x mem IH]; [done|]. rewrite mem2hstr_cons. cbn [List.length]. rewrite IH. lia. Qed.

Lemma tl_cons (c : Z) l : tl (c :: l) = l.
Proof. done. Qed.

Lemma peek_cons c l : peek (c :: l) = c.
Proof. done. Qed.

(** The packet that sets or removes a breakpoint. *)
Definition zpacket (cmd type addr len : Z) : list Z :=
  cmd :: hexchar type :: ch "," :: int2vhstr addr ++ ch "," :: int2vhstr len.

Lemma parsezbreak_zpacket cmd type addr len rest : is_nibble type -> - 2 ^ 31 <= addr < 2 ^ 31 -> 1 <= len < 2 ^ 31 -> ends rest ->
  parsezbreak (zpacket cmd type addr len ++ rest) = Some (type, u32 addr, len).
Proof.
  intros Ht Ha Hl Hr. unfold parsezbreak, zpacket. rewrite <- !app_comm_cons, <- app_assoc, <- app_comm_cons, !tl_cons. cbv zeta.
  rewrite hstr2nibble_hexchar by done. rewrite peek_cons, Z.eqb_refl. cbv iota beta delta [negb]. rewrite !skipn_cons, drop_0.
  rewrite vhstr2int_int2vhstr by done. rewrite peek_cons, Z.eqb_refl, tl_cons. cbv iota beta delta [negb].
  rewrite vhstr2int_int2vhstr by (done || lia). by rewrite (proj2 (Z.ltb_ge len 1)) by lia.
Qed.

(** ** Numbers in commands *)

Lemma hex_hexchar_plain n : is_nibble n -> hex (hexchar n) = n.
Proof. revert n. nibble_wise. Qed.

Lemma ends_hex c rest : ends (c :: rest) -> (hex c <? 0) = true.
Proof.
  unfold ends, hstr2nibble, hex. cbn [peek hd].
  destruct ((ch "0" <=? c) && (c <=? ch "9")); [done|]. destruct ((ch "a" <=? c) && (c <=? ch "f")); [done|].
  by destruct ((ch "A" <=? c) && (c <=? ch "F")).
Qed.

Lemma hexToInt_digits l : forall val cnt rest, Forall is_nibble l -> ends rest ->
  hexToInt_loop ((hexchar <$> l) ++ rest) val cnt = (cnt + Z.of_nat (List.length l), fold_left push_nibble l val, rest).
Proof.
  induction l as [|x l IH]; intros val cnt rest Hl Hr.
  - cbn [fmap list_fmap app List.length fold_left]. rewrite Z.add_0_r. destruct rest as [|c rest]; [done|]. cbn [hexToInt_loop]. by rewrite (ends_hex _ _ Hr).
  - inversion_clear Hl as [|? ? Hx Hl']. cbn [fmap list_fmap app hexToInt_loop]. rewrite hex_hexchar_plain by done.
    rewrite (proj2 (Z.ltb_ge x 0)) by (unfold is_nibble in Hx; lia). setoid_rewrite IH; [|done|done]. cbn [List.length fold_left]. do 2 f_equal. lia.
Qed.

Lemma hexToInt_int2vhstr val rest : - 2 ^ 31 <= val < 2 ^ 31 -> ends rest ->
  exists cnt, hexToInt (int2vhstr val ++ rest) = (cnt, val, rest) /\ 0 < cnt.
Proof.
  intros Hv Hr. unfold hexToInt, int2vhstr. destruct (drop_zeros_spec _ (nibbles_ok val)) as (H1 & _ & _).
  pose proof (value_drop_zeros (nibbles val)) as Hval. rewrite value_nibbles in Hval by done.
  destruct (drop_zeros (nibbles val)) as [|x l].
  - exists 1. cbn in Hval. subst val. split; [|lia]. exact (hexToInt_digits [0] 0 0 rest ltac:(repeat constructor; lia) Hr).
  - eexists. rewrite hexToInt_digits by done. split; [do 2 f_equal; exact Hval|cbn; lia].
Qed.

(** The packet that reads memory. *)
Definition mpacket (addr len : Z) : list Z := ch "m" :: int2vhstr addr ++ ch "," :: int2vhstr len.
