(* ===== verification/GdbPacket.v ===== *)
(** * Debugger stub: packets survive a noisy line *)
From S2P Require Import Prelude Bits GdbHex GdbFacts.
From Stdlib Require Import Ascii String.
Open Scope Z_scope.
Open Scope list_scope.
Open Scope xenon_scope.

(** ** What is on the line *)

(** An attempt to send a packet, as it arrives: characters outside any frame,
    the body, and the two digits of the checksum. *)
Record attempt := mkAttempt { noise : list Z; body : list Z; hi : Z; lo : Z }.

Definition low7 (c : Z) : Z := Z.land c 0x7f.
Definition wire (a : attempt) : list Z := noise a ++ ch "$" :: body a ++ [ch "#"; hi a; lo a].
Definition xmitted (a : attempt) : Z := u8 (Z.lor (u8 (Z.shiftl (hex (low7 (hi a))) 4)) (hex (low7 (lo a)))).

(** The frame can be told from the noise around it, and the body fits. *)
Definition framed (a : attempt) : Prop :=
  Forall (fun c => low7 c <> ch "$") (noise a) /\ Forall (fun c => low7 c <> ch "#") (body a) /\
  Z.of_nat (List.length (body a)) < BUFMAX.

(** An attempt that the checksum gives away, and which does not look as if it
    carried a sequence number. *)
Definition garbled (a : attempt) : Prop :=
  framed a /\ chksum_of (low7 <$> body a) <> xmitted a /\ low7 (nth 2 (body a) 0) <> ch ":".

(** A packet's characters: text without the end mark. *)
Definition payload (p : list Z) : Prop :=
  Forall (fun c => 0 < c < 128 /\ c <> ch "#") p /\ Z.of_nat (List.length p) < BUFMAX.

(** The string in a buffer. *)
Definition cstring (b : list Z) : list Z := take (strlen b) b.

(** ** Reading one frame *)

Lemma getdbgchar_run c r t : getdbgchar (mkUart (c :: r) t) = Ok c (mkUart r t).
Proof. done. Qed.

Lemma putdbgstr_run l r t : putdbgstr l (mkUart r t) = Ok tt (mkUart r (t ++ l)).
Proof. done. Qed.

Lemma wait_start_run ns : forall fuel r t, Forall (fun c => low7 c <> ch "$") ns -> (List.length ns < fuel)%nat ->
  wait_start fuel (mkUart (ns ++ ch "$" :: r) t) = Ok tt (mkUart r t).
Proof.
  unfold wait_start. induction ns as [|c ns IH]; intros fuel r t Hns Hf; (destruct fuel as [|fuel]; [cbn in Hf; lia|]); cbn [do_while app].
  - done.
  - inversion_clear Hns as [|? ? Hc Hns']. rewrite bind_assoc, (bind_ok _ _ _ _ _ (getdbgchar_run _ _ _)). cbn [bind ret].
    rewrite (proj2 (Z.eqb_neq (Z.land c 0x7f) _) Hc). cbn [negb]. apply IH; [done|cbn in Hf; lia].
Qed.

Definition sum7 (chk : Z) (l : list Z) : Z := fold_left (fun s c => u8 (s + low7 c)) l chk.

Lemma u8_add_l a b : u8 (u8 a + b) = u8 (a + b).
Proof. unfold u8. apply Zplus_mod_idemp_l. Qed.

Lemma sum7_chksum l : forall a, sum7 (u8 a) l = u8 (fold_left Z.add (low7 <$> l) a).
Proof. induction l as [|c l IH]; intros a; [done|]. cbn [sum7 fold_left fmap list_fmap]. unfold sum7 in IH. by rewrite u8_add_l, IH. Qed.

Lemma read_body_run l : forall n cnt chk buf r t, Forall (fun c => low7 c <> ch "#") l -> (List.length l < n)%nat ->
  read_body n cnt chk buf (mkUart (l ++ ch "#" :: r) t) =
  Ok ((cnt + List.length l)%nat, sum7 chk l, list_inserts cnt (low7 <$> l) buf, true) (mkUart r t).
Proof.
  induction l as [|c l IH]; intros n cnt chk buf r t Hl Hn; (destruct n as [|n]; [cbn in Hn; lia|]); cbn [read_body app].
  - by rewrite Nat.add_0_r.
  - inversion_clear Hl as [|? ? Hc Hl']. rewrite (bind_ok _ _ _ _ _ (getdbgchar_run _ _ _)).
    rewrite (proj2 (Z.eqb_neq (Z.land c 0x7f) _) Hc). rewrite IH by (done || (cbn in Hn; lia)).
    cbn [List.length fmap list_fmap list_inserts sum7 fold_left]. rewrite list_insert_inserts_lt by lia. by rewrite Nat.add_succ_comm.
Qed.

(** The buffer after a frame with the body [l]. *)
Definition received (l buf : list Z) : list Z := <[List.length l := 0]> (list_inserts 0 l buf).

Lemma received_eq l buf : (List.length l < List.length buf)%nat -> received l buf = l ++ 0 :: drop (S (List.length l)) buf.
Proof.
  intros Hlt. unfold received. rewrite insert_take_drop by (by rewrite length_inserts).
  assert (list_inserts 0 l buf = l ++ drop (List.length l) buf) as ->.
  { rewrite <- (take_drop (List.length l) buf) at 1. apply list_inserts_0_r. rewrite length_take. lia. }
  rewrite take_app_length. do 2 f_equal. replace (S (List.length l)) with (List.length l + 1)%nat by lia.
  by rewrite <- drop_drop, drop_app_length, drop_drop.
Qed.

Lemma received_length l buf : List.length (received l buf) = List.length buf.
Proof. unfold received. by rewrite length_insert, length_inserts. Qed.

(** A round of the receiver on an attempt. *)
Lemma getpacket_round_run fuel a buf r t :
  framed a -> (List.length (noise a) < fuel)%nat ->
  getpacket_round fuel buf (mkUart (wire a ++ r) t) =
  (let b := received (low7 <$> body a) buf in
   if chksum_of (low7 <$> body a) =? xmitted a
   then if nth 2 b 0 =? ch ":"
        then Ok (shift_down (strlen b) b, false) (mkUart r (((t ++ [ch "+"]) ++ [nth 0 b 0]) ++ [nth 1 b 0]))
        else Ok (b, false) (mkUart r (t ++ [ch "+"]))
   else Ok (b, true) (mkUart r (t ++ [ch "-"]))).
Proof.
  intros (Hn & Hb & Hlen) Hf. unfold getpacket_round, wire. rewrite <- app_assoc. cbn [app]. rewrite <- app_assoc. cbn [app].
  rewrite (bind_ok _ _ _ _ _ (wait_start_run _ _ _ _ Hn Hf)).
  rewrite (bind_ok _ _ _ _ _ (read_body_run (body a) (Z.to_nat BUFMAX) 0 0 buf _ t Hb ltac:(lia))).
  cbn [negb fst snd]. rewrite (bind_ok _ _ _ _ _ (getdbgchar_run _ _ _)), (bind_ok _ _ _ _ _ (getdbgchar_run _ _ _)).
  change (sum7 0 (body a)) with (sum7 (u8 0) (body a)). rewrite sum7_chksum. fold (chksum_of (low7 <$> body a)).
  fold (low7 (hi a)) (low7 (lo a)). fold (xmitted a).
  assert (<[(0 + List.length (body a))%nat := 0]> (list_inserts 0 (low7 <$> body a) buf) = received (low7 <$> body a) buf) as ->
    by (unfold received; by rewrite length_fmap).
  set (b := received (low7 <$> body a) buf). cbv zeta.
  destruct (chksum_of (low7 <$> body a) =? xmitted a); cbn [negb]; [|done].
  destruct (nth 2 b 0 =? ch ":").
  - reflexivity.
  - reflexivity.
Qed.

Lemma nth_received l buf : (List.length l < List.length buf)%nat ->
  nth 2 buf 0 <> ch ":" -> nth 2 l 0 <> ch ":" -> nth 2 (received l buf) 0 <> ch ":".
Proof.
  intros Hl Hb Hn. rewrite received_eq by done. destruct l as [|x [|y [|z l]]]; cbn [app nth List.length] in *.
  - destruct buf as [|? [|? [|? ?]]]; cbn [nth drop List.length] in *; done.
  - destruct buf as [|? [|? [|? ?]]]; cbn [nth drop List.length] in *; done.
  - done.
  - done.
Qed.

Lemma cstring_received l buf : Forall (fun c => c <> 0) l -> (List.length l < List.length buf)%nat -> cstring (received l buf) = l.
Proof.
  intros Hnz Hl. rewrite received_eq by done. generalize (drop (S (List.length l)) buf). intros d. clear Hl. unfold cstring.
  induction Hnz as [|c l Hc _ IH]; [done|]. cbn [app strlen]. rewrite (proj2 (Z.eqb_neq _ _) Hc). cbn [take]. by rewrite IH.
Qed.

(** ** The frames the stub itself builds *)

Lemma payload_low7 p : payload p -> low7 <$> p = p.
Proof.
  intros [H _]. induction H as [|c p [Hc _] _ IH]; [done|]. cbn [fmap list_fmap]. f_equal; [|exact IH].
  unfold low7. change 0x7f with (Z.ones 7). rewrite Z.land_ones by lia. apply Z.mod_small. change (2 ^ 7) with 128. lia.
Qed.

Lemma xmitted_frame ns p : xmitted (mkAttempt ns p (hexchar (Z.shiftr (chksum_of p) 4)) (hexchar (Z.land (chksum_of p) 0x0f))) = chksum_of p.
Proof.
  unfold xmitted. cbn [hi lo]. pose proof (u8_range (fold_left Z.add p 0)) as Hc. fold (chksum_of p) in Hc. revert Hc. generalize (chksum_of p). intros c Hc.
  unfold low7. rewrite !hex_hexchar by (by apply high_nibble || apply low_nibble).
  rewrite (u8_id (Z.shiftl _ 4)).
  - rewrite join_nibbles. by apply u8_id.
  - apply high_nibble in Hc. unfold is_nibble in Hc. unfold is_byte. rewrite Z.shiftl_mul_pow2 by lia. change (2 ^ 4) with 16. lia.
Qed.

Lemma frame_wire ns p : ns ++ frame p = wire (mkAttempt ns p (hexchar (Z.shiftr (chksum_of p) 4)) (hexchar (Z.land (chksum_of p) 0x0f))).
Proof. done. Qed.

Lemma payload_framed ns p h l : Forall (fun c => low7 c <> ch "$") ns -> payload p -> framed (mkAttempt ns p h l).
Proof.
  intros Hns Hp. split_and!; [done| |by apply Hp]. cbn [body]. apply Forall_fmap with (P := fun c => c <> ch "#").
  rewrite payload_low7 by done. destruct Hp as [Hp _]. eapply Forall_impl; [exact Hp|]. cbn. tauto.
Qed.

Lemma payload_nonzero p : payload p -> Forall (fun c => c <> 0) p.
Proof. intros [H _]. eapply Forall_impl; [exact H|]. cbn. lia. Qed.

Lemma round_garbled fuel a buf r t : garbled a -> (List.length (noise a) < fuel)%nat ->
  getpacket_round fuel buf (mkUart (wire a ++ r) t) = Ok (received (low7 <$> body a) buf, true) (mkUart r (t ++ [ch "-"])).
Proof. intros (Hfr & Hs & _) Hf. rewrite getpacket_round_run by done. cbv zeta. by rewrite (proj2 (Z.eqb_neq _ _) Hs). Qed.

Lemma round_good fuel ns p buf r t : Forall (fun c => low7 c <> ch "$") ns -> payload p -> (List.length ns < fuel)%nat ->
  nth 2 (received p buf) 0 <> ch ":" ->
  getpacket_round fuel buf (mkUart ((ns ++ frame p) ++ r) t) = Ok (received p buf, false) (mkUart r (t ++ [ch "+"])).
Proof.
  intros Hns Hp Hf H2. rewrite frame_wire, getpacket_round_run by (by apply payload_framed || done). cbv zeta. cbn [body].
  by rewrite payload_low7, xmitted_frame, Z.eqb_refl, (proj2 (Z.eqb_neq _ _) H2) by done.
Qed.

Lemma wires_length bad a : a ∈ bad -> (List.length (noise a) <= List.length (List.concat (wire <$> bad)))%nat.
Proof.
  induction bad as [|b bad IH]; intros Hin; [by apply not_elem_of_nil in Hin|]. rewrite fmap_cons. cbn [List.concat]. rewrite length_app.
  apply elem_of_cons in Hin as [->|Hin]; [unfold wire; rewrite length_app; lia|]. specialize (IH Hin). lia.
Qed.

Lemma wires_count bad : (List.length bad <= List.length (List.concat (wire <$> bad)))%nat.
Proof.
  induction bad as [|b bad IH]; [done|]. rewrite fmap_cons. cbn [List.concat]. rewrite length_app. unfold wire at 1. rewrite length_app.
  cbn [List.length]. lia.
Qed.

(** ** Whole exchanges *)

(** The sender's frame, when the receiver refuses it a number of times. *)
Lemma putpacket_loop p naks : forall fuel ack rest t, Forall (fun c => low7 c <> ch "+") naks -> low7 ack = ch "+" ->
  (List.length naks < fuel)%nat ->
  do_while fuel (fun _ => putdbgstr (frame p) ;; recv <- getdbgchar ;; ret (tt, negb (Z.land recv 0x7f =? ch "+"))) tt
    (mkUart (naks ++ ack :: rest) t) = Ok tt (mkUart rest (t ++ List.concat (replicate (S (List.length naks)) (frame p)))).
Proof.
  induction naks as [|c naks IH]; intros fuel ack rest t Hn Ha Hf; (destruct fuel as [|fuel]; [cbn in Hf; lia|]);
    cbn [do_while app]; rewrite bind_assoc, (bind_ok _ _ _ _ _ (putdbgstr_run _ _ _)), bind_assoc, (bind_ok _ _ _ _ _ (getdbgchar_run _ _ _)).
  - cbn [List.length replicate List.concat]. rewrite app_nil_r. fold (low7 ack). by rewrite Ha.
  - inversion_clear Hn as [|? ? Hc Hn']. cbn [bind ret]. rewrite (proj2 (Z.eqb_neq (Z.land c 0x7f) _) Hc). cbn [negb].
    rewrite IH by (done || (cbn in Hf; lia)). cbn [List.length replicate List.concat]. by rewrite <- app_assoc.
Qed.

(** The receiver, when a number of attempts are garbled. *)
Lemma getpacket_loop (F : nat) bad : forall fuel ns p rest buf t,
  Forall garbled bad -> Forall (fun a => (List.length (noise a) < F)%nat) bad ->
  Forall (fun c => low7 c <> ch "$") ns -> (List.length ns < F)%nat -> payload p ->
  Z.of_nat (List.length buf) = BUFMAX -> nth 2 buf 0 <> ch ":" -> nth 2 p 0 <> ch ":" -> (List.length bad < fuel)%nat ->
  exists b, do_while fuel (getpacket_round F) buf (mkUart (List.concat (wire <$> bad) ++ (ns ++ frame p) ++ rest) t) =
    Ok b (mkUart rest (t ++ replicate (List.length bad) (ch "-") ++ [ch "+"])) /\
    cstring b = p /\ Z.of_nat (List.length b) = BUFMAX /\ nth 2 b 0 <> ch ":".
Proof.
  induction bad as [|a bad IH]; intros fuel ns p rest buf t Hbad HF Hns Hnsf Hp Hlen H2 H2p Hf; (destruct fuel as [|fuel]; [cbn in Hf; lia|]);
    rewrite ?fmap_cons; cbn [do_while List.concat].
  - assert (List.length p < List.length buf)%nat as Hpl by (destruct Hp; lia).
    pose proof (nth_received p buf Hpl H2 H2p) as H2'. exists (received p buf).
    cbn [app List.length replicate]. rewrite (bind_ok _ _ _ _ _ (round_good F ns p buf rest t Hns Hp Hnsf H2')).
    split_and!; [done|apply cstring_received; [by apply payload_nonzero|done]|by rewrite received_length|done].
  - inversion_clear Hbad as [|? ? Ha Hbad']. inversion_clear HF as [|? ? Haf HF']. rewrite <- app_assoc.
    rewrite (bind_ok _ _ _ _ _ (round_garbled F a buf _ t Ha Haf)). cbv beta iota. destruct Ha as ((_ & _ & Hal) & _ & Ha2).
    destruct (IH fuel ns p rest (received (low7 <$> body a) buf) (t ++ [ch "-"])) as (b & E & Hb); try done.
    + by rewrite received_length.
    + apply nth_received; [rewrite length_fmap; lia|done|]. change 0 with (low7 0) at 1. by rewrite <- map_nth in Ha2.
    + cbn in Hf. lia.
    + exists b. split; [|exact Hb]. etrans; [exact E|]. do 2 f_equal. cbn [List.length replicate]. by rewrite <- app_assoc.
Qed.

(** C19: packets survive a noisy line.  Sending a packet that fits its frame
    buffer, the stub repeats the
    frame until the other side acknowledges it, once for each refusal and once
    more.  Receiving, it skips what lies outside a frame, refuses every frame
    with a body shorter than [BUFMAX] whose checksum is wrong, and when an
    intact frame of a text arrives it
    acknowledges it, leaves that very text in the buffer and does not touch
    what follows on the line.  The texts, the refused bodies and the buffer at
    the start have no colon at index 2, where the stub would take the first two
    characters for a sequence number and cut them off.  A frame whose body
    does fill the buffer is not judged by its checksum: [overlong_accepted]. *)
Theorem gdb_packets_delivered (fuel : nat) (p naks rest noise0 buf t : list Z) (ack : Z) (bad : list attempt) :
  payload p -> Z.of_nat (List.length p) + 5 <= BUFMAX ->
  Forall (fun c => low7 c <> ch "+") naks -> low7 ack = ch "+" -> (List.length naks < fuel)%nat ->
  Forall garbled bad -> Forall (fun c => low7 c <> ch "$") noise0 ->
  nth 2 p 0 <> ch ":" -> nth 2 buf 0 <> ch ":" -> Z.of_nat (List.length buf) = BUFMAX ->
  (List.length (List.concat (wire <$> bad) ++ noise0) < fuel)%nat ->
  uart_putpacket fuel p (mkUart (naks ++ ack :: rest) t) =
    Ok tt (mkUart rest (t ++ List.concat (replicate (S (List.length naks)) (frame p)))) /\
  exists b, uart_getpacket fuel buf (mkUart (List.concat (wire <$> bad) ++ (noise0 ++ frame p) ++ rest) t) =
    Ok b (mkUart rest (t ++ replicate (List.length bad) (ch "-") ++ [ch "+"])) /\
    cstring b = p /\ Z.of_nat (List.length b) = BUFMAX /\ nth 2 b 0 <> ch ":".
Proof.
  intros Hp Hfit Hn Ha Hf Hbad Hns H2p H2 Hlen Hfu. rewrite length_app in Hfu. split.
  - unfold uart_putpacket. rewrite (proj2 (Z.ltb_ge _ _) Hfit). by apply putpacket_loop.
  - apply getpacket_loop; try done; [|lia|].
    + apply Forall_forall. intros a Hin. eapply Nat.le_lt_trans; [|exact Hfu]. pose proof (wires_length bad a Hin). lia.
    + pose proof (wires_count bad). lia.
Qed.

Lemma gdb_packets_delivered_demo :
  let line := str "+++$x#00$g#67!" in
  exists b, uart_getpacket 20 (replicate (Z.to_nat BUFMAX) 0) (mkUart line []) = Ok b (mkUart (str "!") (str "-+")) /\ cstring b = str "g".
Proof.
  destruct (gdb_packets_delivered 20 (str "g") [] (str "!") [] (replicate (Z.to_nat BUFMAX) 0) [] (ch "+")
    [mkAttempt (str "+++") (str "x") (ch "0") (ch "0")]) as [_ (b & E & Hb & _)].
  - split; [|vm_compute; reflexivity]. constructor; [|constructor]. vm_compute. repeat split; discriminate.
  - vm_compute. discriminate.
  - constructor.
  - reflexivity.
  - cbn. lia.
  - constructor; [|constructor]. split; [split_and!; [| |vm_compute; reflexivity]|split]; try (vm_compute; discriminate);
      cbn [noise body str]; repeat (apply Forall_cons; split; [vm_compute; discriminate|]); apply Forall_nil; exact I.
  - constructor.
  - vm_compute. discriminate.
  - vm_compute. discriminate.
  - rewrite length_replicate. reflexivity.
  - cbn. lia.
  - exists b. split; [exact E|exact Hb].
Defined.

(** [BUFMAX] characters without an end mark, with the sum 255, are taken for a
    packet: none of them is answered. *)
Lemma overlong_accepted : exists b,
  uart_getpacket 2 (replicate 2048 0) (mkUart (ch "$" :: replicate 2047 (ch "a") ++ [96]) []) = Ok b (mkUart [] []) /\ strlen b = 2048%nat.
Proof. eexists. split; vm_compute; reflexivity. Qed.
