(* ===== verification/GdbStub.v ===== *)
(** * Debugger stub: commands [drivers/threads/gdb.c], thread control
      [drivers/threads/gdbroutines.c], exception codes [drivers/threads/c_debug.c]

    The stub works on the thread library's state, on the table of breakpoints
    and on the memory they are set in, read as bytes by the command [m].  A
    packet handed to [putpacket] is a member of [sent]; how it reaches the other
    side is [uart_putpacket]'s matter, except that a packet too long for the
    frame buffer is a fault here too.  The buffer is all [BUFMAX] characters of
    it, so that what an earlier packet left behind the terminating zero is
    there to be read.  Names of threads are pointers, and [cstr] is the text at
    a pointer. *)
From S2P Require Import Prelude Bits ThreadDefs ThreadApi Breakpoint GdbHex.
From Stdlib Require Import Ascii String.
Open Scope Z_scope.
Open Scope list_scope.
Open Scope xenon_scope.

Record gdb := mkGdb {
  kernel : world; bps : bp_state;
  mode : Z; threads_suspended : Z;
  attached : Z; active : Z; running : Z; signal : Z;
  ctrlthread : ptr; otherthread : ptr;
  sent : list (list Z)
}.
#[global] Instance eta_gdb : Eta gdb := fun r =>
  mkGdb (kernel r) (bps r) (mode r) (threads_suspended r) (attached r) (active r) (running r) (signal r)
    (ctrlthread r) (otherthread r) (sent r).

Definition MG (A : Type) : Type := M gdb A.

(** Calls of the thread library and of the breakpoints. *)
Definition thr {A} (m : K A) : MG A := fun s =>
  match m (kernel s) with
  | Ok a w => Ok a (s <| kernel := w |>)
  | Fault => Fault | Blocked => Blocked | Diverge => Diverge
  end.
Definition brk {A} (m : M bp_state A) : MG A := fun s =>
  match m (bps s) with
  | Ok a b => Ok a (s <| bps := b |>)
  | Fault => Fault | Blocked => Blocked | Diverge => Diverge
  end.

(** What leaves for the other side. *)
Definition emit (l : list Z) : MG unit := modify (fun s => s <| sent ::= fun t => t ++ [l] |>).

(** [uart_putpacket] and [net_putpacket] both build the frame in
    [outbuf[BUFMAX]]: the mark, the text, the end mark, two digits and a zero. *)
Definition putpacket (l : list Z) : MG unit :=
  if BUFMAX <? Z.of_nat (List.length l) + 5 then fault else emit l.
Definition net_putchar (c : Z) : MG unit := emit [c].

(** A string with its terminating zero in a buffer of [n] characters. *)
Definition fits (n : Z) (l : list Z) : MG unit := if Z.of_nat (List.length l) <? n then ret tt else fault.

Section stub.
Variable cstr : Z -> list Z.        (* the text at a pointer *)
Variable empty_literal : Z.         (* the address of the literal "" *)
Variable name_memory : nat -> list Z.   (* the memory from a thread's field [Name] on *)

(** ** Stopping and starting the threads *)

(** [strcmp(pthr->Name, ...) == 0] for one of the names, over the network. *)
Definition spared (names : list (list Z)) (pthr : ptr) : MG bool :=
  m <- gets mode ;;
  n <- thr (pthr ->> Name) ;;
  ret ((m =? 1) && nz n && bool_decide (cstr n ∈ names)).

Definition servers : list (list Z) := [str "tcpip_thread"; str "poll_thread"].

Definition for_pool (body : ptr -> MG unit) : MG unit :=
  for_each (seq 0 MAX_THREAD_COUNT) (fun i => body (thread_get_pool (Z.of_nat i))).

Definition halt_threads : MG unit :=
  ts <- gets threads_suspended ;;
  if negb (ts =? 0) then ret tt else
  cur <- thr thread_get_current ;;
  thisthread <- thr (cur ->> ThreadId) ;;
  for_pool (fun pthr =>
    valid <- thr (pthr ->> Valid) ;;
    id <- thr (pthr ->> ThreadId) ;;
    if negb (nz valid && negb (id =? thisthread)) then ret tt else
    sp <- spared servers pthr ;;
    if sp : bool then ret tt else
    prio <- thr (pthr ->> Priority) ;;
    if nz prio then thr (thread_suspend pthr) ;; ret tt else ret tt) ;;
  modify (fun s => s <| threads_suspended := 1 |>).

Definition resume_threads : MG unit :=
  ts <- gets threads_suspended ;;
  if negb (ts =? 1) then ret tt else
  cur <- thr thread_get_current ;;
  thisthread <- thr (cur ->> ThreadId) ;;
  for_pool (fun pthr =>
    valid <- thr (pthr ->> Valid) ;;
    id <- thr (pthr ->> ThreadId) ;;
    if negb (nz valid && negb (id =? thisthread)) then ret tt else
    wh <- thr (pthr ->> WaitingInHandler) ;;
    (if nz wh then thr (pthr ->> WaitingInHandler <<- 0) else ret tt) ;;
    sp <- spared servers pthr ;;
    if sp : bool then ret tt else
    prio <- thr (pthr ->> Priority) ;;
    if nz prio then thr (thread_resume pthr) ;; ret tt else ret tt) ;;
  modify (fun s => s <| threads_suspended := 0 |>).

Definition halt_threads_nolock : MG unit :=
  ts <- gets threads_suspended ;;
  if negb (ts =? 0) then ret tt else
  for_pool (fun pthr =>
    valid <- thr (pthr ->> Valid) ;;
    if negb (nz valid) then ret tt else
    sp <- spared (servers ++ [str "gdb"]) pthr ;;
    if sp : bool then ret tt else
    prio <- thr (pthr ->> Priority) ;;
    if negb (nz prio) then ret tt else
    n <- thr (pthr ->> SuspendCount) ;;
    if n <? 80 then thr (pthr ->> SuspendCount <<- u8 (n + 1)) else ret tt) ;;
  modify (fun s => s <| threads_suspended := 1 |>).

Definition resume_threads_nolock : MG unit :=
  ts <- gets threads_suspended ;;
  if negb (ts =? 1) then ret tt else
  for_pool (fun pthr =>
    wh <- thr (pthr ->> WaitingInHandler) ;;
    (if nz wh then thr (pthr ->> WaitingInHandler <<- 0) else ret tt) ;;
    valid <- thr (pthr ->> Valid) ;;
    if negb (nz valid) then ret tt else
    sp <- spared (servers ++ [str "gdb"]) pthr ;;
    if sp : bool then ret tt else
    prio <- thr (pthr ->> Priority) ;;
    if negb (nz prio) then ret tt else
    n <- thr (pthr ->> SuspendCount) ;;
    if nz n then thr (pthr ->> SuspendCount <<- u8 (n - 1)) else ret tt) ;;
  modify (fun s => s <| threads_suspended := 0 |>).

(** ** Queries *)

(** [buffer] as a string. *)
Definition text (buffer : list Z) : list Z := take (strlen buffer) buffer.

(** [sprintf(ptr, "%x", c)] for a character, the next one two places on. *)
Definition name_digits (c : Z) : list Z :=
  if c <? 16 then [hexchar c; 0] else [hexchar (Z.shiftr c 4); hexchar (Z.land c 0x0f)].

(** [case 'f']: the identifiers of the threads. *)
Definition thread_list : MG (list Z) :=
  (fix go (l : list nat) (acc : list Z) : MG (list Z) :=
     match l with
     | [] => ret acc
     | i :: l' =>
         let pthr := thread_get_pool (Z.of_nat i) in
         valid <- thr (pthr ->> Valid) ;;
         if nz valid then
           id <- thr (pthr ->> ThreadId) ;;
           let acc := acc ++ int2vhstr (id + 1) ++ [ch ","] in
           fits BUFMAX acc ;; go l' acc
         else go l' acc
     end) (seq 0 MAX_THREAD_COUNT) (str "m").

(** [qThreadExtraInfo] *)
Definition thread_info (buffer : list Z) : MG unit :=
  let '(_, thread, _) := hexToInt (drop 17 buffer) in
  let pthr := thread_get_pool (s32 (thread - 1)) in
  temp <- (match pthr with
           | None => ret (str "No Name")
           | Some _ =>
               valid <- thr (pthr ->> Valid) ;;
               if negb (nz valid) then ret (str "No Name") else
               n <- thr (pthr ->> Name) ;;
               if negb (nz n) then ret (str "No Name") else ret (str "Name: " ++ cstr n)
           end) ;;
  fits (BUFMAX / 4) temp ;;
  putpacket (text ((temp ≫= name_digits) ++ [0])).

(** [qP] *)
Definition thread_query (buffer : list Z) : MG unit :=
  match parseqp buffer with
  | None => putpacket (str "E01")
  | Some (mask, rthread) =>
      if nz (Z.ldiff mask 0x1f) then putpacket (str "E01") else
      let pthr := thread_get_pool (s32 (rthread - 1)) in
      name <- (if nz (Z.land mask 0x08) then
                 n <- thr (pthr ->> Name) ;;
                 (if n =? 0 then thr (pthr ->> Name <<- empty_literal) ;; ret [] else ret (cstr n))
               else ret []) ;;
      let raw := match pthr with Some i => name_memory i | None => [] end in
      let out := packqq mask rthread name raw in
      fits BUFMAX out ;;
      putpacket (text (out ++ [0]))
  end.

Definition parse_q (buffer : list Z) : MG unit :=
  let b1 := nth 1 buffer 0 in
  if b1 =? ch "S" then
    (if nth 2 buffer 0 =? ch "u" then putpacket (str "PacketSize=2048") else putpacket (str "OK"))
  else if b1 =? ch "C" then
    o <- gets otherthread ;;
    match o with
    | None => putpacket (str "QC-1")
    | Some _ => id <- thr (o ->> ThreadId) ;; putpacket (str "QC" ++ int2vhstr (id + 1))
    end
  else if b1 =? ch "A" then putpacket (str "1")
  else if b1 =? ch "O" then putpacket (str "Text=0;Data=0;Bss=0")
  else if b1 =? ch "f" then (l <- thread_list ;; putpacket l)
  else if b1 =? ch "s" then putpacket (str "l")
  else if b1 =? ch "T" then
    (if nth 2 buffer 0 =? ch "h" then thread_info buffer else putpacket [])
  else if b1 =? ch "P" then thread_query buffer
  else ret tt.

(** ** The other commands *)

(** [pthr && pthr->Valid] *)
Definition is_thread (pthr : ptr) : MG bool :=
  match pthr with
  | None => ret false
  | Some _ => v <- thr (pthr ->> Valid) ;; ret (nz v)
  end.

(** [H] *)
Definition parse_H (buffer : list Z) : MG unit :=
  let '(_, thread, _) := hexToInt (drop 2 buffer) in
  let threadid := s32 (thread - 1) in
  let pthr := if 0 <=? threadid then thread_get_pool threadid else None in
  let b1 := nth 1 buffer 0 in
  if b1 =? ch "c" then
    if thread =? 0 then putpacket (str "OK") else
    ok <- is_thread pthr ;;
    if ok : bool then modify (fun s => s <| ctrlthread := pthr |>) ;; putpacket (str "OK")
    else putpacket (str "E01")
  else if b1 =? ch "g" then
    if thread =? 0 then putpacket (str "OK") else
    ok <- is_thread pthr ;;
    if ok : bool then modify (fun s => s <| otherthread := pthr |>) ;; putpacket (str "OK")
    else putpacket (str "E01")
  else putpacket (str "E01").

(** [?]: the digits of [%02.2X] go into a buffer of four characters. *)
Definition hexchar_upper (n : Z) : Z := nth (Z.to_nat n) (str "0123456789ABCDEF") 0.
Definition halt_reason : MG unit :=
  v <- gets (fun s => u32 (signal s)) ;;
  if v <? 256 then putpacket (ch "S" :: [hexchar_upper (Z.shiftr v 4); hexchar_upper (Z.land v 0x0f)]) else fault.

(** The eight bytes of a register, and the last four of them. *)
Definition long_bytes (v : Z) : list Z := put_be (Z.shiftr v 32) ++ put_be v.
Definition word_bytes (v : Z) : list Z := put_be v.

(** [g] *)
Definition registers (c : CONTEXT) : list Z :=
  (Gpr c ≫= (fun r => mem2hstr (word_bytes r))) ++
  mem2hstr (Fpr (FpuVpu c) ≫= long_bytes) ++
  mem2hstr (word_bytes (Iar c)) ++ mem2hstr (word_bytes (Msr c)) ++ mem2hstr (word_bytes (Cr c)) ++
  mem2hstr (word_bytes (Lr c)) ++ mem2hstr (word_bytes (Ctr c)) ++ mem2hstr (word_bytes (Xer c)) ++
  mem2hstr (word_bytes (Fpscr (FpuVpu c))).

Definition parse_g : MG unit :=
  o <- gets otherthread ;;
  match o with
  | None => putpacket (str "E01")
  | Some _ => c <- thr (o ->> Context) ;; putpacket (registers c)
  end.

(** A byte of the memory the breakpoints are set in, which is made of words,
    and [count] of them. *)
Definition byte_at (m : gmap Z Z) (a : Z) : option Z :=
  match m !! (a - a mod 4) with
  | Some w => Some (nth (Z.to_nat (a mod 4)) (put_be w) 0)
  | None => None
  end.
Definition bytes_at (a : Z) (count : nat) : MG (list Z) := fun s =>
  match mapM (fun k => byte_at (code (bps s)) (a + Z.of_nat k)) (seq 0 count) with
  | Some l => Ok l s
  | None => Fault
  end.

(** [m]: the answer is written over the command; [count] is an [int]. *)
Definition parse_m (buffer : list Z) : MG unit :=
  let '(cnt, addr, ptr) := hexToInt (drop 1 buffer) in
  if cnt =? 0 then putpacket (str "E00") else
  if negb (peek ptr =? ch ",") then putpacket (str "E01") else
  let '(cnt, len, _) := hexToInt (tl ptr) in
  if cnt =? 0 then putpacket (str "E02") else
  if negb (ptr_seems_valid (u32 addr)) then putpacket (str "E03") else
  if BUFMAX <? 2 * len + 1 then fault else
  mem <- bytes_at (u32 addr) (Z.to_nat len) ;;
  putpacket (mem2hstr mem).

Definition go_on : MG unit :=
  modify (fun s => s <| active := 0 |> <| running := 1 |>) ;;
  resume_threads.

(** [s], and the end of [S] *)
Definition parse_s : MG unit :=
  pthr <- gets ctrlthread ;;
  (match pthr with
   | None => modify (fun s => s <| ctrlthread := thread_get_pool 0 |>)
   | Some _ => ret tt
   end) ;;
  thr (th_upd pthr (set Context (set Msr (fun m => Z.lor m 0x400)))) ;;
  go_on.

(** [z] and [Z] *)
Definition parse_z (act : Z -> M bp_state unit) (buffer : list Z) : MG unit :=
  match parsezbreak buffer with
  | None => putpacket (str "E01")
  | Some (type, addr, len) =>
      if negb (type =? 0) then ret tt else
      if len <? 4 then putpacket (str "E02") else
      brk (act addr) ;; putpacket (str "OK")
  end.

Definition set_signal (v : Z) : MG unit := modify (fun s => s <| signal := v |>).

Definition parse_cmd (buffer : list Z) : MG Z :=
  let c := nth 0 buffer 0 in
  if c =? ch "q" then parse_q buffer ;; ret 0
  else if c =? ch "H" then parse_H buffer ;; ret 0
  else if c =? ch "?" then halt_reason ;; ret 0
  else if c =? ch "g" then parse_g ;; ret 0
  else if c =? ch "D" then
    modify (fun s => s <| attached := 0 |> <| active := 0 |> <| running := 1 |>) ;;
    resume_threads ;;
    putpacket (str "OK") ;;
    ret 1
  else if c =? ch "m" then parse_m buffer ;; ret 0
  else if c =? ch "c" then
    modify (fun s => s <| active := 0 |> <| running := 1 |> <| signal := 3 |>) ;;
    resume_threads ;; ret 0
  else if c =? ch "C" then
    let '(_, val, _) := hexToInt (drop 1 buffer) in
    set_signal val ;; go_on ;; ret 0
  else if c =? ch "S" then
    let '(_, val, _) := hexToInt (drop 1 buffer) in
    set_signal val ;; parse_s ;; ret 0
  else if c =? ch "s" then parse_s ;; ret 0
  else if c =? ch "T" then
    let '(_, thread, _) := hexToInt (drop 1 buffer) in
    _v <- thr (thread_get_pool (s32 (thread - 1)) ->> Valid) ;;
    putpacket (str "OK") ;; ret 0
  else if c =? ch "z" then parse_z remove_breakpoint buffer ;; ret 0
  else if c =? ch "Z" then parse_z set_breakpoint buffer ;; ret 0
  else putpacket [] ;; ret 0.

(** The inner loop of [gdbserver] on the packets that arrive: [getpacket] has
    put each into the buffer. *)
Definition serve_packet (buffer : list Z) : MG unit :=
  a <- gets active ;;
  (if negb (nz a) then halt_threads ;; modify (fun s => s <| active := 1 |>) else ret tt) ;;
  parse_cmd buffer ;;
  ret tt.
Definition gdbserver (packets : list (list Z)) : MG unit :=
  a <- gets attached ;;
  (if a =? 1 then putpacket (str "S05") else ret tt) ;;
  modify (fun s => s <| attached := 1 |>) ;;
  for_each packets serve_packet.

(** ** Exceptions *)

Definition EXCEPT_CODE_UNKNOWN : Z := 0.
Definition EXCEPT_CODE_DEBUG_PRINT : Z := 1.
Definition EXCEPT_CODE_TRAP : Z := 2.
Definition EXCEPT_CODE_INVALID_INSTRUCTION : Z := 3.
Definition EXCEPT_CODE_INVALID_FLOAT_OPERATION : Z := 4.
Definition EXCEPT_CODE_PRIVILEGED_INSTRUCTION : Z := 5.
Definition EXCEPT_CODE_SEGMENTATION_FAULT_READ : Z := 6.
Definition EXCEPT_CODE_SEGMENTATION_FAULT_WRITE : Z := 7.
Definition EXCEPT_CODE_BREAKPOINT : Z := 8.
Definition EXCEPT_CODE_TRACE : Z := 9.

(** [op] is the instruction at [IARSave]. *)
Definition decode_exception (op exceptReason : Z) : Z :=
  if exceptReason =? 4 then EXCEPT_CODE_INVALID_INSTRUCTION else
  if exceptReason =? 8 then EXCEPT_CODE_INVALID_FLOAT_OPERATION else
  if exceptReason =? 2 then EXCEPT_CODE_PRIVILEGED_INSTRUCTION else
  if exceptReason =? 1 then
    if negb (Z.land op 0xFFFFFF00 =? 0x0FE00000) then EXCEPT_CODE_TRAP else
    let trap_type := Z.land op 0xFF in
    if trap_type =? 0x14 then EXCEPT_CODE_DEBUG_PRINT else
    if trap_type =? 0x16 then EXCEPT_CODE_BREAKPOINT else EXCEPT_CODE_TRAP
  else EXCEPT_CODE_UNKNOWN.

(** [debug_routine_stub]: the result and the context; the text of a debug
    print goes to the hook and to the serial line. *)
Definition debug_routine_stub (code : Z) (context : CONTEXT) : Z * CONTEXT :=
  if negb (code =? EXCEPT_CODE_DEBUG_PRINT) then (0, context)
  else (1, context <| Iar ::= fun i => u64 (i + 4) |>).

Definition exception_signal (code : Z) : Z :=
  if code =? EXCEPT_CODE_INVALID_INSTRUCTION then 4 else
  if code =? EXCEPT_CODE_INVALID_FLOAT_OPERATION then 8 else
  if code =? EXCEPT_CODE_PRIVILEGED_INSTRUCTION then 4 else
  if code =? EXCEPT_CODE_SEGMENTATION_FAULT_READ then 11 else
  if code =? EXCEPT_CODE_SEGMENTATION_FAULT_WRITE then 11 else
  if code =? EXCEPT_CODE_BREAKPOINT then 5 else
  if code =? EXCEPT_CODE_TRACE then 5 else 0.

(** [while(thread->WaitingInHandler);], over only once another processor has
    cleared the field. *)
Definition wait_in_handler (thread : ptr) : MG unit :=
  wh <- thr (thread ->> WaitingInHandler) ;;
  if nz wh then blocked else ret tt.

(** [block] is the block that register 13 of the context points to. *)
Definition gdb_debug_routine (code : Z) (context : CONTEXT) (block : nat) : MG (Z * CONTEXT) :=
  let (handled, context) := debug_routine_stub code context in
  if handled =? 1 then ret (1, context) else
  set_signal (exception_signal code) ;;
  thread <- thr (pr_get block CurrentThread) ;;
  let context := if nz (Msr context) then context <| Msr ::= fun m => Z.ldiff m 0x400 |> else context in
  modify (fun s => s <| otherthread := thread |>) ;;
  halt_threads_nolock ;;
  modify (fun s => s <| running := 0 |>) ;;
  (if code =? 5 then
     thr (thread ->> WaitingInHandler <<- 1) ;;
     wait_in_handler thread
   else ret tt) ;;
  ret (1, context).

(** ** Packets over the network *)

(** What a call of [recv] that does not wait brings: nothing yet, an error of
    the connection, or some characters. *)
Inductive received_now := Again | Broken | Arrived (l : list Z).

(** The scan for the end mark: [cnt], [chksum] and the last character looked
    at, from the [n] characters before [len] on. *)
Fixpoint scan_hash (n : nat) (cnt : nat) (chksum c : Z) (buffer : list Z) : nat * Z * Z :=
  match n with
  | O => (cnt, chksum, c)
  | S n' =>
      let c := nth cnt buffer 0 in
      if c =? ch "#" then (cnt, chksum, c) else scan_hash n' (S cnt) (u8 (chksum + c)) c buffer
  end.

(** [for(i=1; i < len; i++) buffer[i - 1] = buffer[i];] *)
Definition shift_one (len : nat) (buffer : list Z) : list Z :=
  fold_left (fun b i => <[(i - 1)%nat := nth i b 0]> b) (seq 1 (len - 1)) buffer.

(** The command [?] in place of a packet. *)
Definition simulate_halt (buffer : list Z) : list Z := <[1%nat := 0]> (<[0%nat := ch "?"]> buffer).

(** The checks on the characters of a packet: the new [c], the buffer, and
    whether the checksums differ. *)
Definition net_check (len : nat) (c : Z) (buffer : list Z) : MG (Z * list Z * bool) :=
  let '(cnt, chksum, c) := scan_hash (len - 1) 1 0 c buffer in
  if negb (c =? ch "#") then ret (c, buffer, negb (chksum =? 0)) else
  if BUFMAX <=? Z.of_nat cnt + 2 then fault else
  let xmitsum := u8 (Z.shiftl (hex (Z.land (nth (cnt + 1) buffer 0) 0x7f)) 4) in
  let xmitsum := u8 (Z.lor xmitsum (hex (Z.land (nth (cnt + 2) buffer 0) 0x7f))) in
  let buffer := shift_one len (<[cnt := 0]> buffer) in
  buffer <- (if negb (chksum =? xmitsum) then net_putchar (ch "-") ;; ret buffer else
    net_putchar (ch "+") ;;
    if nth 2 buffer 0 =? ch ":" then
      net_putchar (nth 0 buffer 0) ;;
      net_putchar (nth 1 buffer 0) ;;
      ret (shift_down (strlen buffer) buffer)
    else ret buffer) ;;
  ret (c, buffer, negb (chksum =? xmitsum)).

(** [net_getpacket]: [c] is the variable [ch], which a packet of one character
    leaves as it is.  Returns the result, the buffer and what [recv] will bring
    later; the sleep between two looks at the connection changes nothing here. *)
Fixpoint net_getpacket (socket : list received_now) (c : Z) (buffer : list Z) : MG (Z * list Z * list received_now) :=
  match socket with
  | [] => blocked
  | Again :: socket =>
      s <- Prelude.get ;;
      if (active s =? 0) && (attached s =? 1) && (running s =? 0) then
        modify (fun s => s <| active := 1 |>) ;;
        ret (0, simulate_halt buffer, socket)
      else net_getpacket socket c buffer
  | Broken :: socket => ret (-1, buffer, socket)
  | Arrived l :: socket =>
      let len := List.length l in
      if BUFMAX <=? Z.of_nat len then fault else
      let buffer := <[len := 0]> (list_inserts 0 l buffer) in
      if negb (nth 0 buffer 0 =? ch "$") then
        s <- Prelude.get ;;
        if (active s =? 0) && (attached s =? 1) && (running s =? 1) then
          halt_threads ;;
          modify (fun s => s <| running := 0 |> <| active := 1 |>) ;;
          ret (0, simulate_halt buffer, socket)
        else
          (if active s =? 0 then
             modify (fun s => s <| active := 1 |>) ;;
             halt_threads ;;
             modify (fun s => s <| running := 0 |>)
           else ret tt) ;;
          modify (fun s => s <| attached := 1 |>) ;;
          net_getpacket socket c buffer
      else
        let* (c, buffer, again) := net_check len c buffer in
        if again : bool then net_getpacket socket c buffer else ret (0, buffer, socket)
  end.

End stub.
