(* ===== verification/GdbStubFacts.v ===== *)
(** * Debugger stub: stopping the threads is undone, and commands do their work *)
From S2P Require Import Prelude Bits ThreadDefs ThreadFacts ThreadApi ThreadApiFacts Mutex MutexFacts Breakpoint Examples GdbHex GdbFacts GdbStub.
From Stdlib Require Import Ascii String.
Open Scope Z_scope.
Open Scope list_scope.
Open Scope xenon_scope.

(** ** Walking through the pool *)

Definition with_threads (s : gdb) (P : pool) : gdb := s <| kernel := with_pool (kernel s) P |>.
Arguments with_threads : simpl never.
Abbreviation threads s := (ThreadPool (kernel s)).

Lemma with_threads_id s : with_threads s (threads s) = s.
Proof. destruct s as [[]]. done. Qed.

Lemma thr_get {A B} (F : THREAD -> A) (k : A -> MG B) s P i t : P !! i = Some t ->
  bind (thr (Some i ->> F)) k (with_threads s P) = k (F t) (with_threads s P).
Proof.
  intros Hi. unfold bind, thr, th_get. change (ThreadPool (kernel (with_threads s P))) with P. rewrite Hi. cbv iota beta.
  by destruct s.
Qed.

Lemma thr_set (f : THREAD -> THREAD) s P i t : P !! i = Some t ->
  thr (th_upd (Some i) f) (with_threads s P) = Ok tt (with_threads s (<[i := f t]> P)).
Proof.
  intros Hi. unfold thr, th_upd. change (ThreadPool (kernel (with_threads s P))) with P. rewrite Hi. cbv iota beta.
  rewrite <- (alter_as_insert f i P t Hi). by destruct s.
Qed.

Section pool_walk.
Context (s : gdb) (body : ptr -> MG unit) (f : THREAD -> THREAD) (good : THREAD -> Prop).
Hypothesis body_run : forall i P t, List.length P = List.length (threads s) -> P !! i = Some t -> good t ->
  body (Some i) (with_threads s P) = Ok tt (with_threads s (<[i := f t]> P)).

(** The loop does to every thread object what its body does to one. *)
Lemma for_pool_run : List.length (threads s) = MAX_THREAD_COUNT -> Forall good (threads s) ->
  for_pool body s = Ok tt (with_threads s (f <$> threads s)).
Proof.
  intros Hlen Hgood. unfold for_pool.
  assert (forall l1 l2, threads s = l1 ++ l2 ->
    for_each (seq (List.length l1) (List.length l2)) (fun i => body (thread_get_pool (Z.of_nat i))) (with_threads s ((f <$> l1) ++ l2)) =
    Ok tt (with_threads s (f <$> threads s))) as Hloop.
  { intros l1 l2. revert l1. induction l2 as [|t l2 IH]; intros l1 E.
    - cbn [List.length seq for_each]. by rewrite E, !app_nil_r.
    - cbn [List.length seq for_each].
      assert (thread_get_pool (Z.of_nat (List.length l1)) = Some (List.length l1)) as ->.
      { unfold thread_get_pool. assert (List.length l1 < MAX_THREAD_COUNT)%nat by (rewrite <- Hlen, E, length_app; cbn; lia).
        rewrite (proj2 (Z.leb_le _ _)), (proj2 (Z.ltb_lt _ _)) by lia. cbn. by rewrite Nat2Z.id. }
      erewrite bind_ok; [|apply (body_run _ _ t)].
      + rewrite insert_app_r_alt by (by rewrite length_fmap). rewrite length_fmap, Nat.sub_diag. cbn [insert list_insert].
        specialize (IH (l1 ++ [t])). rewrite length_app, Nat.add_1_r in IH. rewrite fmap_app, <- !app_assoc in IH. by apply IH.
      + rewrite E, !length_app, length_fmap. done.
      + rewrite lookup_app_r by (by rewrite length_fmap). by rewrite length_fmap, Nat.sub_diag.
      + eapply Forall_forall; [exact Hgood|]. rewrite E. set_solver. }
  specialize (Hloop [] (threads s) eq_refl). cbn [fmap list_fmap app] in Hloop. rewrite with_threads_id, Hlen in Hloop. exact Hloop.
Qed.
End pool_walk.

Lemma skip_run (s : gdb) (P : pool) i t : P !! i = Some t -> Ok tt (with_threads s P) = Ok tt (with_threads s (<[i := t]> P)).
Proof. intros Hi. by rewrite list_insert_id. Qed.

Lemma threads_with s P : threads (with_threads s P) = P.
Proof. done. Qed.

Lemma threads_flag s P : threads (with_threads s P <| threads_suspended := 1 |>) = P.
Proof. done. Qed.

Lemma with_threads_twice s P Q : with_threads (with_threads s P) Q = with_threads s Q.
Proof. by destruct s as [[]]. Qed.

(** ** Stopping and starting *)

Section halting.
Context (cstr : Z -> list Z).

(** The threads the network server must not stop. *)
Definition served (names : list (list Z)) (md : Z) (t : THREAD) : bool :=
  (md =? 1) && nz (Name t) && bool_decide (cstr (Name t) ∈ names).

(** The threads that are stopped: in use, none of the server's, no idle thread,
    and (where the stub runs as a thread) not the stub's own. *)
Definition stoppable (names : list (list Z)) (md : Z) (me : option Z) (t : THREAD) : bool :=
  nz (Valid t) && negb (default false ((fun id => ThreadId t =? id) <$> me)) && negb (served names md t) && nz (Priority t).

Definition stopped names md me (t : THREAD) : THREAD :=
  if stoppable names md me t then t <| SuspendCount ::= fun n => n + 1 |> else t.

(** A thread object as the stub may find it. *)
Definition tame (w : world) (t : THREAD) : Prop :=
  0 <= SuspendCount t < 80 /\ WaitingInHandler t = 0 /\ can_lock w (ThisProcessor t).

Lemma spared_run {B} names (k : bool -> MG B) s P i t : P !! i = Some t ->
  bind (spared cstr names (Some i)) k (with_threads s P) = k (served names (mode s) t) (with_threads s P).
Proof.
  intros Hi. unfold spared. rewrite bind_assoc, (bind_ok (gets mode) _ _ (mode s) (with_threads s P)) by done.
  rewrite bind_assoc. rewrite (thr_get _ _ _ _ _ _ Hi). done.
Qed.

Lemma thr_suspend {B} (k : Z -> MG B) s P i t : P !! i = Some t -> tame (kernel s) t ->
  bind (thr (thread_suspend (Some i))) k (with_threads s P) =
  k (SuspendCount t) (with_threads s (<[i := t <| SuspendCount ::= fun n => n + 1 |>]> P)).
Proof.
  intros Hi (Hn & _ & Hcl). unfold bind, thr.
  rewrite (suspend_run (kernel (with_threads s P)) (ThisProcessor t) i (can_lock_pool _ _ _ Hcl)) with (n := SuspendCount t)
    by (unfold fv; change (ThreadPool (kernel (with_threads s P))) with P; by rewrite Hi).
  rewrite (proj2 (Z.ltb_lt _ _)) by lia. change (ThreadPool (kernel (with_threads s P))) with P.
  rewrite (alter_as_insert _ i P t Hi), u8_small by lia. by destruct s, t.
Qed.

Lemma thr_resume {B} (k : Z -> MG B) s P i t : P !! i = Some t -> 0 < SuspendCount t < 256 -> can_lock (kernel s) (ThisProcessor t) ->
  bind (thr (thread_resume (Some i))) k (with_threads s P) =
  k (SuspendCount t) (with_threads s (<[i := t <| SuspendCount ::= fun n => n - 1 |>]> P)).
Proof.
  intros Hi Hn Hcl. unfold bind, thr.
  rewrite (resume_run (kernel (with_threads s P)) (ThisProcessor t) i (can_lock_pool _ _ _ Hcl)) with (n := SuspendCount t)
    by (unfold fv; change (ThreadPool (kernel (with_threads s P))) with P; by rewrite Hi).
  unfold nz. rewrite (proj2 (Z.eqb_neq (SuspendCount t) 0)) by lia. cbn [negb]. change (ThreadPool (kernel (with_threads s P))) with P.
  rewrite (alter_as_insert _ i P t Hi), u8_small by lia. by destruct s, t.
Qed.

(** Undoing [stopped]. *)
Definition started names md me (t : THREAD) : THREAD :=
  if stoppable names md me t then t <| SuspendCount ::= fun n => n - 1 |> else t.

Lemma stoppable_stopped names md me t : stoppable names md me (stopped names md me t) = stoppable names md me t.
Proof. unfold stopped. destruct (stoppable names md me t) eqn:E; [|done]. by destruct t. Qed.

Lemma started_stopped names md me t : started names md me (stopped names md me t) = t.
Proof.
  unfold started. rewrite stoppable_stopped. unfold stopped. destruct (stoppable names md me t); [|done].
  destruct t. unfold set. cbn. f_equal. lia.
Qed.

Lemma fmap_started_stopped names md me (P : pool) : started names md me <$> (stopped names md me <$> P) = P.
Proof. rewrite <- list_fmap_compose. rewrite <- (list_fmap_id P) at 2. apply list_fmap_ext. intros ? t _. apply started_stopped. Qed.

Section runs.
Context (s : gdb) (b : PROCESSOR) (c : nat) (me : THREAD).
Hypothesis pool_size : List.length (threads s) = MAX_THREAD_COUNT.
Hypothesis on_processor : Processors (kernel s) !! cpu (kernel s) = Some b.
Hypothesis may_lock : can_lock (kernel s) (cpu (kernel s)).
Hypothesis current : CurrentThread b = Some c.
Hypothesis current_thread : threads s !! c = Some me.
Hypothesis tame_pool : Forall (tame (kernel s)) (threads s).

Let stop := stopped servers (mode s) (Some (ThreadId me)).

Lemma current_run {B} (k : Z -> MG B) s' P : kernel s' = kernel s -> ThreadId <$> P !! c = Some (ThreadId me) ->
  bind (thr thread_get_current) (fun cur => bind (thr (cur ->> ThreadId)) k) (with_threads s' P) = k (ThreadId me) (with_threads s' P).
Proof.
  intros Hk Hp. destruct (P !! c) as [t|] eqn:Hc; [|done]. injection Hp as Ht.
  pose proof (get_current_run (kernel (with_threads s' P)) b ret) as E. change (bind thread_get_current ret) with (bind thread_get_current (fun x => ret x)) in E.
  assert (thread_get_current (kernel (with_threads s' P)) = Ok (Some c) (kernel (with_threads s' P))) as E'.
  { rewrite current in E. destruct s'. cbn in Hk. subst. specialize (E on_processor (can_lock_pool _ _ _ may_lock)).
    unfold bind, ret in E. destruct (thread_get_current _); by simplify_eq. }
  unfold bind at 1. unfold thr at 1. rewrite E'. replace (with_threads s' P <| kernel := _ |>) with (with_threads s' P) by (by destruct s').
  rewrite (thr_get _ _ _ _ _ _ Hc). by rewrite Ht.
Qed.

Lemma halt_run : threads_suspended s = 0 ->
  halt_threads cstr s = Ok tt (with_threads s (stop <$> threads s) <| threads_suspended := 1 |>).
Proof.
  intros Hts. unfold halt_threads. rewrite (bind_ok (gets threads_suspended) _ _ (threads_suspended s) s) by done. rewrite Hts. cbn [Z.eqb negb].
  rewrite <- (with_threads_id s) at 1. rewrite current_run by (done || by rewrite current_thread). rewrite with_threads_id.
  erewrite bind_ok; [reflexivity|]. apply (for_pool_run s _ _ (tame (kernel s))); [|done|done].
  intros i P t _ Hi Ht. rewrite (thr_get _ _ _ _ _ _ Hi), (thr_get _ _ _ _ _ _ Hi). unfold stop, stopped, stoppable.
  destruct (nz (Valid t)); cbn [andb negb]; [|by apply skip_run].
  cbn [fmap option_fmap option_map default from_option id]. destruct (ThreadId t =? ThreadId me); cbn [andb negb]; [by apply skip_run|].
  rewrite (spared_run _ _ _ _ _ _ Hi). destruct (served servers (mode s) t); cbn [andb negb]; [by apply skip_run|].
  rewrite (thr_get _ _ _ _ _ _ Hi). destruct (nz (Priority t)); [|by apply skip_run]. by rewrite (thr_suspend _ _ _ _ _ Hi).
Qed.

(** The objects [resume_threads] finds after [halt_threads]. *)
Definition halted (names : list (list Z)) (who : option Z) (t : THREAD) : Prop :=
  WaitingInHandler t = 0 /\ can_lock (kernel s) (ThisProcessor t) /\
  (stoppable names (mode s) who t = true -> 0 < SuspendCount t < 256).

Lemma halted_pool names who : Forall (halted names who) (stopped names (mode s) who <$> threads s).
Proof.
  apply Forall_fmap. eapply Forall_impl; [exact tame_pool|]. intros t (Hn & Hw & Hcl). unfold halted, compose.
  rewrite stoppable_stopped. unfold stopped. destruct (stoppable names (mode s) who t) eqn:E.
  - split_and!; [by destruct t|by destruct t|]. intros _. destruct t; cbn in *; lia.
  - split_and!; [done|done|done].
Qed.

Lemma resumed_run :
  resume_threads cstr (with_threads s (stop <$> threads s) <| threads_suspended := 1 |>) = Ok tt (s <| threads_suspended := 0 |>).
Proof.
  replace (with_threads s (stop <$> threads s) <| threads_suspended := 1 |>)
    with (with_threads (s <| threads_suspended := 1 |>) (stop <$> threads s)) by (by destruct s).
  set (s1 := s <| threads_suspended := 1 |>). unfold resume_threads.
  rewrite (bind_ok (gets threads_suspended) _ _ 1 (with_threads s1 (stop <$> threads s))) by (by destruct s). cbn [Z.eqb Pos.eqb negb].
  rewrite current_run; [|by destruct s|].
  2:{ rewrite list_lookup_fmap, current_thread. cbn. f_equal. unfold stop, stopped. by case_match. }
  erewrite bind_ok.
  2:{ apply (for_pool_run _ _ (started servers (mode s) (Some (ThreadId me))) (halted servers (Some (ThreadId me))));
        [|rewrite threads_with; by rewrite length_fmap|rewrite threads_with; apply halted_pool].
      intros i P t _ Hi (Hw & Hcl & Hn). rewrite !with_threads_twice.
      rewrite (thr_get _ _ _ _ _ _ Hi), (thr_get _ _ _ _ _ _ Hi). revert Hn. unfold started, stoppable. cbn [fmap option_fmap option_map default from_option id].
      destruct (nz (Valid t)); cbn [andb negb]; intros Hn; [|by apply skip_run].
      destruct (ThreadId t =? ThreadId me); cbn [andb negb] in *; [by apply skip_run|].
      rewrite (thr_get _ _ _ _ _ _ Hi). rewrite Hw. cbn [nz Z.eqb negb].
      rewrite (bind_ok (ret tt) _ _ tt (with_threads s1 P)) by done. rewrite (spared_run _ _ _ _ _ _ Hi). change (mode s1) with (mode s).
      destruct (served servers (mode s) t); cbn [andb negb] in *; [by apply skip_run|].
      rewrite (thr_get _ _ _ _ _ _ Hi). destruct (nz (Priority t)); [|by apply skip_run].
      by rewrite (thr_resume _ _ _ _ _ Hi (Hn eq_refl)). }
  rewrite with_threads_twice. rewrite threads_with. unfold stop. rewrite fmap_started_stopped.
  by destruct s as [[]].
Qed.

(** An exception stops the threads without taking the locks. *)
Lemma halt_nolock_run : threads_suspended s = 0 ->
  halt_threads_nolock cstr s =
    Ok tt (with_threads s (stopped (servers ++ [str "gdb"]) (mode s) None <$> threads s) <| threads_suspended := 1 |>).
Proof.
  intros Hts. unfold halt_threads_nolock. rewrite (bind_ok (gets threads_suspended) _ _ (threads_suspended s) s) by done. rewrite Hts. cbn [Z.eqb negb].
  erewrite bind_ok; [reflexivity|]. apply (for_pool_run s _ _ (tame (kernel s))); [|done|done].
  intros i P t _ Hi (Hn & _). rewrite (thr_get _ _ _ _ _ _ Hi). unfold stopped, stoppable. cbn [fmap option_fmap option_map default from_option id negb].
  destruct (nz (Valid t)); cbn [andb negb]; [|by apply skip_run].
  rewrite (spared_run _ _ _ _ _ _ Hi). destruct (served _ (mode s) t); cbn [andb negb]; [by apply skip_run|].
  rewrite (thr_get _ _ _ _ _ _ Hi). destruct (nz (Priority t)); cbn [negb]; [|by apply skip_run].
  rewrite (thr_get _ _ _ _ _ _ Hi), (proj2 (Z.ltb_lt _ _)), u8_small by lia.
  rewrite (thr_set _ _ _ _ _ Hi). by destruct t.
Qed.

(** Both ways stop the same threads when the stub serves the network and its
    own thread, which runs, is the one of the name "gdb". *)
Lemma stopped_agree : mode s = 1 ->
  (forall t, t ∈ threads s -> nz (Valid t) = true -> (nz (Name t) && bool_decide (cstr (Name t) = str "gdb") = (ThreadId t =? ThreadId me))) ->
  stopped (servers ++ [str "gdb"]) (mode s) None <$> threads s = stop <$> threads s.
Proof.
  intros Hm Hu. apply list_fmap_ext. intros i t Hi%list_elem_of_lookup_2. specialize (Hu t Hi). unfold stop, stopped.
  assert (stoppable (servers ++ [str "gdb"]) (mode s) None t = stoppable servers (mode s) (Some (ThreadId me)) t) as ->; [|done].
  unfold stoppable, served. cbn [fmap option_fmap option_map default from_option id negb]. rewrite Hm.
  destruct (nz (Valid t)); [|done]. rewrite <- (Hu eq_refl). cbn [andb]. destruct (nz (Name t)); cbn [andb negb Z.eqb Pos.eqb]; [|done].
  rewrite (bool_decide_ext (cstr (Name t) ∈ servers ++ [str "gdb"]) (cstr (Name t) ∈ servers \/ cstr (Name t) = str "gdb"))
    by (rewrite elem_of_app, list_elem_of_singleton; done).
  rewrite bool_decide_or. destruct (bool_decide (_ ∈ servers)), (bool_decide (_ = str "gdb")), (nz (Priority t)); done.
Qed.
End runs.
End halting.

(** ** Commands *)

(** Which command it is. *)
Ltac command :=
  repeat match goal with
  | |- context [ch ?a =? ch ?b] => let r := eval vm_compute in (ch a =? ch b) in change (ch a =? ch b) with r
  end; cbv iota.

Section commands.
Context (cstr : Z -> list Z) (empty_literal : Z) (name_memory : nat -> list Z).

(** A state in which the stub can stop threads: it runs as the thread [me], no
    lock it needs is taken, no thread waits in an exception handler or is
    suspended as often as it can be. *)
Record stub_ready (s : gdb) (b : PROCESSOR) (c : nat) (me : THREAD) : Prop := {
  sr_size : List.length (threads s) = MAX_THREAD_COUNT;
  sr_proc : Processors (kernel s) !! cpu (kernel s) = Some b;
  sr_lock : can_lock (kernel s) (cpu (kernel s));
  sr_current : CurrentThread b = Some c;
  sr_thread : threads s !! c = Some me;
  sr_tame : Forall (tame (kernel s)) (threads s)
}.

(** The program is held: every thread in use but the stub's own, the
    network's and the idle ones is suspended once more than in [s], the other
    objects and the rest of the thread library are as in [s]. *)
Record held (me : THREAD) (s s1 : gdb) : Prop := {
  held_flag : threads_suspended s1 = 1;
  held_mode : mode s1 = mode s;
  held_kernel : kernel s1 = with_pool (kernel s) (threads s1);
  held_size : List.length (threads s1) = List.length (threads s);
  held_thread : forall i t, threads s !! i = Some t -> threads s1 !! i = Some
    (if nz (Valid t) && negb (ThreadId t =? ThreadId me) && negb (served cstr servers (mode s) t) && nz (Priority t)
     then t <| SuspendCount := SuspendCount t + 1 |> else t)
}.

Lemma held_stopped me s s1 : threads_suspended s1 = 1 -> mode s1 = mode s ->
  kernel s1 = with_pool (kernel s) (stopped cstr servers (mode s) (Some (ThreadId me)) <$> threads s) -> held me s s1.
Proof.
  intros Ht Hm Hk. assert (threads s1 = stopped cstr servers (mode s) (Some (ThreadId me)) <$> threads s) as E by (by rewrite Hk).
  split; [done|done|by rewrite E|by rewrite E, length_fmap|rewrite E].
  intros i t Hi. rewrite list_lookup_fmap, Hi. cbn [fmap option_fmap option_map]. done.
Qed.

(** The pool of a held program is the one the stop has made. *)
Lemma stopped_held me s s1 : held me s s1 -> threads s1 = stopped cstr servers (mode s) (Some (ThreadId me)) <$> threads s.
Proof.
  intros [_ _ _ Hl Ht]. apply list_eq. intros i. rewrite list_lookup_fmap. destruct (threads s !! i) as [t|] eqn:Hi.
  - rewrite (Ht i t Hi). done.
  - apply lookup_ge_None in Hi. apply lookup_ge_None. cbn. lia.
Qed.

(** The command to continue lets the threads go. *)
Lemma continue_run s b c me buffer s1 : stub_ready s b c me -> held me s s1 -> nth 0 buffer 0 = ch "c" ->
  parse_cmd cstr empty_literal name_memory buffer s1 =
    Ok 0 (s1 <| active := 0 |> <| running := 1 |> <| signal := 3 |> <| kernel := kernel s |> <| threads_suspended := 0 |>).
Proof.
  intros [] Hh Hb. pose proof (stopped_held _ _ _ Hh) as Hp. destruct Hh as [Hts Hm Hk _ _].
  unfold parse_cmd. rewrite Hb. command.
  set (s2 := s1 <| active := 0 |> <| running := 1 |> <| signal := 3 |>). rewrite (bind_ok _ _ _ tt s2) by done.
  set (s3 := s2 <| kernel := kernel s |> <| threads_suspended := 1 |>).
  pose proof (resumed_run cstr s3 b c me sr_size0 sr_proc0 sr_lock0 sr_current0 sr_thread0 sr_tame0) as E.
  assert (mode s3 = mode s /\ threads s3 = threads s) as [E1 E2] by (split; [exact Hm|reflexivity]). rewrite E1, E2, <- Hp in E.
  assert (with_threads s3 (threads s1) <| threads_suspended := 1 |> = s2) as E3.
  { unfold s3, s2, with_threads. clear E E1 E2 s3 s2 Hp Hm. destruct s1 as [k ? ? ts]. cbn in Hk, Hts |- *. subst ts. cbn. by f_equal. }
  rewrite E3 in E.
  rewrite (bind_ok _ _ _ _ _ E). by destruct s1.
Qed.

Lemma break_holds s b c me socket last buffer : stub_ready s b c me -> threads_suspended s = 0 ->
  active s = 0 -> attached s = 1 -> running s = 1 ->
  runs (net_getpacket cstr (Arrived [3] :: socket) last buffer) s (fun r s1 => held me s s1 /\
    exists buffer', r = (0, buffer', socket) /\ active s1 = 1 /\ running s1 = 0 /\ sent s1 = sent s).
Proof.
  intros [] Hts Ha Hat Hrun. unfold runs. cbn [net_getpacket List.length]. change (BUFMAX <=? Z.of_nat 1) with false. cbv iota zeta.
  set (buf := <[1%nat := 0]> _). assert (nth 0 buf 0 =? ch "$" = false) as ->.
  { unfold buf. by destruct buffer as [|? [|? ?]]. }
  cbn [negb]. rewrite (bind_ok Prelude.get _ _ s s) by done. rewrite Ha, Hat, Hrun. cbn [Z.eqb Pos.eqb andb].
  rewrite (bind_ok _ _ _ _ _ (halt_run cstr s b c me sr_size0 sr_proc0 sr_lock0 sr_current0 sr_thread0 sr_tame0 Hts)).
  eexists _, _. split; [reflexivity|]. split; [by apply held_stopped; destruct s|]. by eexists; destruct s.
Qed.

Lemma packet_holds s b c me buffer : stub_ready s b c me -> threads_suspended s = 0 -> active s = 0 ->
  exists s1, held me s s1 /\ active s1 = 1 /\ sent s1 = sent s /\
    serve_packet cstr empty_literal name_memory buffer s = (parse_cmd cstr empty_literal name_memory buffer ;; ret tt) s1.
Proof.
  intros [] Hts Ha. unfold serve_packet. rewrite (bind_ok (gets active) _ _ 0 s) by (unfold gets; by rewrite Ha).
  cbn [nz Z.eqb negb]. rewrite bind_assoc.
  rewrite (bind_ok _ _ _ _ _ (halt_run cstr s b c me sr_size0 sr_proc0 sr_lock0 sr_current0 sr_thread0 sr_tame0 Hts)).
  set (s1 := _ <| threads_suspended := 1 |>). exists (s1 <| active := 1 |>). split; [by apply held_stopped|]. split; [done|]. split; [done|].
  by rewrite (bind_ok (modify _) _ _ tt (s1 <| active := 1 |>)).
Qed.

Lemma exception_holds s b c me code context block p : stub_ready s b c me -> threads_suspended s = 0 -> mode s = 1 ->
  (forall t, t ∈ threads s -> nz (Valid t) = true ->
     nz (Name t) && bool_decide (cstr (Name t) = str "gdb") = (ThreadId t =? ThreadId me)) ->
  code ∈ [0; 2; 3; 4; 6; 7; 8; 9] -> Processors (kernel s) !! block = Some p ->
  runs (gdb_debug_routine cstr code context block) s (fun r s1 => held me s s1 /\
    r = (1, context <| Msr := Z.ldiff (Msr context) 0x400 |>) /\ otherthread s1 = CurrentThread p /\ running s1 = 0 /\
    (code, signal s1) ∈ [(0, 0); (2, 0); (3, 4); (4, 8); (6, 11); (7, 11); (8, 5); (9, 5)]).
Proof.
  intros [] Hts Hm Hu Hc Hp. unfold runs, gdb_debug_routine.
  assert (debug_routine_stub code context = (0, context)) as ->.
  { unfold debug_routine_stub, EXCEPT_CODE_DEBUG_PRINT. rewrite (proj2 (Z.eqb_neq code 1)) by set_solver. done. }
  cbv iota beta. change (0 =? 1) with false. cbv iota. set (s0 := s <| signal := exception_signal code |>).
  rewrite (bind_ok (set_signal _) _ _ tt s0) by done.
  rewrite (bind_ok (thr _) _ _ (CurrentThread p) s0).
  2:{ unfold thr, pr_get. change (kernel s0) with (kernel s). rewrite Hp. by destruct s. }
  set (s2 := s0 <| otherthread := CurrentThread p |>). rewrite (bind_ok (modify _) _ _ tt s2) by done.
  rewrite (bind_ok _ _ _ _ _ (halt_nolock_run cstr s2 sr_size0 sr_tame0 Hts)).
  change (mode s2) with (mode s). change (threads s2) with (threads s). rewrite (stopped_agree cstr s me Hm Hu).
  set (s3 := _ <| threads_suspended := 1 |>). rewrite (bind_ok (modify _) _ _ tt (s3 <| running := 0 |>)) by done.
  rewrite (proj2 (Z.eqb_neq code 5)) by set_solver. eexists _, _. split; [reflexivity|]. split; [by apply held_stopped|].
  split_and!; [|done|done|].
  - f_equal. unfold nz. destruct (Z.eqb_spec (Msr context) 0) as [E|]; cbn [negb]; [|by destruct context].
    destruct context. cbn in E |- *. by subst.
  - rewrite !elem_of_cons in Hc. change (signal (s3 <| running := 0 |>)) with (exception_signal code).
    decompose [or] Hc; subst; vm_compute; repeat constructor; set_solver.
Qed.

(** The thread of a privileged instruction spins in the handler. *)
Lemma exception_waits s b c me context block p i t : stub_ready s b c me -> threads_suspended s = 0 ->
  Processors (kernel s) !! block = Some p -> CurrentThread p = Some i -> threads s !! i = Some t ->
  gdb_debug_routine cstr 5 context block s = Blocked.
Proof.
  intros [] Hts Hp Hi Ht. unfold gdb_debug_routine. change (debug_routine_stub 5 context) with (0, context).
  cbv iota beta. change (0 =? 1) with false. cbv iota. set (s0 := s <| signal := exception_signal 5 |>).
  rewrite (bind_ok (set_signal _) _ _ tt s0) by done. rewrite (bind_ok (thr _) _ _ (CurrentThread p) s0).
  2:{ unfold thr, pr_get. change (kernel s0) with (kernel s). rewrite Hp. by destruct s. }
  rewrite Hi. set (s2 := s0 <| otherthread := Some i |>). rewrite (bind_ok (modify _) _ _ tt s2) by done.
  rewrite (bind_ok _ _ _ _ _ (halt_nolock_run cstr s2 sr_size0 sr_tame0 Hts)).
  change (mode s2) with (mode s). change (threads s2) with (threads s). set (f := stopped _ _ _ _).
  rewrite (bind_ok (modify _) _ _ tt (with_threads (s2 <| threads_suspended := 1 |> <| running := 0 |>) (f <$> threads s))) by (by destruct s).
  change (5 =? 5) with true. cbv iota. rewrite !bind_assoc.
  assert ((f <$> threads s) !! i = Some (f t)) as Hf by (by rewrite list_lookup_fmap, Ht).
  rewrite (bind_ok _ _ _ _ _ (thr_set _ _ _ _ _ Hf)). unfold wait_in_handler. rewrite bind_assoc.
  erewrite thr_get by (apply list_lookup_insert_eq; by eapply lookup_lt_Some). done.
Qed.

(** C20: the debugger stops and continues the program.  With the stub serving
    the network, no thread waiting in an exception handler, none suspended 80
    times already, and the stub's own thread the only one of the name "gdb",
    the program is held the same way by a break that arrives from the network
    while the program runs, by [serve_packet] before it looks at the first
    packet, and by an exception of any kind but two, for which
    [gdb_debug_routine] records the thread and the signal, clears the step bit
    and returns.  (The print of a text is no stop, and the thread of a
    privileged instruction spins in the handler: [Blocked].)
    Held means that each thread in use but the stub's, the
    network's and the idle ones is suspended once more, and so cannot run, and
    nothing else of the threads changes.  Stopping again changes nothing, and
    the command to continue puts every thread object, and with them the whole
    state of the thread library, back exactly as it was. *)
Theorem gdb_stop_and_go s b c me : stub_ready s b c me -> threads_suspended s = 0 -> mode s = 1 ->
  (forall t, t ∈ threads s -> nz (Valid t) = true ->
     nz (Name t) && bool_decide (cstr (Name t) = str "gdb") = (ThreadId t =? ThreadId me)) ->
  (forall socket last buffer, active s = 0 -> attached s = 1 -> running s = 1 ->
     runs (net_getpacket cstr (Arrived [3] :: socket) last buffer) s (fun r s1 => held me s s1 /\
       exists buffer', r = (0, buffer', socket) /\ active s1 = 1 /\ running s1 = 0 /\ sent s1 = sent s)) /\
  (forall buffer, active s = 0 -> exists s1, held me s s1 /\ active s1 = 1 /\ sent s1 = sent s /\
     serve_packet cstr empty_literal name_memory buffer s = (parse_cmd cstr empty_literal name_memory buffer ;; ret tt) s1) /\
  (forall code context block p, code ∈ [0; 2; 3; 4; 6; 7; 8; 9] -> Processors (kernel s) !! block = Some p ->
     runs (gdb_debug_routine cstr code context block) s (fun r s1 => held me s s1 /\
       r = (1, context <| Msr := Z.ldiff (Msr context) 0x400 |>) /\ otherthread s1 = CurrentThread p /\ running s1 = 0 /\
       (code, signal s1) ∈ [(0, 0); (2, 0); (3, 4); (4, 8); (6, 11); (7, 11); (8, 5); (9, 5)])) /\
  (forall context block p i t, Processors (kernel s) !! block = Some p -> CurrentThread p = Some i -> threads s !! i = Some t ->
     gdb_debug_routine cstr 5 context block s = Blocked) /\
  (forall s1 buffer, held me s s1 -> nth 0 buffer 0 = ch "c" ->
     halt_threads cstr s1 = Ok tt s1 /\ halt_threads_nolock cstr s1 = Ok tt s1 /\
     runs (parse_cmd cstr empty_literal name_memory buffer) s1 (fun r s2 => r = 0 /\
       kernel s2 = kernel s /\ threads_suspended s2 = 0 /\ active s2 = 0 /\ running s2 = 1 /\ bps s2 = bps s1 /\ sent s2 = sent s1)).
Proof.
  intros Hr Hts Hm Hu. split_and!.
  - intros socket last buffer Ha Hat Hrun. by eapply break_holds.
  - intros buffer Ha. by eapply packet_holds.
  - intros code context block p Hc Hp. by eapply exception_holds.
  - intros context block p i t Hp Hi Ht. by eapply exception_waits.
  - intros s1 buffer Hh Hb. split_and!.
    + unfold halt_threads. by rewrite (bind_ok (gets threads_suspended) _ _ 1 s1) by (by rewrite <- (held_flag _ _ _ Hh)).
    + unfold halt_threads_nolock. by rewrite (bind_ok (gets threads_suspended) _ _ 1 s1) by (by rewrite <- (held_flag _ _ _ Hh)).
    + unfold runs. rewrite (continue_run _ _ _ _ _ _ Hr Hh Hb). eexists _, _. split; [reflexivity|]. by destruct s1.
Qed.

(** *** Breakpoints and memory *)

Section memory.
Context (O : gmap Z Z) (stale : list Z).
Abbreviation parse := (parse_cmd cstr empty_literal name_memory).

(** The command that sets ([true]) or removes a breakpoint, in the buffer. *)
Definition break_command (c : bool * Z) : list Z := zpacket (if c.1 then ch "Z" else ch "z") 0 (s32 c.2) 4 ++ 0 :: stale.
Definition break_op (c : bool * Z) : bp_op := if c.1 then Set_bp c.2 else Remove_bp c.2.
Definition reply (l : list Z) (s : gdb) : gdb := s <| sent ::= fun t => t ++ [l] |>.

Lemma brk_run {A} (m : M bp_state A) s r b : m (bps s) = Ok r b -> brk m s = Ok r (s <| bps := b |>).
Proof. intros H. unfold brk. by rewrite H. Qed.

Lemma parse_z_run act c s b : 0 <= c.2 < 2 ^ 32 -> act c.2 (bps s) = Ok tt b ->
  parse_z act (break_command c) s = Ok tt (reply (str "OK") (s <| bps := b |>)).
Proof.
  intros Hc Hact. unfold parse_z, break_command.
  rewrite parsezbreak_zpacket by (apply s32_range || unfold is_nibble; lia || done). rewrite u32_s32 by done. cbv iota beta.
  change (negb (0 =? 0)) with false. change (4 <? 4) with false. cbv iota. by rewrite (bind_ok _ _ _ _ _ (brk_run _ _ _ _ Hact)).
Qed.

Lemma break_run T s c : bp_inv O T (bps s) -> is_Some (O !! c.2) -> 0 <= c.2 < 2 ^ 32 ->
  exists b, parse (break_command c) s = Ok 0 (reply (str "OK") (s <| bps := b |>)) /\ bp_inv O (bp_spec (break_op c) T) b.
Proof.
  intros Hi Ho Hc. destruct c as [[] a]; cbn [fst snd] in *; unfold break_op; cbn [fst snd].
  - destruct (set_run O T (bps s) a Hi Ho) as ([] & b & E & Hb). exists b. split; [|done].
    unfold parse_cmd. change (nth 0 (break_command (true, a)) 0) with (ch "Z"). command.
    by rewrite (bind_ok _ _ _ _ _ (parse_z_run set_breakpoint (true, a) s b Hc E)).
  - destruct (remove_run O T (bps s) a Hi Ho) as ([] & b & E & Hb). exists b. split; [|done].
    unfold parse_cmd. change (nth 0 (break_command (false, a)) 0) with (ch "z"). command.
    by rewrite (bind_ok _ _ _ _ _ (parse_z_run remove_breakpoint (false, a) s b Hc E)).
Qed.

Lemma breaks_run cmds : forall T s, bp_inv O T (bps s) -> Forall (fun c => is_Some (O !! c.2) /\ 0 <= c.2 < 2 ^ 32) cmds ->
  exists b, for_each cmds (fun c => parse (break_command c) ;; ret tt) s =
    Ok tt (s <| bps := b |> <| sent := sent s ++ replicate (List.length cmds) (str "OK") |>) /\
    bp_inv O (fold_left (fun T c => bp_spec (break_op c) T) cmds T) b.
Proof.
  induction cmds as [|c cmds IH]; intros T s Hi Hc; cbn [for_each fold_left List.length replicate].
  - exists (bps s). split; [|done]. rewrite app_nil_r. by destruct s.
  - inversion_clear Hc as [|? ? [Ho Hr] Hc']. destruct (break_run T s c Hi Ho Hr) as (b & E & Hb).
    pose (s1 := reply (str "OK") (s <| bps := b |>)). destruct (IH (bp_spec (break_op c) T) s1 Hb Hc') as (b' & E' & Hb'). exists b'.
    rewrite bind_assoc, (bind_ok _ _ _ _ _ E), (bind_ok (ret tt) _ _ tt _ eq_refl). split; [|done].
    etrans; [exact E'|]. unfold s1. destruct s. cbn. by rewrite <- app_assoc.
Qed.

Lemma byte_at_some m a : is_Some (m !! (a - a mod 4)) -> exists c, byte_at m a = Some c /\ is_byte c.
Proof.
  intros [w Hw]. unfold byte_at. rewrite Hw. eexists. split; [done|]. pose proof (Z.mod_pos_bound a 4 ltac:(lia)).
  assert (a mod 4 = 0 \/ a mod 4 = 1 \/ a mod 4 = 2 \/ a mod 4 = 3) as [-> | [-> | [-> | ->]]] by lia; apply u8_range.
Qed.

Lemma bytes_at_run a n s : (forall k, (k < n)%nat -> is_Some (code (bps s) !! (a + Z.of_nat k - (a + Z.of_nat k) mod 4))) ->
  exists l, bytes_at a n s = Ok l s /\ List.length l = n /\ Forall is_byte l /\
    forall k, (k < n)%nat -> l !! k = byte_at (code (bps s)) (a + Z.of_nat k).
Proof.
  intros H. unfold bytes_at. destruct (mapM _ (seq 0 n)) as [l|] eqn:E.
  - exists l. apply mapM_Some in E. split; [done|]. pose proof (Forall2_length _ _ _ E) as Hl. rewrite length_seq in Hl. split; [done|].
    assert (forall k, (k < n)%nat -> l !! k = byte_at (code (bps s)) (a + Z.of_nat k)) as Hk.
    { intros k Hk. destruct (lookup_lt_is_Some_2 l k) as [c Hc]; [lia|]. rewrite Hc. symmetry.
      eapply (Forall2_lookup_lr _ _ _ _ k c E); [|done]. by apply lookup_seq_lt. }
    split; [|done]. apply Forall_lookup. intros k c Hc. pose proof (lookup_lt_Some _ _ _ Hc) as Hlt.
    destruct (byte_at_some (code (bps s)) (a + Z.of_nat k)) as (c' & E' & Hb); [apply H; lia|]. rewrite Hk, E' in Hc by lia. by simplify_eq.
  - exfalso. apply mapM_None, Exists_exists in E as (k & Hin & Hk). apply elem_of_seq in Hin.
    destruct (byte_at_some (code (bps s)) (a + Z.of_nat k)) as (c & E' & _); [apply H; lia|congruence].
Qed.

Lemma read_run a len s : ptr_seems_valid a = true -> 0 <= len < 2 ^ 31 ->
  parse (mpacket (s32 a) len ++ 0 :: stale) s =
    if BUFMAX <? 2 * len + 1 then Fault else
    (mem <- bytes_at a (Z.to_nat len) ;; putpacket (mem2hstr mem) ;; ret 0) s.
Proof.
  intros Ha Hl. assert (0 <= a < 2 ^ 32) as Har.
  { unfold ptr_seems_valid in Ha. apply andb_prop in Ha as [H1%Z.leb_le H2%Z.ltb_lt]. lia. }
  unfold parse_cmd, mpacket. rewrite <- app_comm_cons. change (nth 0 (?c :: _) 0) with c. command.
  unfold parse_m. rewrite skipn_cons, drop_0, <- app_assoc, <- app_comm_cons.
  destruct (hexToInt_int2vhstr (s32 a) (ch "," :: int2vhstr len ++ 0 :: stale) (s32_range a)) as (c1 & E1 & H1); [reflexivity|].
  destruct (hexToInt_int2vhstr len (0 :: stale) ltac:(lia)) as (c2 & E2 & H2); [reflexivity|].
  rewrite E1. cbv iota beta. rewrite (proj2 (Z.eqb_neq c1 0)) by lia. rewrite peek_cons, tl_cons, Z.eqb_refl. cbn [negb].
  rewrite E2. cbv iota beta. rewrite (proj2 (Z.eqb_neq c2 0)), u32_s32, Ha by lia. cbn [negb].
  destruct (BUFMAX <? 2 * len + 1); [done|]. by rewrite bind_assoc.
Qed.

(** C28: the debugger works on the program's memory.  After any commands that
    set and remove breakpoints at addresses of the program, all answered "OK",
    a command that reads memory of the program is answered with the bytes that
    are there: those of the program, with the breakpoint instruction in place
    of the instructions at the breakpoints that are set.  The answer is as long as
    asked for, up to 1021 bytes; for 1022 and 1023 bytes the answer still fits
    the command's buffer and its frame overruns the one it is sent from, and
    for more the answer itself overruns the command's buffer. *)
Theorem gdb_memory_session cmds T s a len :
  bp_inv O T (bps s) -> Forall (fun c => is_Some (O !! c.2) /\ 0 <= c.2 < 2 ^ 32) cmds ->
  ptr_seems_valid a = true -> 0 <= len < 2 ^ 31 ->
  (forall k, 0 <= k < len -> is_Some (O !! (a + k - (a + k) mod 4))) ->
  let session := (for_each cmds (fun c => parse (break_command c) ;; ret tt) ;; parse (mpacket (s32 a) len ++ 0 :: stale)) in
  let T' := fold_left (fun T c => bp_spec (break_op c) T) cmds T in
  if 1021 <? len then session s = Fault
  else runs session s (fun r s' => r = 0 /\ exists answer,
    sent s' = sent s ++ replicate (List.length cmds) (str "OK") ++ [answer] /\
    Z.of_nat (List.length answer) = 2 * len /\
    forall k, 0 <= k < len -> hstr2byte (drop (Z.to_nat (2 * k)) answer) = byte_at (patched O T') (a + k)).
Proof.
  intros Hi Hc Ha Hl Hmem session T'. destruct (breaks_run cmds T s Hi Hc) as (b & E & Hb). fold T' in Hb.
  set (s1 := _ <| sent := _ |>) in E. unfold session, runs. rewrite (bind_ok _ _ _ _ _ E), read_run by done. unfold BUFMAX.
  assert (code (bps s1) = patched O T') as Hcode by apply Hb.
  assert (2048 < 2 * len + 1 \/ exists l, bytes_at a (Z.to_nat len) s1 = Ok l s1 /\ List.length l = Z.to_nat len /\ Forall is_byte l /\
    forall k, (k < Z.to_nat len)%nat -> l !! k = byte_at (code (bps s1)) (a + Z.of_nat k)) as [Hlong|(l & El & Hlen & Hby & Hk)].
  { destruct (Z.ltb_spec 2048 (2 * len + 1)); [by left|right]. apply bytes_at_run.
    intros k Hk. rewrite Hcode, patched_lookup. destruct (Hmem (Z.of_nat k) ltac:(lia)) as [v ->]. by eexists. }
  { rewrite (proj2 (Z.ltb_lt _ _) Hlong), (proj2 (Z.ltb_lt 1021 len)) by lia. done. }
  destruct (Z.ltb_spec 2048 (2 * len + 1)) as [Hlong|Hfits]; [by rewrite (proj2 (Z.ltb_lt 1021 len)) by lia|].
  rewrite (bind_ok _ _ _ _ _ El). unfold putpacket, BUFMAX. rewrite mem2hstr_length, Hlen.
  assert ((2048 <? Z.of_nat (2 * Z.to_nat len) + 5) = (1021 <? len)) as ->
    by (destruct (Z.ltb_spec 1021 len), (Z.ltb_spec 2048 (Z.of_nat (2 * Z.to_nat len) + 5)); lia || done).
  destruct (Z.ltb_spec 1021 len) as [Hlong|Hshort]; [done|].
  eexists 0, _. split; [reflexivity|]. split; [done|]. exists (mem2hstr l). split_and!.
  - cbn. by rewrite <- app_assoc.
  - rewrite mem2hstr_length, Hlen. lia.
  - intros k Hk0. specialize (Hk (Z.to_nat k) ltac:(lia)). rewrite Z2Nat.id, Hcode in Hk by lia. rewrite <- Hk.
    destruct (lookup_lt_is_Some_2 l (Z.to_nat k) ltac:(lia)) as [c Hc']. rewrite Hc'.
    replace (Z.to_nat (2 * k)) with (2 * Z.to_nat k)%nat by lia. rewrite <- (app_nil_r (mem2hstr l)). by apply mem2hstr_bytes.
Qed.
End memory.
End commands.

(** *** A console under the debugger *)

Definition gdb_pool : pool :=
  [demo_thread 0 (Some 1%nat) (Some 2%nat) 0 0; demo_thread 1 (Some 2%nat) (Some 0%nat) 7 0 <| Name := 1 |>;
   demo_thread 2 (Some 0%nat) (Some 1%nat) 7 0] ++ replicate 253 THREAD_zero.
Definition gdb_demo : gdb := mkGdb (demo <| ThreadPool := gdb_pool |>) (mkBPs [] ∅) 1 0 1 1 0 5 (Some 0%nat) (Some 0%nat) [].
Definition gdb_names (p : Z) : list Z := if p =? 1 then str "gdb" else [].

Lemma gdb_pool_all (Q : THREAD -> Prop) :
  Q (demo_thread 0 (Some 1%nat) (Some 2%nat) 0 0) -> Q (demo_thread 1 (Some 2%nat) (Some 0%nat) 7 0 <| Name := 1 |>) ->
  Q (demo_thread 2 (Some 0%nat) (Some 1%nat) 7 0) -> Q THREAD_zero -> Forall Q gdb_pool.
Proof. intros. unfold gdb_pool. apply Forall_app. split; [by repeat constructor|by apply Forall_replicate]. Qed.

Lemma gdb_demo_ready : stub_ready gdb_demo demo_block 1 (demo_thread 1 (Some 2%nat) (Some 0%nat) 7 0 <| Name := 1 |>).
Proof.
  split; try reflexivity; [apply (can_lock_pool demo 0 gdb_pool demo_can_lock)|].
  apply gdb_pool_all; (split; [cbn; lia|split; [reflexivity|apply (can_lock_pool demo 0 gdb_pool demo_can_lock)]]).
Qed.

Lemma breakpoint_signal v : (8, v) ∈ [(0, 0); (2, 0); (3, 4); (4, 8); (6, 11); (7, 11); (8, 5); (9, 5)] -> v = 5.
Proof. set_solver. Qed.

(** An exception at a breakpoint holds the demo program, a continue lets it go. *)
Lemma gdb_stop_and_go_demo :
  exists s1, gdb_debug_routine gdb_names 8 (CONTEXT_zero <| Msr := 0x8400 |>) 0 gdb_demo = Ok (1, CONTEXT_zero <| Msr := 0x8000 |>) s1 /\
    SuspendCount <$> threads s1 !! 2%nat = Some 1 /\ signal s1 = 5 /\
    exists s2, parse_cmd gdb_names 0 (fun _ => []) (str "c") s1 = Ok 0 s2 /\ kernel s2 = kernel gdb_demo.
Proof.
  destruct (gdb_stop_and_go gdb_names 0 (fun _ => []) gdb_demo _ _ _ gdb_demo_ready) as (_ & _ & He & _ & Hg);
    [reflexivity|reflexivity| |].
  - refine (proj1 (Forall_forall (fun t => nz (Valid t) = true ->
      nz (Name t) && bool_decide (gdb_names (Name t) = str "gdb") = (ThreadId t =? 1)) gdb_pool) _). apply gdb_pool_all; vm_compute; try reflexivity; discriminate.
  - destruct (He 8 (CONTEXT_zero <| Msr := 0x8400 |>) 0%nat demo_block) as (r & s1 & E & Hh & -> & _ & _ & Hs); [set_solver|reflexivity|].
    exists s1. split; [exact E|]. split; [exact (f_equal (fmap SuspendCount) (held_thread _ _ _ _ Hh 2%nat (demo_thread 2 (Some 0%nat) (Some 1%nat) 7 0) eq_refl))|].
    split; [|destruct (Hg s1 (str "c") Hh eq_refl) as (_ & _ & r & s2 & E2 & -> & Hk & _); exact (ex_intro _ s2 (conj E2 Hk))].
    exact (breakpoint_signal _ Hs).
Defined.

(** Where the count of suspensions is at its limit, the stop leaves it and the
    continue takes one off: the object is not put back. *)
Lemma limit_not_restored :
  let full := gdb_demo <| kernel ::= set ThreadPool (alter (set SuspendCount (fun _ => 80)) 2%nat) |> in
  exists s1 s2, halt_threads gdb_names full = Ok tt s1 /\ SuspendCount <$> threads s1 !! 2%nat = Some 80 /\
    parse_cmd gdb_names 0 (fun _ => []) (str "c") s1 = Ok 0 s2 /\ SuspendCount <$> threads s2 !! 2%nat = Some 79.
Proof.
  eexists _, _. split; [vm_compute; reflexivity|]. split; [vm_compute; reflexivity|].
  split; [vm_compute; reflexivity|vm_compute; reflexivity].
Qed.

Definition gdb_program : gmap Z Z := {[ 0x80000000 := 0x38600001; 0x80000004 := 0x4E800020 ]}.
Definition gdb_debugged : gdb := gdb_demo <| bps := bp_init gdb_program |>.

Lemma gdb_memory_session_demo :
  exists s' answer, (for_each [(true, 0x80000000); (true, 0x80000004); (false, 0x80000000)]
      (fun c => parse_cmd gdb_names 0 (fun _ => []) (break_command [] c) ;; ret tt) ;;
    parse_cmd gdb_names 0 (fun _ => []) (mpacket (s32 0x80000000) 8 ++ [0])) gdb_debugged = Ok 0 s' /\
    sent s' = [str "OK"; str "OK"; str "OK"; answer] /\ hstr2byte (drop 14 answer) = Some 0x16.
Proof.
  pose proof (gdb_memory_session gdb_names 0 (fun _ => []) gdb_program [] [(true, 0x80000000); (true, 0x80000004); (false, 0x80000000)]
    ∅ gdb_debugged 0x80000000 8 (bp_init_inv _)) as H.
  destruct H as (r & s' & E & -> & answer & Hs & _ & Hk).
  - repeat constructor; try (by eexists); cbn; lia.
  - reflexivity.
  - lia.
  - intros k Hk. assert (0x80000000 + k - (0x80000000 + k) mod 4 = 0x80000000 \/ 0x80000000 + k - (0x80000000 + k) mod 4 = 0x80000004) as [-> | ->];
      [|by eexists..].
    assert (k = 0 \/ k = 1 \/ k = 2 \/ k = 3 \/ k = 4 \/ k = 5 \/ k = 6 \/ k = 7) as Hc by lia. decompose [or] Hc; subst; auto.
  - exists s', answer. split; [exact E|]. split; [exact Hs|]. etransitivity; [exact (Hk 7 ltac:(lia))|]. vm_compute. reflexivity.
Defined.
