(* ===== verification/Elf.v ===== *)
(** * ELF loader [drivers/elf/elf.c], arguments at start-up [startup/xenon]

    Memory is a function from addresses to bytes; addresses and the fields of
    the headers are 32 bits, most significant byte first.  A count that does
    not fit an [int] is [Fault], and the loader's refusal to go on, an endless
    loop, is [Blocked].  What the loader prints on the serial line is not part
    of the state; offsets that would run over the end of the address space are
    not wrapped around; a flush of the caches is the list of the lines it flushes. *)
From S2P Require Import Prelude Bits.
From Stdlib Require Import Ascii String.
Open Scope Z_scope.
Open Scope list_scope.
Open Scope xenon_scope.

(** ** Memory *)

Definition mem : Type := Z -> Z.
Definition mem_set (m : mem) (a v : Z) : mem := fun x => if x =? a then v else m x.
Definition get16 (m : mem) (a : Z) : Z := m a * 2 ^ 8 + m (a + 1).
Definition get32 (m : mem) (a : Z) : Z := get_be (m a) (m (a + 1)) (m (a + 2)) (m (a + 3)).

(** Bytes stored from [a] on. *)
Fixpoint mem_write (m : mem) (a : Z) (l : list Z) : mem :=
  match l with
  | [] => m
  | v :: l' => mem_write (mem_set m a v) (a + 1) l'
  end.

Definition ME (A : Type) : Type := M mem A.

Fixpoint set_bytes (m : mem) (dst v : Z) (n : nat) : mem :=
  match n with O => m | S n' => set_bytes (mem_set m dst (u8 v)) (dst + 1) v n' end.
Fixpoint copy_bytes (m : mem) (dst src : Z) (n : nat) : mem :=
  match n with O => m | S n' => copy_bytes (mem_set m dst (m src)) (dst + 1) (src + 1) n' end.

(** [while (l--)]: a negative [l] never gets to zero. *)
Definition elf_memset (dst v l : Z) : ME unit :=
  if s32 l <? 0 then fault else modify (fun m => set_bytes m dst v (Z.to_nat (s32 l))).
Definition elf_memcpy (dst src l : Z) : ME unit :=
  if s32 l <? 0 then fault else modify (fun m => copy_bytes m dst src (Z.to_nat (s32 l))).

Definition LINESIZE : Z := 128.
(** The lines [elf_sync_before_exec] flushes. *)
Definition elf_sync_before_exec (dst l : Z) : list Z :=
  let dst := Z.ldiff dst (LINESIZE - 1) in
  let l := Z.ldiff (s32 (l + (LINESIZE - 1))) (LINESIZE - 1) in
  (fun k => dst + LINESIZE * Z.of_nat k) <$> seq 0 (Z.to_nat (l / LINESIZE)).

(** ** Headers *)

Definition e_entry (m : mem) (addr : Z) : Z := get32 m (addr + 24).
Definition e_shoff (m : mem) (addr : Z) : Z := get32 m (addr + 32).
Definition e_shnum (m : mem) (addr : Z) : Z := get16 m (addr + 48).

Record Elf32_Shdr := mkShdr { sh_type : Z; sh_flags : Z; sh_addr : Z; sh_offset : Z; sh_size : Z }.
Definition sizeof_Shdr : Z := 40.
Definition read_shdr (m : mem) (a : Z) : Elf32_Shdr :=
  mkShdr (get32 m (a + 4)) (get32 m (a + 8)) (get32 m (a + 12)) (get32 m (a + 16)) (get32 m (a + 20)).
Definition shdr_at (m : mem) (addr i : Z) : Elf32_Shdr := read_shdr m (addr + e_shoff m addr + i * sizeof_Shdr).

Definition SHT_NOBITS : Z := 8.
Definition SHF_ALLOC : Z := 0x2.

Definition ELF_TEMP_BEGIN : Z := 0x87F80000.
Definition ELF_DATA_RELOC_START : Z := 0x88000000.
Definition ELF_ARGV_BEGIN : Z := 0x8A000000.
Definition sizeof_argv : Z := 12.
Definition ARGV_MAGIC : Z := 0x5f617267.

(** ** Loading *)

Section loader.
Variable pagetable_end : Z.             (* the end of the loader's own page table *)
Variable secondary_hold_addr : Z.       (* ELF_GET_RELOCATED(&elf_secondary_hold_addr) *)

Definition begin_size : Z := Z.land pagetable_end 0x7fffffff.

(** The body of the loop over the sections; [had] is [had_begin_overwrite]. *)
Definition load_section (addr : Z) (had : bool) (i : Z) : ME bool :=
  shdr <- gets (fun m => shdr_at m addr i) ;;
  if negb (nz (Z.land (sh_flags shdr) SHF_ALLOC)) || (sh_size shdr =? 0) then ret had else
  let target := Z.lor 0x80000000 (sh_addr shdr) in
  if sh_type shdr =? SHT_NOBITS then
    elf_memset target 0 (sh_size shdr) ;; ret had
  else
    let off := addr + sh_offset shdr in
    let siz := sh_size shdr in
    if target <? pagetable_end then
      if (u32 (target + siz) <? pagetable_end) || had then blocked else
      elf_memcpy ELF_TEMP_BEGIN off begin_size ;;
      elf_memcpy pagetable_end (off + begin_size) (siz - begin_size) ;;
      ret true
    else
      elf_memcpy target off siz ;; ret had.

(** [for (i = 0; i < ehdr->e_shnum; ++i)] *)
Fixpoint load_sections (fuel : nat) (addr : Z) (had : bool) (i : Z) : ME bool :=
  match fuel with
  | O => diverge
  | S fuel' =>
      n <- gets (fun m => e_shnum m addr) ;;
      if i <? n then
        had <- load_section addr had i ;;
        load_sections fuel' addr had (i + 1)
      else ret had
  end.

(** The number of sections is a half word. *)
Definition section_fuel : nat := Z.to_nat (2 ^ 16).

Definition put32 (a v : Z) : ME unit := modify (fun m => mem_write m a (put_be v)).

(** Up to the call of [elf_run]: returns the entry point. *)
Definition elf_prepare_run (addr : Z) : ME Z :=
  had <- load_sections section_fuel addr false 0 ;;
  (if had : bool then elf_memcpy 0x80000000 ELF_TEMP_BEGIN begin_size else ret tt) ;;
  entry <- gets (fun m => e_entry m addr) ;;
  put32 secondary_hold_addr (u32 (entry + 0x60)) ;;
  (if negb (entry =? 0) then elf_memcpy (u32 (0x80000008 + entry)) ELF_ARGV_BEGIN sizeof_argv else ret tt) ;;
  ret entry.

End loader.

(** ** Arguments *)

(** [strcpy], and the arguments one after the other: [arr] is the array of
    pointers; returns the final [position]. *)
Fixpoint copy_args (arr i position : Z) (argv : list (list Z)) : ME Z :=
  match argv with
  | [] => ret position
  | s :: argv' =>
      modify (fun m => mem_write m position (s ++ [0])) ;;
      put32 (arr + 4 * i) position ;;
      let position := position + Z.of_nat (List.length s) in
      modify (fun m => mem_write m position [0]) ;;
      copy_args arr (i + 1) (position + 1) argv'
  end.

(** [args.argv] is a [char **], so that adding [sizeof(char* ) * argc] to it
    goes sixteen bytes on for each argument. *)
Definition elf_setArgcArgv (argv : list (list Z)) : ME (list Z) :=
  let argc := Z.of_nat (List.length argv) in
  let arr := ELF_ARGV_BEGIN + sizeof_argv in
  position <- copy_args arr 0 (arr + 16 * argc) argv ;;
  put32 ELF_ARGV_BEGIN ARGV_MAGIC ;;
  put32 (ELF_ARGV_BEGIN + 4) argc ;;
  put32 (ELF_ARGV_BEGIN + 8) arr ;;
  ret (elf_sync_before_exec ELF_ARGV_BEGIN (s32 (sizeof_argv + position))).

(** [__check_argv] of the program that starts, at its [__argv]. *)
Definition check_argv (system_argv : Z) : ME unit :=
  magic <- gets (fun m => get32 m system_argv) ;;
  if negb (magic =? ARGV_MAGIC) then
    put32 (system_argv + 4) 0 ;; put32 (system_argv + 8) 0
  else ret tt.

(** A string in memory, of at most [n] characters. *)
Fixpoint c_string (n : nat) (m : mem) (a : Z) : list Z :=
  match n with
  | O => []
  | S n' => if m a =? 0 then [] else m a :: c_string n' m (a + 1)
  end.

(** What [main] gets: [argv[i]] for [i < argc]. *)
Definition main_args (n : nat) (m : mem) (system_argv : Z) : list (list Z) :=
  (fun i => c_string n m (get32 m (get32 m (system_argv + 8) + 4 * Z.of_nat i))) <$>
    seq 0 (Z.to_nat (get32 m (system_argv + 4))).
