(* ===== verification/ElfFacts.v ===== *)
(** * ELF loader: programs and their arguments arrive in memory *)
From S2P Require Import Prelude Bits Elf.
From Stdlib Require Import Ascii String.
Open Scope Z_scope.
Open Scope list_scope.
Open Scope xenon_scope.

(** Case analysis on the comparisons of a goal. *)
Ltac zcases :=
  repeat match goal with
  | |- context [Z.leb ?a ?b] => destruct (Z.leb_spec a b)
  | |- context [Z.ltb ?a ?b] => destruct (Z.ltb_spec a b)
  | |- context [Z.eqb ?a ?b] => destruct (Z.eqb_spec a b)
  end; cbn [andb orb negb]; try reflexivity; try (exfalso; lia); try (f_equal; lia).

(** ** Copies and fills *)

Lemma set_bytes_at n : forall m dst v x,
  set_bytes m dst v n x = if (dst <=? x) && (x <? dst + Z.of_nat n) then u8 v else m x.
Proof.
  induction n as [|n IH]; intros m dst v x; cbn [set_bytes].
  - zcases.
  - rewrite IH. unfold mem_set. zcases.
Qed.

(** A copy to lower addresses that does not reach its source. *)
Lemma copy_bytes_at n : forall m dst src x, dst + Z.of_nat n <= src ->
  copy_bytes m dst src n x = if (dst <=? x) && (x <? dst + Z.of_nat n) then m (src + (x - dst)) else m x.
Proof.
  induction n as [|n IH]; intros m dst src x Hd; cbn [copy_bytes].
  - zcases.
  - rewrite IH by lia. unfold mem_set. zcases.
Qed.

Lemma mem_write_at l : forall m a x,
  mem_write m a l x = if (a <=? x) && (x <? a + Z.of_nat (List.length l)) then nth (Z.to_nat (x - a)) l 0 else m x.
Proof.
  induction l as [|v l IH]; intros m a x; cbn [mem_write List.length].
  - zcases.
  - rewrite IH. unfold mem_set. zcases.
    + replace (Z.to_nat (x - a)) with (S (Z.to_nat (x - (a + 1)))) by lia. done.
    + replace (Z.to_nat (x - a)) with 0%nat by lia. done.
Qed.

Lemma memset_run dst v l m : 0 <= l < 2 ^ 31 -> elf_memset dst v l m = Ok tt (set_bytes m dst v (Z.to_nat l)).
Proof. intros H. unfold elf_memset. rewrite (s32_value l) by lia. by rewrite (proj2 (Z.ltb_ge l 0)) by lia. Qed.

Lemma memcpy_run dst src l m : 0 <= l < 2 ^ 31 -> elf_memcpy dst src l m = Ok tt (copy_bytes m dst src (Z.to_nat l)).
Proof. intros H. unfold elf_memcpy. rewrite (s32_value l) by lia. by rewrite (proj2 (Z.ltb_ge l 0)) by lia. Qed.

(** ** Loading the sections *)

Section load.
Context (pagetable_end secondary_hold_addr : Z) (m0 : mem) (addr n : Z).
Abbreviation low := pagetable_end.
Abbreviation sec i := (shdr_at m0 addr i).
Abbreviation target i := (Z.lor 0x80000000 (sh_addr (sec i))).
Abbreviation size i := (sh_size (sec i)).
Abbreviation nobits i := (sh_type (sec i) =? SHT_NOBITS).
Abbreviation bsize := (begin_size low).

(** The sections that take up memory. *)
Definition loaded (i : Z) : Prop := 0 <= i < n /\ nz (Z.land (sh_flags (sec i)) SHF_ALLOC) = true /\ size i <> 0.

(** What belongs at [x] of the section [i]. *)
Definition content (i x : Z) : Z := if nobits i then 0 else m0 (addr + sh_offset (sec i) + (x - target i)).
Definition covers (i x : Z) : Prop := target i <= x < target i + size i.

(** An image the loader can load: it lies in the area it has been copied to,
    the sections lie below the loader's own areas and do not overlap, and the
    only one with contents among the loader's exception code and page table starts
    where memory starts and covers all of them. *)
Record image_ok : Prop := {
  im_addr : ELF_DATA_RELOC_START <= addr;
  im_num : e_shnum m0 addr = n;
  im_low : 0x80000000 <= low <= 0x80080000;
  im_bytes x : is_byte (m0 x);
  im_below i : loaded i -> target i + size i <= ELF_TEMP_BEGIN;
  im_disjoint i j : loaded i -> loaded j -> i <> j -> target i + size i <= target j \/ target j + size j <= target i;
  im_begin i : loaded i -> nobits i = false -> target i < low -> target i = 0x80000000 /\ low <= target i + size i
}.
Context (Hok : image_ok).


Lemma get32_range a : 0 <= get32 m0 a < 2 ^ 32.
Proof.
  unfold get32. pose proof (is_word_get_be (m0 a) (m0 (a + 1)) (m0 (a + 2)) (m0 (a + 3)) (im_bytes Hok (a + 3))) as H.
  revert H. generalize (get_be (m0 a) (m0 (a + 1)) (m0 (a + 2)) (m0 (a + 3))). unfold is_word. lia.
Qed.

Lemma get32_same m a : (forall x, ELF_DATA_RELOC_START <= x -> m x = m0 x) -> ELF_DATA_RELOC_START <= a -> get32 m a = get32 m0 a.
Proof. intros Hm Ha. unfold get32. by rewrite !Hm by lia. Qed.

Lemma shdr_same m i : (forall x, ELF_DATA_RELOC_START <= x -> m x = m0 x) -> 0 <= i -> shdr_at m addr i = shdr_at m0 addr i.
Proof.
  intros Hm Hi. pose proof (im_addr Hok). unfold shdr_at, e_shoff. rewrite (get32_same m (addr + 32)) by (done || lia).
  pose proof (get32_range (addr + 32)). unfold read_shdr, sizeof_Shdr. by rewrite !(get32_same m) by (done || lia).
Qed.

Lemma lor_ge a : 0 <= a -> 0x80000000 <= Z.lor 0x80000000 a.
Proof.
  intros Ha. assert (Z.lor 0x80000000 a = 0x80000000 + Z.ldiff a 0x80000000) as ->.
  { rewrite Z.add_nocarry_lor.
    - bitwise k Hk. rewrite !Z.lor_spec, Z.ldiff_spec. by destruct (Z.testbit 0x80000000 k), (Z.testbit a k).
    - bitwise k Hk. rewrite Z.land_spec, Z.ldiff_spec, Z.bits_0. by destruct (Z.testbit 0x80000000 k), (Z.testbit a k). }
  pose proof (proj2 (Z.ldiff_nonneg a 0x80000000) ltac:(lia)). lia.
Qed.

Lemma target_ge i : 0x80000000 <= target i.
Proof. apply lor_ge, get32_range. Qed.

Lemma size_range i : 0 <= size i < 2 ^ 32.
Proof. apply get32_range. Qed.

Lemma begin_size_low : bsize = low - 0x80000000.
Proof.
  unfold begin_size. change 0x7fffffff with (Z.ones 31). rewrite Z.land_ones by lia. pose proof (im_low Hok).
  replace low with (low - 0x80000000 + 1 * 2 ^ 31) at 1 by lia. rewrite Z.mod_add, Z.mod_small; lia.
Qed.

(** The areas of the loader and of the image follow the targets. *)
Lemma loaded_size i : loaded i -> 0 < size i /\ size i < 2 ^ 31 /\ target i + size i <= ELF_TEMP_BEGIN.
Proof.
  intros Hi. pose proof (im_below Hok i Hi). pose proof (target_ge i). pose proof (size_range i). destruct Hi as (_ & _ & Hs). unfold ELF_TEMP_BEGIN in *. lia.
Qed.

(** *** The invariant of the loop *)

Definition in_temp (x : Z) : Prop := ELF_TEMP_BEGIN <= x < ELF_TEMP_BEGIN + bsize.

Record loading (i : Z) (m : mem) (had : bool) : Prop := {
  l_image x : ELF_DATA_RELOC_START <= x -> m x = m0 x;
  l_others x : ~ in_temp x -> (forall j, loaded j -> j < i -> ~ covers j x) -> m x = m0 x;
  l_sections j x : loaded j -> j < i -> covers j x -> low <= x \/ nobits j = true -> m x = content j x;
  l_begin : if had then exists j, loaded j /\ j < i /\ nobits j = false /\ target j = 0x80000000 /\ low <= target j + size j /\
                forall k, 0 <= k < bsize -> m (ELF_TEMP_BEGIN + k) = content j (0x80000000 + k)
            else forall j, loaded j -> j < i -> nobits j = false -> low <= target j
}.

Lemma loading_start : loading 0 m0 false.
Proof. split; try done; intros; unfold loaded in *; lia. Qed.

(** A section that takes up no memory. *)
Lemma loading_skip i m had : loading i m had -> ~ loaded i -> loading (i + 1) m had.
Proof.
  intros [H1 H2 H3 H4] Hi. assert (forall j, loaded j -> j < i + 1 -> j < i) as Hj.
  { intros j Hl Hlt. destruct (decide (j = i)) as [->|]; [done|lia]. }
  split; [done| | |].
  - intros x Hx Hn. apply H2; [done|]. intros j Hl Hlt. apply Hn; [done|lia].
  - intros j x Hl Hlt. apply H3; [done|by apply Hj].
  - destruct had; [|intros j Hl Hlt; apply H4; [done|by apply Hj]].
    destruct H4 as (j & Hl & Hlt & Hr). exists j. split; [done|]. split; [lia|done].
Qed.

(** A section whose bytes from [lo] on are stored, and nothing else but the
    loader's own area. *)
Lemma loading_store i m m' had had' lo : loading i m had -> loaded i ->
  (forall x, ~ in_temp x -> m' x = if (lo <=? x) && (x <? target i + size i) then content i x else m x) ->
  target i <= lo -> lo = target i \/ (nobits i = false /\ lo = low) ->
  (had = had' -> forall x, in_temp x -> m' x = m x) ->
  (if had' then had = true \/ (nobits i = false /\ target i = 0x80000000 /\ low <= target i + size i /\
       forall k, 0 <= k < bsize -> m' (ELF_TEMP_BEGIN + k) = content i (0x80000000 + k))
   else had = false /\ (nobits i = false -> low <= target i)) ->
  loading (i + 1) m' had'.
Proof.
  intros [H1 H2 H3 H4] Hi Hm Hlo Hlo' Htemp Hbegin. pose proof (loaded_size i Hi) as (Hs1 & Hs2 & Hs3).
  pose proof (im_low Hok) as Hlow. pose proof begin_size_low as Hbs. unfold in_temp in *. unfold ELF_TEMP_BEGIN, ELF_DATA_RELOC_START in *.
  assert (forall j x, loaded j -> covers j x -> ~ 0x87F80000 <= x < 0x87F80000 + bsize) as Hnt.
  { intros j x Hj Hx. pose proof (loaded_size j Hj). unfold covers, ELF_TEMP_BEGIN in *. lia. }
  split.
  - intros x Hx. unfold ELF_DATA_RELOC_START in Hx. rewrite Hm by lia. zcases; by apply H1.
  - intros x Hx Hn. rewrite Hm by done. specialize (Hn i Hi ltac:(lia)) as Hni. unfold covers in Hni. zcases;
      (apply H2; [done|]; intros j Hj Hlt; apply Hn; [done|lia]).
  - intros j x Hj Hlt Hx Hlx. rewrite Hm by (by eapply Hnt). destruct (decide (j = i)) as [->|Hne].
    + unfold covers in Hx. zcases; (destruct Hlo' as [->|[Hnb ->]]; [lia|]; destruct Hlx as [|Hlx]; [lia|congruence]).
    + pose proof (im_disjoint Hok i j Hi Hj ltac:(done)) as Hd. pose proof Hx as Hx'. unfold covers in Hx'. zcases; (apply (H3 j); [done|lia|done|done]).
  - destruct had'.
    + destruct Hbegin as [->|Hb]; [|exists i; split; [done|]; split; [lia|tauto]].
      destruct H4 as (j & Hj & Hlt & Hnb & Ht & Hl & Hk). exists j. split_and!; try done; [lia|]. intros k Hkb.
      rewrite Htemp by (done || unfold in_temp, ELF_TEMP_BEGIN; lia). by apply Hk.
    + destruct Hbegin as [-> Hb]. intros j Hj Hlt Hnb. destruct (decide (j = i)) as [->|]; [by apply Hb|]. apply H4; [done|lia|done].
Qed.

Lemma offset_ge i : ELF_DATA_RELOC_START <= addr + sh_offset (sec i).
Proof. pose proof (im_addr Hok). pose proof (get32_range (addr + e_shoff m0 addr + i * sizeof_Shdr + 16)). cbn [sh_offset shdr_at read_shdr]. lia. Qed.

(** *** The three ways to store a section *)

Lemma load_nobits i m had : loading i m had -> loaded i -> nobits i = true ->
  loading (i + 1) (set_bytes m (target i) 0 (Z.to_nat (size i))) had.
Proof.
  intros Hl Hi Hnb. pose proof (loaded_size i Hi). pose proof (im_low Hok).
  assert (forall x, set_bytes m (target i) 0 (Z.to_nat (size i)) x = if (target i <=? x) && (x <? target i + size i) then content i x else m x) as Hm.
  { intros x. rewrite set_bytes_at, Z2Nat.id by lia. unfold content. by rewrite Hnb. }
  apply (loading_store i m _ had had (target i)); [exact Hl|exact Hi|intros x _; apply Hm|lia|by left| |].
  - intros _ x Hx. rewrite Hm. unfold in_temp, ELF_TEMP_BEGIN in *. zcases.
  - destruct had; [by left|]. split; [done|]. congruence.
Qed.

Lemma load_plain i m had : loading i m had -> loaded i -> nobits i = false -> low <= target i ->
  loading (i + 1) (copy_bytes m (target i) (addr + sh_offset (sec i)) (Z.to_nat (size i))) had.
Proof.
  intros Hl Hi Hnb Ht. pose proof (loaded_size i Hi). pose proof (offset_ge i) as Ho. unfold ELF_TEMP_BEGIN, ELF_DATA_RELOC_START in *.
  assert (forall x, copy_bytes m (target i) (addr + sh_offset (sec i)) (Z.to_nat (size i)) x =
    if (target i <=? x) && (x <? target i + size i) then content i x else m x) as Hm.
  { intros x. rewrite copy_bytes_at, Z2Nat.id by lia. unfold content. rewrite Hnb.
    destruct ((target i <=? x) && _) eqn:E; [|done]. apply andb_prop in E as [H1%Z.leb_le _]. apply (l_image _ _ _ Hl). unfold ELF_DATA_RELOC_START. lia. }
  apply (loading_store i m _ had had (target i)); [exact Hl|exact Hi|intros x _; apply Hm|lia|by left| |].
  - intros _ x Hx. rewrite Hm. unfold in_temp, ELF_TEMP_BEGIN in *. zcases.
  - destruct had; [by left|]. done.
Qed.

Lemma load_begin i m : loading i m false -> loaded i -> nobits i = false -> target i = 0x80000000 -> low <= target i + size i ->
  let m1 := copy_bytes m ELF_TEMP_BEGIN (addr + sh_offset (sec i)) (Z.to_nat bsize) in
  loading (i + 1) (copy_bytes m1 low (addr + sh_offset (sec i) + bsize) (Z.to_nat (size i - bsize))) true.
Proof.
  intros Hl Hi Hnb Ht Hlow m1. pose proof (loaded_size i Hi). pose proof (offset_ge i) as Ho. pose proof (im_low Hok).
  pose proof begin_size_low as Hbs. unfold ELF_DATA_RELOC_START in *.
  assert (forall x, m1 x = if (ELF_TEMP_BEGIN <=? x) && (x <? ELF_TEMP_BEGIN + bsize) then content i (0x80000000 + (x - ELF_TEMP_BEGIN)) else m x) as H1.
  { intros x. unfold m1. rewrite copy_bytes_at, Z2Nat.id by (unfold ELF_TEMP_BEGIN; lia). unfold content. rewrite Hnb, Ht.
    destruct ((ELF_TEMP_BEGIN <=? x) && _) eqn:E; [|done]. apply andb_prop in E as [E1%Z.leb_le _].
    rewrite (l_image _ _ _ Hl) by (unfold ELF_DATA_RELOC_START; lia). f_equal. lia. }
  set (m2 := copy_bytes m1 low _ _).
  assert (forall x, m2 x = if (low <=? x) && (x <? target i + size i) then content i x else m1 x) as H2.
  { intros x. unfold m2. rewrite copy_bytes_at, Z2Nat.id by (unfold ELF_TEMP_BEGIN in *; lia). replace (low + (size i - bsize)) with (target i + size i) by lia.
    unfold content at 1. rewrite Hnb. destruct ((low <=? x) && _) eqn:E; [|done]. apply andb_prop in E as [E1%Z.leb_le E2%Z.ltb_lt].
    rewrite H1. unfold ELF_TEMP_BEGIN in *. zcases. rewrite (l_image _ _ _ Hl) by (unfold ELF_DATA_RELOC_START; lia). f_equal. lia. }
  apply (loading_store i m m2 false true low); [exact Hl|exact Hi| |lia|by right|done|right; split_and!; [done|done|done|]].
  - intros x Hx. rewrite H2, H1. unfold in_temp, ELF_TEMP_BEGIN in *. zcases.
  - intros k Hk. rewrite H2, H1. unfold ELF_TEMP_BEGIN in *. zcases.
Qed.

Lemma load_section_run i m had : loading i m had -> 0 <= i < n ->
  runs (load_section low addr had i) m (fun had' m' => loading (i + 1) m' had').
Proof.
  intros Hl Hi. unfold load_section. apply runs_bind. exists (sec i), m. split; [unfold gets; by rewrite (shdr_same m i (l_image _ _ _ Hl)) by lia|].
  destruct (negb (nz (Z.land (sh_flags (sec i)) SHF_ALLOC)) || (size i =? 0)) eqn:Eskip.
  { apply runs_ret, loading_skip; [done|]. intros (_ & Hf & Hs). rewrite Hf in Eskip. cbn in Eskip. apply Z.eqb_eq in Eskip. done. }
  assert (loaded i) as Hld.
  { apply orb_false_elim in Eskip as [H1%negb_false_iff H2%Z.eqb_neq]. done. }
  pose proof (loaded_size i Hld) as (Hs1 & Hs2 & Hs3). cbv zeta. destruct (nobits i) eqn:Hnb.
  { eexists had, _. split; [erewrite bind_ok by (apply memset_run; lia); reflexivity|]. by apply load_nobits. }
  destruct (Z.ltb_spec (target i) low) as [Ht|Ht].
  2:{ eexists had, _. split; [erewrite bind_ok by (apply memcpy_run; lia); reflexivity|]. by apply load_plain. }
  destruct (im_begin Hok i Hld Hnb Ht) as [Ht' Hlow]. pose proof (im_low Hok). pose proof begin_size_low as Hbs.
  rewrite u32_small by (unfold ELF_TEMP_BEGIN in *; lia). rewrite (proj2 (Z.ltb_ge _ _)) by lia. cbn [orb].
  destruct had.
  { destruct (l_begin _ _ _ Hl) as (j & Hj & Hlt & _ & Htj & _ & _). pose proof (loaded_size j Hj).
    destruct (im_disjoint Hok i j Hld Hj ltac:(lia)); lia. }
  eexists true, _. split; [|by apply load_begin].
  erewrite bind_ok by (apply memcpy_run; lia). erewrite bind_ok by (apply memcpy_run; unfold ELF_TEMP_BEGIN in *; lia). reflexivity.
Qed.

Lemma load_sections_run fuel : forall i m had, loading i m had -> 0 <= i <= n -> n - i < Z.of_nat fuel ->
  runs (load_sections low fuel addr had i) m (fun had' m' => loading n m' had').
Proof.
  induction fuel as [|fuel IH]; intros i m had Hl Hi Hf; [lia|]. cbn [load_sections]. apply runs_bind. exists n, m. split.
  { unfold gets, e_shnum, get16. pose proof (im_addr Hok). rewrite !(l_image _ _ _ Hl) by lia. by rewrite <- (im_num Hok). }
  destruct (Z.ltb_spec i n) as [Hin|Hin].
  - apply runs_bind. eapply runs_mono; [|apply load_section_run; [done|lia]]. cbn beta. intros had' m' Hl'. apply IH; [done|lia|lia].
  - apply runs_ret. by replace n with i by lia.
Qed.

Lemma sections_fit : 0 <= n < Z.of_nat section_fuel.
Proof.
  rewrite <- (im_num Hok). unfold e_shnum, get16, section_fuel. pose proof (im_bytes Hok (addr + 48)). pose proof (im_bytes Hok (addr + 48 + 1)).
  unfold is_byte in *. lia.
Qed.

(** Every byte of every section in its place. *)
Definition in_place (m : mem) : Prop :=
  (forall x, ELF_DATA_RELOC_START <= x -> m x = m0 x) /\
  (forall i x, loaded i -> covers i x -> m x = content i x) /\
  (forall x, ~ in_temp x -> (forall j, loaded j -> ~ covers j x) -> m x = m0 x).

Lemma loading_done m : loading n m false -> in_place m.
Proof.
  intros [H1 H2 H3 H4]. split_and!; [done| |].
  - intros i x Hi Hx. apply (H3 i); [done|destruct Hi; lia|done|]. destruct (nobits i) eqn:E; [by right|left].
    specialize (H4 i Hi ltac:(destruct Hi; lia) E). unfold covers in Hx. lia.
  - intros x Hx Hn. apply H2; [done|]. intros j Hj _. by apply Hn.
Qed.

(** The start of memory is stored last. *)
Lemma loading_finish m : loading n m true -> in_place (copy_bytes m 0x80000000 ELF_TEMP_BEGIN (Z.to_nat bsize)).
Proof.
  intros [H1 H2 H3 (j & Hj & Hlt & Hnb & Ht & Hlow & Hk)]. pose proof (im_low Hok). pose proof begin_size_low as Hbs. pose proof (loaded_size j Hj).
  assert (forall x, copy_bytes m 0x80000000 ELF_TEMP_BEGIN (Z.to_nat bsize) x = if (0x80000000 <=? x) && (x <? low) then content j x else m x) as Hm.
  { intros x. rewrite copy_bytes_at, Z2Nat.id by (unfold ELF_TEMP_BEGIN; lia). replace (0x80000000 + bsize) with low by lia.
    destruct (Z.leb_spec 0x80000000 x), (Z.ltb_spec x low); try done. cbn [andb]. rewrite Hk by lia. f_equal. lia. }
  assert (forall x, 0x80000000 <= x < low -> covers j x) as Hcov by (intros x Hx; unfold covers; lia).
  split_and!.
  - intros x Hx. rewrite Hm. unfold ELF_DATA_RELOC_START in *. zcases; by apply H1.
  - intros i x Hi Hx. rewrite Hm. destruct ((0x80000000 <=? x) && (x <? low)) eqn:E.
    + apply andb_prop in E as [E1%Z.leb_le E2%Z.ltb_lt]. destruct (decide (i = j)) as [->|Hne]; [done|].
      specialize (Hcov x ltac:(lia)). unfold covers in *. destruct (im_disjoint Hok i j Hi Hj Hne); lia.
    + apply (H3 i); [done|destruct Hi; lia|done|]. left. pose proof (target_ge i). unfold covers in Hx.
      apply andb_false_iff in E as [E%Z.leb_gt|E%Z.ltb_ge]; lia.
  - intros x Hx Hn. rewrite Hm. destruct ((0x80000000 <=? x) && (x <? low)) eqn:E.
    + apply andb_prop in E as [E1%Z.leb_le E2%Z.ltb_lt]. destruct (Hn j Hj (Hcov x ltac:(lia))).
    + apply H2; [done|]. intros i Hi _. by apply Hn.
Qed.

Abbreviation entry := (e_entry m0 addr).
Abbreviation args x := (entry <> 0 /\ 0x80000008 + entry <= x < 0x80000008 + entry + sizeof_argv).
Abbreviation hold x := (secondary_hold_addr <= x < secondary_hold_addr + 4).

(** The stores after the sections. *)
Lemma load_finish m : in_place m -> ELF_TEMP_BEGIN <= secondary_hold_addr /\ secondary_hold_addr + 4 <= ELF_DATA_RELOC_START ->
  (entry <> 0 -> 0x80000008 + entry + sizeof_argv <= ELF_TEMP_BEGIN) ->
  runs (entry <- gets (fun m => e_entry m addr) ;;
        put32 secondary_hold_addr (u32 (entry + 0x60)) ;;
        (if negb (entry =? 0) then elf_memcpy (u32 (0x80000008 + entry)) ELF_ARGV_BEGIN sizeof_argv else ret tt) ;;
        ret entry) m (fun r m1 => r = entry /\
    (forall x, hold x -> m1 x = nth (Z.to_nat (x - secondary_hold_addr)) (put_be (u32 (entry + 0x60))) 0) /\
    (forall x, args x -> m1 x = m0 (ELF_ARGV_BEGIN + (x - (0x80000008 + entry)))) /\
    (forall x, ~ hold x -> ~ args x -> m1 x = m x)).
Proof.
  intros (Him & _ & _) Hh Hargs. pose proof (get32_range (addr + 24)) as Hr. fold (e_entry m0 addr) in Hr. pose proof (im_addr Hok).
  unfold ELF_TEMP_BEGIN, ELF_DATA_RELOC_START, sizeof_argv in *. pose proof Hargs as Hargs'.
  assert (gets (fun m => e_entry m addr) m = Ok entry m) as E.
  { unfold gets, e_entry. rewrite (get32_same m); [done|exact Him|unfold ELF_DATA_RELOC_START; lia]. }
  unfold runs. rewrite (bind_ok _ _ _ _ _ E). erewrite bind_ok by reflexivity. set (m1 := mem_write m _ _).
  assert (forall x, m1 x = if (secondary_hold_addr <=? x) && (x <? secondary_hold_addr + 4)
    then nth (Z.to_nat (x - secondary_hold_addr)) (put_be (u32 (entry + 0x60))) 0 else m x) as Hm1 by (intros x; apply mem_write_at).
  destruct (Z.eqb_spec entry 0) as [E0|E0]; cbn [negb].
  - eexists entry, m1. split; [done|]. split_and!; [done| | |].
    + intros x Hx. rewrite Hm1. zcases.
    + intros x [Hx _]. done.
    + intros x Hx _. rewrite Hm1. zcases.
  - specialize (Hargs E0). rewrite u32_small by lia. rewrite (bind_ok _ _ _ _ _ (memcpy_run _ _ 12 _ ltac:(lia))).
    eexists entry, _. split; [done|].
    assert (forall x, copy_bytes m1 (0x80000008 + entry) ELF_ARGV_BEGIN (Z.to_nat 12) x =
      if (0x80000008 + entry <=? x) && (x <? 0x80000008 + entry + 12) then m0 (ELF_ARGV_BEGIN + (x - (0x80000008 + entry))) else m1 x) as Hm2.
    { intros x. unfold ELF_ARGV_BEGIN. rewrite copy_bytes_at by lia. change (Z.of_nat (Z.to_nat 12)) with 12.
      destruct ((_ <=? x) && _) eqn:Ex; [|done]. apply andb_prop in Ex as [E1%Z.leb_le E2%Z.ltb_lt]. rewrite Hm1. zcases. apply Him. lia. }
    split_and!; [done| | |].
    + intros x Hx. rewrite Hm2, Hm1. zcases.
    + intros x [_ Hx]. rewrite Hm2. zcases.
    + intros x Hx Ha. rewrite Hm2, Hm1. destruct (Z.leb_spec secondary_hold_addr x), (Z.ltb_spec x (secondary_hold_addr + 4)); try (exfalso; lia);
        destruct (Z.leb_spec (0x80000008 + entry) x), (Z.ltb_spec x (0x80000008 + entry + 12)); cbn [andb]; try reflexivity; exfalso; apply Ha; lia.
Qed.

Lemma program_loaded :
  ELF_TEMP_BEGIN + bsize <= secondary_hold_addr /\ secondary_hold_addr + 4 <= ELF_DATA_RELOC_START ->
  (entry <> 0 -> 0x80000008 + entry + sizeof_argv <= ELF_TEMP_BEGIN) ->
  runs (elf_prepare_run low secondary_hold_addr addr) m0 (fun r m1 => r = entry /\
    (forall i x, loaded i -> covers i x -> ~ args x -> m1 x = content i x) /\
    (forall x, args x -> m1 x = m0 (ELF_ARGV_BEGIN + (x - (0x80000008 + entry)))) /\
    (forall x, hold x -> m1 x = nth (Z.to_nat (x - secondary_hold_addr)) (put_be (u32 (entry + 0x60))) 0) /\
    (forall x, ELF_DATA_RELOC_START <= x -> m1 x = m0 x) /\
    (forall x, ~ in_temp x -> ~ hold x -> ~ args x -> (forall j, loaded j -> ~ covers j x) -> m1 x = m0 x)).
Proof.
  intros Hh Hargs. pose proof begin_size_low as Hbs. pose proof (im_low Hok). pose proof sections_fit as Hfit. unfold elf_prepare_run.
  apply runs_bind. eapply runs_mono; [|apply (load_sections_run section_fuel 0 m0 false loading_start); lia].
  cbn beta. intros had m Hl. apply runs_bind.
  assert (runs (if had : bool then elf_memcpy 0x80000000 ELF_TEMP_BEGIN bsize else ret tt) m (fun _ m' => in_place m')) as Hrun.
  { destruct had; [|by apply runs_ret, loading_done]. exists tt. eexists. split; [apply memcpy_run; lia|by apply loading_finish]. }
  eapply runs_mono; [|exact Hrun]. cbn beta. intros _ m' Hp. eapply runs_mono; [|apply (load_finish m' Hp); [lia|done]].
  cbn beta. intros r m1 (-> & Hhold & Ha & Hrest). destruct Hp as (Him & Hsec & Hoth).
  assert (forall x, args x -> 0x80000000 <= x < ELF_TEMP_BEGIN) as Hax.
  { intros x [Hx1 Hx2]. specialize (Hargs Hx1). pose proof (get32_range (addr + 24)) as Hr. fold (e_entry m0 addr) in Hr. lia. }
  split_and!; [done| |exact Ha|exact Hhold| |].
  - intros i x Hi Hx Hna. pose proof (loaded_size i Hi). pose proof (target_ge i). unfold covers in Hx. rewrite Hrest; [by apply Hsec| |done]. unfold ELF_TEMP_BEGIN in *. lia.
  - intros x Hx. rewrite Hrest; [by apply Him|lia|]. intros Hax'. specialize (Hax x Hax'). unfold ELF_TEMP_BEGIN, ELF_DATA_RELOC_START in *. lia.
  - intros x H1 H2 H3 H4. rewrite Hrest by done. by apply Hoth.
Qed.

End load.

(** ** Arguments *)

Definition holds_string (m : mem) (p : Z) (s : list Z) : Prop := forall j, (j <= List.length s)%nat -> m (p + Z.of_nat j) = nth j (s ++ [0]) 0.

Lemma holds_cons m p c s : holds_string m p (c :: s) -> m p = c /\ holds_string m (p + 1) s.
Proof.
  intros H. split; [rewrite <- (Z.add_0_r p); exact (H 0%nat ltac:(lia))|]. intros j Hj.
  specialize (H (S j) ltac:(cbn; lia)). cbn [app nth] in H. rewrite <- H. f_equal. lia.
Qed.

Lemma c_string_holds s : forall n m p, Forall (fun c => c <> 0) s -> (List.length s < n)%nat -> holds_string m p s -> c_string n m p = s.
Proof.
  induction s as [|c s IH]; intros n m p Hs Hn H; (destruct n as [|n]; [cbn in Hn; lia|]); cbn [c_string].
  - specialize (H 0%nat ltac:(lia)). cbn in H. rewrite Z.add_0_r in H. by rewrite H.
  - inversion_clear Hs. apply holds_cons in H as [-> H]. rewrite (proj2 (Z.eqb_neq c 0)) by done. f_equal. apply IH; [done|cbn in Hn; lia|done].
Qed.

Lemma write_holds m p s : holds_string (mem_write m p (s ++ [0])) p s.
Proof.
  intros j Hj. rewrite mem_write_at, length_app. cbn [List.length]. zcases.
Qed.

Lemma get32_write m a v : 0 <= v < 2 ^ 32 -> get32 (mem_write m a (put_be v)) a = v.
Proof.
  intros Hv. assert (forall k, 0 <= k < 4 -> mem_write m a (put_be v) (a + k) = nth (Z.to_nat k) (put_be v) 0) as Hk.
  { intros k Hk. rewrite mem_write_at. change (Z.of_nat (List.length (put_be v))) with 4. zcases. }
  unfold get32. rewrite <- (Z.add_0_r a) at 2. rewrite !Hk by lia. by apply get_put_be.
Qed.

Lemma get32_ext m m' a : (forall x, a <= x < a + 4 -> m' x = m x) -> get32 m' a = get32 m a.
Proof. intros H. unfold get32. by rewrite !H by lia. Qed.

(** The room the strings take. *)
Definition room (argv : list (list Z)) : Z := fold_right (fun s r => Z.of_nat (List.length s) + 1 + r) 0 argv.

Lemma room_nonneg argv : 0 <= room argv.
Proof. induction argv as [|s argv IH]; cbn; [lia|]. unfold room in IH. lia. Qed.

Lemma put32_run a v m : put32 a v m = Ok tt (mem_write m a (put_be v)).
Proof. done. Qed.

Lemma put32_at m a v x : mem_write m a (put_be v) x = if (a <=? x) && (x <? a + 4) then nth (Z.to_nat (x - a)) (put_be v) 0 else m x.
Proof. apply mem_write_at. Qed.

(** Every argument is found through its pointer, and only the pointers and the
    strings have been written. *)
Lemma copy_args_run arr argv : forall i pos m, 0 <= i -> 0 <= pos -> arr + 4 * (i + Z.of_nat (List.length argv)) <= pos -> pos + room argv < 2 ^ 32 ->
  exists m', copy_args arr i pos argv m = Ok (pos + room argv) m' /\
    (forall x, x < arr + 4 * i \/ arr + 4 * (i + Z.of_nat (List.length argv)) <= x < pos \/ pos + room argv <= x -> m' x = m x) /\
    (forall k s, argv !! k = Some s -> exists p, get32 m' (arr + 4 * (i + Z.of_nat k)) = p /\ pos <= p /\
       p + Z.of_nat (List.length s) < pos + room argv /\ holds_string m' p s).
Proof.
  induction argv as [|s argv IH]; intros i pos m Hi Hp0 Hpos Hend; cbn [copy_args room fold_right] in *.
  { exists m. split; [by rewrite Z.add_0_r|]. split; [done|]. intros k s Hk. done. }
  fold (room argv) in *. pose proof (room_nonneg argv) as Hroom. set (len := Z.of_nat (List.length s)) in *. cbn [List.length] in Hpos.
  set (m1 := mem_write m pos (s ++ [0])). set (m2 := mem_write m1 (arr + 4 * i) (put_be pos)). set (m3 := mem_write m2 (pos + len) [0]).
  destruct (IH (i + 1) (pos + len + 1) m3) as (m' & E & Hout & Hargs); [lia|lia|lia|lia|].
  exists m'. split; [|split].
  - etrans; [exact E|]. f_equal. lia.
  - intros x Hx. cbn [List.length] in Hx. rewrite Hout by lia. unfold m3, m2, m1. rewrite mem_write_at, put32_at, mem_write_at, length_app. cbn [List.length]. zcases.
  - assert (forall x, arr + 4 * i <= x < arr + 4 * i + 4 \/ pos <= x < pos + len + 1 -> m' x = m3 x) as Hkeep by (intros x Hx; apply Hout; lia).
    intros k s' Hk. destruct k as [|k].
    + injection Hk as <-. exists pos. rewrite Z.add_0_r. split_and!; [|lia|lia|].
      * rewrite (get32_ext m2); [apply get32_write; lia|]. intros x Hx. rewrite Hkeep by lia. unfold m3. rewrite mem_write_at. cbn [List.length]. zcases.
      * intros j Hj. rewrite Hkeep by lia. rewrite <- (write_holds m pos s j Hj). fold m1. unfold m3, m2. rewrite mem_write_at, put32_at. cbn [List.length].
        destruct (Z.leb_spec (pos + len) (pos + Z.of_nat j)), (Z.ltb_spec (pos + Z.of_nat j) (pos + len + Z.of_nat 1)); cbn [andb]; [|zcases..].
        unfold m1. rewrite (write_holds m pos s j Hj). replace j with (List.length s) by lia. rewrite app_nth2, Nat.sub_diag by lia. by replace (Z.to_nat _) with 0%nat by lia.
    + destruct (Hargs k s' Hk) as (p & Hp & H1 & H2 & H3). exists p. replace (i + Z.of_nat (S k)) with (i + 1 + Z.of_nat k) by lia.
      split_and!; [done|lia|lia|done].
Qed.

(** The block of the arguments and everything it refers to, found from [sys]. *)
Lemma main_args_found (m : mem) (argv : list (list Z)) (n : nat) sys arr :
  Forall (Forall (fun c => c <> 0)) argv -> Forall (fun s => (List.length s < n)%nat) argv ->
  get32 m (sys + 4) = Z.of_nat (List.length argv) -> get32 m (sys + 8) = arr ->
  (forall k s, argv !! k = Some s -> holds_string m (get32 m (arr + 4 * Z.of_nat k)) s) -> main_args n m sys = argv.
Proof.
  intros Hnz Hn Hc Ha Hs. unfold main_args. rewrite Hc, Ha, Nat2Z.id. apply list_eq. intros k. rewrite list_lookup_fmap.
  destruct (argv !! k) as [s|] eqn:E.
  - pose proof (lookup_lt_Some _ _ _ E). rewrite lookup_seq_lt by done. cbn. f_equal. apply c_string_holds.
    + exact (Forall_lookup_1 _ _ _ _ Hnz E).
    + exact (Forall_lookup_1 _ _ _ _ Hn E).
    + by apply Hs.
  - apply lookup_ge_None in E. by rewrite lookup_seq_ge.
Qed.

(** A length that is no positive number flushes nothing. *)
Lemma sync_negative dst l : - 2 ^ 31 <= l < - 127 -> elf_sync_before_exec dst l = [].
Proof.
  intros Hl. unfold elf_sync_before_exec, LINESIZE. rewrite s32_value by lia. change (128 - 1) with (Z.ones 7).
  rewrite (Z.ldiff_ones_r (l + Z.ones 7)) by lia. rewrite Z.shiftl_mul_pow2, Z.shiftr_div_pow2 by lia. change (2 ^ 7) with 128.
  rewrite Z.div_mul by lia. change (Z.ones 7) with 127. pose proof (Z.div_lt_upper_bound (l + 127) 128 0 ltac:(lia) ltac:(lia)).
  by replace (Z.to_nat ((l + 127) / 128)) with 0%nat by lia.
Qed.

Section arguments.
Context (argv : list (list Z)) (m : mem).
Abbreviation argc := (Z.of_nat (List.length argv)).
Abbreviation arr := (ELF_ARGV_BEGIN + sizeof_argv).
Hypothesis argv_text : Forall (Forall (fun c => c <> 0)) argv.
Hypothesis argv_room : arr + 16 * argc + room argv <= 0x8B000000.

(** What [elf_setArgcArgv] leaves in memory. *)
Lemma set_args_run : exists m1, elf_setArgcArgv argv m = Ok [] m1 /\
  get32 m1 ELF_ARGV_BEGIN = ARGV_MAGIC /\ get32 m1 (ELF_ARGV_BEGIN + 4) = argc /\ get32 m1 (ELF_ARGV_BEGIN + 8) = arr /\
  (forall k s, argv !! k = Some s -> ELF_DATA_RELOC_START <= get32 m1 (arr + 4 * Z.of_nat k) /\ holds_string m1 (get32 m1 (arr + 4 * Z.of_nat k)) s).
Proof.
  pose proof (room_nonneg argv) as Hroom. unfold sizeof_argv, ELF_ARGV_BEGIN in *.
  destruct (copy_args_run (0x8A000000 + 12) argv 0 (0x8A000000 + 12 + 16 * argc) m) as (m0 & E & _ & Hargs); [lia|lia|lia|lia|].
  unfold elf_setArgcArgv, sizeof_argv, ELF_ARGV_BEGIN. rewrite (bind_ok _ _ _ _ _ E).
  set (m1 := mem_write m0 0x8A000000 (put_be ARGV_MAGIC)). set (m2 := mem_write m1 (0x8A000000 + 4) (put_be argc)).
  set (m3 := mem_write m2 (0x8A000000 + 8) (put_be (0x8A000000 + 12))). exists m3. split_and!.
  - erewrite bind_ok by reflexivity. fold m1. erewrite bind_ok by reflexivity. fold m2. erewrite bind_ok by reflexivity. fold m3.
    unfold ret. f_equal. apply sync_negative. rewrite (s32_congr _ (12 + (0x8A000000 + 12 + 16 * argc + room argv) - 2 ^ 32)).
    + rewrite s32_value; lia.
    + replace (12 + (0x8A000000 + 12 + 16 * argc + room argv)) with (12 + (0x8A000000 + 12 + 16 * argc + room argv) - 2 ^ 32 + 1 * 2 ^ 32) at 1 by lia.
      by rewrite Z.mod_add by lia.
  - rewrite (get32_ext m1); [apply get32_write; unfold ARGV_MAGIC; lia|]. intros x Hx. unfold m3, m2. rewrite !put32_at. zcases.
  - rewrite (get32_ext m2); [apply get32_write; lia|]. intros x Hx. unfold m3. rewrite !put32_at. zcases.
  - apply get32_write. lia.
  - intros k s Hk. destruct (Hargs k s Hk) as (p & Hp & H1 & H2 & H3). rewrite Z.add_0_l in Hp. pose proof (lookup_lt_Some _ _ _ Hk) as Hlt.
    assert (forall x, 0x8A000000 + 12 <= x -> m3 x = m0 x) as Hkeep by (intros x Hx; unfold m3, m2, m1; rewrite !put32_at; zcases).
    rewrite (get32_ext m0), Hp by (intros x Hx; apply Hkeep; lia). unfold ELF_DATA_RELOC_START. split; [lia|].
    intros j Hj. rewrite Hkeep by lia. by apply H3.
Qed.

(** C29: arguments reach [main].  The block that [elf_setArgcArgv] prepares is
    copied by the loader to the place where the program looks for it, past
    its entry point; the program accepts it, and its [main] is called with the very strings.
    The call that should flush the block to memory flushes no line at all: its length is the end address of
    the block, a negative number. *)
Theorem elf_arguments_reach_main (n0 : nat) low hold addr n :
  Forall (fun s => (List.length s < n0)%nat) argv ->
  exists m1, elf_setArgcArgv argv m = Ok [] m1 /\
  (image_ok low m1 addr n -> ELF_TEMP_BEGIN + begin_size low <= hold /\ hold + 4 <= ELF_DATA_RELOC_START ->
   0 < e_entry m1 addr -> 0x80000008 + e_entry m1 addr + sizeof_argv <= ELF_TEMP_BEGIN ->
   runs (entry <- elf_prepare_run low hold addr ;;
         check_argv (0x80000008 + entry) ;;
         gets (fun m => main_args n0 m (0x80000008 + entry))) m1 (fun r _ => r = argv)).
Proof.
  intros Hn0. destruct set_args_run as (m1 & E & Hmagic & Hargc & Harr & Hstr). exists m1. split; [done|].
  intros Hok Hhold He Hfit. apply runs_bind. eapply runs_mono; [|apply (program_loaded low hold m1 addr n Hok Hhold ltac:(done))].
  cbn beta. intros entry m2 (-> & _ & Hblock & _ & Himage & _). set (sys := 0x80000008 + e_entry m1 addr) in *.
  assert (forall k, 0 <= k <= 8 -> get32 m2 (sys + k) = get32 m1 (ELF_ARGV_BEGIN + k)) as Hg.
  { intros k Hk. unfold get32, sizeof_argv in *. rewrite !Hblock by lia. f_equal; f_equal; lia. }
  pose proof (Hg 0 ltac:(lia)) as Hg0. rewrite !Z.add_0_r, Hmagic in Hg0.
  apply runs_bind. exists tt, m2. split.
  { unfold check_argv, bind, gets. by rewrite Hg0, Z.eqb_refl. }
  exists argv, m2. split; [|done]. unfold gets. f_equal. apply (main_args_found m2 argv n0 sys arr); [done|done|by rewrite Hg by lia|by rewrite Hg by lia|].
  intros k s Hk. destruct (Hstr k s Hk) as [Hge Hh].
  rewrite (get32_ext m1) by (intros x Hx; apply Himage; unfold ELF_ARGV_BEGIN, ELF_DATA_RELOC_START, sizeof_argv in *; lia).
  intros j Hj. rewrite Himage by lia. by apply Hh.
Qed.
End arguments.

(** ** A small program: one section from the start of memory on, one of zeros *)

Definition demo_image : mem :=
  let A := ELF_DATA_RELOC_START in
  let m := mem_write (mem_write (mem_write (fun _ => 0) (A + 24) (put_be 0x40)) (A + 32) (put_be 52)) (A + 48) [0; 2] in
  let m := mem_write m (A + 56) (put_be 1 ++ put_be 2 ++ put_be 0 ++ put_be 0x100 ++ put_be 0x20) in
  let m := mem_write m (A + 96) (put_be 8 ++ put_be 3 ++ put_be 0x100 ++ put_be 0 ++ put_be 8) in
  mem_write m (A + 0x100) (Z.of_nat <$> seq 1 32).
Definition demo_low : Z := 0x80000010.
Definition demo_hold : Z := 0x87FF0100.

Lemma mem_write_bytes m a l : (forall x, is_byte (m x)) -> Forall is_byte l -> forall x, is_byte (mem_write m a l x).
Proof.
  intros Hm Hl x. rewrite mem_write_at. destruct ((a <=? x) && (x <? a + Z.of_nat (List.length l))) eqn:E; [|done].
  apply andb_prop in E as [E1%Z.leb_le E2%Z.ltb_lt]. eapply Forall_forall; [exact Hl|]. apply list_elem_of_In, nth_In. lia.
Qed.

Lemma mem_write_below m a l x : x < a -> mem_write m a l x = m x.
Proof. intros H. rewrite mem_write_at. destruct (Z.leb_spec a x); [lia|done]. Qed.

Lemma put_be_bytes v : Forall is_byte (put_be v).
Proof. repeat constructor; apply u8_range. Qed.

Lemma demo_image_bytes x : is_byte (demo_image x).
Proof.
  revert x. unfold demo_image. repeat (apply mem_write_bytes); try (repeat (apply Forall_app; split)); try apply put_be_bytes.
  - done.
  - repeat constructor; lia.
  - apply Forall_fmap, Forall_forall. intros k Hk%elem_of_seq. unfold compose, is_byte. lia.
Qed.

(** Whatever lies past the image. *)
Lemma demo_image_ok m : (forall x, x < ELF_ARGV_BEGIN -> m x = demo_image x) -> (forall x, is_byte (m x)) ->
  image_ok demo_low m ELF_DATA_RELOC_START 2 /\ e_entry m ELF_DATA_RELOC_START = 0x40 /\
  shdr_at m ELF_DATA_RELOC_START 0 = mkShdr 1 2 0 0x100 0x20 /\ shdr_at m ELF_DATA_RELOC_START 1 = mkShdr 8 3 0x100 0 8.
Proof.
  intros Hm Hb. assert (forall a, a + 4 <= ELF_ARGV_BEGIN -> get32 m a = get32 demo_image a) as Hg.
  { intros a Ha. apply get32_ext. intros x Hx. apply Hm. lia. }
  assert (e_shoff m ELF_DATA_RELOC_START = 52) as Hoff by (unfold e_shoff; rewrite Hg by (vm_compute; discriminate); reflexivity).
  assert (shdr_at m ELF_DATA_RELOC_START 0 = mkShdr 1 2 0 0x100 0x20) as H0.
  { unfold shdr_at. rewrite Hoff. unfold read_shdr. rewrite !Hg by (vm_compute; discriminate). reflexivity. }
  assert (shdr_at m ELF_DATA_RELOC_START 1 = mkShdr 8 3 0x100 0 8) as H1.
  { unfold shdr_at. rewrite Hoff. unfold read_shdr. rewrite !Hg by (vm_compute; discriminate). reflexivity. }
  assert (forall i, loaded m ELF_DATA_RELOC_START 2 i -> i = 0 \/ i = 1) as Hi by (intros i (Hi & _); lia).
  split_and!; [|unfold e_entry; rewrite Hg by (vm_compute; discriminate); reflexivity|done|done]. split.
  - done.
  - unfold e_shnum, get16. rewrite !Hm by (vm_compute; reflexivity). reflexivity.
  - vm_compute. split; discriminate.
  - done.
  - intros i [-> | ->]%Hi; rewrite ?H0, ?H1; vm_compute; discriminate.
  - intros i j [-> | ->]%Hi [-> | ->]%Hi Hne; try done; rewrite H0, H1; [left|right]; vm_compute; discriminate.
  - intros i [-> | ->]%Hi; rewrite ?H0, ?H1; [|done]. intros _ _. vm_compute. split; [done|discriminate].
Qed.


Definition demo_argv : list (list Z) := [[117; 100; 97; 48]; [45; 118]].
Definition demo_args : mem := match elf_setArgcArgv demo_argv demo_image with Ok _ m => m | _ => demo_image end.

Lemma demo_args_bytes x : is_byte (demo_args x).
Proof.
  revert x. unfold demo_args. cbn [elf_setArgcArgv demo_argv copy_args bind put32 modify ret List.length app Z.of_nat].
  repeat apply mem_write_bytes; try apply demo_image_bytes; try apply put_be_bytes; repeat constructor; vm_compute; intuition discriminate.
Qed.

Lemma demo_args_below x : x < ELF_ARGV_BEGIN -> demo_args x = demo_image x.
Proof.
  intros Hx. unfold demo_args. cbn [elf_setArgcArgv demo_argv copy_args bind put32 modify ret List.length app Z.of_nat].
  unfold ELF_ARGV_BEGIN, sizeof_argv in *. by rewrite !mem_write_below by lia.
Qed.

Lemma elf_arguments_reach_main_demo :
  runs (entry <- elf_prepare_run demo_low demo_hold ELF_DATA_RELOC_START ;;
        check_argv (0x80000008 + entry) ;;
        gets (fun m => main_args 10 m (0x80000008 + entry))) demo_args (fun r _ => r = demo_argv).
Proof.
  destruct (elf_arguments_reach_main demo_argv demo_image ltac:(repeat constructor; discriminate) ltac:(vm_compute; discriminate)
    10 demo_low demo_hold ELF_DATA_RELOC_START 2 ltac:(repeat constructor)) as (m1 & E & H).
  assert (m1 = demo_args) as -> by (unfold demo_args; by rewrite E).
  destruct (demo_image_ok demo_args demo_args_below demo_args_bytes) as (Hok & He & _). apply H; [exact Hok|vm_compute; split; discriminate|rewrite He; lia|].
  rewrite He. vm_compute. discriminate.
Defined.
