(* ===== verification/Boot.v ===== *)
(** * Kernel start: command line, initial ram disk, device tree, names in paths
      [drivers/elf/elf.c]

    The flattened device tree library is a parameter: its trees and the calls
    of it that the loader makes.  A block of the heap is the list of its bytes;
    giving back a block that the heap has not handed out is [Fault], and so is
    writing through the null pointer.  A string is the list of its characters without the terminating zero. *)
From S2P Require Import Prelude Bits GdbHex.
From Stdlib Require Import Ascii String.
Open Scope Z_scope.
Open Scope list_scope.
Open Scope xenon_scope.

Definition INITRD_RELOC_START : Z := 0x85FE0000.
Definition INITRD_MAX_SIZE : Z := 32 * 1024 * 1024.
Definition ELF_DEVTREE_MAX_SIZE : Z := 0x10000.
Definition MAX_CMDLINE_SIZE : Z := 255.
Definition PHYSADDR (x : Z) : Z := Z.ldiff x 0x80000000.

(** [strlcat(dst, src, size)] *)
Definition strlcat (dst src : list Z) (size : Z) : list Z :=
  if Z.of_nat (List.length dst) <? size then dst ++ take (Z.to_nat (size - Z.of_nat (List.length dst) - 1)) src else dst.

(** What [libfdt] offers: a call returns a negative number when it fails. *)
Record fdt_ops (tree : Type) := {
  fdt_open_into : list Z -> Z -> Z * tree;
  fdt_path_offset : tree -> list Z -> Z;
  fdt_setprop : tree -> Z -> list Z -> list Z -> Z * tree;
  fdt_add_mem_rsv : tree -> Z -> Z -> Z * tree;
  fdt_pack : tree -> Z * tree
}.
Arguments fdt_open_into {tree}.
Arguments fdt_path_offset {tree}.
Arguments fdt_setprop {tree}.
Arguments fdt_add_mem_rsv {tree}.
Arguments fdt_pack {tree}.

Section boot.
Context {tree : Type} (F : fdt_ops tree).
(** [malloc]: an address that is not in use, or [None]. *)
Variable pick : gset Z -> Z -> option Z.

Record boot := mkBoot {
  bootargs : list Z;
  initrd_start : Z; initrd_size : Z;
  heap : gmap Z (list Z);
  reloc : list Z;               (* the area at INITRD_RELOC_START, as far as it has been filled *)
  devtree : option tree;        (* the area at ELF_DEVTREE_START *)
  launched : option (list Z)    (* the image handed to elf_runFromMemory *)
}.
#[global] Instance eta_boot : Eta boot := fun r =>
  mkBoot (bootargs r) (initrd_start r) (initrd_size r) (heap r) (reloc r) (devtree r) (launched r).
Definition MB (A : Type) : Type := M boot A.

(** ** Command line *)

Definition kernel_build_cmdline (parameters root : option (list Z)) : MB unit :=
  modify (fun s => s <| bootargs := [] |>) ;;
  (match root with
   | Some root =>
       modify (fun s => s <| bootargs ::= fun b => strlcat b (str "root=") MAX_CMDLINE_SIZE |>) ;;
       modify (fun s => s <| bootargs ::= fun b => strlcat b root MAX_CMDLINE_SIZE |>) ;;
       modify (fun s => s <| bootargs ::= fun b => strlcat b (str " ") MAX_CMDLINE_SIZE |>)
   | None => ret tt
   end) ;;
  match parameters with
  | Some p => modify (fun s => s <| bootargs ::= fun b => strlcat b p MAX_CMDLINE_SIZE |>)
  | None => ret tt
  end.

(** ** The initial ram disk *)

Definition boot_free (p : Z) : MB unit := fun s =>
  match heap s !! p with
  | Some _ => Ok tt (s <| heap ::= delete p |>)
  | None => Fault
  end.

(** [if (initrd_start != NULL) free(initrd_start);] *)
Definition free_initrd : MB unit :=
  p <- gets initrd_start ;;
  if negb (p =? 0) then boot_free p else ret tt.

Definition kernel_prepare_initrd (start : list Z) : MB Z :=
  let size := Z.of_nat (List.length start) in
  if INITRD_MAX_SIZE <? size then ret (-1) else
  free_initrd ;;
  h <- gets heap ;;
  match pick (dom h) size with
  | None => modify (fun s => s <| initrd_start := 0 |>) ;; fault
  | Some p =>
      modify (fun s => s <| heap ::= <[p := start]> |> <| initrd_start := p |>) ;;
      modify (fun s => s <| initrd_size := size |>) ;;
      ret 0
  end.

(** [start] is where the disk is, in the heap or already relocated: then the
    area is cleared before it is copied onto itself. *)
Definition kernel_relocate_initrd (start size : Z) : MB unit :=
  s <- Prelude.get ;;
  bytes <- (if start =? INITRD_RELOC_START then ret (replicate (Z.to_nat size) 0) else of_option (heap s !! start)) ;;
  modify (fun s => s <| reloc := bytes |>) ;;
  modify (fun s => s <| initrd_start := INITRD_RELOC_START |> <| initrd_size := size |>).

Definition kernel_reset_initrd : MB unit :=
  free_initrd ;;
  modify (fun s => s <| initrd_start := 0 |> <| initrd_size := 0 |>).

(** ** The device tree *)

Definition get_tree : MB tree := fun s => match devtree s with Some t => Ok t s | None => Fault end.

(** A call of the library on the tree in place: [k] goes on when it succeeds. *)
Definition fdt_step (call : tree -> Z * tree) (k : MB Z) : MB Z :=
  t <- get_tree ;;
  let (res, t') := call t in
  modify (fun s => s <| devtree := Some t' |>) ;;
  if res <? 0 then ret res else k.

(** A number of 64 bits, as the library is given it. *)
Definition cell64 (v : Z) : list Z := put_be (Z.shiftr v 32) ++ put_be v.

Definition set_initrd (node : Z) (k : MB Z) : MB Z :=
  s <- Prelude.get ;;
  if (initrd_start s =? 0) || (initrd_size s =? 0) then k else
  kernel_relocate_initrd (initrd_start s) (initrd_size s) ;;
  s <- Prelude.get ;;
  let start := PHYSADDR (initrd_start s) in
  fdt_step (fun t => fdt_setprop F t node (str "linux,initrd-start") (cell64 start)) (
  let end_ := PHYSADDR (u32 (initrd_start s + initrd_size s)) in
  fdt_step (fun t => fdt_setprop F t node (str "linux,initrd-end") (cell64 end_)) (
  fdt_step (fun t => fdt_add_mem_rsv F t start (initrd_size s)) k)).

Definition elf_runWithDeviceTree (elf dt : list Z) : MB Z :=
  if ELF_DEVTREE_MAX_SIZE <? Z.of_nat (List.length dt) then ret (-1) else
  let (res, t) := fdt_open_into F dt ELF_DEVTREE_MAX_SIZE in
  modify (fun s => s <| devtree := Some t |>) ;;
  if res <? 0 then ret res else
  t <- get_tree ;;
  let node := fdt_path_offset F t (str "/chosen") in
  if node <? 0 then ret node else
  args <- gets bootargs ;;
  let rest :=
    set_initrd node (
    t <- get_tree ;;
    let node := fdt_path_offset F t (str "/memory") in
    if node <? 0 then ret node else
    fdt_step (fdt_pack F) (
    modify (fun s => s <| launched := Some elf |>) ;;
    ret (-1))) in
  match args with
  | [] => rest
  | _ => fdt_step (fun t => fdt_setprop F t node (str "bootargs") (args ++ [0])) rest
  end.

End boot.

(** ** Names in paths *)

(** [strrchr]: the index of the last occurrence. *)
Fixpoint strrchr (s : list Z) (c : Z) : option nat :=
  match s with
  | [] => None
  | x :: s' => match strrchr s' c with Some i => Some (S i) | None => if x =? c then Some O else None end
  end.

(** [strcpy] and [strncpy] into an array of 256 characters, which a longer
    text overruns; [strncpy] of fewer characters than the text has puts no zero. *)
Definition copy_string (n : nat) (src buf : list Z) : option (list Z) :=
  if (n <=? 256)%nat then Some (list_inserts 0 (take n (src ++ [0])) buf) else None.

(** The results: the buffer, or [None] for [NULL]; the buffers are static. *)
Definition argv_GetFilename (argv buf : list Z) : option (option (list Z)) :=
  match strrchr argv (ch "/") with
  | None => Some None
  | Some i => let name := drop (S i) argv in
              match copy_string (S (List.length name)) name buf with None => None | Some b => Some (Some b) end
  end.
Definition argv_GetFilepath (argv buf : list Z) : option (option (list Z)) :=
  match strrchr argv (ch "/") with
  | None => Some None
  | Some i => match copy_string i argv buf with None => None | Some b => Some (Some b) end
  end.
Definition argv_GetDevice (argv buf : list Z) : option (option (list Z)) :=
  match strrchr argv (ch ":") with
  | None => Some None
  | Some i => match copy_string i argv buf with None => None | Some b => Some (Some b) end
  end.
