(* ===== verification/BootFacts.v ===== *)
(** * Kernel start: the device tree the kernel gets *)
From S2P Require Import Prelude Bits GdbHex Boot.
From Stdlib Require Import Ascii String.
Open Scope Z_scope.
Open Scope list_scope.
Open Scope xenon_scope.

(** ** The command line *)

Lemma strlcat_take a b n : 0 < n -> strlcat (take (Z.to_nat (n - 1)) a) b n = take (Z.to_nat (n - 1)) (a ++ b).
Proof.
  intros Hn. unfold strlcat. rewrite (proj2 (Z.ltb_lt _ _)) by (rewrite length_take; lia). rewrite take_app, length_take. f_equal. f_equal. lia.
Qed.

Definition cmdline (parameters root : option (list Z)) : list Z :=
  match root with Some r => (str "root=" ++ r) ++ str " " | None => [] end ++ match parameters with Some p => p | None => [] end.

Lemma build_cmdline_run {tree} (s : boot (tree := tree)) parameters root :
  kernel_build_cmdline parameters root s = Ok tt (s <| bootargs := take 254 (cmdline parameters root) |>).
Proof.
  unfold kernel_build_cmdline, cmdline, MAX_CMDLINE_SIZE. change 254%nat with (Z.to_nat (255 - 1)).
  assert (@nil Z = take (Z.to_nat (255 - 1)) []) as E by (by rewrite take_nil).
  destruct root as [r|], parameters as [p|]; unfold bind, modify, ret; f_equal; destruct s; cbn; f_equal; rewrite E at 1; rewrite ?strlcat_take by lia; by rewrite ?app_nil_r.
Qed.

(** ** What the library of device trees promises *)

(** libfdt is a vendored library, taken by what it documents: the properties
    of nodes and the reserved areas of a tree.  A successful
    [fdt_setprop] writes behind the start of its node, so that the node stays
    where the library finds it; reserving memory and packing move no node. *)
Class FdtLaws {tree : Type} (F : fdt_ops tree) (prop : tree -> Z -> list Z -> option (list Z)) (rsv : tree -> list (Z * Z)) : Prop := {
  fdt_setprop_ok t node name v res t' : fdt_setprop F t node name v = (res, t') -> 0 <= res ->
    prop t' node name = Some v /\ (forall name', name' <> name -> prop t' node name' = prop t node name') /\ rsv t' = rsv t /\
    (forall path, fdt_path_offset F t path = node -> fdt_path_offset F t' path = node);
  fdt_add_mem_rsv_ok t a n res t' : fdt_add_mem_rsv F t a n = (res, t') -> 0 <= res ->
    (forall node name, prop t' node name = prop t node name) /\ rsv t' = rsv t ++ [(a, n)] /\
    (forall path, fdt_path_offset F t' path = fdt_path_offset F t path);
  fdt_pack_ok t res t' : fdt_pack F t = (res, t') -> 0 <= res ->
    (forall node name, prop t' node name = prop t node name) /\ rsv t' = rsv t /\
    (forall path, fdt_path_offset F t' path = fdt_path_offset F t path)
}.

Section prepared.
Context {tree : Type} (F : fdt_ops tree) (prop : tree -> Z -> list Z -> option (list Z)) (rsv : tree -> list (Z * Z)).
Context `{!FdtLaws F prop rsv} (pick : gset Z -> Z -> option Z).

(** [r] is an error that a call of the library returned. *)
Inductive fdt_fails : Z -> Prop :=
  | fails_open dt n res t : fdt_open_into F dt n = (res, t) -> fdt_fails res
  | fails_path t name : fdt_fails (fdt_path_offset F t name)
  | fails_setprop t node name v res t' : fdt_setprop F t node name v = (res, t') -> fdt_fails res
  | fails_rsv t a n res t' : fdt_add_mem_rsv F t a n = (res, t') -> fdt_fails res
  | fails_pack t res t' : fdt_pack F t = (res, t') -> fdt_fails res.

(** What the kernel finds in the tree, at its node "/chosen". *)
Definition tree_ready (args disk : list Z) (t : tree) : Prop :=
  let node := fdt_path_offset F t (str "/chosen") in
    0 <= node /\
    (args <> [] -> prop t node (str "bootargs") = Some (args ++ [0])) /\
    prop t node (str "linux,initrd-start") = Some (cell64 0x05FE0000) /\
    prop t node (str "linux,initrd-end") = Some (cell64 (0x05FE0000 + Z.of_nat (List.length disk))) /\
    (0x05FE0000, Z.of_nat (List.length disk)) ∈ rsv t.

(** The kernel runs with the tree ready, or the library's error is returned and
    nothing is run. *)
Definition booted (old : option (list Z)) (elf args disk : list Z) (r : Z) (s : boot (tree := tree)) : Prop :=
  r < 0 /\
  ((launched s = Some elf /\ reloc s = disk /\ exists t, devtree s = Some t /\ tree_ready args disk t) \/
   (launched s = old /\ fdt_fails r)).

(** One call on the tree. *)
Lemma fdt_step_run (call : tree -> Z * tree) k s t Q : devtree s = Some t ->
  (forall res t', call t = (res, t') -> res < 0 -> Q res (s <| devtree := Some t' |>)) ->
  (forall res t', call t = (res, t') -> 0 <= res -> runs k (s <| devtree := Some t' |>) Q) ->
  runs (fdt_step call k) s Q.
Proof.
  intros Ht Hbad Hgood. unfold fdt_step. apply runs_bind. exists t, s. split; [unfold get_tree; by rewrite Ht|].
  destruct (call t) as [res t'] eqn:E. apply runs_bind, runs_modify. destruct (Z.ltb_spec res 0).
  - apply runs_ret. by apply (Hbad _ _ eq_refl).
  - by apply (Hgood _ _ eq_refl).
Qed.

Lemma physaddr_high x : 0x80000000 <= x < 2 ^ 32 -> PHYSADDR x = x - 0x80000000.
Proof.
  intros Hx. unfold PHYSADDR. symmetry. apply Z.sub_nocarry_ldiff. bitwise k Hk. rewrite Z.ldiff_spec, Z.bits_0. change 0x80000000 with (2 ^ 31).
  destruct (decide (k = 31)) as [->|Hne]; [|by rewrite Z.pow2_bits_false by lia].
  assert (Z.testbit x 31 = true) as ->; [|apply andb_false_r]. apply Z.testbit_true; [lia|].
  replace (x / 2 ^ 31) with 1; [done|]. apply Z.div_unique with (x - 2 ^ 31); lia.
Qed.

(** The last calls. *)
Lemma boot_finish_run old elf args disk s t : devtree s = Some t -> launched s = old -> reloc s = disk -> tree_ready args disk t ->
  runs (t <- get_tree ;; let node := fdt_path_offset F t (str "/memory") in if node <? 0 then ret node else
        fdt_step (fdt_pack F) (modify (fun s => s <| launched := Some elf |>) ;; ret (-1))) s (booted old elf args disk).
Proof.
  intros Ht Hl Hr Hready. apply runs_bind. exists t, s. split; [unfold get_tree; by rewrite Ht|]. cbv zeta.
  destruct (Z.ltb_spec (fdt_path_offset F t (str "/memory")) 0) as [Hn|Hn].
  { apply runs_ret. split; [done|]. right. split; [done|constructor]. }
  eapply fdt_step_run; [done| |].
  - intros res t' E Hres. split; [done|]. right. split; [done|by eapply fails_pack].
  - intros res t' E Hres. apply runs_bind, runs_modify, runs_ret. split; [lia|]. left. split_and!; [done|done|]. exists t'. split; [done|].
    destruct (fdt_pack_ok _ _ _ E Hres) as (Hp & Hv & Hpath). unfold tree_ready in *. cbv zeta in *. by rewrite !Hpath, !Hp, Hv.
Qed.

Definition disk_ok (disk : list Z) : Prop := 0 < Z.of_nat (List.length disk) <= INITRD_MAX_SIZE.

Lemma relocate_run (s : boot (tree := tree)) p n disk : p <> INITRD_RELOC_START -> heap s !! p = Some disk ->
  exists s1, kernel_relocate_initrd p n s = Ok tt s1 /\ initrd_start s1 = INITRD_RELOC_START /\ initrd_size s1 = n /\ reloc s1 = disk /\
    devtree s1 = devtree s /\ launched s1 = launched s.
Proof.
  intros Hp Hh. unfold kernel_relocate_initrd. erewrite bind_ok by reflexivity. rewrite (proj2 (Z.eqb_neq p _) Hp), Hh.
  eexists. split; [reflexivity|]. done.
Qed.

Lemma set_initrd_run old elf args disk node s t p : devtree s = Some t -> launched s = old ->
  fdt_path_offset F t (str "/chosen") = node -> 0 <= node ->
  (args <> [] -> prop t node (str "bootargs") = Some (args ++ [0])) ->
  disk_ok disk -> initrd_start s = p -> p <> 0 -> p <> INITRD_RELOC_START -> initrd_size s = Z.of_nat (List.length disk) -> heap s !! p = Some disk ->
  runs (set_initrd F node (t <- get_tree ;; let node := fdt_path_offset F t (str "/memory") in if node <? 0 then ret node else
        fdt_step (fdt_pack F) (modify (fun s => s <| launched := Some elf |>) ;; ret (-1)))) s (booted old elf args disk).
Proof.
  intros Ht Hl Hnode Hpos Hargs [Hd1 Hd2] Hp Hp0 Hpr Hsz Hheap. unfold set_initrd. apply runs_bind, runs_get. rewrite Hp, Hsz.
  rewrite (proj2 (Z.eqb_neq p 0)), (proj2 (Z.eqb_neq (Z.of_nat _) 0)) by (done || lia). cbn [orb]. apply runs_bind.
  set (n := Z.of_nat (List.length disk)) in *. destruct (relocate_run s p n disk Hpr Hheap) as (s1 & E0 & Hs & Hn & Hr1 & Ht1 & Hl1).
  rewrite Ht in Ht1. rewrite Hl in Hl1. exists tt, s1. split; [done|]. apply runs_bind, runs_get. rewrite Hs, Hn.
  change (PHYSADDR INITRD_RELOC_START) with 0x05FE0000. cbv zeta. unfold INITRD_MAX_SIZE, INITRD_RELOC_START in *.
  rewrite u32_small, physaddr_high by lia. replace (0x85FE0000 + n - 0x80000000) with (0x05FE0000 + n) by lia.
  eapply fdt_step_run; [done| |].
  { intros res t' E Hres. split; [done|]. right. split; [done|by eapply fails_setprop]. }
  intros r1 t1 E1 H1. destruct (fdt_setprop_ok _ _ _ _ _ _ E1 H1) as (Ha & Hb & _ & Pa).
  eapply fdt_step_run; [done| |].
  { intros res t' E Hres. split; [done|]. right. split; [done|by eapply fails_setprop]. }
  intros r2 t2 E2 H2. destruct (fdt_setprop_ok _ _ _ _ _ _ E2 H2) as (Hc & Hd & _ & Pb).
  eapply fdt_step_run; [done| |].
  { intros res t' E Hres. split; [done|]. right. split; [done|by eapply fails_rsv]. }
  intros r3 t3 E3 H3. destruct (fdt_add_mem_rsv_ok _ _ _ _ _ E3 H3) as (He & Hf & Pc).
  apply (boot_finish_run old elf args disk _ t3); [done|done|done|]. unfold tree_ready. cbv zeta.
  rewrite !Pc, (Pb _ (Pa _ Hnode)), !He, Hf, Hc, !Hd, Ha, Hb by done. split_and!; [done..|]. apply elem_of_app. right. by apply list_elem_of_singleton.
Qed.

(** [malloc] finds room for the disk, outside the area of the loader. *)
Definition malloc_ok : Prop := forall h n, 0 <= n <= INITRD_MAX_SIZE ->
  exists p, pick h n = Some p /\ p <> 0 /\ p <> INITRD_RELOC_START /\ p ∉ h.

(** A block of the heap, or none. *)
Definition initrd_owned (s : boot (tree := tree)) : Prop :=
  heap s !! 0 = None /\ (initrd_start s <> 0 -> is_Some (heap s !! initrd_start s)).

Lemma prepare_run (s : boot (tree := tree)) disk : malloc_ok -> initrd_owned s -> disk_ok disk ->
  exists p s1, kernel_prepare_initrd pick disk s = Ok 0 s1 /\ p <> 0 /\ p <> INITRD_RELOC_START /\ initrd_start s1 = p /\
    initrd_size s1 = Z.of_nat (List.length disk) /\ heap s1 = <[p := disk]> (delete (initrd_start s) (heap s)) /\
    bootargs s1 = bootargs s /\ launched s1 = launched s.
Proof.
  intros Hm [H0 Ho] Hd. unfold kernel_prepare_initrd. rewrite (proj2 (Z.ltb_ge _ _)) by apply Hd. set (h' := delete (initrd_start s) (heap s)).
  assert (free_initrd s = Ok tt (s <| heap := h' |>)) as E.
  { unfold free_initrd, h'. erewrite bind_ok by reflexivity. destruct (Z.eqb_spec (initrd_start s) 0) as [E|E]; cbn [negb].
    - rewrite E, delete_id by done. by destruct s.
    - destruct (Ho E) as [l Hl]. unfold boot_free. rewrite Hl. by destruct s. }
  destruct (Hm (dom h') (Z.of_nat (List.length disk))) as (p & Hp & Hp0 & Hpr & _); [destruct Hd; lia|]. exists p. eexists.
  rewrite (bind_ok _ _ _ _ _ E). erewrite bind_ok by reflexivity. cbn [heap set]. rewrite Hp. split; [reflexivity|]. done.
Qed.

End prepared.

(** The disk, once relocated, cannot be given back: where it lies is no block
    of the heap. *)
Lemma relocated_not_freed {tree} (s : boot (tree := tree)) : initrd_start s = INITRD_RELOC_START -> heap s !! INITRD_RELOC_START = None ->
  kernel_reset_initrd s = Fault /\ forall pick disk, disk_ok disk -> kernel_prepare_initrd pick disk s = Fault.
Proof.
  intros Hs Hh. assert (free_initrd s = Fault) as E.
  { unfold free_initrd, bind, gets. rewrite Hs. cbn [negb Z.eqb INITRD_RELOC_START]. unfold boot_free. by rewrite Hh. }
  split; [unfold kernel_reset_initrd, bind; by rewrite E|]. intros pick disk Hd. unfold kernel_prepare_initrd. rewrite (proj2 (Z.ltb_ge _ _)) by apply Hd.
  unfold bind at 1. by rewrite E.
Qed.

(** ** Trees as finite tables *)

Definition toy_tree : Type := (Z -> list Z -> option (list Z)) * list (Z * Z).
Definition toy_fdt : fdt_ops toy_tree := {|
  fdt_open_into _ _ := (0, (fun _ _ => None, []));
  fdt_path_offset _ path := if decide (path = str "/chosen") then 8 else if decide (path = str "/memory") then 40 else -1;
  fdt_setprop t node name v := (0, (fun k n => if decide (k = node /\ n = name) then Some v else t.1 k n, t.2));
  fdt_add_mem_rsv t a n := (0, (t.1, t.2 ++ [(a, n)]));
  fdt_pack t := (0, t)
|}.

#[global] Instance toy_fdt_laws : FdtLaws toy_fdt fst snd.
Proof.
  split.
  - intros t node name v res t' [= <- <-] _. cbn. split_and!; [by rewrite decide_True|intros name' Hne; by rewrite decide_False by tauto|done..].
  - intros t a n res t' [= <- <-] _. done.
  - intros t res t' [= <- <-] _. done.
Qed.

Definition toy_pick (h : gset Z) (n : Z) : option Z := Some (Z.max 0x90000000 (1 + set_fold Z.max 0 h)).

Lemma set_fold_max (h : gset Z) x : x ∈ h -> x <= set_fold Z.max 0 h.
Proof.
  apply (set_fold_ind_L (fun r X => x ∈ X -> x <= r)); [set_solver|]. intros y X r Hy IH Hx. destruct (decide (x = y)) as [->|]; [lia|].
  pose proof (IH ltac:(set_solver)). lia.
Qed.

Lemma toy_pick_ok : malloc_ok toy_pick.
Proof.
  intros h n _. eexists. split; [reflexivity|]. unfold INITRD_RELOC_START. split_and!; [lia|lia|]. intros Hx%set_fold_max. lia.
Qed.

