(* ===== verification/Iso.v ===== *)
(** * ISO 9660 file system [drivers/iso9660/iso9660.c]

    A disc is a parameter: [readSectors s n] are the bytes of [n] sectors from
    the sector [s] on, or [None] when the drive reports an error.  The tree of
    directories is a tree of records, a pointer into it the subtree, and the
    arrays of children the lists of them; [realloc] that finds no memory is not
    modelled.  The arrays that [read_direntry] allocates for the children of a
    directory are counted until they are freed, in [child_arrays].  A string is the list of its characters without the terminating
    zero; an array of characters is all of its characters. *)
From S2P Require Import Prelude Bits GdbHex.
From Stdlib Require Import Ascii String.
Open Scope Z_scope.
Open Scope list_scope.
Open Scope xenon_scope.

Definition SECTOR_SIZE : Z := 0x800.
Definition ISO_BUFFER_SIZE : Z := 0x8000.
Definition ISO_MAXPATHLEN : Z := 128.
Definition FLAG_DIR : Z := 2.
Definition DIR_SEPARATOR : Z := ch "/".

(** ** Data *)

Record PATHTABLE_ENTRY := mkPT { name_length : Z; extended_sectors : Z; pt_sector : Z; pt_parent : Z; pt_name : list Z }.

Inductive PATH_ENTRY := PathEntry (index : Z) (table_entry : PATHTABLE_ENTRY) (children : list PATH_ENTRY).
Definition pe_index (e : PATH_ENTRY) : Z := match e with PathEntry i _ _ => i end.
Definition table_entry (e : PATH_ENTRY) : PATHTABLE_ENTRY := match e with PathEntry _ t _ => t end.
Definition pe_children (e : PATH_ENTRY) : list PATH_ENTRY := match e with PathEntry _ _ c => c end.

(** A child of a directory. *)
Record DIR_CHILD := mkChild { ch_name : list Z; ch_sector : Z; ch_size : Z; ch_flags : Z }.
#[global] Instance eta_DIR_CHILD : Eta DIR_CHILD := fun r => mkChild (ch_name r) (ch_sector r) (ch_size r) (ch_flags r).

Record DIR_ENTRY := mkDir {
  de_name : list Z; de_sector : Z; de_size : Z; de_flags : Z;
  path_entry : option PATH_ENTRY;
  de_children : list DIR_CHILD
}.
#[global] Instance eta_DIR_ENTRY : Eta DIR_ENTRY := fun r =>
  mkDir (de_name r) (de_sector r) (de_size r) (de_flags r) (path_entry r) (de_children r).
Definition DIR_zero : DIR_ENTRY := mkDir [] 0 0 0 None [].

Record iso := mkIso {
  read_buffer : list Z; cluster_buffer : list Z;
  cache_start : Z; cache_sectors : Z;
  iso_unicode : bool;
  iso_rootentry : PATH_ENTRY;
  iso_currententry : option Z;  (* the index of the entry it points to *)
  child_arrays : Z              (* arrays [DIR_ENTRY.children] allocated and not freed *)
}.
#[global] Instance eta_iso : Eta iso := fun r =>
  mkIso (read_buffer r) (cluster_buffer r) (cache_start r) (cache_sectors r) (iso_unicode r) (iso_rootentry r)
    (iso_currententry r) (child_arrays r).
Definition MI (A : Type) : Type := M iso A.

Definition is_dir (flags : Z) : bool := nz (Z.land flags FLAG_DIR).

(** Bytes [a] to [a + n] of a buffer. *)
Definition slice (l : list Z) (a n : Z) : list Z := take (Z.to_nat n) (drop (Z.to_nat a) l).

(** ** Reading *)

Section disc.
Variable readSectors : Z -> Z -> option (list Z).

(** [__read]: the bytes read, or [None] for -1. *)
Definition iso_read1 (offset len : Z) : MI (option (list Z)) :=
  let sector := u32 (offset / SECTOR_SIZE) in
  let end_sector := u32 (u64 (offset + len - 1) / SECTOR_SIZE) in
  let sectors := Z.min (ISO_BUFFER_SIZE / SECTOR_SIZE) (u32 (end_sector - sector + 1)) in
  let sector_offset := offset mod SECTOR_SIZE in
  let len := Z.min (ISO_BUFFER_SIZE - sector_offset) len in
  s <- Prelude.get ;;
  if nz (cache_sectors s) && (cache_start s <=? sector) && (u32 (sector + sectors) <=? u32 (cache_start s + cache_sectors s)) then
    ret (Some (slice (read_buffer s) ((sector - cache_start s) * SECTOR_SIZE + sector_offset) len))
  else
    match readSectors sector (ISO_BUFFER_SIZE / SECTOR_SIZE) with
    | None =>
        modify (fun s => s <| cache_sectors := 0 |>) ;;
        ret None
    | Some b =>
        modify (fun s => s <| read_buffer := b |>) ;;
        modify (fun s => s <| cache_start := sector |> <| cache_sectors := ISO_BUFFER_SIZE / SECTOR_SIZE |>) ;;
        ret (Some (slice b sector_offset len))
    end.

(** [_read]: [acc] are the bytes read so far. *)
Fixpoint iso_read_loop (fuel : nat) (offset len : Z) (acc : list Z) : MI (option (list Z)) :=
  match fuel with
  | O => diverge
  | S fuel' =>
      let read := Z.of_nat (List.length acc) in
      if read <? len then
        r <- iso_read1 (offset + read) (len - read) ;;
        match r with
        | None => ret None
        | Some [] => ret (Some acc)
        | Some l => iso_read_loop fuel' offset len (acc ++ l)
        end
      else ret (Some acc)
  end.
(** A round brings at least one byte. *)
Definition iso_read (offset len : Z) : MI (option (list Z)) := iso_read_loop (S (Z.to_nat len)) offset len [].

(** ** Directories *)

(** [*( u32 * )(buf + o)] *)
Definition be_at (buf : list Z) (o : nat) : Z := get_be (nth o buf 0) (nth (o + 1) buf 0) (nth (o + 2) buf 0) (nth (o + 3) buf 0).

(** The name of a record as it is put into an array of [ISO_MAXPATHLEN]
    characters, and its length; a name that does not fit is written past its end. *)
Definition record_name (unicode : bool) (buf : list Z) (namelen : Z) : option (list Z) :=
  if (namelen =? 1) && (nth 33 buf 0 =? 1) then Some (str "..")
  else if unicode then Some ((fun i => nth (33 + i * 2 + 1) buf 0) <$> seq 0 (Z.to_nat (namelen / 2)))
  else if namelen <? ISO_MAXPATHLEN then Some (take (Z.to_nat namelen) (drop 33 buf))
  else None.

(** The string in an array. *)
Definition c_text (l : list Z) : list Z := take (strlen l) l.

(** The length after that: [namelen] has been halved for 16-bit names only. *)
Definition record_namelen (unicode : bool) (buf : list Z) (namelen : Z) : Z :=
  if (namelen =? 1) && (nth 33 buf 0 =? 1) then namelen else if unicode then namelen / 2 else namelen.

(** A version number at the end of a file's name is cut off. *)
Definition cut_version (flags namelen : Z) (name : list Z) : list Z :=
  if negb (is_dir flags) && (2 <=? namelen) && (nth (Z.to_nat (namelen - 2)) name 0 =? ch ";")
  then take (Z.to_nat (namelen - 2)) name else name.

(** The entry with the record at the start of [buf] added; [None] where the name does not fit. *)
Definition direntry (unicode : bool) (root_sector : Z) (entry : DIR_ENTRY) (buf : list Z) : option DIR_ENTRY :=
  let sector := u32 (be_at buf 6 + nth 1 buf 0) in
  let size := be_at buf 14 in
  let flags := nth 25 buf 0 in
  let namelen := nth 32 buf 0 in
  if (namelen =? 1) && (nth 33 buf 0 =? 1) && (root_sector =? de_sector entry) then Some entry
  else if (namelen =? 1) && (nth 33 buf 0 =? 0) then
    Some (entry <| de_sector := sector |> <| de_size := size |> <| de_flags := flags |>)
  else
    match record_name unicode buf namelen with
    | None => None
    | Some name =>
        let name := c_text (cut_version flags (record_namelen unicode buf namelen) name) in
        Some (entry <| de_children ::= fun c => c ++ [mkChild name sector size flags] |>)
    end.

(** [entry->children != NULL], and the call of [free] in that case. *)
Definition has_children (entry : DIR_ENTRY) : bool := match de_children entry with [] => false | _ => true end.
Definition free_children (entry : DIR_ENTRY) : MI unit :=
  if has_children entry then modify (fun s => s <| child_arrays ::= fun n => n - 1 |>) else ret tt.

(** The entry and the length of the record; the first child makes [realloc]
    allocate an array. *)
Definition read_direntry (entry : DIR_ENTRY) (buf : list Z) : MI (DIR_ENTRY * Z) :=
  s <- Prelude.get ;;
  match direntry (iso_unicode s) (pt_sector (table_entry (iso_rootentry s))) entry buf with
  | None => fault
  | Some entry' =>
      (if negb (has_children entry) && has_children entry' then modify (fun s => s <| child_arrays ::= fun n => n + 1 |>) else ret tt) ;;
      ret (entry', nth 0 buf 0)
  end.

(** [read_directory]: the result and the entry; [fuel] bounds the records. *)
Fixpoint read_directory_loop (fuel : nat) (path : PATH_ENTRY) (entry : DIR_ENTRY) (sector remaining sector_offset : Z) : MI (bool * DIR_ENTRY) :=
  match fuel with
  | O => diverge
  | S fuel' =>
      let want := SECTOR_SIZE - sector_offset in
      r <- iso_read1 (sector * SECTOR_SIZE + sector_offset) want ;;
      match r with
      | None => ret (false, entry)
      | Some l =>
          if negb (Z.of_nat (List.length l) =? want) then ret (false, entry) else
          modify (fun s => s <| cluster_buffer ::= fun b => l ++ drop (List.length l) b |>) ;;
          buf <- gets cluster_buffer ;;
          let* (entry, offset) := read_direntry entry buf in
          let (remaining, entry) :=
            if remaining =? 0 then (de_size entry, entry <| path_entry := Some path |>) else (remaining, entry) in
          let sector_offset := sector_offset + offset in
          let '(remaining, sector_offset, sector) :=
            if (SECTOR_SIZE <=? sector_offset) || (nth (Z.to_nat offset) buf 0 =? 0)
            then (u32 (remaining - SECTOR_SIZE), 0, u32 (sector + 1)) else (remaining, sector_offset, sector) in
          if 0 <? remaining then read_directory_loop fuel' path entry sector remaining sector_offset
          else ret (true, entry)
      end
  end.
Definition read_directory (fuel : nat) (entry : DIR_ENTRY) (path : PATH_ENTRY) : MI (bool * DIR_ENTRY) :=
  read_directory_loop fuel path entry (pt_sector (table_entry path)) 0 0.

(** ** Names and paths *)

Definition name_of (e : PATH_ENTRY) : list Z := c_text (pt_name (table_entry e)).

Definition tolower (c : Z) : Z := if (ch "A" <=? c) && (c <=? ch "Z") then c + 32 else c.

(** [nl == strnlen(name, ISO_MAXPATHLEN - 1) && !strncasecmp(base, name, nl)] *)
Definition same_name (base name : list Z) : bool :=
  (Z.of_nat (List.length base) =? Z.min (Z.of_nat (List.length name)) (ISO_MAXPATHLEN - 1)) &&
  bool_decide (tolower <$> base = tolower <$> take (List.length base) name).

Fixpoint skip_separators (p : list Z) : list Z :=
  match p with
  | c :: p' => if c =? DIR_SEPARATOR then skip_separators p' else p
  | [] => []
  end.

(** [strchr]: the index of the first occurrence. *)
Fixpoint strchr (s : list Z) (c : Z) : option nat :=
  match s with
  | [] => None
  | x :: s' => if x =? c then Some O else match strchr s' c with Some i => Some (S i) | None => None end
  end.

Definition find_child (base : list Z) (dir : PATH_ENTRY) : option PATH_ENTRY :=
  List.find (fun e => same_name base (name_of e)) (pe_children dir).

Fixpoint walk (fuel : nat) (dir : PATH_ENTRY) (pos : list Z) : option PATH_ENTRY :=
  match fuel with
  | O => None
  | S fuel' =>
      let next := strchr pos DIR_SEPARATOR in
      let dirnameLength := match next with Some i => i | None => List.length pos end in
      if ISO_MAXPATHLEN <=? Z.of_nat dirnameLength then None else
      match find_child (take dirnameLength pos) dir with
      | None => None
      | Some entry =>
          match next with
          | None => Some entry
          | Some i =>
              match skip_separators (drop i pos) with
              | [] => Some entry
              | pos' => walk fuel' entry pos'
              end
          end
      end
  end.

(** [path_entry_from_path]: every round uses up a character of the path. *)
Definition path_entry_from_path (root : PATH_ENTRY) (path : list Z) : option PATH_ENTRY :=
  match skip_separators path with
  | [] => Some root
  | pos => walk (List.length pos) root pos
  end.

(** [dirname] and [basename]; without a separator [dirname] runs off the start of the text. *)
Fixpoint last_separator (p : list Z) : option nat :=
  match p with
  | [] => None
  | c :: p' => match last_separator p' with Some i => Some (S i) | None => if c =? DIR_SEPARATOR then Some O else None end
  end.
Definition iso_dirname (p : list Z) : option (list Z) :=
  match last_separator p with Some i => Some (take i p) | None => None end.
Definition iso_basename (p : list Z) : list Z :=
  match last_separator p with Some i => drop (S i) p | None => p end.

(** [find_in_directory]: a child that is found is copied over the entry, and
    with it the pointer to the array of the children, which is not freed. *)
Definition find_in_directory (fuel : nat) (entry : DIR_ENTRY) (parent : PATH_ENTRY) (base : list Z) : MI (bool * DIR_ENTRY) :=
  match base with
  | [] => read_directory fuel entry parent
  | _ =>
      match find_child base parent with
      | Some child => read_directory fuel entry child
      | None =>
          let* (ok, entry) := read_directory fuel entry parent in
          if negb ok then ret (false, entry) else
          match List.find (fun c => same_name base (ch_name c)) (de_children entry) with
          | None => ret (false, entry)
          | Some c => ret (true, mkDir (ch_name c) (ch_sector c) (ch_size c) (ch_flags c) None [])
          end
      end
  end.

(** [while (len > 1 && path[len - 1] == DIR_SEPARATOR) path[--len] = 0] *)
Fixpoint strip_separators (n : nat) (p : list Z) : list Z :=
  match n with
  | S (S _ as n') => if nth (n - 1) p 0 =? DIR_SEPARATOR then strip_separators n' (take n' p) else p
  | _ => p
  end.

Definition after_colon (p : list Z) : list Z :=
  match strchr p (ch ":") with Some i => drop (S i) p | None => p end.

Definition entry_from_path (fuel : nat) (const_path : list Z) : MI (option DIR_ENTRY) :=
  let path := after_colon const_path in
  let path := strip_separators (List.length path) path in
  match iso_dirname path with
  | None => fault
  | Some dir =>
      root <- gets iso_rootentry ;;
      match path_entry_from_path root dir with
      | None => ret None
      | Some parent =>
          let* (found, entry) := find_in_directory fuel DIR_zero parent (iso_basename path) in
          if found : bool then ret (Some entry) else free_children entry ;; ret None
      end
  end.

(** ** Files

    An operation returns its result and the error it leaves in [errno], if any. *)

Inductive errno := EBADF | EOVERFLOW | EINVAL | EIO | ENOENT | EISDIR | ENOTDIR
  | ENOSYS | ENOSR | ENODEV | EXDEV | ENAMETOOLONG | ERANGE | ENOMEM.

Record FILE_STRUCT := mkFile { f_entry : DIR_ENTRY; f_offset : Z; inUse : bool }.
#[global] Instance eta_FILE_STRUCT : Eta FILE_STRUCT := fun r => mkFile (f_entry r) (f_offset r) (inUse r).

Definition ISO9660_open_r (fuel : nat) (path : list Z) : MI (option FILE_STRUCT * option errno) :=
  r <- entry_from_path fuel path ;;
  match r with
  | None => ret (None, Some ENOENT)
  | Some entry =>
      if is_dir (de_flags entry) then free_children entry ;; ret (None, Some EISDIR)
      else ret (Some (mkFile entry 0 true), None)
  end.

Definition ISO9660_close_r (file : FILE_STRUCT) : Z * option errno * FILE_STRUCT :=
  if negb (inUse file) then (-1, Some EBADF, file) else (0, None, file <| inUse := false |>).

(** The result, the bytes put into the caller's buffer, and the file. *)
Definition ISO9660_read_r (file : FILE_STRUCT) (len : Z) : MI (Z * list Z * option errno * FILE_STRUCT) :=
  if negb (inUse file) then ret (-1, [], Some EBADF, file) else
  let size := de_size (f_entry file) in
  if size <=? f_offset file then ret (0, [], Some EOVERFLOW, file) else
  let '(len, err) := if size <? u32 (len + f_offset file) then (size - f_offset file, Some EOVERFLOW) else (len, None) in
  if len =? 0 then ret (0, [], err, file) else
  r <- iso_read (de_sector (f_entry file) * SECTOR_SIZE + f_offset file) len ;;
  match r with
  | None => ret (-1, [], Some EIO, file)
  | Some l =>
      let n := Z.of_nat (List.length l) in
      ret (n, l, err, file <| f_offset ::= fun o => o + n |>)
  end.

Inductive whence := SEEK_SET | SEEK_CUR | SEEK_END | SEEK_OTHER.

Definition ISO9660_seek_r (file : FILE_STRUCT) (pos : Z) (dir : whence) : Z * option errno * FILE_STRUCT :=
  if negb (inUse file) then (-1, Some EBADF, file) else
  let target := match dir with
                | SEEK_SET => Some pos
                | SEEK_CUR => Some (s32 (f_offset file + pos))
                | SEEK_END => Some (s32 (de_size (f_entry file) + pos))
                | SEEK_OTHER => None
                end in
  match target with
  | None => (-1, Some EINVAL, file)
  | Some position =>
      if (0 <? pos) && (position <? 0) then (-1, Some EOVERFLOW, file) else
      if (position <? 0) || (de_size (f_entry file) <? position) then (-1, Some EINVAL, file)
      else (position, None, file <| f_offset := position |>)
  end.

(** The fields of [struct stat] that [stat_entry] does not set to constants:
    inode, whether it is a directory, size and number of blocks. *)
Definition stat_entry (sector flags size : Z) : Z * bool * Z * Z :=
  (sector, is_dir flags, size, u32 (size + SECTOR_SIZE - 1) / SECTOR_SIZE).

Definition ISO9660_fstat_r (file : FILE_STRUCT) : Z * option errno * option (Z * bool * Z * Z) :=
  if negb (inUse file) then (-1, Some EBADF, None)
  else (0, None, Some (stat_entry (de_sector (f_entry file)) (de_flags (f_entry file)) (de_size (f_entry file)))).

Definition ISO9660_stat_r (fuel : nat) (path : list Z) : MI (Z * option errno * option (Z * bool * Z * Z)) :=
  r <- entry_from_path fuel path ;;
  match r with
  | None => ret (-1, Some ENOENT, None)
  | Some e => free_children e ;; ret (0, None, Some (stat_entry (de_sector e) (de_flags e) (de_size e)))
  end.

Definition ISO9660_chdir_r (fuel : nat) (path : list Z) : MI (Z * option errno) :=
  r <- entry_from_path fuel path ;;
  match r with
  | None => ret (-1, Some ENOENT)
  | Some e =>
      if negb (is_dir (de_flags e)) then ret (-1, Some ENOTDIR)
      else modify (fun s => s <| iso_currententry := pe_index <$> path_entry e |>) ;; free_children e ;; ret (0, None)
  end.

Record DIR_STATE := mkDS { d_entry : DIR_ENTRY; d_index : Z; d_inUse : bool }.
#[global] Instance eta_DIR_STATE : Eta DIR_STATE := fun r => mkDS (d_entry r) (d_index r) (d_inUse r).

Definition ISO9660_diropen_r (fuel : nat) (path : list Z) : MI (option DIR_STATE * option errno) :=
  r <- entry_from_path fuel path ;;
  match r with
  | None => ret (None, Some ENOENT)
  | Some e =>
      if negb (is_dir (de_flags e)) then ret (None, Some ENOTDIR)
      else ret (Some (mkDS e 0 true), None)
  end.

Definition ISO9660_dirreset_r (d : DIR_STATE) : Z * option errno * DIR_STATE :=
  if negb (d_inUse d) then (-1, Some EBADF, d) else (0, None, d <| d_index := 0 |>).

(** The name and the [stat] of the next child. *)
Definition ISO9660_dirnext_r (d : DIR_STATE) : Z * option errno * option (list Z * (Z * bool * Z * Z)) * DIR_STATE :=
  if negb (d_inUse d) then (-1, Some EBADF, None, d) else
  match de_children (d_entry d) !! Z.to_nat (d_index d) with
  | None => (-1, Some ENOENT, None, d)
  | Some c => (0, None, Some (take (Z.to_nat (ISO_MAXPATHLEN - 1)) (ch_name c), stat_entry (ch_sector c) (ch_flags c) (ch_size c)),
               d <| d_index ::= fun i => i + 1 |>)
  end.

Definition ISO9660_dirclose_r (d : DIR_STATE) : MI (Z * option errno * DIR_STATE) :=
  if negb (d_inUse d) then ret (-1, Some EBADF, d) else
  free_children (d_entry d) ;;
  ret (0, None, d <| d_inUse := false |>).

(** ** Mounting *)

(** [entry_from_index]: the first entry with the index, parents first. *)
Fixpoint entry_from_index (entry : PATH_ENTRY) (index : Z) : option PATH_ENTRY :=
  match entry with
  | PathEntry i t children =>
      if i =? index then Some entry
      else (fix go (l : list PATH_ENTRY) : option PATH_ENTRY :=
              match l with
              | [] => None
              | c :: l' => match entry_from_index c index with Some m => Some m | None => go l' end
              end) children
  end.

(** [add_child_entry] on the entry that [entry_from_index] finds, with the
    child filled in: the whole tree after it. *)
Fixpoint add_child_entry (entry : PATH_ENTRY) (index : Z) (child : PATH_ENTRY) : option PATH_ENTRY :=
  match entry with
  | PathEntry i t children =>
      if i =? index then Some (PathEntry i t (children ++ [child]))
      else (fix go (l : list PATH_ENTRY) : option (list PATH_ENTRY) :=
              match l with
              | [] => None
              | c :: l' =>
                  match add_child_entry c index child with
                  | Some c' => Some (c' :: l')
                  | None => match go l' with Some l'' => Some (c :: l'') | None => None end
                  end
              end) children ≫= (fun l => Some (PathEntry i t l))
  end.

(** [read_volume_descriptor]: the contents of [read_buffer], or [None]. *)
Fixpoint volume_loop (n : nat) (sector descriptor : Z) : MI (option (list Z)) :=
  match n with
  | O => ret None
  | S n' =>
      match readSectors sector 1 with
      | None => ret None
      | Some b =>
          modify (fun s => s <| read_buffer ::= fun r => b ++ drop (List.length b) r |>) ;;
          r <- gets read_buffer ;;
          if bool_decide (take 6 (drop 1 r) = str "CD001" ++ [1]) then
            if nth 0 r 0 =? descriptor then ret (Some r)
            else if nth 0 r 0 =? 0xff then ret None
            else volume_loop n' (sector + 1) descriptor
          else volume_loop n' (sector + 1) descriptor
      end
  end.
Definition read_volume_descriptor (descriptor : Z) : MI (option (list Z)) := volume_loop 16 16 descriptor.

Definition be16_at (buf : list Z) (o : nat) : Z := nth o buf 0 * 256 + nth (o + 1) buf 0.

Definition sizeof_PATHTABLE_ENTRY : Z := 8 + ISO_MAXPATHLEN.
Definition read_pathtable_entry (b : list Z) : PATHTABLE_ENTRY :=
  mkPT (nth 0 b 0) (nth 1 b 0) (be_at b 2) (be16_at b 6) (drop 8 b).

(** The name of the entry in place, terminated; a name that is too long is
    written, or read, past the end of an array. *)
Definition finish_entry (unicode : bool) (e : PATHTABLE_ENTRY) : option PATHTABLE_ENTRY :=
  let n := name_length e in
  if unicode then
    if ISO_MAXPATHLEN <? n then None else
    let m := Z.to_nat (n / 2) in
    let name := list_inserts 0 ((fun i => nth (i * 2 + 1) (pt_name e) 0) <$> seq 0 m) (pt_name e) in
    Some (mkPT (n / 2) (extended_sectors e) (pt_sector e) (pt_parent e) (<[m := 0]> name))
  else
    if ISO_MAXPATHLEN <=? n then None else
    Some (mkPT n (extended_sectors e) (pt_sector e) (pt_parent e) (<[Z.to_nat n := 0]> (pt_name e))).

(** The loop over the path table; [parent] is the index of the entry that the
    variable points to, [i] the number of entries so far. *)
Fixpoint path_table_loop (fuel : nat) (path_table len i offset parent : Z) : MI bool :=
  match fuel with
  | O => diverge
  | S fuel' =>
      if negb ((i <? 0xffff) && (offset <? len)) then ret true else
      r <- iso_read1 (path_table * SECTOR_SIZE + offset) sizeof_PATHTABLE_ENTRY ;;
      match r with
      | None => ret false
      | Some b =>
          if negb (Z.of_nat (List.length b) =? sizeof_PATHTABLE_ENTRY) then ret false else
          let entry := read_pathtable_entry b in
          root <- gets iso_rootentry ;;
          let found := if parent =? pt_parent entry then true
                       else match entry_from_index root (pt_parent entry) with Some _ => true | None => false end in
          if negb found then ret false else
          unicode <- gets iso_unicode ;;
          match finish_entry unicode entry with
          | None => fault
          | Some t =>
              match add_child_entry root (pt_parent entry) (PathEntry (i + 1) t []) with
              | None => fault
              | Some root' =>
                  modify (fun s => s <| iso_rootentry := root' |>) ;;
                  let offset := offset + 8 + name_length entry + (if nz (name_length entry mod 2) then 1 else 0) in
                  path_table_loop fuel' path_table len (i + 1) offset (pt_parent entry)
              end
          end
      end
  end.

(** The index is a half word. *)
Definition path_table_fuel : nat := Z.to_nat (2 ^ 16).

Definition root_of (volume : list Z) : PATH_ENTRY :=
  let root := drop 156 volume in
  PathEntry 1 (mkPT 1 (nth 1 root 0) (be_at root 6) 0 [0]) [].

Definition read_directories : MI bool :=
  v2 <- read_volume_descriptor 2 ;;
  v <- (match v2 with
        | Some v => modify (fun s => s <| iso_unicode := true |>) ;; ret (Some v)
        | None => read_volume_descriptor 1
        end) ;;
  match v with
  | None => ret false
  | Some v =>
      let root := root_of v in
      modify (fun s => s <| iso_rootentry := root |> <| iso_currententry := Some 1 |>) ;;
      path_table_loop path_table_fuel (be_at v 148) (be_at v 136) 1 10 1
  end.

End disc.
