(* ===== verification/IsoFacts.v ===== *)
(** * ISO 9660 file system: files are read as they are on the disc *)
From S2P Require Import Prelude Bits GdbHex Iso.
From Stdlib Require Import Ascii String.
Open Scope Z_scope.
Open Scope list_scope.
Open Scope xenon_scope.

(** ** The contents of a disc *)

Section disc.
Context (readSectors : Z -> Z -> option (list Z)) (content : Z -> Z) (last : Z).

(** Bytes [a] to [a + n] of the disc. *)
Definition bytes (a n : Z) : list Z := (fun k => content (a + Z.of_nat k)) <$> seq 0 (Z.to_nat n).

(** The drive reads any sixteen sectors that start before the sector [last]. *)
Record drive_ok : Prop := {
  dr_last : 0 <= last /\ last + 16 < 2 ^ 32;
  dr_read s : 0 <= s < last -> readSectors s 16 = Some (bytes (s * SECTOR_SIZE) ISO_BUFFER_SIZE)
}.

(** The cache is empty, or what the disc holds. *)
Definition cache_ok (s : iso) : Prop :=
  cache_sectors s = 0 \/
  (cache_sectors s = 16 /\ 0 <= cache_start s < last /\ read_buffer s = bytes (cache_start s * SECTOR_SIZE) ISO_BUFFER_SIZE).

(** Only the cache may differ. *)
Definition same_mount (s s' : iso) : Prop :=
  cluster_buffer s' = cluster_buffer s /\ iso_unicode s' = iso_unicode s /\ iso_rootentry s' = iso_rootentry s /\
  iso_currententry s' = iso_currententry s /\ child_arrays s' = child_arrays s.

Lemma same_mount_refl s : same_mount s s.
Proof. done. Qed.

Lemma same_mount_trans s1 s2 s3 : same_mount s1 s2 -> same_mount s2 s3 -> same_mount s1 s3.
Proof. unfold same_mount. intuition congruence. Qed.

Lemma bytes_length a n : 0 <= n -> Z.of_nat (List.length (bytes a n)) = n.
Proof. intros Hn. unfold bytes. rewrite length_fmap, length_seq. lia. Qed.

Lemma bytes_lookup a n k : (k < Z.to_nat n)%nat -> bytes a n !! k = Some (content (a + Z.of_nat k)).
Proof. intros Hk. unfold bytes. by rewrite list_lookup_fmap, lookup_seq_lt. Qed.

Lemma bytes_app a n m : 0 <= n -> 0 <= m -> bytes a n ++ bytes (a + n) m = bytes a (n + m).
Proof.
  intros Hn Hm. unfold bytes. rewrite Z2Nat.inj_add, seq_app, fmap_app by done. f_equal. cbn [Nat.add].
  rewrite <- (Nat.add_0_r (Z.to_nat n)) at 1. rewrite <- fmap_add_seq, <- list_fmap_compose. apply list_fmap_ext. intros i k _. cbn. f_equal. lia.
Qed.

Lemma slice_bytes a n b m : 0 <= b -> 0 <= m -> b + m <= n -> slice (bytes a n) b m = bytes (a + b) m.
Proof.
  intros Hb Hm Hn. unfold slice. replace n with (b + (m + (n - b - m))) by lia. rewrite <- bytes_app, <- bytes_app by lia.
  rewrite drop_app_length' by (apply Nat2Z.inj; rewrite bytes_length; lia).
  by rewrite take_app_length' by (apply Nat2Z.inj; rewrite bytes_length; lia).
Qed.

Context (Hdrive : drive_ok).

(** ** One read *)

Lemma read1_run s offset len : cache_ok s -> 0 <= offset -> 0 < len -> offset + len <= last * SECTOR_SIZE ->
  exists s', iso_read1 readSectors offset len s =
    Ok (Some (bytes offset (Z.min (ISO_BUFFER_SIZE - offset mod SECTOR_SIZE) len))) s' /\ cache_ok s' /\ same_mount s s'.
Proof.
  intros Hc Ho Hl Hend. destruct (dr_last Hdrive) as [Hl0 Hl1]. unfold SECTOR_SIZE, ISO_BUFFER_SIZE in *.
  pose proof (Z.mod_pos_bound offset 0x800 ltac:(lia)) as Hm. pose proof (Z.div_mod offset 0x800 ltac:(lia)) as Hd.
  pose proof (Z.div_mod (offset + len - 1) 0x800 ltac:(lia)) as He. pose proof (Z.mod_pos_bound (offset + len - 1) 0x800 ltac:(lia)) as Hme.
  unfold iso_read1. unfold SECTOR_SIZE, ISO_BUFFER_SIZE. change (0x8000 / 0x800) with 16.
  set (q := offset / 0x800) in *. set (e := (offset + len - 1) / 0x800) in *. set (o := offset mod 0x800) in *.
  assert (0 <= q < last) as Hq by lia. assert (q <= e < last) as Heq by lia.
  assert (u64 (offset + len - 1) = offset + len - 1) as E64 by (apply u64_small; lia). rewrite E64. fold e. rewrite !(u32_small q), (u32_small e), (u32_small (e - q + 1)) by lia.
  erewrite bind_ok by reflexivity. destruct (nz (cache_sectors s) && (cache_start s <=? q) && (u32 (q + Z.min 16 (e - q + 1)) <=? u32 (cache_start s + cache_sectors s))) eqn:E.
  - apply andb_prop in E as [[E1 E2%Z.leb_le]%andb_prop E3%Z.leb_le]. destruct Hc as [Hc|(Hc1 & Hc2 & Hc3)]; [by rewrite Hc in E1|].
    rewrite Hc1 in E3. rewrite !u32_small in E3 by lia. exists s. split_and!; [|by right|apply same_mount_refl].
    unfold ret. do 2 f_equal. rewrite Hc3. unfold SECTOR_SIZE, ISO_BUFFER_SIZE. rewrite slice_bytes by lia. f_equal. lia.
  - rewrite (dr_read Hdrive) by done. eexists. split.
    + erewrite bind_ok by reflexivity. erewrite bind_ok by reflexivity. unfold SECTOR_SIZE, ISO_BUFFER_SIZE. rewrite slice_bytes by lia.
      replace (q * 0x800 + o) with offset by lia. reflexivity.
    + split; [|done]. right. done.
Qed.

(** ** Whole reads *)

Lemma read_loop_run fuel : forall s offset len got, cache_ok s -> 0 <= offset -> 0 <= got <= len -> offset + len <= last * SECTOR_SIZE ->
  len - got < Z.of_nat fuel ->
  exists s', iso_read_loop readSectors fuel offset len (bytes offset got) s = Ok (Some (bytes offset len)) s' /\ cache_ok s' /\ same_mount s s'.
Proof.
  induction fuel as [|fuel IH]; intros s offset len got Hc Ho Hg Hend Hf; [lia|]. cbn [iso_read_loop]. rewrite bytes_length by lia.
  destruct (Z.ltb_spec got len) as [Hlt|Hge].
  2:{ exists s. replace len with got by lia. split; [done|]. split; [done|apply same_mount_refl]. }
  destruct (read1_run s (offset + got) (len - got)) as (s1 & E & Hc1 & Hs1); [done|lia|lia|lia|]. rewrite (bind_ok _ _ _ _ _ E).
  set (n := Z.min _ (len - got)). assert (0 < n <= len - got) as Hn.
  { unfold n, ISO_BUFFER_SIZE, SECTOR_SIZE. pose proof (Z.mod_pos_bound (offset + got) 0x800 ltac:(lia)). lia. }
  destruct (bytes (offset + got) n) as [|c l] eqn:Eb.
  { exfalso. apply (f_equal (fun l => Z.of_nat (List.length l))) in Eb. rewrite bytes_length in Eb by lia. cbn in Eb. lia. }
  rewrite <- Eb, bytes_app by lia. destruct (IH s1 offset len (got + n)) as (s2 & E2 & Hc2 & Hs2); [done|lia|lia|lia|lia|].
  exists s2. split; [done|]. split; [done|]. by eapply same_mount_trans.
Qed.

Lemma iso_read_run s offset len : cache_ok s -> 0 <= offset -> 0 <= len -> offset + len <= last * SECTOR_SIZE ->
  exists s', iso_read readSectors offset len s = Ok (Some (bytes offset len)) s' /\ cache_ok s' /\ same_mount s s'.
Proof.
  intros Hc Ho Hl Hend. unfold iso_read. change (@nil Z) with (bytes offset 0). apply read_loop_run; [done|done|lia|done|lia].
Qed.

(** ** Files *)

(** The calls on an open file, and what they give on a sequence of bytes with
    a position in it: the result, the bytes, the error and the position. *)
Inductive file_op := Read (n : Z) | Seek (pos : Z) (dir : whence).

Definition spec_file (data : list Z) (p : Z) (op : file_op) : Z * list Z * option errno * Z :=
  let size := Z.of_nat (List.length data) in
  match op with
  | Read n =>
      if size <=? p then (0, [], Some EOVERFLOW, p)
      else let m := Z.min n (size - p) in (m, slice data p m, if size <? n + p then Some EOVERFLOW else None, p + m)
  | Seek pos dir =>
      match match dir with SEEK_SET => Some pos | SEEK_CUR => Some (p + pos) | SEEK_END => Some (size + pos) | SEEK_OTHER => None end with
      | None => (-1, [], Some EINVAL, p)
      | Some q =>
          if 2 ^ 31 <=? q then (-1, [], Some EOVERFLOW, p)
          else if (q <? 0) || (size <? q) then (-1, [], Some EINVAL, p) else (q, [], None, q)
      end
  end.

Definition run_file (op : file_op) (file : FILE_STRUCT) : MI (Z * list Z * option errno * FILE_STRUCT) :=
  match op with
  | Read n => ISO9660_read_r readSectors file n
  | Seek pos dir => let '(r, e, file) := ISO9660_seek_r file pos dir in ret (r, [], e, file)
  end.

Definition op_ok (op : file_op) : Prop :=
  match op with Read n => 0 <= n < 2 ^ 31 | Seek pos _ => - 2 ^ 31 <= pos < 2 ^ 31 end.

(** A file whose extent lies on the disc, open at a position in it. *)
Definition file_ok (file : FILE_STRUCT) : Prop :=
  inUse file = true /\ 0 <= de_sector (f_entry file) /\ 0 <= f_offset file <= de_size (f_entry file) /\ de_size (f_entry file) < 2 ^ 31 /\
  de_sector (f_entry file) * SECTOR_SIZE + de_size (f_entry file) <= last * SECTOR_SIZE.
Definition file_data (file : FILE_STRUCT) : list Z := bytes (de_sector (f_entry file) * SECTOR_SIZE) (de_size (f_entry file)).

Lemma s32_wrap q : - 2 ^ 31 <= q < 2 ^ 32 -> s32 q = if 2 ^ 31 <=? q then q - 2 ^ 32 else q.
Proof.
  intros Hq. destruct (Z.leb_spec (2 ^ 31) q); [|apply s32_value; lia]. rewrite (s32_congr q (q - 2 ^ 32)); [apply s32_value; lia|].
  replace q with (q - 2 ^ 32 + 1 * 2 ^ 32) at 1 by lia. by rewrite Z.mod_add by lia.
Qed.

(** The checks on the new position. *)
Lemma seek_target (file : FILE_STRUCT) size b pos : 0 <= b < 2 ^ 31 -> 0 <= f_offset file <= size -> - 2 ^ 31 <= pos < 2 ^ 31 ->
  let '(r, l, e, p) := (if 2 ^ 31 <=? b + pos then (-1, @nil Z, Some EOVERFLOW, f_offset file)
    else if (b + pos <? 0) || (size <? b + pos) then (-1, [], Some EINVAL, f_offset file) else (b + pos, [], None, b + pos)) in
  (if (0 <? pos) && (s32 (b + pos) <? 0) then (-1, Some EOVERFLOW, file) else
   if (s32 (b + pos) <? 0) || (size <? s32 (b + pos)) then (-1, Some EINVAL, file)
   else (s32 (b + pos), None, file <| f_offset := s32 (b + pos) |>)) = (r, e, file <| f_offset := p |>) /\ l = [] /\ 0 <= p <= size.
Proof.
  intros Hb Hp Hpos. rewrite s32_wrap by lia. assert (file = file <| f_offset := f_offset file |>) as Eid by (by destruct file).
  destruct (Z.leb_spec (2 ^ 31) (b + pos)).
  - rewrite (proj2 (Z.ltb_lt 0 pos)), (proj2 (Z.ltb_lt _ 0)) by lia. cbn [andb]. by rewrite <- Eid.
  - destruct (Z.ltb_spec (b + pos) 0); cbn [orb].
    + rewrite (proj2 (Z.ltb_ge 0 pos)) by lia. cbn [andb]. by rewrite <- Eid.
    + rewrite andb_false_r. destruct (Z.ltb_spec size (b + pos)); [by rewrite <- Eid|]. split; [done|]. split; [done|lia].
Qed.

Lemma seek_run file pos dir : file_ok file -> - 2 ^ 31 <= pos < 2 ^ 31 ->
  let '(r, l, e, p) := spec_file (file_data file) (f_offset file) (Seek pos dir) in
  ISO9660_seek_r file pos dir = (r, e, file <| f_offset := p |>) /\ l = [] /\ 0 <= p <= de_size (f_entry file).
Proof.
  intros (Hu & Hs & Hp & Hsz & Hx) Hpos. unfold spec_file, ISO9660_seek_r, file_data. rewrite Hu, bytes_length by lia. cbn [negb].
  destruct dir.
  - pose proof (seek_target file (de_size (f_entry file)) 0 pos ltac:(lia) Hp Hpos) as H. rewrite Z.add_0_l, s32_value in H by lia. exact H.
  - apply seek_target; lia.
  - apply seek_target; lia.
  - split; [by destruct file|]. done.
Qed.

Lemma file_read_run s file n : cache_ok s -> file_ok file -> 0 <= n < 2 ^ 31 ->
  let '(r, l, e, p) := spec_file (file_data file) (f_offset file) (Read n) in
  exists s', ISO9660_read_r readSectors file n s = Ok (r, l, e, file <| f_offset := p |>) s' /\ cache_ok s' /\ same_mount s s' /\
    0 <= p <= de_size (f_entry file).
Proof.
  intros Hc (Hu & Hs & Hp & Hsz & Hx) Hn. unfold spec_file, ISO9660_read_r, file_data. rewrite Hu, bytes_length by lia. cbn [negb].
  set (size := de_size (f_entry file)) in *. set (start := de_sector (f_entry file) * SECTOR_SIZE) in *.
  assert (0 <= start) as Hst by (unfold start, SECTOR_SIZE; lia).
  assert (file = file <| f_offset := f_offset file |>) as Eid by (by destruct file).
  destruct (Z.leb_spec size (f_offset file)); [exists s; rewrite <- Eid; done|]. rewrite u32_small by lia.
  set (m := Z.min n (size - f_offset file)).
  assert ((if size <? n + f_offset file then (size - f_offset file, Some EOVERFLOW) else (n, None)) =
          (m, if size <? n + f_offset file then Some EOVERFLOW else None)) as ->.
  { unfold m. destruct (Z.ltb_spec size (n + f_offset file)); f_equal; lia. }
  assert (0 <= m <= size - f_offset file) as Hm by lia. cbv iota beta. rewrite slice_bytes by lia.
  destruct (Z.eqb_spec m 0) as [Hm0|Hm0].
  { exists s. rewrite Hm0. rewrite Z.add_0_r, <- Eid. split; [done|]. done. }
  destruct (iso_read_run s (start + f_offset file) m) as (s' & E & Hc' & Hs'); [done|lia|lia|lia|]. rewrite (bind_ok _ _ _ _ _ E).
  exists s'. cbv zeta. rewrite bytes_length by lia. split; [by destruct file|]. split_and!; [done|done|lia|lia].
Qed.

(** A sequence of calls, and of what they give. *)
Fixpoint run_files (ops : list file_op) (file : FILE_STRUCT) : MI (list (Z * list Z * option errno)) :=
  match ops with
  | [] => ret []
  | op :: ops' =>
      let* (r, l, e, file') := run_file op file in
      rest <- run_files ops' file' ;;
      ret ((r, l, e) :: rest)
  end.
Fixpoint spec_files (data : list Z) (p : Z) (ops : list file_op) : list (Z * list Z * option errno) :=
  match ops with
  | [] => []
  | op :: ops' => let '(r, l, e, p') := spec_file data p op in (r, l, e) :: spec_files data p' ops'
  end.

Lemma run_file_spec s file op : cache_ok s -> file_ok file -> op_ok op ->
  let '(r, l, e, p) := spec_file (file_data file) (f_offset file) op in
  exists s', run_file op file s = Ok (r, l, e, file <| f_offset := p |>) s' /\ cache_ok s' /\ same_mount s s' /\ 0 <= p <= de_size (f_entry file).
Proof.
  intros Hc Hf Ho. destruct op as [n|pos dir]; cbn [run_file].
  - pose proof (file_read_run s file n Hc Hf Ho) as H. destruct (spec_file _ _ _) as [[[r l] e] p]. destruct H as (s' & H1 & H2 & H3 & H4). by exists s'.
  - pose proof (seek_run file pos dir Hf Ho) as H. destruct (spec_file _ _ _) as [[[r l] e] p]. destruct H as (-> & -> & H). by exists s.
Qed.

(** An open file is the sequence of its bytes.  Whatever the cache holds,
    any calls that read from and seek in a file give what they give on the
    bytes of its extent on the disc and a position: the bytes from the position
    on, cut at the end of the file, the position after them, and the
    errors of positions outside the file or beyond the range of offsets. *)
Lemma iso_file_refines s file ops : cache_ok s -> file_ok file -> Forall op_ok ops ->
  exists s', run_files ops file s = Ok (spec_files (file_data file) (f_offset file) ops) s' /\ cache_ok s'.
Proof.
  intros Hc Hf Hops. revert s file Hc Hf. induction Hops as [|op ops Ho _ IH]; intros s file Hc Hf; cbn [run_files spec_files]; [by exists s|].
  pose proof (run_file_spec s file op Hc Hf Ho) as H. destruct (spec_file (file_data file) (f_offset file) op) as [[[r l] e] p].
  destruct H as (s1 & E & Hc1 & _ & Hp). rewrite (bind_ok _ _ _ _ _ E). set (file1 := file <| f_offset := p |>).
  destruct (IH s1 file1 Hc1) as (s2 & E2 & Hc2); [destruct file; destruct Hf as (?&?&?&?&?); split_and!; cbn in *; done || lia|].
  rewrite (bind_ok _ _ _ _ _ E2). exists s2. split; [by destruct file|done].
Qed.

End disc.

(** ** Paths *)

(** The names in a path, between separators. *)
Fixpoint names (p cur : list Z) : list (list Z) :=
  match p with
  | [] => match cur with [] => [] | _ => [cur] end
  | c :: p' =>
      if c =? DIR_SEPARATOR then match cur with [] => names p' [] | _ => cur :: names p' [] end
      else names p' (cur ++ [c])
  end.

(** Going down from directory to directory. *)
Fixpoint lookup_names (root : PATH_ENTRY) (l : list (list Z)) : option PATH_ENTRY :=
  match l with
  | [] => Some root
  | c :: l' => match find_child c root with Some e => lookup_names e l' | None => None end
  end.

Lemma names_skip p : names (skip_separators p) [] = names p [].
Proof.
  induction p as [|c p IH]; [done|]. cbn [skip_separators]. destruct (c =? DIR_SEPARATOR) eqn:E; [|done]. cbn [names]. by rewrite E.
Qed.

Lemma skip_head p : match skip_separators p with [] => True | c :: _ => c <> DIR_SEPARATOR end.
Proof. induction p as [|c p IH]; [done|]. cbn [skip_separators]. by destruct (Z.eqb_spec c DIR_SEPARATOR). Qed.

Lemma skip_length p : (List.length (skip_separators p) <= List.length p)%nat.
Proof. induction p as [|c p IH]; [done|]. cbn [skip_separators]. destruct (c =? DIR_SEPARATOR); cbn; lia. Qed.

Lemma names_word w : forall cur rest, Forall (fun c => c <> DIR_SEPARATOR) w -> names (w ++ rest) cur = names rest (cur ++ w).
Proof.
  induction w as [|c w IH]; intros cur rest Hw; [by rewrite app_nil_r|]. inversion_clear Hw. cbn [app names].
  rewrite (proj2 (Z.eqb_neq c _)) by done. rewrite IH by done. by rewrite <- app_assoc.
Qed.

Lemma strchr_some p c i : strchr p c = Some i -> drop i p = c :: drop (S i) p /\ Forall (fun x => x <> c) (take i p) /\ (i < List.length p)%nat.
Proof.
  revert i. induction p as [|x p IH]; intros i H; [done|]. cbn [strchr] in H. destruct (Z.eqb_spec x c) as [->|Hne].
  - injection H as <-. cbn. split; [done|]. split; [constructor|lia].
  - destruct (strchr p c) as [j|]; [|done]. injection H as <-. destruct (IH j eq_refl) as (H1 & H2 & H3). cbn [drop take List.length].
    split_and!; [done|by constructor|lia].
Qed.

Lemma strchr_none p c : strchr p c = None -> Forall (fun x => x <> c) p.
Proof.
  induction p as [|x p IH]; intros H; [constructor|]. cbn [strchr] in H. destruct (Z.eqb_spec x c) as [->|Hne]; [done|].
  destruct (strchr p c); [done|]. constructor; auto.
Qed.

Lemma strchr_app pre c l : Forall (fun x => x <> c) pre -> strchr (pre ++ c :: l) c = Some (List.length pre).
Proof.
  intros H. induction H as [|x p Hx _ IH]; cbn [app strchr List.length]; [by rewrite Z.eqb_refl|].
  by rewrite (proj2 (Z.eqb_neq x c) Hx), IH.
Qed.

(** A name that is too long is no entry's. *)
Lemma find_child_long base dir : ISO_MAXPATHLEN <= Z.of_nat (List.length base) -> find_child base dir = None.
Proof.
  intros Hl. unfold find_child. destruct (List.find _ _) as [e|] eqn:E; [|done]. apply List.find_some in E as [_ E].
  unfold same_name, ISO_MAXPATHLEN in *. apply andb_prop in E as [E%Z.eqb_eq _]. lia.
Qed.

Lemma names_cur cur rest : cur <> [] -> names (DIR_SEPARATOR :: rest) cur = cur :: names rest [].
Proof. intros Hc. cbn [names]. rewrite Z.eqb_refl. by destruct cur. Qed.

Lemma walk_names fuel : forall dir pos, (List.length pos <= fuel)%nat -> match pos with [] => False | c :: _ => c <> DIR_SEPARATOR end ->
  walk fuel dir pos = lookup_names dir (names pos []).
Proof.
  induction fuel as [|fuel IH]; intros dir pos Hf Hpos; [destruct pos; [done|cbn in Hf; lia]|]. cbn [walk].
  set (n := match strchr pos DIR_SEPARATOR with Some i => i | None => _ end).
  assert (take n pos <> [] /\ Forall (fun c => c <> DIR_SEPARATOR) (take n pos) /\
    names pos [] = take n pos :: match strchr pos DIR_SEPARATOR with Some i => names (drop i pos) [] | None => [] end) as (Hne & Hw & Hnames).
  { unfold n. destruct (strchr pos DIR_SEPARATOR) as [i|] eqn:E.
    - apply strchr_some in E as (H1 & H2 & H3). assert (take i pos <> []) as Hne.
      { destruct i; [|by destruct pos]. rewrite drop_0 in H1. by rewrite H1 in Hpos. }
      split_and!; [done|done|]. rewrite <- (take_drop i pos) at 1. rewrite names_word by done. cbn [app]. rewrite H1, names_cur by done.
      cbn [names]. by rewrite Z.eqb_refl.
    - apply strchr_none in E. rewrite firstn_all. split_and!; [by destruct pos|done|]. rewrite <- (app_nil_r pos) at 1.
      rewrite names_word by done. cbn [app names]. by destruct pos. }
  rewrite Hnames. cbn [lookup_names]. destruct (Z.leb_spec ISO_MAXPATHLEN (Z.of_nat n)) as [Hlong|_].
  { rewrite find_child_long; [done|]. assert (n <= List.length pos)%nat by (unfold n; destruct (strchr pos DIR_SEPARATOR) eqn:E; [apply strchr_some in E; lia|lia]).
    rewrite length_take. lia. }
  destruct (find_child (take n pos) dir) as [e|]; [|done]. unfold n in *. destruct (strchr pos DIR_SEPARATOR) as [i|] eqn:E; [|done].
  rewrite <- names_skip. pose proof (skip_head (drop i pos)) as Hh. destruct (skip_separators (drop i pos)) as [|c p] eqn:Es; [done|].
  apply IH; [|done]. pose proof (skip_length (drop i pos)) as Hsl. rewrite Es, length_drop in Hsl.
  destruct i as [|i]; [by rewrite take_0 in Hne|]. lia.
Qed.

(** Paths lead where their names lead.  Looking up a path, with any number
    of separators before, between and behind its names, is going down from the
    root by the first child of each name, letters compared without case; a
    name that is longer than any entry's finds nothing. *)
Lemma path_lookup root path : path_entry_from_path root path = lookup_names root (names path []).
Proof.
  unfold path_entry_from_path. rewrite <- names_skip. pose proof (skip_head path) as Hh. destruct (skip_separators path) as [|c p]; [done|].
  by apply walk_names.
Qed.

(** ** Directories *)

(** A record with room for its name. *)
Definition record_ok (b : list Z) : Prop :=
  nth 0 b 0 = Z.of_nat (List.length b) /\ 34 <= Z.of_nat (List.length b) /\ 0 <= nth 32 b 0 /\ 33 + nth 32 b 0 <= Z.of_nat (List.length b).

Lemma nth_record b rest i : (i < List.length b)%nat -> nth i (b ++ rest) 0 = nth i b 0.
Proof. apply app_nth1. Qed.

(** A record is read in the same way whatever follows it. *)
Lemma direntry_app unicode root entry b rest : record_ok b -> direntry unicode root entry (b ++ rest) = direntry unicode root entry b.
Proof.
  intros (H0 & H34 & Hn & Hend). unfold direntry, be_at. rewrite !nth_record by lia.
  assert (record_name unicode (b ++ rest) (nth 32 b 0) = record_name unicode b (nth 32 b 0) /\
          record_namelen unicode (b ++ rest) (nth 32 b 0) = record_namelen unicode b (nth 32 b 0)) as [-> ->]; [|done].
  unfold record_name, record_namelen. rewrite !nth_record by lia. split; [|done].
  destruct (_ && _); [done|]. destruct unicode.
  - f_equal. apply list_fmap_ext. intros k i [-> Hi]%lookup_seq. apply nth_record.
    pose proof (Z.div_mod (nth 32 b 0) 2 ltac:(lia)). pose proof (Z.mod_pos_bound (nth 32 b 0) 2 ltac:(lia)). lia.
  - destruct (_ <? _); [|done]. f_equal. rewrite drop_app_le by lia. rewrite take_app_le; [done|]. rewrite length_drop. lia.
Qed.

Section directory.
Context (readSectors : Z -> Z -> option (list Z)) (content : Z -> Z) (last : Z) (Hdrive : drive_ok readSectors content last).
Abbreviation cached := (cache_ok content last).

(** The mount but for the buffers. *)
Definition same_tree (s s' : iso) : Prop :=
  iso_unicode s' = iso_unicode s /\ iso_rootentry s' = iso_rootentry s /\ iso_currententry s' = iso_currententry s.
(** Arrays of children come and go with the children of the entry. *)
Definition arrays (entry : DIR_ENTRY) : Z := if has_children entry then 1 else 0.
Definition counted (s : iso) (entry : DIR_ENTRY) (s' : iso) (entry' : DIR_ENTRY) : Prop :=
  child_arrays s' - arrays entry' = child_arrays s - arrays entry.
Lemma direntry_keeps unicode root entry b entry' : direntry unicode root entry b = Some entry' -> has_children entry = true -> has_children entry' = true.
Proof.
  unfold direntry. cbv zeta. intros H Hc. repeat case_match; simplify_eq; try done. destruct entry as [? ? ? ? ? [|]]; done.
Qed.

Definition add_record (s : iso) (entry : DIR_ENTRY) (b : list Z) : option DIR_ENTRY :=
  direntry (iso_unicode s) (pt_sector (table_entry (iso_rootentry s))) entry b.

(** What is done after a record. *)
Definition after_record (fuel : nat) (path : PATH_ENTRY) (entry : DIR_ENTRY) (sector remaining o : Z) (rest : list Z) : MI (bool * DIR_ENTRY) :=
  let '(remaining, o, sector) :=
    if (SECTOR_SIZE <=? o) || (hd 0 rest =? 0) then (u32 (remaining - SECTOR_SIZE), 0, u32 (sector + 1)) else (remaining, o, sector) in
  if 0 <? remaining then read_directory_loop readSectors fuel path entry sector remaining o else ret (true, entry).

Lemma record_step fuel path entry entry' sector remaining o b rest s : cached s -> 0 <= sector < last -> 0 <= o < SECTOR_SIZE ->
  bytes content (sector * SECTOR_SIZE + o) (SECTOR_SIZE - o) = b ++ rest -> record_ok b -> add_record s entry b = Some entry' ->
  exists s', cached s' /\ same_tree s s' /\ counted s entry s' entry' /\
    read_directory_loop readSectors (S fuel) path entry sector remaining o s =
    (let (remaining, entry) := if remaining =? 0 then (de_size entry', entry' <| path_entry := Some path |>) else (remaining, entry') in
     after_record fuel path entry sector remaining (o + Z.of_nat (List.length b)) rest) s'.
Proof.
  intros Hc Hs Ho Hb Hr Ha. unfold SECTOR_SIZE in *. cbn [read_directory_loop].
  destruct (read1_run readSectors content last Hdrive s (sector * 0x800 + o) (0x800 - o) Hc) as (s1 & E & Hc1 & Hs1); [lia|lia|unfold SECTOR_SIZE; lia|].
  unfold SECTOR_SIZE, ISO_BUFFER_SIZE in E. rewrite Z.add_comm, Z.mod_add, Z.mod_small in E by lia.
  rewrite Z.min_r in E by lia. rewrite (Z.add_comm o) in E. rewrite Hb in E. unfold SECTOR_SIZE. rewrite (bind_ok _ _ _ _ _ E).
  assert (Z.of_nat (List.length (b ++ rest)) = 0x800 - o) as Hlen by (rewrite <- Hb; apply bytes_length; lia).
  rewrite Hlen, Z.eqb_refl. cbn [negb]. set (s2 := s1 <| cluster_buffer ::= fun c => (b ++ rest) ++ drop (List.length (b ++ rest)) c |>).
  set (s3 := if negb (has_children entry) && has_children entry' then s2 <| child_arrays ::= fun n => n + 1 |> else s2).
  exists s3. split; [unfold s3; by case_match|]. split; [destruct Hs1 as (_ & H1 & H2 & H3 & H4); unfold s3; by case_match|]. split.
  { destruct Hs1 as (_ & _ & _ & _ & H4). unfold counted, s3, arrays. pose proof (direntry_keeps _ _ _ _ _ Ha) as Hk.
    destruct (has_children entry), (has_children entry'); cbn [negb andb]; try (specialize (Hk eq_refl); discriminate); cbn; lia. }
  rewrite (bind_ok (modify _) _ s1 tt s2) by done.
  set (buf := (b ++ rest) ++ drop (List.length (b ++ rest)) (cluster_buffer s1)).
  rewrite (bind_ok (gets cluster_buffer) _ s2 buf s2) by done.
  assert (read_direntry entry buf s2 = Ok (entry', Z.of_nat (List.length b)) s3) as Er.
  { unfold read_direntry. erewrite bind_ok by reflexivity. destruct Hs1 as (_ & H1 & H2 & _).
    change (iso_unicode s2) with (iso_unicode s1). change (iso_rootentry s2) with (iso_rootentry s1). rewrite H1, H2. unfold buf.
    rewrite <- app_assoc, direntry_app by done. unfold add_record in Ha. rewrite Ha. destruct Hr as (H0 & H34 & _). rewrite nth_record by lia. rewrite H0. unfold s3. by destruct (_ && _). }
  rewrite (bind_ok _ _ _ _ _ Er). cbv iota beta. unfold after_record, SECTOR_SIZE.
  assert ((0x800 <=? o + Z.of_nat (List.length b)) || (nth (Z.to_nat (Z.of_nat (List.length b))) buf 0 =? 0) =
          (0x800 <=? o + Z.of_nat (List.length b)) || (hd 0 rest =? 0)) as Ecut.
  { destruct (Z.leb_spec 0x800 (o + Z.of_nat (List.length b))); [done|]. cbn [orb]. rewrite Nat2Z.id. unfold buf.
    rewrite length_app in Hlen. rewrite <- app_assoc, app_nth2, Nat.sub_diag by lia. destruct rest as [|c rest]; [cbn in Hlen; lia|done]. }
  rewrite Ecut. by destruct (remaining =? 0).
Qed.

(** Records one after the other. *)
Fixpoint add_records (s : iso) (entry : DIR_ENTRY) (l : list (list Z)) : option DIR_ENTRY :=
  match l with
  | [] => Some entry
  | b :: l' => match add_record s entry b with Some entry' => add_records s entry' l' | None => None end
  end.

Lemma add_records_same s s' l : same_tree s s' -> forall entry, add_records s' entry l = add_records s entry l.
Proof.
  intros (H1 & H2 & _). induction l as [|b l IH]; intros entry; [done|]. cbn [add_records]. unfold add_record. rewrite H1, H2.
  destruct (direntry _ _ _ _); [apply IH|done].
Qed.

Lemma add_records_app s l1 l2 : forall entry entry', add_records s entry (l1 ++ l2) = Some entry' ->
  exists e, add_records s entry l1 = Some e /\ add_records s e l2 = Some entry'.
Proof.
  induction l1 as [|b l1 IH]; intros entry entry' Ha; [by exists entry|]. cbn [app add_records] in *.
  destruct (add_record s entry b); [by apply IH|done].
Qed.

Lemma counted_trans s1 e1 s2 e2 s3 e3 : counted s1 e1 s2 e2 -> counted s2 e2 s3 e3 -> counted s1 e1 s3 e3.
Proof. unfold counted. lia. Qed.
Lemma same_tree_trans s1 s2 s3 : same_tree s1 s2 -> same_tree s2 s3 -> same_tree s1 s3.
Proof. unfold same_tree. intuition congruence. Qed.

(** Records that fill a sector from [o] on, and zeros behind them. *)
Definition fills (sector o : Z) (recs : list (list Z)) : Prop :=
  exists pad, bytes content (sector * SECTOR_SIZE + o) (SECTOR_SIZE - o) = List.concat recs ++ replicate pad 0.

Lemma record_nonempty b : record_ok b -> exists c l, b = c :: l /\ c <> 0.
Proof. intros (H0 & H1 & _). destruct b as [|c l]; [cbn in H1; lia|]. exists c, l. split; [done|]. cbn [nth] in H0. lia. Qed.

Lemma fills_cons sector o b recs : 0 <= o < SECTOR_SIZE -> fills sector o (b :: recs) ->
  exists rest, bytes content (sector * SECTOR_SIZE + o) (SECTOR_SIZE - o) = b ++ rest /\ o + Z.of_nat (List.length b) <= SECTOR_SIZE /\
    (forall r recs', recs = r :: recs' -> record_ok r -> o + Z.of_nat (List.length b) < SECTOR_SIZE /\ hd 0 rest <> 0 /\ fills sector (o + Z.of_nat (List.length b)) recs) /\
    (recs = [] -> hd 0 rest = 0).
Proof.
  intros Ho [pad Hp]. cbn [List.concat] in Hp. rewrite <- app_assoc in Hp. exists (List.concat recs ++ replicate pad 0). split; [done|].
  set (n := Z.of_nat (List.length b)). pose proof (f_equal (fun l => Z.of_nat (List.length l)) Hp) as Hlen. cbv beta in Hlen.
  rewrite bytes_length, length_app in Hlen by lia. split; [lia|]. split.
  - intros r recs' -> Hr. destruct (record_nonempty r Hr) as (c & l & -> & Hc). cbn [List.concat app hd]. cbn [List.concat app List.length] in Hlen.
    split; [lia|]. split; [done|]. exists pad. replace (SECTOR_SIZE - o) with (n + (SECTOR_SIZE - (o + n))) in Hp by lia.
    rewrite <- bytes_app in Hp by lia. apply app_inj_1 in Hp as [_ Hp]; [|apply Nat2Z.inj; rewrite bytes_length; lia].
    by rewrite <- Z.add_assoc in Hp.
  - intros ->. cbn [List.concat app]. by destruct pad.
Qed.

Lemma sector_run path recs : forall fuel sector o entry entry' remaining s, cached s -> 0 <= sector < last -> 0 <= o < SECTOR_SIZE ->
  SECTOR_SIZE <= remaining < 2 ^ 32 -> recs <> [] -> Forall record_ok recs -> fills sector o recs -> add_records s entry recs = Some entry' ->
  exists s', cached s' /\ same_tree s s' /\ counted s entry s' entry' /\
    read_directory_loop readSectors (List.length recs + fuel) path entry sector remaining o s =
    (if 0 <? remaining - SECTOR_SIZE then read_directory_loop readSectors fuel path entry' (sector + 1) (remaining - SECTOR_SIZE) 0
     else ret (true, entry')) s'.
Proof.
  induction recs as [|b recs IH]; intros fuel sector o entry entry' remaining s Hc Hs Ho Hr Hne Hok Hf Ha; [done|].
  inversion_clear Hok as [|? ? Hb Hok']. cbn [add_records] in Ha. destruct (add_record s entry b) as [e1|] eqn:E1; [|done].
  destruct (fills_cons sector o b recs Ho Hf) as (rest & Hbytes & Hle & Hmore & Hlast). cbn [List.length Nat.add].
  destruct (record_step (List.length recs + fuel) path entry e1 sector remaining o b rest s Hc Hs Ho Hbytes Hb E1) as (s1 & Hc1 & Ht1 & Hn1 & ->).
  unfold SECTOR_SIZE in *. rewrite (proj2 (Z.eqb_neq remaining 0)) by lia. unfold after_record, SECTOR_SIZE. destruct recs as [|r recs].
  - rewrite (Hlast eq_refl), orb_true_r. cbn [add_records] in Ha. injection Ha as <-. exists s1. split; [done|]. split; [done|]. split; [done|].
    destruct (dr_last _ _ _ Hdrive). rewrite !u32_small by lia. done.
  - inversion Hok' as [|? ? Hr' _]; subst. destruct (Hmore r recs eq_refl Hr') as (Hlt & Hhd & Hf').
    rewrite (proj2 (Z.leb_gt _ _)), (proj2 (Z.eqb_neq _ _) Hhd) by lia. cbn [orb]. rewrite (proj2 (Z.ltb_lt 0 remaining)) by lia.
    rewrite <- (add_records_same _ _ _ Ht1) in Ha.
    destruct (IH fuel sector (o + Z.of_nat (List.length b)) e1 entry' remaining s1) as (s2 & Hc2 & Ht2 & Hn2 & E2); try done; [lia|].
    exists s2. split; [done|]. split; [by eapply same_tree_trans|]. split; [by eapply counted_trans|done].
Qed.

(** All sectors but the first. *)
Lemma sectors_run path layout : forall fuel sector entry entry' s, cached s -> 0 <= sector -> sector + Z.of_nat (List.length layout) <= last ->
  layout <> [] -> Z.of_nat (List.length layout) * SECTOR_SIZE < 2 ^ 32 ->
  (forall k recs, layout !! k = Some recs -> recs <> [] /\ Forall record_ok recs /\ fills (sector + Z.of_nat k) 0 recs) ->
  add_records s entry (List.concat layout) = Some entry' ->
  exists s', cached s' /\ same_tree s s' /\ counted s entry s' entry' /\
    read_directory_loop readSectors (List.length (List.concat layout) + fuel) path entry sector (Z.of_nat (List.length layout) * SECTOR_SIZE) 0 s = Ok (true, entry') s'.
Proof.
  induction layout as [|recs layout IH]; intros fuel sector entry entry' s Hc H0 Hlast Hne Hsz Hlay Ha; [done|].
  destruct (Hlay 0%nat recs eq_refl) as (Hr1 & Hr2 & Hr3). rewrite Z.add_0_r in Hr3. cbn [List.concat] in *.
  apply add_records_app in Ha as (e1 & Ha1 & Ha2).
  rewrite length_app, <- Nat.add_assoc. cbn [List.length] in *. unfold SECTOR_SIZE in *.
  destruct (sector_run path recs (List.length (List.concat layout) + fuel) sector 0 entry e1 (Z.of_nat (S (List.length layout)) * 0x800) s) as (s1 & Hc1 & Ht1 & Hn1 & E1);
    try done; [lia|unfold SECTOR_SIZE; lia|].
  rewrite E1. unfold SECTOR_SIZE. destruct layout as [|r2 layout].
  - cbn in Ha2. injection Ha2 as <-. exists s1. done.
  - set (L := r2 :: layout) in *. replace (Z.of_nat (S (List.length L)) * 0x800 - 0x800) with (Z.of_nat (List.length L) * 0x800) by lia.
    rewrite (proj2 (Z.ltb_lt _ _)) by (cbn; lia). rewrite <- (add_records_same _ _ _ Ht1) in Ha2.
    destruct (IH fuel (sector + 1) e1 entry' s1) as (s2 & Hc2 & Ht2 & Hn2 & E2); try done; [lia|lia|lia| |].
    { intros k rs Hk. destruct (Hlay (S k) rs Hk) as (? & ? & Hfl). split_and!; try done. by replace (sector + 1 + Z.of_nat k) with (sector + Z.of_nat (S k)) by lia. }
    exists s2. split; [done|]. split; [by eapply same_tree_trans|]. split; [by eapply counted_trans|exact E2].
Qed.

(** The sectors behind the first, if any. *)
Lemma tail_run path layout fuel sector entry entry' s : cached s -> 0 <= sector -> sector + Z.of_nat (List.length layout) <= last ->
  Z.of_nat (List.length layout) * SECTOR_SIZE < 2 ^ 32 ->
  (forall k recs, layout !! k = Some recs -> recs <> [] /\ Forall record_ok recs /\ fills (sector + Z.of_nat k) 0 recs) ->
  add_records s entry (List.concat layout) = Some entry' ->
  exists s', cached s' /\ same_tree s s' /\ counted s entry s' entry' /\
    (if 0 <? Z.of_nat (List.length layout) * SECTOR_SIZE
     then read_directory_loop readSectors (List.length (List.concat layout) + fuel) path entry sector (Z.of_nat (List.length layout) * SECTOR_SIZE) 0
     else ret (true, entry)) s = Ok (true, entry') s'.
Proof.
  intros Hc H0 Hlast Hsz Hlay Ha. destruct layout as [|recs layout].
  - cbn in Ha. injection Ha as <-. exists s. done.
  - set (L := recs :: layout) in *. rewrite (proj2 (Z.ltb_lt _ _)) by (unfold SECTOR_SIZE; cbn; lia). by apply sectors_run.
Qed.

(** *** What a directory lists *)

Definition is_self (b : list Z) : bool := (nth 32 b 0 =? 1) && (nth 33 b 0 =? 0).
Definition is_parent (b : list Z) : bool := (nth 32 b 0 =? 1) && (nth 33 b 0 =? 1).
Definition record_sector (b : list Z) : Z := u32 (be_at b 6 + nth 1 b 0).
Definition child_of (unicode : bool) (b : list Z) : DIR_CHILD :=
  mkChild (c_text (cut_version (nth 25 b 0) (record_namelen unicode b (nth 32 b 0)) (default [] (record_name unicode b (nth 32 b 0)))))
    (record_sector b) (be_at b 14) (nth 25 b 0).

(** The parent of the root is not shown. *)
Definition children_of (s : iso) (sector : Z) (l : list (list Z)) : list DIR_CHILD :=
  child_of (iso_unicode s) <$> List.filter (fun b => negb (is_parent b && (pt_sector (table_entry (iso_rootentry s)) =? sector))) l.

Lemma add_records_children s l : forall entry,
  Forall (fun b => is_self b = false /\ is_Some (record_name (iso_unicode s) b (nth 32 b 0))) l ->
  add_records s entry l = Some (entry <| de_children ::= fun c => c ++ children_of s (de_sector entry) l |>).
Proof.
  induction l as [|b l IH]; intros entry Hl.
  - cbn. f_equal. rewrite app_nil_r. by destruct entry.
  - inversion_clear Hl as [|? ? [Hs [name Hn]] Hl']. cbn [add_records]. unfold add_record, direntry. fold (is_parent b) (is_self b).
    unfold children_of. cbn [List.filter]. destruct (is_parent b && _) eqn:E; cbn [negb].
    + rewrite (IH entry Hl'). done.
    + rewrite Hs, Hn. rewrite IH by done. f_equal. destruct entry. cbn. f_equal. rewrite <- app_assoc. f_equal.
      unfold child_of. cbn [fmap list_fmap]. rewrite Hn. done.
Qed.

(** A directory on the disc: from [sector] on, one list of records per sector,
    of which the first describes the directory itself. *)
Record dir_ok (s : iso) (sector : Z) (layout : list (list (list Z))) (self : list Z) (others : list (list Z)) : Prop := {
  do_range : 0 <= sector /\ sector + Z.of_nat (List.length layout) <= last /\ Z.of_nat (List.length layout) * SECTOR_SIZE < 2 ^ 32;
  do_records : List.concat layout = self :: others;
  do_self : is_self self = true /\ be_at self 14 = Z.of_nat (List.length layout) * SECTOR_SIZE;
  do_others : Forall (fun b => is_self b = false /\ is_Some (record_name (iso_unicode s) b (nth 32 b 0))) others;
  do_sectors k recs : layout !! k = Some recs -> recs <> [] /\ Forall record_ok recs /\ fills (sector + Z.of_nat k) 0 recs
}.

Lemma read_directory_run s path layout self others fuel : cached s -> dir_ok s (pt_sector (table_entry path)) layout self others ->
  (List.length (List.concat layout) <= fuel)%nat ->
  exists s', cached s' /\ same_tree s s' /\
    let entry := mkDir [] (record_sector self) (be_at self 14) (nth 25 self 0) (Some path) (children_of s (record_sector self) others) in
    read_directory readSectors fuel DIR_zero path s = Ok (true, entry) s' /\ child_arrays s' = child_arrays s + arrays entry.
Proof.
  intros Hc [(Hr1 & Hr2 & Hr3) Hrec [Hself Hsize] Hoth Hsec] Hfuel. set (sector := pt_sector (table_entry path)) in *.
  destruct layout as [|recs layout]; [done|]. destruct (Hsec 0%nat recs eq_refl) as (Hne & Hok & Hfills). rewrite Z.add_0_r in Hfills.
  destruct recs as [|b recs]; [done|]. cbn [List.concat app] in Hrec. injection Hrec as -> Hothers.
  inversion_clear Hok as [|? ? Hb Hok']. cbn [List.concat app List.length] in *. unfold SECTOR_SIZE in *.
  set (e1 := mkDir [] (record_sector self) (be_at self 14) (nth 25 self 0) None []).
  set (e2 := mkDir [] (record_sector self) (be_at self 14) (nth 25 self 0) (Some path) []).
  assert (add_record s DIR_zero self = Some e1) as Ea.
  { unfold add_record, direntry. fold (is_self self). rewrite Hself. apply andb_prop in Hself as [_ H33%Z.eqb_eq]. rewrite H33.
    change (0 =? 1) with false. rewrite andb_false_r. done. }
  pose proof (add_records_children s others e2 Hoth) as Eall. cbn [e2 de_sector] in Eall. set (efin := mkDir _ _ _ _ _ (children_of _ _ _)).
  change (Some (set _ _ _)) with (Some efin) in Eall. destruct fuel as [|fuel]; [lia|]. unfold read_directory. fold sector.
  destruct (fills_cons sector 0 self recs ltac:(unfold SECTOR_SIZE; lia) Hfills) as (rest & Hbytes & Hle & Hmore & Hlast). rewrite Z.add_0_l in *.
  destruct (record_step fuel path DIR_zero e1 sector 0 0 self rest s Hc ltac:(lia) ltac:(unfold SECTOR_SIZE; lia) Hbytes Hb Ea) as (s1 & Hc1 & Ht1 & Hn1 & ->).
  rewrite Z.eqb_refl. cbv iota beta. change (e1 <| path_entry := Some path |>) with e2. change (de_size e1) with (be_at self 14). rewrite Hsize.
  rewrite <- (add_records_same _ _ _ Ht1), <- Hothers in Eall. rewrite length_app in Hfuel.
  assert (forall k rs, layout !! k = Some rs -> rs <> [] /\ Forall record_ok rs /\ fills (sector + 1 + Z.of_nat k) 0 rs) as Hsec'.
  { intros k rs Hk. replace (sector + 1 + Z.of_nat k) with (sector + Z.of_nat (S k)) by lia. by apply (Hsec (S k)). }
  destruct (dr_last _ _ _ Hdrive) as [Hl0 Hl1]. destruct recs as [|r recs].
  - unfold after_record, SECTOR_SIZE. rewrite (Hlast eq_refl), orb_true_r. rewrite !u32_small by lia.
    destruct (tail_run path layout (fuel - List.length (List.concat layout)) (sector + 1) e2 efin s1) as (s2 & Hc2 & Ht2 & Hn2 & E2); try done; [lia|lia|unfold SECTOR_SIZE; lia|].
    exists s2. split; [done|]. split; [by eapply same_tree_trans|]. split; [|unfold counted in *; change (arrays DIR_zero) with 0 in *; change (arrays e1) with 0 in *; change (arrays e2) with 0 in *; lia].
    rewrite <- E2. unfold SECTOR_SIZE.
    replace (Z.of_nat (S (List.length layout)) * 0x800 - 0x800) with (Z.of_nat (List.length layout) * 0x800) by lia.
    by replace (List.length (List.concat layout) + (fuel - List.length (List.concat layout)))%nat with fuel by (cbn in Hfuel; lia).
  - inversion Hok' as [|? ? Hr' _]; subst. destruct (Hmore r recs eq_refl Hr') as (Hlt & Hhd & Hf'). set (R := r :: recs) in *.
    apply add_records_app in Eall as (e3 & E3 & E4). unfold after_record. unfold SECTOR_SIZE in *. rewrite Z.add_0_l.
    rewrite (proj2 (Z.leb_gt _ _)), (proj2 (Z.eqb_neq _ _) Hhd) by lia. cbn [orb]. rewrite (proj2 (Z.ltb_lt 0 _)) by lia.
    set (f := (fuel - List.length R)%nat). replace fuel with (List.length R + f)%nat by (unfold f; lia).
    destruct (sector_run path R f sector (Z.of_nat (List.length self)) e2 e3 (Z.of_nat (S (List.length layout)) * 0x800) s1) as (s2 & Hc2 & Ht2 & Hn2 & E2);
      try done; [lia|unfold SECTOR_SIZE; lia|unfold SECTOR_SIZE; lia|]. rewrite E2.
    rewrite <- (add_records_same _ _ _ Ht2) in E4.
    destruct (tail_run path layout (f - List.length (List.concat layout)) (sector + 1) e3 efin s2) as (s3 & Hc3 & Ht3 & Hn3 & E5); try done; [lia|lia|unfold SECTOR_SIZE; lia|].
    exists s3. split; [done|]. split; [eapply same_tree_trans; [done|by eapply same_tree_trans]|]. split; [|unfold counted in *; change (arrays DIR_zero) with 0 in *; change (arrays e1) with 0 in *; change (arrays e2) with 0 in *; lia].
    rewrite <- E5. unfold SECTOR_SIZE.
    replace (Z.of_nat (S (List.length layout)) * 0x800 - 0x800) with (Z.of_nat (List.length layout) * 0x800) by lia.
    by replace (List.length (List.concat layout) + (f - List.length (List.concat layout)))%nat with f by (unfold f; lia).
Qed.

End directory.
