(* ===== verification/IsoOpen.v ===== *)
(** * ISO 9660 file system: from a path to the bytes of the file *)
From S2P Require Import Prelude Bits GdbHex Iso IsoFacts.
From Stdlib Require Import Ascii String.
Open Scope Z_scope.
Open Scope list_scope.
Open Scope xenon_scope.

(** ** Taking a path apart *)

Lemma last_separator_app d base : Forall (fun c => c <> DIR_SEPARATOR) base -> last_separator (d ++ DIR_SEPARATOR :: base) = Some (List.length d).
Proof.
  intros Hb. induction d as [|c d IH]; cbn [app last_separator List.length].
  - assert (last_separator base = None) as ->; [|by rewrite Z.eqb_refl].
    induction Hb as [|c base Hc _ IH]; [done|]. cbn [last_separator]. rewrite IH. by rewrite (proj2 (Z.eqb_neq c _)).
  - by rewrite IH.
Qed.

Lemma dirname_app d base : Forall (fun c => c <> DIR_SEPARATOR) base -> iso_dirname (d ++ DIR_SEPARATOR :: base) = Some d.
Proof. intros Hb. unfold iso_dirname. rewrite last_separator_app by done. by rewrite take_app_length. Qed.

Lemma basename_app d base : Forall (fun c => c <> DIR_SEPARATOR) base -> iso_basename (d ++ DIR_SEPARATOR :: base) = base.
Proof.
  intros Hb. unfold iso_basename. rewrite last_separator_app by done. replace (S (List.length d)) with (List.length d + 1)%nat by lia.
  by rewrite <- drop_drop, drop_app_length.
Qed.

Lemma after_colon_app dev p : Forall (fun c => c <> ch ":") dev -> after_colon (dev ++ ch ":" :: p) = p.
Proof.
  intros Hd. unfold after_colon. rewrite strchr_app by done.
  replace (S (List.length dev)) with (List.length dev + 1)%nat by lia. by rewrite <- drop_drop, drop_app_length.
Qed.

(** A path that does not end in a separator is left as it is. *)
Lemma strip_keeps d base : base <> [] -> Forall (fun c => c <> DIR_SEPARATOR) base ->
  strip_separators (List.length (d ++ DIR_SEPARATOR :: base)) (d ++ DIR_SEPARATOR :: base) = d ++ DIR_SEPARATOR :: base.
Proof.
  intros Hne Hb. set (p := d ++ DIR_SEPARATOR :: base).
  assert (nth (List.length p - 1) p 0 <> DIR_SEPARATOR) as Hl.
  { unfold p. rewrite length_app. cbn [List.length]. destruct base as [|c base _] using rev_ind; [done|].
    rewrite app_nth2 by lia. rewrite length_app. cbn [List.length].
    replace (List.length d + S (List.length base + 1) - 1 - List.length d)%nat with (S (List.length base)) by lia. cbn [nth].
    rewrite app_nth2, Nat.sub_diag by lia. apply Forall_app in Hb as [_ Hb]. by inversion_clear Hb. }
  destruct (List.length p) as [|[|n]] eqn:E; [done|done|]. cbn [strip_separators]. change (S (S n) - 1)%nat with (S n) in *.
  by rewrite (proj2 (Z.eqb_neq _ _) Hl).
Qed.

(** ** Opening a file *)

Section opening.
Context (readSectors : Z -> Z -> option (list Z)) (content : Z -> Z) (last : Z) (Hdrive : drive_ok readSectors content last).

(** Opening a path and making calls on the file. *)
Definition open_and_run (fuel : nat) (path : list Z) (ops : list file_op) : MI (option (list (Z * list Z * option errno))) :=
  let* (f, _) := ISO9660_open_r readSectors fuel path in
  match f with
  | None => ret None
  | Some file => r <- run_files readSectors ops file ;; ret (Some r)
  end.

Lemma open_finds s dev dir base parent layout self others c fuel :
  cache_ok content last s -> Forall (fun c => c <> ch ":") dev -> base <> [] -> Forall (fun c => c <> DIR_SEPARATOR) base ->
  lookup_names (iso_rootentry s) (names dir []) = Some parent -> find_child base parent = None ->
  dir_ok content last s (pt_sector (table_entry parent)) layout self others ->
  List.find (fun c => same_name base (ch_name c)) (children_of s (record_sector self) others) = Some c ->
  (List.length (List.concat layout) <= fuel)%nat ->
  exists s', cache_ok content last s' /\ child_arrays s' = child_arrays s + 1 /\
    entry_from_path readSectors fuel (dev ++ ch ":" :: dir ++ DIR_SEPARATOR :: base) s = Ok (Some (mkDir (ch_name c) (ch_sector c) (ch_size c) (ch_flags c) None [])) s'.
Proof.
  intros Hc Hdev Hne Hb Hpar Hnd Hdir Hfind Hfuel. unfold entry_from_path. cbv zeta.
  rewrite after_colon_app, strip_keeps, dirname_app, basename_app by done.
  rewrite (bind_ok (gets iso_rootentry) _ s (iso_rootentry s) s) by done. rewrite path_lookup, Hpar.
  destruct (read_directory_run readSectors content last Hdrive s parent layout self others fuel Hc Hdir Hfuel) as (s1 & Hc1 & _ & E & Hn). cbv zeta in E, Hn.
  unfold find_in_directory. destruct base as [|x base]; [done|]. rewrite Hnd, bind_assoc, (bind_ok _ _ _ _ _ E). cbn [negb de_children]. rewrite Hfind. exists s1.
  split; [done|]. split; [|done]. rewrite Hn. f_equal. unfold arrays, has_children. cbn [de_children]. by destruct (children_of _ _ _).
Qed.

(** Opening a path and reading gives the bytes of the file.  On a disc the
    drive can read, let the names before the last lead from the root to a
    directory, written in whole records over any number of sectors, and let the
    first entry that it lists under the last name, letters compared without case
    and versions cut off, be a file on the disc.  Then opening
    the path succeeds, whatever is cached, and any calls that read from and seek
    in the file give what they give on the bytes of its extent and a position at
    the start. *)
Theorem iso_open_reads s dev dir base parent layout self others c fuel ops :
  cache_ok content last s -> Forall (fun c => c <> ch ":") dev -> base <> [] -> Forall (fun c => c <> DIR_SEPARATOR) base ->
  lookup_names (iso_rootentry s) (names dir []) = Some parent -> find_child base parent = None ->
  dir_ok content last s (pt_sector (table_entry parent)) layout self others ->
  List.find (fun c => same_name base (ch_name c)) (children_of s (record_sector self) others) = Some c ->
  is_dir (ch_flags c) = false -> 0 <= ch_sector c -> 0 <= ch_size c < 2 ^ 31 ->
  ch_sector c * SECTOR_SIZE + ch_size c <= last * SECTOR_SIZE -> Forall op_ok ops ->
  (List.length (List.concat layout) <= fuel)%nat ->
  runs (open_and_run fuel (dev ++ ch ":" :: dir ++ DIR_SEPARATOR :: base) ops) s (fun r s' =>
    r = Some (spec_files (bytes content (ch_sector c * SECTOR_SIZE) (ch_size c)) 0 ops) /\ cache_ok content last s').
Proof.
  intros Hc Hdev Hne Hb Hpar Hnd Hdir Hfind Hfile Hsec Hsize Hext Hops Hfuel.
  destruct (open_finds s dev dir base parent layout self others c fuel) as (s1 & Hc1 & _ & E); try done.
  set (file := mkFile (mkDir (ch_name c) (ch_sector c) (ch_size c) (ch_flags c) None []) 0 true).
  destruct (iso_file_refines readSectors content last Hdrive s1 file ops Hc1) as (s2 & E2 & Hc2); [|done|].
  { unfold file_ok, file. cbn. split_and!; try done; lia. }
  eexists _, s2. split; [|split; [reflexivity|exact Hc2]]. unfold open_and_run, ISO9660_open_r.
  rewrite bind_assoc, (bind_ok _ _ _ _ _ E). cbn [de_flags]. rewrite Hfile. fold file.
  rewrite (bind_ok (ret (Some file, None)) _ s1 (Some file, None) s1) by done. by rewrite (bind_ok _ _ _ _ _ E2).
Qed.
End opening.

(** ** A disc with one file *)

Definition be_bytes (v : Z) : list Z := put_be v.
Definition mk_record (sector size flags : Z) (name : list Z) : list Z :=
  let n := Z.of_nat (List.length name) in
  [33 + n; 0; 0; 0; 0; 0] ++ be_bytes sector ++ [0; 0; 0; 0] ++ be_bytes size ++ replicate 7 0 ++ [flags; 0; 0; 0; 0; 0; 0; n] ++ name.

Definition demo_self : list Z := mk_record 20 0x800 2 [0].
Definition demo_others : list (list Z) := [mk_record 20 0x800 2 [1]; mk_record 21 5 0 (str "README.TXT;1")].
Definition demo_dir : list Z := List.concat (demo_self :: demo_others).
Definition demo_content (x : Z) : Z :=
  if x <? 40960 then 0 else if x <? 43008 then nth (Z.to_nat (x - 40960)) demo_dir 0 else nth (Z.to_nat (x - 43008)) (str "Xenon") 0.
Definition demo_sectors (s n : Z) : option (list Z) := if (0 <=? s) && (s <? 40) then Some (bytes demo_content (s * SECTOR_SIZE) (n * SECTOR_SIZE)) else None.
Definition demo_root : PATH_ENTRY := PathEntry 1 (mkPT 1 0 20 0 [0]) [].
Definition demo_iso : iso := mkIso [] [] 0 0 false demo_root (Some 1) 0.

Lemma demo_drive : drive_ok demo_sectors demo_content 40.
Proof.
  split; [lia|]. intros s Hs. unfold demo_sectors. rewrite (proj2 (Z.leb_le 0 s)), (proj2 (Z.ltb_lt s 40)) by lia. reflexivity.
Qed.

Lemma demo_dir_ok : dir_ok demo_content 40 demo_iso 20 [demo_self :: demo_others] demo_self demo_others.
Proof.
  split.
  - unfold SECTOR_SIZE. cbn [List.length]. lia.
  - reflexivity.
  - split; reflexivity.
  - repeat constructor; by eexists.
  - intros k recs Hk. destruct k as [|k]; [|done]. injection Hk as <-. split; [done|]. split.
    + repeat constructor; vm_compute; discriminate.
    + exists (2048 - List.length demo_dir)%nat. vm_compute. reflexivity.
Qed.

Lemma iso_open_reads_demo :
  exists s', open_and_run demo_sectors 10 (str "iso:/readme.txt") [Read 3; Seek (-2) SEEK_END; Read 9] demo_iso =
    Ok (Some [(3, str "Xen", None); (3, [], None); (2, str "on", Some EOVERFLOW)]) s'.
Proof.
  destruct (iso_open_reads demo_sectors demo_content 40 demo_drive demo_iso (str "iso") [] (str "readme.txt") demo_root
    [demo_self :: demo_others] demo_self demo_others (mkChild (str "README.TXT") 21 5 0) 10 [Read 3; Seek (-2) SEEK_END; Read 9])
    as (r & s' & E & -> & _).
  - by left.
  - repeat constructor; discriminate.
  - discriminate.
  - repeat constructor; discriminate.
  - reflexivity.
  - reflexivity.
  - exact demo_dir_ok.
  - vm_compute. reflexivity.
  - reflexivity.
  - cbn. lia.
  - cbn. lia.
  - vm_compute. discriminate.
  - repeat constructor; vm_compute; discriminate.
  - cbn. lia.
  - exists s'. exact E.
Defined.
