(* ===== verification/IsoMount.v ===== *)
(** * ISO 9660 file system: mounting builds the tree of the path table *)
From S2P Require Import Prelude Bits GdbHex Iso IsoFacts.
From Stdlib Require Import Ascii String.
Open Scope Z_scope.
Open Scope list_scope.
Open Scope xenon_scope.

(** ** The tree of a table

    Entry [i] of the table (counted from one) names its parent by number; the
    tree puts every entry under its parent, in the order of the table. *)

Abbreviation table := (list PATHTABLE_ENTRY).

Definition entry (tb : table) (i : nat) : PATHTABLE_ENTRY := nth (i - 1) tb (mkPT 0 0 0 0 []).
Definition parent (tb : table) (i : nat) : nat := Z.to_nat (pt_parent (entry tb i)).
Definition kids (tb : table) (i : nat) : list nat := List.filter (fun j => Nat.eqb (parent tb j) i) (seq 2 (List.length tb - 1)).

(** The subtree of an entry, [f] levels deep. *)
Fixpoint node (tb : table) (f i : nat) : PATH_ENTRY :=
  PathEntry (Z.of_nat i) (entry tb i) (match f with O => [] | S f' => node tb f' <$> kids tb i end).

(** The tree: no path is longer than the table. *)
Definition tree_of (tb : table) : PATH_ENTRY := node tb (List.length tb) 1.

(** Parents come before their children. *)
Definition parents_ok (tb : table) : Prop :=
  forall i, (2 <= i <= List.length tb)%nat -> 1 <= pt_parent (entry tb i) < Z.of_nat i.

Inductive under (tb : table) (i : nat) : nat -> Prop :=
  | under_here : under tb i i
  | under_step p : (2 <= p <= List.length tb)%nat -> under tb i (parent tb p) -> under tb i p.

(** Adding under an entry of a list of trees. *)
Definition add_in (child : PATH_ENTRY) (p : nat) : list PATH_ENTRY -> option (list PATH_ENTRY) :=
  fix go (l : list PATH_ENTRY) : option (list PATH_ENTRY) :=
    match l with
    | [] => None
    | c :: l' =>
        match add_child_entry c (Z.of_nat p) child with
        | Some c' => Some (c' :: l')
        | None => match go l' with Some l'' => Some (c :: l'') | None => None end
        end
    end.
Lemma add_in_cons child p c l : add_in child p (c :: l) =
  match add_child_entry c (Z.of_nat p) child with
  | Some c' => Some (c' :: l)
  | None => match add_in child p l with Some l' => Some (c :: l') | None => None end
  end.
Proof. done. Qed.
Lemma add_child_below child p i t l : i <> p -> add_child_entry (PathEntry (Z.of_nat i) t l) (Z.of_nat p) child =
  match add_in child p l with Some l' => Some (PathEntry (Z.of_nat i) t l') | None => None end.
Proof. intros Hne. cbn [add_child_entry]. by rewrite (proj2 (Z.eqb_neq (Z.of_nat i) (Z.of_nat p))) by lia. Qed.

Section tree.
Context (tb : table) (Hp : parents_ok tb).

Lemma parent_lt p : (2 <= p <= List.length tb)%nat -> (1 <= parent tb p < p)%nat.
Proof. intros H. pose proof (Hp p H). unfold parent. lia. Qed.

Lemma under_le i p : under tb i p -> (i <= p)%nat.
Proof. induction 1 as [|p H _ IH]; [lia|]. pose proof (parent_lt p H). lia. Qed.

Lemma kids_spec i k : k ∈ kids tb i <-> (2 <= k <= List.length tb)%nat /\ parent tb k = i.
Proof.
  unfold kids. rewrite list_elem_of_In, filter_In, in_seq, Nat.eqb_eq. split; [|intros [? ?]; split; [lia|done]]. intros [? ?]. split; [lia|done].
Qed.

Lemma kids_nodup i : NoDup (kids tb i).
Proof. unfold kids. apply NoDup_ListNoDup, List.NoDup_filter, seq_NoDup. Qed.

Lemma kids_above i k : k ∈ kids tb i -> (i < k <= List.length tb)%nat.
Proof. intros [H <-]%kids_spec. pose proof (parent_lt k H). lia. Qed.

Lemma under_root p : (1 <= p <= List.length tb)%nat -> under tb 1 p.
Proof.
  induction p as [p IH] using lt_wf_ind. intros H. destruct (decide (p = 1)%nat) as [->|Hne]; [constructor|].
  apply under_step; [lia|]. pose proof (parent_lt p ltac:(lia)). apply IH; lia.
Qed.

(** Below an entry there is exactly one child on the way to [p]. *)
Lemma under_kid i p : under tb i p -> p <> i -> exists k, k ∈ kids tb i /\ under tb k p.
Proof.
  induction 1 as [|p H Hu IH]; [done|]. intros _. destruct (decide (parent tb p = i)) as [E|E].
  - exists p. split; [by apply kids_spec|constructor].
  - destruct (IH E) as (k & Hk & Hk'). exists k. split; [done|]. by apply under_step.
Qed.

Lemma under_up i k p : k ∈ kids tb i -> under tb k p -> under tb i p.
Proof.
  intros [Hk1 Hk2]%kids_spec Hu. induction Hu as [|q Hq _ IH]; apply under_step; try done. rewrite Hk2. constructor.
Qed.

Lemma under_linear i j p : under tb i p -> under tb j p -> under tb i j \/ under tb j i.
Proof.
  induction 1 as [|p H Hu IH]; intros Hj; [by right|]. inversion Hj as [|? _ Hj']; subst; [left; by apply under_step|by apply IH].
Qed.

Lemma under_trans_parent i j : under tb i j -> i <> j -> under tb i (parent tb j).
Proof. intros H Hne. by destruct H. Qed.

Lemma kid_unique i k k' p : k ∈ kids tb i -> k' ∈ kids tb i -> under tb k p -> under tb k' p -> k = k'.
Proof.
  intros Hk Hk' Hu Hu'. destruct (decide (k = k')) as [|Hne]; [done|exfalso].
  pose proof (kids_above _ _ Hk). pose proof (kids_above _ _ Hk'). apply kids_spec in Hk as [_ Ek], Hk' as [_ Ek'].
  destruct (under_linear _ _ _ Hu Hu') as [H1|H1]; apply under_trans_parent, under_le in H1; try done; lia.
Qed.

Lemma entry_index_found f : forall i p, under tb i p -> (List.length tb < f + i)%nat -> (p <= List.length tb)%nat ->
  exists e, entry_from_index (node tb f i) (Z.of_nat p) = Some e.
Proof.
  induction f as [|f IH]; intros i p Hu Hf Hpl; [pose proof (under_le _ _ Hu); lia|]. cbn [node entry_from_index].
  destruct (Z.eqb_spec (Z.of_nat i) (Z.of_nat p)) as [E|E]; [by eexists|].
  destruct (under_kid i p Hu ltac:(lia)) as (k & Hk & Hkp). pose proof (kids_above _ _ Hk) as Ha.
  destruct (IH k p Hkp ltac:(lia) Hpl) as (e & He). clear -Hk He.
  induction (kids tb i) as [|x l IHl]; [by apply not_elem_of_nil in Hk|]. cbn [fmap list_fmap].
  destruct (entry_from_index (node tb f x) (Z.of_nat p)) as [m|] eqn:Em; [by eexists|].
  apply elem_of_cons in Hk as [->|Hk]; [congruence|]. by apply IHl.
Qed.

(** *** One more entry *)

Context (e : PATHTABLE_ENTRY) (p : nat).
Context (He : pt_parent e = Z.of_nat p) (Hpl : (1 <= p <= List.length tb)%nat).
Let tb' := tb ++ [e].
Let new := (List.length tb + 1)%nat.

Lemma entry_old i : (1 <= i <= List.length tb)%nat -> entry tb' i = entry tb i.
Proof. intros Hi. unfold entry, tb'. rewrite app_nth1 by lia. done. Qed.
Lemma entry_new : entry tb' new = e.
Proof. unfold entry, tb', new. rewrite app_nth2 by lia. by replace (List.length tb + 1 - 1 - List.length tb)%nat with 0%nat by lia. Qed.

Lemma kids_old i : kids tb' i = kids tb i ++ if Nat.eqb p i then [new] else [].
Proof.
  unfold kids, tb'. rewrite length_app. cbn [List.length]. replace (List.length tb + 1 - 1)%nat with (List.length tb - 1 + 1)%nat by lia.
  rewrite seq_app, List.filter_app. cbn [seq List.filter]. replace (2 + (List.length tb - 1))%nat with new by (unfold new; lia).
  fold tb'. f_equal.
  - apply filter_ext_in. intros j Hj%in_seq. unfold parent. by rewrite entry_old by lia.
  - unfold parent. rewrite entry_new, He, Nat2Z.id. done.
Qed.

Lemma kids_new : kids tb' new = [].
Proof.
  rewrite kids_old, (proj2 (Nat.eqb_neq p new)) by (unfold new; lia). rewrite app_nil_r. destruct (kids tb new) as [|k l] eqn:E; [done|exfalso].
  assert (k ∈ kids tb new) as Hk by (rewrite E; constructor). pose proof (kids_above _ _ Hk). unfold new in *. lia.
Qed.

(** Away from its parent nothing changes. *)
Lemma node_same f : forall i, (1 <= i <= List.length tb)%nat -> ~ under tb i p -> node tb' f i = node tb f i.
Proof.
  induction f as [|f IH]; intros i Hi Hn; cbn [node]; rewrite entry_old by done; [done|]. f_equal.
  rewrite kids_old, (proj2 (Nat.eqb_neq p i)), app_nil_r by (intros ->; apply Hn; constructor).
  apply list_fmap_ext. intros n k Hk%list_elem_of_lookup_2. pose proof (kids_above _ _ Hk). apply IH; [lia|].
  intros Hu. apply Hn. by apply (under_up i k).
Qed.

Let child := PathEntry (Z.of_nat new) e [].

(** The parent is not found elsewhere. *)
Lemma add_elsewhere f : forall i, ~ under tb i p -> add_child_entry (node tb f i) (Z.of_nat p) child = None.
Proof.
  induction f as [|f IH]; intros i Hn; cbn [node]; rewrite add_child_below by (intros ->; apply Hn; constructor); [done|].
  assert (forall k, k ∈ kids tb i -> ~ under tb k p) as Hk.
  { intros k Hk Hu. apply Hn. by apply (under_up i k). }
  assert (forall l, (forall k, k ∈ l -> ~ under tb k p) -> add_in child p (node tb f <$> l) = None) as Hgo; [|by rewrite Hgo].
  induction l as [|k l IHl]; intros Hl; [done|]. cbn [fmap list_fmap]. rewrite add_in_cons. rewrite IH by (apply Hl; constructor).
  rewrite IHl; [done|]. intros x Hx. apply Hl. by constructor.
Qed.

(** The entry is put under its parent. *)
Lemma add_node f : forall i, under tb i p -> (List.length tb < f + i)%nat -> (1 <= i)%nat ->
  add_child_entry (node tb f i) (Z.of_nat p) child = Some (node tb' f i).
Proof.
  induction f as [|f IH]; intros i Hu Hf Hi; pose proof (under_le _ _ Hu) as Hip; [lia|]. cbn [node]. rewrite entry_old, kids_old by lia.
  destruct (decide (i = p)) as [->|E].
  - cbn [add_child_entry]. rewrite Z.eqb_refl. rewrite Nat.eqb_refl, fmap_app. do 2 f_equal. f_equal.
    + apply list_fmap_ext. intros n k Hk%list_elem_of_lookup_2. pose proof (kids_above _ _ Hk). symmetry. apply node_same; [lia|].
      intros Hk'%under_le. lia.
    + cbn [fmap list_fmap]. f_equal. destruct f as [|f]; cbn [node]; rewrite entry_new, ?kids_new; done.
  - rewrite (proj2 (Nat.eqb_neq p i)), app_nil_r, add_child_below by lia.
    destruct (under_kid i p Hu ltac:(done)) as (k & Hk & Hkp).
    assert (forall l, k ∈ l -> NoDup l -> (forall x, x ∈ l -> x ∈ kids tb i) -> add_in child p (node tb f <$> l) = Some (node tb' f <$> l)) as Hgo; [|by rewrite Hgo by (done || apply kids_nodup)].
    { induction l as [|x l IHl]; intros Hin Hnd Hsub; [by apply not_elem_of_nil in Hin|]. inversion_clear Hnd as [|? ? Hx Hnd'].
      cbn [fmap list_fmap]. rewrite add_in_cons. assert (x ∈ kids tb i) as Hxk by (apply Hsub; constructor). pose proof (kids_above _ _ Hxk).
      destruct (decide (x = k)) as [->|Hne].
      - rewrite IH by (done || lia). do 2 f_equal. apply list_fmap_ext. intros n y Hy%list_elem_of_lookup_2.
        assert (y ∈ kids tb i) as Hyk by (apply Hsub; by constructor). pose proof (kids_above _ _ Hyk). symmetry. apply node_same; [lia|].
        intros Hyp. apply Hx. by rewrite (kid_unique i k y p).
      - assert (~ under tb x p) as Hnx by (intros Hxp; apply Hne; by apply (kid_unique i x k p)). rewrite add_elsewhere by done.
        apply elem_of_cons in Hin as [->|Hin]; [done|]. rewrite IHl; [by rewrite node_same by (done || lia)|done|done|]. intros y Hy. apply Hsub. by constructor. }
Qed.
End tree.

(** ** The path table on the disc *)

Section mounting.
Context (readSectors : Z -> Z -> option (list Z)) (content : Z -> Z) (last : Z) (Hdrive : drive_ok readSectors content last).
(** The drive also reads single sectors. *)
Context (Hone : forall s, 0 <= s < last -> readSectors s 1 = Some (bytes content (s * SECTOR_SIZE) SECTOR_SIZE)).

(** The entry at a place of the disc, and the entries from an offset of the
    table to its end, each at an even distance behind the one before. *)
Definition entry_at (a : Z) : PATHTABLE_ENTRY := read_pathtable_entry (bytes content a sizeof_PATHTABLE_ENTRY).
Definition entry_length (e : PATHTABLE_ENTRY) : Z := 8 + name_length e + (if nz (name_length e mod 2) then 1 else 0).

Inductive entries (start len : Z) : Z -> list PATHTABLE_ENTRY -> Prop :=
  | entries_end o : len <= o -> entries start len o []
  | entries_more o l : o < len -> start + o + sizeof_PATHTABLE_ENTRY <= last * SECTOR_SIZE ->
      entries start len (o + entry_length (entry_at (start + o))) l -> entries start len o (entry_at (start + o) :: l).

Lemma finish_parent u e t : finish_entry u e = Some t -> pt_parent t = pt_parent e.
Proof. unfold finish_entry. cbv zeta. intros H. repeat case_match; by simplify_eq. Qed.

Lemma table_run fuel : forall l ts tb P len i o par s F, entries (P * SECTOR_SIZE) len o l -> Forall2 (fun e t => finish_entry (iso_unicode s) e = Some t) l ts ->
  cache_ok content last s -> 0 <= P -> 0 <= o -> iso_rootentry s = node tb F 1 -> List.length tb = i -> (1 <= i)%nat -> (List.length (tb ++ ts) < F + 1)%nat ->
  parents_ok (tb ++ ts) -> Z.of_nat (i + List.length l) <= 0xffff -> (List.length l < fuel)%nat -> Forall (fun e => 0 <= name_length e) l ->
  exists s', path_table_loop readSectors fuel P len (Z.of_nat i) o par s = Ok true s' /\ cache_ok content last s' /\
    iso_rootentry s' = node (tb ++ ts) F 1 /\ iso_unicode s' = iso_unicode s /\ iso_currententry s' = iso_currententry s /\
    child_arrays s' = child_arrays s.
Proof.
  induction fuel as [|fuel IH]; intros l ts tb P len i o par s F He Hfin Hc HP Ho Hroot Htb Hi HF Hpar Hmax Hf Hnl; [lia|]. cbn [path_table_loop].
  destruct He as [o Hend|o l Hlt Hin Hrest].
  { apply Forall2_nil_inv_l in Hfin as ->. rewrite (proj2 (Z.ltb_ge o len)), andb_false_r by done. exists s. by rewrite app_nil_r. }
  destruct ts as [|t ts']; [by inversion Hfin|]. apply Forall2_cons in Hfin as [Ht Hts]. inversion_clear Hnl as [|? ? Hn0 Hnl']. set (e := entry_at (P * SECTOR_SIZE + o)) in *.
  cbn [List.length] in *. rewrite (proj2 (Z.ltb_lt (Z.of_nat i) 0xffff)), (proj2 (Z.ltb_lt o len)) by lia. cbn [andb negb].
  unfold sizeof_PATHTABLE_ENTRY, ISO_MAXPATHLEN in Hin.
  destruct (read1_run readSectors content last Hdrive s (P * SECTOR_SIZE + o) sizeof_PATHTABLE_ENTRY Hc) as (s1 & E & Hc1 & Hs1);
    [unfold SECTOR_SIZE; lia|unfold sizeof_PATHTABLE_ENTRY, ISO_MAXPATHLEN; lia|unfold sizeof_PATHTABLE_ENTRY, ISO_MAXPATHLEN; lia|].
  rewrite Z.min_r in E.
  2:{ unfold ISO_BUFFER_SIZE, sizeof_PATHTABLE_ENTRY, ISO_MAXPATHLEN, SECTOR_SIZE. pose proof (Z.mod_pos_bound (P * 0x800 + o) 0x800 ltac:(lia)). lia. }
  rewrite (bind_ok _ _ _ _ _ E), bytes_length by (unfold sizeof_PATHTABLE_ENTRY, ISO_MAXPATHLEN; lia). rewrite Z.eqb_refl. cbn [negb].
  fold (entry_at (P * SECTOR_SIZE + o)). fold e. cbv zeta. destruct Hs1 as (_ & Hu1 & Hr1 & Hcur1 & Hn1).
  rewrite (bind_ok (gets iso_rootentry) _ s1 (node tb F 1) s1) by (unfold gets; by rewrite Hr1, Hroot).
  assert (parents_ok tb) as Hpt.
  { intros j Hj. pose proof (Hpar j) as H. rewrite length_app in H. unfold entry in *. rewrite app_nth1 in H by lia. apply H. lia. }
  pose proof (finish_parent _ _ _ Ht) as Etp.
  assert (1 <= pt_parent e < Z.of_nat (i + 1)) as Hpe.
  { pose proof (Hpar (i + 1)%nat) as H. rewrite length_app in H. cbn [List.length] in H. unfold entry in H. rewrite app_nth2 in H by lia.
    replace (i + 1 - 1 - List.length tb)%nat with 0%nat in H by lia. cbn [nth] in H. rewrite Etp in H. apply H. lia. }
  set (p := Z.to_nat (pt_parent e)). assert (pt_parent e = Z.of_nat p) as Ep by (unfold p; lia). rewrite Ep. rewrite length_app in HF. cbn [List.length] in HF.
  assert (under tb 1 p) as Hund by (apply under_root; [done|lia]).
  destruct (entry_index_found tb Hpt F 1 p Hund) as (m & Em); [lia|lia|].
  assert ((if par =? Z.of_nat p then true else match entry_from_index (node tb F 1) (Z.of_nat p) with Some _ => true | None => false end) = true) as ->
    by (rewrite Em; by destruct (par =? _)). cbn [negb].
  rewrite (bind_ok (gets iso_unicode) _ s1 (iso_unicode s) s1) by (unfold gets; by rewrite Hu1). rewrite Ht.
  pose proof (add_node tb Hpt t p ltac:(congruence) ltac:(lia) F 1 Hund ltac:(lia) ltac:(lia)) as Ea.
  replace (Z.of_nat i + 1) with (Z.of_nat (List.length tb + 1)) by lia. rewrite Ea.
  set (s2 := s1 <| iso_rootentry := node (tb ++ [t]) F 1 |>). rewrite (bind_ok (modify _) _ s1 tt s2) by done.
  rewrite <- Ep. replace (o + 8 + name_length e + _) with (o + entry_length e) by (unfold entry_length; lia).
  destruct (IH l ts' (tb ++ [t]) P len (List.length tb + 1)%nat (o + entry_length e) (pt_parent e) s2 F) as (s' & E' & Hc' & Hr' & Hu' & Hcur' & Hn'); try done.
  - change (iso_unicode s2) with (iso_unicode s1). by rewrite Hu1.
  - unfold entry_length. destruct (nz _); lia.
  - rewrite length_app. done.
  - lia.
  - rewrite <- app_assoc, !length_app. cbn. lia.
  - by rewrite <- app_assoc.
  - lia.
  - lia.
  - exists s'. rewrite <- app_assoc in Hr'. split; [exact E'|]. split; [done|]. split; [done|]. split; [rewrite Hu'; exact Hu1|]. split; [rewrite Hcur'; exact Hcur1|rewrite Hn'; exact Hn1].
Qed.

(** ** Volume descriptors *)

Definition word (a : Z) : Z := get_be (content a) (content (a + 1)) (content (a + 2)) (content (a + 3)).

(** The sector of the first descriptor of a type, before the end mark. *)
Fixpoint find_volume (n : nat) (sector descriptor : Z) : option Z :=
  match n with
  | O => None
  | S n' =>
      if bool_decide (bytes content (sector * SECTOR_SIZE + 1) 6 = str "CD001" ++ [1]) then
        if content (sector * SECTOR_SIZE) =? descriptor then Some sector
        else if content (sector * SECTOR_SIZE) =? 0xff then None
        else find_volume n' (sector + 1) descriptor
      else find_volume n' (sector + 1) descriptor
  end.

Lemma nth_bytes a n rest k : Z.of_nat k < n -> nth k (bytes content a n ++ rest) 0 = content (a + Z.of_nat k).
Proof.
  intros Hk. apply nth_lookup_Some. rewrite lookup_app_l by (apply Nat2Z.inj_lt; rewrite bytes_length; lia). apply bytes_lookup. lia.
Qed.

Lemma be_at_bytes a n rest k : Z.of_nat k + 4 <= n -> be_at (bytes content a n ++ rest) k = word (a + Z.of_nat k).
Proof. intros Hk. unfold be_at, word. rewrite !nth_bytes by lia. by rewrite !Nat2Z.inj_add, !Z.add_assoc. Qed.

Definition fresh_mount (s s' : iso) : Prop := cache_sectors s' = 0 /\ iso_unicode s' = iso_unicode s /\ child_arrays s' = child_arrays s.

Lemma volume_run n : forall sector descriptor s, cache_sectors s = 0 -> 0 <= sector -> sector + Z.of_nat n <= last ->
  exists rest s', volume_loop readSectors n sector descriptor s =
    Ok (match find_volume n sector descriptor with Some v => Some (bytes content (v * SECTOR_SIZE) SECTOR_SIZE ++ rest) | None => None end) s' /\ fresh_mount s s'.
Proof.
  induction n as [|n IH]; intros sector descriptor s Hc H0 Hl; cbn [volume_loop find_volume]; [by exists [], s|].
  rewrite Hone by lia. set (b := bytes content (sector * SECTOR_SIZE) SECTOR_SIZE).
  set (s1 := s <| read_buffer ::= fun r => b ++ drop (List.length b) r |>). rewrite (bind_ok (modify _) _ s tt s1) by done.
  set (rest := drop (List.length b) (read_buffer s)). rewrite (bind_ok (gets read_buffer) _ s1 (b ++ rest) s1) by done.
  assert (take 6 (drop 1 (b ++ rest)) = bytes content (sector * SECTOR_SIZE + 1) 6) as ->.
  { pose proof (slice_bytes content (sector * SECTOR_SIZE) SECTOR_SIZE 1 6 ltac:(lia) ltac:(lia) ltac:(unfold SECTOR_SIZE; lia)) as E. fold b in E.
    rewrite <- E. unfold slice. change (Z.to_nat 6) with 6%nat. change (Z.to_nat 1) with 1%nat.
    assert (Z.of_nat (List.length b) = 2048) as Hb by (unfold b; apply bytes_length; unfold SECTOR_SIZE; lia).
    rewrite drop_app_le by lia. rewrite take_app_le; [done|]. rewrite length_drop. lia. }
  assert (nth 0 (b ++ rest) 0 = content (sector * SECTOR_SIZE)) as ->.
  { unfold b. rewrite nth_bytes by (unfold SECTOR_SIZE; lia). f_equal. lia. }
  destruct (IH (sector + 1) descriptor s1 Hc ltac:(lia) ltac:(lia)) as (rest' & s' & E & Hs').
  case_bool_decide; [|by exists rest', s']. destruct (_ =? descriptor); [by exists rest, s1|]. destruct (_ =? 0xff); [by exists [], s1|by exists rest', s'].
Qed.

(** The volume to use: 16-bit names are preferred. *)
Definition volume_of : option (Z * bool) :=
  match find_volume 16 16 2 with
  | Some v => Some (v, true)
  | None => match find_volume 16 16 1 with Some v => Some (v, false) | None => None end
  end.
Definition root_entry (v : Z) : PATHTABLE_ENTRY :=
  mkPT 1 (content (v * SECTOR_SIZE + 157)) (word (v * SECTOR_SIZE + 162)) 0 [0].

Lemma root_of_bytes v rest : root_of (bytes content (v * SECTOR_SIZE) SECTOR_SIZE ++ rest) = PathEntry 1 (root_entry v) [].
Proof.
  unfold root_of, root_entry. assert (forall k, nth k (drop 156 (bytes content (v * SECTOR_SIZE) SECTOR_SIZE ++ rest)) 0 =
    nth (156 + k) (bytes content (v * SECTOR_SIZE) SECTOR_SIZE ++ rest) 0) as Hn by (intros k; apply nth_skipn).
  unfold be_at. rewrite !Hn. rewrite !nth_bytes by (unfold SECTOR_SIZE; lia). unfold word.
  do 3 f_equal; try (f_equal; lia).
Qed.

Lemma node_single t F : node [t] F 1 = PathEntry 1 t [].
Proof. by destruct F. Qed.

(** Mounting a disc builds the tree of its path table.  With a volume
    descriptor among the first sixteen, 16-bit names preferred, and a path
    table whose entries follow one another, name their parents before
    themselves and fit into the driver's arrays, the mount succeeds and its
    tree has every entry under its parent, in the order of the table, with the
    root of the descriptor on top. *)
Lemma read_directories_run s v u l ts : cache_sectors s = 0 -> iso_unicode s = false -> 32 <= last -> volume_of = Some (v, u) ->
  let P := word (v * SECTOR_SIZE + 148) in
  0 <= P -> entries (P * SECTOR_SIZE) (word (v * SECTOR_SIZE + 136)) 10 l -> Forall (fun e => 0 <= name_length e) l ->
  Forall2 (fun e t => finish_entry u e = Some t) l ts -> parents_ok (root_entry v :: ts) -> Z.of_nat (List.length l) < 0xffff ->
  exists s', read_directories readSectors s = Ok true s' /\ cache_ok content last s' /\ iso_rootentry s' = tree_of (root_entry v :: ts) /\
    iso_unicode s' = u /\ iso_currententry s' = Some 1 /\ child_arrays s' = child_arrays s.
Proof.
  intros Hc Hu Hlast Hv P HP Hl Hnl Hts Hpar Hmax. unfold read_directories, read_volume_descriptor. unfold volume_of in Hv.
  destruct (volume_run 16 16 2 s Hc ltac:(lia) ltac:(lia)) as (rest & s1 & E1 & Hf1 & Hu1 & Hn1). rewrite (bind_ok _ _ _ _ _ E1).
  assert (exists rest0 s2, (match match find_volume 16 16 2 with Some v => Some (bytes content (v * SECTOR_SIZE) SECTOR_SIZE ++ rest) | None => None end with
    | Some v => modify (fun s => s <| iso_unicode := true |>) ;; ret (Some v)
    | None => volume_loop readSectors 16 16 1 end) s1 = Ok (Some (bytes content (v * SECTOR_SIZE) SECTOR_SIZE ++ rest0)) s2 /\ cache_sectors s2 = 0 /\ iso_unicode s2 = u /\ child_arrays s2 = child_arrays s)
    as (rest2 & s2 & E2 & Hf2 & Hu2 & Hn2).
  { clear E1. destruct (find_volume 16 16 2) as [w|].
    - injection Hv as -> <-. by exists rest, (s1 <| iso_unicode := true |>).
    - destruct (volume_run 16 16 1 s1 Hf1 ltac:(lia) ltac:(lia)) as (rest2 & s2 & E2 & Hf2 & Hu2 & Hn2).
      destruct (find_volume 16 16 1) as [w|]; [|done]. injection Hv as -> <-. exists rest2, s2. split; [done|]. split; [done|]. split; congruence. }
  clear E1. rewrite (bind_ok _ _ _ _ _ E2). cbv zeta. rewrite root_of_bytes, !be_at_bytes by (unfold SECTOR_SIZE; lia).
  set (s3 := s2 <| iso_rootentry := PathEntry 1 (root_entry v) [] |> <| iso_currententry := Some 1 |>). rewrite (bind_ok (modify _) _ s2 tt s3) by done.
  assert (List.length ts = List.length l) as Hlen by (symmetry; by eapply Forall2_length).
  destruct (table_run path_table_fuel l ts [root_entry v] P (word (v * SECTOR_SIZE + 136)) 1 10 1 s3 (List.length (root_entry v :: ts))) as (s' & E & Hc' & Hr' & Hu' & Hcur' & Hn');
    try done; try lia.
  - change (iso_unicode s3) with (iso_unicode s2). by rewrite Hu2.
  - by left.
  - cbn. lia.
  - unfold path_table_fuel. lia.
  - exists s'. split; [exact E|]. split; [done|]. split; [exact Hr'|]. split; [rewrite Hu'; exact Hu2|]. split; [exact Hcur'|rewrite Hn'; exact Hn2].
Qed.
End mounting.
