(* ===== verification/Newlib.v ===== *)
(** * Files, directories and devices [drivers/newlib/newlib.c]

    The C library sees files through a table of devices and a table of
    handles.  A device is a record of operations, absent where the code has
    NULL; they work on the error number of the calling thread and the state
    [D] of the devices, and return what they leave in the caller's buffers.
    [malloc] is a parameter; blocks in use are in the state, so that what is
    not freed shows.  Strings are lists of characters without the terminating
    zero, except for the working directory and the buffer that
    [_concatenate_path] works on, which are arrays. *)
From S2P Require Import Prelude Bits GdbHex Iso.
From Stdlib Require Import Ascii String.
Open Scope Z_scope.
Open Scope list_scope.
Open Scope xenon_scope.

Definition STD_MAX : Z := 16.
Definition MAX_HANDLES : Z := 1024.
Definition MAXPATHLEN : Z := 1024.
Definition NAME_MAX : Z := 255.
Definition sizeof_handle : Z := 8.
Definition sizeof_DIR_ITER : Z := 8.
Definition R_OK : Z := 4.

(** The parts of [struct stat] the library looks at: the mode is taken apart. *)
Record stat_t := mkStat {
  st_ino : Z; st_isdir : bool; st_rusr : bool; st_rgrp : bool; st_roth : bool; st_size : Z;
  st_atime : Z; st_mtime : Z; st_ctime : Z }.

Record io {D : Type} := mkIo { io_errno : option errno; io_dev : D }.
Arguments io D : clear implicits.
#[global] Instance eta_io D : Eta (io D) := fun r => mkIo D (io_errno r) (io_dev r).

(** [devoptab_t]: a file is named by the address of its [fileStruct], a
    directory by the address of its [dirStruct]. *)
Record devoptab_t {D : Type} := mkDev {
  dv_name : list Z;
  structSize : Z;
  open_r : option (Z -> list Z -> Z -> Z -> M (io D) Z);
  close_r : option (Z -> M (io D) Z);
  write_r : option (Z -> list Z -> M (io D) Z);
  read_r : option (Z -> Z -> M (io D) (Z * list Z));
  seek_r : option (Z -> Z -> whence -> M (io D) Z);
  fstat_r : option (Z -> M (io D) (Z * option stat_t));
  stat_r : option (list Z -> M (io D) (Z * option stat_t));
  link_r : option (list Z -> list Z -> M (io D) Z);
  unlink_r : option (list Z -> M (io D) Z);
  chdir_r : option (list Z -> M (io D) Z);
  rename_r : option (list Z -> list Z -> M (io D) Z);
  mkdir_r : option (list Z -> Z -> M (io D) Z);
  dirStateSize : Z;
  diropen_r : option (Z -> list Z -> M (io D) bool);
  dirreset_r : option (Z -> M (io D) Z);
  dirnext_r : option (Z -> bool -> M (io D) (Z * list Z * option stat_t));  (* whether there is a [filestat] *)
  dirclose_r : option (Z -> M (io D) Z);
  statvfs_r : option (list Z -> M (io D) Z);
  ftruncate_r : option (Z -> Z -> M (io D) Z);
  fsync_r : option (Z -> M (io D) Z);
  chmod_r : option (list Z -> Z -> M (io D) Z);
  fchmod_r : option (Z -> Z -> M (io D) Z)
}.
Arguments devoptab_t D : clear implicits.

(** [__handle], with its address. *)
Record handle := mkHandle { h_addr : Z; h_device : Z; fileStruct : Z }.
#[global] Instance eta_handle : Eta handle := fun r => mkHandle (h_addr r) (h_device r) (fileStruct r).

Record vfs {D : Type} := mkVfs {
  devoptab_list : list (devoptab_t D);
  handles : list (option handle);
  defaultDevice : Z;
  current_working_directory : list Z;
  blocks : gmap Z Z;              (* blocks of the C heap in use: address and size *)
  reent : io D
}.
Arguments vfs D : clear implicits.
#[global] Instance eta_vfs D : Eta (vfs D) := fun r =>
  mkVfs D (devoptab_list r) (handles r) (defaultDevice r) (current_working_directory r) (blocks r) (reent r).

(** The C heap: the block [malloc] returns for the blocks in use, and what a
    word of a new block holds. *)
Class Malloc := { malloc : gmap Z Z -> Z -> option Z; junk : Z -> Z }.
Class MallocLaws `{Malloc} := {
  malloc_fresh : forall h n a, malloc h n = Some a -> h !! a = None;
  malloc_range : forall h n a, malloc h n = Some a -> 0 < a /\ a + n <= 2 ^ 32
}.

Section newlib.
Context {D : Type} `{Malloc}.
Abbreviation MV := (M (vfs D)).
Abbreviation MD := (M (io D)).

(** ** The state *)

Definition dev {A : Type} (m : MD A) : MV A := fun s =>
  match m (reent s) with
  | Ok a r => Ok a (s <| reent := r |>)
  | Fault => Fault
  | Blocked => Blocked
  | Diverge => Diverge
  end.

Definition set_errno (e : errno) : MV unit := modify (fun s => s <| reent ::= set io_errno (fun _ => Some e) |>).

(** [malloc] and [free]; freeing what is not a block is an error. *)
Definition alloc (size : Z) : MV (option Z) := fun s =>
  match malloc (blocks s) size with
  | None => Ok None s
  | Some a => Ok (Some a) (s <| blocks ::= <[a := size]> |>)
  end.
Definition release (a : Z) : MV unit := fun s =>
  match blocks s !! a with
  | None => Fault
  | Some _ => Ok tt (s <| blocks ::= delete a |>)
  end.

(** [devoptab_list[dev]] *)
Definition optab (d : Z) : MV (devoptab_t D) := fun s =>
  if (0 <=? d) && (d <? STD_MAX) then
    match devoptab_list s !! Z.to_nat d with Some t => Ok t s | None => Fault end
  else Fault.

(** ** The console *)

Section console.
Variable stdout_hook : option (list Z -> MD unit).
Variable putch : Z -> MD unit.
Definition vfs_console_write (fd : Z) (src : list Z) : MD Z :=
  match stdout_hook with Some hook => hook src | None => ret tt end ;;
  for_each src putch ;;
  ret (Z.of_nat (List.length src)).

Definition console_optab : devoptab_t D :=
  mkDev D (str "stdout") 0 None None (Some vfs_console_write) None None None None None None None None None 0
    None None None None None None None None None.
End console.

(** ** Handles *)

Definition release_handle (fd : Z) : MV unit :=
  if (fd <? 3) || (MAX_HANDLES + 3 <=? fd) then ret tt else
  hs <- gets handles ;;
  match hs !! Z.to_nat (fd - 3) with
  | None => fault
  | Some None => ret tt
  | Some (Some h) =>
      release (h_addr h) ;;
      modify (fun s => s <| handles ::= <[Z.to_nat (fd - 3) := None]> |>)
  end.

(** The first entry that is NULL. *)
Fixpoint free_handle (l : list (option handle)) : nat :=
  match l with
  | [] => O
  | None :: _ => O
  | Some _ :: l' => S (free_handle l')
  end.

Definition alloc_handle (size : Z) : MV Z :=
  hs <- gets handles ;;
  let i := free_handle hs in
  if Z.of_nat i <? MAX_HANDLES then
    p <- alloc size ;;
    match p with
    | None => ret (-1)
    | Some a =>
        modify (fun s => s <| handles ::= <[i := Some (mkHandle a (junk a) (junk (a + 4)))]> |>) ;;
        ret (Z.of_nat i + 3)
    end
  else ret (-1).

(** [__get_handle] lets [MAX_HANDLES + 3] pass, which is past the end of the table. *)
Definition get_handle (fd : Z) : MV (option handle) :=
  if (fd <? 3) || (MAX_HANDLES + 3 <? fd) then ret None else
  hs <- gets handles ;;
  of_option (hs !! Z.to_nat (fd - 3)).

(** ** Devices *)

Definition setDefaultDevice (device : Z) : MV unit :=
  when ((2 <? device) && (device <=? STD_MAX)) (modify (fun s => s <| defaultDevice := device |>)).

Definition dotab_stdnull : devoptab_t D :=
  mkDev D (str "stdnull") 0 None None None None None None None None None None None None 0
    None None None None None None None None None.

Definition isdigit (c : Z) : bool := (ch "0" <=? c) && (c <=? ch "9").

(** [name] names the device [d]: its name, a digit perhaps, and a colon. *)
Definition names_device (d name : list Z) : bool :=
  let namelen := List.length d in
  bool_decide (take namelen name = d) &&
  ((nth namelen name 0 =? ch ":") || (isdigit (nth namelen name 0) && (nth (namelen + 1) name 0 =? ch ":"))).

Fixpoint find_device (l : list (devoptab_t D)) (i : Z) (name : list Z) : Z :=
  match l with
  | [] => -1
  | d :: l' => if names_device (dv_name d) name then i else find_device l' (i + 1) name
  end.

Definition FindDevice (name : list Z) : MV Z :=
  match strchr name (ch ":") with
  | None => gets defaultDevice
  | Some _ => gets (fun s => find_device (devoptab_list s) 0 name)
  end.

Definition set_optab (d : Z) (t : devoptab_t D) : MV unit :=
  if (0 <=? d) && (d <? STD_MAX) then modify (fun s => s <| devoptab_list ::= <[Z.to_nat d := t]> |>) else fault.

Definition RemoveDevice (name : list Z) : MV Z :=
  d <- FindDevice name ;;
  if negb (d =? -1) then set_optab d dotab_stdnull ;; ret 0 else ret (-1).

(** The first place, from [devnum] on, of the same name or empty. *)
Fixpoint device_place (l : list (devoptab_t D)) (devnum : Z) (name : list Z) : Z :=
  match l with
  | [] => devnum
  | d :: l' =>
      if bool_decide (dv_name d = name) || bool_decide (dv_name d = str "stdnull") then devnum
      else device_place l' (devnum + 1) name
  end.

Definition AddDevice (device : devoptab_t D) : MV Z :=
  l <- gets devoptab_list ;;
  let devnum := device_place (drop 3 l) 3 (dv_name device) in
  if devnum =? STD_MAX then ret (-1) else set_optab devnum device ;; ret devnum.

Definition GetDeviceOpTab (name : list Z) : MV (option (devoptab_t D)) :=
  d <- FindDevice name ;;
  if (0 <=? d) && (d <? STD_MAX) then t <- optab d ;; ret (Some t) else ret None.

(** [bdev_enum]: the next device whose name does not start with std; a table of
    [STD_MAX] devices is looked at from the handle on. *)
Fixpoint bdev_loop (fuel : nat) (h : Z) : MV (option (Z * list Z)) :=
  match fuel with
  | O => diverge
  | S fuel' =>
      let h := h + 1 in
      if STD_MAX <=? h then ret None else
      t <- optab h ;;
      if bool_decide (take 3 (dv_name t) = str "std") then bdev_loop fuel' h else ret (Some (h, dv_name t))
  end.
Definition bdev_enum (h : Z) : MV (option (Z * list Z)) := bdev_loop (S (Z.to_nat (STD_MAX - h))) h.

(** ** Files *)

Definition open (file : list Z) (flags mode : Z) : MV Z :=
  d <- FindDevice file ;;
  if d =? -1 then set_errno ENOSYS ;; ret (-1) else
  t <- optab d ;;
  match open_r t with
  | None => set_errno ENOSYS ;; ret (-1)
  | Some op =>
      fd <- alloc_handle (sizeof_handle + structSize t) ;;
      if fd =? -1 then set_errno ENOSR ;; ret (-1) else
      h <- get_handle fd ;;
      match h with
      | None => fault
      | Some h =>
          let h := h <| h_device := d |> <| fileStruct := h_addr h + sizeof_handle |> in
          modify (fun s => s <| handles ::= <[Z.to_nat (fd - 3) := Some h]> |>) ;;
          r <- dev (op (fileStruct h) file flags mode) ;;
          if r =? -1 then release_handle fd ;; ret (-1) else ret fd
      end
  end.

(** The device and the file of a descriptor, for [read], [write], [fstat] and
    [lseek]: the first three descriptors are devices; [None] where the
    functions return at once. *)
Definition target (fileDesc : Z) : MV (option (Z * Z)) :=
  if fileDesc =? -1 then ret None else
  if fileDesc <? 3 then ret (Some (u32 fileDesc, u32 (-1))) else
  h <- get_handle fileDesc ;;
  match h with
  | None => ret None
  | Some h => ret (Some (h_device h, fileStruct h))
  end.

Definition read (fileDesc len : Z) : MV (Z * list Z) :=
  x <- target fileDesc ;;
  match x with
  | None => ret (-1, [])
  | Some (d, fd) =>
      t <- optab d ;;
      match read_r t with Some op => dev (op fd len) | None => ret (-1, []) end
  end.

Definition write (fileDesc : Z) (src : list Z) : MV Z :=
  x <- target fileDesc ;;
  match x with
  | None => ret (-1)
  | Some (d, fd) =>
      t <- optab d ;;
      match write_r t with
      | Some op => dev (op fd src)
      | None => ret (if fileDesc <? 3 then Z.of_nat (List.length src) else -1)
      end
  end.

Definition fstat (fileDesc : Z) : MV (Z * option stat_t) :=
  x <- target fileDesc ;;
  match x with
  | None => ret (-1, None)
  | Some (d, fd) =>
      t <- optab d ;;
      match fstat_r t with Some op => dev (op fd) | None => set_errno ENOSYS ;; ret (-1, None) end
  end.

Definition lseek (fileDesc pos : Z) (dir : whence) : MV Z :=
  x <- target fileDesc ;;
  match x with
  | None => ret (-1)
  | Some (d, fd) =>
      t <- optab d ;;
      match seek_r t with Some op => dev (op fd pos dir) | None => ret (-1) end
  end.

(** [fsync] and [ftruncate] take handles only. *)
Definition fsync (fileDesc : Z) : MV Z :=
  if fileDesc <? 3 then set_errno EINVAL ;; ret (-1) else
  h <- get_handle fileDesc ;;
  match h with
  | None => set_errno EINVAL ;; ret (-1)
  | Some h =>
      t <- optab (h_device h) ;;
      match fsync_r t with Some op => dev (op (fileStruct h)) | None => ret (-1) end
  end.

Definition ftruncate (fileDesc len : Z) : MV Z :=
  if fileDesc <? 3 then set_errno EINVAL ;; ret (-1) else
  h <- get_handle fileDesc ;;
  match h with
  | None => set_errno EINVAL ;; ret (-1)
  | Some h =>
      t <- optab (h_device h) ;;
      match ftruncate_r t with Some op => dev (op (fileStruct h) len) | None => ret (-1) end
  end.

Definition close (fileDesc : Z) : MV Z :=
  if fileDesc =? -1 then ret (-1) else
  h <- get_handle fileDesc ;;
  match h with
  | None => ret (-1)
  | Some h =>
      t <- optab (h_device h) ;;
      r <- match close_r t with Some op => dev (op (fileStruct h)) | None => ret (-1) end ;;
      release_handle fileDesc ;;
      ret r
  end.

Definition fchmod (fd mode : Z) : MV Z :=
  if fd =? -1 then ret (-1) else
  h <- get_handle fd ;;
  match h with
  | None => ret (-1)
  | Some h =>
      t <- optab (h_device h) ;;
      match fchmod_r t with Some op => dev (op (fileStruct h) mode) | None => ret (-1) end
  end.

(** ** Names *)

Definition stat (file : list Z) : MV (Z * option stat_t) :=
  d <- FindDevice file ;;
  if d =? -1 then set_errno ENODEV ;; ret (-1, None) else
  t <- optab d ;;
  match stat_r t with Some op => dev (op file) | None => set_errno ENODEV ;; ret (-1, None) end.

(** A device that reports success fills the structure in. *)
Definition access (path : list Z) (mode : Z) : MV Z :=
  let* (ok, information) := stat path in
  if negb (ok =? 0) then ret (-1) else
  if negb (mode =? R_OK) then ret (-1) else
  i <- of_option information ;;
  ret (if st_rusr i || st_rgrp i || st_roth i then 0 else -1).

Definition statvfs (path : list Z) : MV Z :=
  d <- FindDevice path ;;
  if d =? -1 then set_errno ENOSYS ;; ret (-1) else
  t <- optab d ;;
  match statvfs_r t with Some op => dev (op path) | None => set_errno ENOSYS ;; ret (-1) end.

(** Two names that are of no device are of the same. *)
Definition link (existing new : list Z) : MV Z :=
  sourceDev <- FindDevice existing ;;
  destDev <- FindDevice new ;;
  if negb (sourceDev =? destDev) then set_errno EXDEV ;; ret (-1) else
  t <- optab destDev ;;
  match link_r t with Some op => dev (op existing new) | None => set_errno ENOSYS ;; ret (-1) end.

Definition rename (existing newName : list Z) : MV Z :=
  sourceDev <- FindDevice existing ;;
  destDev <- FindDevice newName ;;
  if negb (sourceDev =? destDev) then set_errno EXDEV ;; ret (-1) else
  t <- optab destDev ;;
  match rename_r t with Some op => dev (op existing newName) | None => set_errno ENOSYS ;; ret (-1) end.

Definition unlink (name : list Z) : MV Z :=
  d <- FindDevice name ;;
  if d =? -1 then set_errno ENODEV ;; ret (-1) else
  t <- optab d ;;
  match unlink_r t with Some op => dev (op name) | None => set_errno ENODEV ;; ret (-1) end.

Definition chmod (path : list Z) (mode : Z) : MV Z :=
  d <- FindDevice path ;;
  if d <? 0 then set_errno ENODEV ;; ret (-1) else
  t <- optab d ;;
  match chmod_r t with Some op => dev (op path mode) | None => set_errno ENODEV ;; ret (-1) end.

Definition mkdir (path : list Z) (mode : Z) : MV Z :=
  d <- FindDevice path ;;
  t <- optab d ;;
  match mkdir_r t with Some op => dev (op path mode) | None => set_errno ENOSYS ;; ret (-1) end.

End newlib.
