(* ===== verification/NewlibFacts.v ===== *)
(** * Descriptors are a finite map of open files *)
From S2P Require Import Prelude Bits GdbHex Iso Newlib.
From Stdlib Require Import Ascii String.
Open Scope Z_scope.
Open Scope list_scope.
Open Scope xenon_scope.

Section files.
Context {D : Type} `{HM : Malloc} `{HL : !MallocLaws}.
Implicit Types (s : vfs D) (m : gmap Z (Z * Z)).

Definition with_errno s (e : errno) : vfs D := s <| reent ::= set io_errno (fun _ => Some e) |>.

Lemma find_device_range l : forall i text, 0 <= i -> find_device (D := D) l i text = -1 \/ i <= find_device l i text < i + Z.of_nat (List.length l).
Proof.
  induction l as [|t l IH]; intros i text Hi; cbn [find_device List.length]; [by left|]. destruct (names_device _ _); [right; lia|].
  destruct (IH (i + 1) text ltac:(lia)); [by left|right; lia].
Qed.

(** The table represents the map from descriptors to a device and a file;
    apart from the blocks [base] the heap holds the handles and nothing else. *)
Record files_rep (base : gmap Z Z) s m : Prop := mkRep {
  rep_len : List.length (handles s) = Z.to_nat MAX_HANDLES;
  rep_devs : List.length (devoptab_list s) = Z.to_nat STD_MAX;
  rep_default : -1 <= defaultDevice s < STD_MAX;
  rep_map : forall fd, m !! fd = if (3 <=? fd) && (fd <? MAX_HANDLES + 3)
              then match handles s !! Z.to_nat (fd - 3) with Some (Some h) => Some (h_device h, fileStruct h) | _ => None end else None;
  rep_handle : forall k h, handles s !! k = Some (Some h) -> 0 <= h_device h < STD_MAX /\ fileStruct h = h_addr h + sizeof_handle /\
              base !! h_addr h = None /\ is_Some (blocks s !! h_addr h);
  rep_inj : forall k k' h h', handles s !! k = Some (Some h) -> handles s !! k' = Some (Some h') -> h_addr h = h_addr h' -> k = k';
  rep_blocks : forall a, blocks s !! a = base !! a \/ exists k h, handles s !! k = Some (Some h) /\ h_addr h = a
}.

(** Without open files nothing is left. *)
Lemma rep_nothing_left base s : files_rep base s ∅ -> blocks s = base.
Proof.
  intros R. apply map_eq. intros a. destruct (rep_blocks _ _ _ R a) as [->|(k & h & Hk & <-)]; [done|exfalso].
  pose proof (lookup_lt_Some _ _ _ Hk) as Hl. rewrite (rep_len _ _ _ R) in Hl. unfold MAX_HANDLES in Hl.
  pose proof (rep_map _ _ _ R (Z.of_nat k + 3)) as Hm. rewrite lookup_empty in Hm. unfold MAX_HANDLES in Hm.
  rewrite (proj2 (Z.leb_le _ _)), (proj2 (Z.ltb_lt _ _)) in Hm by lia. cbn [andb] in Hm.
  replace (Z.to_nat (Z.of_nat k + 3 - 3)) with k in Hm by lia. by rewrite Hk in Hm.
Qed.

(** Only these parts of the state matter. *)
Lemma rep_same base s s' m : handles s' = handles s -> devoptab_list s' = devoptab_list s -> blocks s' = blocks s ->
  defaultDevice s' = defaultDevice s -> files_rep base s m -> files_rep base s' m.
Proof. intros E1 E2 E3 E4 [? ? ? ? ? ? ?]. split; rewrite ?E1, ?E2, ?E3, ?E4; done. Qed.

(** A descriptor of the map, and its place in the table. *)
Lemma rep_at base s m fd x : files_rep base s m -> m !! fd = Some x -> 3 <= fd < MAX_HANDLES + 3 /\
  exists h, handles s !! Z.to_nat (fd - 3) = Some (Some h) /\ x = (h_device h, fileStruct h).
Proof.
  intros R Hm. rewrite (rep_map _ _ _ R) in Hm. destruct (Z.leb_spec 3 fd), (Z.ltb_spec fd (MAX_HANDLES + 3)); cbn [andb] in Hm; try done.
  split; [lia|]. destruct (handles s !! Z.to_nat (fd - 3)) as [[h|]|]; cbn in Hm; [|done|done]. exists h. by injection Hm as <-.
Qed.

Lemma get_handle_run base s m fd : files_rep base s m -> 0 <= fd -> fd <> MAX_HANDLES + 3 ->
  exists o, get_handle fd s = Ok o s /\ m !! fd = (o ≫= fun h => Some (h_device h, fileStruct h)).
Proof.
  intros R Hpos Hfd. unfold get_handle. rewrite (rep_map _ _ _ R). destruct (Z.ltb_spec fd 3).
  { exists None. split; [done|]. by rewrite (proj2 (Z.leb_gt 3 fd)) by lia. }
  rewrite (proj2 (Z.leb_le 3 fd)) by lia. destruct (Z.ltb_spec (MAX_HANDLES + 3) fd); cbn [orb].
  { exists None. split; [done|]. by rewrite (proj2 (Z.ltb_ge fd _)) by lia. }
  rewrite (proj2 (Z.ltb_lt fd _)) by lia. cbn [andb]. rewrite (bind_ok (gets _) _ s _ s eq_refl).
  destruct (lookup_lt_is_Some_2 (handles s) (Z.to_nat (fd - 3))) as (o & E); [rewrite (rep_len _ _ _ R); lia|]. rewrite E. by exists o.
Qed.

Lemma optab_run base s m d : files_rep base s m -> 0 <= d < STD_MAX -> exists t, devoptab_list s !! Z.to_nat d = Some t /\ optab d s = Ok t s.
Proof.
  intros R Hd. destruct (lookup_lt_is_Some_2 (devoptab_list s) (Z.to_nat d)) as (t & E); [rewrite (rep_devs _ _ _ R); lia|].
  exists t. split; [done|]. unfold optab. rewrite (proj2 (Z.leb_le 0 d)), (proj2 (Z.ltb_lt d STD_MAX)) by lia. cbn [andb]. by rewrite E.
Qed.

(** ** Taking and releasing handles *)

Lemma free_handle_spec (l : list (option handle)) : (free_handle l <= List.length l)%nat /\
  ((free_handle l < List.length l)%nat -> l !! free_handle l = Some None) /\
  (forall k, (k < free_handle l)%nat -> exists h, l !! k = Some (Some h)).
Proof.
  induction l as [|[h|] l (IH1 & IH2 & IH3)]; cbn [free_handle List.length].
  - split; [lia|]. split; [lia|]. intros k. lia.
  - split; [lia|]. split; [intros; apply IH2; lia|]. intros [|k] Hk; [by exists h|]. apply IH3. lia.
  - split; [lia|]. split; [done|]. intros k. lia.
Qed.

Lemma release_handle_run base s m fd x : files_rep base s m -> m !! fd = Some x ->
  exists s', release_handle fd s = Ok tt s' /\ files_rep base s' (delete fd m) /\ reent s' = reent s /\ devoptab_list s' = devoptab_list s /\
    defaultDevice s' = defaultDevice s /\ current_working_directory s' = current_working_directory s.
Proof.
  intros R Hm. destruct (rep_at _ _ _ _ _ R Hm) as (Hr & h & Hh & ->). unfold release_handle.
  rewrite (proj2 (Z.ltb_ge fd 3)), (proj2 (Z.leb_gt _ fd)) by lia. cbn [orb]. rewrite (bind_ok (gets _) _ s _ s eq_refl), Hh.
  destruct (rep_handle _ _ _ R _ _ Hh) as (_ & _ & Hbase & (n & Hn)).
  assert (release (h_addr h) s = Ok tt (s <| blocks ::= delete (h_addr h) |>)) as Er by (unfold release; by rewrite Hn).
  rewrite (bind_ok _ _ _ _ _ Er). eexists. split; [done|]. split; [|done].
  set (k := Z.to_nat (fd - 3)) in *. destruct R as [R1 R2 R3 R4 R5 R6 R7].
  assert (forall k' h', <[k := None]> (handles s) !! k' = Some (Some h') -> k' <> k /\ handles s !! k' = Some (Some h')) as Hkeep.
  { intros k' h' E. destruct (decide (k' = k)) as [->|Hne]; [|by rewrite list_lookup_insert_ne in E by done].
    rewrite list_lookup_insert_eq in E by (by eapply lookup_lt_Some). done. }
  split; cbn.
  - by rewrite length_insert.
  - done.
  - done.
  - intros f. destruct (decide (f = fd)) as [->|Hne].
    + rewrite lookup_delete_eq. fold k. rewrite list_lookup_insert_eq by (by eapply lookup_lt_Some). by destruct (_ && _).
    + rewrite lookup_delete_ne, R4 by done. destruct (Z.leb_spec 3 f), (f <? MAX_HANDLES + 3); cbn [andb]; try done.
      rewrite list_lookup_insert_ne by lia. done.
  - intros k' h' E. apply Hkeep in E as (Hne & E). destruct (R5 _ _ E) as (? & ? & ? & ?). split_and!; try done; try lia.
    rewrite lookup_delete_ne; [done|]. intros Ea. apply Hne. symmetry. by eapply R6.
  - intros k1 k2 h1 h2 E1%Hkeep E2%Hkeep. destruct E1, E2. by eapply R6.
  - intros a. destruct (decide (a = h_addr h)) as [->|Hne]; [left; by rewrite lookup_delete_eq|]. rewrite lookup_delete_ne by done.
    destruct (R7 a) as [?|(k' & h' & E & <-)]; [by left|right]. exists k', h'. split; [|done]. rewrite list_lookup_insert_ne; [done|].
    intros <-. congruence.
Qed.

(** Taking a handle: the state in which the device is called. *)
Definition handle_taken s (k : nat) (a size d : Z) : vfs D :=
  s <| blocks ::= <[a := size]> |> <| handles ::= <[k := Some (mkHandle a d (a + sizeof_handle))]> |>.

Lemma taken_rep base s m a size d k : files_rep base s m -> malloc (blocks s) size = Some a -> 0 <= d < STD_MAX ->
  handles s !! k = Some None -> files_rep base (handle_taken s k a size d) (<[Z.of_nat k + 3 := (d, a + sizeof_handle)]> m).
Proof.
  intros [R1 R2 R3 R4 R5 R6 R7] Ha Hd Hk. pose proof (malloc_fresh _ _ _ Ha) as Hf. pose proof (lookup_lt_Some _ _ _ Hk) as Hlt.
  set (hn := mkHandle a d (a + sizeof_handle)).
  assert (forall k' h', <[k := Some hn]> (handles s) !! k' = Some (Some h') -> (k' = k /\ h' = hn) \/ (k' <> k /\ handles s !! k' = Some (Some h'))) as Hkeep.
  { intros k' h' E. destruct (decide (k' = k)) as [->|Hne]; [left|right; by rewrite list_lookup_insert_ne in E by done].
    rewrite list_lookup_insert_eq in E by done. by injection E as <-. }
  assert (forall k' h', handles s !! k' = Some (Some h') -> h_addr h' <> a) as Hna.
  { intros k' h' E Ea. destruct (R5 _ _ E) as (_ & _ & _ & (n & Hn)). congruence. }
  split; cbn.
  - by rewrite length_insert.
  - done.
  - done.
  - intros f. destruct (decide (f = Z.of_nat k + 3)) as [->|Hne].
    + rewrite lookup_insert_eq. rewrite (proj2 (Z.leb_le 3 _)), (proj2 (Z.ltb_lt _ (MAX_HANDLES + 3))) by lia. cbn [andb].
      replace (Z.to_nat (Z.of_nat k + 3 - 3)) with k by lia. by rewrite list_lookup_insert_eq.
    + rewrite lookup_insert_ne, R4 by done. destruct (Z.leb_spec 3 f), (f <? MAX_HANDLES + 3); cbn [andb]; try done.
      by rewrite list_lookup_insert_ne by lia.
  - intros k' h' [(-> & ->)|(Hne & E)]%Hkeep.
    + cbn. split_and!; try done; try lia; [|by rewrite lookup_insert_eq].
      destruct (R7 a) as [E|(k' & h' & E & Ea)]; [congruence|by destruct (Hna k' h')].
    + destruct (R5 _ _ E) as (? & ? & ? & ?). split_and!; try done; try lia. rewrite lookup_insert_ne; [done|]. symmetry. by eapply Hna.
  - intros k1 k2 h1 h2 [(-> & ->)|(? & E1)]%Hkeep [(-> & ->)|(? & E2)]%Hkeep Ea; try done.
    + by destruct (Hna _ _ E2).
    + by destruct (Hna _ _ E1).
    + by eapply R6.
  - intros b. destruct (decide (b = a)) as [->|Hne].
    + right. exists k, hn. by rewrite list_lookup_insert_eq.
    + rewrite lookup_insert_ne by done. destruct (R7 b) as [?|(k' & h' & E & <-)]; [by left|right]. exists k', h'. split; [|done].
      rewrite list_lookup_insert_ne; [done|]. congruence.
Qed.

(** ** Opening *)

Definition device_of s (name : list Z) : Z :=
  match strchr name (ch ":") with None => defaultDevice s | Some _ => find_device (devoptab_list s) 0 name end.

Lemma find_run base s m name : files_rep base s m -> FindDevice name s = Ok (device_of s name) s /\ -1 <= device_of s name < STD_MAX.
Proof.
  intros R. unfold FindDevice, device_of. destruct (strchr name (ch ":")); (split; [done|]).
  - pose proof (find_device_range (devoptab_list s) 0 name ltac:(lia)) as Hr. rewrite (rep_devs _ _ _ R) in Hr. unfold STD_MAX in *. lia.
  - apply (rep_default _ _ _ R).
Qed.

Definition opens s (file : list Z) : option (Z -> list Z -> Z -> Z -> M (io D) Z) :=
  if device_of s file <? 0 then None else devoptab_list s !! Z.to_nat (device_of s file) ≫= open_r.

(** The first descriptor that is not in use, and a block that no file has. *)
Definition least_free m (fd : Z) : Prop :=
  3 <= fd < MAX_HANDLES + 3 /\ m !! fd = None /\ forall f, 3 <= f < fd -> is_Some (m !! f).
Definition fresh_struct m (st : Z) : Prop := forall f d, m !! f <> Some (d, st).
Definition all_used m : Prop := forall f, 3 <= f < MAX_HANDLES + 3 -> is_Some (m !! f).
Definition out_of_memory : Prop := exists h n, malloc h n = None.
Definition no_memory s (file : list Z) : Prop :=
  exists t, devoptab_list s !! Z.to_nat (device_of s file) = Some t /\ malloc (blocks s) (sizeof_handle + structSize t) = None.

Lemma rep_slot base s m k o : files_rep base s m -> handles s !! k = Some o ->
  m !! (Z.of_nat k + 3) = match o with Some h => Some (h_device h, fileStruct h) | None => None end.
Proof.
  intros R Hk. pose proof (lookup_lt_Some _ _ _ Hk) as Hl. rewrite (rep_len _ _ _ R) in Hl. rewrite (rep_map _ _ _ R).
  rewrite (proj2 (Z.leb_le 3 _)), (proj2 (Z.ltb_lt _ (MAX_HANDLES + 3))) by lia. cbn [andb].
  replace (Z.to_nat (Z.of_nat k + 3 - 3)) with k by lia. rewrite Hk. by destruct o.
Qed.

Lemma rep_used_below base s m k : files_rep base s m -> (forall j, (j < k)%nat -> exists h, handles s !! j = Some (Some h)) ->
  forall f, 3 <= f < Z.of_nat k + 3 -> is_Some (m !! f).
Proof.
  intros R Hk f Hf. destruct (Hk (Z.to_nat (f - 3)) ltac:(lia)) as (h & Hh). pose proof (rep_slot _ _ _ _ _ R Hh) as E.
  replace (Z.of_nat (Z.to_nat (f - 3)) + 3) with f in E by lia. by rewrite E.
Qed.

(** What [alloc_handle] does. *)
Lemma alloc_handle_run base s m size : files_rep base s m ->
  (alloc_handle size s = Ok (-1) s /\ (all_used m \/ malloc (blocks s) size = None)) \/
  exists k a, handles s !! k = Some None /\ malloc (blocks s) size = Some a /\ least_free m (Z.of_nat k + 3) /\
    alloc_handle size s = Ok (Z.of_nat k + 3) (s <| blocks ::= <[a := size]> |> <| handles ::= <[k := Some (mkHandle a (junk a) (junk (a + 4)))]> |>).
Proof.
  intros R. unfold alloc_handle. rewrite (bind_ok (gets _) _ s _ s eq_refl). destruct (free_handle_spec (handles s)) as (F1 & F2 & F3).
  set (k := free_handle (handles s)) in *. pose proof (rep_len _ _ _ R) as Hl. destruct (Z.ltb_spec (Z.of_nat k) MAX_HANDLES).
  2:{ left. split; [done|]. left. intros f Hf. eapply (rep_used_below _ _ _ k R F3). lia. }
  unfold alloc, bind. destruct (malloc (blocks s) size) as [a|] eqn:Ea; [|left; split; [done|]; by right].
  right. exists k, a. assert (handles s !! k = Some None) as Hk by (apply F2; lia). split_and!; [done|done| |done].
  split; [lia|]. split; [by rewrite (rep_slot _ _ _ _ _ R Hk)|]. by apply (rep_used_below _ _ _ k R F3).
Qed.

(** Opening a file, up to the call of the device. *)
Lemma open_run base s m file flags mode : files_rep base s m -> let d := device_of s file in
  match opens s file with
  | None => open file flags mode s = Ok (-1) (with_errno s ENOSYS)
  | Some op =>
      (open file flags mode s = Ok (-1) (with_errno s ENOSR) /\ (all_used m \/ no_memory s file)) \/
      exists fd st s1, least_free m fd /\ fresh_struct m st /\ (0 < st /\ forall t, devoptab_list s !! Z.to_nat d = Some t -> st + structSize t <= 2 ^ 32) /\ files_rep base s1 (<[fd := (d, st)]> m) /\ reent s1 = reent s /\
        devoptab_list s1 = devoptab_list s /\ defaultDevice s1 = defaultDevice s /\
        open file flags mode s = (r <- dev (op st file flags mode) ;; if r =? -1 then release_handle fd ;; ret (-1) else ret fd) s1
  end.
Proof.
  intros R d. destruct (find_run _ _ _ file R) as (Ef & Hd). fold d in Ef, Hd. unfold opens. fold d. unfold open. rewrite (bind_ok _ _ _ _ _ Ef).
  destruct (Z.eqb_spec d (-1)) as [->|Hne]; [done|]. rewrite (proj2 (Z.ltb_ge d 0)) by lia.
  destruct (optab_run _ _ _ d R ltac:(lia)) as (t & Et & Eo). rewrite Et, (bind_ok _ _ _ _ _ Eo). cbn [mbind option_bind].
  destruct (open_r t) as [op|]; [|done].
  destruct (alloc_handle_run _ _ _ (sizeof_handle + structSize t) R) as [(Ea & Hfull)|(k & a & Hk & Hm & Hleast & Ea)].
  { left. split; [by rewrite (bind_ok _ _ _ _ _ Ea)|]. destruct Hfull; [by left|right; by exists t]. }
  right. set (size := sizeof_handle + structSize t) in *. exists (Z.of_nat k + 3), (a + sizeof_handle), (handle_taken s k a size d).
  split; [done|]. split.
  { intros f d' E. destruct (rep_at _ _ _ _ _ R E) as (_ & h & Hh & Ex). injection Ex as -> Est. destruct (rep_handle _ _ _ R _ _ Hh) as (_ & Efs & _ & (n & Hn)).
    assert (h_addr h = a) as Eha by lia. pose proof (malloc_fresh _ _ _ Hm). congruence. }
  split; [pose proof (malloc_range _ _ _ Hm); unfold size, sizeof_handle in *; split; [lia|]; intros t' Et'; assert (t' = t) as -> by congruence; lia|].
  split; [apply taken_rep; [done|done|lia|done]|]. split_and!; [done|done|done|].
  rewrite (bind_ok _ _ _ _ _ Ea), (proj2 (Z.eqb_neq (Z.of_nat k + 3) (-1))) by lia.
  set (h := mkHandle a (junk a) (junk (a + 4))). set (sa := s <| blocks ::= _ |> <| handles ::= _ |>).
  assert (get_handle (Z.of_nat k + 3) sa = Ok (Some h) sa) as Eg.
  { unfold get_handle. destruct Hleast as (Hl & _). rewrite (proj2 (Z.ltb_ge _ 3)), (proj2 (Z.ltb_ge (MAX_HANDLES + 3) _)) by lia. cbn [orb].
    rewrite (bind_ok (gets _) _ sa _ sa eq_refl). replace (Z.to_nat (Z.of_nat k + 3 - 3)) with k by lia. unfold sa. cbn.
    rewrite list_lookup_insert_eq by (by eapply lookup_lt_Some). done. }
  rewrite (bind_ok _ _ _ _ _ Eg). replace (Z.to_nat (Z.of_nat k + 3 - 3)) with k by lia. cbv zeta. rewrite (bind_ok (modify _) _ sa tt (handle_taken s k a size d)); [done|].
  unfold modify, handle_taken, sa. cbn. by rewrite list_insert_insert_eq.
Qed.

(** ** Specification *)

Inductive call :=
  | Open (file : list Z) (flags mode : Z)
  | Close (fd : Z)
  | ReadFd (fd len : Z)
  | WriteFd (fd : Z) (src : list Z)
  | SeekFd (fd pos : Z) (dir : whence).

(** Calls through the library; the answer is a number, and bytes for a read. *)
Definition plain (m : M (vfs D) Z) : M (vfs D) (Z * list Z) := r <- m ;; ret (r, []).
Definition run_call (c : call) : M (vfs D) (Z * list Z) :=
  match c with
  | Open file flags mode => plain (open file flags mode)
  | Close fd => plain (close fd)
  | ReadFd fd len => read fd len
  | WriteFd fd src => plain (write fd src)
  | SeekFd fd pos dir => plain (lseek fd pos dir)
  end.
Fixpoint run_calls (cs : list call) : M (vfs D) (list (Z * list Z)) :=
  match cs with
  | [] => ret []
  | c :: cs' => a <- run_call c ;; l <- run_calls cs' ;; ret (a :: l)
  end.

(** Negative descriptors and the one past the table are not used. *)
Definition descriptor_ok (fd : Z) : Prop := 0 <= fd /\ fd <> MAX_HANDLES + 3.
Definition call_ok (c : call) : Prop :=
  match c with Open _ _ _ => True | Close fd | ReadFd fd _ | WriteFd fd _ | SeekFd fd _ _ => descriptor_ok fd end.

Definition file_of m (fd : Z) : option (Z * Z) := if fd <? 3 then Some (u32 fd, u32 (-1)) else m !! fd.

(** What a call does on a file of a device, and what it gives where the device
    has no such operation. *)
Definition file_call (c : call) (t : devoptab_t D) (st : Z) : option (M (io D) (Z * list Z)) :=
  match c with
  | ReadFd _ len => read_r t ≫= fun op => Some (op st len)
  | WriteFd _ src => write_r t ≫= fun op => Some (r <- op st src ;; ret (r, []))
  | SeekFd _ pos dir => seek_r t ≫= fun op => Some (r <- op st pos dir ;; ret (r, []))
  | Close _ => close_r t ≫= fun op => Some (r <- op st ;; ret (r, []))
  | Open _ _ _ => None
  end.
Definition no_call (c : call) : Z * list Z :=
  match c with WriteFd fd src => (if fd <? 3 then Z.of_nat (List.length src) else -1, []) | _ => (-1, []) end.
Definition does (op : option (M (io D) (Z * list Z))) (no : Z * list Z) (i : io D) (a : Z * list Z) (i' : io D) : Prop :=
  match op with Some m => m i = Ok a i' | None => a = no /\ i' = i end.
Definition on_file (c : call) (fd : Z) : Prop :=
  match c with ReadFd f _ | WriteFd f _ | SeekFd f _ _ => f = fd | _ => False end.

Section spec.
Variables (dt : list (devoptab_t D)) (find : list Z -> Z).

Definition open_of (file : list Z) : option (Z -> list Z -> Z -> Z -> M (io D) Z) :=
  if find file <? 0 then None else dt !! Z.to_nat (find file) ≫= open_r.

(** A call on the map of open files and the devices. *)
Inductive spec_call : call -> gmap Z (Z * Z) -> io D -> Z * list Z -> gmap Z (Z * Z) -> io D -> Prop :=
  | spec_open file flags mode m i op fd st r i' : open_of file = Some op -> least_free m fd -> fresh_struct m st ->
      op st file flags mode i = Ok r i' -> r <> -1 ->
      spec_call (Open file flags mode) m i (fd, []) (<[fd := (find file, st)]> m) i'
  | spec_open_refused file flags mode m i op st i' : open_of file = Some op -> fresh_struct m st ->
      op st file flags mode i = Ok (-1) i' ->
      spec_call (Open file flags mode) m i (-1, []) m i'
  | spec_open_full file flags mode m i op : open_of file = Some op -> all_used m \/ out_of_memory ->
      spec_call (Open file flags mode) m i (-1, []) m (i <| io_errno := Some ENOSR |>)
  | spec_open_no_device file flags mode m i : open_of file = None ->
      spec_call (Open file flags mode) m i (-1, []) m (i <| io_errno := Some ENOSYS |>)
  | spec_close fd m i d st t a i' : m !! fd = Some (d, st) -> dt !! Z.to_nat d = Some t ->
      does (file_call (Close fd) t st) (-1, []) i a i' ->
      spec_call (Close fd) m i a (delete fd m) i'
  | spec_close_bad fd m i : m !! fd = None -> spec_call (Close fd) m i (-1, []) m i
  | spec_on_file c fd m i d st t a i' : on_file c fd -> file_of m fd = Some (d, st) -> dt !! Z.to_nat d = Some t ->
      does (file_call c t st) (no_call c) i a i' -> spec_call c m i a m i'
  | spec_on_file_bad c fd m i : on_file c fd -> file_of m fd = None -> spec_call c m i (-1, []) m i.

Inductive spec_calls : list call -> gmap Z (Z * Z) -> io D -> list (Z * list Z) -> gmap Z (Z * Z) -> io D -> Prop :=
  | spec_nil m i : spec_calls [] m i [] m i
  | spec_cons c cs m i a m1 i1 l m2 i2 : spec_call c m i a m1 i1 -> spec_calls cs m1 i1 l m2 i2 -> spec_calls (c :: cs) m i (a :: l) m2 i2.
End spec.

(** Devices that return from every call. *)
Definition returns {A : Type} (m : M (io D) A) : Prop := forall i, exists a i', m i = Ok a i'.
Definition device_returns (t : devoptab_t D) : Prop :=
  (forall op, open_r t = Some op -> forall st file flags mode, returns (op st file flags mode)) /\
  (forall c st op, file_call c t st = Some op -> returns op).

(** ** The library implements it *)

Lemma target_run base s m fd : files_rep base s m -> descriptor_ok fd ->
  target fd s = Ok (file_of m fd) s /\ forall d st, file_of m fd = Some (d, st) -> 0 <= d < STD_MAX.
Proof.
  intros R (H0 & H1). unfold target, file_of. rewrite (proj2 (Z.eqb_neq fd (-1))) by lia. destruct (Z.ltb_spec fd 3).
  { split; [done|]. intros d st [= <- <-]. rewrite u32_small; unfold STD_MAX; lia. }
  destruct (get_handle_run _ _ _ fd R H0 H1) as (o & E & Hm). rewrite (bind_ok _ _ _ _ _ E), Hm. split; [by destruct o|].
  intros d st Ho. rewrite <- Hm in Ho. destruct (rep_at _ _ _ _ _ R Ho) as (_ & h & Hh & Ex). injection Ex as -> _. apply (rep_handle _ _ _ R _ _ Hh).
Qed.

Lemma dev_run {A : Type} (m : M (io D) A) s a i' : m (reent s) = Ok a i' -> dev m s = Ok a (s <| reent := i' |>).
Proof. intros E. unfold dev. by rewrite E. Qed.

Lemma dev_plain (m : M (io D) Z) s : plain (dev m) s = dev (r <- m ;; ret (r, [])) s.
Proof. unfold plain, dev, bind, ret. by destruct (m (reent s)). Qed.

(** Reading, writing and seeking as one. *)
Lemma on_file_run base s m c fd : files_rep base s m -> on_file c fd -> descriptor_ok fd ->
  match file_of m fd with
  | None => run_call c s = Ok (-1, []) s
  | Some (d, st) => exists t, devoptab_list s !! Z.to_nat d = Some t /\
      run_call c s = match file_call c t st with Some op => dev op s | None => Ok (no_call c) s end
  end.
Proof.
  intros R Hc Hfd. destruct (target_run _ _ _ _ R Hfd) as (Et & Hd).
  destruct c as [| |fd' len|fd' src|fd' pos dir]; cbn in Hc; try done; subst fd'; cbn [run_call].
  all: (unfold read, write, lseek; destruct (file_of m fd) as [[d st]|];
    [|unfold plain; rewrite ?bind_assoc, (bind_ok _ _ _ _ _ Et); done];
    destruct (optab_run _ _ _ d R (Hd _ _ eq_refl)) as (t & Ht & Eo); exists t; split; [done|]; cbn [file_call]).
  - rewrite (bind_ok _ _ _ _ _ Et), (bind_ok _ _ _ _ _ Eo). by destruct (read_r t).
  - unfold plain. rewrite bind_assoc, (bind_ok _ _ _ _ _ Et), bind_assoc, (bind_ok _ _ _ _ _ Eo). destruct (write_r t); [apply dev_plain|done].
  - unfold plain. rewrite bind_assoc, (bind_ok _ _ _ _ _ Et), bind_assoc, (bind_ok _ _ _ _ _ Eo). destruct (seek_r t); [apply dev_plain|done].
Qed.

Lemma close_run base s m fd : files_rep base s m -> descriptor_ok fd ->
  match m !! fd with
  | None => run_call (Close fd) s = Ok (-1, []) s
  | Some (d, st) => exists t, devoptab_list s !! Z.to_nat d = Some t /\
      run_call (Close fd) s = (a <- match file_call (Close fd) t st with Some op => dev op | None => ret (-1, []) end ;; release_handle fd ;; ret a) s
  end.
Proof.
  intros R (H0 & H1). cbn [run_call file_call]. unfold plain, close. rewrite (proj2 (Z.eqb_neq fd (-1))) by lia.
  destruct (get_handle_run _ _ _ fd R H0 H1) as (o & E & Hm). rewrite bind_assoc, (bind_ok _ _ _ _ _ E), Hm. destruct o as [h|]; [|done]. cbn [mbind option_bind] in *.
  destruct (rep_at _ _ _ _ _ R Hm) as (_ & h' & Hh & Ex). injection Ex as Ed Es. destruct (rep_handle _ _ _ R _ _ Hh) as (Hd & _). rewrite <- Ed in Hd.
  destruct (optab_run _ _ _ _ R Hd) as (t & Ht & Eo). exists t. split; [done|]. rewrite bind_assoc, (bind_ok _ _ _ _ _ Eo).
  destruct (close_r t) as [op|]; unfold bind, ret, dev; cbn; [|by destruct (release_handle fd s)].
  destruct (op (fileStruct h) (reent s)) as [r i'| | |]; [|done..]. by destruct (release_handle fd _).
Qed.

(** What a step keeps. *)
Definition same_devices s s' : Prop := devoptab_list s' = devoptab_list s /\ defaultDevice s' = defaultDevice s.

Lemma open_step base s m file flags mode : files_rep base s m -> Forall device_returns (devoptab_list s) ->
  exists a m' s', run_call (Open file flags mode) s = Ok a s' /\ files_rep base s' m' /\ same_devices s s' /\
    spec_call (devoptab_list s) (device_of s) (Open file flags mode) m (reent s) a m' (reent s').
Proof.
  intros R Hdev. pose proof (open_run _ _ _ file flags mode R) as H. cbv zeta in H. cbn [run_call]. unfold plain.
  destruct (opens s file) as [op|] eqn:Eop.
  2:{ exists (-1, []), m, (with_errno s ENOSYS). split; [by rewrite (bind_ok _ _ _ _ _ H)|]. split; [by eapply rep_same, R|]. split; [done|].
      by apply spec_open_no_device. }
  destruct H as [(E & Hfull)|(fd & st & s1 & Hleast & Hst & _ & R1 & Er & Hd1 & Hd2 & E)].
  { exists (-1, []), m, (with_errno s ENOSR). split; [by rewrite (bind_ok _ _ _ _ _ E)|]. split; [by eapply rep_same, R|]. split; [done|].
    eapply spec_open_full; [done|]. destruct Hfull as [?|(t & _ & ?)]; [by left|right; by eexists _, _]. }
  assert (exists r i', op st file flags mode (reent s) = Ok r i') as (r & i' & Eo).
  { unfold opens in Eop. destruct (device_of s file <? 0); [done|]. destruct (devoptab_list s !! _) as [t|] eqn:Et; [|done].
    rewrite Forall_lookup in Hdev. destruct (Hdev _ _ Et) as (Hop & _). by apply (Hop op). }
  rewrite <- Er in Eo. unfold bind at 1. rewrite E, (bind_ok _ _ _ _ _ (dev_run _ _ _ _ Eo)).
  assert (files_rep base (s1 <| reent := i' |>) (<[fd := (device_of s file, st)]> m)) as R2 by (by eapply rep_same, R1).
  destruct (Z.eqb_spec r (-1)) as [->|Hr].
  - destruct (release_handle_run _ _ _ fd _ R2 (lookup_insert_eq _ _ _)) as (s3 & E3 & R3 & Er3 & Hd3 & Hd4 & _). rewrite (bind_ok _ _ _ _ _ E3).
    exists (-1, []), m, s3. split; [done|]. destruct Hleast as (_ & Hnone & _). rewrite delete_insert_id in R3 by done.
    split; [done|]. split; [split; [by rewrite Hd3|by rewrite Hd4]|]. rewrite Er3. rewrite Er in Eo. by eapply spec_open_refused.
  - exists (fd, []), (<[fd := (device_of s file, st)]> m), (s1 <| reent := i' |>). split; [done|]. split; [done|]. split; [done|].
    rewrite Er in Eo. by eapply spec_open.
Qed.

Lemma close_step base s m fd : files_rep base s m -> Forall device_returns (devoptab_list s) -> descriptor_ok fd ->
  exists a m' s', run_call (Close fd) s = Ok a s' /\ files_rep base s' m' /\ same_devices s s' /\
    spec_call (devoptab_list s) (device_of s) (Close fd) m (reent s) a m' (reent s').
Proof.
  intros R Hdev Hfd. pose proof (close_run _ _ _ _ R Hfd) as H. destruct (m !! fd) as [[d st]|] eqn:Em.
  2:{ exists (-1, []), m, s. split; [done|]. split; [done|]. split; [done|]. by apply spec_close_bad. }
  destruct H as (t & Ht & E). rewrite Forall_lookup in Hdev. destruct (Hdev _ _ Ht) as (_ & Hop).
  assert (exists a i', does (file_call (Close fd) t st) (-1, []) (reent s) a i' /\
    match file_call (Close fd) t st with Some op => dev op | None => ret (-1, []) end s = Ok a (s <| reent := i' |>)) as (a & i' & Hdo & Ea).
  { destruct (file_call (Close fd) t st) as [op|] eqn:Ec.
    - destruct (Hop _ _ _ Ec (reent s)) as (a & i' & Eo). exists a, i'. split; [done|]. by apply dev_run.
    - exists (-1, []), (reent s). split; [done|]. by destruct s. }
  assert (files_rep base (s <| reent := i' |>) m) as R1 by (by eapply rep_same, R).
  destruct (release_handle_run _ _ _ fd _ R1 Em) as (s2 & E2 & R2 & Er & Hd1 & Hd2 & _).
  exists a, (delete fd m), s2. rewrite E, (bind_ok _ _ _ _ _ Ea), (bind_ok _ _ _ _ _ E2). split; [done|]. split; [done|]. split; [done|].
  rewrite Er. by eapply spec_close.
Qed.

Lemma file_step base s m c fd : files_rep base s m -> Forall device_returns (devoptab_list s) -> on_file c fd -> descriptor_ok fd ->
  exists a m' s', run_call c s = Ok a s' /\ files_rep base s' m' /\ same_devices s s' /\
    spec_call (devoptab_list s) (device_of s) c m (reent s) a m' (reent s').
Proof.
  intros R Hdev Hc Hfd. pose proof (on_file_run _ _ _ _ _ R Hc Hfd) as H. destruct (file_of m fd) as [[d st]|] eqn:Em.
  2:{ exists (-1, []), m, s. split; [done|]. split; [done|]. split; [done|]. by eapply spec_on_file_bad. }
  destruct H as (t & Ht & E). rewrite Forall_lookup in Hdev. destruct (Hdev _ _ Ht) as (_ & Hop).
  destruct (file_call c t st) as [op|] eqn:Ec.
  - destruct (Hop _ _ _ Ec (reent s)) as (a & i' & Eo). exists a, m, (s <| reent := i' |>). rewrite E. split; [by apply dev_run|].
    split; [by eapply rep_same, R|]. split; [done|]. eapply spec_on_file; [done|done|done|]. by rewrite Ec.
  - exists (no_call c), m, s. split; [done|]. split; [done|]. split; [done|]. eapply spec_on_file; [done|done|done|]. by rewrite Ec.
Qed.

(** A descriptor the functions do not check reaches memory that is not theirs. *)
Lemma stray_run base s m c fd : files_rep base s m -> on_file c fd -> - 2 ^ 31 <= fd < -1 \/ fd = MAX_HANDLES + 3 -> run_call c s = Fault.
Proof.
  intros R Hc Hfd.
  assert (forall A (k : option (Z * Z) -> M (vfs D) A), (forall d st, ~ (0 <= d < STD_MAX) -> k (Some (d, st)) s = Fault) ->
    bind (target fd) k s = Fault) as Hk.
  { intros A k Hk. unfold target. rewrite (proj2 (Z.eqb_neq fd (-1))) by (unfold MAX_HANDLES in *; lia). destruct (Z.ltb_spec fd 3).
    - rewrite (bind_ok (ret _) _ _ _ s eq_refl). apply Hk. unfold u32, STD_MAX, MAX_HANDLES in *. rewrite <- (Z.mod_add fd 1), Z.mod_small by lia. lia.
    - destruct Hfd as [?| ->]; [lia|]. unfold get_handle. rewrite Z.ltb_irrefl, orb_false_r, (proj2 (Z.ltb_ge _ 3)) by (unfold MAX_HANDLES; lia).
      unfold bind at 1 2 3, gets. rewrite (proj2 (lookup_ge_None (handles s) _)); [done|]. rewrite (rep_len _ _ _ R). unfold MAX_HANDLES. lia. }
  destruct c as [| |fd' len|fd' src|fd' pos dir]; cbn in Hc; try done; subst fd'; cbn [run_call]; unfold read, write, lseek, plain; rewrite ?bind_assoc;
    apply Hk; intros d st Hd; rewrite ?bind_assoc; unfold bind, optab; (destruct (Z.leb_spec 0 d), (Z.ltb_spec d STD_MAX); cbn [andb]; [lia|done..]).
Qed.

(** C9: descriptors refine a finite map.  With devices that return, any sequence
    of calls that open, close, read, write and seek, with descriptors from 0 on
    other than [MAX_HANDLES + 3], runs to its end and gives
    the answers of the map from descriptors to devices and files: the lowest
    free descriptor and a file no other descriptor has is given to a device that
    accepts it; a refusal, a full table or an unknown device changes nothing
    but the error; reads, writes and seeks go to the device and the file of the
    descriptor, or to the console for the first three; after a close the
    descriptor is free.  When no file is left open the heap is what it was.
    The descriptors left out are not checked by the library: a read, a write
    or a seek with [MAX_HANDLES + 3] or with a number below -1 goes past the
    end of the table of handles or of devices. *)
Theorem descriptors_refine_map base s m cs : files_rep base s m -> Forall device_returns (devoptab_list s) -> Forall call_ok cs ->
  runs (run_calls cs) s (fun l s' => exists m', spec_calls (devoptab_list s) (device_of s) cs m (reent s) l m' (reent s') /\
    files_rep base s' m' /\ (m' = ∅ -> blocks s' = base)) /\
  forall c fd, on_file c fd -> - 2 ^ 31 <= fd < -1 \/ fd = MAX_HANDLES + 3 -> run_call c s = Fault.
Proof.
  intros R Hdev Hcs. split; [|by intros c fd; eapply stray_run].
  revert s m R Hdev. induction Hcs as [|c cs Hc _ IH]; intros s m R Hdev; cbn [run_calls].
  { exists [], s. split; [done|]. exists m. split; [constructor|]. split; [done|]. intros ->. by apply rep_nothing_left. }
  assert (exists a m1 s1, run_call c s = Ok a s1 /\ files_rep base s1 m1 /\ same_devices s s1 /\
    spec_call (devoptab_list s) (device_of s) c m (reent s) a m1 (reent s1)) as (a & m1 & s1 & E & R1 & (Hd1 & Hd2) & Hs).
  { destruct c; [by apply open_step|by apply close_step|by eapply file_step..]. }
  destruct (IH s1 m1 R1) as (l & s2 & E2 & m2 & Hs2 & R2 & Hb); [by rewrite Hd1|]. exists (a :: l), s2.
  split; [by rewrite (bind_ok _ _ _ _ _ E), (bind_ok _ _ _ _ _ E2)|]. exists m2. split; [|done]. econstructor; [exact Hs|].
  assert (device_of s1 = device_of s) as Ed by (unfold device_of; by rewrite Hd1, Hd2). by rewrite Hd1, Ed in Hs2.
Qed.
End files.

(** ** A machine with a small device *)

(** An allocator that takes the address after the highest block. *)
Definition top (h : gmap Z Z) : Z := map_fold (fun a n m => Z.max (a + Z.max 1 n) m) 16 h.
#[global] Instance top_malloc : Malloc := { malloc h n := if top h + n <=? 2 ^ 32 then Some (top h) else None; junk a := a }.
Lemma top_above h a n : h !! a = Some n -> a < top h.
Proof.
  unfold top. revert a n. apply (map_fold_weak_ind (fun r h => forall a n, h !! a = Some n -> a < r)); [done|].
  intros k x h' r Hk IH a n. destruct (decide (a = k)) as [->|Hne]; [lia|]. rewrite lookup_insert_ne by done. intros Ha%IH. lia.
Qed.
Lemma top_positive h : 0 < top h.
Proof. unfold top. apply (map_fold_weak_ind (fun r _ => 0 < r)); [lia|]. intros. lia. Qed.
#[global] Instance top_laws : MallocLaws.
Proof.
  split; intros h n a; unfold malloc, top_malloc; destruct (Z.leb_spec (top h + n) (2 ^ 32)); try done; intros [= <-]; [|pose proof (top_positive h); lia]. destruct (h !! top h) as [x|] eqn:E; [|done]. apply top_above in E. lia.
Qed.

(** A device whose files all hold the same text: it keeps their positions. *)
Definition ram_text : list Z := str "Xenon".
Definition ram_dev : devoptab_t (gmap Z Z) :=
  mkDev _ (str "ram") 4
    (Some (fun st file _ _ => if bool_decide (file = str "ram:/gone") then ret (-1) else modify (fun i => i <| io_dev ::= <[st := 0]> |>) ;; ret 0))
    (Some (fun st => modify (fun i => i <| io_dev ::= delete st |>) ;; ret 0))
    None
    (Some (fun st len =>
       p <- gets (fun i => default 0 (io_dev i !! st)) ;;
       let l := take (Z.to_nat len) (drop (Z.to_nat p) ram_text) in
       modify (fun i => i <| io_dev ::= <[st := p + Z.of_nat (List.length l)]> |>) ;;
       ret (Z.of_nat (List.length l), l)))
    None None None None None None None None 0 None None None None None None None None None.
Definition ram_vfs : vfs (gmap Z Z) :=
  mkVfs _ (replicate 3 (console_optab None (fun _ => ret tt)) ++ ram_dev :: replicate 12 dotab_stdnull) (replicate 1024 None) (-1) [] ∅ (mkIo _ None ∅).

(** At the start no file is open. *)
Lemma start_rep {D : Type} (s : vfs D) : handles s = replicate 1024 None -> List.length (devoptab_list s) = Z.to_nat STD_MAX ->
  -1 <= defaultDevice s < STD_MAX -> files_rep (blocks s) s ∅.
Proof.
  intros Hh Hd Hdef. assert (forall k, handles s !! k = Some None \/ handles s !! k = None) as Hn.
  { intros k. rewrite Hh. destruct (decide (k < 1024)%nat); [left; by apply lookup_replicate_2|right; by apply lookup_replicate_None; lia]. }
  split; try done; [by rewrite Hh| | | |].
  - intros fd. rewrite lookup_empty. destruct (_ && _); [|done]. by destruct (Hn (Z.to_nat (fd - 3))) as [->| ->].
  - intros k h E. destruct (Hn k); congruence.
  - intros k k' h h' E. destruct (Hn k); congruence.
  - intros a. by left.
Qed.
Lemma ram_rep : files_rep ∅ ram_vfs ∅.
Proof. by apply (start_rep ram_vfs). Qed.

Lemma ram_returns : Forall device_returns (devoptab_list ram_vfs).
Proof.
  assert (device_returns (console_optab (D := gmap Z Z) None (fun _ => ret tt))) as Hcon.
  { split; [done|]. intros [ | | |fd src|] st op E; try done. injection E as <-. intros i. unfold vfs_console_write. eexists _, i.
    rewrite bind_assoc. rewrite (bind_ok (ret tt) _ i tt i) by done.
    assert (for_each src (fun _ => ret tt) i = Ok tt i) as Ef by (induction src; done). rewrite bind_assoc. by rewrite (bind_ok _ _ _ _ _ Ef). }
  assert (device_returns (D := gmap Z Z) dotab_stdnull) as Hnull by (split; [done|]; by intros []).
  assert (device_returns ram_dev) as Hram.
  { split; [intros op [= <-] st file flags mode i; case_bool_decide; by eexists _, _|]. intros [] st op E; try done; injection E as <-; intros i; by eexists _, _. }
  cbn [devoptab_list ram_vfs]. apply Forall_app. split; [by apply Forall_replicate|]. constructor; [done|by apply Forall_replicate].
Qed.

Definition ram_calls : list call :=
  [Open (str "ram:/a") 0 0; Open (str "ram:/b") 0 0; ReadFd 3 3; ReadFd 4 9; ReadFd 3 9; Open (str "ram:/gone") 0 0;
   Close 3; Close 3; Open (str "usb:/a") 0 0; WriteFd 1 (str "hi"); Close 4].
Lemma ram_answers : match run_calls ram_calls ram_vfs with Ok l s => Some (l, map_to_list (blocks s)) | _ => None end =
  Some ([(3, []); (4, []); (3, str "Xen"); (5, str "Xenon"); (2, str "on"); (-1, []); (0, []); (-1, []); (-1, []); (2, []); (0, [])], []).
Proof. vm_compute. reflexivity. Qed.

Lemma descriptors_refine_map_demo : exists l s' m', run_calls ram_calls ram_vfs = Ok l s' /\
  l = [(3, []); (4, []); (3, str "Xen"); (5, str "Xenon"); (2, str "on"); (-1, []); (0, []); (-1, []); (-1, []); (2, []); (0, [])] /\
  spec_calls (devoptab_list ram_vfs) (device_of ram_vfs) ram_calls ∅ (mkIo _ None ∅) l m' (reent s') /\ map_to_list (blocks s') = [].
Proof.
  destruct (descriptors_refine_map ∅ ram_vfs ∅ ram_calls ram_rep ram_returns) as ((l & s' & E & m' & Hs & _) & _).
  { repeat constructor; unfold MAX_HANDLES; lia. }
  exists l, s', m'. pose proof ram_answers as Ha. rewrite E in Ha. injection Ha as El Eb. split_and!; assumption.
Defined.
