(* ===== verification/NewlibDir.v ===== *)
(** * Working directory and directories [drivers/newlib/newlib.c] *)
From S2P Require Import Prelude Bits GdbHex Iso Newlib.
From Stdlib Require Import Ascii String.
Open Scope Z_scope.
Open Scope list_scope.
Open Scope xenon_scope.

(** ** Paths in an array of characters

    Accesses outside the array are errors. *)

Definition MB (A : Type) : Type := M (list Z) A.

Definition rd (i : Z) : MB Z := fun b =>
  if i <? 0 then Fault else match b !! Z.to_nat i with Some c => Ok c b | None => Fault end.
Definition wr (i c : Z) : MB unit := fun b =>
  if (0 <=? i) && (i <? Z.of_nat (List.length b)) then Ok tt (<[Z.to_nat i := c]> b) else Fault.
Fixpoint wr_all (i : Z) (l : list Z) : MB unit :=
  match l with
  | [] => ret tt
  | c :: l' => wr i c ;; wr_all (i + 1) l'
  end.

(** The text in the array, for functions that go to its end. *)
Definition c_string : MB (list Z) := fun b =>
  if Nat.ltb (strlen b) (List.length b) then Ok (c_text b) b else Fault.

Definition is_this (extra : list Z) : bool :=
  (nth 0 extra 0 =? ch ".") && ((nth 1 extra 0 =? DIR_SEPARATOR) || (nth 1 extra 0 =? 0)).
Definition is_parent (extra : list Z) : bool :=
  (nth 0 extra 0 =? ch ".") && (nth 1 extra 0 =? ch ".") && ((nth 2 extra 0 =? DIR_SEPARATOR) || (nth 2 extra 0 =? 0)).

(** The next name of [extra] with the separator behind it. *)
Definition extra_size (extra : list Z) : nat :=
  match strchr extra DIR_SEPARATOR with None => List.length extra | Some i => S i end.

(** The loop over the names: each round takes characters from [extra]. *)
Fixpoint concat_loop (fuel : nat) (pathEnd pathLength maxLength : Z) (extra : list Z) : MB (errno + Z) :=
  match fuel with
  | O => diverge
  | S fuel' =>
      let extra := skip_separators extra in
      let extraSize := extra_size extra in
      if Nat.eqb extraSize 0 then ret (inr pathEnd) else
      let rest := drop extraSize extra in
      if is_this extra then
        wr pathEnd 0 ;;
        concat_loop fuel' pathEnd pathLength maxLength rest
      else if is_parent extra then
        c <- rd (pathEnd - 1) ;;
        when (c =? DIR_SEPARATOR) (wr (pathEnd - 1) 0) ;;
        path <- c_string ;;
        match last_separator path with
        | None => ret (inl ENOENT)
        | Some i =>
            wr (Z.of_nat i + 1) 0 ;;
            concat_loop fuel' (Z.of_nat i + 1) (Z.of_nat i) maxLength rest
        end
      else
        let pathLength := pathLength + Z.of_nat extraSize in
        if maxLength <=? pathLength then ret (inl ENAMETOOLONG) else
        wr_all pathEnd (take extraSize extra) ;;
        wr (pathEnd + Z.of_nat extraSize) 0 ;;
        concat_loop fuel' (pathEnd + Z.of_nat extraSize) pathLength maxLength rest
  end.

(** [_concatenate_path] on the array [path]; [None] for 0. *)
Definition concatenate_path (extra : list Z) (maxLength : Z) : MB (option errno) :=
  b <- Prelude.get ;;
  let pathLength := Z.of_nat (strlen (take (Z.to_nat maxLength) b)) in
  if maxLength <=? pathLength then ret (Some ENAMETOOLONG) else
  c <- rd (pathLength - 1) ;;
  pathEnd <- (if negb (c =? DIR_SEPARATOR) then wr pathLength DIR_SEPARATOR ;; ret (pathLength + 1) else ret pathLength) ;;
  pathEnd <- (if nth 0 extra 0 =? DIR_SEPARATOR then
                path <- gets c_text ;;
                match strchr path DIR_SEPARATOR with
                | None => fault
                | Some i => wr (Z.of_nat i + 1) 0 ;; ret (Z.of_nat i + 1)
                end
              else ret pathEnd) ;;
  r <- concat_loop (S (List.length extra)) pathEnd pathLength maxLength extra ;;
  match r with
  | inl e => ret (Some e)
  | inr pathEnd =>
      c <- rd (pathEnd - 1) ;;
      when (negb (c =? DIR_SEPARATOR)) (wr pathEnd DIR_SEPARATOR ;; wr (pathEnd + 1) 0) ;;
      ret None
  end.

(** [strncpy(_, l, n)] into an array of [n] characters. *)
Definition padded (n : Z) (l : list Z) : list Z := take (Z.to_nat n) (l ++ replicate (Z.to_nat n) 0).

(** ** Directory streams *)

Record DIR_ITER := mkIter { di_addr : Z; di_device : Z; dirStruct : Z }.
Record dirent := mkDirent { d_ino : Z; d_type : Z; d_name : list Z; d_atime : Z; d_mtime : Z; d_ctime : Z }.
Record DIR := mkDIR { dir_addr : Z; position : Z; dirData : DIR_ITER; fileData : dirent }.
#[global] Instance eta_DIR : Eta DIR := fun r => mkDIR (dir_addr r) (position r) (dirData r) (fileData r).

Definition sizeof_DIR : Z := 280.
Definition DT_DIR : Z := 4.
Definition DT_REG : Z := 8.

Section newlib.
Context {D : Type} `{Malloc}.
Abbreviation MV := (M (vfs D)).

Definition initial_cwd : list Z := padded MAXPATHLEN (str "/").

(** The end of [chdir]: the device is asked. *)
Definition chdir_to (temp_cwd : list Z) : MV Z :=
  d <- FindDevice (c_text temp_cwd) ;;
  if d <? 0 then set_errno ENODEV ;; ret (-1) else
  t <- optab d ;;
  match chdir_r t with
  | None => set_errno ENODEV ;; ret (-1)
  | Some op =>
      r <- dev (op (c_text temp_cwd)) ;;
      if r =? -1 then ret (-1) else
      setDefaultDevice d ;;
      modify (fun s => s <| current_working_directory := padded MAXPATHLEN (c_text temp_cwd) |>) ;;
      ret 0
  end.

(** The path behind the device is put to the copy of the directory; a working
    directory without a device, as at the start, makes the code look at the
    address after NULL. *)
Definition chdir_from (temp_cwd path : list Z) : MV Z :=
  match strchr (c_text temp_cwd) (ch ":") with
  | None => fault
  | Some i =>
      if negb (nth (S i) temp_cwd 0 =? DIR_SEPARATOR) then set_errno ENOENT ;; ret (-1) else
      match concatenate_path path MAXPATHLEN temp_cwd with
      | Fault => fault | Blocked => blocked | Diverge => diverge
      | Ok (Some e) _ => set_errno e ;; ret (-1)
      | Ok None temp_cwd => chdir_to temp_cwd
      end
  end.

Definition chdir (path : list Z) : MV Z :=
  if MAXPATHLEN <=? Z.of_nat (List.length path) then set_errno ENAMETOOLONG ;; ret (-1) else
  cwd <- gets current_working_directory ;;
  match strchr path (ch ":") with
  | Some i => chdir_from (padded MAXPATHLEN path) (drop (S i) path)
  | None => chdir_from (padded MAXPATHLEN (c_text cwd)) path
  end.

(** The text that [getcwd] puts into the buffer, [None] for NULL. *)
Definition getcwd (size : Z) : MV (option (list Z)) :=
  if size =? 0 then set_errno EINVAL ;; ret None else
  cwd <- gets current_working_directory ;;
  if size <? Z.of_nat (strlen cwd) + 1 then set_errno ERANGE ;; ret None else ret (Some (c_text cwd)).

Definition diropen (path : list Z) : MV (option DIR_ITER) :=
  d <- FindDevice path ;;
  if d =? -1 then set_errno ENOSYS ;; ret None else
  t <- optab d ;;
  match diropen_r t with
  | None => set_errno ENOSYS ;; ret None
  | Some op =>
      p <- alloc (sizeof_DIR_ITER + dirStateSize t) ;;
      match p with
      | None => set_errno ENOSR ;; ret None
      | Some a =>
          let handle := mkIter a d (a + sizeof_DIR_ITER) in
          ok <- dev (op (dirStruct handle) path) ;;
          if ok : bool then ret (Some handle) else release a ;; ret None
      end
  end.

Definition dirreset (i : DIR_ITER) : MV Z :=
  t <- optab (di_device i) ;;
  match dirreset_r t with Some op => dev (op (dirStruct i)) | None => set_errno ENOSYS ;; ret (-1) end.

Definition dirnext (i : DIR_ITER) (filestat : bool) : MV (Z * list Z * option stat_t) :=
  t <- optab (di_device i) ;;
  match dirnext_r t with
  | Some op => dev (op (dirStruct i) filestat)
  | None => set_errno ENOSYS ;; ret (-1, [], None)
  end.

Definition dirclose (i : DIR_ITER) : MV Z :=
  t <- optab (di_device i) ;;
  r <- match dirclose_r t with Some op => dev (op (dirStruct i)) | None => set_errno ENOSYS ;; ret (-1) end ;;
  release (di_addr i) ;;
  ret r.

Definition opendir (dirname : list Z) : MV (option DIR) :=
  p <- alloc sizeof_DIR ;;
  match p with
  | None => set_errno ENOMEM ;; ret None
  | Some a =>
      i <- diropen dirname ;;
      match i with
      | None => release a ;; ret None
      | Some i => ret (Some (mkDIR a 0 i (mkDirent (-1) (junk a) [] (junk a) (junk a) (junk a))))
      end
  end.

Definition closedir (dirp : option DIR) : MV Z :=
  match dirp with
  | None => set_errno EBADF ;; ret (-1)
  | Some p => res <- dirclose (dirData p) ;; release (dir_addr p) ;; ret res
  end.

(** The entry, and the stream after it. *)
Definition readdir (dirp : option DIR) : MV (option dirent * option DIR) :=
  olderrno <- gets (fun s => io_errno (reent s)) ;;
  match dirp with
  | None => set_errno EBADF ;; ret (None, None)
  | Some p =>
      let* (res, filename, st) := dirnext (dirData p) true in
      if res <? 0 then
        e <- gets (fun s => io_errno (reent s)) ;;
        match e with
        | Some ENOENT => modify (fun s => s <| reent ::= set io_errno (fun _ => olderrno) |>)
        | _ => ret tt
        end ;;
        ret (None, Some p)
      else
        let p := p <| position ::= fun n => n + 1 |> in
        if NAME_MAX + 1 <=? Z.of_nat (List.length filename) then set_errno EOVERFLOW ;; ret (None, Some p) else
        st <- of_option st ;;
        let e := mkDirent (st_ino st) (if st_isdir st then DT_DIR else DT_REG) filename (st_atime st) (st_mtime st) (st_ctime st) in
        ret (Some e, Some (p <| fileData := e |>))
  end.

Definition rewinddir (dirp : option DIR) : MV (option DIR) :=
  match dirp with
  | None => ret None
  | Some p => dirreset (dirData p) ;; ret (Some (p <| position := 0 |>))
  end.

(** [while (position < loc && __dirnext(...) >= 0) position += 1] *)
Fixpoint seekdir_loop (n : nat) (p : DIR) : MV DIR :=
  match n with
  | O => ret p
  | S n' =>
      let* (res, _, _) := dirnext (dirData p) false in
      if res <? 0 then ret p else seekdir_loop n' (p <| position ::= fun n => n + 1 |>)
  end.

Definition seekdir (dirp : option DIR) (loc : Z) : MV (option DIR) :=
  match dirp with
  | None => ret None
  | Some p =>
      if loc <? 0 then ret (Some p) else
      p <- (if loc <? position p then dirreset (dirData p) ;; ret (p <| position := 0 |>) else ret p) ;;
      p <- seekdir_loop (Z.to_nat (loc - position p)) p ;;
      ret (Some p)
  end.

Definition telldir (dirp : option DIR) : Z := match dirp with None => -1 | Some p => position p end.

End newlib.
