(* ===== verification/NewlibPath.v ===== *)
(** * The working directory resolves paths *)
From S2P Require Import Prelude Bits GdbHex Iso IsoFacts IsoOpen Newlib NewlibFacts NewlibDir.
From Stdlib Require Import Ascii String.
Open Scope Z_scope.
Open Scope list_scope.
Open Scope xenon_scope.

(** ** Specification: directories are lists of names *)

Definition no_sep (l : list Z) : Prop := Forall (fun c => c <> DIR_SEPARATOR) l.
Definition no_zero (l : list Z) : Prop := Forall (fun c => c <> 0) l.
Definition no_colon (l : list Z) : Prop := Forall (fun c => c <> ch ":") l.

(** Following the names of a path: up stops at the root. *)
Fixpoint resolve (dirs l : list (list Z)) : option (list (list Z)) :=
  match l with
  | [] => Some dirs
  | n :: l' =>
      if bool_decide (n = str ".") then resolve dirs l'
      else if bool_decide (n = str "..") then match dirs with [] => None | _ => resolve (removelast dirs) l' end
      else resolve (dirs ++ [n]) l'
  end.

Definition dirs_text (dirs : list (list Z)) : list Z := List.concat ((fun n => n ++ [DIR_SEPARATOR]) <$> dirs).
Definition path_text (d : list Z) (dirs : list (list Z)) : list Z := d ++ ch ":" :: DIR_SEPARATOR :: dirs_text dirs.

Definition name_ok (n : list Z) : Prop := n <> [] /\ no_sep n /\ no_zero n.

(** ** Taking names off a path *)

Lemma first_name extra : no_zero extra -> skip_separators extra <> [] ->
  exists w tail rest, skip_separators extra = w ++ tail /\ name_ok w /\ names extra [] = w :: names rest [] /\
    (List.length rest < List.length extra)%nat /\ no_zero rest /\
    drop (extra_size (w ++ tail)) (w ++ tail) = rest /\
    ((tail = [] /\ rest = [] /\ extra_size (w ++ tail) = List.length w) \/
     (tail = DIR_SEPARATOR :: rest /\ extra_size (w ++ tail) = S (List.length w))).
Proof.
  intros Hz Hne. rewrite <- names_skip. pose proof (skip_head extra) as Hh. pose proof (skip_length extra) as Hl.
  assert (no_zero (skip_separators extra)) as Hz'.
  { clear -Hz. induction Hz as [|c p Hc Hp IH]; [constructor|]. cbn [skip_separators]. destruct (c =? DIR_SEPARATOR); [done|by constructor]. }
  destruct (skip_separators extra) as [|c p]; [done|]. set (e := c :: p) in *. unfold extra_size.
  destruct (strchr e DIR_SEPARATOR) as [i|] eqn:E.
  - pose proof (strchr_some _ _ _ E) as (H1 & H2 & H3). exists (take i e), (drop i e), (drop (S i) e).
    assert (List.length (take i e) = i) as Li by (rewrite length_take; lia).
    rewrite take_drop, E, Li. assert (take i e <> []) as Hnt.
    { destruct i; [|done]. by rewrite drop_0 in H1; injection H1 as ->. }
    assert (names e [] = take i e :: names (drop (S i) e) []) as Hn.
    { rewrite <- (take_drop i e) at 1. rewrite names_word by done. cbn [app]. by rewrite H1, names_cur. }
    split; [done|]. split; [split_and!; [done|done|by apply Forall_take]|]. split; [done|].
    split; [rewrite length_drop; lia|]. split; [by apply Forall_drop|]. split; [done|]. by right.
  - pose proof (strchr_none _ _ E) as Hs. exists e, [], []. rewrite app_nil_r, E, drop_all.
    split; [done|]. split; [done|]. split.
    { rewrite <- (app_nil_r e) at 1. rewrite names_word by done. done. }
    split; [unfold e in *; cbn in *; lia|]. split; [constructor|]. split; [done|]. by left.
Qed.

Lemma nth_word w tail k : (List.length w <= k)%nat -> nth k (w ++ tail) 0 = nth (k - List.length w) tail 0.
Proof. intros. by rewrite app_nth2. Qed.

(** The two names that stand for directories. *)
Lemma is_this_word w tail : name_ok w -> (tail = [] \/ exists r, tail = DIR_SEPARATOR :: r) ->
  is_this (w ++ tail) = bool_decide (w = str ".").
Proof.
  intros (Hne & Hs & Hz) Ht. unfold is_this. destruct w as [|a [|b w]]; [done| |].
  - cbn [app nth]. destruct (Z.eqb_spec a (ch ".")) as [->|Ha].
    + rewrite bool_decide_eq_true_2 by done. by destruct Ht as [->|[r ->]].
    + rewrite bool_decide_eq_false_2; [done|]. intros [=]. done.
  - cbn [app nth]. inversion_clear Hs as [|? ? _ Hs']. inversion_clear Hs' as [|? ? Hb _]. inversion_clear Hz as [|? ? _ Hz']. inversion_clear Hz' as [|? ? Hb0 _].
    rewrite (proj2 (Z.eqb_neq b _) Hb), (proj2 (Z.eqb_neq b _) Hb0), andb_false_r. rewrite bool_decide_eq_false_2; [done|]. by intros [=].
Qed.

Lemma is_parent_word w tail : name_ok w -> (tail = [] \/ exists r, tail = DIR_SEPARATOR :: r) ->
  is_parent (w ++ tail) = bool_decide (w = str "..").
Proof.
  intros (Hne & Hs & Hz) Ht. unfold is_parent. destruct w as [|a [|b [|c w]]]; [done| | |].
  - cbn [app nth]. rewrite (bool_decide_eq_false_2 (_ = _)) by (by intros [=]).
    destruct Ht as [->|[r ->]]; cbn [nth]; by rewrite andb_false_r.
  - cbn [app nth]. destruct (Z.eqb_spec a (ch ".")) as [->|Ha]; [|rewrite bool_decide_eq_false_2; [done|intros [=]; done]].
    destruct (Z.eqb_spec b (ch ".")) as [->|Hb]; [|rewrite bool_decide_eq_false_2; [done|intros [=]; done]].
    rewrite bool_decide_eq_true_2 by done. by destruct Ht as [->|[r ->]].
  - cbn [app nth]. inversion_clear Hs as [|? ? _ Hs']. inversion_clear Hs' as [|? ? _ Hs2]. inversion_clear Hs2 as [|? ? Hc _].
    inversion_clear Hz as [|? ? _ Hz']. inversion_clear Hz' as [|? ? _ Hz2]. inversion_clear Hz2 as [|? ? Hc0 _].
    rewrite (proj2 (Z.eqb_neq c _) Hc), (proj2 (Z.eqb_neq c _) Hc0), andb_false_r. rewrite bool_decide_eq_false_2; [done|]. by intros [=].
Qed.

(** ** Text in an array *)

Lemma wr_end t c x rest : wr (Z.of_nat (List.length t)) c (t ++ x :: rest) = Ok tt (t ++ c :: rest).
Proof.
  unfold wr. rewrite length_app. cbn [List.length]. rewrite (proj2 (Z.leb_le _ _)), (proj2 (Z.ltb_lt _ _)) by lia. cbn [andb].
  rewrite Nat2Z.id, insert_app_r_alt, Nat.sub_diag by done. done.
Qed.

Lemma rd_last t c rest : rd (Z.of_nat (List.length (t ++ [c])) - 1) (t ++ [c] ++ rest) = Ok c (t ++ [c] ++ rest).
Proof.
  unfold rd. rewrite length_app. cbn [List.length]. destruct (Z.ltb_spec (Z.of_nat (List.length t + 1) - 1) 0); [lia|].
  replace (Z.to_nat _) with (List.length t) by lia. cbn [app]. by rewrite list_lookup_middle.
Qed.

Lemma wr_all_end l : forall t old, (List.length l <= List.length old)%nat ->
  wr_all (Z.of_nat (List.length t)) l (t ++ old) = Ok tt (t ++ l ++ drop (List.length l) old).
Proof.
  induction l as [|c l IH]; intros t old Hl; cbn [wr_all List.length drop app]; [done|]. destruct old as [|x old]; [cbn in Hl; lia|].
  rewrite (bind_ok _ _ _ _ _ (wr_end t c x old)). cbn [drop]. replace (t ++ c :: old) with ((t ++ [c]) ++ old) by (by rewrite <- app_assoc).
  replace (Z.of_nat (List.length t) + 1) with (Z.of_nat (List.length (t ++ [c]))) by (rewrite length_app; cbn; lia).
  rewrite IH by (cbn in Hl; lia). by rewrite <- app_assoc.
Qed.

Lemma strlen_text t rest : no_zero t -> strlen (t ++ 0 :: rest) = List.length t.
Proof.
  intros Ht. induction Ht as [|c t Hc _ IH]; [done|]. cbn [app strlen List.length]. by rewrite (proj2 (Z.eqb_neq c 0) Hc), IH.
Qed.
Lemma c_text_app t rest : no_zero t -> c_text (t ++ 0 :: rest) = t.
Proof. intros Ht. unfold c_text. by rewrite strlen_text, take_app_length. Qed.
Lemma c_string_app t rest : no_zero t -> c_string (t ++ 0 :: rest) = Ok t (t ++ 0 :: rest).
Proof.
  intros Ht. unfold c_string. rewrite strlen_text, c_text_app by done. rewrite length_app. cbn [List.length].
  by rewrite (proj2 (Nat.ltb_lt _ _)) by lia.
Qed.

Lemma dirs_text_app l1 l2 : dirs_text (l1 ++ l2) = dirs_text l1 ++ dirs_text l2.
Proof. unfold dirs_text. by rewrite fmap_app, concat_app. Qed.
Lemma path_text_snoc d dirs n : path_text d (dirs ++ [n]) = path_text d dirs ++ n ++ [DIR_SEPARATOR].
Proof. unfold path_text. rewrite dirs_text_app. unfold dirs_text at 2. cbn. by rewrite app_nil_r, <- app_assoc. Qed.
Lemma path_text_nil d : path_text d [] = (d ++ [ch ":"]) ++ [DIR_SEPARATOR].
Proof. unfold path_text. cbn. by rewrite <- app_assoc. Qed.

(** It always ends in a separator, with the parent's text before the last name. *)
Lemma path_text_last d dirs : exists t, path_text d dirs = t ++ [DIR_SEPARATOR].
Proof.
  destruct dirs as [|n dirs _] using rev_ind; [rewrite path_text_nil; by eexists|]. rewrite path_text_snoc. rewrite app_assoc. by eexists.
Qed.

Lemma path_text_no_zero d dirs : no_zero d -> Forall name_ok dirs -> no_zero (path_text d dirs).
Proof.
  intros Hd Hn. apply Forall_app. split; [done|]. do 2 (constructor; [done|]). unfold dirs_text.
  induction Hn as [|n l (_ & _ & H) _ IH]; [constructor|]. cbn. apply Forall_app. split; [|done]. apply Forall_app. split; [done|]. by repeat constructor.
Qed.

Lemma last_separator_none l : no_sep l -> last_separator l = None.
Proof. intros H. induction H as [|x l Hx _ IH]; [done|]. cbn [last_separator]. rewrite IH. by rewrite (proj2 (Z.eqb_neq x _) Hx). Qed.

(** ** The loop over the names *)

(** What the loop leaves: the text of the directory, perhaps without its last
    separator. *)
Definition loop_text (d : list Z) (dirs : list (list Z)) (t : list Z) : Prop :=
  t = path_text d dirs \/ exists dirs0 w, dirs = dirs0 ++ [w] /\ t = path_text d dirs0 ++ w.

Lemma loop_stop fuel e l n b : concat_loop (S fuel) e l n [] b = Ok (inr e) b.
Proof. done. Qed.

(** Going up from a directory to the one it is in. *)
Lemma parent_text d dirs w rest : no_zero d -> Forall name_ok (dirs ++ [w]) ->
  let t := path_text d (dirs ++ [w]) in
  exists rest',
    rd (Z.of_nat (List.length t) - 1) (t ++ 0 :: rest) = Ok DIR_SEPARATOR (t ++ 0 :: rest) /\
    wr (Z.of_nat (List.length t) - 1) 0 (t ++ 0 :: rest) = Ok tt ((path_text d dirs ++ w) ++ 0 :: 0 :: rest) /\
    last_separator (path_text d dirs ++ w) = Some (List.length (path_text d dirs) - 1)%nat /\
    wr (Z.of_nat (List.length (path_text d dirs))) 0 ((path_text d dirs ++ w) ++ 0 :: 0 :: rest) = Ok tt (path_text d dirs ++ 0 :: rest') /\
    List.length (path_text d dirs ++ 0 :: rest') = List.length (t ++ 0 :: rest).
Proof.
  intros Hd Hn t. apply Forall_app in Hn as [Hn Hw]. inversion_clear Hw as [|? ? (Hne & Hs & Hz) _].
  destruct w as [|c w]; [done|]. set (y := c :: w) in *. exists (w ++ 0 :: 0 :: rest).
  assert (t = (path_text d dirs ++ y) ++ [DIR_SEPARATOR]) as -> by (unfold t; by rewrite path_text_snoc, app_assoc).
  set (p := path_text d dirs). split_and!.
  - pose proof (rd_last (p ++ y) DIR_SEPARATOR (0 :: rest)) as E. by rewrite app_assoc in E.
  - rewrite <- (app_assoc (p ++ y)). cbn [app]. rewrite <- (wr_end (p ++ y) 0 DIR_SEPARATOR (0 :: rest)). f_equal. rewrite (length_app (p ++ y)). cbn. lia.
  - destruct (path_text_last d dirs) as [t' Ht']. unfold p. rewrite Ht', <- app_assoc. cbn [app]. rewrite last_separator_app by done.
    f_equal. rewrite length_app. cbn. lia.
  - rewrite <- app_assoc. unfold y. cbn [app]. apply wr_end.
  - unfold y. rewrite !length_app. cbn. rewrite ?length_app. cbn. lia.
Qed.

(** Putting a piece behind the text. *)
Lemma append_text t piece rest : (List.length piece <= List.length rest)%nat ->
  exists old, List.length ((t ++ piece) ++ 0 :: old) = List.length (t ++ 0 :: rest) /\ forall A (k : MB A),
    (wr_all (Z.of_nat (List.length t)) piece ;; wr (Z.of_nat (List.length t) + Z.of_nat (List.length piece)) 0 ;; k) (t ++ 0 :: rest) =
    k ((t ++ piece) ++ 0 :: old).
Proof.
  intros Hl. destruct (drop (List.length piece) (0 :: rest)) as [|x old] eqn:Ed.
  { apply (f_equal List.length) in Ed. rewrite length_drop in Ed. cbn in Ed. lia. }
  exists old. split.
  { apply (f_equal List.length) in Ed. rewrite length_drop in Ed. rewrite !length_app. cbn in *. lia. }
  intros A k. rewrite (bind_ok _ _ _ _ _ (wr_all_end piece t (0 :: rest) ltac:(cbn; lia))), Ed, app_assoc.
  rewrite <- Nat2Z.inj_add, <- length_app. by rewrite (bind_ok _ _ _ _ _ (wr_end (t ++ piece) 0 x old)).
Qed.

Lemma concat_loop_run fuel : forall d dirs extra pathLength maxLength rest, let b := path_text d dirs ++ 0 :: rest in
  no_zero d -> no_sep d -> Forall name_ok dirs -> no_zero extra -> maxLength = Z.of_nat (List.length b) ->
  (List.length (path_text d dirs) + List.length extra + 1 < List.length b)%nat -> 0 <= pathLength ->
  pathLength + Z.of_nat (List.length extra) < maxLength -> (List.length extra < fuel)%nat ->
  match resolve dirs (names extra []) with
  | None => exists b', concat_loop fuel (Z.of_nat (List.length (path_text d dirs))) pathLength maxLength extra b = Ok (inl ENOENT) b'
  | Some dirs' => exists t rest',
      concat_loop fuel (Z.of_nat (List.length (path_text d dirs))) pathLength maxLength extra b = Ok (inr (Z.of_nat (List.length t))) (t ++ 0 :: rest') /\
      loop_text d dirs' t /\ Forall name_ok dirs' /\ List.length (t ++ 0 :: rest') = List.length b /\ (List.length t + 1 < List.length b)%nat
  end.
Proof.
  induction fuel as [|fuel IH]; intros d dirs extra pathLength maxLength rest b Hd Hds Hn Hz Hmax Hlen Hp0 Hp Hf; [lia|].
  destruct (decide (skip_separators extra = [])) as [Hnil|Hnnil].
  { rewrite <- names_skip, Hnil. cbn [names resolve concat_loop]. rewrite Hnil. exists (path_text d dirs), rest.
    split; [done|]. split; [by left|]. unfold b in *. split_and!; [done|done|lia]. }
  destruct (first_name extra Hz Hnnil) as (w & tail & rst & Es & Hw & En & Hl & Hzr & Hdrop & Htail).
  rewrite En. cbn [resolve concat_loop]. rewrite Es, Hdrop.
  assert (tail = [] \/ exists r, tail = DIR_SEPARATOR :: r) as Ht by (destruct Htail as [(-> & _)|(-> & _)]; eauto).
  rewrite is_this_word, is_parent_word by done.
  assert (List.length w <> 0)%nat as Hwl by (destruct Hw as (Hne & _); by destruct w).
  assert (Nat.eqb (extra_size (w ++ tail)) 0 = false) as -> by (apply Nat.eqb_neq; destruct Htail as [(_ & _ & ->)|(_ & ->)]; lia).
  assert (List.length (w ++ tail) <= List.length extra)%nat as Hwt by (rewrite <- Es; apply skip_length).
  assert (no_zero (path_text d dirs)) as Hnz by (by apply path_text_no_zero).
  case_bool_decide as Hthis.
  { pose proof (wr_end (path_text d dirs) 0 0 rest) as E. fold b in E. rewrite (bind_ok _ _ _ _ _ E). apply IH; try done; unfold b in *; lia. }
  case_bool_decide as Hpar.
  { destruct dirs as [|n dirs _] using rev_ind.
    - (* at the root *)
      assert (no_zero (d ++ [ch ":"])) as Hdz by (apply Forall_app; split; [done|by repeat constructor]).
      unfold b. rewrite path_text_nil. pose proof (rd_last (d ++ [ch ":"]) DIR_SEPARATOR (0 :: rest)) as Er. rewrite app_assoc in Er.
      rewrite (bind_ok _ _ _ _ _ Er), Z.eqb_refl. cbn [when].
      replace (Z.of_nat _ - 1) with (Z.of_nat (List.length (d ++ [ch ":"]))) by (rewrite (length_app (d ++ [ch ":"])); cbn; lia).
      rewrite <- (app_assoc (d ++ [ch ":"])). cbn [app]. rewrite (bind_ok _ _ _ _ _ (wr_end _ 0 _ _)), (bind_ok _ _ _ _ _ (c_string_app _ _ Hdz)).
      rewrite last_separator_none by (apply Forall_app; split; [done|by repeat constructor]). by eexists.
    - destruct (parent_text d dirs n rest Hd Hn) as (rest' & E1 & E2 & E3 & E4 & E5). fold b in E1, E2, E5.
      apply Forall_app in Hn as [Hn Hnw]. assert (no_zero (path_text d dirs ++ n)) as Hnz'.
      { inversion_clear Hnw as [|? ? (_ & _ & ?) _]. apply Forall_app. split; [by apply path_text_no_zero|done]. }
      rewrite (bind_ok _ _ _ _ _ E1), Z.eqb_refl. cbn [when]. rewrite (bind_ok _ _ _ _ _ E2), (bind_ok _ _ _ _ _ (c_string_app _ _ Hnz')), E3.
      assert (List.length (path_text d dirs) >= 1)%nat by (destruct (path_text_last d dirs) as [? ->]; rewrite length_app; cbn; lia).
      assert (List.length (path_text d (dirs ++ [n])) = List.length (path_text d dirs) + List.length n + 1)%nat as Hpl
        by (rewrite path_text_snoc, !length_app; cbn; lia).
      replace (Z.of_nat (List.length (path_text d dirs) - 1) + 1) with (Z.of_nat (List.length (path_text d dirs))) by lia.
      rewrite (bind_ok _ _ _ _ _ E4).
      assert (resolve (removelast (dirs ++ [n])) = resolve dirs) as -> by (by rewrite removelast_last).
      destruct (dirs ++ [n]) eqn:Edn; [by destruct dirs|]. rewrite <- E5. apply IH; try done; rewrite ?E5; unfold b in *; lia. }
  (* a name *)
  assert (take (extra_size (w ++ tail)) (w ++ tail) = w ++ (match tail with [] => [] | _ => [DIR_SEPARATOR] end)) as ->.
  { destruct Htail as [(-> & _ & ->)|(-> & ->)]; [rewrite app_nil_r; apply firstn_all|].
    rewrite (cons_middle _ w), app_assoc. replace (S (List.length w)) with (List.length (w ++ [DIR_SEPARATOR])) by (rewrite length_app; cbn; lia). by rewrite take_app_length. }
  set (piece := w ++ match tail with [] => [] | _ => [DIR_SEPARATOR] end). assert (extra_size (w ++ tail) = List.length piece) as Hsz.
  { unfold piece. destruct Htail as [(-> & _ & ->)|(-> & ->)]; rewrite length_app; cbn; lia. }
  assert (List.length piece + List.length rst <= List.length extra)%nat as Hpr.
  { rewrite length_app in Hwt. unfold piece. destruct Htail as [(-> & -> & _)|(-> & _)]; rewrite length_app in *; cbn in *; lia. }
  rewrite Hsz. destruct (Z.leb_spec maxLength (pathLength + Z.of_nat (List.length piece))); [lia|].
  assert (List.length b = List.length (path_text d dirs) + S (List.length rest))%nat as Hb by (unfold b; rewrite length_app; cbn; lia).
  destruct (append_text (path_text d dirs) piece rest) as (old & Hbl & Ek); [lia|]. fold b in Hbl, Ek. rewrite Ek, <- Nat2Z.inj_add, <- length_app.
  assert (Forall name_ok (dirs ++ [w])) as Hn' by (apply Forall_app; split; [done|by constructor]).
  destruct Htail as [(-> & -> & _)|(-> & _)]; unfold piece in *.
  - destruct fuel as [|fuel]; [lia|]. rewrite loop_stop. cbn [names resolve]. rewrite app_nil_r in *. eexists _, old. split; [done|].
    split; [right; by exists dirs, w|]. split; [done|]. split; [done|]. rewrite length_app. lia.
  - rewrite <- (path_text_snoc d dirs w) in *. rewrite <- Hbl. apply IH; try done; rewrite ?Hbl; try lia.
    rewrite path_text_snoc, length_app. lia.
Qed.

(** The loop and what follows it, from the text of a directory. *)
Definition concat_rest (pathEnd pathLength maxLength : Z) (extra : list Z) : MB (option errno) :=
  r <- concat_loop (S (List.length extra)) pathEnd pathLength maxLength extra ;;
  match r with
  | inl e => ret (Some e)
  | inr pathEnd =>
      c <- rd (pathEnd - 1) ;;
      when (negb (c =? DIR_SEPARATOR)) (wr pathEnd DIR_SEPARATOR ;; wr (pathEnd + 1) 0) ;;
      ret None
  end.

Definition resolved (d : list Z) (start : list (list Z)) (extra b : list Z) (o : outcome (list Z) (option errno)) : Prop :=
  match resolve start (names extra []) with
  | None => exists b', o = Ok (Some ENOENT) b'
  | Some dirs => Forall name_ok dirs /\ exists rest, o = Ok None (path_text d dirs ++ 0 :: rest) /\
      List.length (path_text d dirs ++ 0 :: rest) = List.length b
  end.

Lemma concat_rest_run d dirs extra pathLength maxLength rest : let b := path_text d dirs ++ 0 :: rest in
  no_zero d -> no_sep d -> Forall name_ok dirs -> no_zero extra -> maxLength = Z.of_nat (List.length b) ->
  (List.length (path_text d dirs) + List.length extra + 1 < List.length b)%nat -> 0 <= pathLength ->
  pathLength + Z.of_nat (List.length extra) < maxLength ->
  resolved d dirs extra b (concat_rest (Z.of_nat (List.length (path_text d dirs))) pathLength maxLength extra b).
Proof.
  intros b Hd Hds Hn Hz Hmax Hlen Hp0 Hp. unfold resolved, concat_rest.
  pose proof (concat_loop_run (S (List.length extra)) d dirs extra pathLength maxLength rest Hd Hds Hn Hz Hmax Hlen Hp0 Hp ltac:(lia)) as H.
  fold b in H. destruct (resolve dirs (names extra [])) as [dirs'|].
  2:{ destruct H as (b' & E). exists b'. by rewrite (bind_ok _ _ _ _ _ E). }
  destruct H as (t & rest' & E & Ht & Hn' & Hl & Hroom). split; [done|]. rewrite (bind_ok _ _ _ _ _ E).
  destruct Ht as [->|(dirs0 & w & -> & ->)].
  - exists rest'. split; [|done]. destruct (path_text_last d dirs') as [t Et]. rewrite Et in *.
    pose proof (rd_last t DIR_SEPARATOR (0 :: rest')) as Er. rewrite app_assoc in Er. by rewrite (bind_ok _ _ _ _ _ Er), Z.eqb_refl.
  - apply Forall_app in Hn' as [_ Hw]. inversion_clear Hw as [|? ? (Hne & Hs & _) _]. set (p := path_text d dirs0) in *.
    destruct w as [|c w _] using rev_ind; [done|]. apply Forall_app in Hs as [_ Hc]. inversion_clear Hc as [|? ? Hc' _].
    pose proof (rd_last (p ++ w) c (0 :: rest')) as Er. rewrite !app_assoc in Er. rewrite app_assoc. rewrite (bind_ok _ _ _ _ _ Er).
    rewrite (proj2 (Z.eqb_neq c _) Hc'). cbn [negb when]. rewrite app_assoc in Hl, Hroom. set (t := (p ++ w) ++ [c]) in *.
    destruct rest' as [|x rest']; [rewrite length_app in Hl; cbn in Hl; lia|]. exists rest'.
    assert (path_text d (dirs0 ++ [w ++ [c]]) = t ++ [DIR_SEPARATOR]) as -> by (rewrite path_text_snoc; unfold t, p; by rewrite !app_assoc).
    rewrite bind_assoc, (bind_ok _ _ _ _ _ (wr_end t DIR_SEPARATOR 0 (x :: rest'))).
    replace (t ++ DIR_SEPARATOR :: x :: rest') with ((t ++ [DIR_SEPARATOR]) ++ x :: rest') by (by rewrite <- app_assoc).
    replace (Z.of_nat (List.length t) + 1) with (Z.of_nat (List.length (t ++ [DIR_SEPARATOR]))) by (rewrite length_app; cbn; lia).
    rewrite (bind_ok _ _ _ _ _ (wr_end _ 0 x rest')). split; [done|]. rewrite <- Hl, !length_app. cbn. lia.
Qed.

(** A path that starts at the working directory. *)
Lemma concatenate_relative d dirs extra maxLength rest : let b := path_text d dirs ++ 0 :: rest in
  no_zero d -> no_sep d -> Forall name_ok dirs -> no_zero extra -> nth 0 extra 0 <> DIR_SEPARATOR ->
  maxLength = Z.of_nat (List.length b) ->
  Z.of_nat (List.length (path_text d dirs) + List.length extra) + 1 < maxLength ->
  resolved d dirs extra b (concatenate_path extra maxLength b).
Proof.
  intros b Hd Hds Hn Hz Hrel Hmax Hlen. unfold concatenate_path. rewrite (bind_ok Prelude.get _ b b b) by done.
  assert (no_zero (path_text d dirs)) as Hnz by (by apply path_text_no_zero). rewrite firstn_all2 by lia.
  rewrite (strlen_text _ rest Hnz : strlen b = _).
  destruct (Z.leb_spec maxLength (Z.of_nat (List.length (path_text d dirs)))); [lia|].
  destruct (path_text_last d dirs) as [t Et].
  assert (rd (Z.of_nat (List.length (path_text d dirs)) - 1) b = Ok DIR_SEPARATOR b) as Er.
  { unfold b. rewrite Et. pose proof (rd_last t DIR_SEPARATOR (0 :: rest)) as Er. by rewrite app_assoc in Er. }
  rewrite (bind_ok _ _ _ _ _ Er), Z.eqb_refl. cbn [negb]. rewrite (bind_ok (ret _) _ b _ b) by done.
  rewrite (proj2 (Z.eqb_neq _ _) Hrel). rewrite (bind_ok (ret _) _ b _ b) by done. apply concat_rest_run; try done; fold b; lia.
Qed.

Lemma c_text_long pre l : no_zero pre -> exists l', c_text (pre ++ l) = pre ++ l'.
Proof.
  intros Hp. unfold c_text. exists (take (strlen l) l).
  assert (strlen (pre ++ l) = List.length pre + strlen l)%nat as ->; [|by rewrite take_app_add].
  induction Hp as [|c p Hc _ IH]; [done|]. cbn [app strlen List.length]. by rewrite (proj2 (Z.eqb_neq c 0) Hc), IH.
Qed.

(** A path that starts at the root: the array holds any text of the device. *)
Lemma concatenate_absolute d text extra maxLength rest : let b := (path_text d [] ++ text) ++ 0 :: rest in
  no_zero d -> no_sep d -> no_zero text -> no_zero extra -> nth 0 extra 0 = DIR_SEPARATOR ->
  maxLength = Z.of_nat (List.length b) ->
  Z.of_nat (List.length (path_text d [] ++ text) + List.length extra) + 1 < maxLength ->
  resolved d [] extra b (concatenate_path extra maxLength b).
Proof.
  intros b Hd Hds Ht Hz Habs Hmax Hlen. unfold concatenate_path. rewrite (bind_ok Prelude.get _ b b b) by done.
  assert (no_zero (path_text d [])) as Hpz by (by apply path_text_no_zero).
  assert (no_zero (path_text d [] ++ text)) as Hnz by (by apply Forall_app). rewrite firstn_all2 by lia.
  rewrite (strlen_text _ rest Hnz : strlen b = _). set (pl := Z.of_nat (List.length (path_text d [] ++ text))) in *.
  destruct (Z.leb_spec maxLength pl); [lia|].
  assert (exists c, rd (pl - 1) b = Ok c b) as (c & Er).
  { unfold pl, b. clear. destruct (path_text d [] ++ text) as [|c t _] eqn:E using rev_ind; [by destruct d|].
    exists c. pose proof (rd_last t c (0 :: rest)) as H. by rewrite app_assoc in H. }
  rewrite (bind_ok _ _ _ _ _ Er).
  assert (exists e y, (if negb (c =? DIR_SEPARATOR) then wr pl DIR_SEPARATOR ;; ret (pl + 1) else ret pl) b =
    Ok e ((path_text d [] ++ text) ++ y :: rest)) as (e & y & E1).
  { destruct (c =? DIR_SEPARATOR); [by exists pl, 0|]. exists (pl + 1), DIR_SEPARATOR. cbn [negb]. unfold pl, b. by rewrite (bind_ok _ _ _ _ _ (wr_end _ DIR_SEPARATOR 0 rest)). }
  rewrite (bind_ok _ _ _ _ _ E1), Habs, Z.eqb_refl, <- app_assoc.
  assert (exists x more, text ++ y :: rest = x :: more) as (x & more & Em) by (destruct text; by eexists _, _). rewrite Em.
  destruct (c_text_long (path_text d []) (x :: more) Hpz) as (l' & Ec).
  rewrite bind_assoc, (bind_ok (gets c_text) _ _ _ _ eq_refl), Ec, path_text_nil.
  replace (((d ++ [ch ":"]) ++ [DIR_SEPARATOR]) ++ l') with ((d ++ [ch ":"]) ++ DIR_SEPARATOR :: l') by (by rewrite <- (app_assoc (d ++ [ch ":"]))).
  rewrite strchr_app by (apply Forall_app; split; [done|by repeat constructor]). rewrite <- path_text_nil.
  replace (Z.of_nat (List.length (d ++ [ch ":"])) + 1) with (Z.of_nat (List.length (path_text d []))) by (rewrite path_text_nil, (length_app (_ ++ _)); cbn; lia).
  rewrite bind_assoc, (bind_ok _ _ _ _ _ (wr_end _ 0 x more)). rewrite (bind_ok (ret _) _ _ _ _ eq_refl).
  assert (List.length (path_text d [] ++ 0 :: more) = List.length b) as Hbl.
  { apply (f_equal List.length) in Em. unfold b. rewrite <- app_assoc, !length_app in *. cbn in *. lia. }
  assert (List.length (path_text d []) + List.length text = Z.to_nat pl)%nat as Hpl by (unfold pl; rewrite length_app; lia).
  pose proof (concat_rest_run d [] extra pl maxLength more) as H1. cbv zeta in H1. unfold resolved in *. rewrite Hbl in H1. apply H1; try done; try lia; by constructor.
Qed.

(** ** Changing the working directory *)

Section chdir.
Context {D : Type} `{Malloc}.
Implicit Types s : vfs D.

(** The working directory is the directory [dirs] of the device [d]. *)
Definition at_dir s (d : list Z) (dirs : list (list Z)) : Prop :=
  no_zero d /\ no_sep d /\ no_colon d /\ Forall name_ok dirs /\
  exists rest, current_working_directory s = path_text d dirs ++ 0 :: rest /\ Z.of_nat (List.length (path_text d dirs ++ 0 :: rest)) = MAXPATHLEN.

(** Where a path leads from there: the device, and the directory unless the
    path goes up from the root. *)
Definition leads (d : list Z) (dirs : list (list Z)) (path : list Z) : list Z * option (list (list Z)) :=
  match strchr path (ch ":") with
  | Some i => (take i path, resolve [] (names (drop (S i) path) []))
  | None => (d, resolve (if nth 0 path 0 =? DIR_SEPARATOR then [] else dirs) (names path []))
  end.

Definition chdir_op s (text : list Z) : option (Z * (list Z -> M (io D) Z)) :=
  let n := find_device (devoptab_list s) 0 text in
  if n <? 0 then None else devoptab_list s !! Z.to_nat n ≫= fun t => chdir_r t ≫= fun op => Some (n, op).

Definition chdir_spec s (d : list Z) (r : option (list (list Z))) (o : outcome (vfs D) Z) : Prop :=
  match r with
  | None => o = Ok (-1) (with_errno s ENOENT)
  | Some dirs =>
      match chdir_op s (path_text d dirs) with
      | None => o = Ok (-1) (with_errno s ENODEV)
      | Some (n, op) => forall x r', op (path_text d dirs) (reent s) = Ok x r' ->
          if x =? -1 then o = Ok (-1) (s <| reent := r' |>)
          else exists s', o = Ok 0 s' /\ at_dir s' d dirs /\ reent s' = r' /\ defaultDevice s' = (if 2 <? n then n else defaultDevice s) /\
                 devoptab_list s' = devoptab_list s /\ handles s' = handles s /\ blocks s' = blocks s
      end
  end.

Lemma padded_text t : (List.length t < Z.to_nat MAXPATHLEN)%nat -> exists rest, padded MAXPATHLEN t = t ++ 0 :: rest /\ Z.of_nat (List.length (t ++ 0 :: rest)) = MAXPATHLEN.
Proof.
  intros Hl. unfold padded. exists (replicate (Z.to_nat MAXPATHLEN - List.length t - 1) 0).
  replace (Z.to_nat MAXPATHLEN) with (List.length t + S (Z.to_nat MAXPATHLEN - List.length t - 1))%nat at 1 by lia.
  rewrite take_app_add, take_replicate, Nat.min_l by lia. split; [done|]. rewrite length_app. cbn. rewrite length_replicate. unfold MAXPATHLEN in *. lia.
Qed.

(** After the path has been put together. *)
Lemma chdir_device s d dirs rest : List.length (devoptab_list s) = Z.to_nat STD_MAX -> no_zero d -> no_sep d -> no_colon d -> Forall name_ok dirs ->
  Z.of_nat (List.length (path_text d dirs ++ 0 :: rest)) = MAXPATHLEN ->
  chdir_spec s d (Some dirs) (chdir_to (path_text d dirs ++ 0 :: rest) s).
Proof.
  intros Hlist Hd Hds Hdc Hn Hl. unfold chdir_to. rewrite !c_text_app by (by apply path_text_no_zero). set (text := path_text d dirs) in *.
  unfold chdir_spec, FindDevice. assert (strchr text (ch ":") = Some (List.length d)) as -> by (unfold text, path_text; by apply strchr_app).
  rewrite (bind_ok _ _ s (find_device (devoptab_list s) 0 text) s) by done. unfold chdir_op. fold text.
  pose proof (find_device_range (devoptab_list s) 0 text ltac:(lia)) as Hr. set (n := find_device _ 0 text) in *. rewrite Hlist in Hr. unfold STD_MAX in *.
  destruct (Z.ltb_spec n 0) as [Hn0|Hn0]; [done|].
  destruct (lookup_lt_is_Some_2 (devoptab_list s) (Z.to_nat n)) as (t & Et); [lia|]. rewrite Et. cbn [mbind option_bind].
  assert (optab n s = Ok t s) as Eo.
  { unfold optab, STD_MAX. rewrite (proj2 (Z.leb_le 0 n)), (proj2 (Z.ltb_lt n 16)) by lia. cbn [andb]. by rewrite Et. }
  rewrite (bind_ok _ _ _ _ _ Eo). destruct (chdir_r t) as [op|]; [|done]. intros x r' Ex.
  assert (dev (op text) s = Ok x (s <| reent := r' |>)) as Ed by (unfold dev; by rewrite Ex). rewrite (bind_ok _ _ _ _ _ Ed).
  destruct (x =? -1); [done|]. unfold setDefaultDevice, STD_MAX. rewrite (proj2 (Z.leb_le n 16)), andb_true_r by lia.
  destruct (padded_text text) as (rest' & Ep & El); [rewrite length_app in Hl; cbn [List.length] in Hl; lia|]. rewrite Ep.
  destruct (2 <? n); cbn [when]; eexists; (split; [done|]); (split; [split_and!; try done; by exists rest'|done]).
Qed.

Lemma chdir_from_spec s d start extra b : List.length (devoptab_list s) = Z.to_nat STD_MAX -> no_zero d -> no_sep d -> no_colon d ->
  (exists l, b = path_text d [] ++ l) -> Z.of_nat (List.length b) = MAXPATHLEN ->
  resolved d start extra b (concatenate_path extra MAXPATHLEN b) ->
  chdir_spec s d (resolve start (names extra [])) (chdir_from b extra s).
Proof.
  intros Hlist Hd Hds Hdc (l & Hb) Hl Hr. unfold chdir_from. destruct (c_text_long (path_text d []) l) as (l' & Ec); [by apply path_text_no_zero|].
  rewrite <- Hb in Ec. rewrite Ec. unfold path_text at 1. rewrite <- app_assoc. cbn [app]. rewrite strchr_app by done.
  assert (nth (S (List.length d)) b 0 = DIR_SEPARATOR) as ->.
  { rewrite Hb. unfold path_text. rewrite <- app_assoc, app_nth2 by lia. by replace (S (List.length d) - List.length d)%nat with 1%nat by lia. }
  rewrite Z.eqb_refl. cbn [negb]. unfold resolved in Hr. destruct (resolve start (names extra [])) as [dirs|].
  - destruct Hr as (Hn & rest & -> & Hl2). apply chdir_device; try done. by rewrite Hl2.
  - by destruct Hr as (b' & ->).
Qed.

End chdir.

(** ** A device with directories *)

Definition cd_dev : devoptab_t unit :=
  mkDev unit (str "ram") 0 None None None None None None None None None
    (Some (fun path => if bool_decide (path = str "ram:/gone/") then modify (fun i => i <| io_errno := Some ENOENT |>) ;; ret (-1) else ret 0))
    None None 0 None None None None None None None None None.
Definition cd_vfs : vfs unit :=
  mkVfs unit (replicate 3 dotab_stdnull ++ cd_dev :: replicate 12 dotab_stdnull) [] (-1) (padded MAXPATHLEN (str "ram:/a/b/")) ∅ (mkIo unit None tt).

Lemma cd_at : at_dir cd_vfs (str "ram") [str "a"; str "b"].
Proof.
  split; [repeat constructor; discriminate|]. split; [repeat constructor; discriminate|]. split; [repeat constructor; discriminate|].
  split; [repeat constructor; discriminate|]. destruct (padded_text (str "ram:/a/b/")) as (rest & E & Hl); [cbn; unfold MAXPATHLEN; lia|].
  exists rest. split; [exact E|exact Hl].
Qed.

