(* ===== verification/NewlibIso.v ===== *)
(** * A disc as a device of the C library

    The operations of [iso9660.c] in the table of the library, and mounting.
    The descriptors of mounted discs, the open files and the open directories
    are in the memory the library or the driver allocated for them: maps from
    addresses.  The driver finds the disc of a path again by the name of the
    device, which gives the entry of the table whose operation was called. *)
From S2P Require Import Prelude Bits GdbHex Iso IsoFacts IsoOpen Newlib NewlibFacts.
From Stdlib Require Import Ascii String.
Open Scope Z_scope.
Open Scope list_scope.
Open Scope xenon_scope.

(** [DISC_INTERFACE.readSectors] *)
Definition disc : Type := Z -> Z -> option (list Z).

Record isod := mkIsod {
  mounts : gmap Z (disc * iso);
  ifiles : gmap Z (FILE_STRUCT * Z);      (* the file and [file->mdescr] *)
  idirs : gmap Z DIR_STATE
}.
#[global] Instance eta_isod : Eta isod := fun r => mkIsod (mounts r) (ifiles r) (idirs r).
Abbreviation MO := (M (io isod)).

Definition sizeof_FILE_STRUCT : Z := 164.
Definition sizeof_DIR_STATE : Z := 160.
Definition sizeof_devoptab : Z := 100.
Definition sizeof_MOUNT_DESCR : Z := 65632.

Definition on_mount {A : Type} (mdescr : Z) (m : disc -> MI A) : MO A := fun i =>
  match mounts (io_dev i) !! mdescr with
  | None => Fault
  | Some (d, v) =>
      match m d v with
      | Ok a v' => Ok a (i <| io_dev ::= set mounts <[mdescr := (d, v')]> |>)
      | Fault => Fault | Blocked => Blocked | Diverge => Diverge
      end
  end.
Definition file_at (st : Z) : MO (FILE_STRUCT * Z) := fun i =>
  match ifiles (io_dev i) !! st with Some f => Ok f i | None => Fault end.
Definition put_file (st : Z) (f : FILE_STRUCT * Z) : MO unit := modify (fun i => i <| io_dev ::= set ifiles <[st := f]> |>).
Definition dir_at (st : Z) : MO DIR_STATE := fun i =>
  match idirs (io_dev i) !! st with Some d => Ok d i | None => Fault end.
Definition put_dir (st : Z) (d : DIR_STATE) : MO unit := modify (fun i => i <| io_dev ::= set idirs <[st := d]> |>).
Definition leave_errno (e : option errno) : MO unit :=
  match e with None => ret tt | Some _ => modify (fun i => i <| io_errno := e |>) end.

Definition stat_of (x : Z * bool * Z * Z) : stat_t := let '(ino, d, size, _) := x in mkStat ino d true true true size 0 0 0.

(** [dotab_iso9660] with the name and the descriptor of a mount; [fuel]
    bounds the records of a directory. *)
Section device.
Variable fuel : nat.

Definition dotab_iso9660 (name : list Z) (mdescr : Z) : devoptab_t isod :=
  mkDev isod name sizeof_FILE_STRUCT
    (Some (fun st path _ _ =>
       let* (f, e) := on_mount mdescr (fun d => ISO9660_open_r d fuel path) in
       leave_errno e ;;
       match f with None => ret (-1) | Some file => put_file st (file, mdescr) ;; ret (s32 st) end))
    (Some (fun st =>
       let* (file, md) := file_at st in
       let '(r, e, file) := ISO9660_close_r file in
       leave_errno e ;; put_file st (file, md) ;; ret r))
    None
    (Some (fun st len =>
       let* (file, md) := file_at st in
       let* (r, l, e, file) := on_mount md (fun d => ISO9660_read_r d file len) in
       leave_errno e ;; put_file st (file, md) ;; ret (r, l)))
    (Some (fun st pos dir =>
       let* (file, md) := file_at st in
       let '(r, e, file) := ISO9660_seek_r file pos dir in
       leave_errno e ;; put_file st (file, md) ;; ret r))
    (Some (fun st =>
       let* (file, md) := file_at st in
       let '(r, e, x) := ISO9660_fstat_r file in
       leave_errno e ;; ret (r, stat_of <$> x)))
    (Some (fun path =>
       let* (r, e, x) := on_mount mdescr (fun d => ISO9660_stat_r d fuel path) in
       leave_errno e ;; ret (r, stat_of <$> x)))
    None None
    (Some (fun path =>
       let* (r, e) := on_mount mdescr (fun d => ISO9660_chdir_r d fuel path) in
       leave_errno e ;; ret r))
    None None sizeof_DIR_STATE
    (Some (fun st path =>
       let* (x, e) := on_mount mdescr (fun d => ISO9660_diropen_r d fuel path) in
       leave_errno e ;;
       match x with None => ret false | Some s => put_dir st s ;; ret true end))
    (Some (fun st =>
       s <- dir_at st ;;
       let '(r, e, s) := ISO9660_dirreset_r s in
       leave_errno e ;; put_dir st s ;; ret r))
    (Some (fun st filestat =>
       s <- dir_at st ;;
       let '(r, e, x, s) := ISO9660_dirnext_r s in
       match x, filestat with
       | Some _, false => fault      (* the entry is written through NULL *)
       | _, _ =>
           leave_errno e ;; put_dir st s ;;
           ret (r, match x with Some (name, _) => name | None => [] end, match x with Some (_, y) => Some (stat_of y) | None => None end)
       end))
    (Some (fun st =>
       s <- dir_at st ;;
       let* (r, e, s) := on_mount mdescr (fun _ => ISO9660_dirclose_r s) in
       leave_errno e ;; put_dir st s ;; ret r))
    (Some (fun path => ret 0))
    None None None None.

(** ** Mounting *)

Section mount.
Context `{Malloc}.

(** The root is set, and the buffers are written, before they are looked at. *)
Definition blank_mount : iso := mkIso [] [] 0 0 false (PathEntry 0 (mkPT 0 0 0 0 []) []) None 0.

Definition mdescr_constructor (d : disc) : M (vfs isod) (option Z) :=
  p <- alloc sizeof_MOUNT_DESCR ;;
  match p with
  | None => ret None
  | Some a =>
      match read_directories d blank_mount with
      | Ok true v =>
          modify (fun s => s <| reent ::= set io_dev (set mounts <[a := (d, v)]>) |>) ;; ret (Some a)
      | Ok false _ => release a ;; ret None
      | Fault => fault | Blocked => blocked | Diverge => diverge
      end
  end.

(** [startup] and [isInserted] are the answers of the disc. *)
Definition ISO9660_Mount (name : list Z) (d : disc) (startup isInserted : bool) : M (vfs isod) bool :=
  if 8 <? Z.of_nat (List.length name) then ret false else
  if negb startup then ret false else
  if negb isInserted then ret false else
  n <- FindDevice (name ++ [ch ":"]) ;;
  if 0 <=? n then ret false else
  p <- alloc (sizeof_devoptab + Z.of_nat (List.length name) + 1) ;;
  match p with
  | None => ret false
  | Some devops =>
      m <- mdescr_constructor d ;;
      match m with
      | None => release devops ;; ret false
      | Some mdescr =>
          n <- AddDevice (dotab_iso9660 name mdescr) ;;
          if n <? 0 then release mdescr ;; release devops ;; ret false else ret true
      end
  end.
End mount.
End device.
