(* ===== verification/NewlibIsoFacts.v ===== *)
(** * From a disc to a file through the C library *)
From S2P Require Import Prelude Bits GdbHex Iso IsoFacts IsoOpen IsoMount Newlib NewlibFacts NewlibIso.
From Stdlib Require Import Ascii String.
Open Scope Z_scope.
Open Scope list_scope.
Open Scope xenon_scope.

(** ** Devices are found by their names *)

Section devices.
Context {D : Type} `{HM : Malloc} `{HL : !MallocLaws}.
Implicit Types (s : vfs D) (m : gmap Z (Z * Z)).

Definition no_colon (l : list Z) : Prop := Forall (fun c => c <> ch ":") l.

(** The name before the colon decides. *)
Lemma names_device_prefix d name rest : no_colon d -> no_colon name ->
  names_device d (name ++ ch ":" :: rest) = names_device d (name ++ [ch ":"]).
Proof.
  intros Hd Hn. unfold names_device. destruct (decide (List.length d <= List.length name)%nat) as [Hl|Hl].
  - rewrite !take_app_le by done. f_equal. assert (forall r k, (k <= List.length name)%nat -> nth k (name ++ ch ":" :: r) 0 = nth k (name ++ [ch ":"]) 0) as Hk.
    { intros r k Hk. destruct (decide (k < List.length name)%nat); [by rewrite !app_nth1|]. replace k with (List.length name) by lia. by rewrite !app_nth2, Nat.sub_diag by lia. }
    rewrite (Hk rest) by done. destruct (decide (List.length d + 1 <= List.length name)%nat) as [Hl'|Hl']; [by rewrite (Hk rest)|].
    replace (List.length d) with (List.length name) by lia. rewrite app_nth2, Nat.sub_diag by lia. done.
  - assert (forall r, bool_decide (take (List.length d) (name ++ ch ":" :: r) = d) = false) as Hb; [|by rewrite Hb, (Hb [])].
    intros r. apply bool_decide_eq_false_2. intros E. rewrite take_app_ge in E by lia. rewrite <- E in Hd.
    replace (List.length d - List.length name)%nat with (S (List.length d - List.length name - 1)) in Hd by lia. cbn [take] in Hd.
    apply Forall_app in Hd as [_ Hd]. inversion_clear Hd. done.
Qed.

Lemma names_itself name rest : names_device name (name ++ ch ":" :: rest) = true.
Proof. unfold names_device. rewrite take_app_length, bool_decide_eq_true_2 by done. cbn [andb]. by rewrite app_nth2, Nat.sub_diag, Z.eqb_refl by lia. Qed.

Lemma find_device_none l : forall i name, 0 <= i -> find_device (D := D) l i name = -1 -> Forall (fun t => names_device (dv_name t) name = false) l.
Proof.
  induction l as [|t l IH]; intros i name Hi Hf; [constructor|]. cbn [find_device] in Hf. destruct (names_device (dv_name t) name) eqn:E; [lia|].
  constructor; [done|]. apply (IH (i + 1)); [lia|done].
Qed.

Lemma find_device_at l : forall i name k t, (forall j t', (j < k)%nat -> l !! j = Some t' -> names_device (dv_name t') name = false) ->
  l !! k = Some t -> names_device (dv_name t) name = true -> find_device (D := D) l i name = i + Z.of_nat k.
Proof.
  induction l as [|x l IH]; intros i name k t Hbefore Hk Ht; [done|]. cbn [find_device]. destruct k as [|k].
  - injection Hk as ->. rewrite Ht. lia.
  - rewrite (Hbefore 0%nat x) by (done || lia). rewrite (IH (i + 1) name k t); [lia| |done|done]. intros j t' Hj Hl. apply (Hbefore (S j)); [lia|done].
Qed.

Lemma device_place_range l : forall n name, n <= device_place (D := D) l n name <= n + Z.of_nat (List.length l).
Proof.
  induction l as [|t l IH]; intros n name; cbn [device_place List.length]; [lia|]. destruct (_ || _); [lia|]. pose proof (IH (n + 1) name). lia.
Qed.

(** A name that no device answers to, once added, is found. *)
Lemma added_found base s m t rest : files_rep base s m -> no_colon (dv_name t) -> Forall (fun t' => no_colon (dv_name t')) (devoptab_list s) ->
  find_device (devoptab_list s) 0 (dv_name t ++ [ch ":"]) = -1 -> device_place (drop 3 (devoptab_list s)) 3 (dv_name t) <> STD_MAX ->
  exists n s', AddDevice t s = Ok n s' /\ 3 <= n < STD_MAX /\ s' = s <| devoptab_list ::= <[Z.to_nat n := t]> |> /\ files_rep base s' m /\
    devoptab_list s' !! Z.to_nat n = Some t /\ device_of s' (dv_name t ++ ch ":" :: rest) = n.
Proof.
  intros R Hn Hall Hnone Hroom. pose proof (rep_devs _ _ _ R) as Hlen. set (n := device_place (drop 3 (devoptab_list s)) 3 (dv_name t)) in *.
  assert (3 <= n < STD_MAX) as Hr.
  { pose proof (device_place_range (drop 3 (devoptab_list s)) 3 (dv_name t)) as H. rewrite length_drop, Hlen in H. unfold STD_MAX in *. fold n in H. lia. }
  exists n, (s <| devoptab_list ::= <[Z.to_nat n := t]> |>). split.
  { unfold AddDevice. rewrite (bind_ok (gets _) _ s _ s eq_refl). fold n. cbv zeta. rewrite (proj2 (Z.eqb_neq n STD_MAX)) by lia.
    unfold set_optab. by rewrite (proj2 (Z.leb_le 0 n)), (proj2 (Z.ltb_lt n STD_MAX)) by lia. }
  split; [done|]. split; [done|]. assert (Z.to_nat n < List.length (devoptab_list s))%nat as Hlt by (rewrite Hlen; unfold STD_MAX in *; lia).
  assert (<[Z.to_nat n := t]> (devoptab_list s) !! Z.to_nat n = Some t) as Hat by (by apply list_lookup_insert_eq).
  split; [destruct R; split; try done; cbn; by rewrite length_insert|]. split; [done|].
  unfold device_of. rewrite strchr_app by done.
  change (find_device (<[Z.to_nat n := t]> (devoptab_list s)) 0 (dv_name t ++ ch ":" :: rest) = n).
  rewrite (find_device_at _ 0 _ (Z.to_nat n) t); [lia| |done|apply names_itself].
  intros j t' Hj Ht'. rewrite list_lookup_insert_ne in Ht' by lia. rewrite Forall_lookup in Hall.
  rewrite names_device_prefix by (done || by eapply Hall). apply find_device_none in Hnone; [|lia]. rewrite Forall_lookup in Hnone. by eapply Hnone.
Qed.

Lemma alloc_rep base s m n a : files_rep base s m -> malloc (blocks s) n = Some a -> files_rep (<[a := n]> base) (s <| blocks ::= <[a := n]> |>) m.
Proof.
  intros [R1 R2 R3 R4 R5 R6 R7] Ha. pose proof (malloc_fresh _ _ _ Ha) as Hf. split; try done; cbn.
  - intros k h E. destruct (R5 k h E) as (H1 & H2 & H3 & (x & H4)). assert (h_addr h <> a) by congruence.
    split_and!; try done; try lia; by rewrite lookup_insert_ne.
  - intros b. destruct (decide (b = a)) as [->|Hne]; [left; by rewrite !lookup_insert_eq|]. rewrite !lookup_insert_ne by done. apply R7.
Qed.
End devices.

(** ** Mounting *)

Section mounted.
Context `{HM : Malloc} `{HL : !MallocLaws} (fuel : nat).
Context (d : disc) (content : Z -> Z) (last : Z) (Hdrive : drive_ok d content last).
Context (Hone : forall s, 0 <= s < last -> d s 1 = Some (bytes content (s * SECTOR_SIZE) SECTOR_SIZE)).
Implicit Types (s : vfs isod) (m : gmap Z (Z * Z)).

(** A disc with a path table: the root and the other directories. *)
Definition disc_ok (v : Z) (u : bool) (l ts : list PATHTABLE_ENTRY) : Prop :=
  let P := word content (v * SECTOR_SIZE + 148) in
  32 <= last /\ volume_of content = Some (v, u) /\ 0 <= P /\
  entries content last (P * SECTOR_SIZE) (word content (v * SECTOR_SIZE + 136)) 10 l /\ Forall (fun e => 0 <= name_length e) l /\
  Forall2 (fun e t => finish_entry u e = Some t) l ts /\ parents_ok (root_entry content v :: ts) /\ Z.of_nat (List.length l) < 0xffff.

(** The heap after the two allocations of a mount. *)
Definition mount_blocks (h : gmap Z Z) (name : list Z) : option (gmap Z Z) :=
  let sz := sizeof_devoptab + Z.of_nat (List.length name) + 1 in
  a ← malloc h sz; b ← malloc (<[a := sz]> h) sizeof_MOUNT_DESCR; Some (<[b := sizeof_MOUNT_DESCR]> (<[a := sz]> h)).

(** A library that has a place, a name and memory for one more disc. *)
Definition can_mount s (name : list Z) (h : gmap Z Z) : Prop :=
  no_colon name /\ Z.of_nat (List.length name) <= 8 /\ Forall (fun t => no_colon (dv_name t)) (devoptab_list s) /\
  find_device (devoptab_list s) 0 (name ++ [ch ":"]) = -1 /\ device_place (drop 3 (devoptab_list s)) 3 name <> STD_MAX /\
  mount_blocks (blocks s) name = Some h.

(** The device [n] is the disc, with the tree [root]; [vol] is its state. *)
Record disc_mounted s (n mdescr : Z) (name : list Z) (vol : iso) : Prop := {
  md_range : 3 <= n < STD_MAX;
  md_device : devoptab_list s !! Z.to_nat n = Some (dotab_iso9660 fuel name mdescr);
  md_found : forall rest, device_of s (name ++ ch ":" :: rest) = n;
  md_state : mounts (io_dev (reent s)) !! mdescr = Some (d, vol);
  md_cache : cache_ok content last vol
}.

Lemma mount_run base s m name v u l ts h : files_rep base s m -> disc_ok v u l ts -> can_mount s name h ->
  exists base' s' n mdescr vol, ISO9660_Mount fuel name d true true s = Ok true s' /\ files_rep base' s' m /\ base ⊆ base' /\ blocks s' = h /\
    disc_mounted s' n mdescr name vol /\ iso_rootentry vol = tree_of (root_entry content v :: ts) /\ iso_unicode vol = u /\
    child_arrays vol = 0.
Proof.
  intros R (Hlast & Hv & HP & He & Hnl & Hfin & Hpar & Hmax) (Hnc & Hnlen & Hall & Hnone & Hroom & Hmem). unfold mount_blocks in Hmem.
  apply bind_Some in Hmem as (a & Ha & Hmem). apply bind_Some in Hmem as (b & Hb & Eh). injection Eh as <-.
  unfold ISO9660_Mount. rewrite (proj2 (Z.ltb_ge 8 _)) by done. cbn [negb].
  destruct (find_run _ _ _ (name ++ [ch ":"]) R) as (Ef & _). rewrite (bind_ok _ _ _ _ _ Ef).
  assert (device_of s (name ++ [ch ":"]) = -1) as -> by (unfold device_of; by rewrite strchr_app). rewrite (proj2 (Z.leb_gt 0 (-1))) by lia.
  set (sz := sizeof_devoptab + Z.of_nat (List.length name) + 1) in *. set (s1 := s <| blocks ::= <[a := sz]> |>).
  rewrite (bind_ok (alloc sz) _ s (Some a) s1) by (unfold alloc; by rewrite Ha).
  assert (files_rep (<[a := sz]> base) s1 m) as R1 by (by apply alloc_rep).
  set (s2 := s1 <| blocks ::= <[b := sizeof_MOUNT_DESCR]> |>).
  assert (files_rep (<[b := sizeof_MOUNT_DESCR]> (<[a := sz]> base)) s2 m) as R2 by (by apply alloc_rep).
  destruct (read_directories_run d content last Hdrive Hone blank_mount v u l ts) as (vol & Er & Hc & Hroot & Hu & _ & Hn0); try done.
  set (s3 := s2 <| reent ::= set io_dev (set mounts <[b := (d, vol)]>) |>).
  assert (mdescr_constructor d s1 = Ok (Some b) s3) as Em.
  { unfold mdescr_constructor. rewrite (bind_ok (alloc _) _ s1 (Some b) s2) by (unfold alloc; change (blocks s1) with (<[a := sz]> (blocks s)); by rewrite Hb).
    rewrite Er. done. }
  rewrite (bind_ok _ _ _ _ _ Em). assert (files_rep (<[b := sizeof_MOUNT_DESCR]> (<[a := sz]> base)) s3 m) as R3 by (by eapply rep_same, R2).
  destruct (added_found _ s3 m (dotab_iso9660 fuel name b) [] R3) as (n & s4 & Ea & Hn & E4 & R4 & Hat & _); try done.
  rewrite (bind_ok _ _ _ _ _ Ea), (proj2 (Z.ltb_ge n 0)) by lia.
  exists (<[b := sizeof_MOUNT_DESCR]> (<[a := sz]> base)), s4, n, b, vol. split; [done|]. split; [done|].
  split.
  - assert (forall h, files_rep base s m -> blocks s !! h = None -> base !! h = None) as Hbase.
    { intros h R0 Hh. destruct (rep_blocks _ _ _ R0 h) as [<-|(k & hh & Hk & <-)]; [done|]. by destruct (rep_handle _ _ _ R0 _ _ Hk) as (_ & _ & ? & _). }
    apply malloc_fresh in Ha as Fa, Hb as Fb. apply lookup_insert_None in Fb as [Fb Hab].
    etrans; [apply (insert_subseteq _ a sz); by apply Hbase|]. apply insert_subseteq. rewrite lookup_insert_ne by done. by apply Hbase.
  - split; [by rewrite E4|]. split; [|done]. split; [done|done| | |done].
    + intros rest. destruct (added_found _ s3 m (dotab_iso9660 fuel name b) rest R3) as (n' & s' & Ea' & _ & _ & _ & _ & Hd); try done.
      rewrite Ea in Ea'. injection Ea' as <- <-. exact Hd.
    + rewrite E4. cbn. by rewrite lookup_insert_eq.
Qed.

(** ** Files *)

(** The path leads to a file: what [iso_open_reads] needs, and where the file is. *)
Record disc_file (vol : iso) (dir base : list Z) (c : DIR_CHILD) : Prop := mkDiscFile {
  df_where : exists parent layout self others,
    lookup_names (iso_rootentry vol) (names dir []) = Some parent /\ find_child base parent = None /\
    dir_ok content last vol (pt_sector (table_entry parent)) layout self others /\
    List.find (fun c => same_name base (ch_name c)) (children_of vol (record_sector self) others) = Some c /\
    (List.length (List.concat layout) <= fuel)%nat;
  df_name : base <> [] /\ Forall (fun c => c <> DIR_SEPARATOR) base;
  df_file : is_dir (ch_flags c) = false /\ 0 <= ch_sector c /\ 0 <= ch_size c < 2 ^ 31 /\ ch_sector c * SECTOR_SIZE + ch_size c <= last * SECTOR_SIZE
}.

(** It depends on the tree only. *)
Lemma disc_file_same vol vol' dir base c : iso_rootentry vol' = iso_rootentry vol -> iso_unicode vol' = iso_unicode vol ->
  disc_file vol dir base c -> disc_file vol' dir base c.
Proof.
  intros E1 E2 [(parent & layout & self & others & H1 & H2 & [? ? ? ? ?] & H4 & H5) Hn Hf]. split; [|done|done].
  exists parent, layout, self, others. unfold children_of in *. rewrite E1, E2. split_and!; try done. split; try done. by rewrite E2.
Qed.

Definition run_op (fd : Z) (op : file_op) : M (vfs isod) (Z * list Z) :=
  match op with Read n => run_call (ReadFd fd n) | Seek pos dir => run_call (SeekFd fd pos dir) end.
Fixpoint run_ops (fd : Z) (ops : list file_op) : M (vfs isod) (list (Z * list Z)) :=
  match ops with
  | [] => ret []
  | op :: ops' => a <- run_op fd op ;; l <- run_ops fd ops' ;; ret (a :: l)
  end.
(** Opening a file, calls on it, and closing it: the answers and the result of [close]. *)
Definition use_file (path : list Z) (ops : list file_op) : M (vfs isod) (option (list (Z * list Z) * Z)) :=
  fd <- open path 0 0 ;;
  if fd =? -1 then ret None else
  l <- run_ops fd ops ;; r <- run_call (Close fd) ;; ret (Some (l, r.1)).
Definition answers (data : list Z) (p : Z) (ops : list file_op) : list (Z * list Z) :=
  (fun x : Z * list Z * option errno => x.1) <$> spec_files data p ops.

(** A descriptor of an open file of the disc. *)
Record file_open base s m (fd n st mdescr : Z) (name : list Z) (vol : iso) (file : FILE_STRUCT) : Prop := {
  fo_rep : files_rep base s (<[fd := (n, st)]> m);
  fo_fd : 3 <= fd < MAX_HANDLES + 3;
  fo_mount : disc_mounted s n mdescr name vol;
  fo_file : ifiles (io_dev (reent s)) !! st = Some (file, mdescr);
  fo_ok : file_ok last file
}.

Lemma leave_errno_run e i : exists e', leave_errno e i = Ok tt (i <| io_errno := e' |>).
Proof. destruct e as [e|]; [by eexists|]. exists (io_errno i). by destruct i. Qed.

Lemma on_mount_run {A : Type} md (m : disc -> MI A) i vol a vol' : mounts (io_dev i) !! md = Some (d, vol) -> m d vol = Ok a vol' ->
  on_mount md m i = Ok a (i <| io_dev ::= set mounts <[md := (d, vol')]> |>).
Proof. intros Hm Ea. unfold on_mount. by rewrite Hm, Ea. Qed.

(** Reading and seeking on the device. *)
Lemma device_op_run name md st op i vol file : mounts (io_dev i) !! md = Some (d, vol) -> ifiles (io_dev i) !! st = Some (file, md) ->
  cache_ok content last vol -> file_ok last file -> op_ok op ->
  let '(r, l, e, p) := spec_file (file_data content file) (f_offset file) op in
  exists i' vol' dop, file_call (match op with Read n => ReadFd 3 n | Seek pos dir => SeekFd 3 pos dir end) (dotab_iso9660 fuel name md) st = Some dop /\
    dop i = Ok (r, l) i' /\ mounts (io_dev i') = <[md := (d, vol')]> (mounts (io_dev i)) /\
    ifiles (io_dev i') !! st = Some (file <| f_offset := p |>, md) /\ cache_ok content last vol' /\ file_ok last (file <| f_offset := p |>) /\
    child_arrays vol' = child_arrays vol.
Proof.
  intros Hm Hi Hc Hf Ho. pose proof (run_file_spec d content last Hdrive vol file op Hc Hf Ho) as H.
  assert (file_at st i = Ok (file, md) i) as Ea by (unfold file_at; by rewrite Hi).
  destruct (spec_file (file_data content file) (f_offset file) op) as [[[r l] e] p] eqn:Es. destruct H as (vol' & E & Hc' & (_ & _ & _ & _ & Hn) & Hp).
  assert (file_ok last (file <| f_offset := p |>)) as Hf' by (destruct file; destruct Hf as (?&?&?&?&?); split_and!; cbn in *; done || lia).
  destruct op as [n|pos dir]; cbn [run_file] in E; cbn [file_call dotab_iso9660 read_r seek_r mbind option_bind].
  - destruct (leave_errno_run e (i <| io_dev ::= set mounts <[md := (d, vol')]> |>)) as (e' & Ee). eexists _, vol', _. split; [done|]. split.
    + rewrite (bind_ok _ _ _ _ _ Ea), (bind_ok _ _ _ _ _ (on_mount_run md _ i vol _ vol' Hm E)), (bind_ok _ _ _ _ _ Ee). reflexivity.
    + split; [done|]. split; [cbn; by rewrite lookup_insert_eq|done].
  - destruct (ISO9660_seek_r file pos dir) as [[r' e1] file'] eqn:Ek. injection E as -> <- -> -> ->.
    destruct (leave_errno_run e i) as (e' & Ee). eexists _, vol', _. split; [done|]. split.
    + rewrite bind_assoc, (bind_ok _ _ _ _ _ Ea). cbv iota beta. rewrite Ek, bind_assoc, (bind_ok _ _ _ _ _ Ee). reflexivity.
    + cbn. split; [by rewrite insert_id|]. split; [by rewrite lookup_insert_eq|done].
Qed.

Lemma mounted_reent s n md name vol i' vol' : disc_mounted s n md name vol -> mounts (io_dev i') = <[md := (d, vol')]> (mounts (io_dev (reent s))) ->
  cache_ok content last vol' -> disc_mounted (s <| reent := i' |>) n md name vol'.
Proof. intros [H1 H2 H3 H4 H5] Em Hc. split; try done. cbn. by rewrite Em, lookup_insert_eq. Qed.

Lemma op_step base s m fd n st md name vol file op : file_open base s m fd n st md name vol file -> op_ok op ->
  let '(r, l, e, p) := spec_file (file_data content file) (f_offset file) op in
  exists s' vol', run_op fd op s = Ok (r, l) s' /\ file_open base s' m fd n st md name vol' (file <| f_offset := p |>) /\ child_arrays vol' = child_arrays vol.
Proof.
  intros [R Hfd Hmd Hfile Hok] Ho. destruct (Hmd) as [Hn Hdev Hfound Hstate Hcache].
  pose proof (device_op_run name md st op (reent s) vol file Hstate Hfile Hcache Hok Ho) as H.
  destruct (spec_file (file_data content file) (f_offset file) op) as [[[r l] e] p]. destruct H as (i' & vol' & dop & Ec & Ed & Em & Ef & Hc' & Hok' & Hn').
  exists (s <| reent := i' |>), vol'. split.
  - assert (on_file (match op with Read k => ReadFd fd k | Seek pos dir => SeekFd fd pos dir end) fd) as Hon by (by destruct op).
    pose proof (on_file_run _ _ _ _ _ R Hon ltac:(split; lia)) as H. unfold file_of in H. rewrite (proj2 (Z.ltb_ge fd 3)), lookup_insert_eq in H by lia.
    destruct H as (t & Ht & E). rewrite Hdev in Ht. injection Ht as <-. destruct op; cbn [run_op]; rewrite E;
      (replace (file_call _ _ _) with (Some dop) by (symmetry; exact Ec)); by apply dev_run.
  - split; [|done]. split; [by eapply rep_same, R|done|by eapply mounted_reent|done|done].
Qed.

Lemma ops_run base m fd n st md name ops : Forall op_ok ops -> forall s vol file, file_open base s m fd n st md name vol file ->
  exists s' vol' file', run_ops fd ops s = Ok (answers (file_data content file) (f_offset file) ops) s' /\ file_open base s' m fd n st md name vol' file' /\
    child_arrays vol' = child_arrays vol.
Proof.
  induction 1 as [|op ops Ho _ IH]; intros s vol file Hf; cbn [run_ops]; [by exists s, vol, file|].
  pose proof (op_step _ _ _ _ _ _ _ _ _ _ op Hf Ho) as H. unfold answers. cbn [spec_files].
  destruct (spec_file (file_data content file) (f_offset file) op) as [[[r l] e] p] eqn:Es. destruct H as (s1 & vol1 & E & Hf1 & Hn1).
  destruct (IH s1 vol1 (file <| f_offset := p |>) Hf1) as (s2 & vol2 & file2 & E2 & Hf2 & Hn2). exists s2, vol2, file2.
  rewrite (bind_ok _ _ _ _ _ E), (bind_ok _ _ _ _ _ E2). split; [by destruct file|]. split; [done|]. congruence.
Qed.

Lemma open_iso base s m n md name vol dir fbase c : files_rep base s m -> disc_mounted s n md name vol -> no_colon name -> disc_file vol dir fbase c ->
  (exists f, 3 <= f < MAX_HANDLES + 3 /\ m !! f = None) -> is_Some (malloc (blocks s) (sizeof_handle + sizeof_FILE_STRUCT)) ->
  exists s' fd st vol', open (name ++ ch ":" :: dir ++ DIR_SEPARATOR :: fbase) 0 0 s = Ok fd s' /\ m !! fd = None /\
    child_arrays vol' = child_arrays vol + 1 /\
    file_open base s' m fd n st md name vol' (mkFile (mkDir (ch_name c) (ch_sector c) (ch_size c) (ch_flags c) None []) 0 true).
Proof.
  intros R Hmd Hnc [(parent & layout & self & others & H1 & H2 & H3 & H4 & H5) [Hne Hs] (Hdir & Hsec & Hsize & Hext)] (f & Hf & Hnone) (x & Hx).
  set (path := name ++ ch ":" :: dir ++ DIR_SEPARATOR :: fbase). pose proof (open_run _ _ _ path 0 0 R) as H. destruct (Hmd) as [Hn Hdev Hfound Hstate Hcache].
  assert (device_of s path = n) as Hd by apply Hfound. cbv zeta in H. unfold opens in H. rewrite Hd, (proj2 (Z.ltb_ge n 0)), Hdev in H by lia.
  cbn [mbind option_bind dotab_iso9660 open_r] in H. destruct H as [(_ & [Hall|(t & Ht & Hm)])|(fd & st & s1 & (Hfd & Hfree & _) & _ & (Hst0 & Hst) & R1 & Er & Hl & Hdef & E)].
  { destruct (Hall f Hf) as (? & ?). congruence. }
  { rewrite Hd, Hdev in Ht. injection Ht as <-. cbn [dotab_iso9660 structSize] in Hm. congruence. }
  set (file := mkFile (mkDir (ch_name c) (ch_sector c) (ch_size c) (ch_flags c) None []) 0 true).
  destruct (open_finds d content last Hdrive vol name dir fbase parent layout self others c fuel) as (vol' & Hc' & Hn' & Ee); try done.
  assert (ISO9660_open_r d fuel path vol = Ok (Some file, None) vol') as Eo.
  { unfold ISO9660_open_r, path. rewrite (bind_ok _ _ _ _ _ Ee). cbn [de_flags]. by rewrite Hdir. }
  assert (st + sizeof_FILE_STRUCT <= 2 ^ 32) as Hst2 by (by apply (Hst _ eq_refl)). unfold sizeof_FILE_STRUCT in Hst2.
  set (i1 := reent s1 <| io_dev ::= set mounts <[md := (d, vol')]> |> <| io_dev ::= set ifiles <[st := (file, md)]> |>).
  unfold dotab_iso9660 in E. rewrite (bind_ok _ _ s1 (s32 st) (s1 <| reent := i1 |>)) in E.
  2:{ apply dev_run. rewrite (bind_ok _ _ _ _ _ (on_mount_run md _ (reent s1) vol _ vol' ltac:(by rewrite Er) Eo)). done. }
  assert (s32 st <> -1) as Hs32.
  { destruct (Z.leb_spec (2 ^ 31) st); [rewrite (s32_congr st (st - 2 ^ 32)), s32_value|rewrite s32_value]; try lia.
    replace (st - 2 ^ 32) with (st + (-1) * 2 ^ 32) by lia. by rewrite Z.mod_add by lia. }
  rewrite (proj2 (Z.eqb_neq _ _) Hs32) in E. exists (s1 <| reent := i1 |>), fd, st, vol'. split; [exact E|]. split; [done|]. split; [done|]. split.
  - by eapply rep_same, R1.
  - done.
  - split; [done|by rewrite <- Hl in Hdev| | |done].
    + intros rest. rewrite <- (Hfound rest). unfold device_of. cbn. by rewrite Hl, Hdef.
    + cbn. by rewrite lookup_insert_eq.
  - cbn. by rewrite lookup_insert_eq.
  - unfold file_ok, file. cbn. split_and!; try done; lia.
Qed.

Lemma close_iso base s m fd n st md name vol file : file_open base s m fd n st md name vol file -> m !! fd = None ->
  exists s', run_call (Close fd) s = Ok (0, []) s' /\ files_rep base s' m /\ mounts (io_dev (reent s')) = mounts (io_dev (reent s)).
Proof.
  intros [R Hfd [_ Hdev _ _ _] Hfile (Huse & _)] Hnone. pose proof (close_run _ _ _ fd R ltac:(split; lia)) as H.
  rewrite lookup_insert_eq in H. destruct H as (t & Ht & E). rewrite Hdev in Ht. injection Ht as <-.
  set (i1 := reent s <| io_dev ::= set ifiles <[st := (file <| inUse := false |>, md)]> |>).
  assert (files_rep base (s <| reent := i1 |>) (<[fd := (n, st)]> m)) as R1 by (by eapply rep_same, R).
  destruct (release_handle_run _ _ _ fd _ R1 (lookup_insert_eq _ _ _)) as (s2 & E2 & R2 & Hre & _).
  exists s2. rewrite delete_insert_id in R2 by done. split; [|split; [done|by rewrite Hre]]. rewrite E.
  cbn [file_call dotab_iso9660 close_r mbind option_bind]. rewrite (bind_ok _ _ s (0, []) (s <| reent := i1 |>)).
  - by rewrite (bind_ok _ _ _ _ _ E2).
  - apply dev_run. rewrite bind_assoc, (bind_ok (file_at st) _ _ (file, md) (reent s)) by (unfold file_at; by rewrite Hfile).
    unfold ISO9660_close_r. rewrite Huse. cbn [negb]. done.
Qed.

(** C8: a file of a disc through the C library.  Mount a disc, with its path
    table and the directories it lists, under a name no device answers to, then
    open a path of that name: when the directories of the path, followed in the
    tree of the path table, lead to one that lists a file under the last name,
    opening, reading and seeking with the descriptor and closing it gives what
    these calls give on the bytes of the file on the disc, and [close] returns
    0.  Afterwards the descriptors are those from before.  What is left behind
    is the mount and one array of the directory's children: when no file was
    open before, the heap holds, besides what it held, the entry of the device
    table and the descriptor of the mount (the tree of the path table, which
    belongs to the mount, is not counted in it); and of the arrays of children
    that were allocated one is not freed, since [find_in_directory] has copied
    the file's entry over the only pointer to it. *)
Theorem disc_file_through_library base s m name v u l ts h dir fbase c ops : files_rep base s m -> disc_ok v u l ts -> can_mount s name h ->
  is_Some (malloc h (sizeof_handle + sizeof_FILE_STRUCT)) -> (exists f, 3 <= f < MAX_HANDLES + 3 /\ m !! f = None) ->
  disc_file (mkIso [] [] 0 0 u (tree_of (root_entry content v :: ts)) (Some 1) 0) dir fbase c -> Forall op_ok ops ->
  runs (ok <- ISO9660_Mount fuel name d true true ;;
        if ok : bool then use_file (name ++ ch ":" :: dir ++ DIR_SEPARATOR :: fbase) ops else ret None) s
    (fun r s' => r = Some (answers (bytes content (ch_sector c * SECTOR_SIZE) (ch_size c)) 0 ops, 0) /\
       (exists base', base ⊆ base' /\ files_rep base' s' m) /\ (m = ∅ -> blocks s' = h) /\
       exists mdescr vol, mounts (io_dev (reent s')) !! mdescr = Some (d, vol) /\ child_arrays vol = 1).
Proof.
  intros R Hd Hcan Hmem Hfree Hfile Hops. destruct (Hcan) as (Hnc & _).
  destruct (mount_run base s m name v u l ts h R Hd Hcan) as (base' & s1 & n & md & vol & E1 & R1 & Hsub & Hbl & Hmd & Hroot & Hu & Hn0).
  assert (disc_file vol dir fbase c) as Hf by (by eapply disc_file_same, Hfile).
  rewrite <- Hbl in Hmem. destruct (open_iso base' s1 m n md name vol dir fbase c R1 Hmd Hnc Hf Hfree Hmem) as (s2 & fd & st & vol2 & E2 & Hnone & Hn2 & Ho).
  destruct (ops_run base' m fd n st md name ops Hops s2 vol2 _ Ho) as (s3 & vol3 & file3 & E3 & Ho3 & Hn3).
  destruct (close_iso _ _ _ _ _ _ _ _ _ _ Ho3 Hnone) as (s4 & E4 & R4 & Hm4).
  exists (Some (answers (bytes content (ch_sector c * SECTOR_SIZE) (ch_size c)) 0 ops, 0)), s4. split.
  - rewrite (bind_ok _ _ _ _ _ E1). unfold use_file. rewrite (bind_ok _ _ _ _ _ E2). destruct (fo_fd _ _ _ _ _ _ _ _ _ _ Ho).
    rewrite (proj2 (Z.eqb_neq fd (-1))) by lia. by rewrite (bind_ok _ _ _ _ _ E3), (bind_ok _ _ _ _ _ E4).
  - split; [done|]. split; [by exists base'|]. split.
    + intros ->. by rewrite (rep_nothing_left _ _ R4), <- Hbl, (rep_nothing_left _ _ R1).
    + exists md, vol3. rewrite Hm4, (md_state _ _ _ _ _ (fo_mount _ _ _ _ _ _ _ _ _ _ Ho3)). split; [done|]. lia.
Qed.
End mounted.

(** ** A disc with a directory *)

Definition at_sector (l : list (Z * list Z)) (x : Z) : Z :=
  match List.find (fun p => x / SECTOR_SIZE =? p.1) l with Some (_, b) => nth (Z.to_nat (x mod SECTOR_SIZE)) b 0 | None => 0 end.
Definition docs_dir : list (list Z) := [mk_record 22 0x800 2 [0]; mk_record 20 0x800 2 [1]; mk_record 23 5 0 (str "A.TXT;1")].
Definition image : list (Z * list Z) :=
  [(16, [1] ++ str "CD001" ++ [1] ++ replicate 129 0 ++ put_be 22 ++ replicate 8 0 ++ put_be 18 ++ replicate 10 0 ++ put_be 20);
   (17, [0xff] ++ str "CD001" ++ [1]);
   (18, [1; 0] ++ put_be 20 ++ [0; 1; 0; 0] ++ [4; 0] ++ put_be 22 ++ [0; 1] ++ str "DOCS");
   (22, List.concat docs_dir); (23, str "Hello")].
Definition disc_content : Z -> Z := at_sector image.
Definition disc_sectors : disc := fun s n => if (0 <=? s) && (s <? 40) then Some (bytes disc_content (s * SECTOR_SIZE) (n * SECTOR_SIZE)) else None.
Definition disc_entry : PATHTABLE_ENTRY := entry_at disc_content (18 * SECTOR_SIZE + 10).
Definition disc_table : list PATHTABLE_ENTRY := match finish_entry false disc_entry with Some t => [t] | None => [] end.
Definition disc_vfs : vfs isod :=
  mkVfs _ (replicate 3 (console_optab None (fun _ => ret tt)) ++ replicate 13 dotab_stdnull) (replicate 1024 None) (-1) [] ∅ (mkIo _ None (mkIsod ∅ ∅ ∅)).

Lemma disc_drive : drive_ok disc_sectors disc_content 40.
Proof. split; [lia|]. intros s Hs. unfold disc_sectors. by rewrite (proj2 (Z.leb_le 0 s)), (proj2 (Z.ltb_lt s 40)) by lia. Qed.
Lemma disc_single s : 0 <= s < 40 -> disc_sectors s 1 = Some (bytes disc_content (s * SECTOR_SIZE) SECTOR_SIZE).
Proof. intros Hs. unfold disc_sectors. by rewrite (proj2 (Z.leb_le 0 s)), (proj2 (Z.ltb_lt s 40)) by lia. Qed.

Lemma disc_image_ok : disc_ok disc_content 40 16 false [disc_entry] disc_table.
Proof.
  split; [lia|]. split; [vm_compute; reflexivity|]. split; [vm_compute; discriminate|].
  assert (word disc_content (16 * SECTOR_SIZE + 148) = 18) as -> by (vm_compute; reflexivity).
  assert (word disc_content (16 * SECTOR_SIZE + 136) = 22) as -> by (vm_compute; reflexivity). split.
  { apply entries_more; [lia|vm_compute; discriminate|]. apply entries_end. vm_compute. discriminate. }
  split; [repeat constructor; vm_compute; discriminate|]. split; [constructor; [vm_compute; reflexivity|constructor]|]. split; [|cbn; lia].
  intros i Hi. assert (i = 2%nat) as -> by (vm_compute in Hi; lia). vm_compute. split; [discriminate|reflexivity].
Qed.

Definition disc_root : PATH_ENTRY := tree_of (root_entry disc_content 16 :: disc_table).
Definition disc_vol : iso := mkIso [] [] 0 0 false disc_root (Some 1) 0.
Definition docs_parent : PATH_ENTRY := PathEntry 2 (entry (root_entry disc_content 16 :: disc_table) 2) [].

Lemma docs_ok : dir_ok disc_content 40 disc_vol 22 [docs_dir] (mk_record 22 0x800 2 [0]) (tl docs_dir).
Proof.
  split.
  - unfold SECTOR_SIZE. cbn [List.length]. lia.
  - reflexivity.
  - split; reflexivity.
  - repeat constructor; by eexists.
  - intros [|k] recs Hk; [|done]. injection Hk as <-. split; [done|]. split.
    + repeat constructor; vm_compute; discriminate.
    + exists (2048 - List.length (List.concat docs_dir))%nat. vm_compute. reflexivity.
Qed.

Lemma docs_file : disc_file 10 disc_content 40 disc_vol (str "/docs") (str "a.txt") (mkChild (str "A.TXT") 23 5 0).
Proof.
  split.
  - exists docs_parent, [docs_dir], (mk_record 22 0x800 2 [0]), (tl docs_dir). split; [vm_compute; reflexivity|]. split; [reflexivity|].
    split; [exact docs_ok|]. split; [vm_compute; reflexivity|]. cbn. lia.
  - split; [discriminate|]. repeat constructor; discriminate.
  - split; [reflexivity|]. cbn. split_and!; try lia. vm_compute. discriminate.
Qed.

Lemma disc_can_mount : exists h, can_mount disc_vfs (str "dvd") h /\ is_Some (malloc h (sizeof_handle + sizeof_FILE_STRUCT)).
Proof.
  destruct (mount_blocks (blocks disc_vfs) (str "dvd")) as [h|] eqn:E; [|vm_compute in E; discriminate]. exists h. split.
  - split; [repeat constructor; discriminate|]. split; [cbn; lia|]. split; [repeat constructor; discriminate|]. split; [reflexivity|]. split; [vm_compute; discriminate|exact E].
  - vm_compute in E. injection E as <-. vm_compute. by eexists.
Qed.

Lemma disc_file_through_library_demo : exists s',
  (ok <- ISO9660_Mount 10 (str "dvd") disc_sectors true true ;;
   if ok : bool then use_file (str "dvd:/docs/a.txt") [Read 2; Seek (-1) SEEK_END; Read 9] else ret None) disc_vfs =
  Ok (Some ([(2, str "He"); (4, []); (1, str "o")], 0)) s'.
Proof.
  destruct disc_can_mount as (h & Hcan & Hmem).
  destruct (disc_file_through_library 10 disc_sectors disc_content 40 disc_drive disc_single ∅ disc_vfs ∅ (str "dvd") 16 false [disc_entry] disc_table h
    (str "/docs") (str "a.txt") (mkChild (str "A.TXT") 23 5 0) [Read 2; Seek (-1) SEEK_END; Read 9]) as (r & s' & E & -> & _).
  - by apply (start_rep disc_vfs).
  - exact disc_image_ok.
  - exact Hcan.
  - exact Hmem.
  - exists 3. unfold MAX_HANDLES. split; [lia|done].
  - exact docs_file.
  - repeat constructor; vm_compute; discriminate.
  - exists s'. exact E.
Defined.
