(* ===== verification/NewlibDirFacts.v ===== *)
(** * Directory streams are lists with a position *)
From S2P Require Import Prelude Bits GdbHex Iso IsoFacts Newlib NewlibFacts NewlibDir NewlibIso.
From Stdlib Require Import Ascii String.
Open Scope Z_scope.
Open Scope list_scope.
Open Scope xenon_scope.

(** ** What a device promises

    [lists st entries stands]: the directory at [st] lists [entries], and
    [stands i k] says that it is at entry [k].  A device that cannot be asked
    without a structure for the entry's data is not [seekable]. *)
Class DirDevice {D : Type} (t : devoptab_t D) := {
  lists : Z -> list (list Z * stat_t) -> (io D -> nat -> Prop) -> Prop;
  seekable : Prop;
  next_entry : forall st es stands i k e b, lists st es stands -> stands i k -> es !! k = Some e -> (b = false -> seekable) ->
    exists op r y i', dirnext_r t = Some op /\ op st b i = Ok (r, e.1, y) i' /\ 0 <= r /\ (b = true -> y = Some e.2) /\ stands i' (S k);
  next_end : forall st es stands i b, lists st es stands -> stands i (List.length es) -> (b = false -> seekable) ->
    exists op r x y i', dirnext_r t = Some op /\ op st b i = Ok (r, x, y) i' /\ r < 0 /\ io_errno i' = Some ENOENT /\ stands i' (List.length es);
  reset_entry : forall st es stands i k, lists st es stands -> stands i k -> exists op r i', dirreset_r t = Some op /\ op st i = Ok r i' /\ stands i' 0%nat;
  stands_errno : forall st es stands i k e, lists st es stands -> stands i k -> stands (i <| io_errno := e |>) k
}.

Inductive dir_op := ReadDir | RewindDir | SeekDir (loc : Z) | TellDir.
Inductive dir_answer := Entry (e : option dirent) | Position (p : Z) | Done.

Section streams.
Context {D : Type} (t : devoptab_t D) `{HD : !DirDevice t}.
Implicit Types s : vfs D.

(** *** Specification *)

Definition dirent_of (e : list Z * stat_t) : option dirent :=
  if NAME_MAX + 1 <=? Z.of_nat (List.length e.1) then None
  else Some (mkDirent (st_ino e.2) (if st_isdir e.2 then DT_DIR else DT_REG) e.1 (st_atime e.2) (st_mtime e.2) (st_ctime e.2)).

Definition spec_dir (es : list (list Z * stat_t)) (k : nat) (op : dir_op) : dir_answer * nat :=
  match op with
  | ReadDir => match es !! k with Some e => (Entry (dirent_of e), S k) | None => (Entry None, k) end
  | RewindDir => (Done, 0%nat)
  | SeekDir loc => (Done, if loc <? 0 then k else Nat.min (Z.to_nat loc) (List.length es))
  | TellDir => (Position (Z.of_nat k), k)
  end.
Fixpoint spec_dirs (es : list (list Z * stat_t)) (k : nat) (ops : list dir_op) : list dir_answer :=
  match ops with
  | [] => []
  | op :: ops' => let '(a, k') := spec_dir es k op in a :: spec_dirs es k' ops'
  end.

(** *** The library *)

Definition run_dir (op : dir_op) (p : option DIR) : M (vfs D) (dir_answer * option DIR) :=
  match op with
  | ReadDir => let* (e, p) := readdir p in ret (Entry e, p)
  | RewindDir => p <- rewinddir p ;; ret (Done, p)
  | SeekDir loc => p <- seekdir p loc ;; ret (Done, p)
  | TellDir => ret (Position (telldir p), p)
  end.
Fixpoint run_dirs (ops : list dir_op) (p : option DIR) : M (vfs D) (list dir_answer) :=
  match ops with
  | [] => ret []
  | op :: ops' => let* (a, p) := run_dir op p in l <- run_dirs ops' p ;; ret (a :: l)
  end.

(** An open stream at entry [k]. *)
Record stream s (es : list (list Z * stat_t)) (stands : io D -> nat -> Prop) (p : DIR) (k : nat) : Prop := mkStream {
  sr_device : optab (di_device (dirData p)) s = Ok t s;
  sr_lists : lists (dirStruct (dirData p)) es stands;
  sr_stands : stands (reent s) k;
  sr_position : position p = Z.of_nat k;
  sr_range : (k <= List.length es)%nat
}.

Lemma optab_reent d s i : optab d s = Ok t s -> optab d (s <| reent := i |>) = Ok t (s <| reent := i |>).
Proof. unfold optab. cbn. destruct (_ && _); [|done]. destruct (devoptab_list s !! _); [|done]. by intros [= ->]. Qed.

Lemma stream_move s es stands p k i k' p' : stream s es stands p k -> stands i k' -> (k' <= List.length es)%nat -> position p' = Z.of_nat k' ->
  dirData p' = dirData p -> stream (s <| reent := i |>) es stands p' k'.
Proof. intros [H1 H2 H3 H4 H5] Hi Hk Hp Hd. split; try done; rewrite ?Hd; [by apply optab_reent|done]. Qed.

Lemma dirnext_run s es stands p k e b : stream s es stands p k -> es !! k = Some e -> (b = false -> seekable (t := t)) ->
  exists r y i', dirnext (dirData p) b s = Ok (r, e.1, y) (s <| reent := i' |>) /\ 0 <= r /\ (b = true -> y = Some e.2) /\ stands i' (S k).
Proof.
  intros [H1 H2 H3 _ _] He Hb. destruct (next_entry _ _ _ _ _ _ b H2 H3 He Hb) as (op & r & y & i' & Ho & E & Hr & Hy & Hs).
  exists r, y, i'. split; [|done]. unfold dirnext. rewrite (bind_ok _ _ _ _ _ H1), Ho. unfold dev. by rewrite E.
Qed.

Lemma dirnext_end s es stands p b : stream s es stands p (List.length es) -> (b = false -> seekable (t := t)) ->
  exists r x y i', dirnext (dirData p) b s = Ok (r, x, y) (s <| reent := i' |>) /\ r < 0 /\ io_errno i' = Some ENOENT /\ stands i' (List.length es).
Proof.
  intros [H1 H2 H3 _ _] Hb. destruct (next_end _ _ _ _ b H2 H3 Hb) as (op & r & x & y & i' & Ho & E & Hr & He & Hs).
  exists r, x, y, i'. split; [|done]. unfold dirnext. rewrite (bind_ok _ _ _ _ _ H1), Ho. unfold dev. by rewrite E.
Qed.

Lemma dirreset_run s es stands p k : stream s es stands p k -> exists r i', dirreset (dirData p) s = Ok r (s <| reent := i' |>) /\ stands i' 0%nat.
Proof.
  intros [H1 H2 H3 _ _]. destruct (reset_entry _ _ _ _ _ H2 H3) as (op & r & i' & Ho & E & Hs). exists r, i'. split; [|done].
  unfold dirreset. rewrite (bind_ok _ _ _ _ _ H1), Ho. unfold dev. by rewrite E.
Qed.

Lemma seek_loop es stands n : forall s p k, stream s es stands p k -> seekable (t := t) ->
  exists s' p', seekdir_loop n p s = Ok p' s' /\ stream s' es stands p' (Nat.min (k + n) (List.length es)).
Proof.
  induction n as [|n IH]; intros s p k Hs Hk; cbn [seekdir_loop].
  { exists s, p. split; [done|]. destruct (Hs). rewrite Nat.add_0_r, Nat.min_l by done. done. }
  destruct (es !! k) as [e|] eqn:Ek.
  - destruct (dirnext_run _ _ _ _ _ _ false Hs Ek (fun _ => Hk)) as (r & y & i' & E & Hr & _ & Hst). rewrite (bind_ok _ _ _ _ _ E).
    rewrite (proj2 (Z.ltb_ge r 0)) by done. pose proof (lookup_lt_Some _ _ _ Ek) as Hlt.
    destruct (IH (s <| reent := i' |>) (p <| position ::= fun n => n + 1 |>) (S k)) as (s' & p' & E' & Hs'); [|done|].
    { eapply stream_move; [exact Hs|done|lia| |done]. cbn. rewrite (sr_position _ _ _ _ _ Hs). lia. }
    exists s', p'. split; [exact E'|]. by replace (k + S n)%nat with (S k + n)%nat by lia.
  - apply lookup_ge_None in Ek. pose proof (sr_range _ _ _ _ _ Hs) as Hr. assert (k = List.length es) as -> by lia.
    destruct (dirnext_end _ _ _ _ false Hs (fun _ => Hk)) as (r & x & y & i' & E & Hr' & _ & Hst). rewrite (bind_ok _ _ _ _ _ E).
    rewrite (proj2 (Z.ltb_lt r 0)) by done. exists (s <| reent := i' |>), p. split; [done|]. rewrite Nat.min_r by lia.
    eapply stream_move; [exact Hs|done|lia|apply (sr_position _ _ _ _ _ Hs)|done].
Qed.

Definition dir_op_ok (op : dir_op) : Prop := match op with SeekDir _ => seekable (t := t) | _ => True end.

Lemma readdir_run s es stands p k : stream s es stands p k ->
  exists s' p', readdir (Some p) s = Ok (match es !! k with Some e => dirent_of e | None => None end, Some p') s' /\
    stream s' es stands p' (match es !! k with Some _ => S k | None => k end) /\ (es !! k = None -> io_errno (reent s') = io_errno (reent s)).
Proof.
  intros Hs. unfold readdir. rewrite (bind_ok (gets _) _ s (io_errno (reent s)) s) by done. destruct (es !! k) as [e|] eqn:Ek.
  - destruct (dirnext_run _ _ _ _ _ _ true Hs Ek ltac:(done)) as (r & y & i' & E & Hr & Hy & Hst). rewrite (bind_ok _ _ _ _ _ E), (proj2 (Z.ltb_ge r 0)) by done.
    rewrite Hy by done. cbv zeta. unfold dirent_of. pose proof (lookup_lt_Some _ _ _ Ek) as Hlt.
    assert (position p + 1 = Z.of_nat (S k)) as Hpos by (rewrite (sr_position _ _ _ _ _ Hs); lia).
    destruct (NAME_MAX + 1 <=? Z.of_nat (List.length e.1)).
    + eexists _, _. split; [reflexivity|]. split; [|done].
      assert (stream (s <| reent := i' <| io_errno := Some EOVERFLOW |> |>) es stands (p <| position ::= fun n => n + 1 |>) (S k)) as H.
      { eapply stream_move; [exact Hs| |lia|done|done]. eapply stands_errno; [apply (sr_lists _ _ _ _ _ Hs)|done]. }
      exact H.
    + eexists _, _. split; [reflexivity|]. split; [|done]. eapply stream_move; [exact Hs|done|lia|done|done].
  - apply lookup_ge_None in Ek. pose proof (sr_range _ _ _ _ _ Hs). assert (k = List.length es) as -> by lia.
    destruct (dirnext_end _ _ _ _ true Hs ltac:(done)) as (r & x & y & i' & E & Hr & He & Hst). rewrite (bind_ok _ _ _ _ _ E), (proj2 (Z.ltb_lt r 0)) by done.
    exists (s <| reent := i' <| io_errno := io_errno (reent s) |> |>), p. split.
    { rewrite (bind_ok (gets _) _ (s <| reent := i' |>) (Some ENOENT) (s <| reent := i' |>)) by (unfold gets; cbn; by rewrite He). done. }
    split; [|done]. eapply stream_move; [exact Hs| |lia|apply (sr_position _ _ _ _ _ Hs)|done].
    eapply stands_errno; [apply (sr_lists _ _ _ _ _ Hs)|done].
Qed.

Lemma dir_step s es stands p k op : stream s es stands p k -> dir_op_ok op ->
  exists s' p', run_dir op (Some p) s = Ok ((spec_dir es k op).1, Some p') s' /\ stream s' es stands p' (spec_dir es k op).2.
Proof.
  intros Hs Ho. destruct op as [| |loc|]; cbn [run_dir spec_dir fst snd].
  - destruct (readdir_run _ _ _ _ _ Hs) as (s' & p' & E & Hs' & _). exists s', p'. rewrite (bind_ok _ _ _ _ _ E). by destruct (es !! k).
  - destruct (dirreset_run _ _ _ _ _ Hs) as (r & i' & E & Hst). exists (s <| reent := i' |>), (p <| position := 0 |>). split.
    + unfold rewinddir. by rewrite bind_assoc, (bind_ok _ _ _ _ _ E).
    + eapply stream_move; [exact Hs|done|lia|done|done].
  - unfold seekdir. destruct (Z.ltb_spec loc 0); [by exists s, p|]. cbn in Ho.
    assert (exists s1 p1 k1, (if loc <? position p then dirreset (dirData p) ;; ret (p <| position := 0 |>) else ret p) s = Ok p1 s1 /\
      stream s1 es stands p1 k1 /\ (k1 <= Z.to_nat loc)%nat) as (s1 & p1 & k1 & E1 & Hs1 & Hk1).
    { pose proof (sr_position _ _ _ _ _ Hs). destruct (Z.ltb_spec loc (position p)); [|exists s, p, k; split; [done|]; split; [done|lia]].
      destruct (dirreset_run _ _ _ _ _ Hs) as (r & i' & E & Hst). exists (s <| reent := i' |>), (p <| position := 0 |>), 0%nat.
      rewrite (bind_ok _ _ _ _ _ E). split; [done|]. split; [|lia]. eapply stream_move; [exact Hs|done|lia|done|done]. }
    rewrite bind_assoc, (bind_ok _ _ _ _ _ E1).
    destruct (seek_loop es stands (Z.to_nat (loc - position p1)) s1 p1 k1 Hs1 Ho) as (s2 & p2 & E2 & Hs2).
    exists s2, p2. rewrite bind_assoc, (bind_ok _ _ _ _ _ E2). split; [done|]. rewrite (sr_position _ _ _ _ _ Hs1) in Hs2.
    by replace (k1 + Z.to_nat (loc - Z.of_nat k1))%nat with (Z.to_nat loc) in Hs2 by lia.
  - exists s, p. split; [|done]. cbn. by rewrite (sr_position _ _ _ _ _ Hs).
Qed.

(** C18: a directory stream is the list of the entries with a position.  On a
    device that lists a directory's entries, any sequence of reading, rewinding
    and asking for the position gives what it gives on the list:
    the entries in order with their data, nothing at the end or for a name that
    is too long, positions counted in entries and cut at the end.  Every
    sequence comes to an end.  Going to a position is the same where the device
    can be asked for an entry without its data ([seekable]).  A disc cannot:
    [seekdir] passes no place for the data, and [iso9660.c] writes them all the
    same ([iso_seek_faults]). *)
Theorem streams_are_lists s es stands p k ops : stream s es stands p k -> (forall loc, SeekDir loc ∈ ops -> seekable (t := t)) ->
  runs (run_dirs ops (Some p)) s (fun l _ => l = spec_dirs es k ops).
Proof.
  intros Hs Hseek. assert (Forall dir_op_ok ops) as Hops by (apply Forall_forall; intros [| |loc|] Hin; [done|done|by eapply Hseek|done]).
  clear Hseek. revert s p k Hs. induction Hops as [|op ops Ho _ IH]; intros s p k Hs; cbn [run_dirs spec_dirs]; [by exists [], s|].
  destruct (dir_step _ _ _ _ _ op Hs Ho) as (s1 & p1 & E1 & Hs1). destruct (spec_dir es k op) as [a k1].
  destruct (IH _ _ _ Hs1) as (l & s2 & E2 & ->). exists (a :: spec_dirs es k1 ops), s2.
  by rewrite (bind_ok _ _ _ _ _ E1), (bind_ok _ _ _ _ _ E2).
Qed.
End streams.

(** ** Devices that keep the promise *)

(** A mounted disc; it writes the data of an entry without looking whether
    there is a place for them. *)
Definition child_entry (c : DIR_CHILD) : list Z * stat_t :=
  (take (Z.to_nat (ISO_MAXPATHLEN - 1)) (ch_name c), stat_of (stat_entry (ch_sector c) (ch_flags c) (ch_size c))).

Definition iso_stands (st : Z) (children : list DIR_CHILD) (i : io isod) (k : nat) : Prop :=
  exists x, idirs (io_dev i) !! st = Some x /\ d_inUse x = true /\ de_children (d_entry x) = children /\ d_index x = Z.of_nat k.

Lemma dir_at_run i st x : idirs (io_dev i) !! st = Some x -> dir_at st i = Ok x i.
Proof. intros H. unfold dir_at. by rewrite H. Qed.

#[global] Program Instance iso_dir_device fuel name md : DirDevice (dotab_iso9660 fuel name md) := {
  lists st es stands := exists children, es = child_entry <$> children /\ stands = iso_stands st children;
  seekable := False
}.
Next Obligation.
  intros fuel name md st es stands i k e b (children & -> & ->) (x & Hx & Hu & Hc & Hi) He Hb. destruct b; [|by destruct Hb].
  apply list_lookup_fmap_Some in He as (c & -> & He). eexists _, 0, (Some (child_entry c).2), _. split; [done|]. split.
  { rewrite (bind_ok _ _ _ _ _ (dir_at_run _ _ _ Hx)). unfold ISO9660_dirnext_r. rewrite Hu. cbn [negb]. rewrite Hc, Hi, Nat2Z.id, He. reflexivity. }
  split; [done|]. split; [done|]. eexists. cbn. rewrite lookup_insert_eq. split; [done|]. cbn. split; [done|]. split; [done|]. rewrite Hi. lia.
Qed.
Next Obligation.
  intros fuel name md st es stands i b (children & -> & ->) (x & Hx & Hu & Hc & Hi) Hb. rewrite length_fmap in *.
  eexists _, (-1), [], None, _. split; [done|]. split.
  { rewrite (bind_ok _ _ _ _ _ (dir_at_run _ _ _ Hx)). unfold ISO9660_dirnext_r. rewrite Hu. cbn [negb].
    rewrite Hc, Hi, Nat2Z.id, (proj2 (lookup_ge_None children _)) by lia. reflexivity. }
  split; [lia|]. split; [done|]. eexists. cbn. by rewrite lookup_insert_eq.
Qed.
Next Obligation.
  intros fuel name md st es stands i k (children & -> & ->) (x & Hx & Hu & Hc & Hi). eexists _, 0, _. split; [done|]. split.
  { rewrite (bind_ok _ _ _ _ _ (dir_at_run _ _ _ Hx)). unfold ISO9660_dirreset_r. rewrite Hu. reflexivity. }
  eexists. cbn. rewrite lookup_insert_eq. split; [done|]. done.
Qed.
Next Obligation. intros fuel name md st es stands i k e (children & -> & ->) H. exact H. Qed.

(** Going forward in a directory of a disc writes through the null pointer. *)
Lemma iso_seek_faults fuel name md s es stands p k loc : stream (dotab_iso9660 fuel name md) s es stands p k ->
  (k < List.length es)%nat -> Z.of_nat k < loc -> seekdir (Some p) loc s = Fault.
Proof.
  intros [Hdev (children & -> & ->) (x & Hx & Hu & Hc & Hi) Hp _] Hk Hloc. unfold seekdir.
  rewrite (proj2 (Z.ltb_ge loc 0)), (proj2 (Z.ltb_ge loc (position p))) by lia. rewrite (bind_ok (ret p) _ s p s) by done.
  rewrite Hp. destruct (Z.to_nat (loc - Z.of_nat k)) as [|n] eqn:En; [lia|]. cbn [seekdir_loop]. rewrite length_fmap in Hk.
  destruct (lookup_lt_is_Some_2 children k Hk) as [c Hch]. unfold bind at 1 2. unfold dirnext. rewrite (bind_ok _ _ _ _ _ Hdev).
  cbn [dotab_iso9660 dirnext_r]. unfold dev. rewrite (bind_ok _ _ _ _ _ (dir_at_run _ _ _ Hx)). unfold ISO9660_dirnext_r.
  rewrite Hu. cbn [negb]. by rewrite Hc, Hi, Nat2Z.id, Hch.
Qed.

(** A device with one directory that keeps its place. *)
Section list_device.
Variable es0 : list (list Z * stat_t).
Definition list_dev : devoptab_t nat :=
  mkDev nat (str "list") 0 None None None None None None None None None None None None 4
    (Some (fun _ _ => modify (fun i => i <| io_dev := 0%nat |>) ;; ret true))
    (Some (fun _ => modify (fun i => i <| io_dev := 0%nat |>) ;; ret 0))
    (Some (fun _ _ =>
       k <- gets io_dev ;;
       match es0 !! k with
       | None => modify (fun i => i <| io_errno := Some ENOENT |>) ;; ret (-1, [], None)
       | Some e => modify (fun i => i <| io_dev := S k |>) ;; ret (0, e.1, Some e.2)
       end))
    (Some (fun _ => ret 0)) None None None None None.

#[global] Program Instance list_dir_device : DirDevice list_dev := {
  lists st es stands := es = es0 /\ stands = (fun i k => io_dev i = k);
  seekable := True
}.
Next Obligation.
  intros st es stands i k e b (-> & ->) <- He _. eexists _, 0, (Some e.2), _. split; [done|]. split.
  { rewrite (bind_ok (gets io_dev) _ i (io_dev i) i) by done. rewrite He. reflexivity. }
  split; [lia|]. by split.
Qed.
Next Obligation.
  intros st es stands i b (-> & ->) Hk _. eexists _, (-1), [], None, _. split; [done|]. split.
  { rewrite (bind_ok (gets io_dev) _ i (io_dev i) i) by done. rewrite Hk, (proj2 (lookup_ge_None es0 _)) by lia. reflexivity. }
  done.
Qed.
Next Obligation. intros st es stands i k (-> & ->) _. by eexists _, 0, _. Qed.
Next Obligation. intros st es stands i k e (-> & ->) H. exact H. Qed.
End list_device.

Definition demo_entries : list (list Z * stat_t) :=
  [(str "a", mkStat 7 true true true true 0 0 0 0); (str "b.txt", mkStat 8 false true true true 5 0 0 0)].
Definition demo_stream : DIR := mkDIR 100 0 (mkIter 200 3 208) (mkDirent (-1) 0 [] 0 0 0).
Definition demo_vfs : vfs nat :=
  mkVfs nat (replicate 3 dotab_stdnull ++ list_dev demo_entries :: replicate 12 dotab_stdnull) [] (-1) [] ∅ (mkIo nat None 0%nat).

Lemma streams_are_lists_demo : exists s',
  run_dirs [ReadDir; TellDir; ReadDir; ReadDir; SeekDir 1; ReadDir; SeekDir 9; TellDir; RewindDir; TellDir] (Some demo_stream) demo_vfs =
  Ok [Entry (Some (mkDirent 7 4 (str "a") 0 0 0)); Position 1; Entry (Some (mkDirent 8 8 (str "b.txt") 0 0 0)); Entry None;
      Done; Entry (Some (mkDirent 8 8 (str "b.txt") 0 0 0)); Done; Position 2; Done; Position 0] s'.
Proof.
  destruct (streams_are_lists (list_dev demo_entries) demo_vfs demo_entries (fun i k => io_dev i = k) demo_stream 0
    [ReadDir; TellDir; ReadDir; ReadDir; SeekDir 1; ReadDir; SeekDir 9; TellDir; RewindDir; TellDir]) as (l & s' & E & ->).
  - split; [reflexivity|by split|reflexivity|reflexivity|cbn; lia].
  - intros loc _. exact I.
  - exists s'. exact E.
Defined.
