(* ===== verification/Syscalls.v ===== *)
(** * System calls under the C library [drivers/newlib/xenon_syscalls.c]

    The clock, the heap's end, and the lock of [malloc], which a thread may take
    again.  The lock is code that several threads run at once: every access
    to a shared variable is a step of its own, and the threads' steps come in
    any order. *)
From S2P Require Import Prelude Bits Sfcx Smc.

(** ** Time *)

Definition RTC_BASE : Z := 1005782400.

Section clock.
Context {D : Type} {IO : Mmio D} (fuel : nat).

(** Seconds and microseconds.  The counter of milliseconds is in bytes 1 to 5 of
    the answer, the lowest first. *)
Definition clock_value (msg : list Z) : Z :=
  byte_at msg 1 + 2 ^ 8 * byte_at msg 2 + 2 ^ 16 * byte_at msg 3 + 2 ^ 24 * byte_at msg 4 + 2 ^ 32 * byte_at msg 5.
Definition xenon_gettimeofday : M (smc_st D) (Z * Z) :=
  msg <- exchange fuel (message [0x04]) ;;
  let t := clock_value msg in
  ret (s32 (u64 (t / 1000 + RTC_BASE)), s32 (u64 (t mod 1000 * 1000))).
End clock.

(** ** The end of the heap *)

(** [heap_ptr], 0 until the first call; [heap_begin] is where the program ends. *)
Definition xenon_sbrk (heap_begin incr : Z) : M Z Z :=
  h <- get ;;
  let h := if h =? 0 then heap_begin else h in
  put (u32 (h + incr)) ;;
  ret h.

(** ** The lock of [malloc] *)

(** Where a thread is: outside; in [xenon_malloc_lock], first reading who has
    the lock, then taking it (A) or counting once more (B); in
    [xenon_malloc_unlock] (U). *)
Inductive place :=
  | Out
  | A1 | A2 | A3 (llc llo : Z) | A4 | A5 | A6 | A7 | A8
  | B5 | B6 | B8
  | U1 | U2 | U3 (llc llo : Z) | U4 | U5.
#[global] Instance place_eq_dec : EqDecision place.
Proof. solve_decision. Defined.

(** A thread, with the number of times it has locked and not unlocked. *)
Record locker := mkLocker { at_place : place; depth : nat }.

(** The spin locks are held by a thread or free. *)
Record mlock := mkMlock {
  safety_spinlock : option nat;
  malloc_spinlock : option nat;
  lockcount : Z;
  lockowner : Z;
  lockers : nat -> locker
}.
#[global] Instance eta_mlock : Eta mlock := fun r =>
  mkMlock (safety_spinlock r) (malloc_spinlock r) (lockcount r) (lockowner r) (lockers r).

Definition NOBODY : Z := u32 (-1).
Definition mlock_init : mlock := mkMlock None None 0 NOBODY (fun _ => mkLocker Out 0).

Definition goto (t : nat) (p : place) (n : nat) : M mlock unit :=
  modify (fun s => s <| lockers ::= fun f u => if decide (u = t) then mkLocker p n else f u |>).
Definition lock_safety (t : nat) : M mlock unit := fun s =>
  match safety_spinlock s with None => Ok tt (s <| safety_spinlock := Some t |>) | Some _ => Blocked end.
Definition unlock_safety : M mlock unit := modify (fun s => s <| safety_spinlock := None |>).
Definition lock_malloc (t : nat) : M mlock unit := fun s =>
  match malloc_spinlock s with None => Ok tt (s <| malloc_spinlock := Some t |>) | Some _ => Blocked end.
Definition unlock_malloc : M mlock unit := modify (fun s => s <| malloc_spinlock := None |>).
Definition assert_ (b : bool) : M mlock unit := if b then ret tt else fault.

(** What the program of thread [t] calls when it is outside. *)
Inductive request := CallLock | CallUnlock.

(** One step of thread [t]; [r] says what it calls next when it is outside. *)
Definition mlock_step (r : request) (t : nat) : M mlock unit :=
  s <- get ;;
  let n := depth (lockers s t) in
  match at_place (lockers s t) with
  | Out => match r with CallLock => goto t A1 n | CallUnlock => goto t U1 n end
  (* xenon_malloc_lock *)
  | A1 => lock_safety t ;; goto t A2 n
  | A2 => assert_ (0 <=? lockcount s) ;; goto t (A3 (lockcount s) (lockowner s)) n
  | A3 llc llo => unlock_safety ;; goto t (if (llc =? 0) || negb (llo =? Z.of_nat t) then A4 else B5) n
  | A4 => lock_malloc t ;; goto t A5 n
  | A5 => lock_safety t ;; goto t A6 n
  | A6 => modify (fun s => s <| lockcount ::= fun c => c + 1 |>) ;; goto t A7 n
  | A7 => modify (fun s => s <| lockowner := Z.of_nat t |>) ;; goto t A8 n
  | A8 => unlock_safety ;; goto t Out (S n)
  | B5 => lock_safety t ;; goto t B6 n
  | B6 => modify (fun s => s <| lockcount ::= fun c => c + 1 |>) ;; goto t B8 n
  | B8 => unlock_safety ;; goto t Out (S n)
  (* xenon_malloc_unlock *)
  | U1 => lock_safety t ;; goto t U2 n
  | U2 => modify (fun s => s <| lockcount ::= fun c => c - 1 |>) ;; goto t (U3 (lockcount s) (lockowner s)) n
  | U3 llc llo =>
      assert_ (0 <? llc) ;; assert_ (llo =? Z.of_nat t) ;;
      if llc =? 1 then unlock_malloc ;; goto t U4 n else goto t U5 n
  | U4 => modify (fun s => s <| lockowner := NOBODY |>) ;; goto t U5 n
  | U5 => unlock_safety ;; goto t Out (n - 1)
  end.

(** Threads have numbers that fit the owner's word, and only unlock what they
    have locked. *)
Definition may_step (s : mlock) (r : request) (t : nat) : Prop :=
  Z.of_nat t < NOBODY /\ (at_place (lockers s t) = Out -> r = CallUnlock -> (0 < depth (lockers s t))%nat).

Inductive reachable : mlock -> Prop :=
  | reach_init : reachable mlock_init
  | reach_step s s' r t : reachable s -> may_step s r t -> mlock_step r t s = Ok tt s' -> reachable s'.
