(* ===== verification/SyscallsFacts.v ===== *)
(** * The lock of [malloc] excludes, and the clock tells the time *)
From S2P Require Import Prelude Bits Sfcx Smc SmcFacts Syscalls.

(** ** An invariant of the lock *)

(** A thread holds the safety lock; it holds the lock of the heap; the owner
    word names it; what it has added to the count. *)
Definition in_safety (x : locker) : bool :=
  match at_place x with A2 | A3 _ _ | A6 | A7 | A8 | B6 | B8 | U2 | U3 _ _ | U4 | U5 => true | _ => false end.
Definition in_region (x : locker) : bool :=
  match at_place x with
  | A5 | A6 | A7 | A8 => true
  | U4 => false
  | U5 => Nat.ltb 1 (depth x)
  | _ => Nat.ltb 0 (depth x)
  end.
Definition owns (x : locker) : bool :=
  match at_place x with A8 | U4 => true | U5 => Nat.ltb 1 (depth x) | _ => Nat.ltb 0 (depth x) end.
Definition held (x : locker) : Z :=
  match at_place x with
  | A7 | A8 | B8 => Z.of_nat (depth x) + 1
  | U3 _ _ | U4 | U5 => Z.of_nat (depth x) - 1
  | _ => Z.of_nat (depth x)
  end.

(** What a thread has read, and how deep it is. *)
Definition locker_ok (t : nat) (x : locker) : Prop :=
  match at_place x with
  | Out | A1 | A2 => True
  | A3 llc llo => if Nat.eqb (depth x) 0 then llo <> Z.of_nat t else llc = Z.of_nat (depth x) /\ llo = Z.of_nat t
  | A4 | A5 | A6 | A7 | A8 => depth x = 0%nat
  | B5 | B6 | B8 | U1 | U2 | U5 => (0 < depth x)%nat
  | U3 llc llo => (0 < depth x)%nat /\ llc = Z.of_nat (depth x) /\ llo = Z.of_nat t
  | U4 => depth x = 1%nat
  end.

Record lock_inv (s : mlock) : Prop := mkInv {
  inv_safety : forall t, in_safety (lockers s t) = true <-> safety_spinlock s = Some t;
  inv_region : forall t, in_region (lockers s t) = true <-> malloc_spinlock s = Some t;
  inv_count : lockcount s = match malloc_spinlock s with Some t => held (lockers s t) | None => 0 end;
  inv_owner : forall t, owns (lockers s t) = true <-> lockowner s = Z.of_nat t /\ Z.of_nat t < NOBODY;
  inv_ok : forall t, locker_ok t (lockers s t)
}.

Lemma owns_holds x : owns x = true -> in_region x = true \/ (at_place x = U4 /\ in_safety x = true).
Proof. unfold owns, in_region, in_safety. destruct (at_place x); auto. Qed.

Definition moved (s : mlock) (t : nat) (x : locker) : nat -> locker := fun u => if decide (u = t) then x else lockers s u.

(** Thread [t] moves on; the others see the same of the locks and the owner. *)
Lemma inv_frame s s' t x : lock_inv s -> lockers s' = moved s t x ->
  (in_safety x = true <-> safety_spinlock s' = Some t) -> (forall u, u <> t -> safety_spinlock s' = Some u <-> safety_spinlock s = Some u) ->
  (in_region x = true <-> malloc_spinlock s' = Some t) -> (forall u, u <> t -> malloc_spinlock s' = Some u <-> malloc_spinlock s = Some u) ->
  (forall u, malloc_spinlock s' = Some u -> lockcount s' = held (moved s t x u)) -> (malloc_spinlock s' = None -> lockcount s' = 0) ->
  (owns x = true <-> lockowner s' = Z.of_nat t /\ Z.of_nat t < NOBODY) ->
  (forall u, u <> t -> (lockowner s' = Z.of_nat u /\ Z.of_nat u < NOBODY) <-> (lockowner s = Z.of_nat u /\ Z.of_nat u < NOBODY)) ->
  locker_ok t x -> lock_inv s'.
Proof.
  intros [I1 I2 I3 I4 I5] El A1 A2 B1 B2 C1 C2 D1 D2 Hok. split; rewrite El; try (intros u; unfold moved; destruct (decide (u = t)) as [->|Hne]).
  - done.
  - by rewrite I1, A2.
  - done.
  - by rewrite I2, B2.
  - destruct (malloc_spinlock s') as [u|]; auto.
  - done.
  - by rewrite I4, D2.
  - done.
  - apply I5.
Qed.

(** A thread that steps: its place decides. *)
Ltac step_cases := unfold mlock_step, goto, unlock_safety, unlock_malloc, modify, lock_safety, lock_malloc, assert_, bind, get, ret.

Lemma inv_step s r t s' : lock_inv s -> may_step s r t -> mlock_step r t s = Ok tt s' -> lock_inv s'.
Proof.
  intros I (Ht & Hr) E. destruct (I) as [I1 I2 I3 I4 I5]. unfold mlock_step in E. rewrite (bind_ok get _ s s s eq_refl) in E. cbv zeta in E.
  pose proof (I1 t) as S1. pose proof (I2 t) as S2. pose proof (I4 t) as S4. pose proof (I5 t) as S5.
  destruct (lockers s t) as [p n] eqn:Ex. cbn [at_place depth] in *.
  assert (forall u, malloc_spinlock s = Some u -> lockcount s = held (lockers s u)) as I3' by (intros u Hu; by rewrite Hu in I3).
  assert (malloc_spinlock s = None -> lockcount s = 0) as I3n by (intros Hu; by rewrite Hu in I3).
  pose proof (I3' t) as C. rewrite Ex in C. clear I3.
  destruct p; unfold locker_ok, in_safety, in_region, owns, held in S1, S2, S4, S5, C; cbn [at_place depth] in *; [destruct r|..].
  all: unfold bind, goto, lock_safety, lock_malloc, unlock_safety, unlock_malloc, modify, assert_, ret, fault in E.
  all: repeat match type of E with
    | context [match safety_spinlock ?x with _ => _ end] => destruct (safety_spinlock x) eqn:Es; try done
    | context [match malloc_spinlock ?x with _ => _ end] => destruct (malloc_spinlock x) eqn:Em; try done
    | context [if ?b then _ else _] => destruct b eqn:?; try done
    end.
  all: injection E as <-.
  all: (eapply (inv_frame s _ t); [done|reflexivity|..]; cbn -[moved NOBODY Nat.ltb Z.of_nat]).
  all: repeat match goal with H : (_ =? _) = true |- _ => apply Z.eqb_eq in H | H : (_ =? _) = false |- _ => apply Z.eqb_neq in H | H : (_ <? _) = true |- _ => apply Z.ltb_lt in H end.
  all: try (intuition congruence).
  all: rewrite ?Nat.ltb_lt in *.
  all: try (destruct (Nat.eqb_spec n 0)).
  all: try (intuition (congruence || lia)).
  all: try (intros u Hu; unfold moved; destruct (decide (u = t)) as [->|]; cbn [held at_place depth]; [|specialize (I3' u)]; intuition (congruence || lia)).
  - assert (0 < n)%nat by lia. intuition.
  - (* the owner changes hands *)
    intros u Hne. split; [lia|]. intros Ho. exfalso. apply I4, owns_holds in Ho as [H1%I2|(_ & H1%I1)]; intuition congruence.
  - rewrite <- S2. lia.
Qed.

Lemma inv_init : lock_inv mlock_init.
Proof.
  split; try done; intros t; cbn; try done. split; [done|]. unfold NOBODY. intros [E1 E2]. rewrite E1 in E2. lia.
Qed.

Lemma reachable_inv s : reachable s -> lock_inv s.
Proof. induction 1 as [|s s' r t _ IH Hm E]; [apply inv_init|by eapply inv_step]. Qed.

(** The threads outside that hold the lock, and those inside that can go on. *)
Definition holds_outside (s : mlock) (t : nat) : Prop := at_place (lockers s t) = Out /\ (0 < depth (lockers s t))%nat.
Definition inside (s : mlock) (t : nat) : Prop := at_place (lockers s t) <> Out.
Definition can_go_on (s : mlock) (t : nat) : Prop := inside s t /\ exists s', mlock_step CallLock t s = Ok tt s'.

Lemma no_assert_fails s r t : lock_inv s -> may_step s r t -> mlock_step r t s <> Fault.
Proof.
  intros [I1 I2 I3 I4 I5] (Ht & Hr). pose proof (I2 t) as S2. pose proof (I4 t) as S4. pose proof (I5 t) as S5.
  assert (0 <= lockcount s) as Hc.
  { rewrite I3. destruct (malloc_spinlock s) as [u|]; [|lia]. pose proof (I5 u) as Hu. unfold locker_ok, held in *. destruct (lockers s u) as [p n]; cbn in *. destruct p; cbn in *; lia. }
  unfold mlock_step, bind, get, goto, lock_safety, lock_malloc, unlock_safety, unlock_malloc, modify, assert_, ret, fault.
  destruct (lockers s t) as [p n]; cbn [at_place depth] in *. destruct p; try done.
  - by destruct r.
  - by destruct (safety_spinlock s).
  - by rewrite (proj2 (Z.leb_le 0 _)).
  - by destruct (malloc_spinlock s).
  - by destruct (safety_spinlock s).
  - by destruct (safety_spinlock s).
  - by destruct (safety_spinlock s).
  - cbn in S5. destruct S5 as (H1 & -> & ->). rewrite (proj2 (Z.ltb_lt 0 _)), Z.eqb_refl by lia. by destruct (_ =? 1).
Qed.

(** Who holds the safety lock is never stopped. *)
Lemma safety_goes_on s t : lock_inv s -> Z.of_nat t < NOBODY -> safety_spinlock s = Some t -> can_go_on s t.
Proof.
  intros I Ht Hs. pose proof (proj2 (inv_safety _ I t) Hs) as H1. assert (inside s t) as Hin.
  { unfold inside, in_safety in *. by destruct (at_place (lockers s t)). }
  split; [done|]. assert (mlock_step CallLock t s <> Fault) as Hf by (apply no_assert_fails; [done|]; split; [done|]; by intros ?).
  unfold mlock_step, bind, get, goto, lock_safety, lock_malloc, unlock_safety, unlock_malloc, modify, assert_, ret, fault in *. unfold in_safety in H1.
  destruct (at_place (lockers s t)); try done; try (by eexists).
  - destruct (0 <=? lockcount s); [by eexists|done].
  - destruct (0 <? llc); [|done]. destruct (llo =? Z.of_nat t); [|done]. destruct (llc =? 1); by eexists.
Qed.

(** A thread inside that cannot go on waits for another. *)
Lemma waits_or_goes s t : lock_inv s -> (forall u, inside s u -> Z.of_nat u < NOBODY) -> inside s t ->
  can_go_on s t \/ (exists u, safety_spinlock s = Some u) \/ (at_place (lockers s t) = A4 /\ exists u, malloc_spinlock s = Some u).
Proof.
  intros I Hsmall Hin. destruct (safety_spinlock s) as [u|] eqn:Es; [right; left; by exists u|].
  destruct (malloc_spinlock s) as [u|] eqn:Em.
  - destruct (decide (at_place (lockers s t) = A4)) as [E|E]; [right; right; split; [done|by exists u]|left].
    split; [done|]. pose proof (inv_safety _ I t) as S1. rewrite Es in S1. unfold in_safety, inside in *.
    unfold mlock_step, bind, get, lock_safety. destruct (at_place (lockers s t)); try (exfalso; by destruct Hin); try (exfalso; by destruct E);
      try (exfalso; by destruct S1 as [S1 _]; specialize (S1 eq_refl)); rewrite ?Es; eexists; reflexivity.
  - left. split; [done|]. pose proof (inv_safety _ I t) as S1. rewrite Es in S1. unfold in_safety, inside in *.
    unfold mlock_step, bind, get, lock_safety, lock_malloc. destruct (at_place (lockers s t)); try (exfalso; by destruct Hin);
      try (exfalso; by destruct S1 as [S1 _]; specialize (S1 eq_refl)); rewrite ?Es, ?Em; eexists; reflexivity.
Qed.

(** C16: the lock of the heap.  In every state that threads can reach by locking,
    also again and again, and unlocking what they have locked, with their
    steps in any order: at most one thread is outside with the lock; while it is
    there the count is the number of times it has locked; no assertion fails;
    and when a thread is inside one of the two functions, some thread inside
    them can make a step, or the lock is with a thread that is outside. *)
Theorem malloc_lock_safe s : reachable s -> (forall t, inside s t -> Z.of_nat t < NOBODY) ->
  (forall t u, holds_outside s t -> holds_outside s u -> t = u) /\
  (forall t, holds_outside s t -> lockcount s = Z.of_nat (depth (lockers s t))) /\
  (forall r t, may_step s r t -> mlock_step r t s <> Fault) /\
  (forall t, inside s t -> (exists u, can_go_on s u) \/ exists u, holds_outside s u).
Proof.
  intros I%reachable_inv Hsmall. destruct (I) as [I1 I2 I3 I4 I5].
  assert (forall t, holds_outside s t -> malloc_spinlock s = Some t) as Hreg.
  { intros t (Ho & Hd). apply I2. unfold in_region. rewrite Ho. by apply Nat.ltb_lt. }
  split_and!.
  - intros t u Ht%Hreg Hu%Hreg. congruence.
  - intros t Ht. rewrite I3, (Hreg t Ht). unfold held. by destruct Ht as (-> & _).
  - intros r t. by apply no_assert_fails.
  - assert (forall u, safety_spinlock s = Some u -> can_go_on s u) as Hsaf.
    { intros u Hu. apply safety_goes_on; [done| |done]. apply Hsmall. apply I1 in Hu. unfold inside, in_safety in *. by destruct (at_place (lockers s u)). }
    intros t Ht. destruct (waits_or_goes s t I Hsmall Ht) as [?|[(u & Hu)|(_ & u & Hu)]]; [left; by exists t|left; exists u; by apply Hsaf|].
    destruct (decide (at_place (lockers s u) = Out)) as [Eo|Eo].
    { right. exists u. split; [done|]. apply I2 in Hu. unfold in_region in Hu. rewrite Eo in Hu. by apply Nat.ltb_lt. }
    left. destruct (waits_or_goes s u I Hsmall Eo) as [?|[(w & Hw)|(E4 & _)]]; [by exists u|exists w; by apply Hsaf|].
    apply I2 in Hu. pose proof (I5 u) as Hok. unfold in_region, locker_ok in *. rewrite E4, Hok in *. done.
Qed.

(** Two threads: the first takes the lock twice, the second waits for it. *)
Fixpoint run_steps (l : list (request * nat)) (s : mlock) : option mlock :=
  match l with
  | [] => Some s
  | (r, t) :: l' => match mlock_step r t s with Ok _ s' => run_steps l' s' | _ => None end
  end.
Definition lock_schedule : list (request * nat) :=
  replicate 9 (CallLock, 7%nat) ++ replicate 7 (CallLock, 7%nat) ++ replicate 4 (CallLock, 2%nat) ++ replicate 5 (CallUnlock, 7%nat).

(** A schedule whose steps the threads may make. *)
Fixpoint run_steps_ok (l : list (request * nat)) (s : mlock) : bool :=
  match l with
  | [] => true
  | (r, t) :: l' =>
      (Z.of_nat t <? NOBODY) && match r with CallLock => true | CallUnlock => Nat.ltb 0 (depth (lockers s t)) end &&
      match mlock_step r t s with Ok _ s' => run_steps_ok l' s' | _ => false end
  end.
Lemma run_steps_reachable l s s' : reachable s -> run_steps_ok l s = true -> run_steps l s = Some s' -> reachable s'.
Proof.
  revert s. induction l as [|[r t] l IH]; cbn [run_steps run_steps_ok]; intros s R Hok E; [by injection E as <-|].
  apply andb_true_iff in Hok as ((Ht%Z.ltb_lt & Hr)%andb_true_iff & Hok).
  destruct (mlock_step r t s) as [[] s1| | |] eqn:E1; try done. apply (IH s1); [|done..].
  apply (reach_step s s1 r t); [done| |done]. split; [done|]. intros _ ->. by apply Nat.ltb_lt.
Qed.

Lemma step_others r t s s' u : mlock_step r t s = Ok tt s' -> u <> t -> lockers s' u = lockers s u.
Proof.
  intros E Hu. unfold mlock_step, bind, get, goto, lock_safety, lock_malloc, unlock_safety, unlock_malloc, modify, assert_, ret, fault in E.
  repeat match type of E with
    | context [match at_place ?x with _ => _ end] => destruct (at_place x); try done
    | context [match safety_spinlock ?x with _ => _ end] => destruct (safety_spinlock x); try done
    | context [match malloc_spinlock ?x with _ => _ end] => destruct (malloc_spinlock x); try done
    | context [match r with _ => _ end] => destruct r
    | context [if ?b then _ else _] => destruct b; try done
    end.
  all: injection E as <-; cbn; by destruct (decide (u = t)).
Qed.

Lemma run_others l u : forall s s', run_steps l s = Some s' -> Forall (fun p => u <> snd p) l -> lockers s' u = lockers s u.
Proof.
  induction l as [|[r t] l IH]; cbn [run_steps]; intros s s' E Hl; [by injection E as <-|].
  apply Forall_cons in Hl as (Hu & Hl). destruct (mlock_step r t s) as [[] s1| | |] eqn:E1; try done.
  rewrite (IH s1 s' E Hl). by apply (step_others r t).
Qed.

Lemma lock_schedule_runs : exists s, run_steps lock_schedule mlock_init = Some s /\ run_steps_ok lock_schedule mlock_init = true /\
  holds_outside s 7%nat /\ inside s 2%nat /\ depth (lockers s 7%nat) = 1%nat /\ (forall t, inside s t -> t = 2%nat).
Proof.
  destruct (run_steps lock_schedule mlock_init) as [s|] eqn:E; [|by vm_compute in E]. exists s.
  assert (lockers s 7%nat = mkLocker Out 1) as E7 by (vm_compute in E; by injection E as <-).
  assert (lockers s 2%nat = mkLocker A4 0) as E2 by (vm_compute in E; by injection E as <-).
  unfold holds_outside, inside. rewrite E7, E2. split_and!; [done|by vm_compute|done|cbn; lia|done|done|].
  intros t Ht. destruct (decide (t = 2%nat)) as [|N2]; [done|exfalso; apply Ht].
  destruct (decide (t = 7%nat)) as [->|N7]; [by rewrite E7|].
  rewrite (run_others lock_schedule t mlock_init s E); [done|].
  unfold lock_schedule. repeat (apply Forall_app; split); by apply Forall_replicate.
Qed.

Lemma malloc_lock_safe_demo : exists s, holds_outside s 7%nat /\ inside s 2%nat /\ lockcount s = 1 /\
  ((exists u, can_go_on s u) \/ exists u, holds_outside s u).
Proof.
  destruct lock_schedule_runs as (s & E & Hok & Ho & Hi & Hd & Ht). exists s.
  destruct (malloc_lock_safe s) as (_ & Hc & _ & Hg).
  - exact (run_steps_reachable lock_schedule mlock_init s reach_init Hok E).
  - intros t H. rewrite (Ht t H). reflexivity.
  - split; [exact Ho|]. split; [exact Hi|]. split; [rewrite (Hc 7%nat Ho), Hd; reflexivity|exact (Hg 2%nat Hi)].
Defined.

(** ** The clock *)

Section clock.
Context {D F : Type} {IO : Mmio D} {firmware : F -> list Z -> F * list (list Z)} {L : SmcLaws D F firmware}.
Context (fuel : nat).

Lemma clock_value_bound r : message_ok r -> 0 <= clock_value r < 2 ^ 40.
Proof.
  intros Hr. assert (forall i, is_byte (byte_at r i)) as B.
  { intros i. unfold byte_at. destruct (nth_in_or_default (Z.to_nat i) r 0) as [H| ->]; [|done].
    destruct Hr as [_ Hr]. by apply (proj1 (List.Forall_forall _ _) Hr). }
  unfold clock_value. pose proof (B 1). pose proof (B 2). pose proof (B 3). pose proof (B 4). pose proof (B 5). unfold is_byte in *. lia.
Qed.

(** When the controller answers with its count of milliseconds, the time is that
    count after [RTC_BASE], in seconds and microseconds; neither wraps, as the
    count has 40 bits. *)
Lemma gettimeofday_runs s ir (m : smc F) f bulks r rest :
  mail s ir m -> firmware (sm_fw m) (message [0x04]) = (f, rest) -> sm_rx m ++ rest = bulks ++ [r] ->
  Forall message_ok bulks -> Forall is_bulk bulks -> message_ok r -> ~ is_bulk r -> enough (L := L) fuel (length bulks) ->
  runs (xenon_gettimeofday fuel) s (fun tv _ =>
    fst tv * 1000000 + snd tv = RTC_BASE * 1000000 + clock_value r * 1000 /\ 0 <= snd tv < 1000000).
Proof.
  intros Hs Hfw Hrx Hok Hb Hr Hnb Hn. unfold xenon_gettimeofday. apply runs_bind.
  eapply runs_mono; [|apply (exchange_runs fuel s ir m _ f bulks r rest Hs); try done].
  - intros buf s' (-> & _). apply runs_ret. pose proof (clock_value_bound r Hr) as Hc. unfold RTC_BASE.
    pose proof (Z.div_mod (clock_value r) 1000 ltac:(lia)). pose proof (Z.mod_pos_bound (clock_value r) 1000 ltac:(lia)).
    rewrite !u64_small, !s32_value by lia. cbn [fst snd]. lia.
  - apply message_cases; [cbn; lia|]. by repeat constructor.
Qed.
End clock.
