(* ===== verification/Ata.v ===== *)
(** * Disks [drivers/diskio/ata.c]

    The driver of the hard disk and the DVD drive, for the build with
    [USE_DMA].  The bus, with the memory that both the processor and the drives
    access, is an instance of [AtaBus].  Buffers of the caller that a drive
    writes to are addresses; arrays that are filled word by word through the
    data register are lists of bytes.  [fuel] bounds the polling loops.
    Messages, delays, and cache instructions have no effect on the state
    modelled. *)
From S2P Require Import Prelude Bits Sfcx.

(** Loads and stores on the bus; [poke32] is a store of a word to memory. *)
Class AtaBus (D : Type) := {
  in8 : Z -> D -> Z * D;
  out8 : Z -> Z -> D -> D;
  in32 : Z -> D -> Z * D;
  out32 : Z -> Z -> D -> D;
  poke32 : Z -> Z -> D -> D
}.

Definition XENON_ATA_REG_DATA : Z := 0.
Definition XENON_ATA_REG_ERROR : Z := 1.
Definition XENON_ATA_REG_FEATURES : Z := 1.
Definition XENON_ATA_REG_SECTORS : Z := 2.
Definition XENON_ATA_REG_SECTNUM : Z := 3.
Definition XENON_ATA_REG_CYLLSB : Z := 4.
Definition XENON_ATA_REG_CYLMSB : Z := 5.
Definition XENON_ATA_REG_LBALOW : Z := 3.
Definition XENON_ATA_REG_LBAMID : Z := 4.
Definition XENON_ATA_REG_LBAHIGH : Z := 5.
Definition XENON_ATA_REG_DISK : Z := 6.
Definition XENON_ATA_REG_CMD : Z := 7.
Definition XENON_ATA_REG_STATUS : Z := 7.
Definition XENON_ATA_REG2_CONTROL : Z := 0.

Definition XENON_ATA_CMD_READ_DMA_EXT : Z := 0x25.
Definition XENON_ATA_CMD_WRITE_SECTORS_EXT : Z := 0x34.
Definition XENON_ATA_CMD_IDENTIFY_DEVICE : Z := 0xEC.
Definition XENON_ATA_CMD_IDENTIFY_PACKET_DEVICE : Z := 0xA1.
Definition XENON_ATA_CMD_PACKET : Z := 0xA0.

Definition XENON_ATA_CHS : Z := 0.
Definition XENON_ATA_LBA : Z := 1.
Definition XENON_ATA_LBA48 : Z := 2.

Definition XENON_DISK_SECTOR_SIZE : Z := 0x200.
Definition XENON_CDROM_SECTOR_SIZE : Z := 2048.

Definition XENON_ATA_DMA_TABLE_OFS : Z := 4.
Definition XENON_ATA_DMA_STATUS : Z := 2.
Definition XENON_ATA_DMA_CMD : Z := 0.
Definition XENON_ATA_DMA_WR : Z := 8.
Definition XENON_ATA_DMA_START : Z := 1.
Definition XENON_ATA_DMA_ERR : Z := 2.
Definition XENON_ATA_DMA_ACTIVE : Z := 1.
Definition MAX_PRDS : Z := 16.
Definition DISKIO_ERROR_NO_MEDIA : Z := -8.

(** [struct xenon_ata_device]; [prds] is an address. *)
Record xenon_ata_device := mkAtaDev {
  ioaddress : Z; ioaddress2 : Z; is_atapi : Z; addressing_mode : Z;
  cylinders : Z; heads : Z; sectors_per_track : Z; size : Z; prds : Z
}.
#[global] Instance eta_ata_device : Eta xenon_ata_device := fun r =>
  mkAtaDev (ioaddress r) (ioaddress2 r) (is_atapi r) (addressing_mode r) (cylinders r) (heads r) (sectors_per_track r) (size r) (prds r).

(** [&ata] or [&atapi]. *)
Inductive port := Ata | Atapi.

Record ata_st {D : Type} := mkAtaSt {
  ata : xenon_ata_device; atapi : xenon_ata_device; ata_ready : Z; atapi_ready : Z; bus : D
}.
Arguments ata_st D : clear implicits. Arguments mkAtaSt {D}.
#[global] Instance eta_ata_st D : Eta (ata_st D) := fun r => mkAtaSt (ata r) (atapi r) (ata_ready r) (atapi_ready r) (bus r).

Section ata.
Context {D : Type} {B : AtaBus D} (fuel : nat).
Abbreviation MA := (M (ata_st D)).
Implicit Types (dev : port) (buf info packet : list Z).

Definition the dev (s : ata_st D) : xenon_ata_device := match dev with Ata => ata s | Atapi => atapi s end.
Definition upd dev (f : xenon_ata_device -> xenon_ata_device) : MA unit :=
  modify (fun s => match dev with Ata => s <| ata ::= f |> | Atapi => s <| atapi ::= f |> end).

(** ** Registers *)

Definition load8 (a : Z) : MA Z := fun s => let (v, d) := in8 a (bus s) in Ok v (s <| bus := d |>).
Definition store8 (a v : Z) : MA unit := modify (fun s => s <| bus ::= out8 a v |>).
Definition load32 (a : Z) : MA Z := fun s => let (v, d) := in32 a (bus s) in Ok v (s <| bus := d |>).
Definition store32 (a v : Z) : MA unit := modify (fun s => s <| bus ::= out32 a v |>).
Definition mem32 (a v : Z) : MA unit := modify (fun s => s <| bus ::= poke32 a v |>).

Definition xenon_ata_regset dev (reg val : Z) : MA unit := d <- gets (the dev) ;; store8 (ioaddress d + reg) (u8 val).
Definition xenon_ata_regget dev (reg : Z) : MA Z := d <- gets (the dev) ;; load8 (ioaddress d + reg).
Definition xenon_ata_regset2 dev (reg val : Z) : MA unit := d <- gets (the dev) ;; store8 (ioaddress2 d + reg) (u8 val).
Definition xenon_ata_regget2 dev (reg : Z) : MA Z := d <- gets (the dev) ;; load8 (ioaddress2 d + reg).
Definition xenon_ata_read_data dev (reg : Z) : MA Z := d <- gets (the dev) ;; load32 (ioaddress d + reg).
Definition xenon_ata_write_data dev (reg val : Z) : MA unit := d <- gets (the dev) ;; store32 (ioaddress d + reg) val.
Definition xenon_ata_write_data2 dev (reg val : Z) : MA unit := d <- gets (the dev) ;; store32 (ioaddress2 d + reg) val.

(** A loop that reads a register until it shows what is waited for. *)
Fixpoint poll (n : nat) (get : MA Z) (done : Z -> bool) : MA unit :=
  match n with
  | O => diverge
  | S n => v <- get ;; if done v then ret tt else poll n get done
  end.
Definition status dev : MA Z := xenon_ata_regget dev XENON_ATA_REG_STATUS.
Definition xenon_ata_wait_busy dev : MA unit := poll fuel (status dev) (fun v => negb (nz (v .& 0x80))).
Definition xenon_ata_wait_drq dev : MA unit := poll fuel (status dev) (fun v => nz (v .& 0x08)).
Definition xenon_ata_wait_ready dev : MA unit := poll fuel (status dev) (fun v => (v .& 0xC0) =? 0x40).

(** [if (status & 1) return error; rest] *)
Definition unless_error {A : Type} dev (k : Z -> A) (rest : MA A) : MA A :=
  v <- status dev ;;
  if nz (v .& 1) then e <- xenon_ata_regget dev XENON_ATA_REG_ERROR ;; ret (k e) else rest.

(** ** Transfers through the data register *)

(** Words read into [buf] from offset [i]: [n] more. *)
Fixpoint pio_words (n i : nat) dev buf : MA (list Z) :=
  match n with
  | O => ret buf
  | S n => w <- xenon_ata_read_data dev XENON_ATA_REG_DATA ;; pio_words n (i + 4) dev (write_at i (put_be w) buf)
  end.

(** Both branches on the size read words; the second four in a round. *)
Definition xenon_ata_pio_read dev buf (size : Z) : MA (Z * list Z) :=
  unless_error dev (fun e => (e, buf)) (
    xenon_ata_wait_drq dev ;;
    buf <- (if nz (size .& 0xf) then pio_words (Z.to_nat (size / 4)) 0 dev buf
            else pio_words (4 * Z.to_nat (size / 16)) 0 dev buf) ;;
    unless_error dev (fun e => (e, buf)) (ret (0, buf))).

Fixpoint pio_send (n : nat) (i : Z) dev buf : MA unit :=
  match n with
  | O => ret tt
  | S n => xenon_ata_write_data dev XENON_ATA_REG_DATA (word_at buf (4 * i)) ;; pio_send n (i + 1) dev buf
  end.
Definition xenon_ata_pio_write dev buf (size : Z) : MA Z :=
  xenon_ata_wait_drq dev ;;
  pio_send (Z.to_nat (size / 4)) 0 dev buf ;;
  unless_error dev (fun e => e) (ret 0).

(** ** Transfers to memory *)

(** The loop that builds the table, at entry [i]; whether it fits. *)
Fixpoint build_prds (n : nat) dev (i s b : Z) : MA bool :=
  match n with
  | O => diverge
  | S n =>
      if s <=? 0 then ret true else
      d <- gets (the dev) ;;
      mem32 (u32 (prds d + 8 * i)) (bswap32 b) ;;
      let ss := Z.min s (0x10000 - (b .& 0xffff)) in
      let s := s - ss in
      let b := u32 (b + ss) in
      mem32 (u32 (prds d + 8 * i + 4)) (bswap32 ((ss .& 0xffff) .| (if 0 <? s then 0 else 0x80000000))) ;;
      let i := i + 1 in
      if (MAX_PRDS <=? i) && (0 <? s) then ret false else build_prds n dev i s b
  end.

Definition xenon_ata_dma_read dev (buf size : Z) : MA Z :=
  if nz (buf .& 3) then fault else
  unless_error dev (fun e => e) (
    fits <- build_prds (Z.to_nat MAX_PRDS + 1) dev 0 size (buf .& 0x7fffffff) ;;
    if negb fits then ret (-1) else
    d <- gets (the dev) ;;
    xenon_ata_write_data2 dev XENON_ATA_DMA_TABLE_OFS (bswap32 (prds d .& 0x7fffffff)) ;;
    xenon_ata_regset2 dev XENON_ATA_DMA_CMD XENON_ATA_DMA_WR ;;
    xenon_ata_regset2 dev XENON_ATA_DMA_STATUS 0 ;;
    xenon_ata_regset2 dev XENON_ATA_DMA_CMD (XENON_ATA_DMA_WR .| XENON_ATA_DMA_START) ;;
    poll fuel (xenon_ata_regget2 dev XENON_ATA_DMA_STATUS) (fun v => negb (nz (v .& XENON_ATA_DMA_ACTIVE))) ;;
    xenon_ata_regset2 dev XENON_ATA_DMA_CMD 0 ;;
    v <- xenon_ata_regget2 dev XENON_ATA_DMA_STATUS ;;
    if nz (v .& XENON_ATA_DMA_ERR) then ret (-1) else
    unless_error dev (fun e => e) (ret 0)).

(** ** Addresses *)

Definition xenon_ata_setlba dev (sector size : Z) : MA unit :=
  xenon_ata_regset dev XENON_ATA_REG_SECTORS size ;;
  xenon_ata_regset dev XENON_ATA_REG_LBALOW (sector .& 0xFF) ;;
  xenon_ata_regset dev XENON_ATA_REG_LBAMID ((sector .>> 8) .& 0xFF) ;;
  xenon_ata_regset dev XENON_ATA_REG_LBAHIGH ((sector .>> 16) .& 0xFF).

(** [sector] and [size] are signed. *)
Definition xenon_ata_setaddress dev (sector size : Z) : MA Z :=
  xenon_ata_wait_busy dev ;;
  d <- gets (the dev) ;;
  if addressing_mode d =? XENON_ATA_CHS then
    if (sectors_per_track d =? 0) || (heads d =? 0) then fault else
    let sect := u32 sector mod sectors_per_track d + 1 in
    let cylinder := u32 sector / sectors_per_track d / heads d in
    let head := (u32 sector / sectors_per_track d) mod heads d in
    if (sectors_per_track d <? sect) || (cylinders d <? cylinder) || (heads d <? head) then ret (-1) else
    xenon_ata_regset dev XENON_ATA_REG_SECTNUM sect ;;
    xenon_ata_regset dev XENON_ATA_REG_CYLLSB (cylinder .& 0xFF) ;;
    xenon_ata_regset dev XENON_ATA_REG_CYLMSB (cylinder .>> 8) ;;
    xenon_ata_regset dev XENON_ATA_REG_DISK head ;;
    ret 0
  else if addressing_mode d =? XENON_ATA_LBA then
    let size := if size =? 256 then 0 else size in
    xenon_ata_setlba dev sector size ;;
    xenon_ata_regset dev XENON_ATA_REG_DISK (0xE0 .| ((sector .>> 24) .& 0x0F)) ;;
    ret 0
  else if addressing_mode d =? XENON_ATA_LBA48 then
    let size := if size =? 65536 then 0 else size in
    xenon_ata_setlba dev (sector .>> 24) (size .>> 8) ;;
    xenon_ata_setlba dev sector size ;;
    xenon_ata_regset dev XENON_ATA_REG_DISK 0xE0 ;;
    ret 0
  else ret (-1).

(** ** Sectors of the hard disk *)

(** The parameters are of type [sec_t]. *)
Definition xenon_ata_read_sectors (start_sector sector_size buf : Z) : MA Z :=
  xenon_ata_setaddress Ata (s32 start_sector) (s32 sector_size) ;;
  xenon_ata_regset Ata XENON_ATA_REG_CMD XENON_ATA_CMD_READ_DMA_EXT ;;
  xenon_ata_wait_ready Ata ;;
  r <- xenon_ata_dma_read Ata buf (s32 (u32 (sector_size * XENON_DISK_SECTOR_SIZE))) ;;
  if nz r then ret (-1) else ret (s32 sector_size).

Fixpoint write_sectors (n : nat) buf : MA bool :=
  match n with
  | O => ret true
  | S n =>
      r <- xenon_ata_pio_write Ata (take 512 buf) XENON_DISK_SECTOR_SIZE ;;
      if nz r then ret false else write_sectors n (drop 512 buf)
  end.
(** [sector_size] is signed, and compared with an unsigned counter. *)
Definition xenon_ata_write_sectors (start_sector sector_size : Z) buf : MA Z :=
  xenon_ata_setaddress Ata (s32 start_sector) sector_size ;;
  xenon_ata_regset Ata XENON_ATA_REG_CMD XENON_ATA_CMD_WRITE_SECTORS_EXT ;;
  xenon_ata_wait_ready Ata ;;
  good <- write_sectors (Z.to_nat (u32 sector_size)) buf ;;
  if good then ret (s32 (u32 sector_size)) else ret (-1).

(** ** Packets for the DVD drive *)

Definition xenon_atapi_packet dev packet (dma : bool) : MA Z :=
  xenon_ata_regset dev XENON_ATA_REG_DISK 0 ;;
  xenon_ata_regset dev XENON_ATA_REG_FEATURES (if dma then 1 else 0) ;;
  xenon_ata_regset dev XENON_ATA_REG_SECTORS 0 ;;
  xenon_ata_regset dev XENON_ATA_REG_LBAHIGH 0xff ;;
  xenon_ata_regset dev XENON_ATA_REG_LBAMID 0xff ;;
  xenon_ata_regset dev XENON_ATA_REG_CMD XENON_ATA_CMD_PACKET ;;
  xenon_ata_wait_ready dev ;;
  xenon_ata_pio_write dev packet 12 ;;
  ret 0.

(** A packet without data memory, and the answer read into [n] zeros. *)
Definition packet_in dev packet (n : nat) : MA (Z * list Z) :=
  xenon_atapi_packet dev packet false ;;
  xenon_ata_wait_ready dev ;;
  xenon_ata_pio_read dev (replicate n 0) (Z.of_nat n).

Definition SK (sense : Z) : Z := (sense .>> 16) .& 0xFF.
Definition ASC (sense : Z) : Z := (sense .>> 8) .& 0xFF.

Definition xenon_atapi_request_sense dev : MA Z :=
  let* (r, buf) := packet_in dev [0x03; 0; 0; 0; 24; 0; 0; 0; 0; 0; 0; 0] 24 in
  if nz r then ret (-1) else
  ret ((byte_at buf 2 .<< 16) .| (byte_at buf 12 .<< 8) .| byte_at buf 13).

Definition xenon_atapi_inquiry_model dev : MA Z :=
  let* (r, _) := packet_in dev [0x12; 0; 0; 0; 0x24; 0xC0; 0; 0; 0; 0; 0; 0] 36 in
  if nz r then ret (-1) else ret 0.

Definition xenon_atapi_set_modeb : MA unit :=
  packet_in Atapi [0xE7; 0x48; 0x49; 0x54; 0x30; 0x90; 0x90; 0xd0; 0x01; 0; 0; 0] 48 ;;
  ret tt.

(** The code, and the key where there is one. *)
Definition xenon_atapi_get_dvd_key_tsh943a : MA (Z * option (list Z)) :=
  let* (r, buf) := packet_in Atapi [0xFF; 0x08; 0x05; 0; 0x05; 0x01; 0x03; 0; 0x04; 0x07; 0; 0] 16 in
  if nz r then xenon_atapi_request_sense Atapi ;; ret (-1, None) else ret (0, Some buf).

(** The mode page with a key. *)
Definition key_page (key : list Z) : list Z :=
  write_at 0x0A key (write_at 8 [0xBB; 0x30] (write_at 0 [0; 0x38] (replicate 58 0))).
Definition send_key (key : list Z) : MA Z :=
  xenon_atapi_packet Atapi [0x55; 0; 0; 0; 0; 0; 0; 0; 0x3A; 0; 0; 0] false ;;
  xenon_ata_wait_ready Atapi ;;
  xenon_ata_pio_write Atapi (key_page key) 58.
Definition xenon_atapi_set_dvd_key (dvdkey : list Z) : MA Z :=
  r <- send_key (replicate 16 0xFF) ;;
  if nz r then xenon_atapi_request_sense Atapi ;; ret (-1) else
  r <- send_key (take 16 dvdkey) ;;
  if nz r then xenon_atapi_request_sense Atapi ;; ret (-1) else
  ret 0.

(** ** Sectors of the DVD *)

(** [struct xenon_atapi_read]; the reserved bytes are not initialised. *)
Definition readcmd (junk : Z) (start_sector sector_size : Z) : list Z :=
  [0x28; u8 junk] ++ put_be (u32 start_sector) ++ [u8 (junk .>> 8); u8 (sector_size .>> 8); u8 sector_size] ++
  [u8 (junk .>> 16); u8 (junk .>> 24); u8 (junk .>> 32)].

(** From the label [retry]: [n] retries are left. *)
Fixpoint retry (n : nat) packet (sector_size buf : Z) : MA Z :=
  xenon_atapi_packet Atapi packet true ;;
  xenon_ata_wait_ready Atapi ;;
  r <- xenon_ata_dma_read Atapi buf (s32 (u32 (sector_size * XENON_CDROM_SECTOR_SIZE))) ;;
  if nz r then
    sense <- xenon_atapi_request_sense Atapi ;;
    if (SK sense =? 0x02) && (ASC sense =? 0x3a) then ret DISKIO_ERROR_NO_MEDIA else
    if ((SK sense =? 0x02) && (ASC sense =? 0x4)) || (SK sense =? 0x6) then
      match n with
      | O => ret (-1)
      | S n => retry n packet sector_size buf
      end
    else ret (-1)
  else ret (s32 sector_size).
Definition xenon_atapi_read_sectors (junk start_sector sector_size buf : Z) : MA Z :=
  retry 20 (readcmd junk start_sector sector_size) sector_size buf.

(** ** Finding the drives *)

(** [bswap_16(info16[i])], [__builtin_bswap32] of the word at [&info16[i]]. *)
Definition half info (i : Z) : Z := byte_at info (2 * i) .| (byte_at info (2 * i + 1) .<< 8).
Definition word info (i : Z) : Z := bswap32 (word_at info (2 * i)).

(** What [info] holds before it is read is a parameter. *)
Definition xenon_ata_identify dev info : MA Z :=
  xenon_ata_wait_busy dev ;;
  xenon_ata_regset dev XENON_ATA_REG_DISK 0xE0 ;;
  xenon_ata_regset dev XENON_ATA_REG_CMD XENON_ATA_CMD_IDENTIFY_DEVICE ;;
  xenon_ata_wait_ready dev ;;
  let* (val, info) := xenon_ata_pio_read dev info XENON_DISK_SECTOR_SIZE in
  if nz (val .& 4) then xenon_atapi_inquiry_model dev else
  if nz val then ret (-1) else
  let mode := if nz (half info 49 .& 2 ^ 9) then if nz (half info 83 .& 2 ^ 10) then XENON_ATA_LBA48 else XENON_ATA_LBA
              else XENON_ATA_CHS in
  upd dev (set is_atapi (fun _ => 0)) ;;
  upd dev (set addressing_mode (fun _ => mode)) ;;
  upd dev (set size (fun _ => if negb (mode =? XENON_ATA_LBA48) then word info 60 else word info 100)) ;;
  upd dev (set cylinders (fun _ => half info 1)) ;;
  upd dev (set heads (fun _ => half info 3)) ;;
  upd dev (set sectors_per_track (fun _ => half info 6)) ;;
  ret 0.

Definition xenon_atapi_identify dev info : MA Z :=
  xenon_ata_wait_busy dev ;;
  xenon_ata_regset dev XENON_ATA_REG_DISK 0xE0 ;;
  xenon_ata_regset dev XENON_ATA_REG_CMD XENON_ATA_CMD_IDENTIFY_PACKET_DEVICE ;;
  xenon_ata_wait_ready dev ;;
  xenon_ata_pio_read dev info XENON_DISK_SECTOR_SIZE ;;
  upd dev (set is_atapi (fun _ => 1)) ;;
  ret 0.

(** [table] is what [memalign] returns. *)
Definition xenon_ata_init1 dev info (table io io2 : Z) : MA Z :=
  upd dev (fun _ => mkAtaDev io io2 0 0 0 0 0 0 table) ;;
  xenon_ata_identify dev info ;;
  xenon_ata_regset dev XENON_ATA_REG_DISK 0 ;;
  xenon_ata_regset dev XENON_ATA_REG_LBALOW 0x5A ;;
  v <- xenon_ata_regget dev XENON_ATA_REG_LBALOW ;;
  if negb (v =? 0x5A) then ret (-1) else
  xenon_ata_regset2 dev XENON_ATA_REG2_CONTROL 6 ;;
  xenon_ata_regset2 dev XENON_ATA_REG2_CONTROL 2 ;;
  for_each [0; 1; 2; 3] (fun _ => xenon_ata_regget2 dev XENON_ATA_REG2_CONTROL ;; ret tt) ;;
  xenon_ata_regset dev XENON_ATA_REG_DISK 0 ;;
  for_each [0; 1; 2; 3] (fun _ => xenon_ata_regget2 dev XENON_ATA_REG2_CONTROL ;; ret tt) ;;
  ret 0.

(** The three words that start a port. *)
Definition preinit (a b c : Z) : MA unit :=
  store32 a (bswap32 0x112400) ;;
  store32 b (bswap32 0x407231BE) ;;
  v <- load32 c ;; store32 c (v .& bswap32 0xFFFFFFF0).
Definition xenon_ata_init info (table : Z) : MA Z :=
  preinit 0xd0110060 0xd0110080 0xea001318 ;;
  err <- xenon_ata_init1 Ata info table 0xea001300 0xea001320 ;;
  when (negb (nz err)) (modify (fun s => s <| ata_ready := 1 |>)) ;;
  ret err.
Definition xenon_atapi_init info (table : Z) : MA Z :=
  preinit 0xd0108060 0xd0108080 0xea001218 ;;
  err <- xenon_ata_init1 Atapi info table 0xea001200 0xea001220 ;;
  when (negb (nz err)) (modify (fun s => s <| atapi_ready := 1 |>)) ;;
  ret err.

(** ** The interface of file systems *)

Definition atapi_inserted : MA bool := r <- gets atapi_ready ;; ret (nz r).
Definition ata_inserted : MA bool := r <- gets ata_ready ;; ret (nz r).
Definition ata_readsectors (sector numSectors buffer : Z) : MA bool :=
  r <- xenon_ata_read_sectors sector numSectors buffer ;; ret (nz r).
Definition atapi_readsectors (junk sector numSectors buffer : Z) : MA bool :=
  r <- xenon_atapi_read_sectors junk sector numSectors buffer ;; ret (nz r).
Definition ata_writesectors (sector numSectors : Z) buffer : MA bool :=
  r <- xenon_ata_write_sectors sector (s32 numSectors) buffer ;; ret (nz r).
End ata.
