(* ===== verification/AtaDrive.v ===== *)
(** * Drives as ATA describes them

    What the driver of [ata.c] relies on: registers that remember the value
    before the last, commands, sectors through the data register, and transfers
    to memory along a table of regions.  A drive is the machine [drive] over
    what is particular to a hard disk or a DVD drive, given by a [logic]; a bus
    on which such a drive is found at a pair of addresses, with bounded delays,
    is an instance of [DriveLaws]. *)
From S2P Require Import Prelude Bits Sfcx SfcxFacts Ata.

(** ** Memory *)

Definition phys (a : Z) : Z := a .& 0x7fffffff.
Definition put_mem (a : Z) (l : list Z) (m : Z -> Z) : Z -> Z := fun x =>
  if (a <=? x) && (x <? a + Z.of_nat (length l)) then nth (Z.to_nat (x - a)) l 0 else m x.
Definition get_mem (m : Z -> Z) (a : Z) (n : nat) : list Z := (fun i => m (a + Z.of_nat i)) <$> seq 0 n.
Definition le_mem (m : Z -> Z) (a : Z) : Z := get_be (m (a + 3)) (m (a + 2)) (m (a + 1)) (m a).

(** The table of regions at [t]: address and length, up to the entry with the
    last bit set. *)
Fixpoint prd_table (n : nat) (m : Z -> Z) (t : Z) : list (Z * Z) :=
  match n with
  | O => []
  | S n =>
      let flags := le_mem m (t + 4) in
      let len := if (flags .& 0xffff) =? 0 then 0x10000 else flags .& 0xffff in
      (le_mem m t, len) :: (if Z.testbit flags 31 then [] else prd_table n m (t + 8))
  end.
Definition max_table : nat := Z.to_nat 8192.

Fixpoint scatter (r : list (Z * Z)) (l : list Z) (m : Z -> Z) : Z -> Z :=
  match r with
  | [] => m
  | (a, n) :: r => scatter r (drop (Z.to_nat n) l) (put_mem a (take (Z.to_nat n) l) m)
  end.
Definition total (r : list (Z * Z)) : Z := fold_right (fun p t => snd p + t) 0 r.

(** ** A drive *)

Inductive phase :=
  | Idle
  | DataIn (ws : list Z)                (* words to be read *)
  | DataOut (n : nat) (got : list Z)    (* words to be written, bytes written *)
  | DmaIn (l : list Z).                 (* bytes to go to memory *)

Record drive (U : Type) := mkDrive {
  d_reg : Z -> Z;          (* registers 1 to 6 *)
  d_hob : Z -> Z;          (* their values before the last write *)
  d_phase : phase;
  d_error : Z;             (* error register; not 0 when the last command failed *)
  d_table : Z;
  d_dmaerr : bool;
  d_mem : Z -> Z;
  d_unit : U
}.
Arguments mkDrive {U}. Arguments d_reg {U}. Arguments d_hob {U}. Arguments d_phase {U}. Arguments d_error {U}.
Arguments d_table {U}. Arguments d_dmaerr {U}. Arguments d_mem {U}. Arguments d_unit {U}.
#[global] Instance eta_drive U : Eta (drive U) := fun r =>
  mkDrive (d_reg r) (d_hob r) (d_phase r) (d_error r) (d_table r) (d_dmaerr r) (d_mem r) (d_unit r).

(** What a drive does with a command, and with the words it asked for. *)
Record logic (U : Type) := mkLogic { on_command : Z -> drive U -> drive U; on_data : list Z -> drive U -> drive U }.
Arguments mkLogic {U}. Arguments on_command {U}. Arguments on_data {U}.

Definition data_request (p : phase) : bool :=
  match p with Idle | DataIn [] => false | _ => true end.
Definition drive_status {U} (x : drive U) : Z :=
  0x40 + (if data_request (d_phase x) then 8 else 0) + (if d_error x =? 0 then 0 else 1).

Section drive.
Context {U : Type} (L : logic U).

Definition set_reg (r v : Z) (x : drive U) : drive U :=
  x <| d_hob ::= fun f a => if a =? r then d_reg x r else f a |> <| d_reg ::= fun f a => if a =? r then v else f a |>.
Definition drive_write (r v : Z) (x : drive U) : drive U := if r =? 7 then on_command L v x else set_reg r v x.

Definition drive_data (w : Z) (x : drive U) : drive U :=
  match d_phase x with
  | DataOut (S n) got =>
      let got := got ++ put_be w in
      if Nat.eqb n 0 then on_data L got (x <| d_phase := Idle |>) else x <| d_phase := DataOut n got |>
  | _ => x
  end.

(** The transfer to memory starts: the table must describe as many bytes as
    there are. *)
Definition dma_start (x : drive U) : drive U :=
  match d_phase x with
  | DmaIn l =>
      let r := prd_table max_table (d_mem x) (d_table x) in
      if total r =? Z.of_nat (length l) then x <| d_mem ::= scatter r l |> <| d_phase := Idle |>
      else x <| d_dmaerr := true |>
  | _ => x
  end.
Definition dma_write (r v : Z) (x : drive U) : drive U :=
  if r =? 2 then x <| d_dmaerr := false |> else if Z.testbit v 0 then dma_start x else x.
End drive.

(** ** What the driver relies on *)

Class DriveLaws (D U : Type) {B : AtaBus D} (L : logic U) (base base2 : Z) := {
  dview : D -> drive U;
  ddelay : D -> nat;
  dmax : nat;
  ddelay_bound : forall d, (ddelay d <= dmax)%nat;
  in8_view : forall r d, 1 <= r <= 7 -> dview (snd (in8 (base + r) d)) = dview d;
  in8_status : forall d, fst (in8 (base + 7) d) = (if Nat.eqb (ddelay d) 0 then drive_status (dview d) else 0x80) /\
    ddelay (snd (in8 (base + 7) d)) = pred (ddelay d);
  in8_error : forall d, fst (in8 (base + 1) d) = d_error (dview d);
  out8_view : forall r v d, 1 <= r <= 7 -> dview (out8 (base + r) v d) = drive_write L r v (dview d);
  in32_data : forall d w ws, d_phase (dview d) = DataIn (w :: ws) ->
    fst (in32 (base + 0) d) = w /\ dview (snd (in32 (base + 0) d)) = dview d <| d_phase := DataIn ws |>;
  out32_data : forall w d, dview (out32 (base + 0) w d) = drive_data L w (dview d);
  in8_dma : forall d, fst (in8 (base2 + 2) d) = (if Nat.eqb (ddelay d) 0 then 0 else 1) + (if d_dmaerr (dview d) then 2 else 0) /\
    dview (snd (in8 (base2 + 2) d)) = dview d /\ ddelay (snd (in8 (base2 + 2) d)) = pred (ddelay d);
  out8_dma : forall r v d, r = 0 \/ r = 2 -> dview (out8 (base2 + r) v d) = dma_write r v (dview d);
  out32_dma : forall v d, dview (out32 (base2 + 4) v d) = dview d <| d_table := bswap32 v |>;
  poke_view : forall a w d, dview (poke32 a w d) = dview d <| d_mem ::= put_mem (phys a) (put_be w) |>
}.

(** ** Running pieces of the driver *)

Section runs.
Context {D U : Type} {B : AtaBus D} {L : logic U} {base base2 : Z} {LW : DriveLaws D U L base base2}.
Context (dev : port) (c : xenon_ata_device).
Hypothesis Hbase : ioaddress c = base.
Hypothesis Hbase2 : ioaddress2 c = base2.
Implicit Types (s : ata_st D) (x : drive U).

(** The driver knows the drive as [c], which is the machine [x]; it is not busy. *)
Definition sees s x : Prop := the dev s = c /\ dview (bus s) = x.
Definition settled s x : Prop := sees s x /\ ddelay (bus s) = 0%nat.

Lemma sees_bus s x d x' : sees s x -> dview d = x' -> sees (s <| bus := d |>) x'.
Proof. intros [E _] Hd. split; [|done]. by destruct dev. Qed.

Lemma runs_gets_the s x {A} (k : xenon_ata_device -> M (ata_st D) A) Q : sees s x -> runs (k c) s Q -> runs (bind (gets (the dev)) k) s Q.
Proof. intros [E _] H. apply runs_bind. exists c, s. split; [unfold gets; by rewrite E|done]. Qed.

Lemma runs_regset r v s x (Q : unit -> ata_st D -> Prop) : sees s x -> 1 <= r <= 7 ->
  (forall s', sees s' (drive_write L r (u8 v) x) -> Q tt s') -> runs (xenon_ata_regset dev r v) s Q.
Proof.
  intros Hs Hr HQ. apply (runs_gets_the s x); [done|]. eexists _, _. split; [reflexivity|]. apply HQ. rewrite Hbase.
  destruct (Hs) as [_ E]. apply (sees_bus s x); [done|]. by rewrite out8_view, E.
Qed.

Lemma runs_status s x (Q : Z -> ata_st D -> Prop) : sees s x ->
  (forall v s', sees s' x -> (v = 0x80 \/ v = drive_status x) -> Q v s') -> runs (status dev) s Q.
Proof.
  intros Hs HQ. apply (runs_gets_the s x); [done|]. destruct (Hs) as [_ E]. rewrite Hbase. unfold runs, load8, XENON_ATA_REG_STATUS.
  pose proof (in8_status (bus s)) as [E1 _]. pose proof (in8_view 7 (bus s) ltac:(lia)) as E2.
  destruct (in8 (base + 7) (bus s)) as [v d]. cbn [fst snd] in *. eexists _, _. split; [reflexivity|].
  apply HQ; [apply (sees_bus s x); [done|congruence]|]. rewrite E1, E. destruct (Nat.eqb _ 0); auto.
Qed.

Lemma runs_status0 s x (Q : Z -> ata_st D -> Prop) : settled s x ->
  (forall s', settled s' x -> Q (drive_status x) s') -> runs (status dev) s Q.
Proof.
  intros [Hs H0] HQ. apply (runs_gets_the s x); [done|]. destruct (Hs) as [_ E]. rewrite Hbase. unfold runs, load8, XENON_ATA_REG_STATUS.
  pose proof (in8_status (bus s)) as [E1 E3]. pose proof (in8_view 7 (bus s) ltac:(lia)) as E2.
  destruct (in8 (base + 7) (bus s)) as [v d]. cbn [fst snd] in *. rewrite H0 in E1, E3. cbn in E1, E3. eexists _, _. split; [reflexivity|].
  rewrite E1, E. apply HQ. split; [|done]. apply (sees_bus s x); [done|congruence].
Qed.

(** Polling the status ends when the drive shows what is waited for. *)
Lemma runs_poll n : forall s x done (Q : unit -> ata_st D -> Prop), sees s x -> (ddelay (bus s) < n)%nat ->
  done 0x80 = false -> done (drive_status x) = true ->
  (forall s', settled s' x -> Q tt s') -> runs (poll n (status dev) done) s Q.
Proof.
  induction n as [|n IH]; intros s x done Q Hs Hn H1 H2 HQ; [lia|]. cbn [poll]. apply runs_bind.
  apply (runs_gets_the s x); [done|]. destruct (Hs) as [_ E]. rewrite Hbase. unfold runs at 1, load8, XENON_ATA_REG_STATUS.
  pose proof (in8_status (bus s)) as [E1 E3]. pose proof (in8_view 7 (bus s) ltac:(lia)) as E2.
  destruct (in8 (base + 7) (bus s)) as [v d]. cbn [fst snd] in *. eexists _, _. split; [reflexivity|].
  assert (sees (s <| bus := d |>) x) as Hs' by (apply (sees_bus s x); [done|congruence]).
  rewrite E1, E. destruct (Nat.eqb_spec (ddelay (bus s)) 0) as [H0|H0].
  - rewrite H2. apply runs_ret, HQ. split; [done|]. cbn. by rewrite E3, H0.
  - rewrite H1. apply (IH _ x); try done. cbn. lia.
Qed.

Lemma status_error x : nz (drive_status x .& 1) = negb (d_error x =? 0).
Proof. unfold drive_status. by destruct (data_request _), (d_error x =? 0). Qed.

(** No error, busy or not. *)
Lemma runs_no_error {A} (k : Z -> A) (rest : M (ata_st D) A) s x Q : sees s x -> d_error x = 0 ->
  (forall s', sees s' x -> runs rest s' Q) -> runs (unless_error dev k rest) s Q.
Proof.
  intros Hs He HQ. unfold unless_error. apply runs_bind. apply (runs_status s x); [done|]. intros v s' Hs' [-> | ->].
  - change (nz (0x80 .& 1)) with false. cbn iota. by apply HQ.
  - rewrite status_error, He. by apply HQ.
Qed.
Lemma runs_no_error0 {A} (k : Z -> A) (rest : M (ata_st D) A) s x Q : settled s x -> d_error x = 0 ->
  (forall s', settled s' x -> runs rest s' Q) -> runs (unless_error dev k rest) s Q.
Proof.
  intros Hs He HQ. unfold unless_error. apply runs_bind. apply (runs_status0 s x); [done|]. intros s' Hs'.
  rewrite status_error, He. by apply HQ.
Qed.
Lemma runs_error {A} (k : Z -> A) (rest : M (ata_st D) A) s x Q : settled s x -> d_error x <> 0 ->
  (forall s', sees s' x -> Q (k (d_error x)) s') -> runs (unless_error dev k rest) s Q.
Proof.
  intros Hs He HQ. unfold unless_error. apply runs_bind. apply (runs_status0 s x); [done|]. intros s1 [Hs1 _].
  rewrite status_error, (proj2 (Z.eqb_neq _ _) He). cbn [negb]. apply runs_bind. apply (runs_gets_the s1 x); [done|].
  destruct (Hs1) as [_ E]. rewrite Hbase. unfold runs at 1, load8, XENON_ATA_REG_ERROR.
  pose proof (in8_error (bus s1)) as E1. pose proof (in8_view 1 (bus s1) ltac:(lia)) as E2.
  destruct (in8 (base + 1) (bus s1)) as [v d]. cbn [fst snd] in *. eexists _, _. split; [reflexivity|]. apply runs_ret.
  rewrite E1, E. apply HQ. apply (sees_bus s1 x); [done|congruence].
Qed.

(** Reading the words a drive offers. *)
Lemma runs_pio_words ws : forall s x i buf rest, sees s x -> d_phase x = DataIn (ws ++ rest) -> (i + 4 * length ws <= length buf)%nat ->
  runs (pio_words (length ws) i dev buf) s (fun b s' => b = write_at i (bytes_of ws) buf /\ sees s' (x <| d_phase := DataIn rest |>)).
Proof.
  induction ws as [|w ws IH]; intros s x i buf rest Hs Hp Hl; cbn [length pio_words].
  - apply runs_ret. split; [unfold write_at; cbn [bytes_of mbind list_bind app length]; by rewrite Nat.add_0_r, take_drop|].
    destruct Hs as [E1 E2]. split; [done|]. rewrite E2. destruct x. cbn in *. by rewrite Hp.
  - apply runs_bind. apply (runs_gets_the s x); [done|]. destruct (Hs) as [_ E]. rewrite Hbase.
    unfold runs at 1, load32, XENON_ATA_REG_DATA. destruct (in32_data (bus s) w (ws ++ rest)) as [E1 E2]; [by rewrite E|].
    destruct (in32 (base + 0) (bus s)) as [v d]. cbn [fst snd] in *. subst v. eexists _, _. split; [reflexivity|].
    eapply runs_mono; [|apply (IH _ (x <| d_phase := DataIn (ws ++ rest) |>) _ _ rest); [apply (sees_bus s x); [done|by rewrite E2, E]|done|]].
    + intros b s' (-> & Hs'). split; [|by destruct x].
      cbn [length] in Hl. unfold bytes_of. cbn [mbind list_bind]. fold (bytes_of ws). apply (write_at_app i (put_be w)). rewrite bytes_of_length. cbn [length put_be]. lia.
    + cbn [length] in Hl. rewrite length_write_at; cbn [length put_be]; lia.
Qed.

Lemma runs_pio_send buf n : forall s x i m got, sees s x -> d_phase x = DataOut (n + m) got -> (0 < m)%nat ->
  runs (pio_send n i dev buf) s (fun _ s' =>
    sees s' (x <| d_phase := DataOut m (got ++ bytes_of ((fun j => word_at buf (4 * (i + Z.of_nat j))) <$> seq 0 n)) |>)).
Proof.
  induction n as [|n IH]; intros s x i m got Hs Hp Hm; cbn [pio_send].
  - apply runs_ret. cbn [seq fmap list_fmap bytes_of mbind list_bind]. rewrite app_nil_r. destruct Hs as [E1 E2]. split; [done|]. rewrite E2. destruct x. cbn in *. by rewrite Hp.
  - apply runs_bind. apply (runs_gets_the s x); [done|]. destruct (Hs) as [_ E]. rewrite Hbase. eexists _, _. split; [reflexivity|].
    unfold XENON_ATA_REG_DATA. eapply runs_mono; [|apply (IH _ (x <| d_phase := DataOut (n + m) (got ++ put_be (word_at buf (4 * i))) |>) _ m)].
    + intros [] s' Hs'. match goal with |- sees _ (x <| d_phase := DataOut m ?l |>) => match type of Hs' with sees _ (_ <| d_phase := DataOut m ?l' |>) =>
        replace l with l'; [exact Hs'|] end end.
      rewrite <- app_assoc. f_equal. cbn [seq fmap list_fmap]. unfold bytes_of. cbn [mbind list_bind]. rewrite Z.add_0_r. f_equal. f_equal.
      rewrite <- (fmap_S_seq 0 n), <- list_fmap_compose. apply list_fmap_ext. intros j ? _. cbn. f_equal. lia.
    + apply (sees_bus s x); [done|]. rewrite out32_data, E. unfold drive_data. rewrite Hp. cbn [Nat.add].
      destruct (Nat.eqb_spec (n + m) 0); [lia|done].
    + by destruct x.
    + done.
Qed.
Lemma words_at n : forall buf, length buf = (4 * n)%nat -> words_of buf = (fun j => word_at buf (4 * Z.of_nat j)) <$> seq 0 n.
Proof.
  induction n as [|n IH]; intros buf Hl; [by destruct buf|]. destruct buf as [|b0 [|b1 [|b2 [|b3 buf]]]]; try (simpl in Hl; lia).
  cbn [words_of seq fmap list_fmap]. f_equal. rewrite (IH buf) by (simpl in Hl; lia). rewrite <- (fmap_S_seq 0 n), <- list_fmap_compose.
  apply list_fmap_ext. intros ? j _. unfold compose, word_at, byte_at.
  replace (Z.to_nat (4 * Z.of_nat (S j))) with (4 + Z.to_nat (4 * Z.of_nat j))%nat by lia.
  replace (Z.to_nat (4 * Z.of_nat (S j) + 1)) with (4 + Z.to_nat (4 * Z.of_nat j + 1))%nat by lia.
  replace (Z.to_nat (4 * Z.of_nat (S j) + 2)) with (4 + Z.to_nat (4 * Z.of_nat j + 2))%nat by lia.
  replace (Z.to_nat (4 * Z.of_nat (S j) + 3)) with (4 + Z.to_nat (4 * Z.of_nat j + 3))%nat by lia. done.
Qed.

(** All the words: the drive acts on them. *)
Lemma pio_send_app n : forall i k buf s, pio_send (B := B) (n + k) i dev buf s = bind (pio_send n i dev buf) (fun _ => pio_send k (i + Z.of_nat n) dev buf) s.
Proof.
  induction n as [|n IH]; intros i k buf s; cbn [Nat.add pio_send].
  - unfold bind, ret. by rewrite Z.add_0_r.
  - rewrite bind_assoc. destruct (xenon_ata_write_data dev XENON_ATA_REG_DATA (word_at buf (4 * i)) s) as [[] s1| | |] eqn:E; [|by unfold bind; rewrite E..].
    rewrite !(bind_ok _ _ _ _ _ E), IH. by replace (i + 1 + Z.of_nat n) with (i + Z.of_nat (S n)) by lia.
Qed.

Lemma runs_pio_send_all buf n s x : sees s x -> d_phase x = DataOut (S n) [] -> length buf = (4 * S n)%nat -> Forall is_byte buf ->
  runs (pio_send (n + 1) 0 dev buf) s (fun _ s' => sees s' (on_data L buf (x <| d_phase := Idle |>))).
Proof.
  intros Hs Hp Hl Hb. unfold runs. rewrite pio_send_app. fold (runs (bind (pio_send n 0 dev buf) (fun _ => pio_send 1 (0 + Z.of_nat n) dev buf)) s (fun _ s' => sees s' (on_data L buf (x <| d_phase := Idle |>)))).
  apply runs_bind. eapply runs_mono; [|apply (runs_pio_send buf n s x 0 1 []); [done|by rewrite Hp, Nat.add_1_r|lia]].
  intros [] s1 Hs1. cbn [pio_send]. apply runs_bind. eapply (runs_gets_the s1); [exact Hs1|]. rewrite Hbase. eexists _, _. split; [reflexivity|]. apply runs_ret.
  eapply (sees_bus s1); [exact Hs1|]. unfold XENON_ATA_REG_DATA. rewrite out32_data, (proj2 Hs1). unfold drive_data. cbn [d_phase set Nat.eqb].
  match goal with |- on_data L ?l _ = _ => replace l with buf; [done|] end.
  rewrite <- (words_bytes buf (S n)) at 1 by done. rewrite (words_at (S n)) by done. replace (S n) with (n + 1)%nat by lia.
  rewrite seq_app, fmap_app. unfold bytes_of. rewrite bind_app. cbn [app]. f_equal.
Qed.

(** Waiting, with enough fuel. *)
Context (fuel : nat) (Hfuel : (dmax < fuel)%nat).

Lemma runs_wait_ready s x (Q : unit -> ata_st D -> Prop) : sees s x -> (forall s', settled s' x -> Q tt s') -> runs (xenon_ata_wait_ready fuel dev) s Q.
Proof.
  intros Hs HQ. pose proof (ddelay_bound (bus s)). apply (runs_poll fuel s x); [done|lia|done| |done].
  unfold drive_status. by destruct (data_request _), (d_error x =? 0).
Qed.
Lemma runs_wait_busy s x (Q : unit -> ata_st D -> Prop) : sees s x -> (forall s', settled s' x -> Q tt s') -> runs (xenon_ata_wait_busy fuel dev) s Q.
Proof.
  intros Hs HQ. pose proof (ddelay_bound (bus s)). apply (runs_poll fuel s x); [done|lia|done| |done].
  unfold drive_status. by destruct (data_request _), (d_error x =? 0).
Qed.
Lemma runs_wait_drq s x (Q : unit -> ata_st D -> Prop) : sees s x -> data_request (d_phase x) = true ->
  (forall s', settled s' x -> Q tt s') -> runs (xenon_ata_wait_drq fuel dev) s Q.
Proof.
  intros Hs Hd HQ. pose proof (ddelay_bound (bus s)). apply (runs_poll fuel s x); [done|lia|done| |done].
  unfold drive_status. rewrite Hd. by destruct (d_error x =? 0).
Qed.

(** A transfer out: the drive gets the bytes; an error shows unless it is busy. *)
Lemma runs_pio_write buf n s x : sees s x -> d_phase x = DataOut (S n) [] -> length buf = (4 * S n)%nat -> Forall is_byte buf ->
  runs (xenon_ata_pio_write fuel dev buf (4 * Z.of_nat (S n))) s (fun r s' =>
    let x' := on_data L buf (x <| d_phase := Idle |>) in sees s' x' /\ (r = 0 \/ r = d_error x')).
Proof.
  intros Hs Hp Hl Hb. unfold xenon_ata_pio_write. apply runs_bind. apply (runs_wait_drq s x); [done|by rewrite Hp|]. intros s1 [Hs1 _].
  replace (Z.to_nat (4 * Z.of_nat (S n) / 4)) with (n + 1)%nat by (rewrite Z.mul_comm, Z.div_mul by lia; lia).
  apply runs_bind. eapply runs_mono; [|apply (runs_pio_send_all buf n s1 x); done]. intros [] s2 Hs2. cbv zeta. set (x' := on_data L buf _) in *.
  unfold unless_error. apply runs_bind. apply (runs_status s2 x'); [done|]. intros v s3 Hs3 Hv. destruct (nz (v .& 1)) eqn:Ev.
  - apply runs_bind. apply (runs_gets_the s3 x'); [done|]. destruct (Hs3) as [_ E]. rewrite Hbase. unfold runs at 1, load8, XENON_ATA_REG_ERROR.
    pose proof (in8_error (bus s3)) as E1. pose proof (in8_view 1 (bus s3) ltac:(lia)) as E2.
    destruct (in8 (base + 1) (bus s3)) as [w d]. cbn [fst snd] in *. eexists _, _. split; [reflexivity|]. apply runs_ret.
    split; [apply (sees_bus s3 x'); [done|congruence]|right; congruence].
  - apply runs_ret. auto.
Qed.
End runs.
