(* ===== verification/AtaDma.v ===== *)
(** * Transfers to memory: the table of regions covers the buffer

    [xenon_ata_dma_read] cuts the buffer at multiples of 64 KB; the drive
    follows the table and fills exactly the buffer. *)
From S2P Require Import Prelude Bits Sfcx SfcxFacts Ata AtaDrive.

(** ** Memory *)

Lemma put_mem_in a l m x : a <= x < a + Z.of_nat (length l) -> put_mem a l m x = nth (Z.to_nat (x - a)) l 0.
Proof. intros H. unfold put_mem. by rewrite (proj2 (Z.leb_le a x)), (proj2 (Z.ltb_lt x _)) by lia. Qed.
Lemma put_mem_out a l m x : x < a \/ a + Z.of_nat (length l) <= x -> put_mem a l m x = m x.
Proof. intros H. unfold put_mem. destruct (Z.leb_spec a x); [|done]. by rewrite (proj2 (Z.ltb_ge x _)) by lia. Qed.

Lemma le_mem_ext m m' a : (forall x, a <= x < a + 4 -> m x = m' x) -> le_mem m a = le_mem m' a.
Proof. intros H. unfold le_mem. by rewrite !H by lia. Qed.

Lemma put_be_swapped v : is_word v -> put_be (bswap32 v) = [u8 v; u8 (v .>> 8); u8 (v .>> 16); u8 (v .>> 24)].
Proof. intros H. unfold bswap32. apply put_get_be; apply is_byte_u8. Qed.

Lemma le_mem_put a v m : is_word v -> le_mem (put_mem a (put_be (bswap32 v)) m) a = v.
Proof.
  intros Hv. unfold le_mem. rewrite put_be_swapped by done.
  rewrite !put_mem_in by (cbn [length]; lia).
  replace (Z.to_nat (a - a)) with 0%nat by lia. replace (Z.to_nat (a + 1 - a)) with 1%nat by lia.
  replace (Z.to_nat (a + 2 - a)) with 2%nat by lia. replace (Z.to_nat (a + 3 - a)) with 3%nat by lia.
  cbn [nth]. by apply get_put_be.
Qed.

Lemma phys_mod a : phys a = a mod 2 ^ 31.
Proof. unfold phys. change 0x7fffffff with (Z.ones 31). by rewrite Z.land_ones. Qed.
Lemma phys_add a k : 0 <= k -> phys a + k < 2 ^ 31 -> phys (u32 (a + k)) = phys a + k.
Proof.
  intros Hk H. rewrite !phys_mod in *. unfold u32. pose proof (Z.mod_pos_bound a (2 ^ 31) ltac:(lia)).
  rewrite <- (Z.mod_small (a mod 2 ^ 31 + k) (2 ^ 31)) by lia. rewrite Zplus_mod_idemp_l.
  symmetry. apply Znumtheory.Zmod_div_mod; [lia..|]. by exists 2.
Qed.

(** ** The regions *)

(** The buffer of [s] bytes at [b], cut at multiples of 64 KB. *)
Fixpoint regions (n : nat) (s b : Z) : list (Z * Z) :=
  match n with
  | O => []
  | S n => if s <=? 0 then [] else let ss := Z.min s (0x10000 - b mod 0x10000) in (b, ss) :: regions n (s - ss) (b + ss)
  end.

(** How many are needed. *)
Definition room (n : nat) (s b : Z) : Prop := b mod 0x10000 + s <= Z.of_nat n * 0x10000.

Lemma room_step n s b : room (S n) s b -> let ss := Z.min s (0x10000 - b mod 0x10000) in 0 < s - ss -> room n (s - ss) (b + ss).
Proof.
  unfold room. cbv zeta. intros H Hs. pose proof (Z.mod_pos_bound b 0x10000 ltac:(lia)) as Hb.
  replace (Z.min s (0x10000 - b mod 0x10000)) with (0x10000 - b mod 0x10000) in * by lia.
  replace (b + (0x10000 - b mod 0x10000)) with ((b / 0x10000 + 1) * 0x10000) by (pose proof (Z.div_mod b 0x10000 ltac:(lia)); lia).
  rewrite Z_mod_mult. lia.
Qed.

Lemma regions_nil n s b : s <= 0 -> regions n s b = [].
Proof. destruct n; [done|]. cbn [regions]. intros H. by rewrite (proj2 (Z.leb_le s 0)). Qed.

Lemma total_regions n : forall s b, 0 <= s -> room n s b -> total (regions n s b) = s.
Proof.
  induction n as [|n IH]; intros s b Hs Hr; pose proof (Z.mod_pos_bound b 0x10000 ltac:(lia)) as Hb.
  - unfold room in Hr. cbn. lia.
  - cbn [regions]. destruct (Z.leb_spec s 0); [cbn; lia|]. set (ss := Z.min _ _). cbn [total fold_right snd].
    fold (total (regions n (s - ss) (b + ss))). destruct (Z.leb_spec (s - ss) 0).
    + rewrite regions_nil by lia. cbn. lia.
    + rewrite IH; [lia|lia|]. apply room_step; [done|]. fold ss. lia.
Qed.

Lemma scatter_regions n : forall s b l m y, Z.of_nat (length l) = s -> room n s b ->
  scatter (regions n s b) l m y = put_mem b l m y.
Proof.
  induction n as [|n IH]; intros s b l m y Hl Hr; pose proof (Z.mod_pos_bound b 0x10000 ltac:(lia)) as Hb.
  - unfold room in Hr. cbn [regions scatter]. rewrite put_mem_out; [done|lia].
  - cbn [regions]. destruct (Z.leb_spec s 0).
    { cbn [scatter]. rewrite put_mem_out; [done|lia]. }
    set (ss := Z.min _ _). cbn [scatter]. assert (0 < ss <= s) as Hss by (unfold ss; lia).
    destruct (Z.leb_spec (s - ss) 0) as [Hz|Hz].
    + rewrite regions_nil by lia. cbn [scatter]. rewrite take_ge by lia. done.
    + rewrite IH; [|rewrite length_drop; lia|apply room_step; [done|fold ss; lia]].
      assert (length (take (Z.to_nat ss) l) = Z.to_nat ss) as Ht by (rewrite length_take; lia).
      destruct (decide (b <= y < b + s)) as [Hy|Hy].
      * rewrite (put_mem_in b l) by lia. destruct (Z.ltb_spec y (b + ss)).
        -- rewrite put_mem_out by lia. rewrite put_mem_in by lia. rewrite <- (take_drop (Z.to_nat ss) l) at 2. by rewrite app_nth1 by lia.
        -- rewrite put_mem_in by (rewrite length_drop; lia). rewrite <- (take_drop (Z.to_nat ss) l) at 2. rewrite app_nth2 by lia. f_equal. lia.
      * rewrite (put_mem_out b l) by lia. rewrite put_mem_out by (rewrite length_drop; lia). rewrite put_mem_out by lia. done.
Qed.

(** ** Entries of the table *)

Lemma land_ffff x : x .& 0xffff = x mod 0x10000.
Proof. change 0xffff with (Z.ones 16). by rewrite Z.land_ones. Qed.

Definition flags_of (ss : Z) (last : bool) : Z := (ss .& 0xffff) .| (if last then 0x80000000 else 0).
Lemma flags_low ss last : flags_of ss last .& 0xffff = ss mod 0x10000.
Proof.
  unfold flags_of. rewrite Z.land_lor_distr_l, <- Z.land_assoc, Z.land_diag, land_ffff. destruct last; [|by rewrite Z.lor_0_r].
  change (0x80000000 .& 0xffff) with 0. by rewrite Z.lor_0_r.
Qed.
Lemma flags_last ss last : Z.testbit (flags_of ss last) 31 = last.
Proof.
  unfold flags_of. rewrite Z.lor_spec, Z.land_spec. change (Z.testbit 0xffff 31) with false. rewrite andb_false_r. by destruct last.
Qed.
Lemma flags_word ss last : is_word (flags_of ss last).
Proof. unfold flags_of. apply is_word_lor; [by apply is_word_land|by destruct last]. Qed.
Lemma flags_length ss last : 0 < ss <= 0x10000 ->
  (if (flags_of ss last .& 0xffff) =? 0 then 0x10000 else flags_of ss last .& 0xffff) = ss.
Proof.
  intros H. rewrite flags_low. destruct (Z.eqb_spec (ss mod 0x10000) 0) as [E|E].
  - destruct (decide (ss = 0x10000)); [done|]. rewrite Z.mod_small in E; lia.
  - destruct (decide (ss = 0x10000)) as [->|]; [done|]. apply Z.mod_small. lia.
Qed.

(** The first entry of a table, when the memory behind it is as it was left. *)
Lemma prd_entry k m T b ss last : 0 < ss <= 0x10000 -> is_word b ->
  le_mem m T = b -> le_mem m (T + 4) = flags_of ss last ->
  prd_table (S k) m T = (b, ss) :: (if last then [] else prd_table k m (T + 8)).
Proof. intros Hs Hb E1 E2. cbn [prd_table]. by rewrite E1, E2, flags_length, flags_last by done. Qed.

Lemma bswap_bswap v : is_word v -> bswap32 (bswap32 v) = v.
Proof.
  intros H. unfold bswap32 at 2. rewrite bswap_get_be by apply is_byte_u8. by apply get_put_be.
Qed.

(** ** Running the transfer *)

Section dma.
Context {D U : Type} {B : AtaBus D} {L : logic U} {base base2 : Z} {LW : DriveLaws D U L base base2}.
Context (dev : port) (c : xenon_ata_device).
Hypothesis Hbase : ioaddress c = base.
Hypothesis Hbase2 : ioaddress2 c = base2.
(** The table lies in memory. *)
Hypothesis Htable : phys (prds c) + 128 <= 2 ^ 31.
Implicit Types (s : ata_st D) (x : drive U).
Local Abbreviation sees := (sees (LW := LW) dev c).
Local Abbreviation settled := (settled (LW := LW) dev c).
Local Abbreviation T := (phys (prds c)).

Lemma runs_mem32 a w s x (Q : unit -> ata_st D -> Prop) : sees s x ->
  (forall s', sees s' (x <| d_mem ::= put_mem (phys a) (put_be w) |>) -> Q tt s') -> runs (mem32 a w) s Q.
Proof.
  intros Hs HQ. eexists _, _. split; [reflexivity|]. apply HQ. destruct (Hs) as [_ E].
  apply (sees_bus dev c s x); [done|]. by rewrite poke_view, E.
Qed.

Lemma runs_build n : forall i size b s x, sees s x -> 0 <= i -> 0 < size -> 0 <= b -> b + size <= 2 ^ 31 ->
  room (Z.to_nat (16 - i)) size b -> (Z.to_nat (16 - i) < n)%nat ->
  runs (build_prds n dev i size b) s (fun r s' => r = true /\ exists m, sees s' (x <| d_mem := m |>) /\
    (forall a, a < T + 8 * i \/ T + 128 <= a -> m a = d_mem x a) /\
    forall k, (16 - i <= Z.of_nat k) -> prd_table k m (T + 8 * i) = regions (Z.to_nat (16 - i)) size b).
Proof.
  induction n as [|n IH]; intros i size b s x Hs Hi Hsize Hb Hbs Hr Hn; [lia|].
  pose proof (Z.mod_pos_bound b 0x10000 ltac:(lia)) as Hm.
  assert (0 < 16 - i) as Hi16 by (unfold room in Hr; lia).
  assert (exists j, Z.to_nat (16 - i) = S j) as (j & Ej) by (exists (Z.to_nat (15 - i)); lia). rewrite Ej in *.
  cbn [build_prds]. cbv zeta. rewrite (proj2 (Z.leb_gt size 0)) by lia. apply (runs_gets_the dev c s x); [done|]. rewrite !(land_ffff b).
  assert (forall a, phys a >= 0) as Hp by (intros a; rewrite phys_mod; pose proof (Z.mod_pos_bound a (2 ^ 31) ltac:(lia)); lia).
  set (ss := Z.min size (0x10000 - b mod 0x10000)). assert (0 < ss <= 0x10000 /\ ss <= size) as Hss by (unfold ss; lia).
  apply runs_bind. apply (runs_mem32 _ _ s x); [done|]. intros s1 Hs1. apply runs_bind. eapply runs_mem32; [exact Hs1|]. intros s2 Hs2.
  rewrite (u32_small (b + ss)) by lia. replace (prds c + 8 * i + 4) with (prds c + (8 * i + 4)) in Hs2 by lia. rewrite !phys_add in Hs2 by lia.
  set (last := negb (0 <? size - ss)).
  assert (((ss .& 0xffff) .| (if 0 <? size - ss then 0 else 0x80000000)) = flags_of ss last) as Ef by (unfold flags_of, last; by destruct (0 <? _)).
  rewrite Ef in Hs2. set (m1 := put_mem (T + (8 * i + 4)) (put_be (bswap32 (flags_of ss last))) (put_mem (T + 8 * i) (put_be (bswap32 b)) (d_mem x))).
  assert (sees s2 (x <| d_mem := m1 |>)) as Hs2' by exact Hs2. clear Hs2.
  assert (le_mem m1 (T + 8 * i) = b) as M1.
  { rewrite (le_mem_ext _ (put_mem (T + 8 * i) (put_be (bswap32 b)) (d_mem x))); [apply le_mem_put; split; lia|].
    intros y Hy. apply put_mem_out. lia. }
  assert (le_mem m1 (T + 8 * i + 4) = flags_of ss last) as M2.
  { replace (T + 8 * i + 4) with (T + (8 * i + 4)) by lia. apply le_mem_put, flags_word. }
  assert (forall a, a < T + 8 * i \/ T + 8 * i + 8 <= a -> m1 a = d_mem x a) as M3.
  { intros a Ha. unfold m1. rewrite !put_mem_out by (cbn [length put_be]; lia). done. }
  assert (is_word b) as Hw by (split; lia).
  replace (regions (S j) size b) with ((b, ss) :: regions j (size - ss) (b + ss)) by (cbn [regions]; by rewrite (proj2 (Z.leb_gt size 0)) by lia).
  destruct (Z.ltb_spec 0 (size - ss)) as [Hz|Hz]; subst last; cbn [negb] in *.
  - pose proof (room_step j size b Hr Hz) as Hr'. fold ss in Hr'. assert (MAX_PRDS <=? i + 1 = false) as ->.
    { apply Z.leb_gt. unfold MAX_PRDS, room in *. pose proof (Z.mod_pos_bound (b + ss) 0x10000 ltac:(lia)). lia. }
    cbn [andb]. assert (Z.to_nat (16 - (i + 1)) = j) as Ej' by lia.
    eapply runs_mono; [|apply (IH (i + 1) (size - ss) (b + ss) s2 _ Hs2'); try lia; by rewrite Ej'].
    intros r s' (-> & m & Hs' & Hout & Hk). split; [done|]. exists m. split; [exact Hs'|]. split.
    + intros a Ha. rewrite Hout by lia. apply M3. lia.
    + assert (le_mem m (T + 8 * i) = b) as N1 by (rewrite <- M1; apply le_mem_ext; intros y Hy; apply Hout; lia).
      assert (le_mem m (T + 8 * i + 4) = flags_of ss false) as N2 by (rewrite <- M2; apply le_mem_ext; intros y Hy; apply Hout; lia).
      intros [|k] Hk'; [lia|]. rewrite (prd_entry k m (T + 8 * i) b ss false) by (done || lia).
      f_equal. rewrite <- Ej'. replace (T + 8 * i + 8) with (T + 8 * (i + 1)) by lia. apply Hk. lia.
  - rewrite andb_false_r. destruct n as [|n]; [lia|]. cbn [build_prds]. rewrite (proj2 (Z.leb_le (size - ss) 0)) by lia.
    apply runs_ret. split; [done|]. exists m1. split; [done|]. split; [intros a Ha; apply M3; lia|].
    intros [|k] Hk'; [lia|]. rewrite (prd_entry k m1 (T + 8 * i) b ss true) by (done || lia). by rewrite regions_nil by lia.
Qed.
Lemma runs_regset2 r v s x (Q : unit -> ata_st D -> Prop) : sees s x -> r = 0 \/ r = 2 ->
  (forall s', sees s' (dma_write r (u8 v) x) -> Q tt s') -> runs (xenon_ata_regset2 dev r v) s Q.
Proof.
  intros Hs Hr HQ. apply (runs_gets_the dev c s x); [done|]. eexists _, _. split; [reflexivity|]. apply HQ. rewrite Hbase2.
  destruct (Hs) as [_ E]. apply (sees_bus dev c s x); [done|]. by rewrite out8_dma, E.
Qed.

Lemma runs_dma_status s x {A} (k : Z -> M (ata_st D) A) Q : sees s x ->
  (forall s', sees s' x -> ddelay (bus s') = pred (ddelay (bus s)) ->
    runs (k ((if Nat.eqb (ddelay (bus s)) 0 then 0 else 1) + (if d_dmaerr x then 2 else 0))) s' Q) ->
  runs (bind (xenon_ata_regget2 dev XENON_ATA_DMA_STATUS) k) s Q.
Proof.
  intros Hs HQ. apply runs_bind. apply (runs_gets_the dev c s x); [done|]. destruct (Hs) as [_ E]. rewrite Hbase2. unfold runs at 1, load8, XENON_ATA_DMA_STATUS.
  pose proof (in8_dma (bus s)) as (E1 & E2 & E3). destruct (in8 (base2 + 2) (bus s)) as [v d]. cbn [fst snd] in *. eexists _, _. split; [reflexivity|].
  rewrite E1, E. apply HQ; [|done]. apply (sees_bus dev c s x); [done|congruence].
Qed.

Lemma runs_dma_wait n : forall s x (Q : unit -> ata_st D -> Prop), sees s x -> (ddelay (bus s) < n)%nat -> (forall s', sees s' x -> Q tt s') ->
  runs (poll n (xenon_ata_regget2 dev XENON_ATA_DMA_STATUS) (fun v => negb (nz (v .& XENON_ATA_DMA_ACTIVE)))) s Q.
Proof.
  induction n as [|n IH]; intros s x Q Hs Hn HQ; [lia|]. cbn [poll]. apply (runs_dma_status s x); [done|]. intros s' Hs' Hd.
  destruct (Nat.eqb_spec (ddelay (bus s)) 0) as [H0|H0]; destruct (d_dmaerr x); cbn; try (by apply runs_ret, HQ); apply (IH s' x); try done; lia.
Qed.

Lemma dma_no_error n (P R : M (ata_st D) Z) s Q : runs R s Q ->
  runs (if nz (((if Nat.eqb n 0 then 0 else 1) + (if false then 2 else 0)) .& XENON_ATA_DMA_ERR) then P else R) s Q.
Proof. by destruct (Nat.eqb n 0). Qed.

Definition apart (a n b k : Z) : Prop := a + n <= b \/ b + k <= a.

(** A buffer the transfer can take. *)
Record buffer_ok (buf size : Z) : Prop := mkBufOk {
  buf_aligned : buf .& 3 = 0;
  buf_memory : phys buf + size <= 2 ^ 31;
  buf_entries : phys buf mod 0x10000 + size <= 16 * 0x10000;
  buf_apart : apart (phys buf) size T 128
}.

(** What a transfer of [l] leaves: the bytes in the buffer, all else but the table as it was. *)
Definition filled (x x' : drive U) (buf : Z) (l : list Z) : Prop :=
  d_unit x' = d_unit x /\ d_error x' = 0 /\ d_phase x' = Idle /\
  get_mem (d_mem x') (phys buf) (length l) = l /\
  forall a, a < phys buf \/ phys buf + Z.of_nat (length l) <= a -> a < T \/ T + 128 <= a -> d_mem x' a = d_mem x a.

Lemma get_put_mem a l m m' : (forall y, m' y = put_mem a l m y) -> get_mem m' a (length l) = l.
Proof.
  intros E. apply list_eq. intros i. unfold get_mem. rewrite list_lookup_fmap. destruct (decide (i < length l)%nat) as [Hi|Hi].
  - rewrite lookup_seq_lt by done. cbn. rewrite E, put_mem_in by lia. replace (Z.to_nat (a + Z.of_nat i - a)) with i by lia.
    symmetry. destruct (nth_lookup_or_length l i 0); [done|lia].
  - rewrite lookup_seq_ge by lia. symmetry. apply lookup_ge_None_2. lia.
Qed.

Context (fuel : nat) (Hfuel : (dmax < fuel)%nat).

Lemma runs_dma_read buf size l s x : settled s x -> d_error x = 0 -> d_phase x = DmaIn l -> Z.of_nat (length l) = size -> 0 < size -> buffer_ok buf size ->
  runs (xenon_ata_dma_read fuel dev buf size) s (fun r s' => r = 0 /\ exists x', sees s' x' /\ filled x x' buf l).
Proof.
  intros Hs He Hp Hl Hsize [A1 A2 A3 A4]. unfold xenon_ata_dma_read. rewrite A1. cbn [nz Z.eqb negb].
  apply (runs_no_error0 dev c Hbase _ _ s x); [done..|]. intros s1 [Hs1 _]. fold (phys buf).
  assert (0 <= phys buf) as Hb by (rewrite phys_mod; apply Z.mod_pos_bound; lia).
  apply runs_bind. eapply runs_mono; [|apply (runs_build (Z.to_nat MAX_PRDS + 1) 0 size (phys buf) s1 x Hs1);
    [lia..|unfold room; change (Z.of_nat (Z.to_nat (16 - 0))) with 16; lia|unfold MAX_PRDS; lia]].
  intros r s2 (-> & m & Hs2 & Hout & Htab). cbn [negb]. eapply (runs_gets_the dev c s2); [exact Hs2|].
  apply runs_bind. eapply (runs_gets_the dev c s2); [exact Hs2|]. eexists _, _. split; [reflexivity|].
  assert (sees (s2 <| bus ::= out32 (ioaddress2 c + XENON_ATA_DMA_TABLE_OFS) (bswap32 (prds c .& 0x7fffffff)) |>) (x <| d_mem := m |> <| d_table := T |>)) as Hs3.
  { eapply (sees_bus dev c s2); [exact Hs2|]. rewrite Hbase2. unfold XENON_ATA_DMA_TABLE_OFS. rewrite out32_dma, (proj2 Hs2).
    replace (bswap32 (bswap32 _)) with T; [done|]. fold (phys (prds c)). rewrite bswap_bswap; [done|]. rewrite phys_mod. pose proof (Z.mod_pos_bound (prds c) (2 ^ 31) ltac:(lia)). split; lia. }
  set (s3 := s2 <| bus ::= _ |>) in *.
  apply runs_bind. apply (runs_regset2 _ _ _ _ _ Hs3); [by left|]. intros s4 Hs4.
  apply runs_bind. apply (runs_regset2 _ _ _ _ _ Hs4); [by right|]. intros s5 Hs5.
  apply runs_bind. apply (runs_regset2 _ _ _ _ _ Hs5); [by left|]. intros s6 Hs6.
  set (x5 := x <| d_mem := m |> <| d_table := T |> <| d_dmaerr := false |>). change (sees s6 (dma_start x5)) in Hs6.
  assert (room (Z.to_nat (16 - 0)) size (phys buf)) as Hroom by (unfold room; change (Z.of_nat (Z.to_nat (16 - 0))) with 16; lia).
  assert (prd_table max_table m T = regions (Z.to_nat (16 - 0)) size (phys buf)) as Et.
  { rewrite <- Htab with (k := max_table); [by rewrite Z.mul_0_r, Z.add_0_r|unfold max_table; lia]. }
  assert (total (regions (Z.to_nat (16 - 0)) size (phys buf)) = size) as Etot by (apply total_regions; [lia|done]).
  pose proof (fun y => scatter_regions (Z.to_nat (16 - 0)) size (phys buf) l m y Hl Hroom) as Hm'.
  revert Et Etot Hm'. generalize (regions (Z.to_nat (16 - 0)) size (phys buf)). intros rs Et Etot Hm'.
  set (m' := scatter rs l m) in Hm'.
  assert (dma_start x5 = x5 <| d_mem := m' |> <| d_phase := Idle |>) as Est.
  { unfold dma_start. change (d_phase x5) with (d_phase x). rewrite Hp. change (d_mem x5) with m. change (d_table x5) with T.
    rewrite Et. cbv zeta. by rewrite Etot, Hl, Z.eqb_refl. }
  rewrite Est in Hs6. apply runs_bind. pose proof (ddelay_bound (bus s6)). apply (runs_dma_wait fuel _ _ _ Hs6); [lia|]. intros s7 Hs7.
  apply runs_bind. apply (runs_regset2 _ _ _ _ _ Hs7); [by left|]. intros s8 Hs8.
  match type of Hs8 with sees _ ?y => set (x8 := y) in Hs8 end.
  apply (runs_dma_status s8 x8); [done|]. intros s9 Hs9 _. change (d_dmaerr x8) with false.
  apply dma_no_error.
  apply (runs_no_error dev c Hbase _ _ s9 x8); [done|done|]. intros s10 Hs10. apply runs_ret. split; [done|]. exists x8. split; [done|].
  split; [done|]. split; [done|]. split; [done|]. split; [by apply (get_put_mem _ _ m)|].
  intros a H1 H2. change (m' a = d_mem x a). rewrite Hm', put_mem_out by done. apply Hout. lia.
Qed.

(** Where the drive reports an error, nothing is transferred. *)
Lemma runs_dma_error buf size s x : settled s x -> d_error x <> 0 -> buf .& 3 = 0 ->
  runs (xenon_ata_dma_read fuel dev buf size) s (fun r s' => r = d_error x /\ sees s' x).
Proof.
  intros Hs He Ha. unfold xenon_ata_dma_read. rewrite Ha. cbn [nz Z.eqb negb]. apply (runs_error dev c Hbase _ _ s x); [done..|]. by intros s' Hs'.
Qed.
End dma.
