(* ===== verification/AtaFacts.v ===== *)
(** * The hard disk: what is written is read back, and errors are not noticed *)
From S2P Require Import Prelude Bits Sfcx SfcxFacts Ata AtaDrive AtaDma.

(** ** A hard disk *)

Record disk := mkDisk {
  dk_sectors : Z;            (* how many *)
  dk_data : Z -> list Z;
  dk_info : list Z;          (* the answer to IDENTIFY *)
  dk_at : Z;                 (* the sector being written, and how many are left *)
  dk_left : Z
}.
#[global] Instance eta_disk : Eta disk := fun r => mkDisk (dk_sectors r) (dk_data r) (dk_info r) (dk_at r) (dk_left r).

(** The 48-bit address and the count, from the registers and their older values. *)
Definition lba48 {U} (x : drive U) : Z :=
  d_reg x 3 + 2 ^ 8 * (d_reg x 4 + 2 ^ 8 * (d_reg x 5 + 2 ^ 8 * (d_hob x 3 + 2 ^ 8 * (d_hob x 4 + 2 ^ 8 * d_hob x 5)))).
Definition count48 {U} (x : drive U) : Z :=
  let n := d_reg x 2 + 2 ^ 8 * d_hob x 2 in if n =? 0 then 65536 else n.

Definition sectors_from (f : Z -> list Z) (a n : Z) : list Z :=
  concat ((fun i => f (a + Z.of_nat i)) <$> seq 0 (Z.to_nat n)).

Definition disk_command (v : Z) (x : drive disk) : drive disk :=
  let a := lba48 x in let n := count48 x in
  let x := x <| d_phase := Idle |> <| d_error := 0 |> in
  let inside := a + n <=? dk_sectors (d_unit x) in
  if v =? XENON_ATA_CMD_READ_DMA_EXT then
    if inside then x <| d_phase := DmaIn (sectors_from (dk_data (d_unit x)) a n) |> else x <| d_error := 0x10 |>
  else if v =? XENON_ATA_CMD_WRITE_SECTORS_EXT then
    if inside then x <| d_phase := DataOut 128 [] |> <| d_unit ::= set dk_at (fun _ => a) |> <| d_unit ::= set dk_left (fun _ => n) |>
    else x <| d_error := 0x10 |>
  else if v =? XENON_ATA_CMD_IDENTIFY_DEVICE then x <| d_phase := DataIn (words_of (dk_info (d_unit x))) |>
  else x <| d_error := 4 |>.

Definition disk_store (l : list Z) (x : drive disk) : drive disk :=
  let u := d_unit x in
  let u := u <| dk_data ::= fun f k => if k =? dk_at u then l else f k |> <| dk_at ::= fun k => k + 1 |> <| dk_left ::= fun n => n - 1 |> in
  x <| d_unit := u |> <| d_phase := if dk_left u =? 0 then Idle else DataOut 128 [] |>.
Definition disk_logic : logic disk := mkLogic disk_command disk_store.

(** ** Addresses *)

Section address.
Context {D U : Type} {B : AtaBus D} {L : logic U} {base base2 : Z} {LW : DriveLaws D U L base base2}.
Context (dev : port) (c : xenon_ata_device) (Hbase : ioaddress c = base) (fuel : nat) (Hfuel : (dmax < fuel)%nat).
Implicit Types (s : ata_st D) (x : drive U).
Local Abbreviation sees := (sees (LW := LW) dev c).

(** Only registers differ. *)
Definition same_inside x x' : Prop := d_unit x' = d_unit x /\ d_mem x' = d_mem x.

Definition set_lba (sector n : Z) x : drive U :=
  set_reg 5 (u8 ((sector .>> 16) .& 0xFF)) (set_reg 4 (u8 ((sector .>> 8) .& 0xFF)) (set_reg 3 (u8 (sector .& 0xFF)) (set_reg 2 (u8 n) x))).

Lemma runs_setlba sector n s x (Q : unit -> ata_st D -> Prop) : sees s x -> (forall s', sees s' (set_lba sector n x) -> Q tt s') ->
  runs (xenon_ata_setlba dev sector n) s Q.
Proof.
  intros Hs HQ. unfold xenon_ata_setlba, XENON_ATA_REG_SECTORS, XENON_ATA_REG_LBALOW, XENON_ATA_REG_LBAMID, XENON_ATA_REG_LBAHIGH.
  apply runs_bind. eapply (runs_regset dev c Hbase); [exact Hs|lia|]. intros s1 H1.
  apply runs_bind. eapply (runs_regset dev c Hbase); [exact H1|lia|]. intros s2 H2.
  apply runs_bind. eapply (runs_regset dev c Hbase); [exact H2|lia|]. intros s3 H3.
  eapply (runs_regset dev c Hbase); [exact H3|lia|]. exact HQ.
Qed.

Lemma u8_ff z : u8 (z .& 0xFF) = z mod 2 ^ 8.
Proof. rewrite land_ff. unfold u8. apply Z.mod_mod. lia. Qed.

(** Six bytes, taken with the sign of a 32-bit number. *)
Lemma bytes48 z : z mod 2 ^ 8 + 2 ^ 8 * ((z .>> 8) mod 2 ^ 8 + 2 ^ 8 * ((z .>> 16) mod 2 ^ 8 + 2 ^ 8 *
  ((z .>> 24) mod 2 ^ 8 + 2 ^ 8 * (((z .>> 24) .>> 8) mod 2 ^ 8 + 2 ^ 8 * (((z .>> 24) .>> 16) mod 2 ^ 8))))) = z mod 2 ^ 48.
Proof.
  rewrite !Z.shiftr_shiftr, !Z.shiftr_div_pow2 by lia. change (24 + 8) with 32. change (24 + 16) with 40.
  assert (forall k, 0 <= k -> forall j, 0 <= j -> (z / 2 ^ k) mod 2 ^ (8 + j) = (z / 2 ^ k) mod 2 ^ 8 + 2 ^ 8 * ((z / 2 ^ (k + 8)) mod 2 ^ j)) as E.
  { intros k Hk j Hj. rewrite Z.pow_add_r, Z.rem_mul_r by lia. rewrite Z.div_div, <- Z.pow_add_r by lia. done. }
  rewrite <- (Z.div_1_r z) at 1 7. change 1 with (2 ^ 0). change (2 ^ 48) with (2 ^ (8 + 40)). rewrite (E 0) by lia. f_equal. f_equal. 
  change (2 ^ 40) with (2 ^ (8 + 32)). rewrite (E (0 + 8)) by lia. f_equal. f_equal.
  change (2 ^ 32) with (2 ^ (8 + 24)) at 2. rewrite (E (0 + 8 + 8)) by lia. f_equal. f_equal.
  change (2 ^ 24) with (2 ^ (8 + 16)) at 2. rewrite (E (0 + 8 + 8 + 8)) by lia. f_equal. f_equal.
  change (2 ^ 16) with (2 ^ (8 + 8)) at 1. rewrite (E (0 + 8 + 8 + 8 + 8)) by lia. done.
Qed.

(** The drive is told the sector, taken as a number of 48 bits, and the count. *)
Lemma runs_setaddress sector n s x : sees s x -> addressing_mode c = XENON_ATA_LBA48 -> 1 <= n <= 65536 ->
  runs (xenon_ata_setaddress fuel dev sector n) s (fun r s' => r = 0 /\ exists x', sees s' x' /\ same_inside x x' /\
    lba48 x' = sector mod 2 ^ 48 /\ count48 x' = n).
Proof.
  intros Hs Hmode Hn. unfold xenon_ata_setaddress. apply runs_bind. apply (runs_wait_busy dev c Hbase fuel Hfuel s x); [done|]. intros s1 [Hs1 _].
  apply (runs_gets_the dev c s1 x); [done|]. rewrite Hmode. change (XENON_ATA_LBA48 =? XENON_ATA_CHS) with false. change (XENON_ATA_LBA48 =? XENON_ATA_LBA) with false.
  change (XENON_ATA_LBA48 =? XENON_ATA_LBA48) with true. cbn iota zeta. set (k := if n =? 65536 then 0 else n).
  apply runs_bind. apply (runs_setlba _ _ s1 x); [done|]. intros s2 Hs2. apply runs_bind. eapply runs_setlba; [exact Hs2|]. intros s3 Hs3.
  apply runs_bind. unfold XENON_ATA_REG_DISK. eapply (runs_regset dev c Hbase); [exact Hs3|lia|]. intros s4 Hs4. apply runs_ret. split; [done|].
  eexists. split; [exact Hs4|]. split; [done|]. split.
  - unfold lba48. cbn -[u8 Z.mul Z.add Z.pow Z.shiftr Z.modulo Z.land]. rewrite !u8_ff. apply bytes48.
  - unfold count48. match goal with |- context [d_reg ?y 2] => change (d_reg y 2) with (u8 k); change (d_hob y 2) with (u8 (k .>> 8)) end. rewrite Z.shiftr_div_pow2 by lia. unfold u8, k.
    destruct (Z.eqb_spec n 65536) as [->|Hne]; [done|]. rewrite (Z.mod_small (n / 2 ^ 8)) by (split; [apply Z.div_pos; lia|apply Z.div_lt_upper_bound; lia]).
    pose proof (Z.div_mod n (2 ^ 8) ltac:(lia)). destruct (Z.eqb_spec (n mod 2 ^ 8 + 2 ^ 8 * (n / 2 ^ 8)) 0); lia.
Qed.
End address.

(** ** Sectors *)

(** Every sector has 512 bytes. *)
Definition disk_ok (u : disk) : Prop := forall k, length (dk_data u k) = 512%nat.

Lemma length_sectors f a n : (forall k, length (f k) = 512%nat) -> 0 <= n -> Z.of_nat (length (sectors_from f a n)) = 512 * n.
Proof.
  intros Hf Hn. unfold sectors_from. assert (forall l, length (concat ((fun i => f (a + Z.of_nat i)) <$> l)) = (512 * length l)%nat) as E.
  { induction l as [|i l IH]; [done|]. cbn [fmap list_fmap concat length]. rewrite length_app, IH, Hf. lia. }
  rewrite E, length_seq. lia.
Qed.

Lemma sectors_from_ext f g a n : (forall k, a <= k < a + n -> f k = g k) -> sectors_from f a n = sectors_from g a n.
Proof.
  intros H. unfold sectors_from. f_equal. apply list_fmap_ext. intros i j Hj%lookup_seq. apply H. lia.
Qed.

(** The sectors of a buffer are the buffer. *)
Definition sector_of (buf : list Z) (i : Z) : list Z := take 512 (drop (Z.to_nat (512 * i)) buf).
Lemma sectors_of_buffer n : forall buf a, length buf = (512 * n)%nat -> sectors_from (fun k => sector_of buf (k - a)) a (Z.of_nat n) = buf.
Proof.
  unfold sectors_from. intros buf a Hl. rewrite Nat2Z.id. revert buf Hl. induction n as [|n IH]; intros buf Hl; [by destruct buf|].
  cbn [seq fmap list_fmap concat]. unfold sector_of at 1. rewrite Z.add_0_r, Z.sub_diag. change (Z.to_nat (512 * 0)) with 0%nat. rewrite drop_0.
  transitivity (take 512 buf ++ drop 512 buf); [f_equal|apply take_drop]. etransitivity; [|apply (IH (drop 512 buf)); rewrite length_drop; lia]. f_equal.
  rewrite <- (fmap_S_seq 0 n), <- list_fmap_compose. apply list_fmap_ext. intros ? j _. unfold compose, sector_of. rewrite drop_drop. do 2 f_equal. lia.
Qed.

Section disk.
Context {D : Type} {B : AtaBus D} {base base2 : Z} {LW : DriveLaws D disk disk_logic base base2}.
Context (fuel : nat) (Hfuel : (dmax < fuel)%nat) (c : xenon_ata_device).
Hypothesis Hbase : ioaddress c = base.
Hypothesis Hbase2 : ioaddress2 c = base2.
Hypothesis Hmode : addressing_mode c = XENON_ATA_LBA48.
Hypothesis Htable : phys (prds c) + 128 <= 2 ^ 31.
Implicit Types (s : ata_st D) (x : drive disk).
Local Abbreviation sees := (sees (LW := LW) Ata c).
Local Abbreviation settled := (settled (LW := LW) Ata c).

(** A command: the drive acts on the address and is then waited for. *)
Lemma runs_command sector n cmd s x : sees s x -> 1 <= n <= 65536 -> 0 <= cmd < 256 ->
  runs (xenon_ata_setaddress fuel Ata sector n ;; xenon_ata_regset Ata XENON_ATA_REG_CMD cmd ;; xenon_ata_wait_ready fuel Ata) s
    (fun _ s' => exists x', settled s' (disk_command cmd x') /\ same_inside x x' /\ lba48 x' = sector mod 2 ^ 48 /\ count48 x' = n).
Proof.
  intros Hs Hn Hcmd. apply runs_bind. eapply runs_mono; [|by apply (runs_setaddress Ata c Hbase fuel Hfuel sector n s x)].
  intros r s1 (_ & x' & Hs1 & Hin & Ha & Hc). apply runs_bind. unfold XENON_ATA_REG_CMD. eapply (runs_regset Ata c Hbase); [exact Hs1|lia|].
  intros s2 Hs2. eapply (runs_wait_ready Ata c Hbase fuel Hfuel); [exact Hs2|]. intros s3 Hs3. exists x'. rewrite u8_small in Hs3 by done. done.
Qed.

(** The first three statements of both functions. *)
Lemma command_bind {A} sector n cmd (k : unit -> M (ata_st D) A) s :
  (xenon_ata_setaddress fuel Ata sector n ;; xenon_ata_regset Ata XENON_ATA_REG_CMD cmd ;; w <- xenon_ata_wait_ready fuel Ata ;; k w) s =
  bind (xenon_ata_setaddress fuel Ata sector n ;; xenon_ata_regset Ata XENON_ATA_REG_CMD cmd ;; xenon_ata_wait_ready fuel Ata) k s.
Proof.
  rewrite bind_assoc. unfold bind at 1 4. destruct (xenon_ata_setaddress fuel Ata sector n s) as [r s1| | |]; [|done..]. by rewrite bind_assoc.
Qed.

Lemma runs_read_sectors start n buf s x : sees s x -> disk_ok (d_unit x) -> 0 <= start < 2 ^ 31 -> 1 <= n -> start + n <= dk_sectors (d_unit x) ->
  buffer_ok c buf (512 * n) ->
  runs (xenon_ata_read_sectors fuel start n buf) s (fun r s' => r = n /\ exists x', sees s' x' /\
    filled c x x' buf (sectors_from (dk_data (d_unit x)) start n)).
Proof.
  intros Hs Hok Hst Hn Hin Hbuf. assert (512 * n <= 2 ^ 20) as Hsmall by (destruct Hbuf as [_ _ H _]; pose proof (Z.mod_pos_bound (phys buf) 0x10000 ltac:(lia)); lia).
  unfold xenon_ata_read_sectors, runs. rewrite !s32_value by lia. rewrite command_bind. apply runs_bind.
  eapply runs_mono; [|apply (runs_command start n XENON_ATA_CMD_READ_DMA_EXT s x); [done|lia|done]].
  intros _ s1 (x1 & Hs1 & (Eu & Em) & Ha & Hc). rewrite Z.mod_small in Ha by lia.
  assert (disk_command XENON_ATA_CMD_READ_DMA_EXT x1 = x1 <| d_phase := Idle |> <| d_error := 0 |> <| d_phase := DmaIn (sectors_from (dk_data (d_unit x)) start n) |>) as Ex.
  { unfold disk_command. cbv zeta. rewrite Ha, Hc, Z.eqb_refl. change (d_unit (x1 <| d_phase := Idle |> <| d_error := 0 |>)) with (d_unit x1).
    rewrite Eu, (proj2 (Z.leb_le _ _)) by lia. done. }
  rewrite Ex in Hs1. set (x2 := x1 <| d_phase := Idle |> <| d_error := 0 |> <| d_phase := _ |>) in Hs1.
  unfold XENON_DISK_SECTOR_SIZE. rewrite u32_small, s32_value by lia. apply runs_bind.
  eapply runs_mono; [|apply (runs_dma_read Ata c Hbase Hbase2 Htable fuel Hfuel buf (n * 512) (sectors_from (dk_data (d_unit x)) start n) s1 x2); try done].
  - intros r s2 (-> & x' & Hs2 & F1 & F2 & F3 & F4 & F5). apply runs_ret. split; [done|]. exists x'. split; [done|].
    split; [by rewrite F1|]. split; [done|]. split; [done|]. split; [done|]. intros a H1 H2. rewrite F5 by done. change (d_mem x2 a) with (d_mem x1 a). by rewrite Em.
  - rewrite length_sectors; [lia|done|lia].
  - lia.
  - by replace (n * 512) with (512 * n) by lia.
Qed.

(** Where the drive has no such sectors, the code of the function is -1. *)
Lemma runs_read_error start n buf s x : sees s x -> 0 <= start < 2 ^ 32 -> 1 <= n <= 65536 -> dk_sectors (d_unit x) < 2 ^ 48 - 2 ^ 31 ->
  dk_sectors (d_unit x) < start + n \/ 2 ^ 31 <= start -> buf .& 3 = 0 ->
  runs (xenon_ata_read_sectors fuel start n buf) s (fun r s' => r = -1 /\ exists x', sees s' x' /\ same_inside x x' /\ d_error x' = 0x10).
Proof.
  intros Hs Hst Hn Hcap Hout Hb. unfold xenon_ata_read_sectors, runs. rewrite (s32_value n) by lia. rewrite command_bind. apply runs_bind.
  eapply runs_mono; [|apply (runs_command (s32 start) n XENON_ATA_CMD_READ_DMA_EXT s x); [done|lia|done]].
  intros _ s1 (x1 & Hs1 & (Eu & Em) & Ha & Hc).
  assert (lba48 x1 = if start <? 2 ^ 31 then start else start - 2 ^ 32 + 2 ^ 48) as Ea.
  { rewrite Ha. destruct (Z.ltb_spec start (2 ^ 31)); [rewrite s32_value, Z.mod_small by lia; done|].
    unfold s32. rewrite <- (Z_mod_plus_full (start + 2 ^ 31) (-1) (2 ^ 32)). rewrite (Z.mod_small (start + 2 ^ 31 + -1 * 2 ^ 32)) by lia.
    rewrite <- (Z_mod_plus_full _ 1 (2 ^ 48)), Z.mod_small by lia. lia. }
  assert (disk_command XENON_ATA_CMD_READ_DMA_EXT x1 = x1 <| d_phase := Idle |> <| d_error := 0 |> <| d_error := 0x10 |>) as Ex.
  { unfold disk_command. cbv zeta. rewrite Hc, Z.eqb_refl. change (d_unit (x1 <| d_phase := Idle |> <| d_error := 0 |>)) with (d_unit x1).
    rewrite Eu, Ea, (proj2 (Z.leb_gt _ _)); [done|]. destruct (Z.ltb_spec start (2 ^ 31)); lia. }
  rewrite Ex in Hs1. apply runs_bind.
  eapply runs_mono; [|apply (runs_dma_error Ata c Hbase fuel buf _ s1 _ Hs1); done].
  intros r s2 (-> & Hs2). apply runs_ret. split; [done|]. eexists. split; [exact Hs2|]. split; [by split|done].
Qed.
(** Writing: every sector of the buffer gets to its place. *)
Definition stored (f : Z -> list Z) (at_ : Z) (n : nat) (buf : list Z) (k : Z) : list Z :=
  if (at_ <=? k) && (k <? at_ + Z.of_nat n) then sector_of buf (k - at_) else f k.

Lemma stored_step f a n buf k : stored (fun j => if j =? a then take 512 buf else f j) (a + 1) n (drop 512 buf) k = stored f a (S n) buf k.
Proof.
  unfold stored. cbv beta. destruct (Z.eqb_spec k a) as [->|Hk].
  - rewrite (proj2 (Z.leb_gt (a + 1) a)), (proj2 (Z.leb_le a a)) by lia. cbn [andb]. unfold sector_of. rewrite Z.sub_diag, Z.mul_0_r. change (Z.to_nat 0) with 0%nat. rewrite drop_0. by rewrite (proj2 (Z.ltb_lt a (a + Z.of_nat (S n)))) by lia.
  - destruct (Z.leb_spec (a + 1) k), (Z.leb_spec a k), (Z.ltb_spec k (a + 1 + Z.of_nat n)), (Z.ltb_spec k (a + Z.of_nat (S n))); cbn [andb]; try lia; try done.
    unfold sector_of. rewrite drop_drop. do 2 f_equal. lia.
Qed.

Lemma runs_write_loop n : forall buf s x, sees s x -> d_phase x = DataOut 128 [] -> d_error x = 0 -> dk_left (d_unit x) = Z.of_nat (S n) ->
  length buf = (512 * S n)%nat -> Forall is_byte buf ->
  runs (write_sectors fuel (S n) buf) s (fun r s' => r = true /\ exists x', sees s' x' /\ d_mem x' = d_mem x /\
    dk_sectors (d_unit x') = dk_sectors (d_unit x) /\
    forall k, dk_data (d_unit x') k = stored (dk_data (d_unit x)) (dk_at (d_unit x)) (S n) buf k).
Proof.
  induction n as [|n IH]; intros buf s x Hs Hp He Hleft Hl Hb.
  all: cbn [write_sectors]; apply runs_bind; change XENON_DISK_SECTOR_SIZE with (4 * Z.of_nat 128);
    (eapply runs_mono; [|apply (runs_pio_write Ata c Hbase fuel Hfuel (take 512 buf) 127 s x Hs Hp); [rewrite length_take; lia|by apply Forall_take]]);
    intros r s1; cbv zeta; change (on_data disk_logic) with disk_store; set (x1 := disk_store _ _); intros (Hs1 & Hr);
    assert (d_error x1 = 0) as He1 by done; assert (r = 0) as -> by (destruct Hr as [?|?]; congruence);
    assert (dk_data (d_unit x1) = fun j => if j =? dk_at (d_unit x) then take 512 buf else dk_data (d_unit x) j) as Ed by done;
    change (nz 0) with false; cbn iota.
  - apply runs_ret. split; [done|]. exists x1. split; [done|]. split; [done|]. split; [done|]. intros k. rewrite Ed, <- stored_step. unfold stored.
    rewrite Z.add_0_r. destruct (Z.leb_spec (dk_at (d_unit x) + 1) k); [|done]. by rewrite (proj2 (Z.ltb_ge k _)) by lia.
  - eapply runs_mono; [|apply (IH (drop 512 buf) s1 x1 Hs1)].
    + intros r s2 (-> & x2 & Hs2 & E1 & E2 & E3). split; [done|]. exists x2. split; [done|]. split; [done|]. split; [done|].
      intros k. rewrite E3, Ed. change (dk_at (d_unit x1)) with (dk_at (d_unit x) + 1). apply stored_step.
    + change (d_phase x1) with (if dk_left (d_unit x) - 1 =? 0 then Idle else DataOut 128 []). by rewrite (proj2 (Z.eqb_neq _ _)) by lia.
    + done.
    + change (dk_left (d_unit x1)) with (dk_left (d_unit x) - 1). lia.
    + rewrite length_drop. lia.
    + by apply Forall_drop.
Qed.

Lemma runs_write_sectors start n buf s x : sees s x -> 0 <= start < 2 ^ 31 -> 1 <= n <= 65536 -> start + n <= dk_sectors (d_unit x) ->
  Z.of_nat (length buf) = 512 * n -> Forall is_byte buf ->
  runs (xenon_ata_write_sectors fuel start n buf) s (fun r s' => r = n /\ exists x', sees s' x' /\ d_mem x' = d_mem x /\
    dk_sectors (d_unit x') = dk_sectors (d_unit x) /\ forall k, dk_data (d_unit x') k = stored (dk_data (d_unit x)) start (Z.to_nat n) buf k).
Proof.
  intros Hs Hst Hn Hin Hl Hb. unfold xenon_ata_write_sectors, runs. rewrite s32_value by lia. rewrite command_bind. apply runs_bind.
  eapply runs_mono; [|apply (runs_command start n XENON_ATA_CMD_WRITE_SECTORS_EXT s x); [done|lia|done]].
  intros _ s1 (x1 & [Hs1 _] & (Eu & Em) & Ha & Hc). rewrite Z.mod_small in Ha by lia. rewrite u32_small, s32_value by lia.
  set (x2 := disk_command _ x1) in Hs1. assert (d_phase x2 = DataOut 128 [] /\ d_error x2 = 0 /\ d_mem x2 = d_mem x /\ dk_at (d_unit x2) = start /\
    dk_left (d_unit x2) = n /\ dk_sectors (d_unit x2) = dk_sectors (d_unit x) /\ dk_data (d_unit x2) = dk_data (d_unit x)) as (P1 & P2 & P3 & P4 & P5 & P6 & P7).
  { unfold x2, disk_command. cbv zeta. rewrite Ha, Hc. change (XENON_ATA_CMD_WRITE_SECTORS_EXT =? XENON_ATA_CMD_READ_DMA_EXT) with false. rewrite Z.eqb_refl.
    change (d_unit (x1 <| d_phase := Idle |> <| d_error := 0 |>)) with (d_unit x1). rewrite Eu, (proj2 (Z.leb_le _ _)) by lia. cbn. by rewrite Eu, Em. }
  destruct (Z.to_nat n) as [|m] eqn:En; [lia|]. apply runs_bind. eapply runs_mono; [|apply (runs_write_loop m buf s1 x2 Hs1); [done|done|lia|lia|done]].
  intros r s2 (-> & x' & Hs2 & E1 & E2 & E3). apply runs_ret. split; [done|]. exists x'. split; [done|]. split; [congruence|]. split; [congruence|].
  intros k. rewrite E3, P4, P7. done.
Qed.

(** C10: sectors written to the hard disk are read back.  For a drive with 48-bit
    addresses, sectors that it has and whose numbers are below 2^31, and an
    aligned buffer of at most 16 pieces of 64 KB apart from the driver's table:
    [ata_writesectors] and then [ata_readsectors] both return true, the
    buffer holds what was written, the other sectors of the disk and all other
    memory but the table are as they were. *)
Theorem disk_write_read start n data buf s x :
  sees s x -> disk_ok (d_unit x) -> 0 <= start < 2 ^ 31 -> 1 <= n -> start + n <= dk_sectors (d_unit x) ->
  Z.of_nat (length data) = 512 * n -> Forall is_byte data -> buffer_ok c buf (512 * n) ->
  runs (w <- ata_writesectors fuel start n data ;; r <- ata_readsectors fuel start n buf ;; ret (w, r)) s (fun r s' =>
    r = (true, true) /\ exists x', sees s' x' /\
      get_mem (d_mem x') (phys buf) (length data) = data /\
      (forall a, apart a 1 (phys buf) (512 * n) -> apart a 1 (phys (prds c)) 128 -> d_mem x' a = d_mem x a) /\
      (forall k, k < start \/ start + n <= k -> dk_data (d_unit x') k = dk_data (d_unit x) k)).
Proof.
  intros Hs Hok Hst Hn Hin Hl Hb Hbuf. assert (512 * n <= 2 ^ 20) as Hsmall by (destruct Hbuf as [_ _ H _]; pose proof (Z.mod_pos_bound (phys buf) 0x10000 ltac:(lia)); lia).
  apply runs_bind. unfold ata_writesectors. apply runs_bind. rewrite s32_value by lia.
  eapply runs_mono; [|apply (runs_write_sectors start n data s x); (done || lia)]. intros r s1 (-> & x1 & Hs1 & Em & Ec & Ed). apply runs_ret.
  assert (nz n = true) as Hnz by (unfold nz; by rewrite (proj2 (Z.eqb_neq _ _)) by lia). rewrite Hnz.
  apply runs_bind. unfold ata_readsectors. apply runs_bind. eapply runs_mono; [|apply (runs_read_sectors start n buf s1 x1); (done || lia || idtac)].
  - intros r s2 (-> & x2 & Hs2 & F1 & F2 & F3 & F4 & F5). apply runs_ret, runs_ret. rewrite Hnz. split; [done|]. exists x2. split; [done|].
    assert (sectors_from (dk_data (d_unit x1)) start n = data) as Esec.
    { etransitivity; [|apply (sectors_of_buffer (Z.to_nat n) data start); lia]. rewrite Z2Nat.id by lia. apply sectors_from_ext. intros k Hk. rewrite Ed. unfold stored.
      by rewrite (proj2 (Z.leb_le _ _)), (proj2 (Z.ltb_lt _ _)) by lia. }
    rewrite Esec in *. split; [done|]. split.
    + intros a H1 H2. rewrite F5, Em; [done|unfold apart in *; lia..].
    + intros k Hk. rewrite F1, Ed. unfold stored. destruct (Z.leb_spec start k); [|done]. by rewrite (proj2 (Z.ltb_ge _ _)) by lia.
  - intros k. rewrite Ed. unfold stored. destruct (Z.leb_spec start k), (Z.ltb_spec k (start + Z.of_nat (Z.to_nat n))); cbn [andb]; try apply Hok.
    unfold sector_of. rewrite length_take, length_drop. lia.
Qed.

(** C11: a failed read is reported as success.  When the drive does not have the
    sectors, or their number does not fit 31 bits (it is then extended with
    its sign to an address the drive does not have), the drive reports an
    error (0x10 in its error register, no such sector) and transfers nothing;
    [xenon_ata_read_sectors] returns -1; and [ata_readsectors], which a file
    system calls, returns true; both leave the memory and the disk as they
    were, and the error standing in the drive. *)
Theorem disk_error_unnoticed start n buf s x :
  sees s x -> 0 <= start < 2 ^ 32 -> 1 <= n <= 65536 -> dk_sectors (d_unit x) < 2 ^ 48 - 2 ^ 31 ->
  dk_sectors (d_unit x) < start + n \/ 2 ^ 31 <= start -> buf .& 3 = 0 ->
  let failed s' := exists x', sees s' x' /\ d_error x' = 0x10 /\ d_mem x' = d_mem x /\ d_unit x' = d_unit x in
  runs (xenon_ata_read_sectors fuel start n buf) s (fun r s' => r = -1 /\ failed s') /\
  runs (ata_readsectors fuel start n buf) s (fun r s' => r = true /\ failed s').
Proof.
  intros Hs Hst Hn Hcap Hout Hb failed. unfold failed. split.
  { eapply runs_mono; [|by apply (runs_read_error start n buf s x)]. intros r s1 (-> & x' & Hs1 & (E1 & E2) & E3). split; [done|]. by exists x'. }
  unfold ata_readsectors. apply runs_bind. eapply runs_mono; [|by apply (runs_read_error start n buf s x)].
  intros r s1 (-> & x' & Hs1 & (E1 & E2) & E3). apply runs_ret. split; [done|]. by exists x'.
Qed.
End disk.
