(* ===== verification/AtaDvd.v ===== *)
(** * The DVD drive: packets, retries, and the disc that [iso9660.c] reads *)
From S2P Require Import Prelude Bits Sfcx SfcxFacts Ata AtaDrive AtaDma AtaFacts GdbHex Iso IsoFacts.
Open Scope Z_scope.
Open Scope list_scope.
Open Scope xenon_scope.

(** ** A DVD drive *)

Record dvd := mkDvd {
  dv_sectors : Z;
  dv_data : Z -> list Z;
  dv_present : bool;
  dv_wait : nat;            (* reads that fail before the disc turns *)
  dv_sense : Z * Z * Z      (* key, code, qualifier *)
}.
#[global] Instance eta_dvd : Eta dvd := fun r => mkDvd (dv_sectors r) (dv_data r) (dv_present r) (dv_wait r) (dv_sense r).

Definition dvd_command (v : Z) (x : drive dvd) : drive dvd :=
  let x := x <| d_phase := Idle |> <| d_error := 0 |> in
  if v =? XENON_ATA_CMD_PACKET then x <| d_phase := DataOut 3 [] |> else x <| d_error := 4 |>.

(** A packet fails: the sense key is in the error register. *)
Definition dvd_fail (key code qual : Z) (x : drive dvd) : drive dvd :=
  x <| d_error := 16 * key |> <| d_unit ::= set dv_sense (fun _ => (key, code, qual)) |>.

Definition sense_data (u : dvd) : list Z :=
  let '(key, code, qual) := dv_sense u in [0x70; 0; key; 0; 0; 0; 0; 10; 0; 0; 0; 0; code; qual] ++ replicate 10 0.

Definition dvd_packet (p : list Z) (x : drive dvd) : drive dvd :=
  let u := d_unit x in
  if nth 0 p 0 =? 0x28 then
    if negb (dv_present u) then dvd_fail 2 0x3a 0 x else
    match dv_wait u with
    | S k => dvd_fail 2 4 1 x <| d_unit ::= set dv_wait (fun _ => k) |>
    | O =>
        let a := get_be (nth 2 p 0) (nth 3 p 0) (nth 4 p 0) (nth 5 p 0) in
        let n := 2 ^ 8 * nth 7 p 0 + nth 8 p 0 in
        if negb (a + n <=? dv_sectors u) then dvd_fail 5 0x21 0 x else
        if Z.testbit (d_reg x 1) 0 then x <| d_phase := DmaIn (sectors_from (dv_data u) a n) |>
        else x <| d_phase := DataIn (words_of (sectors_from (dv_data u) a n)) |>
    end
  else if nth 0 p 0 =? 0x03 then x <| d_phase := DataIn (words_of (sense_data u)) |>
  else dvd_fail 5 0x20 0 x.
Definition dvd_logic : logic dvd := mkLogic dvd_command dvd_packet.

Section dvd.
Context {D : Type} {B : AtaBus D} {base base2 : Z} {LW : DriveLaws D dvd dvd_logic base base2}.
Context (fuel : nat) (Hfuel : (dmax < fuel)%nat) (c : xenon_ata_device).
Hypothesis Hbase : ioaddress c = base.
Hypothesis Hbase2 : ioaddress2 c = base2.
Hypothesis Htable : phys (prds c) + 128 <= 2 ^ 31.
Implicit Types (s : ata_st D) (x : drive dvd).
Local Abbreviation sees := (sees (LW := LW) Atapi c).
Local Abbreviation settled := (settled (LW := LW) Atapi c).

(** ** Packets *)

(** The packet reaches a drive with the same disc, and the drive is waited for. *)
Lemma runs_packet p (dma : bool) s x : sees s x -> length p = 12%nat -> Forall is_byte p ->
  runs (xenon_atapi_packet fuel Atapi p dma ;; xenon_ata_wait_ready fuel Atapi) s (fun _ s' => exists y,
    settled s' (dvd_packet p y) /\ same_inside x y /\ d_error y = 0 /\ d_phase y = Idle /\ d_reg y 1 = (if dma then 1 else 0)).
Proof.
  intros Hs Hl Hb. unfold xenon_atapi_packet, XENON_ATA_REG_DISK, XENON_ATA_REG_FEATURES, XENON_ATA_REG_SECTORS, XENON_ATA_REG_LBAHIGH, XENON_ATA_REG_LBAMID, XENON_ATA_REG_CMD.
  apply runs_bind.
  apply runs_bind. eapply (runs_regset Atapi c Hbase); [exact Hs|lia|]. intros s1 H1.
  apply runs_bind. eapply (runs_regset Atapi c Hbase); [exact H1|lia|]. intros s2 H2.
  apply runs_bind. eapply (runs_regset Atapi c Hbase); [exact H2|lia|]. intros s3 H3.
  apply runs_bind. eapply (runs_regset Atapi c Hbase); [exact H3|lia|]. intros s4 H4.
  apply runs_bind. eapply (runs_regset Atapi c Hbase); [exact H4|lia|]. intros s5 H5.
  apply runs_bind. eapply (runs_regset Atapi c Hbase); [exact H5|lia|]. intros s6 H6.
  apply runs_bind. eapply (runs_wait_ready Atapi c Hbase fuel Hfuel); [exact H6|]. intros s7 [H7 _].
  set (x7 := drive_write dvd_logic 7 _ _) in H7.
  apply runs_bind. change 12 with (4 * Z.of_nat 3). eapply runs_mono; [|apply (runs_pio_write Atapi c Hbase fuel Hfuel p 2 s7 x7 H7); [done|by rewrite Hl|done]].
  cbv zeta. intros r s8 (H8 & _). apply runs_ret. eapply (runs_wait_ready Atapi c Hbase fuel Hfuel); [exact H8|]. intros s9 H9.
  exists (x7 <| d_phase := Idle |>). split; [exact H9|]. split; [by destruct dma|]. split; [by destruct dma|]. split; [done|]. by destruct dma.
Qed.

Lemma packet_bind {A} p dma (k : unit -> M (ata_st D) A) s :
  (xenon_atapi_packet fuel Atapi p dma ;; w <- xenon_ata_wait_ready fuel Atapi ;; k w) s =
  bind (xenon_atapi_packet fuel Atapi p dma ;; xenon_ata_wait_ready fuel Atapi) k s.
Proof. by rewrite bind_assoc. Qed.

(** The sense data come back. *)
Definition sense_bytes (u : dvd) : Prop := let '(key, code, qual) := dv_sense u in is_byte key /\ is_byte code /\ is_byte qual.
Definition sense_value (u : dvd) : Z := let '(key, code, qual) := dv_sense u in (key .<< 16) .| (code .<< 8) .| qual.

Lemma runs_request_sense s x : sees s x -> sense_bytes (d_unit x) ->
  runs (xenon_atapi_request_sense fuel Atapi) s (fun r s' => r = sense_value (d_unit x) /\ exists x', sees s' x' /\ same_inside x x').
Proof.
  intros Hs Hb. unfold xenon_atapi_request_sense, packet_in. apply runs_bind. unfold runs at 1. rewrite packet_bind. apply runs_bind.
  eapply runs_mono; [|apply (runs_packet [0x03; 0; 0; 0; 24; 0; 0; 0; 0; 0; 0; 0] false s x Hs eq_refl)].
  2: { repeat (apply Forall_cons; split; [by split|]). by apply Forall_nil. }
  intros _ s1 (y & Hs1 & (Eu & Em) & He & Hp & _). change (dvd_packet _ y) with (y <| d_phase := DataIn (words_of (sense_data (d_unit y))) |>) in Hs1.
  set (x1 := y <| d_phase := _ |>) in Hs1. unfold xenon_ata_pio_read.
  apply (runs_no_error0 Atapi c Hbase _ _ s1 x1 _ Hs1); [done|]. intros s2 [Hs2 _].
  set (ws := words_of (sense_data (d_unit y))). assert (length ws = 6%nat /\ bytes_of ws = sense_data (d_unit x)) as [Hlen Hby].
  { unfold ws. rewrite Eu. unfold sense_bytes, sense_data in *. destruct (dv_sense (d_unit x)) as [[key code] qual]. destruct Hb as (B1 & B2 & B3). split; [done|].
    apply (words_bytes _ 6); [done|]. repeat (apply Forall_cons; split; [done || by split|]). by apply Forall_nil. }
  apply runs_bind. apply (runs_wait_drq Atapi c Hbase fuel Hfuel s2 x1 _ Hs2).
  { unfold x1. cbn [d_phase set]. fold ws. by destruct ws. }
  intros s3 [Hs3 _]. change (nz (Z.of_nat 24 .& 0xf)) with true. cbn iota. change (Z.to_nat (Z.of_nat 24 / 4)) with 6%nat. rewrite <- Hlen.
  apply runs_bind. eapply runs_mono; [|apply (runs_pio_words Atapi c Hbase ws s3 x1 0 _ []); [exact Hs3|by rewrite app_nil_r|by rewrite Hlen]].
  intros buf s4 (-> & Hs4). rewrite Hby. eapply (runs_no_error Atapi c Hbase); [exact Hs4|done|]. intros s5 Hs5. apply runs_ret.
  change (nz 0) with false. cbn iota. apply runs_ret. split; [|eexists; split; [exact Hs5|by split]].
  unfold sense_data, sense_value. by destruct (dv_sense (d_unit x)) as [[key code] qual].
Qed.
(** ** Reading *)

(** The packet of a read is what the drive takes apart. *)
Lemma readcmd_ok junk start n : 0 <= start < 2 ^ 32 -> 0 <= n < 2 ^ 16 ->
  let p := readcmd junk start n in
  length p = 12%nat /\ Forall is_byte p /\ nth 0 p 0 = 0x28 /\ get_be (nth 2 p 0) (nth 3 p 0) (nth 4 p 0) (nth 5 p 0) = start /\
  2 ^ 8 * nth 7 p 0 + nth 8 p 0 = n.
Proof.
  intros Hs Hn p. split; [done|]. split.
  { unfold p, readcmd, put_be. repeat (apply Forall_cons; split; [first [apply is_byte_u8|by split]|]). by apply Forall_nil. }
  split; [done|]. split.
  - unfold p, readcmd, put_be. cbn [app nth]. rewrite u32_small by done. by apply get_put_be.
  - unfold p, readcmd. cbn [app nth put_be]. rewrite Z.shiftr_div_pow2 by lia. unfold u8.
    rewrite (Z.mod_small (n / 2 ^ 8)) by (split; [apply Z.div_pos; lia|apply Z.div_lt_upper_bound; lia]). pose proof (Z.div_mod n (2 ^ 8) ltac:(lia)). lia.
Qed.

Definition dvd_ok (u : dvd) : Prop := forall k, length (dv_data u k) = 2048%nat.
Definition same_disc (u u' : dvd) : Prop := dv_sectors u' = dv_sectors u /\ dv_data u' = dv_data u /\ dv_present u' = dv_present u.

Lemma length_dvd_sectors f a n : (forall k, length (f k) = 2048%nat) -> 0 <= n -> Z.of_nat (length (sectors_from f a n)) = 2048 * n.
Proof.
  intros Hf Hn. unfold sectors_from. assert (forall l, length (concat ((fun i => f (a + Z.of_nat i)) <$> l)) = (2048 * length l)%nat) as E.
  { induction l as [|i l IH]; [done|]. cbn [fmap list_fmap concat length]. rewrite length_app, IH, Hf. lia. }
  rewrite E, length_seq. lia.
Qed.

(** What a call leaves, with [k] more tries: the data when the disc turns in
    time, nothing otherwise. *)
Definition outcome_of (k : nat) (start n buf r : Z) (x x' : drive dvd) : Prop :=
  same_disc (d_unit x) (d_unit x') /\
  if dv_present (d_unit x) then
    if Nat.leb (dv_wait (d_unit x)) k then
      r = n /\ dv_wait (d_unit x') = 0%nat /\ get_mem (d_mem x') (phys buf) (Z.to_nat (2048 * n)) = sectors_from (dv_data (d_unit x)) start n /\
      forall a, apart a 1 (phys buf) (2048 * n) -> apart a 1 (phys (prds c)) 128 -> d_mem x' a = d_mem x a
    else r = -1 /\ d_mem x' = d_mem x
  else r = DISKIO_ERROR_NO_MEDIA /\ d_mem x' = d_mem x.

(** A try that fails with a sense. *)
Lemma runs_failed_try n buf key code qual s x y (Q : Z -> ata_st D -> Prop) (k : Z -> M (ata_st D) Z) (good : M (ata_st D) Z) :
  settled s y -> d_error y = 16 * key -> 0 < key -> dv_sense (d_unit y) = (key, code, qual) -> is_byte key -> is_byte code -> is_byte qual -> buf .& 3 = 0 ->
  d_mem y = d_mem x ->
  (forall s' x', sees s' x' -> d_unit x' = d_unit y -> d_mem x' = d_mem x -> runs (k ((key .<< 16) .| (code .<< 8) .| qual)) s' Q) ->
  runs (r <- xenon_ata_dma_read fuel Atapi buf n ;; if nz r then sense <- xenon_atapi_request_sense fuel Atapi ;; k sense else good) s Q.
Proof.
  intros Hs He Hk Hsense B1 B2 B3 Ha Hm HQ. apply runs_bind. eapply runs_mono; [|apply (runs_dma_error Atapi c Hbase fuel buf n s y Hs); [lia|done]].
  intros r s1 (-> & Hs1). rewrite He. assert (nz (16 * key) = true) as -> by (unfold nz; by rewrite (proj2 (Z.eqb_neq _ _)) by lia).
  apply runs_bind. eapply runs_mono; [|apply (runs_request_sense s1 y Hs1); unfold sense_bytes; by rewrite Hsense].
  intros r s2 (-> & x' & Hs2 & E1 & E2). unfold sense_value. rewrite Hsense. by apply (HQ s2 x'); [|congruence|congruence].
Qed.

Section reading.
Context (junk start n buf : Z) (Hst : 0 <= start) (Hn : 1 <= n) (H32 : start + n <= 2 ^ 32) (Hbuf : buffer_ok c buf (2048 * n)).

Lemma reading_small : 2048 * n <= 2 ^ 20.
Proof. destruct Hbuf as [_ _ H _]. pose proof (Z.mod_pos_bound (phys buf) 0x10000 ltac:(lia)). lia. Qed.

(** One try: it fails, or the data arrive; [again] is what follows a disc that
    does not turn yet. *)
Lemma runs_try (again : M (ata_st D) Z) s x Q : sees s x -> dvd_ok (d_unit x) -> start + n <= dv_sectors (d_unit x) ->
  match dv_wait (d_unit x) with
  | S w => forall s' x', sees s' x' -> same_disc (d_unit x) (d_unit x') -> dv_wait (d_unit x') = w -> d_mem x' = d_mem x ->
      dv_present (d_unit x) = true -> runs again s' Q
  | O => forall r s' x', sees s' x' -> dv_present (d_unit x) = true -> outcome_of 0 start n buf r x x' -> Q r s'
  end ->
  (forall r s' x', sees s' x' -> dv_present (d_unit x) = false -> outcome_of 0 start n buf r x x' -> Q r s') ->
  runs (xenon_atapi_packet fuel Atapi (readcmd junk start n) true ;; xenon_ata_wait_ready fuel Atapi ;;
        r <- xenon_ata_dma_read fuel Atapi buf (s32 (u32 (n * XENON_CDROM_SECTOR_SIZE))) ;;
        if nz r then
          sense <- xenon_atapi_request_sense fuel Atapi ;;
          if (SK sense =? 0x02) && (ASC sense =? 0x3a) then ret DISKIO_ERROR_NO_MEDIA else
          if ((SK sense =? 0x02) && (ASC sense =? 0x4)) || (SK sense =? 0x6) then again else ret (-1)
        else ret (s32 n)) s Q.
Proof.
  intros Hs Hok Hin Hgo Hno. pose proof reading_small as Hsmall. assert (buf .& 3 = 0) as Hal by (by destruct Hbuf).
  destruct (readcmd_ok junk start n ltac:(lia) ltac:(lia)) as (P1 & P2 & P3 & P4 & P5). set (p := readcmd junk start n) in *.
  unfold runs. rewrite packet_bind. apply runs_bind. eapply runs_mono; [|apply (runs_packet p true s x Hs P1 P2)].
  intros _ s1 (y & Hs1 & (Eu & Em) & He & Hp & Hreg). unfold XENON_CDROM_SECTOR_SIZE. rewrite (u32_small (n * 2048)), (s32_value (n * 2048)), (s32_value n) by lia.
  unfold dvd_packet in Hs1. cbv zeta in Hs1. rewrite P3, P4, P5, Eu, Z.eqb_refl in Hs1.
  destruct (dv_present (d_unit x)) eqn:Epr; cbn [negb] in Hs1.
  2: { eapply (runs_failed_try _ buf 2 0x3a 0 s1 x); [exact Hs1|done|done|done|by split..|done|done|]. intros s' x' Hs' Eu' Em'. apply runs_ret.
    apply (Hno _ s' x' Hs'); [done|]. unfold outcome_of. rewrite Epr. split; [|done]. rewrite Eu'. unfold same_disc. cbn. by rewrite Eu. }
  destruct (dv_wait (d_unit x)) as [|w] eqn:Ew.
  2: { eapply (runs_failed_try _ buf 2 4 1 s1 x); [exact Hs1|done|done|done|by split..|done|done|]. intros s' x' Hs' Eu' Em'.
    apply (Hgo s' x' Hs'); [rewrite Eu'; unfold same_disc; cbn; by rewrite Eu|by rewrite Eu'|done|done]. }
  rewrite (proj2 (Z.leb_le _ _)), Hreg in Hs1 by lia. cbn [negb Z.testbit Pos.testbit] in Hs1. change (Z.odd 1) with true in Hs1. cbn iota in Hs1.
  set (l := sectors_from (dv_data (d_unit x)) start n) in Hs1. assert (Z.of_nat (length l) = n * 2048) as Hl by (unfold l; rewrite length_dvd_sectors; [lia|done|lia]).
  apply runs_bind. eapply runs_mono; [|apply (runs_dma_read Atapi c Hbase Hbase2 Htable fuel Hfuel buf (n * 2048) l s1 _ Hs1); [done|done|done|lia|by replace (n * 2048) with (2048 * n) by lia]].
  intros r s2 (-> & x' & Hs2 & F1 & F2 & F3 & F4 & F5). change (nz 0) with false. cbn iota. apply runs_ret. apply (Hgo _ s2 x' Hs2); [done|].
  unfold outcome_of. rewrite Epr, Ew. cbn [Nat.leb]. change (d_unit x' = d_unit y) in F1. rewrite F1, Eu. split; [done|]. split; [done|]. split; [done|].
  replace (Z.to_nat (2048 * n)) with (length l) by lia. split; [done|]. intros a H1 H2. rewrite F5; [|unfold apart in *; lia..]. change (d_mem y a = d_mem x a). by rewrite Em.
Qed.

Lemma runs_retry : forall k s x, sees s x -> dvd_ok (d_unit x) -> start + n <= dv_sectors (d_unit x) ->
  runs (retry fuel k (readcmd junk start n) n buf) s (fun r s' => exists x', sees s' x' /\ outcome_of k start n buf r x x').
Proof.
  induction k as [|k IH]; intros s x Hs Hok Hin; cbn [retry]; apply (runs_try _ s x _ Hs Hok Hin).
  - destruct (dv_wait (d_unit x)) as [|w] eqn:Ew.
    + intros r s' x' Hs' _ H. by exists x'.
    + intros s' x' Hs' Hsame Hw Hm Epr. apply runs_ret. exists x'. split; [done|]. unfold outcome_of. by rewrite Epr, Ew.
  - intros r s' x' Hs' _ H. by exists x'.
  - destruct (dv_wait (d_unit x)) as [|w] eqn:Ew.
    + intros r s' x' Hs' Epr H. exists x'. split; [done|]. unfold outcome_of in *. by rewrite Epr, Ew in *.
    + intros s' x' Hs' (E1 & E2 & E3) Hw Hm Epr. eapply runs_mono; [|apply (IH s' x' Hs')]; [|intros j; by rewrite E2|by rewrite E1].
      intros r s2 (x2 & Hs2 & (G1 & G2 & G3) & H). exists x2. split; [done|]. unfold outcome_of, same_disc. rewrite Epr, Ew. rewrite E3, Epr, Hw, E2 in H.
      change (Nat.leb (S w) (S k)) with (Nat.leb w k). split; [split_and!; congruence|]. destruct (Nat.leb w k); [|destruct H; split; congruence].
      destruct H as (H1 & H2 & H3 & H4). split_and!; [done..|]. intros a A1 A2. by rewrite H4, Hm.
  - intros r s' x' Hs' Epr H. exists x'. split; [done|]. unfold outcome_of in *. by rewrite Epr in *.
Qed.
End reading.

(** Reading the DVD.  For sectors the disc has and a buffer the transfer
    takes, [xenon_atapi_read_sectors] returns, whatever the reserved bytes of
    the packet hold: without a disc the code is DISKIO_ERROR_NO_MEDIA; with a
    disc that fails at most 20 reads before it turns, it is the number of
    sectors and the buffer holds them, all other memory but the table as it
    was; with one that takes longer it is -1.  In all of these cases
    [atapi_readsectors] returns true. *)
Theorem dvd_read junk start n buf s x : sees s x -> dvd_ok (d_unit x) -> 0 <= start -> 1 <= n -> start + n <= dv_sectors (d_unit x) -> start + n <= 2 ^ 32 ->
  buffer_ok c buf (2048 * n) ->
  runs (xenon_atapi_read_sectors fuel junk start n buf) s (fun r s' => exists x', sees s' x' /\ outcome_of 20 start n buf r x x') /\
  runs (atapi_readsectors fuel junk start n buf) s (fun r s' => r = true).
Proof.
  intros Hs Hok Hst Hn Hin H32 Hbuf. pose proof (runs_retry junk start n buf Hst Hn H32 Hbuf 20 s x Hs Hok Hin) as H. split; [exact H|].
  unfold atapi_readsectors. apply runs_bind. eapply runs_mono; [|exact H]. intros r s' (x' & _ & _ & Hr). apply runs_ret.
  destruct (dv_present _); [destruct (Nat.leb _ _)|]; destruct Hr as (-> & _); [|done..]. unfold nz. by rewrite (proj2 (Z.eqb_neq _ _)) by lia.
Qed.

(** ** The disc of the file system *)

(** The bytes of the disc, and the disc as the file system sees it through the
    driver: what its call of [readSectors] leaves in its buffer. *)
Definition dvd_content (u : dvd) (k : Z) : Z := nth (Z.to_nat (k mod 2048)) (dv_data u (k / 2048)) 0.
Definition disc_of junk buf s : Z -> Z -> option (list Z) := fun a n =>
  match atapi_readsectors fuel junk a n buf s with
  | Ok true s' => Some (get_mem (d_mem (dview (bus s'))) (phys buf) (Z.to_nat (2048 * n)))
  | _ => None
  end.

Lemma sector_bytes u a : dvd_ok u -> dv_data u a = bytes (dvd_content u) (a * 2048) 2048.
Proof.
  intros Hok. apply list_eq. intros i. destruct (decide (i < 2048)%nat) as [Hi|Hi].
  - rewrite bytes_lookup by done. unfold dvd_content. rewrite Z.add_comm, Z.div_add, Z.mod_add by lia. rewrite Z.div_small, Z.mod_small by lia.
    rewrite Z.add_0_l, Nat2Z.id. destruct (nth_lookup_or_length (dv_data u a) i 0) as [E|E]; [done|]. pose proof (Hok a). lia.
  - rewrite !lookup_ge_None_2; [done| |rewrite Hok; lia]. apply Nat2Z.inj_le. rewrite bytes_length; lia.
Qed.

Lemma sectors_bytes u n : dvd_ok u -> forall a, sectors_from (dv_data u) a (Z.of_nat n) = bytes (dvd_content u) (a * 2048) (2048 * Z.of_nat n).
Proof.
  intros Hok. unfold sectors_from. rewrite Nat2Z.id. induction n as [|n IH]; intros a; [done|]. cbn [seq fmap list_fmap concat].
  rewrite Z.add_0_r. replace (2048 * Z.of_nat (S n)) with (2048 + 2048 * Z.of_nat n) by lia. rewrite <- bytes_app by lia. f_equal; [by apply sector_bytes|].
  replace (a * 2048 + 2048) with ((a + 1) * 2048) by lia. rewrite <- IH. f_equal. rewrite <- (fmap_S_seq 0 n), <- list_fmap_compose.
  apply list_fmap_ext. intros ? j _. unfold compose. f_equal. lia.
Qed.

(** A shorter buffer at the same place. *)
Lemma buffer_shorter buf size size' : buffer_ok c buf size -> size' <= size -> buffer_ok c buf size'.
Proof. intros [H1 H2 H3 H4] Hle. split; [done|lia|lia|]. unfold apart in *. lia. Qed.

(** C12: the driver gives [iso9660.c] the disc it expects.  With a disc in the
    drive that turns in time, what the driver delivers for one up to sixteen
    sectors, from any sector before [last], is the bytes of the disc.  These
    are both things that the theorems on the file system ask of a disc:
    sixteen sectors for its buffer ([drive_ok]) and single sectors for the
    volume descriptors; and after such a call the drive is again in such a
    state. *)
Theorem dvd_is_disc junk buf s x last : sees s x -> dvd_ok (d_unit x) -> dv_present (d_unit x) = true -> (dv_wait (d_unit x) <= 20)%nat ->
  0 <= last -> last + 16 < 2 ^ 32 -> last + 15 <= dv_sectors (d_unit x) -> buffer_ok c buf ISO_BUFFER_SIZE ->
  drive_ok (disc_of junk buf s) (dvd_content (d_unit x)) last /\
  (forall a, 0 <= a < last -> disc_of junk buf s a 1 = Some (bytes (dvd_content (d_unit x)) (a * SECTOR_SIZE) SECTOR_SIZE)) /\
  forall a n, 0 <= a < last -> 1 <= n <= 16 ->
    disc_of junk buf s a n = Some (bytes (dvd_content (d_unit x)) (a * SECTOR_SIZE) (n * SECTOR_SIZE)) /\
    runs (atapi_readsectors fuel junk a n buf) s (fun _ s' => exists x', sees s' x' /\
      same_disc (d_unit x) (d_unit x') /\ dv_wait (d_unit x') = 0%nat).
Proof.
  intros Hs Hok Hpr Hw Hl0 Hl1 Hl2 Hbuf.
  assert (forall a n, 0 <= a < last -> 1 <= n <= 16 -> runs (atapi_readsectors fuel junk a n buf) s (fun r s' => r = true /\ exists x', sees s' x' /\
    same_disc (d_unit x) (d_unit x') /\ dv_wait (d_unit x') = 0%nat /\ get_mem (d_mem x') (phys buf) (Z.to_nat (2048 * n)) = sectors_from (dv_data (d_unit x)) a n)) as H.
  { intros a n Ha Hn. unfold atapi_readsectors. apply runs_bind.
    assert (buffer_ok c buf (2048 * n)) as Hb by (eapply buffer_shorter; [exact Hbuf|unfold ISO_BUFFER_SIZE; lia]).
    eapply runs_mono; [|apply (runs_retry junk a n buf ltac:(lia) ltac:(lia) ltac:(lia) Hb 20 s x Hs Hok ltac:(lia))].
    intros r s' (x' & Hs' & Hsame & Hr). apply runs_ret. rewrite Hpr, (proj2 (Nat.leb_le _ _) Hw) in Hr. destruct Hr as (-> & Hr1 & Hr2 & _).
    split; [unfold nz; by rewrite (proj2 (Z.eqb_neq n 0)) by lia|]. by exists x'. }
  assert (forall a n, 0 <= a < last -> 1 <= n <= 16 ->
    disc_of junk buf s a n = Some (bytes (dvd_content (d_unit x)) (a * SECTOR_SIZE) (n * SECTOR_SIZE))) as Hd.
  { intros a n Ha Hn. destruct (H a n Ha Hn) as (r & s' & E & -> & x' & (_ & Hs') & _ & _ & Hm). unfold disc_of. rewrite E, Hs', Hm. f_equal.
    pose proof (sectors_bytes (d_unit x) (Z.to_nat n) Hok a) as Eb. rewrite Z2Nat.id in Eb by lia. rewrite Eb. f_equal. unfold SECTOR_SIZE. lia. }
  split_and!.
  - split; [lia|]. intros a Ha. by apply (Hd a 16).
  - intros a Ha. by apply (Hd a 1).
  - intros a n Ha Hn. split; [by apply Hd|]. eapply runs_mono; [|apply (H a n Ha Hn)]. intros r s' (_ & x' & H1 & H2 & H3 & _). by exists x'.
Qed.
End dvd.
