(* ===== verification/AtaExamples.v ===== *)
(** * Drives on which the theorems of the disk driver are applied *)
From S2P Require Import Prelude Bits Sfcx SfcxFacts Ata AtaDrive AtaDma AtaFacts AtaDvd GdbHex Iso IsoFacts.
Open Scope Z_scope.
Open Scope list_scope.
Open Scope xenon_scope.

(** A drive whose second block of registers follows the first, busy for one
    poll after every write to a register. *)
Section slow.
Context {U : Type} (L : logic U) (base : Z).

Definition slow : Type := drive U * bool.

Definition slow_in8 (a : Z) (d : slow) : Z * slow :=
  let (x, busy) := d in
  if a =? base + 7 then (if busy then 0x80 else drive_status x, (x, false))
  else if a =? base + 32 + 2 then ((if busy then 1 else 0) + (if d_dmaerr x then 2 else 0), (x, false))
  else if a =? base + 1 then (d_error x, d)
  else (d_reg x (a - base), d).
Definition slow_out8 (a v : Z) (d : slow) : slow :=
  if (1 <=? a - base) && (a - base <=? 7) then (drive_write L (a - base) v (fst d), true)
  else (dma_write (a - base - 32) v (fst d), true).
Definition slow_in32 (a : Z) (d : slow) : Z * slow :=
  match d_phase (fst d) with DataIn (w :: ws) => (w, (fst d <| d_phase := DataIn ws |>, snd d)) | _ => (0, d) end.
Definition slow_out32 (a v : Z) (d : slow) : slow :=
  if a =? base then (drive_data L v (fst d), snd d) else (fst d <| d_table := bswap32 v |>, snd d).
Definition slow_poke32 (a w : Z) (d : slow) : slow := (fst d <| d_mem ::= put_mem (phys a) (put_be w) |>, snd d).

Definition slow_bus : AtaBus slow := {| in8 := slow_in8; out8 := slow_out8; in32 := slow_in32; out32 := slow_out32; poke32 := slow_poke32 |}.

Definition slow_laws : DriveLaws slow U L base (base + 32) (B := slow_bus).
Proof.
  refine {| dview := fst; ddelay := fun d : slow => if snd d then 1%nat else 0%nat; dmax := 1 |}.
  - intros [x []]; cbn; lia.
  - intros r [x b] Hr. cbn [in8 slow_bus slow_in8]. destruct (_ =? _); [done|]. destruct (_ =? _); [done|]. by destruct (_ =? _).
  - intros [x b]. cbn [in8 slow_bus slow_in8]. rewrite Z.eqb_refl. by destruct b.
  - intros [x b]. cbn [in8 slow_bus slow_in8]. rewrite (proj2 (Z.eqb_neq _ _)), (proj2 (Z.eqb_neq (base + 1) (base + 32 + 2))), Z.eqb_refl by lia. done.
  - intros r v [x b] Hr. cbn [out8 slow_bus slow_out8 fst]. unfold slow_out8. replace (base + r - base) with r by lia.
    rewrite (proj2 (Z.leb_le 1 r)), (proj2 (Z.leb_le r 7)) by lia. done.
  - intros [x b] w ws E. cbn [in32 slow_bus]. unfold slow_in32. by rewrite E.
  - intros w [x b]. cbn [out32 slow_bus]. unfold slow_out32. by rewrite Z.add_0_r, Z.eqb_refl.
  - intros [x b]. cbn [in8 slow_bus slow_in8]. rewrite (proj2 (Z.eqb_neq (base + 32 + 2) (base + 7))), Z.eqb_refl by lia. by destruct b.
  - intros r v [x b] Hr. cbn [out8 slow_bus]. unfold slow_out8. rewrite (proj2 (Z.leb_gt (base + 32 + r - base) 7)), andb_false_r by lia. cbn [fst].
    by replace (base + 32 + r - base - 32) with r by lia.
  - intros v [x b]. cbn [out32 slow_bus]. unfold slow_out32. by rewrite (proj2 (Z.eqb_neq _ _)) by lia.
  - done.
Defined.
End slow.
#[global] Instance disk_bus : AtaBus (@slow disk) := slow_bus disk_logic 0xea001300.
#[global] Instance disk_laws : DriveLaws (@slow disk) disk disk_logic 0xea001300 0xea001320 := slow_laws disk_logic 0xea001300.
#[global] Instance dvd_bus : AtaBus (@slow dvd) := slow_bus dvd_logic 0xea001200.
#[global] Instance dvd_laws : DriveLaws (@slow dvd) dvd dvd_logic 0xea001200 0xea001220 := slow_laws dvd_logic 0xea001200.

Lemma disk_fuel : (dmax (DriveLaws := disk_laws) < 5)%nat.
Proof. cbn. lia. Qed.
Lemma dvd_fuel : (dmax (DriveLaws := dvd_laws) < 5)%nat.
Proof. cbn. lia. Qed.

(** ** A disk with 3 billion sectors *)

Definition the_disk : xenon_ata_device := mkAtaDev 0xea001300 0xea001320 0 XENON_ATA_LBA48 0 0 0 0 0x80200000.
Definition the_dvd : xenon_ata_device := mkAtaDev 0xea001200 0xea001220 0 0 0 0 0 0 0x80300000.
Definition demo_disk : drive disk :=
  mkDrive (fun _ => 0) (fun _ => 0) Idle 0 0 false (fun _ => 0) (mkDisk 3000000000 (fun k => replicate 512 (u8 k)) [] 0 0).
Definition demo_ata : ata_st (@slow disk) := mkAtaSt the_disk the_dvd 1 1 (demo_disk, false).
Definition demo_sector : list Z := replicate 512 0x41.

Lemma demo_buffer : buffer_ok the_disk 0x80100200 (512 * 1).
Proof. split; [reflexivity|vm_compute; discriminate|vm_compute; discriminate|left; vm_compute; discriminate]. Qed.

Lemma disk_write_read_demo :
  runs (w <- ata_writesectors 5 7 1 demo_sector ;; r <- ata_readsectors 5 7 1 0x80100200 ;; ret (w, r)) demo_ata
    (fun r s' => r = (true, true) /\ get_mem (d_mem (fst (bus s'))) (phys 0x80100200) (length demo_sector) = demo_sector).
Proof.
  eapply runs_mono; [|apply (disk_write_read (LW := disk_laws) 5 disk_fuel the_disk eq_refl eq_refl eq_refl ltac:(vm_compute; discriminate) 7 1 demo_sector 0x80100200 demo_ata demo_disk)].
  - intros r s' (H & x' & [_ E] & H1 & _). split; [exact H|]. change (fst (bus s')) with (dview (bus s')). rewrite E. exact H1.
  - split; reflexivity.
  - intros k. apply length_replicate.
  - lia.
  - lia.
  - cbn. lia.
  - reflexivity.
  - apply Forall_replicate. split; [discriminate|reflexivity].
  - apply demo_buffer.
Defined.

(** Sector 2500000000 exists, and is not found. *)
Lemma disk_error_unnoticed_demo :
  runs (xenon_ata_read_sectors 5 2500000000 1 0x80100200) demo_ata (fun r s' => r = -1) /\
  runs (ata_readsectors 5 2500000000 1 0x80100200) demo_ata (fun r s' => r = true /\ d_mem (fst (bus s')) = fun _ => 0).
Proof.
  destruct (disk_error_unnoticed (LW := disk_laws) 5 disk_fuel the_disk eq_refl eq_refl 2500000000 1 0x80100200 demo_ata demo_disk) as [H1 H2].
  - split; reflexivity.
  - lia.
  - lia.
  - cbn. lia.
  - right. lia.
  - reflexivity.
  - split; [eapply runs_mono; [|exact H1]; by intros r s' [H _]|]. eapply runs_mono; [|exact H2].
    intros r s' (H & x' & [_ E] & _ & H' & _). split; [exact H|]. change (fst (bus s')) with (dview (bus s')). rewrite E. exact H'.
Defined.

(** ** A DVD that needs three tries *)

Definition demo_dvd : drive dvd :=
  mkDrive (fun _ => 0) (fun _ => 0) Idle 0 0 false (fun _ => 0) (mkDvd 100 (fun k => replicate 2048 (u8 k)) true 3 (0, 0, 0)).
Definition demo_atapi : ata_st (@slow dvd) := mkAtaSt the_disk the_dvd 1 1 (demo_dvd, false).

Lemma demo_dvd_ok : dvd_ok (d_unit demo_dvd).
Proof. intros k. apply length_replicate. Qed.

Lemma dvd_read_demo :
  runs (xenon_atapi_read_sectors 5 0xBAD 50 1 0x80100200) demo_atapi (fun r s' => r = 1) /\
  runs (atapi_readsectors 5 0xBAD 50 1 0x80100200) demo_atapi (fun r s' => r = true).
Proof.
  destruct (dvd_read (LW := dvd_laws) 5 dvd_fuel the_dvd eq_refl eq_refl ltac:(vm_compute; discriminate) 0xBAD 50 1 0x80100200 demo_atapi demo_dvd) as [H1 H2].
  - split; reflexivity.
  - apply demo_dvd_ok.
  - lia.
  - lia.
  - cbn. lia.
  - lia.
  - split; [reflexivity|vm_compute; discriminate|vm_compute; discriminate|left; vm_compute; discriminate].
  - split; [|exact H2]. eapply runs_mono; [|exact H1]. intros r s' (x' & _ & _ & Hr). cbn in Hr. exact (proj1 Hr).
Defined.

Lemma dvd_is_disc_demo : drive_ok (disc_of 5 0xBAD 0x80100000 demo_atapi) (dvd_content (d_unit demo_dvd)) 80 /\
  disc_of 5 0xBAD 0x80100000 demo_atapi 16 1 = Some (bytes (dvd_content (d_unit demo_dvd)) (16 * SECTOR_SIZE) SECTOR_SIZE).
Proof.
  destruct (dvd_is_disc (LW := dvd_laws) 5 dvd_fuel the_dvd eq_refl eq_refl ltac:(vm_compute; discriminate) 0xBAD 0x80100000 demo_atapi demo_dvd 80) as (H1 & H2 & _).
  - split; reflexivity.
  - apply demo_dvd_ok.
  - reflexivity.
  - cbn. lia.
  - lia.
  - lia.
  - cbn. lia.
  - split; [reflexivity|vm_compute; discriminate|vm_compute; discriminate|left; vm_compute; discriminate].
  - split; [exact H1|]. apply H2. lia.
Defined.
