(* ===== verification/Xe.v ===== *)
(** * Graphics driver: the device, its command buffers and its render state

    The model of [xenos/xe.c]: [struct XenosDevice] with the shadow copies of
    the chip's state (shader constants, fetch constants, clip planes, control
    words), the bits that say which copies have changed since they were sent,
    the secondary command buffer the driver writes packets to and the primary
    ring that tells the chip where they are.  Floating-point numbers are their
    32-bit patterns.  Pointers are integers, 0 the null pointer; the shaders,
    vertex buffers, index buffers and surfaces they point to are finite maps.

    [Xe_Fatal] and a failing [assert] end the program: they are [Fault], as
    is a write outside an array of the device or of a command buffer.  The
    data caches ([memdcbst], [memdcbf]) have no part in the model: the chip
    reads the memory the processor wrote. *)
From Stdlib Require Import SpecFloat.
From S2P Require Import Prelude Bits.

Definition RINGBUFFER_PRIMARY_SIZE : Z := 0x2000.
Definition RINGBUFFER_SECONDARY_SIZE : Z := 0x100000.
Definition RINGBUFFER_SECONDARY_GUARD : Z := 0x80000.
Definition SEGMENT_SIZE : Z := 1024.
Definition XE_MAX_INDICES_PER_DRAW : Z := 65535.
Definition XE_SHADER_MAX_INSTANCES : Z := 16.

Definition SHADER_TYPE_PIXEL : Z := 1.
Definition SHADER_TYPE_VERTEX : Z := 0.

Definition DIRTY_ALU : Z := 0x0001.
Definition DIRTY_FETCH : Z := 0x0002.
Definition DIRTY_CLIP : Z := 0x0004.
Definition DIRTY_INTEGER : Z := 0x0008.
Definition DIRTY_CONTROL : Z := 0x0010.
Definition DIRTY_SHADER : Z := 0x0020.
Definition DIRTY_MISC : Z := 0x0040.

Definition XE_FMT_MASK : Z := 0x3F.
Definition XE_FMT_8 : Z := 2.
Definition XE_FMT_5551 : Z := 3.
Definition XE_FMT_565 : Z := 4.
Definition XE_FMT_8888 : Z := 6.
Definition XE_FMT_16161616 : Z := 26.

Definition XE_LOCK_READ : Z := 1.
Definition XE_LOCK_WRITE : Z := 2.

(** ** Data *)

Record XenosLock := mkLock { lock_start : Z; lock_phys : Z; lock_size : Z; lock_flags : Z }.
#[export] Instance eta_XenosLock : Eta XenosLock := fun x =>
  mkLock (lock_start x) (lock_phys x) (lock_size x) (lock_flags x).

(** The shader file is the bytes [shader] points to. *)
Record XenosShader := mkShader {
  shader : list Z;
  shader_phys : list Z;
  shader_phys_size : Z;
  program_control : Z;
  context_misc : Z;
  shader_instance : list Z }.
#[export] Instance eta_XenosShader : Eta XenosShader := fun x =>
  mkShader (shader x) (shader_phys x) (shader_phys_size x) (program_control x) (context_misc x) (shader_instance x).

Record XenosVBFElement := mkElement { usage : Z; element_index : Z; fmt : Z }.

Record XenosSurface := mkSurface {
  width : Z; height : Z; wpitch : Z; hpitch : Z; tiled : Z; format : Z;
  ptr : Z; ptr_mip : Z; bypp : Z;
  use_filtering : Z; u_addressing : Z; v_addressing : Z;
  surface_base : Z; surface_lock : XenosLock }.
#[export] Instance eta_XenosSurface : Eta XenosSurface := fun x =>
  mkSurface (width x) (height x) (wpitch x) (hpitch x) (tiled x) (format x) (ptr x) (ptr_mip x) (bypp x)
    (use_filtering x) (u_addressing x) (v_addressing x) (surface_base x) (surface_lock x).

(** [vb_data] is the memory at [base], as words. *)
Record XenosVertexBuffer := mkVB {
  vb_phys_base : Z; vertices : Z; vb_size : Z; space : Z; vb_base : Z;
  vb_data : gmap Z Z; vb_lock : XenosLock; next : Z }.
#[export] Instance eta_XenosVertexBuffer : Eta XenosVertexBuffer := fun x =>
  mkVB (vb_phys_base x) (vertices x) (vb_size x) (space x) (vb_base x) (vb_data x) (vb_lock x) (next x).

Record XenosIndexBuffer := mkIB {
  ib_phys_base : Z; indices : Z; ib_size : Z; ib_base : Z; ib_fmt : Z; ib_lock : XenosLock }.
#[export] Instance eta_XenosIndexBuffer : Eta XenosIndexBuffer := fun x =>
  mkIB (ib_phys_base x) (indices x) (ib_size x) (ib_base x) (ib_fmt x) (ib_lock x).

(** The device; its last fields are the objects in memory it points to, the
    writes to the chip's own registers, latest first, how many reads of them
    and how many allocations there have been, and the code of the shader
    instances, as words. *)
Record XenosDevice := mkXe {
  alu_constants : list Z;
  fetch_constants : list Z;
  alu_dirty : Z;
  fetch_dirty : Z;
  clipplane : list Z;
  integer_constants : list Z;
  controlpacket : list Z;
  stencildata : list Z;
  alpharef : Z;
  vs : Z;
  ps : Z;
  vs_index : Z;
  dirty : Z;
  rb_secondary_base : Z;
  rb_primary : gmap Z Z;
  rb_secondary : gmap Z Z;
  rb_primary_wptr : Z;
  rb_secondary_wptr : Z;
  rt : Z;
  last_wptr : Z;
  vp_xres : Z;
  vp_yres : Z;
  vp_xoffset : Z;
  vp_yoffset : Z;
  vp_znear : Z;
  vp_zfar : Z;
  frameidx : Z;
  clear_color : Z;
  clear_stencil_z : Z;
  msaa_samples : Z;
  vb_current : Z;
  vb_head : Z;
  vb_current_pitch : Z;
  vb_pool : Z;
  vb_pool_after_frame : Z;
  tris_drawn : Z;
  current_ib : Z;
  current_vb : Z;
  edram_colorformat : Z;
  edram_depthbase : Z;
  edram_color0base : Z;
  edram_hizpitch : Z;
  edram_pitch : Z;
  scissor_enable : Z;
  scissor_ltrb : list Z;
  color_mask : Z;
  shaders : gmap Z XenosShader;
  vbs : gmap Z XenosVertexBuffer;
  ibs : gmap Z XenosIndexBuffer;
  surfaces : gmap Z XenosSurface;
  reg_writes : list (Z * Z);
  reg_reads : Z;
  allocs : Z;
  shader_mem : gmap Z (list Z) }.
#[export] Instance eta_XenosDevice : Eta XenosDevice := fun x =>
  mkXe (alu_constants x) (fetch_constants x) (alu_dirty x) (fetch_dirty x) (clipplane x) (integer_constants x)
    (controlpacket x) (stencildata x) (alpharef x) (vs x) (ps x) (vs_index x) (dirty x) (rb_secondary_base x)
    (rb_primary x) (rb_secondary x) (rb_primary_wptr x) (rb_secondary_wptr x) (rt x) (last_wptr x)
    (vp_xres x) (vp_yres x) (vp_xoffset x) (vp_yoffset x) (vp_znear x) (vp_zfar x) (frameidx x)
    (clear_color x) (clear_stencil_z x) (msaa_samples x) (vb_current x) (vb_head x) (vb_current_pitch x)
    (vb_pool x) (vb_pool_after_frame x) (tris_drawn x) (current_ib x) (current_vb x)
    (edram_colorformat x) (edram_depthbase x) (edram_color0base x) (edram_hizpitch x) (edram_pitch x)
    (scissor_enable x) (scissor_ltrb x) (color_mask x) (shaders x) (vbs x) (ibs x) (surfaces x) (reg_writes x)
    (reg_reads x) (allocs x) (shader_mem x).

Definition XM (A : Type) : Type := M XenosDevice A.

(** [Xe_Fatal] prints and calls [abort]. *)
Definition Xe_Fatal {A} : XM A := fault.
(** [assert(b)] *)
Definition assert_ (b : bool) : XM unit := if b then ret tt else fault.
(** [memcpy(a + i, l, 4 * length l)] into an array of [n] words. *)
Definition store (n : Z) (a : XenosDevice -> list Z) {S : Setter a} (i : Z) (l : list Z) : XM unit :=
  if (0 <=? i) && (i + Z.of_nat (length l) <=? n) then modify (set a (write_at (Z.to_nat i) l)) else fault.
(** [a[i] = f(a[i])] for an index that is a literal inside the array. *)
Definition upd (a : XenosDevice -> list Z) {S : Setter a} (i : nat) (f : Z -> Z) : XM unit :=
  modify (set a (alter f i)).
Definition set_dirty (bits : Z) : XM unit := modify (fun xe => xe <| dirty ::= fun d => d .| bits |>).
Definition dirty_has (bit : Z) (xe : XenosDevice) : bool := nz (dirty xe .& bit).

(** ** Numbers as floating-point patterns *)

(** The 32-bit pattern of a number rounded to single precision. *)
Definition f32_pattern (x : spec_float) : Z :=
  match x with
  | S754_zero s => if s then 0x80000000 else 0
  | S754_infinity s => if s then 0xFF800000 else 0x7F800000
  | S754_nan => 0x7FC00000
  | S754_finite s m e =>
      (if s then 0x80000000 else 0) +
      (if 2 ^ 23 <=? Zpos m then (e + 150) * 2 ^ 23 + (Zpos m - 2 ^ 23) else Zpos m)
  end.
(** [(float)n] and [(float)(n / 2.0)]: both the conversion of an [int] to
    [double] and its half are exact, so there is one rounding. *)
Definition f32_of (n : Z) : Z := f32_pattern (binary_normalize 24 128 n 0 false).
Definition f32_half (n : Z) : Z := f32_pattern (binary_normalize 24 128 n (-1) false).

(** [(unsigned int)f]: the fraction is dropped; a value that does not fit,
    an infinity or a NaN has no defined conversion. *)
Definition f32_to_uint (f : Z) : option Z :=
  let e := (f .>> 23) .& 0xFF in
  let m := if e =? 0 then f .& 0x7FFFFF else 0x800000 .| (f .& 0x7FFFFF) in
  let a := Z.shiftl m ((if e =? 0 then 1 else e) - 150) in
  if e =? 255 then None
  else if Z.testbit f 31 then (if a =? 0 then Some 0 else None)
  else if a <? 2 ^ 32 then Some a else None.

(** ** Command buffers *)

Fixpoint put_ring (a : Z) (ws : list Z) (m : gmap Z Z) : gmap Z Z :=
  match ws with
  | [] => m
  | w :: ws => put_ring (a + 1) ws (<[a := w]> m)
  end.
Definition get_ring (m : gmap Z Z) (a : Z) (n : nat) : list Z := (fun i => default 0 (m !! (a + Z.of_nat i))) <$> seq 0 n.

(** [rput(base, len)]: copy the words to the secondary buffer. *)
Definition rput (ws : list Z) : XM unit := fun xe =>
  let w := rb_secondary_wptr xe in
  if (0 <=? w) && (w + Z.of_nat (length ws) <=? RINGBUFFER_SECONDARY_SIZE) then
    Ok tt (xe <| rb_secondary ::= put_ring w ws |> <| rb_secondary_wptr := w + Z.of_nat (length ws) |>)
  else Fault.
Definition rput32 (d : Z) : XM unit := rput [d].
Fixpoint rput32s (ws : list Z) : XM unit :=
  match ws with
  | [] => ret tt
  | w :: ws => rput32 w ;; rput32s ws
  end.

Definition rput32p (d : Z) : XM unit := modify (fun xe =>
  xe <| rb_primary ::= <[rb_primary_wptr xe := d]> |>
     <| rb_primary_wptr := if rb_primary_wptr xe + 1 =? RINGBUFFER_PRIMARY_SIZE then 0 else rb_primary_wptr xe + 1 |>).
Definition w32 (o v : Z) : XM unit := modify (fun xe => xe <| reg_writes ::= cons (o, v) |>).

(** [CP_PACKET0(reg, n)] *)
Definition CP_PACKET0 (reg n : Z) : Z := (n .<< 16) .| (reg .>> 2).

Definition Xe_pWriteReg (reg val : Z) : XM unit := rput32 (CP_PACKET0 reg 0) ;; rput32 val.
Definition SurfaceInfo (surface_pitch msaa hi_zpitch : Z) : Z :=
  u32 (surface_pitch .| (msaa .<< 16) .| (hi_zpitch .<< 18)).
Definition xy32 (x y : Z) : Z := u32 (x .| (y .<< 16)).

Definition Xe_pInvalidateGpuCache_Primary (base size : Z) : XM unit :=
  let size := (size + 0x1FFF) .& not32 0x1FFF in
  rput32p 0x00000a31 ;; rput32p 0x01000000 ;;
  rput32p 0x00010a2f ;; rput32p size ;; rput32p base ;;
  rput32p 0xc0043c00 ;; rput32p 0x00000003 ;; rput32p 0x00000a31 ;; rput32p 0 ;; rput32p 0x80000000 ;; rput32p 8.

Definition Xe_pRBCommitPrimary : XM unit :=
  for_each (seq 0 0x20) (fun _ => rput32p 0x80000000) ;;
  w <- gets rb_primary_wptr ;;
  w32 0x0714 w.

Definition Xe_pRBKickSegment (base len : Z) : XM unit :=
  b <- gets rb_secondary_base ;;
  Xe_pInvalidateGpuCache_Primary (u32 (b + base * 4)) (len * 4 + 0x1000) ;;
  rput32p 0xc0013f00 ;; rput32p (u32 (b + base * 4)) ;; rput32p len.

Definition Xe_pRBKick : XM unit :=
  xe <- get ;;
  Xe_pRBKickSegment (last_wptr xe) (rb_secondary_wptr xe - last_wptr xe) ;;
  modify (fun xe => xe <| rb_secondary_wptr ::= fun w => w + (- w) .& 0x1F |>) ;;
  w <- gets rb_secondary_wptr ;;
  (if RINGBUFFER_SECONDARY_SIZE <=? w then Xe_Fatal else ret tt) ;;
  when (RINGBUFFER_SECONDARY_SIZE - RINGBUFFER_SECONDARY_GUARD <? w)
    (modify (fun xe => xe <| rb_secondary_wptr := 0 |>)) ;;
  modify (fun xe => xe <| last_wptr := rb_secondary_wptr xe |>) ;;
  Xe_pRBCommitPrimary.

Definition Xe_pRBMayKick : XM unit :=
  xe <- get ;;
  let distance := rb_secondary_wptr xe - last_wptr xe in
  let distance := if distance <? 0 then distance + RINGBUFFER_SECONDARY_SIZE else distance in
  when (SEGMENT_SIZE <=? distance) Xe_pRBKick.

(** ** Packets *)

Definition Xe_pSetSurfaceClip (offset_x offset_y sc_left sc_top sc_right sc_bottom : Z) : XM unit :=
  rput32 0x00022080 ;;
  rput32 (xy32 offset_x offset_y) ;; rput32 (xy32 sc_left sc_top) ;; rput32 (xy32 sc_right sc_bottom).

Definition Xe_pSetBin (mask_low select_low mask_hi select_hi : Z) : XM unit :=
  rput32s [0xc0006000; mask_low; 0xc0006200; select_low; 0xc0006100; mask_hi; 0xc0006300; select_hi].

Definition Xe_pWaitUntilIdle (what : Z) : XM unit := rput32s [0x000005c8; what].

Definition Xe_pDrawNonIndexed (num_points primtype : Z) : XM unit :=
  rput32 0xc0012201 ;; rput32 0 ;; rput32 (u32 (0x80 .| (num_points .<< 16) .| primtype)).

Definition Xe_pDrawIndexedPrimitive (primtype num_points indexbuffer indexbuffer_size indextype : Z) : XM unit :=
  assert_ (num_points <=? XE_MAX_INDICES_PER_DRAW) ;;
  rput32 0xc0032201 ;; rput32 0 ;;
  rput32 (u32 (0 .| (0 .<< 6) .| primtype .| (num_points .<< 16) .| (indextype .<< 11))) ;;
  rput32 indexbuffer ;;
  rput32 ((indexbuffer_size .| 0x40000000) .<< indextype).

Definition Xe_pSetIndexOffset (offset : Z) : XM unit := rput32 0x00002102 ;; rput32 (u32 offset).

Definition Xe_pInvalidateGpuCache (base size : Z) : XM unit :=
  rput32s [0x00000a31; 0x01000000; 0x00010a2f; u32 size; u32 base;
           0xc0043c00; 0x00000003; 0x00000a31; 0; 0x80000000; 8].
Definition Xe_pInvalidateGpuCacheAll (base size : Z) : XM unit :=
  rput32s [0x00000a31; 0x03000100; 0x00010a2f; u32 size; u32 base;
           0xc0043c00; 0x00000003; 0x00000a31; 0; 0x80000000; 8].

Definition Xe_pLoadShader (base type size : Z) : XM unit :=
  rput32 0xc0012700 ;; rput32 (base .| type) ;; rput32 size.

(** At most three words of padding. *)
Definition Xe_pAlign : XM unit :=
  while 4 (fun _ => w <- gets rb_secondary_wptr ;;
                    if negb (w .& 3 =? 3) then rput32 0x80000000 ;; ret (Some tt) else ret None) tt ;;
  ret tt.

Definition Xe_pBlockUntilIdle : XM unit := Xe_pWriteReg 0x1720 0x20000.
Definition Xe_pStep (x : Z) : XM unit := Xe_pWriteReg 0x15e0 x.
Definition Xe_pStuff : XM unit := rput32s [0x00072380; 0; 0; 0; 0; 0; 0; 0; 0].
Definition Xe_Execute : XM unit := Xe_pBlockUntilIdle ;; Xe_pRBKick.

(** ** What has changed *)

(** [1 << base] is defined for bases below 32. *)
Fixpoint mark (field : XenosDevice -> Z) {S : Setter field} (n : nat) (step base len : Z) : XM unit :=
  if 0 <? len then
    match n with
    | O => fault
    | Datatypes.S n =>
        (if (0 <=? base) && (base <? 32) then modify (set field (fun d => d .| (1 .<< base))) else fault) ;;
        mark field n step (base + 1) (len - step)
    end
  else ret tt.

Definition Xe_DirtyAluConstant (base len : Z) : XM unit :=
  mark alu_dirty 33 16 (base .>> 4) (len + base .& 15) ;; set_dirty DIRTY_ALU.
Definition Xe_DirtyFetch (base len : Z) : XM unit :=
  mark fetch_dirty 33 3 (Z.quot base 3) (len + Z.rem base 3) ;; set_dirty DIRTY_FETCH.

(** ** Setters *)

Definition Xe_pInitControl : XM unit :=
  xe <- get ;;
  modify (fun xe => xe
    <| controlpacket := [0x00700736 .| 0x80; 0x00010001; 0x87000007; 0; 0x00080000;
         if nz (msaa_samples xe) then 0x00010006 .| (1 .<< 15) else 0x00010006; 0x0000043f; 0; 4] |>
    <| stencildata := [0xFFFF00; 0xFFFF00] |>) ;;
  set_dirty (DIRTY_CONTROL .| DIRTY_MISC).

(** [w = (w & ~mask) | v], for words. *)
Definition field (mask v w : Z) : Z := (w .& not32 mask) .| u32 v.

Definition Xe_SetZFunc (z_func : Z) : XM unit :=
  upd controlpacket 0 (field 0x70 (z_func .<< 4)) ;; set_dirty DIRTY_CONTROL.
Definition Xe_SetZWrite (zw : Z) : XM unit :=
  upd controlpacket 0 (field 4 (zw .<< 2)) ;; set_dirty DIRTY_CONTROL.
Definition Xe_SetZEnable (ze : Z) : XM unit :=
  upd controlpacket 0 (field 2 (ze .<< 1)) ;; set_dirty DIRTY_CONTROL.
Definition Xe_SetFillMode (front back : Z) : XM unit :=
  upd controlpacket 5 (fun w => (w .& not32 (0x3f .<< 5)) .| (front .<< 5) .| (back .<< 8) .| (1 .<< 3)) ;;
  set_dirty DIRTY_CONTROL.
Definition Xe_SetBlendControl (col_src col_op col_dst alpha_src alpha_op alpha_dst : Z) : XM unit :=
  upd controlpacket 1 (fun _ => u32 col_src .| (col_op .<< 5) .| (col_dst .<< 8) .|
                                (alpha_src .<< 16) .| (alpha_op .<< 21) .| (alpha_dst .<< 24)) ;;
  set_dirty DIRTY_CONTROL.
Definition Xe_SetSrcBlend (blend : Z) : XM unit :=
  assert_ (blend <? 32) ;; upd controlpacket 1 (field 0x1F blend) ;; set_dirty DIRTY_CONTROL.
Definition Xe_SetDestBlend (blend : Z) : XM unit :=
  assert_ (blend <? 32) ;; upd controlpacket 1 (field (0x1F .<< 8) (blend .<< 8)) ;; set_dirty DIRTY_CONTROL.
Definition Xe_SetBlendOp (blendop : Z) : XM unit :=
  assert_ (blendop <? 8) ;; upd controlpacket 1 (field (0x7 .<< 5) (blendop .<< 5)) ;; set_dirty DIRTY_CONTROL.
Definition Xe_SetSrcBlendAlpha (blend : Z) : XM unit :=
  assert_ (blend <? 32) ;; upd controlpacket 1 (field (0x1F .<< 16) (blend .<< 16)) ;; set_dirty DIRTY_CONTROL.
Definition Xe_SetDestBlendAlpha (blend : Z) : XM unit :=
  assert_ (blend <? 32) ;; upd controlpacket 1 (field (0x1F .<< 24) (blend .<< 24)) ;; set_dirty DIRTY_CONTROL.
Definition Xe_SetBlendOpAlpha (blendop : Z) : XM unit :=
  assert_ (blendop <? 8) ;; upd controlpacket 1 (field (0x7 .<< 21) (blendop .<< 21)) ;; set_dirty DIRTY_CONTROL.
Definition Xe_SetCullMode (cullmode : Z) : XM unit :=
  assert_ (cullmode <? 8) ;; upd controlpacket 5 (field 7 cullmode) ;; set_dirty DIRTY_CONTROL.
Definition Xe_SetAlphaTestEnable (enable : Z) : XM unit :=
  upd controlpacket 2 (field 8 ((if nz enable then 1 else 0) .<< 3)) ;; set_dirty DIRTY_CONTROL.
Definition Xe_SetAlphaFunc (func : Z) : XM unit :=
  assert_ (func <=? 7) ;; upd controlpacket 2 (field 7 func) ;; set_dirty DIRTY_CONTROL.
Definition Xe_SetAlphaRef (f : Z) : XM unit :=
  r <- of_option (f32_to_uint f) ;;
  modify (fun xe => xe <| alpharef := r |>) ;; set_dirty DIRTY_MISC.
Definition Xe_SetStencilFunc (bfff func : Z) : XM unit :=
  assert_ (func <=? 7) ;;
  when (nz (bfff .& 1)) (upd controlpacket 0 (field (7 .<< 8) (func .<< 8))) ;;
  when (nz (bfff .& 2)) (upd controlpacket 0 (field (7 .<< 20) (func .<< 20))) ;;
  set_dirty DIRTY_CONTROL.
Definition Xe_SetStencilEnable (enable : Z) : XM unit :=
  assert_ (enable <=? 1) ;; upd controlpacket 0 (field 1 enable) ;; set_dirty DIRTY_CONTROL.
Definition Xe_SetStencilOp (bfff fail zfail pass : Z) : XM unit :=
  assert_ (fail <=? 7) ;; assert_ (zfail <=? 7) ;; assert_ (pass <=? 7) ;;
  when (nz (bfff .& 1))
    (when (0 <=? fail) (upd controlpacket 0 (field (7 .<< 11) (fail .<< 11))) ;;
     when (0 <=? pass) (upd controlpacket 0 (field (7 .<< 14) (pass .<< 14))) ;;
     when (0 <=? zfail) (upd controlpacket 0 (field (7 .<< 17) (zfail .<< 17)))) ;;
  when (nz (bfff .& 2))
    (when (0 <=? fail) (upd controlpacket 0 (field (7 .<< 23) (fail .<< 23))) ;;
     when (0 <=? pass) (upd controlpacket 0 (field (7 .<< 26) (pass .<< 26))) ;;
     when (0 <=? zfail) (upd controlpacket 0 (field (7 .<< 29) (zfail .<< 29)))) ;;
  set_dirty DIRTY_CONTROL.
Definition Xe_SetStencilRef (bfff ref : Z) : XM unit :=
  when (nz (bfff .& 1)) (upd stencildata 1 (field 0xFF ref)) ;;
  when (nz (bfff .& 2)) (upd stencildata 0 (field 0xFF ref)) ;; set_dirty DIRTY_MISC.
Definition Xe_SetStencilMask (bfff mask : Z) : XM unit :=
  when (nz (bfff .& 1)) (upd stencildata 1 (field 0xFF00 (mask .<< 8))) ;;
  when (nz (bfff .& 2)) (upd stencildata 0 (field 0xFF00 (mask .<< 8))) ;; set_dirty DIRTY_MISC.
Definition Xe_SetStencilWriteMask (bfff writemask : Z) : XM unit :=
  when (nz (bfff .& 1)) (upd stencildata 1 (field 0xFF0000 (writemask .<< 16))) ;;
  when (nz (bfff .& 2)) (upd stencildata 0 (field 0xFF0000 (writemask .<< 16))) ;; set_dirty DIRTY_MISC.
Definition Xe_SetScissor (enable left top right bottom : Z) : XM unit :=
  modify (fun xe => xe <| scissor_enable := enable |>) ;;
  when (0 <=? left) (upd scissor_ltrb 0 (fun _ => left)) ;;
  when (0 <=? top) (upd scissor_ltrb 1 (fun _ => top)) ;;
  when (0 <=? right) (upd scissor_ltrb 2 (fun _ => right)) ;;
  when (0 <=? bottom) (upd scissor_ltrb 3 (fun _ => bottom)) ;;
  set_dirty DIRTY_MISC.
Definition Xe_SetClipPlaneEnables (enables : Z) : XM unit :=
  upd controlpacket 4 (field 0x3f (enables .& 0x3f)) ;; set_dirty DIRTY_CONTROL.
Definition Xe_SetClipPlane (idx : Z) (plane : Z * Z * Z * Z) : XM unit :=
  assert_ ((0 <=? idx) && (idx <? 6)) ;;
  let '(a, b, c, d) := plane in
  store 24 clipplane (idx * 4) [a; b; c; d] ;; set_dirty DIRTY_CLIP.
Definition Xe_InvalidateState : XM unit :=
  modify (fun xe => xe <| dirty := -1 |> <| alu_dirty := 0xFFFFFFFF |> <| fetch_dirty := 0xFFFFFFFF |>) ;;
  Xe_pInitControl.
Definition Xe_SetClearColor (c : Z) : XM unit := modify (fun xe => xe <| clear_color := c |>).
Definition Xe_SetIndices (ib : Z) : XM unit := modify (fun xe => xe <| current_ib := ib |>).
Definition Xe_SetViewport (x y w h znear zfar : Z) : XM unit :=
  set_dirty DIRTY_MISC ;;
  modify (fun xe => xe <| vp_xres := w |> <| vp_yres := h |> <| vp_xoffset := x |> <| vp_yoffset := y |>
                       <| vp_znear := znear |> <| vp_zfar := zfar |>).

(** [*p] for a shader; null and dangling pointers fault. *)
Definition shader_at (p : Z) : XM XenosShader := xe <- get ;; of_option (shaders xe !! p).

Definition Xe_SetShader (type sh index : Z) : XM unit :=
  if type =? SHADER_TYPE_PIXEL then
    xe <- get ;;
    when (negb (ps xe =? sh)) (modify (fun xe => xe <| ps := sh |>) ;; set_dirty DIRTY_SHADER)
  else
    s <- shader_at sh ;;
    i <- of_option (if 0 <=? index then shader_instance s !! Z.to_nat index else None) ;;
    assert_ (nz i) ;;
    xe <- get ;;
    when (negb (vs xe =? sh) || negb (vs_index xe =? index))
      (modify (fun xe => xe <| vs := sh |> <| vs_index := index |>) ;; set_dirty DIRTY_SHADER).

(** [data] has four words for each of the [count] constants; fewer fault. *)
Definition first_words (data : list Z) (n : Z) : XM (list Z) :=
  if (0 <=? n) && (n <=? Z.of_nat (length data)) then ret (take (Z.to_nat n) data) else fault.
Definition Xe_SetVertexShaderConstantF (start : Z) (data : list Z) (count : Z) : XM unit :=
  l <- first_words data (count * 4) ;;
  store 2048 alu_constants (start * 4) l ;; Xe_DirtyAluConstant start count.
Definition Xe_SetPixelShaderConstantF (start : Z) (data : list Z) (count : Z) : XM unit :=
  let start := start + 256 in
  l <- first_words data (count * 4) ;;
  store 2048 alu_constants (start * 4) l ;; Xe_DirtyAluConstant start count.

Definition set_bool (index value : Z) : XM unit :=
  let bit := 1 .<< (index .& 0x1f) in
  let block := index .>> 5 in
  (if (0 <=? block) && (block <? 40) then
     upd integer_constants (Z.to_nat block) (fun w => if nz value then w .| bit else w .& not32 bit)
   else fault) ;;
  set_dirty DIRTY_INTEGER.
Definition Xe_SetVertexShaderConstantB (index value : Z) : XM unit := set_bool index value.
Definition Xe_SetPixelShaderConstantB (index value : Z) : XM unit := set_bool (index + 128) value.

(** ** Fetch constants *)

Definition VERTEX_FETCH (base len : Z) : list Z := [base .| 3; u32 (0x10000002 .| (len .<< 2))].

(** What the chip counts a row's length in, for a format. *)
Definition pitch_unit (format : Z) : option Z :=
  let f := format .& XE_FMT_MASK in
  if f =? XE_FMT_8 then Some 32
  else if (f =? XE_FMT_5551) || (f =? XE_FMT_565) then Some 64
  else if f =? XE_FMT_16161616 then Some 256
  else if f =? XE_FMT_8888 then Some 128
  else None.
(** [abort] for a format that is none of these. *)
Definition TEXTURE_FETCH (base width height pitch tiled format base_mip anisop filter uaddr vaddr : Z) : option (list Z) :=
  n ← pitch_unit format;
  let pitch := Z.quot pitch n in
  Some [ u32 (2 .| (pitch .<< 22) .| (tiled .<< 31) .| (uaddr .<< 10) .| (vaddr .<< 13));
         u32 (0 .| base .| format);
         u32 ((height .<< 13) .| width);
         u32 (0x00a00c14 .| (anisop .<< 25) .| (filter .<< 19));
         (if nz base_mip then 0x00000e03 else 0);
         u32 (0x00000a00 .| base_mip) ].

Definition Xe_SetTexture (index tex : Z) : XM unit :=
  xe <- get ;;
  (if nz tex then
     t <- of_option (surfaces xe !! tex) ;;
     f <- of_option (TEXTURE_FETCH (ptr t) (width t - 1) (height t - 1) (wpitch t) (tiled t) (format t)
                                   (ptr_mip t) 2 (use_filtering t) (u_addressing t) (v_addressing t)) ;;
     store 192 fetch_constants (index * 6) f
   else store 192 fetch_constants (index * 6) [0; 0; 0; 0; 0; 0]) ;;
  Xe_DirtyFetch (index + index * 3) 3.

Definition vb_at (p : Z) : XM XenosVertexBuffer := xe <- get ;; of_option (vbs xe !! p).
Definition ib_at (p : Z) : XM XenosIndexBuffer := xe <- get ;; of_option (ibs xe !! p).

Definition Xe_SetStreamSource (index vb offset stride : Z) : XM unit :=
  v <- vb_at vb ;;
  (if nz (lock_start (vb_lock v)) then Xe_Fatal else ret tt) ;;
  modify (fun xe => xe <| current_vb := vb |>) ;;
  store 192 fetch_constants ((95 + index) * 2) (VERTEX_FETCH (u32 (vb_phys_base v + offset)) (space v - offset)) ;;
  Xe_DirtyFetch (95 + index) 1.

(** ** Sending the state *)

(** [for (start = 0; start < 32; ++start) if (d & (1<<start)) break;] *)
Fixpoint scan_start (n : nat) (d start : Z) : Z :=
  match n with
  | O => start
  | Datatypes.S n => if nz (d .& (1 .<< start)) then start else scan_start n d (start + 1)
  end.
(** [for (end = start; end < 32; ++end) if (!(d & (1<<end))) break; else d &= ~(1<<end);] *)
Fixpoint scan_end (n : nat) (d end_ : Z) : Z * Z :=
  match n with
  | O => (end_, d)
  | Datatypes.S n =>
      if nz (d .& (1 .<< end_)) then scan_end n (d .& not32 (1 .<< end_)) (end_ + 1) else (end_, d)
  end.

(** [l + off] as the [n] words there. *)
Definition slice (off n : Z) (l : list Z) : list Z := take (Z.to_nat n) (drop (Z.to_nat off) l).

(** The loop of the two functions below: runs of dirty blocks, a block being
    [c] constants of [m] words, are sent to the registers from [reg] on. *)
Definition upload_dirty (d : XenosDevice -> Z) {S : Setter d} (a : XenosDevice -> list Z) (reg c m : Z) : XM unit :=
  while 33 (fun _ =>
    xe <- get ;;
    if nz (d xe) then
      let start := scan_start 32 (d xe) 0 in
      let '(end_, d') := scan_end (Z.to_nat (32 - start)) (d xe) start in
      modify (set d (fun _ => d')) ;;
      let base := start * c in
      let num := (end_ - start) * c * m in
      Xe_pAlign ;;
      rput32 (reg .| (base * m) .| ((num - 1) .<< 16)) ;;
      rput (slice (base * m) num (a xe)) ;;
      ret (Some tt)
    else ret None) tt ;;
  ret tt.
Definition Xe_pUploadALUConstants : XM unit := upload_dirty alu_dirty alu_constants 0x00004000 16 4.
Definition Xe_pUploadFetchConstants : XM unit := upload_dirty fetch_dirty fetch_constants 0x00004800 3 2.

Definition Xe_pUploadClipPlane : XM unit :=
  Xe_pAlign ;; rput32 0x00172388 ;; l <- gets clipplane ;; rput l.
Definition Xe_pUploadIntegerConstants : XM unit :=
  Xe_pAlign ;; rput32 0x00274900 ;; l <- gets integer_constants ;; rput l.
Definition Xe_pUploadControl : XM unit :=
  rput32 0x00082200 ;; l <- gets controlpacket ;; rput l.

(** Reads of the shader file, big-endian; past its end they fault. *)
Definition rd16 (b : list Z) (i : Z) : XM Z :=
  match slice i 2 b with [x; y] => ret (x * 256 + y) | _ => fault end.
Definition rd32 (b : list Z) (i : Z) : XM Z :=
  match slice i 4 b with [x; y; z; w] => ret (get_be x y z w) | _ => fault end.
Definition rdwords (b : list Z) (i n : Z) : XM (list Z) :=
  let l := words_of (slice i (4 * n) b) in
  if Z.of_nat (length l) =? n then ret l else fault.

(** Offsets of the fields of [struct XenosShaderHeader]. *)
Definition hdr_offset : Z := 4.
Definition hdr_off_constants : Z := 20.
Definition hdr_off_shader : Z := 24.

(** The two [for(;;)] loops; each turn moves [constants] forward. *)
Definition load_float_constants (b : list Z) (constants : Z) : XM Z :=
  off <- rd32 b hdr_offset ;;
  c <- while (S (length b)) (fun c =>
    start <- rd16 b c ;; count <- rd16 b (c + 2) ;;
    if nz count then
      offset <- rd32 b (c + 4) ;;
      l <- rdwords b (off + offset) count ;;
      store 2048 alu_constants (start * 4) l ;;
      Xe_DirtyAluConstant start count ;;
      ret (Some (c + 8))
    else ret None) constants ;;
  ret (c + 4).
Definition load_int_constants (b : list Z) (constants : Z) : XM Z :=
  while (S (length b)) (fun c =>
    start <- rd16 b c ;; count <- rd16 b (c + 2) ;;
    if nz count then
      l <- rdwords b (c + 4) count ;;
      store 40 integer_constants (Z.quot (start - 0x2300) 4) l ;;
      set_dirty DIRTY_INTEGER ;;
      ret (Some (c + 4 + count * 4 + 4))
    else ret None) constants.

Definition Xe_pUploadShaderConstants (s : XenosShader) : XM unit :=
  off_constants <- rd32 (shader s) hdr_off_constants ;;
  when (nz off_constants)
    (c <- load_float_constants (shader s) (off_constants + 16 + 4) ;;
     load_int_constants (shader s) c ;;
     ret tt).

(** [sh->shader_phys[i]] *)
Definition phys_of (s : XenosShader) (i : Z) : XM Z :=
  of_option (if 0 <=? i then shader_phys s !! Z.to_nat i else None).

Definition Xe_pUploadShader : XM unit :=
  xe <- get ;;
  a <- (if nz (ps xe) then
          s <- shader_at (ps xe) ;;
          p <- phys_of s 0 ;;
          Xe_pLoadShader p SHADER_TYPE_PIXEL (shader_phys_size s) ;;
          Xe_pUploadShaderConstants s ;;
          ret (program_control s, context_misc s)
        else ret (0, 0)) ;;
  b <- (if nz (vs xe) then
          s <- shader_at (vs xe) ;;
          p <- phys_of s (vs_index xe) ;;
          Xe_pLoadShader p SHADER_TYPE_VERTEX (shader_phys_size s) ;;
          Xe_pUploadShaderConstants s ;;
          ret (program_control s, context_misc s)
        else ret (0, 0)) ;;
  rput32 0x00022180 ;;
  rput32 (a.1 .| b.1) ;; rput32 (a.2 .| b.2) ;; rput32 0xFFFFFFFF.

Definition Xe_pSetEDRAMLayout : XM unit :=
  xe <- get ;;
  rput32 0x00022000 ;;
  rput32 (SurfaceInfo (edram_pitch xe) (msaa_samples xe) (edram_hizpitch xe)) ;;
  rput32 (u32 ((edram_colorformat xe .<< 16) .| edram_color0base xe)) ;;
  rput32 (u32 (edram_depthbase xe .| (0 .<< 16))).

(** [vals[xe->msaa_samples]] *)
Definition msaa_sample_pos (xe : XenosDevice) : option Z :=
  if 0 <=? msaa_samples xe then [0; 2 .| (4 .<< 13); 4 .| (6 .<< 13)] !! Z.to_nat (msaa_samples xe) else None.

Definition upload_misc : XM unit :=
  xe <- get ;;
  (if nz (scissor_enable xe) then
     match scissor_ltrb xe with
     | [l; t; r; b] => Xe_pSetSurfaceClip 0 0 l t r b
     | _ => fault
     end
   else Xe_pSetSurfaceClip 0 0 0 0 (vp_xres xe) (vp_yres xe)) ;;
  Xe_pSetEDRAMLayout ;;
  rput32 0x0000200d ;; rput32 0 ;;
  rput32 0x00012100 ;; rput32 0x00ffffff ;; rput32 0 ;;
  rput32 0x00002104 ;; rput32 0x0000000f ;;
  rput32 0x0008210c ;;
  rput32 (nth 0 (stencildata xe) 0) ;; rput32 (nth 1 (stencildata xe) 0) ;;
  rput32 (f32_of (alpharef xe)) ;;
  rput32 (f32_half (vp_xres xe - vp_xoffset xe)) ;; rput32 (f32_half (vp_xres xe)) ;;
  rput32 (f32_half (- vp_yres xe)) ;; rput32 (f32_half (vp_yres xe)) ;;
  rput32 (vp_znear xe) ;; rput32 (vp_zfar xe) ;;
  v <- of_option (msaa_sample_pos xe) ;;
  rput32 0x00002301 ;; rput32 v ;;
  rput32 0x00002312 ;; rput32 0x0000ffff.

Definition if_dirty (bit : Z) (m : XM unit) : XM unit := xe <- get ;; when (dirty_has bit xe) m.

Definition Xe_pSetState : XM unit :=
  if_dirty DIRTY_CONTROL Xe_pUploadControl ;;
  if_dirty DIRTY_SHADER Xe_pUploadShader ;;
  if_dirty DIRTY_ALU Xe_pUploadALUConstants ;;
  if_dirty DIRTY_FETCH (Xe_pUploadFetchConstants ;; rput32s [0x00025000; 0; 0x00025000; 0]) ;;
  if_dirty DIRTY_CLIP Xe_pUploadClipPlane ;;
  if_dirty DIRTY_INTEGER Xe_pUploadIntegerConstants ;;
  if_dirty DIRTY_MISC upload_misc ;;
  modify (fun xe => xe <| dirty := 0 |>).

(** ** Drawing *)

Definition Xe_pCalcVtxCount (primtype primcnt : Z) : option Z :=
  if primtype =? 1 then Some primcnt
  else if primtype =? 2 then Some (primcnt * 2)
  else if primtype =? 3 then Some (1 + primcnt)
  else if primtype =? 4 then Some (primcnt * 3)
  else if (primtype =? 6) || (primtype =? 5) then Some (2 + primcnt)
  else if primtype =? 8 then Some (primcnt * 3)
  else if primtype =? 13 then Some (primcnt * 4)
  else None.

Definition assert_shaders : XM unit := xe <- get ;; assert_ (nz (ps xe)) ;; assert_ (nz (vs xe)).

Definition Xe_DrawPrimitive (type start primitive_count : Z) : XM unit :=
  assert_shaders ;;
  Xe_pStuff ;;
  Xe_pSetState ;;
  rput32 0x00002007 ;; rput32 0 ;;
  Xe_pSetIndexOffset start ;;
  cnt <- of_option (Xe_pCalcVtxCount type primitive_count) ;;
  Xe_pDrawNonIndexed cnt type.

Definition Xe_DrawIndexedPrimitive (type base_index min_index num_vertices start_index primitive_count : Z) : XM unit :=
  assert_shaders ;;
  Xe_pStuff ;;
  Xe_pSetState ;;
  rput32 0x00002007 ;; rput32 0 ;;
  Xe_pSetIndexOffset base_index ;;
  cnt <- of_option (Xe_pCalcVtxCount type primitive_count) ;;
  xe <- get ;;
  ib <- ib_at (current_ib xe) ;;
  let bpi := 2 .<< ib_fmt ib in
  Xe_pDrawIndexedPrimitive type cnt (u32 (ib_phys_base ib + bpi * start_index)) cnt (ib_fmt ib).
