(* ===== verification/XeGpu.v ===== *)
(** * The chip's command processor, and what a piece of driver code sends it

    The chip is known to the driver by the packets it reads.
    [CommandProcessor] states what the driver relies on: a packet of type 0
    writes its words to consecutive registers, a packet of type 2 is padding,
    the shader packet (0xc0012700) loads a program of one of the two kinds,
    and a draw packet leaves the registers as they are.  [sends] is the
    weakest precondition of driver code together with a chip that reads the
    words it puts into the secondary buffer. *)
From S2P Require Import Prelude Bits Xe.

Class CommandProcessor (G : Type) := {
  cp_run : list Z -> G -> G;
  cp_reg : G -> Z -> Z;
  cp_program : G -> Z -> Z * Z;
  cp_write : Z -> list Z -> G -> G;
  cp_load : Z -> Z -> Z -> G -> G;
  cp_draw : list Z -> G -> G;
  (** Type 0: the register number, the number of words less one in bits 16-29,
      then the words. *)
  cp_type0 : forall reg vals rest g,
    0x2000 <= reg < 2 ^ 15 -> 0 < Z.of_nat (length vals) <= 2 ^ 14 ->
    cp_run (reg + (Z.of_nat (length vals) - 1) * 2 ^ 16 :: vals ++ rest) g = cp_run rest (cp_write reg vals g);
  cp_reg_write : forall reg vals g r,
    cp_reg (cp_write reg vals g) r =
      if (reg <=? r) && (r <? reg + Z.of_nat (length vals)) then nth (Z.to_nat (r - reg)) vals 0 else cp_reg g r;
  cp_program_write : forall reg vals g t, cp_program (cp_write reg vals g) t = cp_program g t;
  cp_nop : forall rest g, cp_run (0x80000000 :: rest) g = cp_run rest g;
  (** The shader packet: an address whose low bits are the kind, a size. *)
  cp_im_load : forall base type size rest g,
    base .& 3 = 0 -> type = 0 \/ type = 1 ->
    cp_run (0xc0012700 :: base .| type :: size :: rest) g = cp_run rest (cp_load base type size g);
  cp_reg_load : forall base type size g r, cp_reg (cp_load base type size g) r = cp_reg g r;
  cp_program_load : forall base type size g t,
    cp_program (cp_load base type size g) t = if t =? type then (base, size) else cp_program g t;
  (** The two draw packets. *)
  cp_draw_auto : forall a b rest g,
    cp_run (0xc0012201 :: a :: b :: rest) g = cp_run rest (cp_draw [a; b] g);
  cp_draw_indexed : forall a b c d rest g,
    cp_run (0xc0032201 :: a :: b :: c :: d :: rest) g = cp_run rest (cp_draw [a; b; c; d] g);
  cp_reg_draw : forall l g r, cp_reg (cp_draw l g) r = cp_reg g r;
  cp_program_draw : forall l g t, cp_program (cp_draw l g) t = cp_program g t }.

(** ** A chip that keeps the laws *)

(** Its registers, the programs loaded and the draws made, the last first. *)
Record simple_gpu := mkGpu { sg_regs : Z -> Z; sg_programs : Z -> Z * Z; sg_draws : list (list Z) }.
Definition sg_write (reg : Z) (vals : list Z) (g : simple_gpu) : simple_gpu :=
  mkGpu (fun r => if (reg <=? r) && (r <? reg + Z.of_nat (length vals)) then nth (Z.to_nat (r - reg)) vals 0
                  else sg_regs g r) (sg_programs g) (sg_draws g).
Definition sg_load (base type size : Z) (g : simple_gpu) : simple_gpu :=
  mkGpu (sg_regs g) (fun t => if t =? type then (base, size) else sg_programs g t) (sg_draws g).
Definition sg_draw (args : list Z) (g : simple_gpu) : simple_gpu := mkGpu (sg_regs g) (sg_programs g) (args :: sg_draws g).
Definition is_draw_packet (h : Z) : bool := (h =? 0xc0012201) || (h =? 0xc0032201).
Fixpoint sg_run (n : nat) (ws : list Z) (g : simple_gpu) : simple_gpu :=
  match n, ws with
  | S n, h :: ws =>
      if h =? 0x80000000 then sg_run n ws g
      else if h =? 0xc0012700 then
        match ws with
        | a :: size :: rest => sg_run n rest (sg_load (Z.shiftl (a .>> 2) 2) (a .& 3) size g)
        | _ => g
        end
      else
        let len := Z.to_nat ((h .>> 16) .& 0x3FFF + 1) in
        let g' := if h <? 2 ^ 30 then sg_write (h .& 0x7FFF) (take len ws) g
                  else if is_draw_packet h then sg_draw (take len ws) g else g in
        sg_run n (drop len ws) g'
  | _, _ => g
  end.

Lemma sg_run_load n a size rest g :
  sg_run (S n) (0xc0012700 :: a :: size :: rest) g = sg_run n rest (sg_load (Z.shiftl (a .>> 2) 2) (a .& 3) size g).
Proof. done. Qed.
Lemma sg_run_other n h ws g : h <> 0x80000000 -> h <> 0xc0012700 ->
  sg_run (S n) (h :: ws) g =
    sg_run n (drop (Z.to_nat ((h .>> 16) .& 0x3FFF + 1)) ws)
      (if h <? 2 ^ 30 then sg_write (h .& 0x7FFF) (take (Z.to_nat ((h .>> 16) .& 0x3FFF + 1)) ws) g
       else if is_draw_packet h then sg_draw (take (Z.to_nat ((h .>> 16) .& 0x3FFF + 1)) ws) g else g).
Proof. intros H1 H2. cbn [sg_run]. by rewrite (proj2 (Z.eqb_neq _ _) H1), (proj2 (Z.eqb_neq _ _) H2). Qed.

Lemma sg_run_fuel n k ws g : (length ws <= n)%nat -> (length ws <= k)%nat -> sg_run n ws g = sg_run k ws g.
Proof.
  revert k ws g. induction n as [|n IH]; intros [|k] [|h ws] g Hn Hk; cbn [sg_run length] in *; try done; try lia.
  case_match; [apply IH; lia|]. case_match.
  - destruct ws as [|a [|b ws]]; [done..|]. cbn [length] in *. apply IH; lia.
  - apply IH; rewrite length_drop; lia.
Qed.

Lemma header_fields reg n : 0 <= reg < 2 ^ 15 -> 0 <= n < 2 ^ 14 ->
  (reg + n * 2 ^ 16) .& 0x7FFF = reg /\ ((reg + n * 2 ^ 16) .>> 16) .& 0x3FFF = n.
Proof.
  intros. change 0x7FFF with (Z.ones 15). change 0x3FFF with (Z.ones 14).
  rewrite !Z.land_ones, Z.shiftr_div_pow2 by lia. rewrite Z.div_add by lia.
  rewrite (Z.div_small reg), (Z.mod_small (0 + n)) by lia. split; [|lia].
  replace (reg + n * 2 ^ 16) with (reg + n * 2 * 2 ^ 15) by lia. rewrite Z.mod_add, Z.mod_small by lia. done.
Qed.

Lemma load_fields base type : base .& 3 = 0 -> type = 0 \/ type = 1 ->
  (base .| type) .& 3 = type /\ Z.shiftl ((base .| type) .>> 2) 2 = base.
Proof.
  intros Hb Ht. change 3 with (Z.ones 2) in *. rewrite Z.land_lor_distr_l, Hb, Z.lor_0_l.
  rewrite Z.land_ones by lia. split; [destruct Ht; subst; done|].
  rewrite Z.shiftr_lor. replace (type .>> 2) with 0 by (destruct Ht; subst; done). rewrite Z.lor_0_r.
  rewrite Z.land_ones in Hb by lia. rewrite Z.shiftr_div_pow2, Z.shiftl_mul_pow2 by lia.
  pose proof (Z.div_mod base (2 ^ 2)). lia.
Qed.

#[export] Program Instance simple_cp : CommandProcessor simple_gpu := {|
  cp_run := fun ws g => sg_run (length ws) ws g;
  cp_reg := sg_regs; cp_program := sg_programs; cp_write := sg_write; cp_load := sg_load;
  cp_draw := sg_draw |}.
Next Obligation.
  intros reg vals rest g Hr Hl. cbn [length].
  destruct (header_fields reg (Z.of_nat (length vals) - 1)) as [E1 E2]; [lia..|].
  rewrite sg_run_other by lia.
  rewrite E1, E2, (proj2 (Z.ltb_lt _ (2 ^ 30))) by lia.
  replace (Z.to_nat (Z.of_nat (length vals) - 1 + 1)) with (length vals) by lia.
  rewrite take_app_length, drop_app_length. apply sg_run_fuel; rewrite ?length_app; lia.
Qed.
Next Obligation. done. Qed.
Next Obligation. done. Qed.
Next Obligation. done. Qed.
Next Obligation.
  intros base type size rest g Hb Ht. cbn [length]. rewrite sg_run_load.
  destruct (load_fields base type) as [-> ->]; [done..|]. apply sg_run_fuel; lia.
Qed.
Next Obligation. done. Qed.
Next Obligation. done. Qed.
Next Obligation. intros. cbn [length]. rewrite sg_run_other by done. apply sg_run_fuel; cbn; lia. Qed.
Next Obligation. intros. cbn [length]. rewrite sg_run_other by done. apply sg_run_fuel; cbn; lia. Qed.
Next Obligation. done. Qed.
Next Obligation. done. Qed.

(** ** Words in the secondary buffer *)

Lemma put_ring_app a ws vs m : put_ring a (ws ++ vs) m = put_ring (a + Z.of_nat (length ws)) vs (put_ring a ws m).
Proof.
  revert a m. induction ws as [|w ws IH]; intros a m; cbn [app put_ring length].
  - f_equal. lia.
  - rewrite IH. f_equal. lia.
Qed.

Lemma put_ring_out a ws m i : i < a \/ a + Z.of_nat (length ws) <= i -> put_ring a ws m !! i = m !! i.
Proof.
  revert a m. induction ws as [|w ws IH]; intros a m Hi; cbn [put_ring length] in *; [done|].
  rewrite IH by lia. apply lookup_insert_ne. lia.
Qed.

Lemma put_ring_in a ws m i : (i < length ws)%nat -> put_ring a ws m !! (a + Z.of_nat i) = ws !! i.
Proof.
  revert a m i. induction ws as [|w ws IH]; intros a m i Hi; cbn [put_ring length] in *; [lia|].
  destruct i as [|i].
  - rewrite put_ring_out by lia. rewrite Z.add_0_r. by rewrite lookup_insert_eq.
  - replace (a + Z.of_nat (S i)) with (a + 1 + Z.of_nat i) by lia. rewrite IH by lia. done.
Qed.

Lemma get_put_ring a ws m : get_ring (put_ring a ws m) a (length ws) = ws.
Proof.
  apply list_eq. intros i. unfold get_ring. rewrite list_lookup_fmap. destruct (decide (i < length ws)%nat) as [Hi|Hi].
  - rewrite lookup_seq_lt by done. cbn. rewrite put_ring_in by done.
    destruct (lookup_lt_is_Some_2 ws i Hi) as [x E]. by rewrite E.
  - rewrite lookup_seq_ge by lia. cbn. symmetry. apply lookup_ge_None. lia.
Qed.

(** The device after the words were put. *)
Definition out (ws : list Z) (xe : XenosDevice) : XenosDevice :=
  xe <| rb_secondary ::= put_ring (rb_secondary_wptr xe) ws |>
     <| rb_secondary_wptr := rb_secondary_wptr xe + Z.of_nat (length ws) |>.

(** ** Weakest preconditions *)

Section sends.
Context {G : Type} {CP : CommandProcessor G}.

(** With [n] words of space and [pre] the words of a packet not yet complete,
    [m] returns, puts at most [n] words, and the chip reading them goes from
    [g] to a state for which [Q] holds. *)
Definition sends {A} (pre : list Z) (n : Z) (m : XM A) (xe : XenosDevice) (g : G)
    (Q : A -> XenosDevice -> G -> Prop) : Prop :=
  0 <= rb_secondary_wptr xe -> rb_secondary_wptr xe + n <= RINGBUFFER_SECONDARY_SIZE ->
  exists a ws xe' g', m xe = Ok a xe' /\ Z.of_nat (length ws) <= n /\
    rb_secondary xe' = put_ring (rb_secondary_wptr xe) ws (rb_secondary xe) /\
    rb_secondary_wptr xe' = rb_secondary_wptr xe + Z.of_nat (length ws) /\
    (forall rest, cp_run (pre ++ ws ++ rest) g = cp_run rest g') /\ Q a xe' g'.

Lemma sends_ret {A} n (a : A) xe g (Q : A -> _ -> _ -> Prop) : 0 <= n -> Q a xe g -> sends [] n (ret a) xe g Q.
Proof.
  intros Hn HQ H0 H1. exists a, [], xe, g. cbn [length put_ring app]. split_and!; try done. by rewrite Z.add_0_r.
Qed.

Lemma sends_mono {A} pre n n' (m : XM A) xe g (Q Q' : A -> _ -> _ -> Prop) :
  sends pre n m xe g Q -> n <= n' -> (forall a xe' g', Q a xe' g' -> Q' a xe' g') -> sends pre n' m xe g Q'.
Proof.
  intros H Hn HQ H0 H1. destruct H as (a & ws & xe' & g' & ? & ? & ? & ? & ? & ?); [done|lia|].
  exists a, ws, xe', g'. split_and!; auto. lia.
Qed.

Lemma sends_bind {A B} pre n1 n2 (m : XM A) (k : A -> XM B) xe g Q R :
  sends pre n1 m xe g R -> 0 <= n2 ->
  (forall a xe' g', R a xe' g' -> sends [] n2 (k a) xe' g' Q) ->
  sends pre (n1 + n2) (bind m k) xe g Q.
Proof.
  intros H Hn K H0 H1. destruct H as (a & ws & xe1 & g1 & E & Hl & Er & Ew & Hc & HR); [done|lia|].
  destruct (K a xe1 g1 HR) as (b & vs & xe2 & g2 & E2 & Hl2 & Er2 & Ew2 & Hc2 & HQ); [lia..|].
  exists b, (ws ++ vs), xe2, g2. rewrite (bind_ok _ _ _ _ _ E), E2, Er2, Ew2, Er, Ew, put_ring_app, length_app.
  split_and!; try done; try lia. intros rest. rewrite <- (app_assoc ws vs), Hc. apply Hc2.
Qed.

(** Words of a packet, and the end of it. *)
Lemma sends_rput {B} pre n ws (k : unit -> XM B) xe g Q :
  sends (pre ++ ws) n (k tt) (out ws xe) g Q -> 0 <= n ->
  sends pre (Z.of_nat (length ws) + n) (bind (rput ws) k) xe g Q.
Proof.
  intros H Hn H0 H1. unfold bind, rput. rewrite (proj2 (Z.leb_le _ _) H0), (proj2 (Z.leb_le _ _)) by lia. cbn [andb].
  destruct H as (b & vs & xe2 & g2 & E2 & Hl2 & Er2 & Ew2 & Hc2 & HQ); [cbn; lia..|].
  cbn in Er2, Ew2. exists b, (ws ++ vs), xe2, g2. rewrite length_app, put_ring_app.
  split_and!; try done; try lia. intros rest. rewrite <- (app_assoc ws), (app_assoc pre). apply Hc2.
Qed.

Lemma sends_rput32 {B} pre n w (k : unit -> XM B) xe g Q :
  sends (pre ++ [w]) (n - 1) (k tt) (out [w] xe) g Q -> 1 <= n -> sends pre n (bind (rput32 w) k) xe g Q.
Proof.
  intros H Hn. replace n with (Z.of_nat (length [w]) + (n - 1)) by (cbn; lia). apply sends_rput; [done|lia].
Qed.

Lemma sends_packet {A} pre n (m : XM A) xe g g' Q :
  (forall rest, cp_run (pre ++ rest) g = cp_run rest g') -> sends [] n m xe g' Q -> sends pre n m xe g Q.
Proof.
  intros Hp H H0 H1. destruct H as (a & ws & xe' & g2 & ? & ? & ? & ? & Hc & ?); [done..|].
  exists a, ws, xe', g2. split_and!; try done. intros rest. rewrite Hp. apply Hc.
Qed.

Lemma sends_type0 {A} reg vals pre n (m : XM A) xe g Q :
  pre = reg + (Z.of_nat (length vals) - 1) * 2 ^ 16 :: vals ->
  0x2000 <= reg < 2 ^ 15 -> 0 < Z.of_nat (length vals) <= 2 ^ 14 ->
  sends [] n m xe (cp_write reg vals g) Q -> sends pre n m xe g Q.
Proof. intros -> H1 H2. apply sends_packet. intros rest. by apply cp_type0. Qed.

Lemma sends_get {B} pre n (k : XenosDevice -> XM B) xe g Q :
  sends pre n (k xe) xe g Q -> sends pre n (bind get k) xe g Q.
Proof. intros H. exact H. Qed.
Lemma sends_gets {A B} pre n (f : XenosDevice -> A) (k : A -> XM B) xe g Q :
  sends pre n (k (f xe)) xe g Q -> sends pre n (bind (gets f) k) xe g Q.
Proof. intros H. exact H. Qed.
Lemma sends_ret_bind {A B} pre n (a : A) (k : A -> XM B) xe g Q :
  sends pre n (k a) xe g Q -> sends pre n (bind (ret a) k) xe g Q.
Proof. intros H. exact H. Qed.
(** A step that does not touch the buffer. *)
Lemma sends_step {A B} pre n (m : XM A) (k : A -> XM B) xe xe1 a g Q :
  m xe = Ok a xe1 -> rb_secondary xe1 = rb_secondary xe -> rb_secondary_wptr xe1 = rb_secondary_wptr xe ->
  sends pre n (k a) xe1 g Q -> sends pre n (bind m k) xe g Q.
Proof.
  intros E Er Ew H. unfold sends in *. rewrite (bind_ok _ _ _ _ _ E). by rewrite Er, Ew in H.
Qed.
Lemma sends_assoc {A B C} pre n (m : XM A) (k : A -> XM B) (h : B -> XM C) xe g Q :
  sends pre n (bind m (fun x => bind (k x) h)) xe g Q -> sends pre n (bind (bind m k) h) xe g Q.
Proof. intros H. unfold sends in *. by rewrite bind_assoc. Qed.
(** The last call of a function is a call followed by nothing. *)
Lemma sends_tail {A} pre n (m : XM A) xe g Q : sends pre n (bind m ret) xe g Q -> sends pre n m xe g Q.
Proof. unfold sends, bind, ret. intros H H0 H1. specialize (H H0 H1). by destruct (m xe). Qed.

(** *** Padding *)

Lemma land3 w : w .& 3 = w mod 4.
Proof. by apply (Z.land_ones w 2). Qed.

Lemma out_nil xe : out [] xe = xe.
Proof. unfold out. cbn [put_ring length set]. destruct xe; cbn. by rewrite Z.add_0_r. Qed.
Lemma out_out ws1 ws2 xe : out ws2 (out ws1 xe) = out (ws1 ++ ws2) xe.
Proof. unfold out. cbn. by rewrite put_ring_app, length_app, Nat2Z.inj_add, Z.add_assoc. Qed.

Lemma nops k rest (g : G) : cp_run (replicate k 0x80000000 ++ rest) g = cp_run rest g.
Proof. induction k as [|k IH]; [done|]. cbn [replicate app]. by rewrite cp_nop. Qed.

Lemma align_runs k xe : (k <= 3)%nat -> rb_secondary_wptr xe mod 4 = 3 - Z.of_nat k -> 0 <= rb_secondary_wptr xe ->
  rb_secondary_wptr xe + Z.of_nat k <= RINGBUFFER_SECONDARY_SIZE ->
  forall f, (k < f)%nat ->
  while f (fun _ => w <- gets rb_secondary_wptr ;;
                    if negb (w .& 3 =? 3) then rput32 0x80000000 ;; ret (Some tt) else ret None) tt xe
  = Ok tt (out (replicate k 0x80000000) xe).
Proof.
  revert xe. induction k as [|k IH]; intros xe Hk Hm H0 H1 [|f] Hf; try lia; cbn [while];
    unfold bind at 1 2; cbn [gets]; rewrite land3, Hm.
  - cbn [replicate]. by rewrite out_nil.
  - rewrite (proj2 (Z.eqb_neq _ 3)) by lia. cbn [negb]. unfold bind at 1, rput32, rput.
    rewrite (proj2 (Z.leb_le _ _) H0), (proj2 (Z.leb_le _ _)) by (cbn [length]; lia). cbn [andb ret].
    fold (out [0x80000000] xe). rewrite IH; [|cbn [out set rb_secondary_wptr length] in *; Z.div_mod_to_equations; lia..].
    rewrite out_out. done.
Qed.

Lemma sends_align {B} n (k : unit -> XM B) xe g Q :
  (forall xe', (exists ws, xe' = out ws xe) -> sends [] (n - 3) (k tt) xe' g Q) -> 3 <= n ->
  sends [] n (bind Xe_pAlign k) xe g Q.
Proof.
  intros K Hn. pose proof (Z.mod_pos_bound (rb_secondary_wptr xe) 4 ltac:(lia)).
  remember (Z.to_nat (3 - rb_secondary_wptr xe mod 4)) as j eqn:Ej.
  replace n with (3 + (n - 3)) by lia. eapply sends_bind; [|lia|].
  2: { intros a xe' g' HR. assert (a = tt /\ (exists ws, xe' = out ws xe) /\ g' = g) as (-> & ? & ->) by exact HR. auto. }
  intros H0 H1. exists tt, (replicate j 0x80000000), (out (replicate j 0x80000000) xe), g.
  unfold Xe_pAlign. erewrite bind_ok by (apply (align_runs j); lia).
  split; [done|]. rewrite length_replicate. split; [lia|]. split; [done|]. split; [cbn; by rewrite length_replicate|].
  split; [|eauto]. intros rest. apply nops.
Qed.
End sends.

(** [n] words that make the packet which writes [vals] from [reg] on. *)
Tactic Notation "packet" integer(n) constr(reg) constr(vals) :=
  do n (repeat apply sends_assoc; apply sends_rput32; [|lia]; cbn [app]);
  apply (sends_type0 reg vals); [reflexivity|lia|cbn [length]; lia|].
