(* ===== verification/XeSync.v ===== *)
(** * Graphics driver: sending what has changed

    The parts of the chip's state the driver keeps copies of, and the loops
    that send the blocks marked dirty: after them the chip holds every block. *)
From S2P Require Import Prelude Bits Xe XeGpu.

(** ** Bits of a dirty word *)

Lemma nz_bit d s : 0 <= s < 32 -> nz (d .& (1 .<< s)) = Z.testbit d s.
Proof.
  intros Hs. assert (1 .<< s = 2 ^ s) as ->.
  { rewrite Z.shiftl_1_l. apply u32_id. split; [by apply Z.pow_nonneg|]. apply Z.pow_lt_mono_r; lia. }
  unfold nz. destruct (Z.testbit d s) eqn:E.
  - rewrite (proj2 (Z.eqb_neq _ 0)); [done|]. intros H.
    assert (Z.testbit (d .& 2 ^ s) s = true) as Ht by (rewrite Z.land_spec, E, Z.pow2_bits_true by lia; done).
    by rewrite H, Z.bits_0 in Ht.
  - rewrite (proj2 (Z.eqb_eq _ 0)); [done|]. bitwise n Hn. rewrite Z.land_spec, Z.bits_0, Z.pow2_bits_eqb by lia.
    destruct (Z.eqb_spec s n); [subst; by rewrite E|apply andb_false_r].
Qed.

Lemma bit_word s n : 0 <= s < 32 -> 0 <= n -> Z.testbit (1 .<< s) n = (s =? n).
Proof.
  intros Hs Hn. rewrite u32_bits by done. rewrite Z.shiftl_1_l, Z.pow2_bits_eqb by lia.
  destruct (Z.eqb_spec s n); [|apply andb_false_r]. rewrite (proj2 (Z.ltb_lt n 32)) by lia. done.
Qed.
Lemma not32_testbit x n : 0 <= n -> Z.testbit (not32 x) n = xorb (Z.testbit x n) (n <? 32).
Proof.
  intros Hn. unfold not32. change 0xFFFFFFFF with (Z.ones 32). rewrite Z.lxor_spec. f_equal.
  rewrite Z.testbit_ones by lia. by rewrite (proj2 (Z.leb_le 0 n)) by done.
Qed.
Lemma word_zero d : is_word d -> (forall b, 0 <= b < 32 -> Z.testbit d b = false) -> d = 0.
Proof.
  intros Hw H. bitwise n Hn. rewrite Z.bits_0. destruct (Z.lt_ge_cases n 32); [apply H; lia|by apply (high_bits d 32)].
Qed.
Lemma word_bit d : is_word d -> nz d = true -> exists b, 0 <= b < 32 /\ Z.testbit d b = true.
Proof.
  intros Hw Hz. unfold nz in Hz. apply negb_true_iff, Z.eqb_neq in Hz. unfold is_word in Hw.
  exists (Z.log2 d). rewrite Z.bit_log2 by lia. split; [|done]. split; [apply Z.log2_nonneg|apply Z.log2_lt_pow2; lia].
Qed.
Lemma lor_add k a b : 0 <= k -> a mod 2 ^ k = 0 -> 0 <= b < 2 ^ k -> a .| b = a + b.
Proof.
  intros Hk Ha Hb. rewrite Z.add_nocarry_lxor.
  - symmetry. apply Z.lxor_lor. bitwise n Hn. rewrite Z.land_spec, Z.bits_0. destruct (Z.lt_ge_cases n k) as [H|H].
    + rewrite <- (Z.mod_pow2_bits_low a k n H), Ha, Z.bits_0. done.
    + rewrite (high_bits b k) by done. apply andb_false_r.
  - bitwise n Hn. rewrite Z.land_spec, Z.bits_0. destruct (Z.lt_ge_cases n k) as [H|H].
    + rewrite <- (Z.mod_pow2_bits_low a k n H), Ha, Z.bits_0. done.
    + rewrite (high_bits b k) by done. apply andb_false_r.
Qed.

Lemma scan_start_spec n d s : 0 <= s -> s + Z.of_nat n = 32 ->
  (exists b, s <= b < 32 /\ Z.testbit d b = true) ->
  s <= scan_start n d s < 32 /\ Z.testbit d (scan_start n d s) = true /\
  (forall b, s <= b < scan_start n d s -> Z.testbit d b = false).
Proof.
  revert s. induction n as [|n IH]; intros s H0 H1 (b & Hb & Hd); [lia|].
  cbn [scan_start]. rewrite nz_bit by lia. destruct (Z.testbit d s) eqn:E; [split_and!; [lia..|done|lia]|].
  destruct (IH (s + 1)) as (H2 & H3 & H4); [lia..| |].
  - exists b. split; [|done]. assert (b <> s) by congruence. lia.
  - split_and!; [lia..|done|]. intros b' Hb'. destruct (decide (b' = s)) as [->|]; [done|]. apply H4. lia.
Qed.

Lemma scan_end_spec n d s : 0 <= s -> s + Z.of_nat n = 32 -> is_word d ->
  let '(e, d') := scan_end n d s in
  s <= e <= 32 /\ is_word d' /\ (n <> O -> Z.testbit d s = true -> s < e) /\
  (forall b, 0 <= b -> Z.testbit d' b = Z.testbit d b && negb ((s <=? b) && (b <? e))).
Proof.
  revert d s. induction n as [|n IH]; intros d s H0 H1 Hw; cbn [scan_end].
  { split_and!; try done; try lia. intros b Hb. replace ((s <=? b) && (b <? s)) with false; [by rewrite andb_true_r|].
    destruct (Z.leb_spec s b), (Z.ltb_spec b s); try done; lia. }
  rewrite nz_bit by lia. destruct (Z.testbit d s) eqn:E.
  - specialize (IH (d .& not32 (1 .<< s)) (s + 1) ltac:(lia) ltac:(lia)).
    destruct (scan_end n _ (s + 1)) as [e d']. destruct IH as (Hr & Hw' & _ & Hb).
    { rewrite Z.land_comm. by apply is_word_land. }
    split_and!; try done; try lia. intros b H. rewrite Hb by done.
    rewrite Z.land_spec, not32_testbit, bit_word by lia.
    destruct (Z.eqb_spec s b) as [<-|Hne].
    + rewrite (proj2 (Z.ltb_lt s 32)) by lia. cbn [xorb]. rewrite !andb_false_r. rewrite Z.leb_refl, (proj2 (Z.ltb_lt s e)) by lia. by rewrite andb_false_r.
    + cbn [xorb]. replace (s + 1 <=? b) with (s <=? b) by (destruct (Z.leb_spec s b), (Z.leb_spec (s + 1) b); try done; lia).
      destruct (Z.ltb_spec b 32); [by rewrite andb_true_r|]. rewrite (high_bits d 32 b) by (done || lia). done.
  - split_and!; try done; try lia. intros b Hb. replace ((s <=? b) && (b <? s)) with false; [by rewrite andb_true_r|].
    destruct (Z.leb_spec s b), (Z.ltb_spec b s); try done; lia.
Qed.

(** ** Registers that hold given words *)

Section holds.
Context {G : Type} {CP : CommandProcessor G}.

Definition holds (g : G) (reg : Z) (vals : list Z) : Prop :=
  forall i v, vals !! i = Some v -> cp_reg g (reg + Z.of_nat i) = v.

Lemma holds_write reg vals g : holds (cp_write reg vals g) reg vals.
Proof.
  intros i v Hv. rewrite cp_reg_write. pose proof (lookup_lt_Some _ _ _ Hv).
  rewrite (proj2 (Z.leb_le _ _)), (proj2 (Z.ltb_lt _ _)) by lia. cbn [andb].
  replace (Z.to_nat (reg + Z.of_nat i - reg)) with i by lia. by apply nth_lookup_Some.
Qed.

Lemma reg_frame reg vals g r : r < reg \/ reg + Z.of_nat (length vals) <= r ->
  cp_reg (cp_write reg vals g) r = cp_reg g r.
Proof.
  intros H. rewrite cp_reg_write. destruct (Z.leb_spec reg r); [|done].
  rewrite (proj2 (Z.ltb_ge r _)) by lia. done.
Qed.

Lemma holds_ext g g' reg vals :
  (forall r, reg <= r < reg + Z.of_nat (length vals) -> cp_reg g' r = cp_reg g r) -> holds g reg vals -> holds g' reg vals.
Proof. intros H Hh i v Hv. rewrite H; [by apply Hh|]. apply lookup_lt_Some in Hv. lia. Qed.

Lemma holds_frame reg vals g r l :
  r + Z.of_nat (length l) <= reg \/ reg + Z.of_nat (length vals) <= r -> holds g r l -> holds (cp_write reg vals g) r l.
Proof. intros H. apply holds_ext. intros x Hx. apply reg_frame. lia. Qed.

(** A part of the words, in the registers from its place on. *)
Lemma holds_slice reg vals g off n : 0 <= off -> 0 <= n -> holds g reg vals -> holds g (reg + off) (slice off n vals).
Proof.
  intros H0 H1 H i v Hv. unfold slice in Hv. apply lookup_take_Some in Hv as [Hv _]. rewrite lookup_drop in Hv.
  rewrite <- (H _ _ Hv). f_equal. lia.
Qed.
Lemma slice_slice o1 n1 o2 n2 (l : list Z) : 0 <= o1 -> 0 <= o2 -> 0 <= n2 -> o2 + n2 <= n1 ->
  slice o2 n2 (slice o1 n1 l) = slice (o1 + o2) n2 l.
Proof.
  intros. unfold slice. rewrite skipn_firstn_comm, take_take, drop_drop. f_equal; [lia|]. f_equal. lia.
Qed.
Lemma slice_length o n (l : list Z) : 0 <= o -> 0 <= n -> o + n <= Z.of_nat (length l) -> Z.of_nat (length (slice o n l)) = n.
Proof. intros. unfold slice. rewrite length_take, length_drop. lia. Qed.

(** ** Dirty blocks *)

Section blocks.
Context (d : XenosDevice -> Z) {Sd : Setter d} (a : XenosDevice -> list Z) (reg c m : Z).

(** Block [b] of the copies is in the chip. *)
Definition block (xe : XenosDevice) (g : G) (b : Z) : Prop :=
  holds g (reg + b * (c * m)) (slice (b * (c * m)) (c * m) (a xe)).
Definition blocks_ok (dw : Z) (xe : XenosDevice) (g : G) : Prop :=
  forall b, 0 <= b < 32 -> Z.testbit dw b = false -> block xe g b.
(** Only registers of the blocks have changed. *)
Definition only_blocks (g g' : G) : Prop :=
  (forall r, r < reg \/ reg + 32 * (c * m) <= r -> cp_reg g' r = cp_reg g r) /\
  (forall t, cp_program g' t = cp_program g t).

Hypothesis Hc : 0 < c * m <= 64.
Hypothesis Hreg : 0x2000 <= reg < 2 ^ 15 - 0x800.
Hypothesis Hal : reg mod 0x800 = 0.
Hypothesis d_set : forall f xe, d (set d f xe) = f (d xe).
Hypothesis a_set : forall f xe, a (set d f xe) = a xe.
Hypothesis set_set : forall f h xe, set d f (set d h xe) = set d (fun x => f (h x)) xe.
Hypothesis set_same : forall v xe, d xe = v -> set d (fun _ => v) xe = xe.
Hypothesis set_rb : forall f xe, rb_secondary (set d f xe) = rb_secondary xe.
Hypothesis set_wptr : forall f xe, rb_secondary_wptr (set d f xe) = rb_secondary_wptr xe.
Hypothesis out_d : forall ws xe, d (out ws xe) = d xe.
Hypothesis out_a : forall ws xe, a (out ws xe) = a xe.
Hypothesis out_set : forall f ws xe, set d f (out ws xe) = out ws (set d f xe).

Lemma block_header s e : 0 <= s < e -> e <= 32 ->
  reg .| (s * c * m) .| (((e - s) * c * m - 1) .<< 16)
  = reg + s * (c * m) + ((e - s) * (c * m) - 1) * 2 ^ 16.
Proof.
  intros Hs He. assert (0 <= s * (c * m) < 2 ^ 11) by nia.
  assert (0 <= (e - s) * (c * m) - 1 < 2 ^ 11) by nia.
  rewrite <- !Z.mul_assoc. generalize dependent (s * (c * m)). generalize dependent ((e - s) * (c * m) - 1).
  clear -Hreg Hal. intros y Hy x Hx. rewrite (lor_add 11 reg x) by (done || lia). rewrite Z.lor_comm.
  rewrite Z.shiftl_mul_pow2 by lia. rewrite u32_id by (split; lia).
  rewrite (lor_add 16) by (rewrite ?Z.mod_mul; lia). lia.
Qed.

(** One run of dirty blocks. *)
Lemma run_written s e xe g : 0 <= s < e -> e <= 32 -> Z.of_nat (length (a xe)) = 32 * (c * m) ->
  let g' := cp_write (reg + s * (c * m)) (slice (s * (c * m)) ((e - s) * (c * m)) (a xe)) g in
  only_blocks g g' /\
  (forall b, 0 <= b < 32 -> block xe g b \/ s <= b < e -> block xe g' b).
Proof.
  intros Hs He Hl g'.
  assert (Z.of_nat (length (slice (s * (c * m)) ((e - s) * (c * m)) (a xe))) = (e - s) * (c * m)) as Hsl by (apply slice_length; nia).
  split.
  - split; [|intros t; apply cp_program_write]. intros r Hr. apply reg_frame. rewrite Hsl. nia.
  - intros b Hb H. unfold block. destruct (decide (s <= b < e)) as [Hin|Hout].
    + replace (reg + b * (c * m)) with (reg + s * (c * m) + (b - s) * (c * m)) by lia.
      replace (slice (b * (c * m)) (c * m) (a xe))
        with (slice ((b - s) * (c * m)) (c * m) (slice (s * (c * m)) ((e - s) * (c * m)) (a xe)))
        by (rewrite slice_slice by nia; f_equal; lia).
      apply holds_slice; [nia..|]. apply holds_write.
    + destruct H as [H|H]; [|lia]. apply holds_frame; [|done]. rewrite Hsl, slice_length by nia. nia.
Qed.

Lemma only_blocks_trans g1 g2 g3 : only_blocks g1 g2 -> only_blocks g2 g3 -> only_blocks g1 g3.
Proof.
  intros [H1 H2] [H3 H4]. split; [intros r Hr; by rewrite H3, H1|intros t; by rewrite H4, H2].
Qed.

(** What sending the dirty blocks does. *)
Definition uploaded (xe : XenosDevice) (g : G) (xe' : XenosDevice) (g' : G) : Prop :=
  (exists ws, xe' = out ws (set d (fun _ => 0) xe)) /\ only_blocks g g' /\
  (blocks_ok (d xe) xe g -> blocks_ok 0 xe g').

Lemma upload_loop f k xe g : 0 <= k <= 32 -> 32 - k < Z.of_nat f -> is_word (d xe) ->
  (forall b, 0 <= b < k -> Z.testbit (d xe) b = false) -> Z.of_nat (length (a xe)) = 32 * (c * m) ->
  sends [] ((4 + c * m) * (32 - k)) (while f (fun _ =>
    xe <- get ;;
    if nz (d xe) then
      let start := scan_start 32 (d xe) 0 in
      let '(end_, d') := scan_end (Z.to_nat (32 - start)) (d xe) start in
      modify (set d (fun _ => d')) ;;
      let base := start * c in
      let num := (end_ - start) * c * m in
      Xe_pAlign ;;
      rput32 (reg .| (base * m) .| ((num - 1) .<< 16)) ;;
      rput (slice (base * m) num (a xe)) ;;
      ret (Some tt)
    else ret None) tt) xe g (fun _ => uploaded xe g).
Proof.
  revert k xe g. induction f as [|f IH]; intros k xe g Hk Hf Hw Hlow Hl; [lia|].
  cbn [while]. apply sends_assoc, sends_get. destruct (nz (d xe)) eqn:Ez.
  2: { apply sends_ret_bind, sends_ret; [nia|]. unfold nz in Ez. apply negb_false_iff, Z.eqb_eq in Ez.
       split; [|split; [done|by rewrite Ez]]. exists []. by rewrite out_nil, set_same. }
  destruct (scan_start_spec 32 (d xe) 0) as (Hs & Hbit & Hclr); [lia..|by apply word_bit|].
  cbv zeta. set (s := scan_start 32 (d xe) 0) in *. clearbody s.
  pose proof (scan_end_spec (Z.to_nat (32 - s)) (d xe) s ltac:(lia) ltac:(lia) Hw) as He.
  destruct (scan_end _ _ s) as [e d'] eqn:Ee. destruct He as (He & Hw' & Hse & Hd'). specialize (Hse ltac:(lia) Hbit).
  assert (k <= s) as Hks. { destruct (Z.lt_ge_cases s k) as [H|]; [|done]. rewrite Hlow in Hbit by lia. done. }
  replace ((4 + c * m) * (32 - k)) with (3 + (1 + ((e - s) * (c * m) + ((4 + c * m) * (32 - k) - 4 - (e - s) * (c * m))))) by lia.
  assert (0 <= (4 + c * m) * (32 - k) - 4 - (e - s) * (c * m)) by nia.
  apply sends_assoc. eapply sends_step; [reflexivity|apply set_rb|apply set_wptr|].
  apply sends_assoc, sends_align; [|nia]. intros xe1 [ws1 Ex1].
  apply sends_assoc, sends_rput32; [|nia]. apply sends_assoc.
  replace (s * c * m) with (s * (c * m)) by lia. replace ((e - s) * c * m) with ((e - s) * (c * m)) by lia.
  set (l := slice (s * (c * m)) ((e - s) * (c * m)) (a xe)).
  assert (Z.of_nat (length l) = (e - s) * (c * m)) as Hll by (apply slice_length; nia).
  set (N := (4 + c * m) * (32 - e)).
  apply (sends_mono _ (Z.of_nat (length l) + N) _ _ _ _ (fun _ => uploaded xe g)); [|nia|done].
  apply sends_rput; [|nia]. cbn [app].
  eapply (sends_type0 (reg + s * (c * m)) l); [|nia..|].
  { rewrite Hll. f_equal. rewrite <- (block_header s e) by lia. f_equal; [f_equal; lia|]. do 2 f_equal. lia. }
  apply sends_ret_bind.
  destruct (run_written s e xe g ltac:(lia) ltac:(lia) Hl) as [Ho Hb].
  set (g1 := cp_write _ _ g) in *.
  assert (exists ws, out l (out [reg .| s * (c * m) .| ((e - s) * (c * m) - 1) .<< 16] xe1) = out ws (set d (fun _ => d') xe)) as [ws2 E2].
  { subst xe1. rewrite !out_out. eauto. }
  rewrite E2. eapply sends_mono; [apply (IH e)|lia|]; rewrite ?out_d, ?out_a, ?d_set, ?a_set; try done; try lia.
  { intros b Hbe. rewrite Hd' by lia. destruct (Z.lt_ge_cases b s) as [Hbs|Hbs].
    - rewrite Hclr by lia. done.
    - rewrite (proj2 (Z.leb_le s b)), (proj2 (Z.ltb_lt b e)) by lia. apply andb_false_r. }
  intros [] xe' g' ([ws3 E3] & Ho' & Hb'). split.
  { exists (ws2 ++ ws3). rewrite E3, out_set, out_out, set_set. done. }
  split; [by eapply only_blocks_trans|]. intros Hok.
  assert (forall dw h, blocks_ok dw (out ws2 (set d (fun _ => d') xe)) h <-> blocks_ok dw xe h) as Hsame.
  { intros dw h. unfold blocks_ok, block. by rewrite out_a, a_set. }
  rewrite out_d, d_set, !Hsame in Hb'. apply Hb'. intros b Hb0 Hbit'. apply Hb; [done|].
  rewrite Hd' in Hbit' by lia. apply andb_false_iff in Hbit' as [Hx|Hx]; [left; by apply Hok|right].
  apply negb_false_iff, andb_true_iff in Hx as [H1 H2]. apply Z.leb_le in H1. apply Z.ltb_lt in H2. lia.
Qed.

Lemma upload_dirty_sends xe g : is_word (d xe) -> Z.of_nat (length (a xe)) = 32 * (c * m) ->
  sends [] ((4 + c * m) * 32) (upload_dirty d a reg c m) xe g (fun _ => uploaded xe g).
Proof.
  intros Hw Hl. unfold upload_dirty. apply (sends_mono _ ((4 + c * m) * (32 - 0) + 0) _ _ _ _ (fun _ => uploaded xe g)); [|lia|done].
  eapply sends_bind; [apply (upload_loop 33 0); (done || lia)|lia|]. intros [] xe' g' H. by apply sends_ret.
Qed.
End blocks.
End holds.
