(* ===== verification/XeFacts.v ===== *)
(** * Graphics driver: the chip sees the state the program has set

    [insync] relates the driver's copies to the chip: a part that is not
    marked dirty is in the chip's registers.  Sending the state keeps it and
    leaves every part in the chip; the setters mark what they change. *)
From S2P Require Import Prelude Bits Xe XeGpu XeSync.

(** ** The parts of the state and the registers they live in *)

Inductive part := PAlu | PFetch | PClip | PInteger | PControl | PShader | PMisc.
#[export] Instance part_eq_dec : EqDecision part.
Proof. solve_decision. Defined.

(** The bit of [dirty] for a part. *)
Definition dirty_bit (p : part) : Z :=
  match p with PAlu => 0 | PFetch => 1 | PClip => 2 | PInteger => 3 | PControl => 4 | PShader => 5 | PMisc => 6 end.

Definition within (r base n : Z) : bool := (base <=? r) && (r <? base + n).
Definition part_of (r : Z) : option part :=
  if within r 0x4000 2048 then Some PAlu
  else if within r 0x4800 192 then Some PFetch
  else if within r 0x4900 40 then Some PInteger
  else if within r 0x2388 24 then Some PClip
  else if within r 0x2200 9 then Some PControl
  else if within r 0x2180 3 then Some PShader
  else if within r 0x2080 3 || within r 0x2000 3 || within r 0x200d 1 || within r 0x2100 2 || within r 0x2104 1
          || within r 0x210c 9 || within r 0x2301 1 || within r 0x2312 1 then Some PMisc
  else None.

(** The registers of the miscellaneous state: scissor or viewport rectangle,
    layout of the embedded memory, stencil, viewport transformation. *)
Definition misc_regs (xe : XenosDevice) : list (Z * list Z) :=
  [ (0x2080, if nz (scissor_enable xe) then
               [xy32 0 0; xy32 (nth 0 (scissor_ltrb xe) 0) (nth 1 (scissor_ltrb xe) 0);
                xy32 (nth 2 (scissor_ltrb xe) 0) (nth 3 (scissor_ltrb xe) 0)]
             else [xy32 0 0; xy32 0 0; xy32 (vp_xres xe) (vp_yres xe)]);
    (0x2000, [SurfaceInfo (edram_pitch xe) (msaa_samples xe) (edram_hizpitch xe);
              u32 ((edram_colorformat xe .<< 16) .| edram_color0base xe);
              u32 (edram_depthbase xe .| (0 .<< 16))]);
    (0x200d, [0]); (0x2100, [0x00ffffff; 0]); (0x2104, [0xf]);
    (0x210c, [nth 0 (stencildata xe) 0; nth 1 (stencildata xe) 0; f32_of (alpharef xe);
              f32_half (vp_xres xe - vp_xoffset xe); f32_half (vp_xres xe);
              f32_half (- vp_yres xe); f32_half (vp_yres xe); vp_znear xe; vp_zfar xe]);
    (0x2301, [default 0 (msaa_sample_pos xe)]); (0x2312, [0xffff]) ].

(** The control words of a shader, none for a null pointer. *)
Definition shader_bits (f : XenosShader -> Z) (xe : XenosDevice) (p : Z) : Z :=
  if nz p then from_option f 0 (shaders xe !! p) else 0.
Definition shader_regs (xe : XenosDevice) : list Z :=
  [shader_bits program_control xe (ps xe) .| shader_bits program_control xe (vs xe);
   shader_bits context_misc xe (ps xe) .| shader_bits context_misc xe (vs xe); 0xFFFFFFFF].
(** Where the code of a shader is, and its size. *)
Definition code_of (xe : XenosDevice) (p i : Z) : Z * Z :=
  from_option (fun s => (nth (Z.to_nat i) (shader_phys s) 0, shader_phys_size s)) (0, 0) (shaders xe !! p).

(** A shader that can be sent: its tables of constants lie inside the file
    and the arrays, and its code is aligned. *)
Definition constants_ok (s : XenosShader) : Prop :=
  forall xe, exists xe', Xe_pUploadShaderConstants s xe = Ok tt xe'.
Definition good_shader (s : XenosShader) : Prop :=
  constants_ok s /\ length (shader_phys s) = 16%nat /\ length (shader_instance s) = 16%nat /\
  Forall (fun a => a .& 3 = 0) (shader_phys s).

(** The sizes of the arrays, and the shaders of the device. *)
Record wf (xe : XenosDevice) : Prop := {
  wf_alu : length (alu_constants xe) = Z.to_nat 2048;
  wf_fetch : length (fetch_constants xe) = 192%nat;
  wf_clip : length (clipplane xe) = 24%nat;
  wf_int : length (integer_constants xe) = 40%nat;
  wf_control : length (controlpacket xe) = 9%nat;
  wf_stencil : length (stencildata xe) = 2%nat;
  wf_scissor : length (scissor_ltrb xe) = 4%nat;
  wf_alu_dirty : is_word (alu_dirty xe);
  wf_fetch_dirty : is_word (fetch_dirty xe);
  wf_msaa : 0 <= msaa_samples xe <= 2;
  wf_shaders : forall p s, shaders xe !! p = Some s -> good_shader s;
  wf_ps : ps xe <> 0 -> is_Some (shaders xe !! ps xe);
  wf_vs : vs xe <> 0 -> is_Some (shaders xe !! vs xe) /\ 0 <= vs_index xe < 16 }.

Section sync.
Context {G : Type} {CP : CommandProcessor G}.

(** A part of the copies is in the chip. *)
Definition sent (p : part) (xe : XenosDevice) (g : G) : Prop :=
  match p with
  | PAlu => blocks_ok alu_constants 0x4000 16 4 0 xe g
  | PFetch => blocks_ok fetch_constants 0x4800 3 2 0 xe g
  | PClip => holds g 0x2388 (clipplane xe)
  | PInteger => holds g 0x4900 (integer_constants xe)
  | PControl => holds g 0x2200 (controlpacket xe)
  | PShader => holds g 0x2180 (shader_regs xe) /\
      (ps xe <> 0 -> cp_program g SHADER_TYPE_PIXEL = code_of xe (ps xe) 0) /\
      (vs xe <> 0 -> cp_program g SHADER_TYPE_VERTEX = code_of xe (vs xe) (vs_index xe))
  | PMisc => Forall (fun p => holds g p.1 p.2) (misc_regs xe)
  end.

Definition all_sent (xe : XenosDevice) (g : G) : Prop := forall p, sent p xe g.

(** The parts of [done] and those not dirty are in the chip; of the shader
    and fetch constants, the blocks that are not dirty. *)
Record insync (done : part -> bool) (xe : XenosDevice) (g : G) : Prop := {
  sy_part : forall p, p <> PAlu -> p <> PFetch ->
    done p = true \/ Z.testbit (dirty xe) (dirty_bit p) = false -> sent p xe g;
  sy_alu : blocks_ok alu_constants 0x4000 16 4 (alu_dirty xe) xe g;
  sy_fetch : blocks_ok fetch_constants 0x4800 3 2 (fetch_dirty xe) xe g;
  sy_alu_flag : alu_dirty xe <> 0 -> Z.testbit (dirty xe) 0 = true;
  sy_fetch_flag : fetch_dirty xe <> 0 -> Z.testbit (dirty xe) 1 = true }.

Definition nothing : part -> bool := fun _ => false.
Definition also (p : part) (done : part -> bool) : part -> bool := fun q => bool_decide (q = p) || done q.
End sync.

(** ** Registers of one part do not disturb the others *)

(** [agree p g g']: at most the registers of part [p] (and those of no part)
    differ. *)
Section frame.
Context {G : Type} {CP : CommandProcessor G}.
Definition agree (p : part) (g g' : G) : Prop :=
  (forall r q, part_of r = Some q -> q <> p -> cp_reg g' r = cp_reg g r) /\
  (p <> PShader -> forall t, cp_program g' t = cp_program g t).

Lemma within_true r base n : base <= r < base + n -> within r base n = true.
Proof. intros. unfold within. by rewrite (proj2 (Z.leb_le _ _)), (proj2 (Z.ltb_lt _ _)) by lia. Qed.
Lemma within_false r base n : r < base \/ base + n <= r -> within r base n = false.
Proof. intros. unfold within. destruct (Z.leb_spec base r), (Z.ltb_spec r (base + n)); try done; lia. Qed.

Ltac part_lia :=
  unfold part_of; repeat (first [rewrite within_true by lia | rewrite within_false by lia]; cbn [orb]); try done.

Lemma part_alu r : 0x4000 <= r < 0x4800 -> part_of r = Some PAlu.
Proof. intros. part_lia. Qed.
Lemma part_fetch r : 0x4800 <= r < 0x48c0 -> part_of r = Some PFetch.
Proof. intros. part_lia. Qed.
Lemma part_int r : 0x4900 <= r < 0x4928 -> part_of r = Some PInteger.
Proof. intros. part_lia. Qed.
Lemma part_clip r : 0x2388 <= r < 0x23a0 -> part_of r = Some PClip.
Proof. intros. part_lia. Qed.
Lemma part_control r : 0x2200 <= r < 0x2209 -> part_of r = Some PControl.
Proof. intros. part_lia. Qed.
Lemma part_shader r : 0x2180 <= r < 0x2183 -> part_of r = Some PShader.
Proof. intros. part_lia. Qed.
Lemma part_misc r base n :
  (base, n) ∈ [(0x2080, 3); (0x2000, 3); (0x200d, 1); (0x2100, 2); (0x2104, 1); (0x210c, 9); (0x2301, 1); (0x2312, 1)] ->
  base <= r < base + n -> part_of r = Some PMisc.
Proof.
  intros H Hr. repeat (apply elem_of_cons in H as [H|H]; [injection H as -> ->; part_lia|]). by apply not_elem_of_nil in H.
Qed.

(** The places of the packets of the miscellaneous state. *)
Lemma misc_shape xe :
  (fun p => (p.1, Z.of_nat (length p.2))) <$> misc_regs xe =
  [(0x2080, 3); (0x2000, 3); (0x200d, 1); (0x2100, 2); (0x2104, 1); (0x210c, 9); (0x2301, 1); (0x2312, 1)].
Proof. unfold misc_regs. by destruct (nz (scissor_enable xe)). Qed.

Lemma sent_frame p q xe (g g' : G) : wf xe -> agree p g g' -> q <> p -> sent q xe g -> sent q xe g'.
Proof.
  intros W [Hr Hp] Hne. destruct q; cbn [sent].
  - intros H b Hb Hbit. eapply holds_ext; [|by apply H]. intros r Hx. apply (Hr r PAlu); [|done].
    apply part_alu. rewrite slice_length in Hx; rewrite ?(wf_alu _ W); lia.
  - intros H b Hb Hbit. eapply holds_ext; [|by apply H]. intros r Hx. apply (Hr r PFetch); [|done].
    apply part_fetch. rewrite slice_length in Hx; rewrite ?(wf_fetch _ W); lia.
  - apply holds_ext. intros r Hx. rewrite (wf_clip _ W) in Hx. apply (Hr r PClip); [|done]. apply part_clip. lia.
  - apply holds_ext. intros r Hx. rewrite (wf_int _ W) in Hx. apply (Hr r PInteger); [|done]. apply part_int. lia.
  - apply holds_ext. intros r Hx. rewrite (wf_control _ W) in Hx. apply (Hr r PControl); [|done]. apply part_control. lia.
  - intros (H1 & H2 & H3). split; [|by split; intros; rewrite Hp by done; auto].
    revert H1. apply holds_ext. intros r Hx. apply (Hr r PShader); [|done]. apply part_shader. cbn in Hx. lia.
  - rewrite !Forall_forall. intros H x Hx. eapply holds_ext; [|by apply H]. intros r Hrx. apply (Hr r PMisc); [|done].
    apply (part_misc r x.1 (Z.of_nat (length x.2))); [|done]. rewrite <- (misc_shape xe).
    by apply (list_elem_of_fmap_2 (fun p => (p.1, Z.of_nat (length p.2)))).
Qed.

(** The blocks of a dirty word are framed the same way. *)
Lemma alu_frame p xe dw (g g' : G) : wf xe -> agree p g g' -> PAlu <> p ->
  blocks_ok alu_constants 0x4000 16 4 dw xe g -> blocks_ok alu_constants 0x4000 16 4 dw xe g'.
Proof.
  intros W [Hr _] Hne H b Hb Hbit. eapply holds_ext; [|by apply H]. intros r Hx. apply (Hr r PAlu); [|done].
  apply part_alu. rewrite slice_length in Hx; rewrite ?(wf_alu _ W); lia.
Qed.
Lemma fetch_frame p xe dw (g g' : G) : wf xe -> agree p g g' -> PFetch <> p ->
  blocks_ok fetch_constants 0x4800 3 2 dw xe g -> blocks_ok fetch_constants 0x4800 3 2 dw xe g'.
Proof.
  intros W [Hr _] Hne H b Hb Hbit. eapply holds_ext; [|by apply H]. intros r Hx. apply (Hr r PFetch); [|done].
  apply part_fetch. rewrite slice_length in Hx; rewrite ?(wf_fetch _ W); lia.
Qed.

Lemma agree_trans p (g1 g2 g3 : G) : agree p g1 g2 -> agree p g2 g3 -> agree p g1 g3.
Proof.
  intros [H1 H2] [H3 H4]. split; [|intros; by rewrite H4, H2].
  intros r q Hq Hne. by rewrite (H3 r q), (H1 r q).
Qed.
Lemma agree_write p reg vals (g : G) :
  (forall r q, reg <= r < reg + Z.of_nat (length vals) -> part_of r = Some q -> q = p) -> agree p g (cp_write reg vals g).
Proof.
  intros H. split; [|intros _ t; apply cp_program_write]. intros r q Hq Hne. apply reg_frame.
  destruct (decide (reg <= r < reg + Z.of_nat (length vals))) as [Hin|]; [|lia]. by destruct (Hne (H r q Hin Hq)).
Qed.
(** Writes to registers of one part. *)
Lemma agree_part p reg vals (g : G) :
  (forall r, reg <= r < reg + Z.of_nat (length vals) -> part_of r = Some p) -> agree p g (cp_write reg vals g).
Proof. intros H. apply agree_write. intros r q Hr Hq. rewrite H in Hq by done. congruence. Qed.

Lemma insync_sent p done xe (g g' : G) : p <> PAlu -> p <> PFetch -> wf xe ->
  insync done xe g -> agree p g g' -> sent p xe g' -> insync (also p done) xe g'.
Proof.
  intros Ha Hf W [H1 H2 H3 H4 H5] Hg Hs. split; [|by eapply alu_frame|by eapply fetch_frame|done..].
  intros q Hq1 Hq2 Hd. unfold also in Hd. destruct (decide (q = p)) as [->|Hne]; [done|].
  rewrite (bool_decide_eq_false_2 _ Hne) in Hd. eapply sent_frame; [done..|]. by apply H1.
Qed.

(** Packets of registers of no part. *)
Lemma insync_none done xe (g g' : G) : wf xe -> (forall p, agree p g g') -> (forall t, cp_program g' t = cp_program g t) ->
  insync done xe g -> insync done xe g'.
Proof.
  intros W Hg Hp [H1 H2 H3 H4 H5].
  split; [|by eapply (alu_frame PMisc)|by eapply (fetch_frame PMisc)|done..].
  intros q Hq1 Hq2 Hd. destruct (decide (q = PMisc)) as [->|].
  - apply (sent_frame PControl _ _ g); [done..|]. by apply H1.
  - apply (sent_frame PMisc _ _ g); [done..|]. by apply H1.
Qed.
End frame.

(** ** Sending each part *)

Section upload.
Context {G : Type} {CP : CommandProcessor G}.

(** The part is sent and nothing else happens. *)
Definition sends_part (p : part) (xe : XenosDevice) (g : G) (xe' : XenosDevice) (g' : G) : Prop :=
  (exists ws, xe' = out ws xe) /\ agree p g g' /\ sent p xe g'.

(** A whole array as one packet. *)
Lemma array_sends p reg n (f : XenosDevice -> list Z) xe (g : G) :
  (forall ws, f (out ws xe) = f xe) -> Z.of_nat (length (f xe)) = n -> 0 < n <= 2 ^ 14 -> 0x2000 <= reg < 2 ^ 15 ->
  (forall r, reg <= r < reg + n -> part_of r = Some p) -> (forall h : G, sent p xe h <-> holds h reg (f xe)) ->
  forall xe1, (exists ws, xe1 = out ws xe) ->
  sends [] (1 + n) (rput32 (reg + (n - 1) * 2 ^ 16) ;; l <- gets f ;; rput l) xe1 g (fun _ => sends_part p xe g).
Proof.
  intros Hf Hl Hn Hreg Hp Hs xe1 [ws1 ->]. apply sends_rput32; [|lia]. apply sends_gets. cbn [app].
  rewrite out_out, Hf. apply sends_tail. replace (1 + n - 1) with (Z.of_nat (length (f xe)) + 0) by lia.
  apply sends_rput; [|lia]. apply (sends_type0 reg (f xe)); [by rewrite Hl|done|lia|].
  apply sends_ret; [lia|]. split; [rewrite out_out; eauto|]. split; [|apply Hs, holds_write].
  apply agree_part. by rewrite Hl.
Qed.

Lemma control_sends xe (g : G) : wf xe -> sends [] 10 Xe_pUploadControl xe g (fun _ => sends_part PControl xe g).
Proof.
  intros W. apply (array_sends PControl 0x2200 9 controlpacket); try done; [by rewrite (wf_control _ W)|apply part_control|].
  exists []. by rewrite out_nil.
Qed.
Lemma clip_sends xe (g : G) : wf xe -> sends [] 28 Xe_pUploadClipPlane xe g (fun _ => sends_part PClip xe g).
Proof.
  intros W. apply sends_align; [|lia].
  apply (array_sends PClip 0x2388 24 clipplane); try done; [by rewrite (wf_clip _ W)|apply part_clip].
Qed.
Lemma integer_sends xe (g : G) : wf xe -> sends [] 44 Xe_pUploadIntegerConstants xe g (fun _ => sends_part PInteger xe g).
Proof.
  intros W. apply sends_align; [|lia].
  apply (array_sends PInteger 0x4900 40 integer_constants); try done; [by rewrite (wf_int _ W)|apply part_int].
Qed.

(** Several packets at different places. *)
Definition writes (l : list (Z * list Z)) (g : G) : G := foldl (fun g p => cp_write p.1 p.2 g) g l.
Definition apart (x y : Z * Z) : bool := (x.1 + x.2 <=? y.1) || (y.1 + y.2 <=? x.1).
Fixpoint disjoint_places (l : list (Z * Z)) : bool :=
  match l with [] => true | x :: l => forallb (apart x) l && disjoint_places l end.
Definition place (p : Z * list Z) : Z * Z := (p.1, Z.of_nat (length p.2)).

Lemma writes_frame l reg vals (g : G) : forallb (apart (place (reg, vals))) (place <$> l) = true ->
  holds g reg vals -> holds (writes l g) reg vals.
Proof.
  revert g. induction l as [|[r v] l IH]; intros g H Hh; [done|]. cbn in H. apply andb_true_iff in H as [H1 H2].
  apply (IH _ H2). apply holds_frame; [|done]. unfold apart, place in H1. cbn [fst snd] in *.
  apply orb_true_iff in H1 as [H1|H1]; apply Z.leb_le in H1; lia.
Qed.
Lemma writes_hold l (g : G) : disjoint_places (place <$> l) = true -> Forall (fun p => holds (writes l g) p.1 p.2) l.
Proof.
  revert g. induction l as [|[r v] l IH]; intros g H; [done|]. cbn in H. apply andb_true_iff in H as [H1 H2].
  constructor; [|by apply IH]. apply (writes_frame l r v); [done|]. apply holds_write.
Qed.
Lemma writes_agree p l (g : G) :
  (forall r b n, (b, n) ∈ (place <$> l) -> b <= r < b + n -> part_of r = Some p) -> agree p g (writes l g).
Proof.
  revert g. induction l as [|[r v] l IH]; intros g H; [by split|].
  eapply agree_trans; [|apply IH].
  - apply agree_part. intros x Hx. apply (H x r (Z.of_nat (length v))); [by left|done].
  - intros x b n Hin. apply H. by right.
Qed.

Lemma clip_packet l t r b n (k : unit -> XM unit) xe (g : G) Q : 4 <= n ->
  (forall xe', (exists ws, xe' = out ws xe) ->
     sends [] (n - 4) (k tt) xe' (cp_write 0x2080 [xy32 0 0; xy32 l t; xy32 r b] g) Q) ->
  sends [] n (bind (Xe_pSetSurfaceClip 0 0 l t r b) k) xe g Q.
Proof.
  intros Hn H. unfold Xe_pSetSurfaceClip. packet 4 0x2080 [xy32 0 0; xy32 l t; xy32 r b].
  eapply sends_mono; [apply H|lia|done]. rewrite !out_out. eauto.
Qed.


Lemma misc_clip xe : wf xe -> exists l t r b,
  (if nz (scissor_enable xe) then
     match scissor_ltrb xe with
     | [l; t; r; b] => Xe_pSetSurfaceClip 0 0 l t r b
     | _ => fault
     end
   else Xe_pSetSurfaceClip 0 0 0 0 (vp_xres xe) (vp_yres xe)) = Xe_pSetSurfaceClip 0 0 l t r b /\
  head (misc_regs xe) = Some (0x2080, [xy32 0 0; xy32 l t; xy32 r b]).
Proof.
  intros W. pose proof (wf_scissor _ W) as Hl. unfold misc_regs. destruct (nz (scissor_enable xe)); [|eauto 6].
  destruct (scissor_ltrb xe) as [|l [|t [|r [|b [|]]]]]; try done. eauto 6.
Qed.
Lemma msaa_ok xe : wf xe -> msaa_sample_pos xe = Some (default 0 (msaa_sample_pos xe)).
Proof.
  intros W. pose proof (wf_msaa _ W). unfold msaa_sample_pos. rewrite (proj2 (Z.leb_le 0 _)) by lia.
  assert (msaa_samples xe = 0 \/ msaa_samples xe = 1 \/ msaa_samples xe = 2) as [->|[->| ->]] by lia; done.
Qed.

Lemma misc_writes xe (g : G) : wf xe ->
  sends [] 29 upload_misc xe g (fun _ xe' g' => (exists ws, xe' = out ws xe) /\ g' = writes (misc_regs xe) g).
Proof.
  intros W. unfold upload_misc. apply sends_get. destruct (misc_clip xe W) as (l & t & r & b & -> & Hh).
  rewrite (msaa_ok xe W). set (v := default 0 _). apply clip_packet; [lia|]. intros xe1 [ws1 ->].
  unfold Xe_pSetEDRAMLayout. apply sends_assoc, sends_get.
  packet 4 0x2000 [SurfaceInfo (edram_pitch xe) (msaa_samples xe) (edram_hizpitch xe);
    u32 ((edram_colorformat xe .<< 16) .| edram_color0base xe); u32 (edram_depthbase xe .| (0 .<< 16))].
  packet 2 0x200d [0]. packet 3 0x2100 [0xffffff; 0]. packet 2 0x2104 [0xf].
  packet 10 0x210c [nth 0 (stencildata xe) 0; nth 1 (stencildata xe) 0; f32_of (alpharef xe);
              f32_half (vp_xres xe - vp_xoffset xe); f32_half (vp_xres xe);
              f32_half (- vp_yres xe); f32_half (vp_yres xe); vp_znear xe; vp_zfar xe].
  apply sends_ret_bind. packet 2 0x2301 [v]. apply sends_tail. packet 2 0x2312 [0xffff].
  apply sends_ret; [lia|]. rewrite !out_out. split; [eauto|]. unfold misc_regs in *. cbn [head] in Hh.
  injection Hh as Hh. rewrite Hh. done.
Qed.


Lemma misc_sends xe (g : G) : wf xe -> sends [] 29 upload_misc xe g (fun _ => sends_part PMisc xe g).
Proof.
  intros W. eapply sends_mono; [by apply misc_writes|lia|]. intros [] xe' g' [H1 ->]. split; [done|].
  change (fun p : Z * list Z => (p.1, Z.of_nat (length p.2))) with place in *. split.
  - apply writes_agree. intros r b n. change place with (fun p : Z * list Z => (p.1, Z.of_nat (length p.2))).
    rewrite misc_shape. apply part_misc.
  - apply writes_hold. change place with (fun p : Z * list Z => (p.1, Z.of_nat (length p.2))). by rewrite misc_shape.
Qed.
End upload.
