(* ===== verification/XeMarks.v ===== *)
(** * Graphics driver: the setters mark what they change

    [marks xe xe'] says that a change of the device's copies has left its
    trace in the dirty words: a part, or a block of constants, that is not
    dirty afterwards is what it was. *)
From S2P Require Import Prelude Bits Xe XeGpu XeSync XeFacts.

(** A part is the same in both devices. *)
Definition same_part (p : part) (xe xe' : XenosDevice) : Prop :=
  match p with
  | PAlu => alu_constants xe' = alu_constants xe
  | PFetch => fetch_constants xe' = fetch_constants xe
  | PClip => clipplane xe' = clipplane xe
  | PInteger => integer_constants xe' = integer_constants xe
  | PControl => controlpacket xe' = controlpacket xe
  | PShader => ps xe' = ps xe /\ vs xe' = vs xe /\ vs_index xe' = vs_index xe /\ shaders xe' = shaders xe
  | PMisc => misc_regs xe' = misc_regs xe
  end.

Record marks (xe xe' : XenosDevice) : Prop := {
  mk_dirty : forall n, Z.testbit (dirty xe) n = true -> Z.testbit (dirty xe') n = true;
  mk_part : forall p, p <> PAlu -> p <> PFetch -> Z.testbit (dirty xe') (dirty_bit p) = false -> same_part p xe xe';
  mk_alu : forall b, 0 <= b < 32 -> Z.testbit (alu_dirty xe') b = false ->
    Z.testbit (alu_dirty xe) b = false /\ slice (b * 64) 64 (alu_constants xe') = slice (b * 64) 64 (alu_constants xe);
  mk_fetch : forall b, 0 <= b < 32 -> Z.testbit (fetch_dirty xe') b = false ->
    Z.testbit (fetch_dirty xe) b = false /\ slice (b * 6) 6 (fetch_constants xe') = slice (b * 6) 6 (fetch_constants xe);
  mk_alu_flag : alu_dirty xe' <> 0 -> alu_dirty xe <> 0 \/ Z.testbit (dirty xe') 0 = true;
  mk_fetch_flag : fetch_dirty xe' <> 0 -> fetch_dirty xe <> 0 \/ Z.testbit (dirty xe') 1 = true;
  mk_rb : rb_secondary xe' = rb_secondary xe;
  mk_wptr : rb_secondary_wptr xe' = rb_secondary_wptr xe }.

Lemma same_part_refl p xe : same_part p xe xe.
Proof. by destruct p. Qed.
Lemma same_part_trans p xe1 xe2 xe3 : same_part p xe1 xe2 -> same_part p xe2 xe3 -> same_part p xe1 xe3.
Proof. destruct p; cbn; [congruence..| |congruence]. intros (? & ? & ? & ?) (? & ? & ? & ?). split_and!; congruence. Qed.

#[export] Instance marks_preorder : PreOrder marks.
Proof.
  split.
  - intros xe. split; auto using same_part_refl.
  - intros x y z [A1 A2 A3 A4 A5 A6 A7 A8] [B1 B2 B3 B4 B5 B6 B7 B8].
    assert (forall n, Z.testbit (dirty z) n = false -> Z.testbit (dirty y) n = false) as Hd.
    { intros n Hn. destruct (Z.testbit (dirty y) n) eqn:E; [|done]. by rewrite (B1 _ E) in Hn. }
    split; [auto|..|congruence|congruence].
    + intros p H1 H2 H3. eapply same_part_trans; eauto.
    + intros b Hb H. destruct (B3 b Hb H) as [H1 H2]. destruct (A3 b Hb H1) as [H3 H4]. split; congruence.
    + intros b Hb H. destruct (B4 b Hb H) as [H1 H2]. destruct (A4 b Hb H1) as [H3 H4]. split; congruence.
    + intros H. destruct (B5 H) as [H1|]; [|auto]. destruct (A5 H1); auto.
    + intros H. destruct (B6 H) as [H1|]; [|auto]. destruct (A6 H1); auto.
Qed.

Section insync.
Context {G : Type} {CP : CommandProcessor G}.

Lemma sent_same p xe xe' (g : G) : same_part p xe xe' -> sent p xe g -> sent p xe' g.
Proof.
  destruct p; cbn [same_part sent]; unfold blocks_ok, block; try (by intros ->).
  intros (E1 & E2 & E3 & E4). unfold shader_regs, shader_bits, code_of. by rewrite E1, E2, E3, E4.
Qed.

(** The chip is still in step after a change that is marked. *)
Lemma marks_insync done xe xe' (g : G) : marks xe xe' -> (forall p, done p = true -> same_part p xe xe') ->
  insync done xe g -> insync done xe' g.
Proof.
  intros [A1 A2 A3 A4 A5 A6 _ _] Hdone [B1 B2 B3 B4 B5]. split.
  - intros p H1 H2 [H|H].
    + apply (sent_same _ xe); [by apply Hdone|]. apply B1; auto.
    + apply (sent_same _ xe); [by apply A2|]. apply B1; [done..|right].
      destruct (Z.testbit (dirty xe) (dirty_bit p)) eqn:E; [|done]. by rewrite (A1 _ E) in H.
  - intros b Hb H. destruct (A3 b Hb H) as [H1 H2]. unfold block. change (16 * 4) with 64. rewrite H2. by apply B2.
  - intros b Hb H. destruct (A4 b Hb H) as [H1 H2]. unfold block. change (3 * 2) with 6. rewrite H2. by apply B3.
  - intros H. destruct (A5 H); auto.
  - intros H. destruct (A6 H); auto.
Qed.
End insync.

(** ** Changes of one field *)

(** Every successful run of [m] relates the states by [R]. *)
Definition changes {A} (R : XenosDevice -> XenosDevice -> Prop) (m : XM A) : Prop :=
  forall xe a xe', m xe = Ok a xe' -> R xe xe'.

Section changes.
Context (R : XenosDevice -> XenosDevice -> Prop) `{!PreOrder R}.
Lemma changes_ret {A} (a : A) : changes R (ret a).
Proof. intros xe b xe' [= <- <-]. reflexivity. Qed.
Lemma changes_fault {A} : changes R (@fault _ A).
Proof. by intros xe a xe'. Qed.
Lemma changes_get : changes R get.
Proof. intros xe a xe' [= <- <-]. reflexivity. Qed.
Lemma changes_bind {A B} (m : XM A) (k : A -> XM B) : changes R m -> (forall a, changes R (k a)) -> changes R (bind m k).
Proof.
  intros Hm Hk xe b xe' H. apply bind_ok_inv in H as (a & xe1 & H1 & H2). etransitivity; [by eapply Hm|by eapply Hk].
Qed.
Lemma changes_assoc {A B C} (m : XM A) (k : A -> XM B) (h : B -> XM C) :
  changes R (bind (bind m k) h) -> changes R (bind m (fun x => bind (k x) h)).
Proof. intros H xe a xe' E. apply (H xe a xe'). by rewrite bind_assoc. Qed.
Lemma changes_if {A} (b : bool) (m m' : XM A) : changes R m -> changes R m' -> changes R (if b then m else m').
Proof. by destruct b. Qed.
Lemma changes_when b (m : XM unit) : changes R m -> changes R (when b m).
Proof. intros. apply changes_if; [done|apply changes_ret]. Qed.
Lemma changes_assert b : changes R (assert_ b).
Proof. apply changes_if; [apply changes_ret|apply changes_fault]. Qed.
Lemma changes_option {A} (o : option A) : changes R (of_option o).
Proof. destruct o; [apply changes_ret|apply changes_fault]. Qed.
Lemma changes_while {A} n (step : A -> XM (option A)) a : (forall a, changes R (step a)) -> changes R (while n step a).
Proof.
  intros Hs. revert a. induction n as [|n IH]; intros a; [by intros xe b xe'|]. cbn [while].
  apply changes_bind; [apply Hs|]. intros [a'|]; [apply IH|apply changes_ret].
Qed.
End changes.

Create HintDb xe discriminated.
#[export] Hint Resolve changes_ret changes_fault changes_get changes_bind changes_if changes_when changes_assert
  changes_option changes_while : xe.

(** What a setter does to a well-formed device. *)
Definition marked (xe xe' : XenosDevice) : Prop := wf xe -> marks xe xe' /\ wf xe'.
#[export] Instance marked_preorder : PreOrder marked.
Proof.
  split; [by intros xe W|]. intros x y z H1 H2 W. destruct (H1 W) as [M1 W1]. destruct (H2 W1) as [M2 W2].
  split; [by transitivity y|done].
Qed.

Lemma lor_true d x n : Z.testbit x n = true -> Z.testbit (d .| x) n = true.
Proof. intros H. by rewrite Z.lor_spec, H, orb_true_r. Qed.
Lemma lor_keep d x n : Z.testbit d n = true -> Z.testbit (d .| x) n = true.
Proof. intros H. by rewrite Z.lor_spec, H. Qed.

(** The control words, and the miscellaneous state, change and nothing else. *)
Definition control_only (xe xe' : XenosDevice) : Prop :=
  exists l, length l = length (controlpacket xe) /\ xe' = xe <| controlpacket := l |>.
Definition misc_only (xe xe' : XenosDevice) : Prop :=
  exists st se sc ar, length st = length (stencildata xe) /\ length sc = length (scissor_ltrb xe) /\
    xe' = xe <| stencildata := st |> <| scissor_enable := se |> <| scissor_ltrb := sc |> <| alpharef := ar |>.
#[export] Instance control_only_preorder : PreOrder control_only.
Proof.
  split.
  - intros []. by eexists.
  - intros x y z (l & Hl & ->) (l' & Hl' & ->). exists l'. cbn in *. split; [congruence|done].
Qed.
#[export] Instance misc_only_preorder : PreOrder misc_only.
Proof.
  split.
  - intros []. by eexists _, _, _, _.
  - intros x y z (a & b & c & e & H1 & H2 & ->) (a' & b' & c' & e' & H1' & H2' & ->). exists a', b', c', e'. cbn in *.
    split_and!; [congruence..|done].
Qed.

Lemma control_upd i f : changes control_only (upd controlpacket i f).
Proof. intros xe a xe' [= <- <-]. exists (alter f i (controlpacket xe)). by rewrite length_alter. Qed.
Lemma stencil_upd i f : changes misc_only (upd stencildata i f).
Proof.
  intros xe a xe' [= <- <-]. exists (alter f i (stencildata xe)), (scissor_enable xe), (scissor_ltrb xe), (alpharef xe).
  rewrite length_alter. split_and!; [done..|]. by destruct xe.
Qed.
Lemma scissor_upd i f : changes misc_only (upd scissor_ltrb i f).
Proof.
  intros xe a xe' [= <- <-]. exists (stencildata xe), (scissor_enable xe), (alter f i (scissor_ltrb xe)), (alpharef xe).
  rewrite length_alter. split_and!; [done..|]. by destruct xe.
Qed.
Lemma scissor_set v : changes misc_only (modify (fun xe => xe <| scissor_enable := v |>)).
Proof.
  intros xe a xe' [= <- <-]. exists (stencildata xe), v, (scissor_ltrb xe), (alpharef xe). split_and!; [done..|]. by destruct xe.
Qed.
Lemma alpharef_set v : changes misc_only (modify (fun xe => xe <| alpharef := v |>)).
Proof.
  intros xe a xe' [= <- <-]. exists (stencildata xe), (scissor_enable xe), (scissor_ltrb xe), v. split_and!; [done..|]. by destruct xe.
Qed.
#[export] Hint Resolve control_upd stencil_upd scissor_upd scissor_set alpharef_set : xe.
#[export] Hint Extern 1 (PreOrder _) => exact _ : xe.

(** A device that differs in fields whose part is marked. *)
Ltac solve_wf W := destruct W; split; cbn; try done; try congruence; try lia.
Ltac solve_marks :=
  split;
    [ intros n Hn; exact (lor_keep _ _ n Hn)
    | intros [] ? ? Hbit; cbn [dirty_bit] in Hbit;
        first [exfalso; refine (Bool.eq_true_false_abs _ (lor_true _ _ _ _) Hbit); reflexivity
              | contradiction | repeat split | idtac]
    | intros b Hb Hbit; split; [exact Hbit|reflexivity] | intros b Hb Hbit; split; [exact Hbit|reflexivity]
    | intros Hn; left; exact Hn | intros Hn; left; exact Hn | reflexivity | reflexivity ].

(** Steps of [R] and then the dirty bits. *)
Definition then_dirty (R : XenosDevice -> XenosDevice -> Prop) (bits : Z) (xe xe' : XenosDevice) : Prop :=
  exists xe1, R xe xe1 /\ xe' = xe1 <| dirty ::= fun d => d .| bits |>.
Lemma dirty_last R `{!PreOrder R} bits : changes (then_dirty R bits) (set_dirty bits).
Proof. intros xe a xe' [= <- <-]. by exists xe. Qed.
Lemma dirty_bind R `{!PreOrder R} bits {A B} (m : XM A) (k : A -> XM B) :
  changes R m -> (forall a, changes (then_dirty R bits) (k a)) -> changes (then_dirty R bits) (bind m k).
Proof.
  intros Hm Hk xe b xe' H. apply bind_ok_inv in H as (a & xe1 & H1 & H2). destruct (Hk _ _ _ _ H2) as (xe2 & H3 & ->).
  exists xe2. split; [|done]. transitivity xe1; [by eapply Hm|done].
Qed.

Lemma control_marked (m : XM unit) : changes (then_dirty control_only DIRTY_CONTROL) m -> changes marked m.
Proof. intros H xe a xe' E W. destruct (H _ _ _ E) as (xe1 & (l & Hl & ->) & ->). split; [solve_marks|solve_wf W]. Qed.
Lemma misc_marked (m : XM unit) : changes (then_dirty misc_only DIRTY_MISC) m -> changes marked m.
Proof.
  intros H xe a xe' E W. destruct (H _ _ _ E) as (xe1 & (st & se & sc & ar & H1 & H2 & ->) & ->).
  split; [solve_marks|solve_wf W].
Qed.

(** *** The setters of the control words and of the miscellaneous state *)

Ltac setter_by L :=
  apply L;
  repeat (apply dirty_bind; [exact _| |intros ?]); try (apply dirty_last; exact _);
  repeat first [apply changes_when; [exact _|] | apply changes_bind; [exact _| |intros ?]]; auto with xe.
Ltac setter := first [solve [setter_by control_marked] | solve [setter_by misc_marked]].

Lemma SetZFunc_marked v : changes marked (Xe_SetZFunc v).
Proof. setter. Qed.
Lemma SetZWrite_marked v : changes marked (Xe_SetZWrite v).
Proof. setter. Qed.
Lemma SetZEnable_marked v : changes marked (Xe_SetZEnable v).
Proof. setter. Qed.
Lemma SetFillMode_marked f b : changes marked (Xe_SetFillMode f b).
Proof. setter. Qed.
Lemma SetBlendControl_marked a b c d e f : changes marked (Xe_SetBlendControl a b c d e f).
Proof. setter. Qed.
Lemma SetSrcBlend_marked v : changes marked (Xe_SetSrcBlend v).
Proof. setter. Qed.
Lemma SetDestBlend_marked v : changes marked (Xe_SetDestBlend v).
Proof. setter. Qed.
Lemma SetBlendOp_marked v : changes marked (Xe_SetBlendOp v).
Proof. setter. Qed.
Lemma SetSrcBlendAlpha_marked v : changes marked (Xe_SetSrcBlendAlpha v).
Proof. setter. Qed.
Lemma SetDestBlendAlpha_marked v : changes marked (Xe_SetDestBlendAlpha v).
Proof. setter. Qed.
Lemma SetBlendOpAlpha_marked v : changes marked (Xe_SetBlendOpAlpha v).
Proof. setter. Qed.
Lemma SetCullMode_marked v : changes marked (Xe_SetCullMode v).
Proof. setter. Qed.
Lemma SetAlphaTestEnable_marked v : changes marked (Xe_SetAlphaTestEnable v).
Proof. setter. Qed.
Lemma SetAlphaFunc_marked v : changes marked (Xe_SetAlphaFunc v).
Proof. setter. Qed.
Lemma SetAlphaRef_marked v : changes marked (Xe_SetAlphaRef v).
Proof. setter. Qed.
Lemma SetStencilFunc_marked b f : changes marked (Xe_SetStencilFunc b f).
Proof. setter. Qed.
Lemma SetStencilEnable_marked v : changes marked (Xe_SetStencilEnable v).
Proof. setter. Qed.
Lemma SetStencilOp_marked b f z p : changes marked (Xe_SetStencilOp b f z p).
Proof. setter. Qed.
Lemma SetStencilRef_marked b v : changes marked (Xe_SetStencilRef b v).
Proof. setter. Qed.
Lemma SetStencilMask_marked b v : changes marked (Xe_SetStencilMask b v).
Proof. setter. Qed.
Lemma SetStencilWriteMask_marked b v : changes marked (Xe_SetStencilWriteMask b v).
Proof. setter. Qed.
Lemma SetScissor_marked e l t r b : changes marked (Xe_SetScissor e l t r b).
Proof. setter. Qed.
Lemma SetClipPlaneEnables_marked v : changes marked (Xe_SetClipPlaneEnables v).
Proof. setter. Qed.
#[export] Hint Resolve SetZFunc_marked SetZWrite_marked SetZEnable_marked SetFillMode_marked SetBlendControl_marked
  SetSrcBlend_marked SetDestBlend_marked SetBlendOp_marked SetSrcBlendAlpha_marked SetDestBlendAlpha_marked
  SetBlendOpAlpha_marked SetCullMode_marked SetAlphaTestEnable_marked SetAlphaFunc_marked SetAlphaRef_marked
  SetStencilFunc_marked SetStencilEnable_marked SetStencilOp_marked SetStencilRef_marked SetStencilMask_marked
  SetStencilWriteMask_marked SetScissor_marked SetClipPlaneEnables_marked : xe.
