(* ===== verification/XeCalls.v ===== *)
(** * Graphics driver: constants, textures and shaders mark what they change *)
From S2P Require Import Prelude Bits Xe XeGpu XeSync XeFacts XeMarks.

(** ** Marking blocks *)

Section mark.
Context (d : XenosDevice -> Z) {Sd : Setter d}.
Hypothesis d_set : forall f xe, d (set d f xe) = f (d xe).
Hypothesis set_set : forall f h xe, set d f (set d h xe) = set d (fun x => f (h x)) xe.
Hypothesis set_same : forall v xe, d xe = v -> set d (fun _ => v) xe = xe.

(** The blocks from [base] on, [step] constants each, that [len] constants
    reach into. *)
Definition marked_bits (step base len b : Z) : bool := (base <=? b) && ((b - base) * step <? len).

Lemma mark_spec n step base len xe a xe' : 0 < step -> is_word (d xe) ->
  mark d n step base len xe = Ok a xe' ->
  exists v, xe' = set d (fun _ => v) xe /\ is_word v /\
    forall b, 0 <= b -> Z.testbit v b = Z.testbit (d xe) b || marked_bits step base len b.
Proof.
  intros Hst. revert base len xe. induction n as [|n IH]; intros base len xe Hw; cbn [mark];
    destruct (Z.ltb_spec 0 len) as [Hl|Hl]; [done| | |].
  1, 3: intros [= <- <-]; exists (d xe); rewrite (set_same (d xe)) by done; split_and!; try done;
    intros b Hb; unfold marked_bits; destruct (Z.leb_spec base b); cbn [andb]; [|by rewrite orb_false_r];
    rewrite (proj2 (Z.ltb_ge _ _)) by nia; by rewrite orb_false_r.
  intros H. apply bind_ok_inv in H as ([] & xe1 & H1 & H2).
  destruct (Z.leb_spec 0 base), (Z.ltb_spec base 32); try done. cbn [andb] in H1. injection H1 as <-.
  apply IH in H2 as (v & -> & Hv & Hb); rewrite ?d_set in *; [|by apply is_word_lor; [|apply is_word_u32]].
  exists v. rewrite set_set. split_and!; [done..|]. intros b Hb0. rewrite Hb by done.
  rewrite Z.lor_spec, bit_word, <- orb_assoc by lia. f_equal. unfold marked_bits.
  destruct (Z.eqb_spec base b) as [<-|Hne].
  - rewrite Z.leb_refl, Z.sub_diag, Z.mul_0_l. by rewrite (proj2 (Z.ltb_lt 0 len)).
  - cbn [orb]. destruct (Z.leb_spec (base + 1) b), (Z.leb_spec base b); cbn [andb]; try done; try lia.
Qed.

Lemma mark_only n step base len xe a xe' : mark d n step base len xe = Ok a xe' -> exists v, xe' = set d (fun _ => v) xe.
Proof.
  revert base len xe. induction n as [|n IH]; intros base len xe; cbn [mark]; destruct (0 <? len); [done| | |].
  1, 3: intros [= <- <-]; exists (d xe); by rewrite set_same.
  intros H. apply bind_ok_inv in H as ([] & xe1 & H1 & H2). destruct (_ && _); [|done]. injection H1 as <-.
  apply IH in H2 as [v ->]. rewrite set_set. eauto.
Qed.
End mark.

(** A copy into an array leaves the slices it does not reach. *)
Lemma slice_write_at (off n i : Z) (l a : list Z) : 0 <= off -> 0 <= n -> 0 <= i ->
  i + Z.of_nat (length l) <= Z.of_nat (length a) -> off + n <= i \/ i + Z.of_nat (length l) <= off ->
  slice off n (write_at (Z.to_nat i) l a) = slice off n a.
Proof.
  intros Ho Hn Hi Hl H. apply list_eq. intros j. unfold slice. destruct (decide (j < Z.to_nat n)%nat) as [Hj|Hj].
  2: { rewrite !(proj2 (lookup_ge_None _ _)); [done|rewrite length_take; lia..]. }
  rewrite !lookup_take_lt, !lookup_drop by done. unfold write_at. destruct H as [H|H].
  - rewrite lookup_app_l by (rewrite length_take; lia). by rewrite lookup_take_lt by lia.
  - rewrite app_assoc, lookup_app_r by (rewrite length_app, length_take; lia).
    rewrite length_app, length_take, lookup_drop. f_equal. lia.
Qed.

(** ** Shader constants *)

Lemma store_ok n (a : XenosDevice -> list Z) {S : Setter a} i l xe u xe' : store n a i l xe = Ok u xe' ->
  0 <= i /\ i + Z.of_nat (length l) <= n /\ xe' = set a (write_at (Z.to_nat i) l) xe.
Proof.
  unfold store. destruct (Z.leb_spec 0 i), (Z.leb_spec (i + Z.of_nat (length l)) n); try done. by intros [= <-].
Qed.

(** Words from constant [start] on, no more than [count] constants. *)
Lemma alu_store_marked start l count : Z.of_nat (length l) <= count * 4 ->
  changes marked (store 2048 alu_constants (start * 4) l ;; Xe_DirtyAluConstant start count).
Proof.
  intros Hl xe a xe' E W. apply bind_ok_inv in E as ([] & xe1 & E1 & E2). apply store_ok in E1 as (H0 & H1 & ->).
  unfold Xe_DirtyAluConstant in E2. apply bind_ok_inv in E2 as ([] & xe2 & E2 & E3).
  pose proof (wf_alu _ W) as Hal. pose proof (wf_alu_dirty _ W) as Hw.
  apply (mark_spec alu_dirty) in E2 as (v & -> & Hv & Hb); [|done|done|intros v0 x <-; by destruct x|lia|done].
  injection E3 as _ <-. change (alu_dirty (set alu_constants _ xe)) with (alu_dirty xe) in Hb.
  change 15 with (Z.ones 4) in Hb. rewrite Z.land_ones, Z.shiftr_div_pow2 in Hb by lia. change (2 ^ 4) with 16 in Hb.
  split; [split|].
  - intros n Hn. exact (lor_keep _ _ n Hn).
  - intros [] ? ? Hbit; try done; by repeat split.
  - intros b Hb0 Hbit. change (Z.testbit v b = false) in Hbit. rewrite Hb in Hbit by lia.
    apply orb_false_iff in Hbit as [Hd Hm]. split; [exact Hd|].
    apply slice_write_at; [lia..| |]; [rewrite Hal; lia|]. unfold marked_bits in Hm.
    pose proof (Z.div_mod start 16 ltac:(lia)). pose proof (Z.mod_pos_bound start 16 ltac:(lia)).
    apply andb_false_iff in Hm as [Hm|Hm]; [apply Z.leb_gt in Hm|apply Z.ltb_ge in Hm]; lia.
  - intros b Hb0 Hbit. split; [exact Hbit|reflexivity].
  - intros _. right. exact (lor_true (dirty xe) DIRTY_ALU 0 eq_refl).
  - intros Hn. left. exact Hn.
  - reflexivity.
  - reflexivity.
  - destruct W; split; cbn; try done. rewrite length_write_at; [done|]. lia.
Qed.

Lemma first_words_ok data n xe l xe' : first_words data n xe = Ok l xe' -> xe' = xe /\ Z.of_nat (length l) = n.
Proof.
  unfold first_words. destruct (Z.leb_spec 0 n), (Z.leb_spec n (Z.of_nat (length data))); try done.
  intros [= <- <-]. split; [done|]. rewrite length_take. lia.
Qed.

Lemma SetVertexShaderConstantF_marked start data count : changes marked (Xe_SetVertexShaderConstantF start data count).
Proof.
  intros xe a xe' E. apply bind_ok_inv in E as (l & xe1 & E1 & E2). apply first_words_ok in E1 as [-> Hl].
  eapply alu_store_marked; [|exact E2]. lia.
Qed.
Lemma SetPixelShaderConstantF_marked start data count : changes marked (Xe_SetPixelShaderConstantF start data count).
Proof.
  intros xe a xe' E. apply bind_ok_inv in E as (l & xe1 & E1 & E2). apply first_words_ok in E1 as [-> Hl].
  eapply alu_store_marked; [|exact E2]. lia.
Qed.

(** ** Integer and boolean constants, clip planes *)

Lemma integer_marked xe l : length l = length (integer_constants xe) ->
  marked xe (xe <| integer_constants := l |> <| dirty ::= fun d => d .| DIRTY_INTEGER |>).
Proof. intros Hl W. split; [solve_marks|solve_wf W]. Qed.
Lemma clip_marked xe l : length l = length (clipplane xe) ->
  marked xe (xe <| clipplane := l |> <| dirty ::= fun d => d .| DIRTY_CLIP |>).
Proof. intros Hl W. split; [solve_marks|solve_wf W]. Qed.

Lemma integer_store_marked i l : changes marked (store 40 integer_constants i l ;; set_dirty DIRTY_INTEGER).
Proof.
  intros xe a xe' E W. apply bind_ok_inv in E as ([] & xe1 & E1 & [= _ <-]). apply store_ok in E1 as (H0 & H1 & ->).
  apply (integer_marked xe (write_at (Z.to_nat i) l (integer_constants xe))); [|done].
  apply length_write_at. rewrite (wf_int _ W). lia.
Qed.
Lemma set_bool_marked i v : changes marked (set_bool i v).
Proof.
  intros xe a xe' E W. apply bind_ok_inv in E as ([] & xe1 & E1 & [= _ <-]).
  destruct (Z.leb_spec 0 (i .>> 5)), (Z.ltb_spec (i .>> 5) 40); try done. injection E1 as <-.
  eapply integer_marked; [|done]. apply length_alter.
Qed.
Lemma SetClipPlane_marked i p : changes marked (Xe_SetClipPlane i p).
Proof.
  apply changes_bind; [exact _|apply changes_assert; exact _|intros _]. destruct p as [[[x y] z] w].
  intros xe a xe' E W. apply bind_ok_inv in E as ([] & xe1 & E1 & [= _ <-]). apply store_ok in E1 as (H0 & H1 & ->).
  eapply clip_marked; [|done]. apply length_write_at. rewrite (wf_clip _ W). lia.
Qed.

(** ** Viewport, shaders, everything *)

Lemma SetViewport_marked x y w h zn zf : changes marked (Xe_SetViewport x y w h zn zf).
Proof. intros xe a xe' [= _ <-] W. split; [solve_marks|solve_wf W]. Qed.

Lemma InvalidateState_marked : changes marked Xe_InvalidateState.
Proof.
  intros xe a xe' [= _ <-] W. split; [split|solve_wf W].
  - intros n Hn. refine (lor_keep _ _ n _). apply Z.bits_m1. destruct (Z.lt_ge_cases n 0); [|done].
    by rewrite Z.testbit_neg_r in Hn.
  - intros p ? ? Hbit. exfalso. refine (Bool.eq_true_false_abs _ (lor_keep _ _ _ _) Hbit). apply Z.bits_m1. by destruct p.
  - intros b Hb Hbit. exfalso. change (Z.testbit (Z.ones 32) b = false) in Hbit.
    rewrite Z.ones_spec_low in Hbit by lia. done.
  - intros b Hb Hbit. exfalso. change (Z.testbit (Z.ones 32) b = false) in Hbit.
    rewrite Z.ones_spec_low in Hbit by lia. done.
  - intros _. right. reflexivity.
  - intros _. right. reflexivity.
  - reflexivity.
  - reflexivity.
Qed.

(** Only fields that are no part of the state. *)
Lemma unmarked xe xe' : dirty xe' = dirty xe -> alu_dirty xe' = alu_dirty xe -> fetch_dirty xe' = fetch_dirty xe ->
  (forall p, same_part p xe xe') -> rb_secondary xe' = rb_secondary xe -> rb_secondary_wptr xe' = rb_secondary_wptr xe ->
  marks xe xe'.
Proof.
  intros E1 E2 E3 H E4 E5. split; rewrite ?E1, ?E2, ?E3; try done; auto.
  - intros b Hb Hd. split; [done|]. by rewrite (H PAlu : alu_constants xe' = _).
  - intros b Hb Hd. split; [done|]. by rewrite (H PFetch : fetch_constants xe' = _).
Qed.
Lemma SetClearColor_marked c : changes marked (Xe_SetClearColor c).
Proof. intros xe a xe' [= _ <-] W. split; [apply unmarked; try done; by intros []|solve_wf W]. Qed.
Lemma SetIndices_marked i : changes marked (Xe_SetIndices i).
Proof. intros xe a xe' [= _ <-] W. split; [apply unmarked; try done; by intros []|solve_wf W]. Qed.

(** A shader that is null or an object of the heap. *)
Lemma SetShader_marked t sh i xe a xe' : (sh <> 0 -> is_Some (shaders xe !! sh)) ->
  Xe_SetShader t sh i xe = Ok a xe' -> marked xe xe'.
Proof.
  intros Hsh. unfold Xe_SetShader. destruct (t =? SHADER_TYPE_PIXEL).
  - intros E W. unfold bind at 1 in E. cbn [get] in E. destruct (negb (ps xe =? sh)); cbn [when] in E.
    + injection E as _ <-. split; [solve_marks|solve_wf W].
    + injection E as _ <-. split; [reflexivity|done].
  - intros E W. apply bind_ok_inv in E as (s & x1 & E1 & E). unfold shader_at, bind in E1. cbn [get] in E1.
    destruct (shaders xe !! sh) as [s'|] eqn:Es; [|done]. injection E1 as -> <-.
    apply bind_ok_inv in E as (j & x1 & E1 & E). destruct (Z.leb_spec 0 i) as [Hi|]; [|done].
    destruct (shader_instance s !! Z.to_nat i) as [j'|] eqn:Ej; [|done]. injection E1 as -> <-.
    assert (0 <= i < 16) as Hi16.
    { destruct (wf_shaders _ W _ _ Es) as (_ & _ & Hl & _). apply lookup_lt_Some in Ej. lia. }
    assert (sh <> 0 -> is_Some (shaders xe !! sh) /\ 0 <= i < 16) by (rewrite Es; eauto).
    apply bind_ok_inv in E as ([] & x1 & E1 & E). unfold assert_ in E1. destruct (nz j); [|done]. injection E1 as <-.
    unfold bind at 1 in E. cbn [get] in E. destruct (negb (vs xe =? sh) || negb (vs_index xe =? i)); cbn [when] in E.
    + injection E as _ <-. split; [solve_marks|solve_wf W].
    + injection E as _ <-. split; [reflexivity|done].
Qed.

(** ** Fetch constants *)

(** Words at [i] whose blocks are all marked. *)
Lemma fetch_store_marked i l base len :
  (forall b, 0 <= b < 32 -> 6 * b < i + Z.of_nat (length l) -> i < 6 * b + 6 ->
     marked_bits 3 (Z.quot base 3) (len + Z.rem base 3) b = true) ->
  changes marked (store 192 fetch_constants i l ;; Xe_DirtyFetch base len).
Proof.
  intros Hc xe a xe' E W. apply bind_ok_inv in E as ([] & xe1 & E1 & E2). apply store_ok in E1 as (H0 & H1 & ->).
  unfold Xe_DirtyFetch in E2. apply bind_ok_inv in E2 as ([] & xe2 & E2 & E3).
  pose proof (wf_fetch _ W) as Hal. pose proof (wf_fetch_dirty _ W) as Hw.
  apply (mark_spec fetch_dirty) in E2 as (v & -> & Hv & Hb); [|done|done|intros v0 x <-; by destruct x|lia|done].
  injection E3 as _ <-. change (fetch_dirty (set fetch_constants _ xe)) with (fetch_dirty xe) in Hb.
  split; [split|].
  - intros n Hn. exact (lor_keep _ _ n Hn).
  - intros [] ? ? Hbit; try done; by repeat split.
  - intros b Hb0 Hbit. split; [exact Hbit|reflexivity].
  - intros b Hb0 Hbit. change (Z.testbit v b = false) in Hbit. rewrite Hb in Hbit by lia.
    apply orb_false_iff in Hbit as [Hd Hm]. split; [exact Hd|].
    apply slice_write_at; [lia..| |]; [rewrite Hal; lia|].
    destruct (decide (6 * b < i + Z.of_nat (length l) /\ i < 6 * b + 6)) as [[H2 H3]|]; [|lia]. by rewrite Hc in Hm by lia.
  - intros Hn. left. exact Hn.
  - intros _. right. exact (lor_true (dirty xe) DIRTY_FETCH 1 eq_refl).
  - reflexivity.
  - reflexivity.
  - destruct W; split; cbn; try done. rewrite length_write_at; [done|]. lia.
Qed.

Lemma marked_true step base len b : base <= b -> (b - base) * step < len -> marked_bits step base len b = true.
Proof. intros H1 H2. unfold marked_bits. by rewrite (proj2 (Z.leb_le _ _) H1), (proj2 (Z.ltb_lt _ _) H2). Qed.

Lemma TEXTURE_FETCH_length b w h p t f bm an fi u v l : TEXTURE_FETCH b w h p t f bm an fi u v = Some l -> length l = 6%nat.
Proof. unfold TEXTURE_FETCH. destruct (pitch_unit f); [|done]. cbn. by intros [= <-]. Qed.

(** Textures in the first three places. *)
Lemma texture_blocks i l : 0 <= i <= 2 -> length l = 6%nat ->
  changes marked (store 192 fetch_constants (i * 6) l ;; Xe_DirtyFetch (i + i * 3) 3).
Proof.
  intros Hi Hl. apply fetch_store_marked. rewrite Hl. intros b Hb H1 H2. assert (b = i) as -> by lia.
  assert (i = 0 \/ i = 1 \/ i = 2) as [->|[->| ->]] by lia; done.
Qed.
Lemma SetTexture_marked i t : 0 <= i <= 2 -> changes marked (Xe_SetTexture i t).
Proof.
  intros Hi xe a xe' E. apply bind_ok_inv in E as (x & xe1 & E1 & E2). injection E1 as <- <-.
  destruct (nz t).
  - rewrite bind_assoc in E2. apply bind_ok_inv in E2 as (s & xe1 & E1 & E2).
    destruct (surfaces xe !! t); [|done]. injection E1 as -> <-.
    rewrite bind_assoc in E2. apply bind_ok_inv in E2 as (l & xe1 & E1 & E2).
    destruct (TEXTURE_FETCH _ _ _ _ _ _ _ _ _ _ _) eqn:El; [|done]. injection E1 as -> <-.
    eapply texture_blocks; [done| |exact E2]. by eapply TEXTURE_FETCH_length.
  - by eapply texture_blocks; [| |exact E2].
Qed.

Lemma set_current_marked v : changes marked (modify (fun xe => xe <| current_vb := v |>)).
Proof. intros xe a xe' [= _ <-] W. split; [apply unmarked; try done; by intros []|solve_wf W]. Qed.
Lemma SetStreamSource_marked i v o st : changes marked (Xe_SetStreamSource i v o st).
Proof.
  apply changes_bind; [exact _|apply changes_bind; [exact _|apply changes_get; exact _|intros ?; apply changes_option; exact _]|].
  intros vb. apply changes_bind; [exact _|by destruct (nz _); [apply changes_fault|apply changes_ret; exact _]|intros _].
  apply changes_bind; [exact _|apply set_current_marked|intros _].
  intros xe a xe' E. destruct (Z.lt_ge_cases (95 + i) 0) as [Hi|Hi].
  { apply bind_ok_inv in E as ([] & xe1 & E1 & _). apply store_ok in E1. lia. }
  revert xe a xe' E. apply fetch_store_marked. unfold VERTEX_FETCH. cbn [length]. intros b Hb H1 H2.
  rewrite Z.quot_div_nonneg, Z.rem_mod_nonneg by lia.
  apply marked_true; Z.div_mod_to_equations; lia.
Qed.

(** ** The constants of a shader file *)

Definition constants_only (xe xe' : XenosDevice) : Prop :=
  marked xe xe' /\ (forall p, p <> PAlu -> p <> PInteger -> same_part p xe xe') /\
  fetch_dirty xe' = fetch_dirty xe /\ current_ib xe' = current_ib xe /\ ibs xe' = ibs xe.
#[export] Instance constants_only_preorder : PreOrder constants_only.
Proof.
  split; [intros xe; split_and!; [reflexivity|intros; apply same_part_refl|done..]|].
  intros x y z (A1 & A2 & A3 & A4 & A5) (B1 & B2 & B3 & B4 & B5). split_and!; [by transitivity y| |congruence..].
  intros p Ha Hi. eapply same_part_trans; eauto.
Qed.

Lemma alu_store_only start l count : Z.of_nat (length l) <= count * 4 ->
  changes constants_only (store 2048 alu_constants (start * 4) l ;; Xe_DirtyAluConstant start count).
Proof.
  intros Hl xe a xe' E. split; [by eapply alu_store_marked|].
  apply bind_ok_inv in E as ([] & xe1 & E1 & E2). apply store_ok in E1 as (H0 & H1 & ->).
  apply bind_ok_inv in E2 as ([] & xe2 & E2 & [= _ <-]).
  apply (mark_only alu_dirty) in E2 as [v ->]; [|done|intros v0 x <-; by destruct x].
  split; [|done]. intros [] ? ?; try done; by repeat split.
Qed.
Lemma integer_store_only i l : changes constants_only (store 40 integer_constants i l ;; set_dirty DIRTY_INTEGER).
Proof.
  intros xe a xe' E. split; [by eapply integer_store_marked|].
  apply bind_ok_inv in E as ([] & xe1 & E1 & [= _ <-]). apply store_ok in E1 as (H0 & H1 & ->).
  split; [|done]. intros [] ? ?; try done; by repeat split.
Qed.

Lemma changes_rd16 R `{!PreOrder R} b i : changes R (rd16 b i).
Proof. unfold rd16. repeat case_match; auto using changes_fault, changes_ret. Qed.
Lemma changes_rd32 R `{!PreOrder R} b i : changes R (rd32 b i).
Proof. unfold rd32. repeat case_match; auto using changes_fault, changes_ret. Qed.

(** A step that reads words and goes on with as many as it asked for. *)
Lemma changes_rdwords R `{!PreOrder R} {A} b i n (k : list Z -> XM A) :
  (forall l, Z.of_nat (length l) = n -> changes R (k l)) -> changes R (bind (rdwords b i n) k).
Proof.
  intros H xe a xe' E. apply bind_ok_inv in E as (l & xe1 & E1 & E2). unfold rdwords in E1.
  destruct (Z.eqb_spec (Z.of_nat (length (words_of (slice i (4 * n) b)))) n) as [Hn|]; [|done]. injection E1 as <- <-.
  by eapply H; [|exact E2].
Qed.

Lemma load_float_only b c : changes constants_only (load_float_constants b c).
Proof.
  unfold load_float_constants. apply changes_bind; [exact _|apply changes_rd32; exact _|intros off].
  apply changes_bind; [exact _| |intros ?; apply changes_ret; exact _]. apply changes_while; [exact _|]. intros c'.
  apply changes_bind; [exact _|apply changes_rd16; exact _|intros start].
  apply changes_bind; [exact _|apply changes_rd16; exact _|intros count].
  apply changes_if; [|apply changes_ret; exact _].
  apply changes_bind; [exact _|apply changes_rd32; exact _|intros offset].
  apply changes_rdwords; [exact _|]. intros l Hl. apply changes_assoc.
  apply changes_bind; [exact _| |intros ?; apply changes_ret; exact _]. apply alu_store_only. lia.
Qed.
Lemma load_int_only b c : changes constants_only (load_int_constants b c).
Proof.
  unfold load_int_constants. apply changes_while; [exact _|]. intros c'.
  apply changes_bind; [exact _|apply changes_rd16; exact _|intros start].
  apply changes_bind; [exact _|apply changes_rd16; exact _|intros count].
  apply changes_if; [|apply changes_ret; exact _].
  apply changes_rdwords; [exact _|]. intros l Hl. apply changes_assoc.
  apply changes_bind; [exact _| |intros ?; apply changes_ret; exact _]. apply integer_store_only.
Qed.
Lemma UploadShaderConstants_only s : changes constants_only (Xe_pUploadShaderConstants s).
Proof.
  unfold Xe_pUploadShaderConstants. apply changes_bind; [exact _|apply changes_rd32; exact _|intros off].
  apply changes_when; [exact _|]. apply changes_bind; [exact _|apply load_float_only|intros c].
  apply changes_bind; [exact _|apply load_int_only|intros ?; apply changes_ret; exact _].
Qed.
