(* ===== verification/XeState.v ===== *)
(** * Graphics driver: [Xe_pSetState] brings the chip up to date

    Whatever the program has set since the state was last sent, sending it
    leaves every part of the device's copies in the chip, within a bounded
    number of words. *)
From S2P Require Import Prelude Bits Xe XeGpu XeSync XeFacts XeMarks XeCalls.

Section state.
Context {G : Type} {CP : CommandProcessor G}.

(** [xe] has the parts of [xe0], but for the constants a new shader brings. *)
Definition kept (xe0 xe : XenosDevice) : Prop :=
  (forall p, p <> PAlu -> p <> PInteger -> same_part p xe0 xe) /\
  (Z.testbit (dirty xe0) 5 = false -> forall p, same_part p xe0 xe) /\ current_ib xe = current_ib xe0 /\ ibs xe = ibs xe0 /\
  Z.testbit (dirty xe) 5 = Z.testbit (dirty xe0) 5.

(** In the middle of [Xe_pSetState]: the parts in [done] have been sent. *)
Record synced (done : part -> bool) (xe0 xe : XenosDevice) (g : G) : Prop := {
  sd_wf : wf xe;
  sd_sync : insync done xe g;
  sd_kept : kept xe0 xe;
  sd_alu : done PAlu = true -> alu_dirty xe = 0;
  sd_fetch : done PFetch = true -> fetch_dirty xe = 0 }.

Lemma also_true p done : also p done p = true.
Proof. unfold also. by rewrite bool_decide_eq_true_2. Qed.
Lemma also_other p q done : q <> p -> also p done q = done q.
Proof. intros H. unfold also. by rewrite bool_decide_eq_false_2. Qed.
Lemma dirty_has_bit xe k : 0 <= k < 32 -> dirty_has (1 .<< k) xe = Z.testbit (dirty xe) k.
Proof. apply nz_bit. Qed.

Lemma kept_refl xe : kept xe xe.
Proof. split_and!; auto using same_part_refl. Qed.
Lemma kept_out xe0 xe ws : kept xe0 xe -> kept xe0 (out ws xe).
Proof. intros H. exact H. Qed.

Lemma wf_out ws xe : wf xe -> wf (out ws xe).
Proof. intros [H1 H2 H3 H4 H5 H6 H7 H8 H9 H10 H11 H12 H13]. by split. Qed.
Lemma insync_out done ws xe (g : G) : insync done xe g -> insync done (out ws xe) g.
Proof. intros [H1 H2 H3 H4 H5]. split; [|exact H2|exact H3|exact H4|exact H5]. intros p Ha Hf H. exact (H1 p Ha Hf H). Qed.

(** A part that was not dirty counts as sent. *)
Lemma insync_clean p done xe (g : G) : Z.testbit (dirty xe) (dirty_bit p) = false -> insync done xe g -> insync (also p done) xe g.
Proof.
  intros Hd [H1 H2 H3 H4 H5]. split; [|done..]. intros q Ha Hf [H|H]; [|by apply H1; auto].
  unfold also in H. apply orb_true_iff in H as [H|H]; [|by apply H1; auto].
  apply bool_decide_eq_true_1 in H as ->. apply H1; auto.
Qed.

Lemma step_part p n m done xe0 xe (g : G) : p <> PAlu -> p <> PFetch -> 0 <= n ->
  (forall xe g, wf xe -> sends [] n m xe g (fun _ => sends_part p xe g)) ->
  synced done xe0 xe g -> sends [] n (if_dirty (1 .<< dirty_bit p) m) xe g (fun _ => synced (also p done) xe0).
Proof.
  intros Ha Hf Hn Hm [W S K A F]. unfold if_dirty. apply sends_get. rewrite dirty_has_bit by (destruct p; cbn; lia).
  destruct (Z.testbit (dirty xe) (dirty_bit p)) eqn:E; cbn [when].
  - eapply sends_mono; [by apply Hm|lia|]. intros [] xe' g' ([ws ->] & Hg & Hs).
    split; [by apply wf_out|by apply insync_out, (insync_sent p done xe g g')|exact K|..]; rewrite also_other by done; done.
  - apply sends_ret; [done|]. split; [done|by apply insync_clean|done|..]; rewrite also_other by done; done.
Qed.

(** ** Shaders *)

Lemma im_load_packet a t size n (k : unit -> XM (Z * Z)) xe (g : G) Q : a .& 3 = 0 -> t = 0 \/ t = 1 -> 3 <= n ->
  (forall ws, sends [] (n - 3) (k tt) (out ws xe) (cp_load a t size g) Q) ->
  sends [] n (bind (Xe_pLoadShader a t size) k) xe g Q.
Proof.
  intros Ha Ht Hn H. unfold Xe_pLoadShader. do 3 (repeat apply sends_assoc; apply sends_rput32; [|lia]; cbn [app]).
  apply (sends_packet _ _ _ _ _ (cp_load a t size g)); [intros rest; by apply cp_im_load|].
  rewrite !out_out. eapply sends_mono; [apply H|lia|done].
Qed.

(** The code and the constants of one shader. *)
Lemma load_one p i t xe (g : G) : wf xe -> is_Some (shaders xe !! p) -> 0 <= i < 16 -> t = 0 \/ t = 1 -> p <> 0 ->
  sends [] 3 (s <- shader_at p ;; a <- phys_of s i ;; Xe_pLoadShader a t (shader_phys_size s) ;;
              Xe_pUploadShaderConstants s ;; ret (program_control s, context_misc s)) xe g
    (fun r xe' g' => r = (shader_bits program_control xe p, shader_bits context_misc xe p) /\
       (exists ws, constants_only (out ws xe) xe') /\
       g' = cp_load (code_of xe p i).1 t (code_of xe p i).2 g).
Proof.
  intros W [s Es] Hi Ht Hp. destruct (wf_shaders _ W _ _ Es) as (Hc & Hl & _ & Hal).
  assert (exists a, shader_phys s !! Z.to_nat i = Some a /\ a .& 3 = 0) as (a & Ea & Ha).
  { destruct (lookup_lt_is_Some_2 (shader_phys s) (Z.to_nat i)) as [a Ea]; [lia|].
    exists a. split; [done|]. by apply (Forall_lookup_1 _ _ _ _ Hal Ea). }
  unfold shader_at. apply sends_assoc, sends_get. rewrite Es. cbn [of_option]. apply sends_ret_bind.
  unfold phys_of. rewrite (proj2 (Z.leb_le 0 i)), Ea by lia. cbn [of_option]. apply sends_ret_bind.
  apply im_load_packet; [done..|lia|]. intros ws. destruct (Hc (out ws xe)) as [xe' E].
  pose proof (UploadShaderConstants_only s _ _ _ E) as Hco.
  destruct (proj1 Hco (wf_out _ _ W)) as [M _].
  eapply sends_step; [exact E|apply (mk_rb _ _ M)|apply (mk_wptr _ _ M)|].
  apply sends_ret; [lia|]. unfold shader_bits, code_of. rewrite Es. unfold nz. rewrite (proj2 (Z.eqb_neq p 0) Hp).
  cbn [negb from_option fst snd]. rewrite (nth_lookup_Some _ _ _ _ Ea). split_and!; [done|eauto|done].
Qed.

(** The same for a pointer that may be null. *)
Definition loaded (p i t : Z) (xe : XenosDevice) (g : G) (xe' : XenosDevice) (g' : G) : Prop :=
  (exists ws, constants_only (out ws xe) xe') /\ (forall r, cp_reg g' r = cp_reg g r) /\
  (forall u, u <> t -> cp_program g' u = cp_program g u) /\ (p <> 0 -> cp_program g' t = code_of xe p i).
Lemma load_maybe p i t xe (g : G) : wf xe -> (p <> 0 -> is_Some (shaders xe !! p) /\ 0 <= i < 16) -> t = 0 \/ t = 1 ->
  sends [] 3 (if nz p then
      s <- shader_at p ;; a <- phys_of s i ;; Xe_pLoadShader a t (shader_phys_size s) ;;
      Xe_pUploadShaderConstants s ;; ret (program_control s, context_misc s)
    else ret (0, 0)) xe g
    (fun r xe' g' => r = (shader_bits program_control xe p, shader_bits context_misc xe p) /\ loaded p i t xe g xe' g').
Proof.
  intros W Hp Ht. unfold nz at 1. destruct (Z.eqb_spec p 0) as [->|Hne]; cbn [negb].
  - apply sends_ret; [lia|]. split; [done|]. split_and!; try done. exists []. rewrite out_nil. reflexivity.
  - destruct (Hp Hne) as [Hs Hi]. eapply sends_mono; [by apply load_one|lia|]. intros r xe' g' (-> & Hc & ->).
    split; [done|]. split_and!; [done|intros; apply cp_reg_load| |].
    + intros u Hu. rewrite cp_program_load. by rewrite (proj2 (Z.eqb_neq u t) Hu).
    + intros _. rewrite cp_program_load, Z.eqb_refl. by destruct (code_of xe p i).
Qed.

Lemma insync_frame_dirty p done xe (g g' : G) : p <> PAlu -> p <> PFetch -> wf xe ->
  Z.testbit (dirty xe) (dirty_bit p) = true -> done p = false -> agree p g g' -> insync done xe g -> insync done xe g'.
Proof.
  intros Ha Hf W Hd Hn Hg [H1 H2 H3 H4 H5]. split; [|by eapply alu_frame|by eapply fetch_frame|done..].
  intros q Hqa Hqf H. destruct (decide (q = p)) as [->|]; [destruct H; congruence|]. eapply sent_frame; eauto.
Qed.

(** Between the two shaders: what a load leaves true. *)
Lemma loaded_synced p i t done xe0 xe (g : G) xe' g' :
  Z.testbit (dirty xe) 5 = true ->
  done PShader = false -> done PAlu = false -> done PInteger = false ->
  synced done xe0 xe g -> loaded p i t xe g xe' g' ->
  synced done xe0 xe' g' /\ Z.testbit (dirty xe') 5 = true /\ same_part PShader xe xe'.
Proof.
  intros Hd Hs Ha Hi [W S K A F] ((ws & Hm & Hp & Ef & Ei & Eib) & Hr & _ & _).
  destruct (Hm (wf_out _ _ W)) as [M W']. split.
  - split; [done| |split_and!|congruence|].
    + eapply marks_insync; [exact M|intros q Hq; apply Hp; congruence|].
      apply insync_out. apply (insync_frame_dirty PShader done xe g g'); try done.
    + intros q Hqa Hqi. eapply same_part_trans; [by apply (proj1 K)|]. by apply Hp.
    + intros H. destruct K as (_ & _ & _ & _ & K). congruence.
    + rewrite Ei. apply K.
    + rewrite Eib. apply K.
    + destruct K as (_ & _ & _ & _ & K). rewrite <- K, Hd. by apply (mk_dirty _ _ M).
    + intros H. rewrite Ef. by apply F.
  - split; [by apply (mk_dirty _ _ M)|]. by apply (Hp PShader).
Qed.

Lemma loaded_same p i t xe (g : G) xe' g' : loaded p i t xe g xe' g' -> same_part PShader xe xe'.
Proof. intros ((ws & _ & Hp & _) & _). by apply (Hp PShader). Qed.

Lemma shader_step done xe0 xe (g : G) : done PShader = false -> done PAlu = false -> done PInteger = false ->
  synced done xe0 xe g ->
  sends [] 10 (if_dirty (1 .<< 5) Xe_pUploadShader) xe g (fun _ => synced (also PShader done) xe0).
Proof.
  intros Hs Ha Hi Y. pose proof (sd_wf _ _ _ _ Y) as W.
  unfold if_dirty. apply sends_get. rewrite dirty_has_bit by lia.
  destruct (Z.testbit (dirty xe) 5) eqn:E; cbn [when].
  2: { apply sends_ret; [done|]. destruct Y. split; [done|by apply insync_clean|done|by rewrite also_other..]. }
  unfold Xe_pUploadShader. apply sends_get.
  apply (sends_mono _ (3 + (3 + 4)) _ _ _ _ (fun _ => synced (also PShader done) xe0)); [|lia|done].
  eapply sends_bind; [apply load_maybe; [done|intros H; split; [by apply (wf_ps _ W)|lia]|by right]|lia|].
  intros r1 xe1 g1 [-> L1]. pose proof L1 as (_ & R1 & P1 & Q1).
  destruct (loaded_synced _ _ _ _ xe0 _ _ _ _ E Hs Ha Hi Y L1) as (Y1 & D1 & (E1 & E2 & E3 & E4)).
  rewrite <- E2, <- E3.
  eapply sends_bind; [apply load_maybe; [by destruct Y1|intros H; by apply (wf_vs _ (sd_wf _ _ _ _ Y1))|by left]|lia|].
  intros r2 xe2 g2 [-> L2]. pose proof L2 as (_ & R2 & P2 & Q2).
  destruct (loaded_synced _ _ _ _ xe0 _ _ _ _ D1 Hs Ha Hi Y1 L2) as (Y2 & D2 & (F1 & F2 & F3 & F4)).
  cbn [fst snd]. apply sends_tail.
  packet 4 0x2180 [shader_bits program_control xe (ps xe) .| shader_bits program_control xe1 (vs xe1);
    shader_bits context_misc xe (ps xe) .| shader_bits context_misc xe1 (vs xe1); 0xFFFFFFFF].
  assert (forall f p, shader_bits f xe p = shader_bits f xe2 p) as Hb1 by (intros; unfold shader_bits; by rewrite F4, E4).
  assert (forall f p, shader_bits f xe1 p = shader_bits f xe2 p) as Hb2 by (intros; unfold shader_bits; by rewrite F4).
  rewrite !Hb1, !Hb2. replace (ps xe) with (ps xe2) by congruence. replace (vs xe1) with (vs xe2) by congruence.
  fold (shader_regs xe2). set (g3 := cp_write _ _ g2). apply sends_ret; [lia|]. rewrite !out_out.
  destruct Y2 as [W2 S2 K2 A2 G2]. split; [by apply wf_out| |exact K2|by rewrite also_other..].
  apply insync_out, (insync_sent PShader done xe2 g2 g3); try done.
  - apply agree_part. intros r Hr. apply part_shader. cbn in Hr. lia.
  - split; [apply holds_write|]. unfold g3. rewrite !cp_program_write. unfold code_of. rewrite F1, F2, F3, F4.
    split; intros H; [|by apply Q2]. rewrite P2 by done. rewrite E1, E4. apply Q1. congruence.
Qed.

(** ** Constants *)

Lemma only_agree_alu (g g' : G) : only_blocks 0x4000 16 4 g g' -> agree PAlu g g'.
Proof.
  intros [H1 H2]. split; [|auto]. intros r q Hq Hne. apply H1.
  destruct (decide (0x4000 <= r < 0x4800)) as [Hr|Hr]; [|lia]. rewrite (part_alu r Hr) in Hq. congruence.
Qed.
Lemma only_agree_fetch (g g' : G) : only_blocks 0x4800 3 2 g g' -> agree PFetch g g'.
Proof.
  intros [H1 H2]. split; [|auto]. intros r q Hq Hne. apply H1.
  destruct (decide (0x4800 <= r < 0x48c0)) as [Hr|Hr]; [|lia]. rewrite (part_fetch r Hr) in Hq. congruence.
Qed.
Lemma wf_alu_clean xe : wf xe -> wf (xe <| alu_dirty := 0 |>).
Proof. intros W. destruct W. by split. Qed.
Lemma wf_fetch_clean xe : wf xe -> wf (xe <| fetch_dirty := 0 |>).
Proof. intros W. destruct W. by split. Qed.

Ltac field_law := intros; solve [reflexivity | match goal with x : XenosDevice |- _ => by subst; destruct x end].
Lemma alu_upload xe (g : G) : wf xe ->
  sends [] 2176 Xe_pUploadALUConstants xe g (fun _ => uploaded alu_dirty alu_constants 0x4000 16 4 xe g).
Proof.
  intros W. pose proof (wf_alu _ W) as Hl. pose proof (wf_alu_dirty _ W) as Hw.
  change 2176 with ((4 + 16 * 4) * 32). unfold Xe_pUploadALUConstants.
  apply (upload_dirty_sends alu_dirty alu_constants 0x4000 16 4); [lia|lia|reflexivity|field_law..|done|].
  rewrite Hl. lia.
Qed.
Lemma fetch_upload xe (g : G) : wf xe ->
  sends [] 320 Xe_pUploadFetchConstants xe g (fun _ => uploaded fetch_dirty fetch_constants 0x4800 3 2 xe g).
Proof.
  intros W. pose proof (wf_fetch _ W) as Hl. pose proof (wf_fetch_dirty _ W) as Hw.
  change 320 with ((4 + 3 * 2) * 32). unfold Xe_pUploadFetchConstants.
  apply (upload_dirty_sends fetch_dirty fetch_constants 0x4800 3 2); [lia|lia|reflexivity|field_law..|done|].
  rewrite Hl. lia.
Qed.

Lemma alu_step done xe0 xe (g : G) : synced done xe0 xe g ->
  sends [] 2176 (if_dirty (1 .<< 0) Xe_pUploadALUConstants) xe g (fun _ => synced (also PAlu done) xe0).
Proof.
  intros [W S K A F]. unfold if_dirty. apply sends_get. rewrite dirty_has_bit by lia.
  destruct (Z.testbit (dirty xe) 0) eqn:E; cbn [when].
  2: { apply sends_ret; [done|]. split; [done|by apply (insync_clean PAlu)|done| |by rewrite also_other]. intros _.
       destruct (decide (alu_dirty xe = 0)) as [|Hne]; [done|]. apply (sy_alu_flag _ _ _ S) in Hne. congruence. }
  eapply sends_mono; [by apply alu_upload|lia|].
  intros [] xe' g' ([ws ->] & Ho & Hb). apply only_agree_alu in Ho. destruct S as [S1 S2 S3 S4 S5].
  split; [by apply wf_out, wf_alu_clean| |exact K|done|rewrite also_other by done; exact F].
  apply insync_out. split; [| |by apply (fetch_frame PAlu xe _ g)|done|done].
  - intros q Ha Hf H. apply (sent_frame PAlu q xe g g'); [done..|]. apply S1; [done..|]. rewrite also_other in H by done. exact H.
  - exact (Hb S2).
Qed.

(** A packet of registers of no part. *)
Lemma agree_none p reg vals (g : G) : (forall r, reg <= r < reg + Z.of_nat (length vals) -> part_of r = None) ->
  agree p g (cp_write reg vals g).
Proof. intros H. apply agree_write. intros r q Hr Hq. by rewrite H in Hq. Qed.
Lemma part_none_5000 r : 0x5000 <= r < 0x5003 -> part_of r = None.
Proof. intros. unfold part_of. by rewrite !within_false by lia. Qed.
Lemma synced_none done xe0 xe (g : G) reg vals ws :
  (forall r, reg <= r < reg + Z.of_nat (length vals) -> part_of r = None) ->
  synced done xe0 xe g -> synced done xe0 (out ws xe) (cp_write reg vals g).
Proof.
  intros Hr [W S K A F]. split; [by apply wf_out| |exact K|done|done]. apply insync_out.
  eapply insync_none; [done|intros p; by apply agree_none|intros t; apply cp_program_write|done].
Qed.

Lemma fetch_step done xe0 xe (g : G) : synced done xe0 xe g ->
  sends [] 324 (if_dirty (1 .<< 1) (Xe_pUploadFetchConstants ;; rput32s [0x00025000; 0; 0x00025000; 0])) xe g
    (fun _ => synced (also PFetch done) xe0).
Proof.
  intros [W S K A F]. unfold if_dirty. apply sends_get. rewrite dirty_has_bit by lia.
  destruct (Z.testbit (dirty xe) 1) eqn:E; cbn [when].
  2: { apply sends_ret; [done|]. split; [done|by apply (insync_clean PFetch)|done|by rewrite also_other|]. intros _.
       destruct (decide (fetch_dirty xe = 0)) as [|Hne]; [done|]. apply (sy_fetch_flag _ _ _ S) in Hne. congruence. }
  change 324 with (320 + 4). eapply sends_bind; [by apply fetch_upload|lia|].
  intros [] xe' g' ([ws ->] & Ho & Hb). apply only_agree_fetch in Ho. destruct S as [S1 S2 S3 S4 S5].
  cbn [rput32s]. packet 4 0x5000 [0; 0x00025000; 0]. apply sends_ret; [lia|]. rewrite !out_out.
  apply (synced_none _ _ (xe <| fetch_dirty := 0 |>)); [apply part_none_5000|].
  split; [by apply wf_fetch_clean| |exact K|rewrite also_other by done; exact A|done].
  split; [|by apply (alu_frame PFetch xe _ g)|exact (Hb S3)|done|done].
  intros q Ha Hf H. apply (sent_frame PFetch q xe g g'); [done..|]. apply S1; [done..|]. rewrite also_other in H by done. exact H.
Qed.

(** ** The whole state *)

Definition everything : part -> bool :=
  also PMisc (also PInteger (also PClip (also PFetch (also PAlu (also PShader (also PControl nothing)))))).

(** With the last part sent, nothing is dirty and every part is in the chip. *)
Lemma synced_all xe0 xe (g : G) : synced everything xe0 xe g ->
  let xe' := xe <| dirty := 0 |> in
  wf xe' /\ all_sent xe' g /\ insync nothing xe' g /\ kept xe0 (xe' <| dirty := dirty xe |>).
Proof.
  intros [W S K A F]. specialize (A eq_refl). specialize (F eq_refl). destruct S as [S1 S2 S3 S4 S5].
  assert (all_sent xe g) as Hall.
  { intros []; try (by apply S1; [done|done|left]); [rewrite A in S2; exact S2|rewrite F in S3; exact S3]. }
  split_and!; [by destruct W; split|exact Hall| |exact K].
  split; [|exact S2|exact S3|..]; cbn; [|congruence..]. intros p Ha Hf _. exact (Hall p).
Qed.

(** The words [Xe_pSetState] may need. *)
Definition state_words : Z := 2621.

Lemma setstate_sends xe (g : G) : wf xe -> insync nothing xe g ->
  sends [] state_words Xe_pSetState xe g (fun _ xe' g' =>
    wf xe' /\ all_sent xe' g' /\ insync nothing xe' g' /\ dirty xe' = 0 /\
    exists d, kept xe (xe' <| dirty := d |>)).
Proof.
  intros W S. assert (synced nothing xe xe g) as Y0 by (split; auto using kept_refl; done).
  unfold Xe_pSetState, state_words. change 2621 with (10 + (10 + (2176 + (324 + (28 + (44 + (29 + 0))))))).
  eapply sends_bind; [apply (step_part PControl); [done..|lia|apply control_sends|exact Y0]|lia|]. intros [] x1 g1 Y1.
  eapply sends_bind; [apply (shader_step (also PControl nothing)); [reflexivity..|exact Y1]|lia|]. intros [] x2 g2 Y2.
  eapply sends_bind; [apply alu_step, Y2|lia|]. intros [] x3 g3 Y3.
  eapply sends_bind; [apply fetch_step, Y3|lia|]. intros [] x4 g4 Y4.
  eapply sends_bind; [apply (step_part PClip); [done..|lia|apply clip_sends|exact Y4]|lia|]. intros [] x5 g5 Y5.
  eapply sends_bind; [apply (step_part PInteger); [done..|lia|apply integer_sends|exact Y5]|lia|]. intros [] x6 g6 Y6.
  eapply sends_bind; [apply (step_part PMisc); [done..|lia|apply misc_sends|exact Y6]|lia|]. intros [] x7 g7 Y7.
  apply sends_tail. eapply sends_step; [reflexivity|reflexivity|reflexivity|]. apply sends_ret; [lia|].
  destruct (synced_all _ _ _ Y7) as (W7 & A7 & S7 & K7). split_and!; eauto.
Qed.
End state.
