(* ===== verification/XeDraw.v ===== *)
(** * Graphics driver: drawing, and programs of calls

    A draw is executed by the chip in a state that holds everything the
    program has set.  [xe_call] are the calls a program makes between two
    draws; the copies and the chip stay in step through any of them. *)
From S2P Require Import Prelude Bits Xe XeGpu XeSync XeFacts XeMarks XeCalls XeState.

(** A call of the interface.  Pointers are to objects of the heap. *)
Inductive xe_call :=
  | SetZFunc (f : Z) | SetZWrite (b : Z) | SetZEnable (b : Z) | SetFillMode (front back : Z)
  | SetBlendControl (cs co cd sa oa da : Z)
  | SetSrcBlend (b : Z) | SetDestBlend (b : Z) | SetBlendOp (o : Z)
  | SetSrcBlendAlpha (b : Z) | SetDestBlendAlpha (b : Z) | SetBlendOpAlpha (o : Z)
  | SetCullMode (m : Z) | SetAlphaTestEnable (b : Z) | SetAlphaFunc (f : Z) | SetAlphaRef (f : Z)
  | SetStencilFunc (bfff f : Z) | SetStencilEnable (b : Z) | SetStencilOp (bfff fail zfail pass : Z)
  | SetStencilRef (bfff v : Z) | SetStencilMask (bfff v : Z) | SetStencilWriteMask (bfff v : Z)
  | SetScissor (e l t r b : Z) | SetClipPlaneEnables (e : Z) | SetClipPlane (i : Z) (plane : Z * Z * Z * Z)
  | SetViewport (x y w h znear zfar : Z) | InvalidateState | SetClearColor (c : Z) | SetIndices (ib : Z)
  | SetShader (type sh index : Z) | SetTexture (index tex : Z) | SetStreamSource (index vb offset stride : Z)
  | SetVertexShaderConstantF (start : Z) (data : list Z) (count : Z)
  | SetPixelShaderConstantF (start : Z) (data : list Z) (count : Z)
  | SetVertexShaderConstantB (index value : Z) | SetPixelShaderConstantB (index value : Z)
  | DrawPrimitive (type start count : Z)
  | DrawIndexedPrimitive (type base_index min_index num_vertices start_index count : Z).

Definition do_call (c : xe_call) : XM unit :=
  match c with
  | SetZFunc f => Xe_SetZFunc f
  | SetZWrite b => Xe_SetZWrite b
  | SetZEnable b => Xe_SetZEnable b
  | SetFillMode f b => Xe_SetFillMode f b
  | SetBlendControl cs co cd sa oa da => Xe_SetBlendControl cs co cd sa oa da
  | SetSrcBlend b => Xe_SetSrcBlend b
  | SetDestBlend b => Xe_SetDestBlend b
  | SetBlendOp o => Xe_SetBlendOp o
  | SetSrcBlendAlpha b => Xe_SetSrcBlendAlpha b
  | SetDestBlendAlpha b => Xe_SetDestBlendAlpha b
  | SetBlendOpAlpha o => Xe_SetBlendOpAlpha o
  | SetCullMode m => Xe_SetCullMode m
  | SetAlphaTestEnable b => Xe_SetAlphaTestEnable b
  | SetAlphaFunc f => Xe_SetAlphaFunc f
  | SetAlphaRef f => Xe_SetAlphaRef f
  | SetStencilFunc b f => Xe_SetStencilFunc b f
  | SetStencilEnable b => Xe_SetStencilEnable b
  | SetStencilOp b f z p => Xe_SetStencilOp b f z p
  | SetStencilRef b v => Xe_SetStencilRef b v
  | SetStencilMask b v => Xe_SetStencilMask b v
  | SetStencilWriteMask b v => Xe_SetStencilWriteMask b v
  | SetScissor e l t r b => Xe_SetScissor e l t r b
  | SetClipPlaneEnables e => Xe_SetClipPlaneEnables e
  | SetClipPlane i p => Xe_SetClipPlane i p
  | SetViewport x y w h zn zf => Xe_SetViewport x y w h zn zf
  | InvalidateState => Xe_InvalidateState
  | SetClearColor c => Xe_SetClearColor c
  | SetIndices ib => Xe_SetIndices ib
  | SetShader t sh i => Xe_SetShader t sh i
  | SetTexture i t => Xe_SetTexture i t
  | SetStreamSource i v o st => Xe_SetStreamSource i v o st
  | SetVertexShaderConstantF s d n => Xe_SetVertexShaderConstantF s d n
  | SetPixelShaderConstantF s d n => Xe_SetPixelShaderConstantF s d n
  | SetVertexShaderConstantB i v => Xe_SetVertexShaderConstantB i v
  | SetPixelShaderConstantB i v => Xe_SetPixelShaderConstantB i v
  | DrawPrimitive t s n => Xe_DrawPrimitive t s n
  | DrawIndexedPrimitive t b mi nv s n => Xe_DrawIndexedPrimitive t b mi nv s n
  end.
Fixpoint do_calls (l : list xe_call) : XM unit :=
  match l with
  | [] => ret tt
  | c :: l => do_call c ;; do_calls l
  end.

(** A shader is set as a null pointer or as an object of the heap, textures go
    into the first three places, and a draw has its shaders, a kind of
    primitive the chip knows and an index buffer that is not too long. *)
Definition call_ok (xe : XenosDevice) (c : xe_call) : Prop :=
  match c with
  | SetShader t sh i => sh <> 0 -> is_Some (shaders xe !! sh)
  | SetTexture i t => 0 <= i <= 2
  | DrawPrimitive t s n => ps xe <> 0 /\ vs xe <> 0 /\ is_Some (Xe_pCalcVtxCount t n)
  | DrawIndexedPrimitive t b mi nv s n => ps xe <> 0 /\ vs xe <> 0 /\ is_Some (ibs xe !! current_ib xe) /\
      exists k, Xe_pCalcVtxCount t n = Some k /\ k <= XE_MAX_INDICES_PER_DRAW
  | _ => True
  end.
Fixpoint calls_ok (l : list xe_call) (xe : XenosDevice) : Prop :=
  match l with
  | [] => True
  | c :: l => call_ok xe c /\ forall xe', do_call c xe = Ok tt xe' -> calls_ok l xe'
  end.
Definition is_draw (c : xe_call) : bool :=
  match c with DrawPrimitive _ _ _ | DrawIndexedPrimitive _ _ _ _ _ _ => true | _ => false end.

Lemma setter_marked c xe a xe' : is_draw c = false -> call_ok xe c -> do_call c xe = Ok a xe' -> marked xe xe'.
Proof.
    intros Hd Hok E. destruct c; try discriminate Hd; cbn [do_call call_ok] in *;     [by eapply SetZFunc_marked|by
     eapply SetZWrite_marked|by eapply SetZEnable_marked|by eapply SetFillMode_marked|by eapply
     SetBlendControl_marked|by eapply SetSrcBlend_marked|by eapply SetDestBlend_marked|by eapply SetBlendOp_marked|by
     eapply SetSrcBlendAlpha_marked|by eapply SetDestBlendAlpha_marked|by eapply SetBlendOpAlpha_marked|by eapply
     SetCullMode_marked|by eapply SetAlphaTestEnable_marked|by eapply SetAlphaFunc_marked|by eapply
     SetAlphaRef_marked|by eapply SetStencilFunc_marked|by eapply SetStencilEnable_marked|by eapply
     SetStencilOp_marked|by eapply SetStencilRef_marked|by eapply SetStencilMask_marked|by eapply
     SetStencilWriteMask_marked|by eapply SetScissor_marked|by eapply SetClipPlaneEnables_marked|by eapply
     SetClipPlane_marked|by eapply SetViewport_marked|by eapply InvalidateState_marked|by eapply
     SetClearColor_marked|by eapply SetIndices_marked|by eapply SetShader_marked|by eapply SetTexture_marked|by eapply
     SetStreamSource_marked|by eapply SetVertexShaderConstantF_marked|by eapply SetPixelShaderConstantF_marked|by
     eapply set_bool_marked|by eapply set_bool_marked].
Qed.

Section draw.
Context {G : Type} {CP : CommandProcessor G}.

Definition draw_words : Z := 2644.

(** The chip carries out the draw [args] when it holds the whole state of
    [xe'], its index offset being [start]. *)
Definition drawn (args : list Z) (start : Z) (xe xe' : XenosDevice) (g' : G) : Prop :=
  exists g1, g' = cp_draw args g1 /\ wf xe' /\ all_sent xe' g1 /\ insync nothing xe' g1 /\
    cp_reg g1 0x2102 = u32 start /\ cp_reg g1 0x2007 = 0 /\ exists d, kept xe (xe' <| dirty := d |>).

Lemma part_none_2380 r : 0x2380 <= r < 0x2388 -> part_of r = None.
Proof. intros. unfold part_of. by rewrite !within_false by lia. Qed.
Lemma part_none_2007 r : 0x2007 <= r < 0x2008 -> part_of r = None.
Proof. intros. unfold part_of. by rewrite !within_false by lia. Qed.
Lemma part_none_2102 r : 0x2102 <= r < 0x2103 -> part_of r = None.
Proof. intros. unfold part_of. by rewrite !within_false by lia. Qed.
Lemma insync_write_none done xe (g : G) reg vals : wf xe ->
  (forall r, reg <= r < reg + Z.of_nat (length vals) -> part_of r = None) ->
  insync done xe g -> insync done xe (cp_write reg vals g).
Proof.
  intros W Hr S. eapply insync_none; [done|intros p; by apply agree_none|intros t; apply cp_program_write|done].
Qed.
Lemma all_sent_write_none xe (g : G) reg vals : wf xe ->
  (forall r, reg <= r < reg + Z.of_nat (length vals) -> part_of r = None) ->
  all_sent xe g -> all_sent xe (cp_write reg vals g).
Proof.
  intros W Hr H p. destruct (decide (p = PMisc)) as [->|].
  - apply (sent_frame PControl _ _ g); [done|by apply agree_none|done|apply H].
  - apply (sent_frame PMisc _ _ g); [done|by apply agree_none|done|apply H].
Qed.

(** The part of the two draw calls before the draw packet. *)
Lemma before_draw start n (k : unit -> XM unit) xe (g : G) Q : wf xe -> insync nothing xe g -> ps xe <> 0 -> vs xe <> 0 -> 0 <= n ->
  (forall xe' g1, wf xe' -> all_sent xe' g1 -> insync nothing xe' g1 ->
     cp_reg g1 0x2102 = u32 start -> cp_reg g1 0x2007 = 0 -> (exists d, kept xe (xe' <| dirty := d |>)) ->
     sends [] n (k tt) xe' g1 Q) ->
  sends [] (9 + (state_words + (4 + n)))
    (assert_shaders ;; Xe_pStuff ;; Xe_pSetState ;; rput32 0x00002007 ;; rput32 0 ;; Xe_pSetIndexOffset start ;; k tt) xe g Q.
Proof.
  intros W S Hps Hvs Hn Hk. unfold assert_shaders, state_words. apply sends_assoc, sends_get.
  unfold nz. rewrite (proj2 (Z.eqb_neq _ _) Hps), (proj2 (Z.eqb_neq _ _) Hvs). cbn [negb assert_].
  apply sends_assoc, sends_ret_bind, sends_ret_bind. unfold Xe_pStuff. cbn [rput32s].
  packet 9 0x2380 [0; 0; 0; 0; 0; 0; 0; 0]. apply sends_ret_bind. rewrite !out_out.
  match goal with |- sends _ ?m _ _ _ _ => replace m with (2621 + (4 + n)) by lia end.
  eapply sends_bind; [apply setstate_sends; [by apply wf_out|]|lia|].
  { apply insync_out, insync_write_none; [done|apply part_none_2380|done]. }
  intros [] x1 g1 (W1 & A1 & S1 & _ & [d K1]).
  packet 2 0x2007 [0]. unfold Xe_pSetIndexOffset. packet 2 0x2102 [u32 start]. rewrite !out_out.
  eapply sends_mono; [apply Hk|lia|done].
  - by apply wf_out.
  - apply (all_sent_write_none x1); [done|apply part_none_2102|]. apply (all_sent_write_none x1); [done|apply part_none_2007|done].
  - apply insync_out, insync_write_none; [done|apply part_none_2102|].
    apply insync_write_none; [done|apply part_none_2007|done].
  - apply (holds_write 0x2102 [u32 start] _ 0%nat). done.
  - rewrite reg_frame by (cbn; lia). apply (holds_write 0x2007 [0] _ 0%nat). done.
  - exists d. exact K1.
Qed.

Lemma draw_auto_sends t start cnt n xe (g : G) : wf xe -> insync nothing xe g -> ps xe <> 0 -> vs xe <> 0 ->
  Xe_pCalcVtxCount t cnt = Some n ->
  sends [] draw_words (Xe_DrawPrimitive t start cnt) xe g
    (fun _ xe' g' => drawn [0; u32 (0x80 .| (n .<< 16) .| t)] start xe xe' g').
Proof.
  intros W S Hps Hvs Hc. unfold Xe_DrawPrimitive, draw_words.
  set (Q := fun _ : unit => drawn [0; u32 (0x80 .| (n .<< 16) .| t)] start xe).
  apply (sends_mono _ (9 + (state_words + (4 + 5))) _ _ _ _ Q); [|unfold state_words; lia|done].
  apply (before_draw start 5 (fun _ => _)); [done..|lia|]. unfold Q. clear Q.
  intros xe' g1 W1 A1 S1 R1 R2 [d K1]. cbv beta. rewrite Hc. apply sends_ret_bind, sends_tail. unfold Xe_pDrawNonIndexed.
  do 3 (repeat apply sends_assoc; apply sends_rput32; [|lia]; cbn [app]).
  apply (sends_packet _ _ _ _ _ (cp_draw [0; u32 (0x80 .| (n .<< 16) .| t)] g1)); [intros rest; apply cp_draw_auto|].
  apply sends_ret; [lia|]. rewrite !out_out. exists g1. split_and!; try done; [by apply wf_out|by apply insync_out|].
  exists d. exact K1.
Qed.

(** The arguments of the indexed draw packet. *)
Definition indexed_args (ib : XenosIndexBuffer) (t start_index n : Z) : list Z :=
  [0; u32 (0 .| (0 .<< 6) .| t .| (n .<< 16) .| (ib_fmt ib .<< 11));
   u32 (ib_phys_base ib + (2 .<< ib_fmt ib) * start_index); (n .| 0x40000000) .<< ib_fmt ib].

Lemma draw_indexed_sends t base mi nv start cnt n ib xe (g : G) : wf xe -> insync nothing xe g -> ps xe <> 0 -> vs xe <> 0 ->
  Xe_pCalcVtxCount t cnt = Some n -> n <= XE_MAX_INDICES_PER_DRAW -> ibs xe !! current_ib xe = Some ib ->
  sends [] draw_words (Xe_DrawIndexedPrimitive t base mi nv start cnt) xe g
    (fun _ xe' g' => drawn (indexed_args ib t start n) base xe xe' g').
Proof.
  intros W S Hps Hvs Hc Hn Hib. unfold Xe_DrawIndexedPrimitive, draw_words.
  set (Q := fun _ : unit => drawn (indexed_args ib t start n) base xe).
  apply (sends_mono _ (9 + (state_words + (4 + 7))) _ _ _ _ Q); [|unfold state_words; lia|done].
  apply (before_draw base 7 (fun _ => _)); [done..|lia|]. unfold Q. clear Q.
  intros xe' g1 W1 A1 S1 R1 R2 [d K1]. cbv beta. rewrite Hc. apply sends_ret_bind, sends_get.
  pose proof K1 as (_ & _ & Ei & Eib & _). cbn in Ei, Eib.
  unfold ib_at. apply sends_assoc, sends_get. rewrite Eib, Ei, Hib. cbn [of_option]. apply sends_ret_bind, sends_tail.
  unfold Xe_pDrawIndexedPrimitive. apply sends_assoc. unfold assert_. rewrite (proj2 (Z.leb_le _ _) Hn). apply sends_ret_bind.
  do 5 (repeat apply sends_assoc; apply sends_rput32; [|lia]; cbn [app]).
  apply (sends_packet _ _ _ _ _ (cp_draw (indexed_args ib t start n) g1)); [intros rest; apply cp_draw_indexed|].
  apply sends_ret; [lia|]. rewrite !out_out. exists g1. split_and!; try done; [by apply wf_out|by apply insync_out|].
  exists d. exact K1.
Qed.

Lemma drawn_insync args start xe xe' (g' : G) : drawn args start xe xe' g' -> wf xe' /\ insync nothing xe' g'.
Proof.
  intros (g1 & -> & W & _ & S & _). split; [done|].
  eapply insync_none; [done| |intros; apply cp_program_draw|done]. intros p. split; intros; [apply cp_reg_draw|apply cp_program_draw].
Qed.

(** One call: the words it puts and what the chip makes of them. *)
Lemma call_sends c xe (g : G) xe' : wf xe -> insync nothing xe g -> call_ok xe c -> do_call c xe = Ok tt xe' ->
  sends [] draw_words (do_call c) xe g (fun _ x h => x = xe' /\ wf x /\ insync nothing x h).
Proof.
  intros W S Hok E. destruct (is_draw c) eqn:Hd.
  - assert (sends [] draw_words (do_call c) xe g (fun _ x h => wf x /\ insync nothing x h)) as H.
    { destruct c; try discriminate Hd; cbn [do_call call_ok] in *.
      - destruct Hok as (H1 & H2 & [k Hk]). eapply sends_mono; [by eapply draw_auto_sends|lia|]. intros ? ? ? H'. exact (drawn_insync _ _ _ _ _ H').
      - destruct Hok as (H1 & H2 & [ib Hib] & k & Hk & Hm).
        eapply sends_mono; [by eapply draw_indexed_sends|lia|]. intros ? ? ? H'. exact (drawn_insync _ _ _ _ _ H'). }
    intros H0 H1. destruct (H H0 H1) as (a & ws & x & h & E' & ? & ? & ? & ? & ?). exists a, ws, x, h.
    rewrite E in E'. injection E' as <- <-. by rewrite E.
  - destruct (setter_marked c xe tt xe' Hd Hok E W) as [M W'].
    apply sends_tail. eapply sends_step; [exact E|apply (mk_rb _ _ M)|apply (mk_wptr _ _ M)|].
    apply sends_ret; [done|]. split_and!; [done..|]. by eapply marks_insync.
Qed.

(** Any program of calls keeps the copies and the chip in step. *)
Lemma calls_send l xe (g : G) xe' : wf xe -> insync nothing xe g -> calls_ok l xe -> do_calls l xe = Ok tt xe' ->
  sends [] (draw_words * Z.of_nat (length l)) (do_calls l) xe g (fun _ x h => x = xe' /\ wf x /\ insync nothing x h).
Proof.
  revert xe g. induction l as [|c l IH]; intros xe g W S Hok E; cbn [do_calls calls_ok] in *.
  - injection E as <-. apply sends_ret; [done|done].
  - apply bind_ok_inv in E as ([] & x1 & E1 & E2). destruct Hok as [Hc Hl].
    replace (draw_words * Z.of_nat (length (c :: l))) with (draw_words + draw_words * Z.of_nat (length l)) by (cbn [length]; lia).
    eapply sends_bind; [by apply (call_sends c xe g x1)|unfold draw_words; lia|].
    intros [] x h (-> & W1 & S1). apply IH; auto.
Qed.

(** After everything is marked dirty, the chip may be in any state. *)
Lemma invalidate_insync xe (g : G) xe' : Xe_InvalidateState xe = Ok tt xe' -> insync nothing xe' g.
Proof.
  intros [= <-]. split.
  - intros p _ _ [H|H]; [done|]. exfalso. refine (Bool.eq_true_false_abs _ (lor_keep _ _ _ _) H). apply Z.bits_m1. by destruct p.
  - intros b Hb Hbit. exfalso. change (Z.testbit (Z.ones 32) b = false) in Hbit. by rewrite Z.ones_spec_low in Hbit by lia.
  - intros b Hb Hbit. exfalso. change (Z.testbit (Z.ones 32) b = false) in Hbit. by rewrite Z.ones_spec_low in Hbit by lia.
  - intros _. reflexivity.
  - intros _. reflexivity.
Qed.
End draw.

