(* ===== verification/XeOps.v ===== *)
(** * Graphics driver: surfaces, vertex buffers, shader files, start-up

    The operations of [xenos/xe.c] on the objects of the device, and the
    start of the chip.  What [malloc] and [memalign] give, and what the
    chip's registers read as, are the interface [Platform]. *)
From S2P Require Import Prelude Bits Xe.

(** The [n]-th allocation of a size and alignment (0: no memory), and what a
    register reads as after some writes, at the [n]-th read. *)
Class Platform := {
  pf_memalign : Z -> Z -> Z -> Z;
  pf_malloc : Z -> Z -> Z;
  pf_read : list (Z * Z) -> Z -> Z -> Z }.

Definition VBPOOL_NUM_TRIANGLES : Z := 2000.

(** ** Locks *)

Definition Xe_pLock (lock : XenosLock) (addr phys size flags : Z) : XM XenosLock :=
  let size := (size + 4095) .& not32 4095 in
  if negb (nz flags) then Xe_Fatal
  else if nz (lock_start lock) then Xe_Fatal
  else ret (mkLock addr phys size flags).

Definition Xe_pUnlock (lock : XenosLock) : XM XenosLock :=
  (if negb (nz (lock_start lock)) then Xe_Fatal else ret tt) ;;
  when (nz (lock_flags lock .& XE_LOCK_WRITE)) (Xe_pInvalidateGpuCache (lock_phys lock) (lock_size lock)) ;;
  ret (lock <| lock_start := 0 |>).

Definition no_lock : XenosLock := mkLock 0 0 0 0.

Definition set_vb (p : Z) (v : XenosVertexBuffer) : XM unit := modify (fun xe => xe <| vbs ::= <[p := v]> |>).
Definition set_ib (p : Z) (v : XenosIndexBuffer) : XM unit := modify (fun xe => xe <| ibs ::= <[p := v]> |>).
Definition set_surface (p : Z) (v : XenosSurface) : XM unit := modify (fun xe => xe <| surfaces ::= <[p := v]> |>).
Definition surface_at (p : Z) : XM XenosSurface := xe <- get ;; of_option (surfaces xe !! p).

Definition Xe_VB_Lock (vb offset size flags : Z) : XM Z :=
  v <- vb_at vb ;;
  l <- Xe_pLock (vb_lock v) (vb_base v + offset) (u32 (vb_phys_base v + offset)) size flags ;;
  set_vb vb (v <| vb_lock := l |>) ;; ret (vb_base v + offset).
Definition Xe_VB_Unlock (vb : Z) : XM unit :=
  v <- vb_at vb ;; l <- Xe_pUnlock (vb_lock v) ;; set_vb vb (v <| vb_lock := l |>).
Definition Xe_IB_Lock (ib offset size flags : Z) : XM Z :=
  v <- ib_at ib ;;
  l <- Xe_pLock (ib_lock v) (ib_base v + offset) (u32 (ib_phys_base v + offset)) size flags ;;
  set_ib ib (v <| ib_lock := l |>) ;; ret (ib_base v + offset).
Definition Xe_IB_Unlock (ib : Z) : XM unit :=
  v <- ib_at ib ;; l <- Xe_pUnlock (ib_lock v) ;; set_ib ib (v <| ib_lock := l |>).

(** [w] and [h] of 0 mean the whole surface; a surface whose height is not a
    multiple of its tiles is locked whole. *)
Definition Xe_Surface_LockRect (surface x y w h flags : Z) : XM Z :=
  s <- surface_at surface ;;
  let h := if nz h then h else height s in
  let '(offset, size) :=
    if negb (height s =? hpitch s) then (0, hpitch s * wpitch s) else (y * wpitch s + x * bypp s, h * wpitch s) in
  l <- Xe_pLock (surface_lock s) (surface_base s + offset) (u32 (ptr s + offset)) size flags ;;
  set_surface surface (s <| surface_lock := l |>) ;; ret (surface_base s + offset).
Definition Xe_Surface_Unlock (surface : Z) : XM unit :=
  s <- surface_at surface ;; l <- Xe_pUnlock (surface_lock s) ;; set_surface surface (s <| surface_lock := l |>).

Definition Xe_DestroyVertexBuffer (vb : Z) : XM unit := vb_at vb ;; modify (fun xe => xe <| vbs ::= delete vb |>).
Definition Xe_DestroyIndexBuffer (ib : Z) : XM unit := ib_at ib ;; modify (fun xe => xe <| ibs ::= delete ib |>).
Definition Xe_DestroyTexture (s : Z) : XM unit := surface_at s ;; modify (fun xe => xe <| surfaces ::= delete s |>).

(** ** Render target and resolve *)

Definition Xe_SetRenderTarget (r : Z) : XM unit :=
  modify (fun xe => xe <| rt := r |> <| msaa_samples := 0 |> <| edram_colorformat := 0 |>) ;;
  modify (fun xe =>
    let tile_size_x := if msaa_samples xe <? 2 then 80 else 40 in
    let tile_size_y := if 0 <? msaa_samples xe then 8 else 16 in
    let tile_size_x := if (edram_colorformat xe =? 15) || (edram_colorformat xe =? 7) || (edram_colorformat xe =? 5)
                       then tile_size_x / 2 else tile_size_x in
    let tiles_per_line := Z.quot (vp_xres xe + tile_size_x - 1) tile_size_x in
    let tiles_per_line := Z.land (tiles_per_line + 1) (Z.lnot 1) in
    let tiles_height := Z.quot (vp_yres xe + tile_size_y - 1) tile_size_y in
    xe <| edram_pitch := tiles_per_line * tile_size_x |> <| edram_hizpitch := tiles_per_line * tile_size_x |>
       <| edram_color0base := tiles_per_line * tiles_height |> <| edram_depthbase := 0 |>).

(** The clear colour in the layout of the colour format. *)
Definition clear_words (colorformat color : Z) : Z * Z :=
  if (colorformat =? 0) || (colorformat =? 1) then (color, color)
  else if (colorformat =? 4) || (colorformat =? 5) then
    let a := ((color .& 0xFF000000) .| ((color .& 0x00FF0000) .>> 8)) .>> 1 in
    let b := (((color .& 0x0000FF00) .<< 16) .| ((color .& 0x000000FF) .<< 8)) .>> 1 in
    (a .| ((a .>> 8) .& 0x00FF00FF), b .| ((b .>> 8) .& 0x00FF00FF))
  else (0, 0).
Definition Xe_pSetClearValues : XM unit :=
  xe <- get ;;
  Xe_pWriteReg 0x8c74 (clear_stencil_z xe) ;;
  let '(a, b) := clear_words (edram_colorformat xe) (clear_color xe) in
  Xe_pWriteReg 0x8c78 a ;; Xe_pWriteReg 0x8c7c b.

(** ** Vertex buffers *)

Section platform.
Context {PF : Platform}.

Definition memalign (align size : Z) : XM Z :=
  n <- gets allocs ;; modify (fun xe => xe <| allocs := n + 1 |>) ;; ret (pf_memalign n align size).
Definition malloc (size : Z) : XM Z :=
  n <- gets allocs ;; modify (fun xe => xe <| allocs := n + 1 |>) ;; ret (pf_malloc n size).
(** [memset] of what [malloc] gave, which is not checked. *)
Definition malloc_cleared (size : Z) : XM Z := p <- malloc size ;; (if nz p then ret p else fault).

Definition Xe_pAlloc (size align : Z) : XM (Z * Z) :=
  let align := if nz align then align else size in
  r <- memalign align size ;;
  (if nz r then ret tt else Xe_Fatal) ;;
  ret (r, r .& not32 0x80000000).

Definition Xe_CreateVertexBuffer (size : Z) : XM Z :=
  vb <- malloc_cleared 48 ;;
  a <- Xe_pAlloc size 0x1000 ;;
  set_vb vb (mkVB a.2 0 0 size a.1 ∅ no_lock 0) ;;
  ret vb.

(** The loop over [vb_pool], [prev] being the buffer whose [next] field [vbp]
    points to (0: [vb_pool] itself). *)
Fixpoint pool_scan (n : nat) (prev p size : Z) : XM (option Z) :=
  if nz p then
    match n with
    | O => diverge
    | S n =>
        v <- vb_at p ;;
        if size <=? space v then
          (if nz prev then w <- vb_at prev ;; set_vb prev (w <| next := next v |>)
           else modify (fun xe => xe <| vb_pool := next v |>)) ;;
          v' <- vb_at p ;;
          set_vb p (v' <| next := 0 |> <| vb_size := 0 |> <| vertices := 0 |>) ;;
          ret (Some p)
        else pool_scan n p (next v) size
    end
  else ret None.
Definition Xe_VBPoolAlloc (fuel : nat) (size : Z) : XM Z :=
  p <- gets vb_pool ;;
  r <- pool_scan fuel 0 p size ;;
  match r with Some p => ret p | None => Xe_CreateVertexBuffer size end.

(** The loop to the end of a list, from buffer [p] on, where [v] is hung. *)
Fixpoint append_to (n : nat) (p v : Z) : XM unit :=
  match n with
  | O => diverge
  | S n =>
      b <- vb_at p ;;
      if nz (next b) then append_to n (next b) v else set_vb p (b <| next := v |>)
  end.
Definition Xe_VBPoolAdd (fuel : nat) (vb : Z) : XM unit :=
  h <- gets vb_pool_after_frame ;;
  if nz h then append_to fuel h vb else modify (fun xe => xe <| vb_pool_after_frame := vb |>).
Definition Xe_VBReclaim (fuel : nat) : XM unit :=
  h <- gets vb_pool ;;
  a <- gets vb_pool_after_frame ;;
  (if nz h then append_to fuel h a else modify (fun xe => xe <| vb_pool := a |>)) ;;
  modify (fun xe => xe <| vb_pool_after_frame := 0 |>).

Definition Xe_VBBegin (pitch : Z) : XM unit :=
  xe <- get ;;
  if nz (vb_head xe) || nz (vb_current xe) then Xe_Fatal
  else modify (fun xe => xe <| vb_current_pitch := pitch |>).

(** One turn of the loop of [Xe_VBPut]: the words not yet copied. *)
Definition put_step (fuel : nat) (data : list Z) : XM (option (list Z)) :=
  match data with
  | [] => ret None
  | _ =>
      xe <- get ;;
      let pitch := vb_current_pitch xe in
      remaining <- (if nz (vb_current xe) then
                      v <- vb_at (vb_current xe) ;; ret (Z.quot (space v - vb_size v) 4)
                    else ret 0) ;;
      let remaining := remaining - Z.rem remaining pitch in
      let remaining := if Z.of_nat (length data) <? remaining then Z.of_nat (length data) else remaining in
      if negb (nz remaining) then
        n <- Xe_VBPoolAlloc fuel (VBPOOL_NUM_TRIANGLES * 3 * pitch) ;;
        (if nz (vb_head xe) then
           w <- vb_at (vb_current xe) ;; set_vb (vb_current xe) (w <| next := n |>)
         else modify (fun xe => xe <| vb_head := n |>)) ;;
        modify (fun xe => xe <| vb_current := n |>) ;;
        ret (Some data)
      else
        v <- vb_at (vb_current xe) ;;
        set_vb (vb_current xe)
          (v <| vb_data ::= put_ring (vb_size v / 4) (take (Z.to_nat remaining) data) |>
             <| vb_size ::= fun s => s + remaining * 4 |>
             <| vertices ::= fun n => n + Z.quot remaining pitch |>) ;;
        ret (Some (drop (Z.to_nat remaining) data))
  end.
Definition Xe_VBPut (fuel : nat) (data : list Z) : XM unit :=
  pitch <- gets vb_current_pitch ;;
  (if nz pitch then ret tt else fault) ;;
  (if nz (Z.rem (Z.of_nat (length data)) pitch) then Xe_Fatal else ret tt) ;;
  while (S (2 * length data)) (put_step fuel) data ;;
  ret tt.

(** The buffers are flushed and the list handed over. *)
Fixpoint flush_from (n : nat) (p : Z) : XM unit :=
  if nz p then
    match n with
    | O => diverge
    | S n =>
        v <- vb_at p ;;
        Xe_pInvalidateGpuCache (vb_phys_base v) (space v + 0x1000) ;;
        modify (fun xe => xe <| vb_head := next v |>) ;;
        flush_from n (next v)
    end
  else ret tt.
Definition Xe_VBEnd (fuel : nat) : XM Z :=
  res <- gets vb_head ;;
  flush_from fuel res ;;
  modify (fun xe => xe <| vb_head := 0 |> <| vb_current := 0 |>) ;;
  ret res.

Fixpoint draw_buffers (n : nat) (vb ib : Z) : XM unit :=
  if nz vb then
    match n with
    | O => diverge
    | S n =>
        Xe_SetStreamSource 0 vb 0 0 ;;
        Xe_pSetState ;;
        rput32 0x00002007 ;; rput32 0 ;;
        Xe_pSetIndexOffset 0 ;;
        v <- vb_at vb ;;
        (if nz ib then
           i <- ib_at ib ;; Xe_pDrawIndexedPrimitive 4 (indices i) (ib_phys_base i) (indices i) (ib_fmt i)
         else Xe_pDrawNonIndexed (vertices v) 4) ;;
        modify (fun xe => xe <| tris_drawn ::= fun t => t + Z.quot (vertices v) 3 |>) ;;
        draw_buffers n (next v) ib
    end
  else ret tt.
Definition Xe_Draw (fuel : nat) (vb ib : Z) : XM unit :=
  Xe_pStuff ;;
  v <- vb_at vb ;;
  (if nz (lock_start (vb_lock v)) then Xe_Fatal else ret tt) ;;
  (if nz ib then i <- ib_at ib ;; (if nz (lock_start (ib_lock i)) then Xe_Fatal else ret tt) else ret tt) ;;
  draw_buffers fuel vb ib.

Definition Xe_CreateIndexBuffer (length format : Z) : XM Z :=
  ib <- malloc_cleared 40 ;;
  a <- Xe_pAlloc length 32 ;;
  set_ib ib (mkIB a.2 0 length a.1 format no_lock) ;;
  ret ib.

(** ** Textures *)

Definition bytes_per_pixel (format : Z) : Z :=
  let f := format .& XE_FMT_MASK in
  if f =? XE_FMT_8 then 1 else if f =? XE_FMT_5551 then 2 else if f =? XE_FMT_565 then 2
  else if f =? XE_FMT_8888 then 4 else if f =? XE_FMT_16161616 then 8 else 0.
(** [wpitch] and [hpitch] of a texture. *)
Definition texture_pitch (w bpp : Z) : Z :=
  let walign := 128 / bpp - 1 in Z.land (w * bpp + walign) (Z.lnot walign).
Definition texture_rows (h : Z) : Z := Z.land (h + 31) (Z.lnot 31).

Definition Xe_CreateTexture (w h levels fmt_ tile : Z) : XM Z :=
  surface <- malloc_cleared 76 ;;
  let bpp := bytes_per_pixel fmt_ in
  assert_ (nz bpp) ;;
  let wp := texture_pitch w bpp in
  let hp := texture_rows h in
  a <- Xe_pAlloc (hp * wp) 4096 ;;
  set_surface surface (mkSurface w h wp hp tile fmt_ a.2 0 bpp 1 0 0 a.1 no_lock) ;;
  ret surface.

(** ** Resolve: the embedded memory is copied to a surface *)

Definition resolve_pitch (s : XenosSurface) : option Z :=
  let f := format s .& XE_FMT_MASK in
  if f =? XE_FMT_8888 then Some (Z.quot (wpitch s) 4)
  else if f =? XE_FMT_16161616 then Some (Z.quot (wpitch s) 8) else None.

Definition Xe_ResolveInto (fuel : nat) (s : XenosSurface) (source clear : Z) : XM unit :=
  Xe_pSetSurfaceClip 0 0 0 0 (width s) (height s) ;;
  Xe_VBBegin 2 ;;
  Xe_VBPut fuel [f32_half (-1); f32_half (-1); f32_half (2 * width s - 1); 0;
                 f32_half (2 * width s - 1); f32_half (2 * height s - 1)] ;;
  vb <- Xe_VBEnd fuel ;;
  Xe_VBPoolAdd fuel vb ;;
  Xe_pSetEDRAMLayout ;;
  xe <- get ;;
  rput32s [0x00002104; color_mask xe;
           0x0005210f; 0x44000000; 0x44000000; 0xc3b40000; 0x43b40000; 0x3f800000; 0] ;;
  pitch <- of_option (resolve_pitch s) ;;
  m <- of_option (if 0 <=? msaa_samples xe then [0; 4; 6] !! Z.to_nat (msaa_samples xe) else None) ;;
  rput32s [0x00032318; u32 (0x00100000 .| (m .<< 4) .| (clear .<< 8) .| source);
           ptr s; xy32 pitch (height s);
           u32 (0x01000000 .| ((format s .& XE_FMT_MASK) .<< 7) .| (Z.land (format s) (Z.lnot XE_FMT_MASK) .>> 6))] ;;
  Xe_pSetClearValues ;;
  rput32s [0x00002208; 6; 0x00002208; (if nz (clear .& 1) || nz (surface_base s) then 6 else 5);
           0x00002200; 0x8777; 0x000005c8; 0x00020000;
           0xc0003b00; 0x00000100;
           0xc0102b00; 0; 0x0000000f;
           0x10011002; 0x00001200; 0xc4000000; 0; 0x1003c200; 0x22000000; 0x00080000; 0x00253b48; 0x00000002;
           0xc80f803e; 0; 0xc2000000; 0; 0; 0;
           0x00012180; 0x00010002; 0;
           0x00002203; 0; 0x00022100; 0x0000ffff; 0; 0; 0x00022204; 0x00010000; 0x00010000; 0x00000300;
           0x00002312; 0x0000ffff; 0x0000200d; 0] ;;
  v <- vb_at vb ;;
  rput32s [0x00054800; vb_phys_base v .| 3; 0x1000001a; 0; 0; 0; 0;
           0x00025000; 0; 0; 0;
           0xc0003600; 0x00030088; 0xc0004600; 6; 0x00002007; 0] ;;
  Xe_pInvalidateGpuCacheAll (ptr s) (wpitch s * height s) ;;
  rput32s [0x0000057e; 0x00010001; 0x00002318; 0; 0x0000231b; 0] ;;
  modify (fun xe => xe <| dirty := -1 |>).
Definition Xe_Clear (fuel : nat) (flags : Z) : XM unit :=
  xe <- get ;; s <- surface_at (rt xe) ;; Xe_ResolveInto fuel (s <| surface_base := 0 |>) 0 flags.
Definition Xe_Resolve (fuel : nat) : XM unit :=
  xe <- get ;; s <- surface_at (rt xe) ;; Xe_ResolveInto fuel s 0 3.

(** ** Shader files *)

Definition hdr_magic : Z := 0.
(** Offsets in [struct XenosShaderData]. *)
Definition data_sh_off : Z := 0.
Definition data_sh_size : Z := 4.
Definition data_program_control : Z := 8.
Definition data_context_misc : Z := 12.
Definition data_unk1 : Z := 16.

Definition Xe_LoadShaderFromMemory (m : list Z) : XM Z :=
  magic <- rd32 m hdr_magic ;;
  (if magic .>> 16 =? 0x102a then ret tt else Xe_Fatal) ;;
  s <- malloc_cleared 152 ;;
  d <- rd32 m hdr_off_shader ;;
  pc <- rd32 m (d + data_program_control) ;;
  cm <- rd32 m (d + data_context_misc) ;;
  modify (fun xe => xe <| shaders ::= <[s := mkShader m (replicate 16 0) 0 pc cm (replicate 16 0)]> |>) ;;
  ret s.

Definition Xe_GetShaderLength (m : list Z) : XM Z :=
  d <- rd32 m hdr_off_shader ;;
  a <- rd32 m (d + data_sh_off) ;; b <- rd32 m hdr_offset ;; c <- rd32 m (d + data_sh_size) ;;
  ret (u32 (a + b + c)).

Definition Xe_InstantiateShader (sh index : Z) : XM unit :=
  assert_ ((0 <=? index) && (index <? XE_SHADER_MAX_INSTANCES)) ;;
  s <- shader_at sh ;;
  d <- rd32 (shader s) hdr_off_shader ;;
  o <- rd32 (shader s) (d + data_sh_off) ;; b <- rd32 (shader s) hdr_offset ;;
  size <- rd32 (shader s) (d + data_sh_size) ;;
  a <- Xe_pAlloc size 0x100 ;;
  code <- rdwords (shader s) (o + b) (size / 4) ;;
  modify (fun xe => xe
    <| shader_mem ::= <[a.1 := code]> |>
    <| shaders ::= <[sh := s <| shader_phys_size := size |>
                             <| shader_phys ::= <[Z.to_nat index := a.2]> |>
                             <| shader_instance ::= <[Z.to_nat index := a.1]> |>]> |>).
End platform.

(** ** Vertex formats *)

Definition Xe_VBFCalcSize (e : XenosVBFElement) : option Z :=
  if fmt e =? 6 then Some 4 else if fmt e =? 37 then Some 8 else if fmt e =? 38 then Some 16
  else if fmt e =? 57 then Some 12 else None.
Definition Xe_pVBFNrComponents (e : XenosVBFElement) : option Z :=
  if fmt e =? 6 then Some 4 else if fmt e =? 37 then Some 2 else if fmt e =? 38 then Some 4
  else if fmt e =? 57 then Some 3 else None.
(** A format is the list of its elements. *)
Fixpoint Xe_VBFCalcStride (l : list XenosVBFElement) : option Z :=
  match l with
  | [] => Some 0
  | e :: l => n ← Xe_VBFCalcSize e; r ← Xe_VBFCalcStride l; Some (n + r)
  end.
(** The element of a usage and index, with its offset in bytes. *)
Fixpoint find_element (l : list XenosVBFElement) (type stream offset : Z) : option (XenosVBFElement * Z) :=
  match l with
  | [] => None
  | e :: l =>
      if (usage e =? type) && (element_index e =? stream) then Some (e, offset)
      else n ← Xe_VBFCalcSize e; find_element l type stream (offset + n)
  end.

(** A component the data does not have reads as 0, or 1 for the last. *)
Definition fix_swizzle (nrcomp sw : Z) : Z :=
  if (sw <? 4) && (nrcomp <=? sw) then (if sw =? 3 then 5 else 4) else sw.
Definition patch_swizzle (nrcomp w comp : Z) : Z :=
  let shift := comp * 3 in
  let sw := fix_swizzle nrcomp ((w .>> shift) .& 7) in
  (w .& not32 (7 .<< shift)) .| (sw .<< shift).

(** The three words of a vertex fetch instruction, changed to read an element
    of format [f] at word [offset] of a vertex of [stride] words. *)
Definition patch_vfetch (stride offset f nrcomp : Z) (w : Z * Z * Z) : Z * Z * Z :=
  let '(w0, w1, w2) := w in
  let numformat := if f =? 6 then 0 else 1 in
  let w0 := w0 .& not32 0x38000000 in
  let w1 := w1 .& not32 (0x003f0000 .| 0x1000 .| 0x2000 .| 0x40000000) in
  let w2 := w2 .& not32 (0x7fffff00 .| 0xff) in
  let w2 := w2 .| (offset .<< 8) in
  let w1 := w1 .| (f .<< 16) in
  let w2 := w2 .| stride in
  let w1 := w1 .| (0 .<< 12) .| (numformat .<< 13) in
  let w0 := w0 .| (0 .<< 27) in
  let w1 := w1 .| (0 .<< 30) in
  (w0, foldl (patch_swizzle nrcomp) w1 [0; 1; 2; 3], w2).

(** [num_vfetch] turns of the loop; [c] is the place in the file. *)
Fixpoint apply_patches (n : nat) (b : list Z) (c stride : Z) (l : list XenosVBFElement) (p : Z) : XM unit :=
  match n with
  | O => ret tt
  | S n =>
      v <- rd32 b c ;;
      let type := (v .>> 12) .& 0xF in
      let stream := (v .>> 16) .& 0xF in
      let insn := v .& 0xFFF in
      xe <- get ;;
      code <- of_option (shader_mem xe !! p) ;;
      w <- (match slice (insn * 3) 3 code with [x; y; z] => ret (x, y, z) | _ => fault end) ;;
      e <- of_option (find_element l type stream 0) ;;
      k <- of_option (Xe_pVBFNrComponents e.1) ;;
      let '(x, y, z) := patch_vfetch stride (e.2 / 4) (fmt e.1) k w in
      modify (fun xe => xe <| shader_mem ::= <[p := write_at (Z.to_nat (insn * 3)) [x; y; z] code]> |>) ;;
      apply_patches n b (c + 4) stride l p
  end.
Definition Xe_ShaderApplyVFetchPatches (sh index : Z) (l : list XenosVBFElement) : XM unit :=
  assert_ ((0 <=? index) && (index <? XE_SHADER_MAX_INSTANCES)) ;;
  s <- shader_at sh ;;
  a <- phys_of s index ;;
  assert_ (nz a) ;;
  p <- of_option (shader_instance s !! Z.to_nat index) ;;
  lock <- Xe_pLock no_lock p a (shader_phys_size s) (XE_LOCK_READ .| XE_LOCK_WRITE) ;;
  stride <- of_option (Xe_VBFCalcStride l) ;;
  (if nz (stride .& 3) then Xe_Fatal else ret tt) ;;
  d <- rd32 (shader s) hdr_off_shader ;;
  skip <- rd32 (shader s) (d + data_unk1 + 8) ;;
  num <- rd32 (shader s) (d + data_unk1 + 12) ;;
  apply_patches (Z.to_nat num) (shader s) (d + data_unk1 + 16 + skip * 8) (stride / 4) l p ;;
  Xe_pUnlock lock ;;
  ret tt.
