(* ===== verification/XeInit.v ===== *)
(** * Graphics driver: starting the chip

    [Xe_Init] and what it calls: the chip is reset and its ring set up
    through its registers ([w32], [r32]), its microcode loaded and read back,
    and the first command words written. *)
From S2P Require Import Prelude Bits Xe XeOps.

(** ** Command words *)

Definition Xe_pGInit0 : XM unit :=
  rput32s [0xc0003b00; 0x00000300;
    0xc0192b00; 0x00000000; 0x00000018;
    0x00001003; 0x00001200; 0xc4000000; 0x00001004;
    0x00001200; 0xc2000000; 0x00001005; 0x10061200;
    0x22000000; 0xc8000000; 0x00000000; 0x02000000;
    0xc800c000; 0x00000000; 0xc2000000; 0xc888c03e;
    0x00000000; 0xc2010100; 0xc8000000; 0x00000000;
    0x02000000; 0x00000000; 0x00000000; 0x00000000;
    0xc00a2b00; 0x00000001; 0x00000009;
    0x00000000; 0x1001c400; 0x22000000; 0xc80f8000;
    0x00000000; 0xc2000000; 0x00000000; 0x00000000; 0x00000000;
    0x00012180; 0x1000000e; 0x00000000;
    0x00022100; 0x0000ffff; 0x00000000; 0x00000000;
    0x00022204; 0x00010000; 0x00010000; 0x00000300;
    0x00002312; 0x0000ffff; 0x0000200d; 0x00000000; 0x00002200; 0x00000000;
    0x00002203; 0x00000000; 0x00002208; 0x00000004; 0x00002104; 0x00000000;
    0x00002280; 0x00080008; 0x00002302; 0x00000004] ;;
  Xe_pSetSurfaceClip 0 0 0 0 16 16.
Definition Xe_pGInit1 (arg : Z) : XM unit :=
  rput32s [0x000005c8; 0x00020000;
    0x00078d00; arg .| 1; arg .| 1; arg .| 1; arg .| 1; arg .| 1; arg .| 1; arg .| 1; arg .| 1;
    0x00000d00; arg].
Definition Xe_pGInit2 : XM unit := for_each (seq 0 24) (fun _ => rput32s [0xc0003600; 0x00010081]).
Definition Xe_pGInit3 : XM unit := rput32s [0x000005c8; 0x00020000; 0x00000d04; 0x00000000].
Definition Xe_pGInit4 : XM unit :=
  rput32s [0x00000d02; 0x00010800; 0x00030a02; 0xc0100000; 0x07f00000; 0xc0000000; 0x00100000] ;; Xe_pGInit3.
Definition Xe_pGInit5 : XM unit :=
  rput32s [0x00000d01; 0x04000000; 0xc0022100; 0x00000081; 0xffffffff; 0x80010000;
    0xc0022100; 0x00000082; 0xffffffff; 0x00000000; 0x00000e42; 0x00001f60; 0x00000c85; 0x00000003;
    0x0000057c; 0x0badf00d; 0x0000057b; 0x00000000].
Definition Xe_pGInit6 : XM unit :=
  Xe_pSetSurfaceClip 0 0 0 0 1024 720 ;;
  rput32s [0x0002857e; 0x00010017; 0x00000000; 0x03ff02cf; 0x0002857e; 0x00010017; 0x00000004; 0x03ff02cf].
Definition Xe_pGInit7 : XM unit := rput32s [0x000005c8; 0x00020000; 0x00000f01; 0x0000200e].
Definition Xe_pGInit8 : XM unit := Xe_pSetSurfaceClip 0 0 0 0 1024 720.
Definition Xe_pGInit9 : XM unit :=
  rput32s [0x0000057e; 0x00010019] ;;
  Xe_pGInit0 ;;
  for_each (seq 0x10 0x61) (fun i => Xe_pGInit1 (0 .| (Z.of_nat i .<< 12) .| ((0x80 - Z.of_nat i) .<< 4))) ;;
  Xe_pGInit2 ;;
  rput32s [0x0000057e; 0x0001001a] ;;
  Xe_pGInit8.
Definition Xe_pGInit10 : XM unit :=
  Xe_pSetSurfaceClip 0 0 0 0 1024 720 ;;
  rput32s [0x0000057e; 0x00010019; 0xc0003b00; 0x00000300] ;;
  Xe_pGInit7 ;;
  Xe_pGInit9.
Definition Xe_pGInit : XM unit :=
  rput32s [0xc0114800; 0x000003ff; 0x00000000; 0x00000000; 0x00000000;
    0x00000080; 0x00000100; 0x00000180; 0x00000200;
    0x00000280; 0x00000300; 0x00000380; 0x00010800;
    0x00000007; 0x00000000; 0x00000000; 0x00000000; 0x00000000; 0x00000000] ;;
  Xe_pGInit4 ;;
  Xe_pGInit5 ;;
  Xe_pGInit6 ;;
  Xe_pGInit10.

(** ** Registers *)

Section platform.
Context {PF : Platform}.

Definition r32 (o : Z) : XM Z := fun xe =>
  Ok (pf_read (reg_writes xe) (reg_reads xe) o) (xe <| reg_reads ::= fun n => n + 1 |>).

Definition Xe_pResetRingbuffer : XM unit :=
  v <- r32 0x0704 ;; w32 0x0704 (v .| 0x80000000) ;;
  w32 0x017c 0 ;; w32 0x0714 0 ;;
  v <- r32 0x0704 ;; w32 0x0704 (v .& not32 0x80000000).
Definition Xe_pSetupRingbuffer (buffer_base size_in_l2qw : Z) : XM unit :=
  Xe_pResetRingbuffer ;;
  w32 0x0704 (size_in_l2qw .| 0x8020000) ;; w32 0x0700 buffer_base ;; w32 0x0718 0x10.

(** The words of [ucode1] are read back; the first that differs is fatal. *)
Fixpoint verify_ucode (l : list Z) : XM bool :=
  match l with
  | [] => ret true
  | w :: l => v <- r32 0x07e8 ;; if v =? w then verify_ucode l else r32 0x07e8 ;; ret false
  end.
(** The 0x120 words of [ucode0] and the 0x900 of [ucode1]. *)
Definition Xe_pLoadUcodes (ucode0 ucode1 : list Z) : XM unit :=
  w32 0x117c 0 ;;
  for_each ucode0 (w32 0x1180) ;;
  w32 0x117c 0 ;;
  for_each ucode0 (fun _ => r32 0x1180 ;; ret tt) ;;
  w32 0x07e0 0 ;;
  for_each ucode1 (w32 0x07e8) ;;
  w32 0x07e4 0 ;;
  ok <- verify_ucode ucode1 ;;
  if ok : bool then ret tt else Xe_Fatal.

(** Up to [n] turns of [step], until one returns [true]. *)
Fixpoint turns (n : positive) (step : XM bool) : XM bool :=
  match n with
  | xH => step
  | xO n => r <- turns n step ;; if r : bool then ret true else turns n step
  | xI n => r <- step ;; if r : bool then ret true
            else r <- turns n step ;; if r : bool then ret true else turns n step
  end.
(** [int timeout = 1<<24; while (busy) if (!timeout--) fatal]: the last of
    2^24 + 1 looks must find the chip ready. *)
Definition Xe_pWaitReady : XM unit :=
  r <- turns (2 ^ 24 + 1) (v <- r32 0x1740 ;; ret (negb (nz (v .& 0x80000000)))) ;;
  if r : bool then ret tt else Xe_Fatal.
(** Loops without a limit run as long as [fuel] lasts. *)
Definition Xe_pWaitReady2 (fuel : nat) : XM unit :=
  while fuel (fun _ => v <- r32 0x1740 ;; ret (if nz (v .& 0x00040000) then None else Some tt)) tt ;; ret tt.

Definition Xe_pInit1 : XM unit :=
  w32 0x01a8 0 ;; w32 0x0e6c 0xC0F0000 ;; w32 0x3400 0x40401 ;; w32 0x3400 0x40400 ;;
  w32 0x3300 0x3A22 ;; w32 0x340c 0x1003F1F ;; w32 0x00f4 0x1E.
Definition Xe_pReset (fuel : nat) : XM unit :=
  Xe_pWaitReady2 fuel ;;
  Xe_pWaitReady ;;
  do_while fuel (fun _ =>
    w32 0x00f0 0x8064 ;; r32 0x00f0 ;; w32 0x00f0 0 ;; w32 0x00f0 0x11800 ;; r32 0x00f0 ;; w32 0x00f0 0 ;;
    v <- r32 0x1740 ;; ret (tt, nz (v .& 0x80000000))) tt ;;
  v <- r32 0x00e0 ;;
  (if v =? 0x10 then ret tt else r32 0xe0 ;; Xe_Fatal) ;;
  Xe_pInit1.

Definition Xe_pResetCP (buffer_base size_in_l2qw : Z) : XM unit :=
  w32 0x07d8 0x1000FFFF ;; w32 0x00f0 1 ;; r32 0x00f0 ;; w32 0x00f0 0 ;;
  Xe_pSetupRingbuffer buffer_base size_in_l2qw ;;
  Xe_pWaitReady ;;
  v <- r32 0x07d8 ;; (if nz (v .& 0x10000000) then ret tt else Xe_Fatal) ;;
  w32 0x07d8 0xFFFF ;; w32 0x3214 7 ;; w32 0x3294 1 ;; w32 0x3408 0x800 ;;
  Xe_pWaitReady ;;
  v <- r32 0x0714 ;; (if nz v then Xe_Fatal else ret tt) ;;
  v <- r32 0x0710 ;; (if nz v then Xe_Fatal else ret tt) ;;
  w32 0x07ec 0x1A.
Definition Xe_pSetup (buffer_base buffer_size : Z) (ucode0 ucode1 : list Z) : XM unit :=
  Xe_pWaitReady ;;
  w32 0x07d8 0x1000FFFF ;;
  Xe_pSetupRingbuffer buffer_base buffer_size ;;
  Xe_pLoadUcodes ucode0 ucode1 ;;
  Xe_pWaitReady ;;
  w32 0x07d8 0xFFFF ;; w32 0x07d0 0xFFFF ;; w32 0x07f0 0 ;; w32 0x0774 0 ;; w32 0x0770 0 ;;
  w32 0x3214 7 ;; w32 0x3294 1 ;; w32 0x3408 0x800 ;;
  Xe_pResetCP buffer_base buffer_size ;;
  Xe_pWaitReady.

Definition wait_3c4c (fuel : nat) : XM unit :=
  while fuel (fun _ => v <- r32 0x3c4c ;; ret (if nz (v .& 0x80000000) then Some tt else None)) tt ;; ret tt.
Definition Xe_pMasterInit (fuel : nat) (buffer_base : Z) (ucode0 ucode1 : list Z) : XM unit :=
  r32 0x0e6c ;;
  Xe_pSetup buffer_base 0xC ucode0 ucode1 ;;
  w32 0x07d4 0 ;; w32 0x07d4 1 ;; w32 0x2054 0x1E ;; w32 0x2154 0x1E ;; w32 0x3c10 0xD ;;
  w32 0x3c40 0x17 ;; w32 0x3c48 0 ;; wait_3c4c fuel ;;
  w32 0x3c40 0x1017 ;; w32 0x3c48 0 ;; wait_3c4c fuel ;;
  w32 0x87e4 0x17.
Definition Xe_pEnableWriteback (addr blocksize : Z) : XM unit :=
  v <- r32 0x0704 ;;
  let v := v .& not32 0x8003F00 in
  w32 0x0704 v ;; w32 0x070c (addr .| 2) ;; w32 0x0704 (v .| (blocksize .<< 8)).

Definition Xe_pRBAlloc : XM Z :=
  a <- Xe_pAlloc (RINGBUFFER_PRIMARY_SIZE * 4) 0 ;;
  b <- Xe_pAlloc (RINGBUFFER_SECONDARY_SIZE * 4) 0x100 ;;
  modify (fun xe => xe <| rb_secondary_base := b.2 |>) ;;
  ret a.2.

(** [memset(xe, 0, sizeof( *xe))], the objects in memory being as they are. *)
Definition zero_device (xe : XenosDevice) : XenosDevice :=
  mkXe (replicate (Z.to_nat 2048) 0) (replicate 192 0) 0 0 (replicate 24 0) (replicate 40 0) (replicate 9 0) [0; 0] 0
    0 0 0 0 0 (rb_primary xe) (rb_secondary xe) 0 0 0 0 0 0 0 0 0 0 0 0 0 0 0 0 0 0 0 0 0 0 0 0 0 0 0 0 [0; 0; 0; 0] 0
    (shaders xe) (vbs xe) (ibs xe) (surfaces xe) (reg_writes xe) (reg_reads xe) (allocs xe) (shader_mem xe).

Definition WRITEBACK_ZONE_SIZE : Z := 0x20000.
Definition RPTR_WRITEBACK : Z := 0x10000.
Definition SCRATCH_WRITEBACK : Z := 0x10100.

(** The place of [tex_fb] among the surfaces; [default_fb] is its first value. *)
Definition TEX_FB : Z := -1.

Definition Xe_Init (fuel : nat) (ucode0 ucode1 : list Z) : XM unit :=
  modify zero_device ;;
  p <- r32 0x6110 ;; q <- r32 0x6120 ;; w <- r32 0x6134 ;; h <- r32 0x6138 ;;
  set_surface TEX_FB (mkSurface w h (q * 4) 0 1 (0 .| XE_FMT_8888) p 0 4 0 0 0 p no_lock) ;;
  rb <- Xe_pAlloc WRITEBACK_ZONE_SIZE WRITEBACK_ZONE_SIZE ;;
  primary <- Xe_pRBAlloc ;;
  Xe_pMasterInit fuel primary ucode0 ucode1 ;;
  Xe_pEnableWriteback (u32 (rb.2 + RPTR_WRITEBACK)) 6 ;;
  Xe_pWriteReg 0x0774 (u32 (rb.2 + SCRATCH_WRITEBACK)) ;;
  Xe_pWriteReg 0x0770 0x20033 ;;
  Xe_pWriteReg 0x15e0 0x1234567 ;;
  Xe_pGInit ;;
  Xe_pInvalidateGpuCache 0 0x20000000 ;;
  modify (fun xe => xe <| clear_color := 0 |> <| clear_stencil_z := 0xffffff00 |>
    <| vp_znear := 0x3f800000 |> <| vp_zfar := 0 |> <| vp_xres := w |> <| vp_yres := h |>
    <| vp_xoffset := 0 |> <| vp_yoffset := 0 |> <| color_mask := 0xf |>).

Definition Xe_GetFramebufferSurface : Z := TEX_FB.
Definition Xe_SetFrameBufferSurface (fb : Z) : XM unit :=
  s <- surface_at fb ;;
  (if nz (tiled s) then ret tt else Xe_Fatal) ;;
  (if bypp s =? 4 then ret tt else Xe_Fatal) ;;
  w32 0x6110 (ptr s) ;; w32 0x6120 (Z.quot (wpitch s) 4) ;; w32 0x6134 (width s) ;; w32 0x6138 (height s) ;;
  p <- r32 0x6110 ;; q <- r32 0x6120 ;; w <- r32 0x6134 ;; h <- r32 0x6138 ;;
  t <- surface_at TEX_FB ;;
  set_surface TEX_FB (t <| ptr := p |> <| wpitch := q * 4 |> <| width := w |> <| height := h |> <| bypp := 4 |>
                        <| surface_base := p |>).
Definition Xe_IsVBlank : XM Z := v <- r32 0x6534 ;; ret (v .& 0x1000).

(** *** Waiting for the chip *)

(** A look at the word the chip writes back, [scratch] giving it at each. *)
Definition look (scratch : Z -> Z) (frame : Z) : XM bool := fun xe =>
  Ok (scratch (reg_reads xe) =? frame) (xe <| reg_reads ::= fun n => n + 1 |>).
Definition Xe_pDebugSync (scratch : Z -> Z) : XM unit :=
  f <- gets frameidx ;;
  Xe_pWriteReg 0x15e0 (u32 f) ;;
  Xe_Execute ;;
  r <- turns (2 ^ 24) (look scratch (u32 f)) ;;
  (if r : bool then ret tt else Xe_Fatal) ;;
  modify (fun xe => xe <| frameidx ::= fun n => n + 1 |>).
Definition Xe_Sync (scratch : Z -> Z) (fuel : nat) : XM unit := Xe_pDebugSync scratch ;; Xe_VBReclaim fuel.
End platform.
