(* ===== verification/XeRing.v ===== *)
(** * Graphics driver: handing the command words to the chip

    The primary ring, written cyclically, and [Xe_pRBKick], which tells the
    chip where the words put since the last kick are.  Start-up: its command
    words are whole packets and it leaves a well-formed device. *)
From S2P Require Import Prelude Bits Xe XeGpu XeSync XeFacts XeMarks XeCalls XeState XeDraw XeOps XeInit.

(** ** The primary ring *)

Definition psucc (w : Z) : Z := if w + 1 =? RINGBUFFER_PRIMARY_SIZE then 0 else w + 1.
Fixpoint pput (w : Z) (ws : list Z) (m : gmap Z Z) : gmap Z Z :=
  match ws with
  | [] => m
  | x :: ws => pput (psucc w) ws (<[w := x]> m)
  end.
(** [n] words of the ring, from [w] on. *)
Definition pget (m : gmap Z Z) (w : Z) (n : nat) : list Z :=
  (fun i => default 0 (m !! ((w + Z.of_nat i) mod RINGBUFFER_PRIMARY_SIZE))) <$> seq 0 n.

Lemma psucc_mod w : 0 <= w < RINGBUFFER_PRIMARY_SIZE -> psucc w = (w + 1) mod RINGBUFFER_PRIMARY_SIZE.
Proof.
  unfold psucc, RINGBUFFER_PRIMARY_SIZE. intros H. destruct (Z.eqb_spec (w + 1) 0x2000) as [->|]; [done|].
  rewrite Z.mod_small; lia.
Qed.
Lemma psucc_range w : 0 <= w < RINGBUFFER_PRIMARY_SIZE -> 0 <= psucc w < RINGBUFFER_PRIMARY_SIZE.
Proof. intros H. rewrite psucc_mod by done. by apply Z.mod_pos_bound. Qed.

Lemma pput_out ws w m i : 0 <= w < RINGBUFFER_PRIMARY_SIZE -> 
  (forall k, (k < length ws)%nat -> (w + Z.of_nat k) mod RINGBUFFER_PRIMARY_SIZE <> i) -> pput w ws m !! i = m !! i.
Proof.
  revert w m. induction ws as [|x ws IH]; intros w m Hw H; [done|]. cbn [pput]. rewrite IH; [|by apply psucc_range|].
  - apply lookup_insert_ne. specialize (H 0%nat ltac:(cbn; lia)). rewrite Z.add_0_r, Z.mod_small in H by done. done.
  - intros k Hk. specialize (H (S k) ltac:(cbn; lia)). rewrite psucc_mod, Zplus_mod_idemp_l by done.
    replace (w + 1 + Z.of_nat k) with (w + Z.of_nat (S k)) by lia. done.
Qed.
Lemma pput_in ws w m i : 0 <= w < RINGBUFFER_PRIMARY_SIZE -> Z.of_nat (length ws) <= RINGBUFFER_PRIMARY_SIZE ->
  (i < length ws)%nat -> pput w ws m !! ((w + Z.of_nat i) mod RINGBUFFER_PRIMARY_SIZE) = ws !! i.
Proof.
  revert w m i. induction ws as [|x ws IH]; intros w m i Hw Hl Hi; [cbn in Hi; lia|]. cbn [pput length] in *.
  destruct i as [|i].
  - rewrite Z.add_0_r, Z.mod_small by done. rewrite pput_out; [by rewrite lookup_insert_eq|by apply psucc_range|].
    intros k Hk He. rewrite psucc_mod, Zplus_mod_idemp_l in He by done.
    unfold RINGBUFFER_PRIMARY_SIZE in *. Z.div_mod_to_equations. lia.
  - change ((x :: ws) !! S i) with (ws !! i). rewrite <- (IH (psucc w) (<[w:=x]> m) i) by (by apply psucc_range || lia). f_equal.
    rewrite psucc_mod, Zplus_mod_idemp_l by done. f_equal. lia.
Qed.
Lemma pget_pput ws w m : 0 <= w < RINGBUFFER_PRIMARY_SIZE -> Z.of_nat (length ws) <= RINGBUFFER_PRIMARY_SIZE ->
  pget (pput w ws m) w (length ws) = ws.
Proof.
  intros Hw Hl. apply list_eq. intros i. unfold pget. rewrite list_lookup_fmap. destruct (decide (i < length ws)%nat) as [Hi|Hi].
  - rewrite lookup_seq_lt by done. cbn. rewrite pput_in by done. destruct (lookup_lt_is_Some_2 ws i Hi) as [x E]. by rewrite E.
  - rewrite lookup_seq_ge by lia. cbn. symmetry. apply lookup_ge_None. lia.
Qed.

(** The device after words were put into the primary ring. *)
Definition pout (ws : list Z) (xe : XenosDevice) : XenosDevice :=
  xe <| rb_primary ::= pput (rb_primary_wptr xe) ws |>
     <| rb_primary_wptr := Nat.iter (length ws) psucc (rb_primary_wptr xe) |>.
Lemma rput32p_pout d xe : rput32p d xe = Ok tt (pout [d] xe).
Proof. done. Qed.
Lemma pout_nil xe : pout [] xe = xe.
Proof. by destruct xe. Qed.
Lemma iter_succ n w : Nat.iter n psucc (psucc w) = psucc (Nat.iter n psucc w).
Proof. induction n as [|n IH]; [done|]. by rewrite !Nat.iter_succ, IH. Qed.
Lemma pput_app ws vs w m : pput w (ws ++ vs) m = pput (Nat.iter (length ws) psucc w) vs (pput w ws m).
Proof. revert w m. induction ws as [|x ws IH]; intros w m; [done|]. cbn [app pput length]. by rewrite IH, iter_succ, Nat.iter_succ. Qed.
Lemma iter_iter n k w : Nat.iter n psucc (Nat.iter k psucc w) = Nat.iter (k + n) psucc w.
Proof. by rewrite Nat.add_comm, Nat.iter_add. Qed.
Lemma pout_pout ws vs xe : pout vs (pout ws xe) = pout (ws ++ vs) xe.
Proof. unfold pout. cbn. by rewrite pput_app, length_app, iter_iter. Qed.
Lemma iter_mod n w : 0 <= w < RINGBUFFER_PRIMARY_SIZE ->
  Nat.iter n psucc w = (w + Z.of_nat n) mod RINGBUFFER_PRIMARY_SIZE.
Proof.
  intros Hw. induction n as [|n IH]; [cbn; rewrite Z.add_0_r, Z.mod_small; done|].
  rewrite Nat.iter_succ, IH, psucc_mod by (by apply Z.mod_pos_bound). rewrite Zplus_mod_idemp_l. f_equal. lia.
Qed.

(** ** Kick *)

Definition kick_words (base len : Z) : list Z :=
  [0x00000a31; 0x01000000; 0x00010a2f; (len * 4 + 0x1000 + 0x1FFF) .& not32 0x1FFF; base;
   0xc0043c00; 0x00000003; 0x00000a31; 0; 0x80000000; 8; 0xc0013f00; base; len] ++ replicate 32 0x80000000.

Lemma pbind ws d {B} (k : unit -> XM B) xe : bind (rput32p d) k (pout ws xe) = k tt (pout (ws ++ [d]) xe).
Proof. unfold bind. by rewrite rput32p_pout, pout_pout. Qed.

(** Where the secondary buffer goes on: a multiple of 32 words, or its start. *)
Definition next_wptr (w : Z) : Z :=
  let w := w + (- w) .& 0x1F in
  if RINGBUFFER_SECONDARY_SIZE - RINGBUFFER_SECONDARY_GUARD <? w then 0 else w.

Lemma nops_words a n ws xe : for_each (seq a n) (fun _ => rput32p 0x80000000) (pout ws xe) =
  Ok tt (pout (ws ++ replicate n 0x80000000) xe).
Proof.
  revert a ws. induction n as [|n IH]; intros a ws; cbn [seq for_each replicate]; [by rewrite app_nil_r|].
  rewrite pbind, IH, <- app_assoc. done.
Qed.
Lemma commit_words ws xe : Xe_pRBCommitPrimary (pout ws xe) =
  Ok tt (pout (ws ++ replicate 32 0x80000000) xe
    <| reg_writes ::= cons (0x0714, Nat.iter (length ws + 32) psucc (rb_primary_wptr xe)) |>).
Proof.
  unfold Xe_pRBCommitPrimary. rewrite (bind_ok _ _ _ _ _ (nops_words 0 0x20 ws xe)).
  unfold bind, gets, w32, modify. cbn [pout set rb_primary_wptr]. by rewrite length_app, length_replicate.
Qed.

Lemma segment_words base len xe : Xe_pRBKickSegment base len xe =
  Ok tt (pout (take 14 (kick_words (u32 (rb_secondary_base xe + base * 4)) len)) xe).
Proof.
  unfold Xe_pRBKickSegment. unfold bind at 1. cbn [gets]. generalize (u32 (rb_secondary_base xe + base * 4)) as b. intros b.
  rewrite <- (pout_nil xe) at 1. unfold Xe_pInvalidateGpuCache_Primary. rewrite !bind_assoc, !pbind.
  repeat (rewrite bind_assoc, pbind). rewrite !pbind.
  done.
Qed.

(** The pointer rounded up to 32 words. *)
Definition rounded (w : Z) : Z := w + (- w) .& 0x1F.
Lemma rounded_spec w : w <= rounded w < w + 32 /\ rounded w mod 32 = 0.
Proof.
  unfold rounded. change 0x1F with (Z.ones 5). rewrite Z.land_ones by lia. change (2 ^ 5) with 32.
  pose proof (Z.mod_pos_bound (- w) 32 ltac:(lia)). split; [lia|]. Z.div_mod_to_equations. lia.
Qed.
Lemma next_wptr_guard w : 0 <= w -> rounded w < RINGBUFFER_SECONDARY_SIZE ->
  0 <= next_wptr w /\ next_wptr w + RINGBUFFER_SECONDARY_GUARD <= RINGBUFFER_SECONDARY_SIZE /\ next_wptr w mod 32 = 0.
Proof.
  intros H0 H1. destruct (rounded_spec w) as [H2 H3]. unfold next_wptr. fold (rounded w).
  unfold RINGBUFFER_SECONDARY_SIZE, RINGBUFFER_SECONDARY_GUARD in *.
  destruct (Z.ltb_spec (0x100000 - 0x80000) (rounded w)); [done|lia].
Qed.

Lemma kick_puts K xe : rounded (rb_secondary_wptr xe) < RINGBUFFER_SECONDARY_SIZE ->
  Xe_pRBKickSegment (last_wptr xe) (rb_secondary_wptr xe - last_wptr xe) xe = Ok tt (pout (take 14 K) xe) ->
  take 14 K ++ replicate 32 0x80000000 = K -> (length (take 14 K) + 32 = length K)%nat ->
  Xe_pRBKick xe = Ok tt (
    let w := next_wptr (rb_secondary_wptr xe) in
    let xe1 := pout K (xe <| rb_secondary_wptr := w |> <| last_wptr := w |>) in
    xe1 <| reg_writes ::= cons (0x0714, rb_primary_wptr xe1) |>).
Proof.
  intros H Hs EK EL. unfold Xe_pRBKick. unfold bind at 1. cbn [get]. rewrite (bind_ok _ _ _ _ _ Hs).
  unfold bind at 1 2. cbn [modify gets].
  change (rb_secondary_wptr (_ <| rb_secondary_wptr ::= _ |>)) with (rounded (rb_secondary_wptr xe)).
  rewrite (proj2 (Z.leb_gt _ _) H). unfold bind at 1. cbn [ret]. unfold next_wptr. fold (rounded (rb_secondary_wptr xe)).
  assert (forall x, Xe_pRBCommitPrimary (pout (take 14 K) x) = Ok tt (pout K x
    <| reg_writes ::= cons (0x0714, rb_primary_wptr (pout K x)) |>)) as Hc.
  { intros x. rewrite commit_words, EK, EL. done. }
  destruct (_ <? rounded _); cbn [when]; unfold bind; cbn [modify ret]; (etransitivity; [|apply Hc]); f_equal.
Qed.
Lemma kick_ok xe : rounded (rb_secondary_wptr xe) < RINGBUFFER_SECONDARY_SIZE ->
  Xe_pRBKick xe = Ok tt (
    let w := next_wptr (rb_secondary_wptr xe) in
    let xe1 := pout (kick_words (u32 (rb_secondary_base xe + last_wptr xe * 4)) (rb_secondary_wptr xe - last_wptr xe))
                    (xe <| rb_secondary_wptr := w |> <| last_wptr := w |>) in
    xe1 <| reg_writes ::= cons (0x0714, rb_primary_wptr xe1) |>).
Proof. intros H. apply kick_puts; [done|apply segment_words|reflexivity|reflexivity]. Qed.

Lemma kick_state K xe : 0 <= rb_primary_wptr xe < RINGBUFFER_PRIMARY_SIZE -> length K = 46%nat ->
  let w := next_wptr (rb_secondary_wptr xe) in
  let xe1 := pout K (xe <| rb_secondary_wptr := w |> <| last_wptr := w |>) in
  let xe' := xe1 <| reg_writes ::= cons (0x0714, rb_primary_wptr xe1) |> in
  pget (rb_primary xe') (rb_primary_wptr xe) 46 = K /\
  rb_primary_wptr xe' = (rb_primary_wptr xe + 46) mod RINGBUFFER_PRIMARY_SIZE /\
  reg_writes xe' = (0x0714, rb_primary_wptr xe') :: reg_writes xe /\
  rb_secondary xe' = rb_secondary xe /\ last_wptr xe' = w /\ rb_secondary_wptr xe' = w.
Proof.
  intros H HK w xe1 xe'. split; [|split; [|done]].
  - rewrite <- HK. apply (pget_pput K (rb_primary_wptr xe) (rb_primary xe)); [done|]. by rewrite HK.
  - change (Nat.iter (length K) psucc (rb_primary_wptr xe) = (rb_primary_wptr xe + 46) mod RINGBUFFER_PRIMARY_SIZE).
    rewrite iter_mod by done. by rewrite HK.
Qed.

(** C15: a kick hands the chip exactly the words put since the last one: the
    primary ring gets, after the packets that make the chip see memory, the
    packet naming their place and number, and the chip is told the new end of
    the ring.  The secondary buffer is left as it is and goes on at a
    multiple of 32 words with at least the guard of 2 MB before its end. *)
Theorem kick_delivers xe : 0 <= rb_secondary_wptr xe -> rounded (rb_secondary_wptr xe) < RINGBUFFER_SECONDARY_SIZE ->
  0 <= rb_primary_wptr xe < RINGBUFFER_PRIMARY_SIZE ->
  exists xe', Xe_pRBKick xe = Ok tt xe' /\
    pget (rb_primary xe') (rb_primary_wptr xe) 46 =
      kick_words (u32 (rb_secondary_base xe + last_wptr xe * 4)) (rb_secondary_wptr xe - last_wptr xe) /\
    rb_primary_wptr xe' = (rb_primary_wptr xe + 46) mod RINGBUFFER_PRIMARY_SIZE /\
    reg_writes xe' = (0x0714, rb_primary_wptr xe') :: reg_writes xe /\
    rb_secondary xe' = rb_secondary xe /\
    last_wptr xe' = rb_secondary_wptr xe' /\ 0 <= rb_secondary_wptr xe' /\
    rb_secondary_wptr xe' + RINGBUFFER_SECONDARY_GUARD <= RINGBUFFER_SECONDARY_SIZE /\ rb_secondary_wptr xe' mod 32 = 0.
Proof.
  intros H0 H1 H2. eexists. split; [by apply kick_ok|].
  destruct (kick_state (kick_words (u32 (rb_secondary_base xe + last_wptr xe * 4)) (rb_secondary_wptr xe - last_wptr xe))
    xe H2 eq_refl) as (E1 & E2 & E3 & E4 & E5 & E6).
  destruct (next_wptr_guard _ H0 H1) as (G1 & G2 & G3). split_and!; [exact E1|exact E2|exact E3|exact E4|..];
    rewrite ?E5, ?E6; done.
Qed.

(** ** The words of start-up *)

(** A stream that is a sequence of whole packets. *)
Fixpoint framed (n : nat) (ws : list Z) : bool :=
  match n, ws with
  | _, [] => true
  | O, _ => false
  | S n, h :: ws =>
      if h =? 0x80000000 then framed n ws
      else
        let len := Z.to_nat ((h .>> 16) .& 0x3FFF + 1) in
        (len <=? length ws)%nat && framed n (drop len ws)
  end.

(** [m] puts the words [ws], when there is space. *)
Definition emits (m : XM unit) (ws : list Z) : Prop :=
  forall xe, 0 <= rb_secondary_wptr xe -> rb_secondary_wptr xe + Z.of_nat (length ws) <= RINGBUFFER_SECONDARY_SIZE ->
    m xe = Ok tt (out ws xe).
Lemma emits_ret : emits (ret tt) [].
Proof. intros xe _ _. by rewrite out_nil. Qed.
Lemma emits_bind m1 m2 w1 w2 : emits m1 w1 -> emits m2 w2 -> emits (m1 ;; m2) (w1 ++ w2).
Proof.
  intros H1 H2 xe H0 Hl. rewrite length_app in Hl. rewrite (bind_ok _ _ _ _ _ (H1 xe H0 ltac:(lia))).
  rewrite H2; [by rewrite out_out|cbn; lia..].
Qed.
Lemma emits_rput32 w : emits (rput32 w) [w].
Proof.
  intros xe H0 H1. unfold rput32, rput. rewrite (proj2 (Z.leb_le _ _) H0), (proj2 (Z.leb_le _ _) H1). done.
Qed.
Lemma emits_rput32s ws : emits (rput32s ws) ws.
Proof.
  induction ws as [|w ws IH]; [apply emits_ret|]. cbn [rput32s]. apply (emits_bind _ _ [w] ws); [apply emits_rput32|done].
Qed.
Lemma emits_for_each {A} (f : A -> XM unit) (g : A -> list Z) l :
  (forall x, emits (f x) (g x)) -> emits (for_each l f) (l ≫= g).
Proof. intros H. induction l as [|x l IH]; [apply emits_ret|]. cbn [for_each mbind list_bind]. by apply emits_bind. Qed.
Lemma emits_clip a b c d e f :
  emits (Xe_pSetSurfaceClip a b c d e f) [0x00022080; xy32 a b; xy32 c d; xy32 e f].
Proof.
  apply (emits_bind _ _ [_] [_; _; _]); [apply emits_rput32|]. apply (emits_bind _ _ [_] [_; _]); [apply emits_rput32|].
  apply (emits_bind _ _ [_] [_]); apply emits_rput32.
Qed.

Ltac emit :=
  repeat lazymatch goal with
  | |- emits (rput32s _) _ => apply emits_rput32s
  | |- emits (Xe_pSetSurfaceClip _ _ _ _ _ _) _ => apply emits_clip
  | |- emits (bind _ _) _ => eapply emits_bind
  | |- emits (for_each _ _) _ => eapply emits_for_each; intros ?
  end.

(** The command words of start-up are whole packets: every packet's header
    counts the words that follow it. *)
Theorem init_words_framed : exists ws, emits Xe_pGInit ws /\ framed (length ws) ws = true /\ length ws = 1461%nat.
Proof.
  eexists. split.
  - unfold Xe_pGInit, Xe_pGInit4, Xe_pGInit3, Xe_pGInit5, Xe_pGInit6, Xe_pGInit10, Xe_pGInit7, Xe_pGInit9, Xe_pGInit0,
      Xe_pGInit1, Xe_pGInit2, Xe_pGInit8. emit.
  - split; vm_compute; reflexivity.
Qed.

(** ** Well-formedness is kept by the steps of start-up *)

Definition keeps_wf (xe xe' : XenosDevice) : Prop := wf xe -> wf xe'.
#[export] Instance keeps_wf_preorder : PreOrder keeps_wf.
Proof. split; [intros xe W; exact W|]. intros x y z H1 H2 W. exact (H2 (H1 W)). Qed.

Lemma changes_gets R `{!PreOrder R} {A} (f : XenosDevice -> A) : changes R (gets f).
Proof. intros xe a xe' [= <- <-]. reflexivity. Qed.
Lemma changes_for_each R `{!PreOrder R} {A} (l : list A) (f : A -> XM unit) :
  (forall a, changes R (f a)) -> changes R (for_each l f).
Proof.
  intros H. induction l as [|a l IH]; cbn [for_each]; [apply changes_ret; exact _|]. by apply changes_bind; [done|apply H|intros _].
Qed.

Lemma rput_wf ws : changes keeps_wf (rput ws).
Proof.
  intros xe a xe'. unfold rput. destruct (_ && _); [|done]. intros [= _ <-] W. exact (wf_out ws xe W).
Qed.
Lemma rput32s_wf ws : changes keeps_wf (rput32s ws).
Proof.
  induction ws as [|w ws IH]; cbn [rput32s]; [apply changes_ret; exact _|]. apply changes_bind; [exact _|apply rput_wf|done].
Qed.
Lemma w32_wf o v : changes keeps_wf (w32 o v).
Proof. intros xe a xe' [= _ <-] W. solve_wf W. Qed.
Lemma rput32p_wf d : changes keeps_wf (rput32p d).
Proof. intros xe a xe' [= _ <-] W. solve_wf W. Qed.

Create HintDb keep discriminated.
#[export] Hint Resolve rput_wf rput32s_wf w32_wf rput32p_wf : keep.

Section platform.
Context {PF : Platform}.

Lemma r32_wf o : changes keeps_wf (r32 o).
Proof. intros xe a xe' [= _ <-] W. solve_wf W. Qed.
Lemma memalign_wf a s : changes keeps_wf (memalign a s).
Proof. intros xe x xe' [= _ <-] W. solve_wf W. Qed.
Lemma set_surface_wf p s : changes keeps_wf (set_surface p s).
Proof. intros xe a xe' [= _ <-] W. solve_wf W. Qed.

(** Steps and sequences of steps. *)
Ltac keep_step :=
  lazymatch goal with
  | |- changes _ (bind _ _) => apply changes_bind; [exact _| |intros ?]
  | |- changes _ (ret _) => apply changes_ret; exact _
  | |- changes _ (gets _) => apply changes_gets; exact _
  | |- changes _ get => apply changes_get; exact _
  | |- changes _ fault => apply changes_fault
  | |- changes _ Xe_Fatal => apply changes_fault
  | |- changes _ (of_option _) => apply changes_option; exact _
  | |- changes _ (for_each _ _) => apply changes_for_each; [exact _|intros ?]
  | |- changes _ (while _ _ _) => apply changes_while; [exact _|intros ?]
  | |- changes _ (when _ _) => apply changes_when; [exact _|]
  | |- changes _ (if _ then _ else _) => apply changes_if
  | |- changes _ (r32 _) => apply r32_wf
  | |- changes _ (w32 _ _) => apply w32_wf
  | |- changes _ (rput32s _) => apply rput32s_wf
  | |- changes _ (rput32 _) => apply rput_wf
  | |- changes _ (rput _) => apply rput_wf
  | |- changes _ (rput32p _) => apply rput32p_wf
  | |- changes _ (memalign _ _) => apply memalign_wf
  | |- changes _ (set_surface _ _) => apply set_surface_wf
  | |- _ => solve [auto with keep]
  end.
Ltac keep := repeat keep_step.

Lemma Xe_pAlloc_wf s a : changes keeps_wf (Xe_pAlloc s a).
Proof. unfold Xe_pAlloc. keep. Qed.
Lemma turns_wf n m : changes keeps_wf m -> changes keeps_wf (turns n m).
Proof. intros Hm. induction n; cbn [turns]; keep; done. Qed.
Lemma verify_ucode_wf l : changes keeps_wf (verify_ucode l).
Proof. induction l; cbn [verify_ucode]; keep; done. Qed.
Lemma Xe_pSetupRingbuffer_wf b s : changes keeps_wf (Xe_pSetupRingbuffer b s).
Proof. unfold Xe_pSetupRingbuffer, Xe_pResetRingbuffer. keep. Qed.
Hint Resolve Xe_pAlloc_wf turns_wf verify_ucode_wf Xe_pSetupRingbuffer_wf : keep.
Lemma Xe_pLoadUcodes_wf u0 u1 : changes keeps_wf (Xe_pLoadUcodes u0 u1).
Proof. unfold Xe_pLoadUcodes. keep. Qed.
Lemma Xe_pWaitReady_wf : changes keeps_wf Xe_pWaitReady.
Proof. unfold Xe_pWaitReady. apply changes_bind; [exact _|apply turns_wf; keep|intros ?; keep]. Qed.
Hint Resolve Xe_pLoadUcodes_wf Xe_pWaitReady_wf : keep.
Lemma Xe_pResetCP_wf b s : changes keeps_wf (Xe_pResetCP b s).
Proof. unfold Xe_pResetCP. keep. Qed.
Hint Resolve Xe_pResetCP_wf : keep.
Lemma Xe_pSetup_wf b s u0 u1 : changes keeps_wf (Xe_pSetup b s u0 u1).
Proof. unfold Xe_pSetup. keep. Qed.
Hint Resolve Xe_pSetup_wf : keep.
Lemma Xe_pMasterInit_wf f b u0 u1 : changes keeps_wf (Xe_pMasterInit f b u0 u1).
Proof. unfold Xe_pMasterInit, wait_3c4c. keep. Qed.
Lemma Xe_pEnableWriteback_wf a b : changes keeps_wf (Xe_pEnableWriteback a b).
Proof. unfold Xe_pEnableWriteback. keep. Qed.
Lemma set_base_wf b : changes keeps_wf (modify (fun xe => xe <| rb_secondary_base := b |>)).
Proof. intros xe a xe' [= _ <-] W. solve_wf W. Qed.
Hint Resolve Xe_pMasterInit_wf Xe_pEnableWriteback_wf set_base_wf : keep.
Lemma Xe_pRBAlloc_wf : changes keeps_wf Xe_pRBAlloc.
Proof. unfold Xe_pRBAlloc. keep. Qed.
Lemma Xe_pGInit_wf : changes keeps_wf Xe_pGInit.
Proof.
  unfold Xe_pGInit, Xe_pGInit4, Xe_pGInit3, Xe_pGInit5, Xe_pGInit6, Xe_pGInit10, Xe_pGInit7, Xe_pGInit9, Xe_pGInit0,
    Xe_pGInit1, Xe_pGInit2, Xe_pGInit8, Xe_pSetSurfaceClip. keep.
Qed.
Hint Resolve Xe_pRBAlloc_wf Xe_pGInit_wf : keep.

Lemma zero_device_wf xe : (forall p s, shaders xe !! p = Some s -> good_shader s) -> wf (zero_device xe).
Proof. intros H. split; cbn [zero_device alu_constants fetch_constants clipplane integer_constants]; try done; apply length_replicate. Qed.
Lemma last_init_wf w h : changes keeps_wf (modify (fun xe => xe <| clear_color := 0 |> <| clear_stencil_z := 0xffffff00 |>
    <| vp_znear := 0x3f800000 |> <| vp_zfar := 0 |> <| vp_xres := w |> <| vp_yres := h |>
    <| vp_xoffset := 0 |> <| vp_yoffset := 0 |> <| color_mask := 0xf |>)).
Proof. intros xe a xe' [= _ <-] W. destruct W. by split. Qed.
Lemma Xe_pInvalidateGpuCache_wf b s : changes keeps_wf (Xe_pInvalidateGpuCache b s).
Proof. apply rput32s_wf. Qed.
Lemma Xe_pWriteReg_wf r v : changes keeps_wf (Xe_pWriteReg r v).
Proof. unfold Xe_pWriteReg. keep. Qed.
Hint Resolve last_init_wf Xe_pInvalidateGpuCache_wf Xe_pWriteReg_wf : keep.

(** However start-up goes on a chip that lets it finish, it leaves a
    device whose arrays have their sizes, whose dirty words are words and
    which has no shader selected, so that any program of calls may follow. *)
Theorem xe_init_wf fuel ucode0 ucode1 xe xe' :
  (forall p s, shaders xe !! p = Some s -> good_shader s) ->
  Xe_Init fuel ucode0 ucode1 xe = Ok tt xe' -> wf xe'.
Proof.
  intros Hs E. unfold Xe_Init in E. apply bind_ok_inv in E as ([] & xe1 & E1 & E). injection E1 as <-.
  revert E. set (z := zero_device xe). assert (wf z) as W by (by apply zero_device_wf). clearbody z. intros E.
  refine ((_ : changes keeps_wf _) z tt xe' E W). keep.
Qed.
End platform.
