(* ===== verification/XeVb.v ===== *)
(** * Graphics driver: vertex data and the pool of buffers

    [Xe_VBPut] copies vertices into a list of buffers, taking a buffer from
    the pool, or a new one, whenever the last is full.  The buffers of the
    list and those of the pool are linked through their [next] fields. *)
From S2P Require Import Prelude Bits Xe XeGpu XeOps.

(** ** Linked lists of buffers *)

Abbreviation vb_map := (gmap Z XenosVertexBuffer).

(** From [p] through the buffers [l] to the pointer [r]. *)
Fixpoint seg (m : vb_map) (p : Z) (l : list Z) (r : Z) : Prop :=
  match l with
  | [] => p = r
  | q :: l => p = q /\ q <> 0 /\ exists v, m !! q = Some v /\ seg m (next v) l r
  end.

Lemma seg_app m p l1 l2 r : seg m p (l1 ++ l2) r <-> exists q, seg m p l1 q /\ seg m q l2 r.
Proof.
  revert p. induction l1 as [|x l1 IH]; intros p; cbn [app seg]; [by split; [exists p|intros (q & -> & ?)]|].
  split.
  - intros (-> & Hx & v & Hv & H). apply IH in H as (q & H1 & H2). exists q. split; [|done]. split_and!; eauto.
  - intros (q & (-> & Hx & v & Hv & H1) & H2). split_and!; [done..|]. exists v. split; [done|]. apply IH. eauto.
Qed.
Lemma seg_frame m p l r q v : q ∉ l -> seg m p l r -> seg (<[q := v]> m) p l r.
Proof.
  revert p. induction l as [|x l IH]; intros p Hq H; [done|]. cbn [seg] in *. destruct H as (-> & Hx & w & Hw & H).
  apply not_elem_of_cons in Hq as [Hne Hq]. split_and!; [done..|]. exists w. split; [by rewrite lookup_insert_ne|]. by apply IH.
Qed.
(** The last buffer is made to point elsewhere. *)
Lemma seg_relink m p l q r r' v w : NoDup (l ++ [q]) -> m !! q = Some v -> next w = r' ->
  seg m p (l ++ [q]) r -> seg (<[q := w]> m) p (l ++ [q]) r'.
Proof.
  intros Hd Hv Hw H. apply seg_app in H as (x & H1 & (-> & Hq & v' & _ & _)). apply seg_app. exists q.
  apply NoDup_app in Hd as (_ & Hd & _). split.
  - apply seg_frame; [|done]. intros Hin. by apply (Hd q Hin); left.
  - split_and!; [done..|]. exists w. split; [by rewrite lookup_insert_eq|done].
Qed.
Lemma seg_in m p l r q : seg m p l r -> q ∈ l -> q <> 0 /\ is_Some (m !! q).
Proof.
  revert p. induction l as [|x l IH]; intros p H Hq; [by apply not_elem_of_nil in Hq|]. destruct H as (-> & Hx & v & Hv & H).
  apply elem_of_cons in Hq as [->|Hq]; [eauto|]. by eapply IH.
Qed.
Lemma seg_head m p l : seg m p l 0 -> nz p = match l with [] => false | _ => true end.
Proof. destruct l as [|q l]; cbn [seg]; [by intros ->|]. intros (-> & Hq & _). unfold nz. by rewrite (proj2 (Z.eqb_neq _ _) Hq). Qed.

Lemma seg_ext m m' p l r : (forall x, x ∈ l -> m' !! x = m !! x) -> seg m p l r -> seg m' p l r.
Proof.
  revert p. induction l as [|q l IH]; intros p H Hs; [done|]. destruct Hs as (-> & Hq & v & Hv & Hs).
  split_and!; [done..|]. exists v. rewrite H by (by left). split; [done|]. apply IH; [|done]. intros x Hx. apply H. by right.
Qed.

(** ** The pool *)

Definition taken (v : XenosVertexBuffer) : XenosVertexBuffer := v <| next := 0 |> <| vb_size := 0 |> <| vertices := 0 |>.

(** The memory of a buffer, in bytes. *)
Definition vb_space (m : vb_map) (q : Z) : option Z := space <$> m !! q.
(** Whether a buffer has at least [size] bytes. *)
Definition holds_bytes (size : Z) (m : vb_map) (q : Z) : bool :=
  match vb_space m q with Some n => size <=? n | None => false end.

(** [xe'] differs from [xe] in buffers of [l] and in [vb_pool] only, and no
    buffer has changed its size. *)
Definition pool_changed (l : list Z) (xe xe' : XenosDevice) : Prop :=
  exists m h, xe' = xe <| vbs := m |> <| vb_pool := h |> /\ (forall x, x ∉ l -> m !! x = vbs xe !! x) /\
    forall x, vb_space m x = vb_space (vbs xe) x.

Lemma vb_space_insert m q v w x : m !! q = Some v -> space w = space v -> vb_space (<[q := w]> m) x = vb_space m x.
Proof.
  intros Hv Hw. unfold vb_space. destruct (decide (x = q)) as [->|]; [|by rewrite lookup_insert_ne].
  rewrite lookup_insert_eq, Hv. cbn. by rewrite Hw.
Qed.

Lemma bind_vb_at {B} p v (k : XenosVertexBuffer -> XM B) xe : vbs xe !! p = Some v -> bind (vb_at p) k xe = k v xe.
Proof. intros E. unfold vb_at, bind, get. by rewrite E. Qed.

(** Taking the buffer after [pre] out of the list. *)
Lemma unlink pre q pl v xe : seg (vbs xe) (vb_pool xe) pre q -> vbs xe !! q = Some v -> seg (vbs xe) (next v) pl 0 ->
  NoDup (pre ++ q :: pl) -> q <> 0 -> exists xe',
  ((if nz (default 0 (last pre)) then
      w <- vb_at (default 0 (last pre)) ;; set_vb (default 0 (last pre)) (w <| next := next v |>)
    else modify (fun xe => xe <| vb_pool := next v |>)) ;;
   v' <- vb_at q ;; set_vb q (taken v') ;; ret (Some q)) xe = Ok (Some q) xe' /\
  seg (vbs xe') (vb_pool xe') (pre ++ pl) 0 /\ vbs xe' !! q = Some (taken v) /\ pool_changed (pre ++ q :: pl) xe xe'.
Proof.
  intros H1 Hv H2 Hd Hq. apply NoDup_app in Hd as (Hd1 & Hd2 & Hd3). apply NoDup_cons in Hd3 as [Hq3 Hd3].
  assert (q ∉ pre) as Hqpre by (intros Hin; apply (Hd2 q Hin); by left).
  destruct pre as [|pr pre _] using rev_ind.
  - cbn [last default]. eexists. split; [|split; [|split]].
    + unfold nz. cbn [negb Z.eqb]. unfold bind at 1. cbn [modify]. rewrite (bind_vb_at q v) by done. reflexivity.
    + cbn [app]. apply (seg_frame (vbs xe)); [done|exact H2].
    + apply lookup_insert_eq.
    + exists (<[q := taken v]> (vbs xe)), (next v). split; [reflexivity|]. split; [|intros x; by eapply vb_space_insert].
      intros x Hx. apply lookup_insert_ne. intros <-. apply Hx. by left.
  - rewrite last_snoc. change (default 0 (Some pr)) with pr.
    destruct (seg_in _ _ _ _ pr H1) as [Hpr [w Hw]]; [apply elem_of_app; right; by left|].
    assert (pr <> q) as Hne by (intros ->; apply Hqpre, elem_of_app; right; by left).
    eexists. split; [|split; [|split]].
    + unfold nz. rewrite (proj2 (Z.eqb_neq pr 0) Hpr). cbn [negb].
      rewrite bind_assoc, (bind_vb_at pr w) by done. unfold bind at 1. cbn [set_vb modify].
      rewrite (bind_vb_at q v) by (cbn; by rewrite lookup_insert_ne). reflexivity.
    + cbn. apply seg_app. exists (next v). split.
      * apply seg_frame; [done|]. eapply seg_relink; [done|done|reflexivity|exact H1].
      * apply seg_frame; [done|]. apply seg_frame; [|done]. intros Hin.
        apply (Hd2 pr); [apply elem_of_app; right; by left|by right].
    + apply lookup_insert_eq.
    + exists (<[q := taken v]> (<[pr := w <| next := next v |>]> (vbs xe))), (vb_pool xe). split; [by destruct xe|]. split.
      2: { intros x. rewrite (vb_space_insert _ q v); [by eapply vb_space_insert| |done]. by rewrite lookup_insert_ne. }
      intros x Hx. rewrite !lookup_insert_ne; [done|..]; intros <-; apply Hx; rewrite !elem_of_app; [left; right|right]; by left.
Qed.

Lemma pool_scan_next n prev q size v xe : q <> 0 -> vbs xe !! q = Some v ->
  pool_scan (S n) prev q size xe =
    (if size <=? space v then
       (if nz prev then w <- vb_at prev ;; set_vb prev (w <| next := next v |>)
        else modify (fun xe => xe <| vb_pool := next v |>)) ;;
       v' <- vb_at q ;; set_vb q (taken v') ;; ret (Some q)
     else pool_scan n q (next v) size) xe.
Proof.
  intros Hq Hv. cbn [pool_scan]. unfold nz at 1. rewrite (proj2 (Z.eqb_neq q 0) Hq). cbn [negb]. by rewrite (bind_vb_at q v).
Qed.

Lemma pool_scan_spec n size pre p pl xe : seg (vbs xe) (vb_pool xe) pre p -> seg (vbs xe) p pl 0 -> NoDup (pre ++ pl) ->
  (length pl <= n)%nat ->
  (exists a q b v xe', pl = a ++ q :: b /\ vbs xe !! q = Some v /\ size <= space v /\
     Forall (fun x => holds_bytes size (vbs xe) x = false) a /\
     pool_scan n (default 0 (last pre)) p size xe = Ok (Some q) xe' /\
     seg (vbs xe') (vb_pool xe') (pre ++ a ++ b) 0 /\ vbs xe' !! q = Some (taken v) /\ pool_changed (pre ++ pl) xe xe') \/
  (Forall (fun x => holds_bytes size (vbs xe) x = false) pl /\ pool_scan n (default 0 (last pre)) p size xe = Ok None xe).
Proof.
  revert n pre p. induction pl as [|q pl IH]; intros n pre p H1 H2 Hd Hn.
  { right. split; [constructor|]. cbn in H2. subst p. by destruct n. }
  destruct H2 as (-> & Hq & v & Hv & H2). destruct n as [|n]; [cbn in Hn; lia|].
  rewrite (pool_scan_next n _ q size v xe) by done. destruct (Z.leb_spec size (space v)) as [Hs|Hs].
  - left. destruct (unlink pre q pl v xe) as (xe' & E1 & E2 & E3 & E4); [done..|].
    exists [], q, pl, v, xe'. by split_and!.
  - destruct (IH n (pre ++ [q]) (next v)) as [(a & q' & b & w & xe' & Ha)|[Hno Ha]].
    all: assert (holds_bytes size (vbs xe) q = false) as Hqs by (unfold holds_bytes, vb_space; rewrite Hv; cbn; by apply Z.leb_gt).
    + apply seg_app. exists q. split; [done|]. split; [done|]. split; [done|]. exists v. done.
    + done.
    + by rewrite <- app_assoc.
    + cbn in Hn. lia.
    + left. exists (q :: a), q', b, w, xe'. destruct Ha as (-> & E1 & E2 & E0 & E3 & E4 & E5 & E6).
      rewrite last_snoc in E3. change (default 0 (Some q)) with q in E3. rewrite <- !app_assoc in E4, E6. split_and!; try done. by constructor.
    + right. rewrite last_snoc in Ha. split; [by constructor|exact Ha].
Qed.

(** ** Buffers being filled *)

Section platform.
Context {PF : Platform}.
(** What the driver relies on: memory is given, and never given twice. *)
Class PlatformOk := {
  malloc_nonzero : forall n s, pf_malloc n s <> 0;
  malloc_once : forall n n' s s', pf_malloc n s = pf_malloc n' s' -> n = n';
  memalign_nonzero : forall n a s, pf_memalign n a s <> 0 }.
Context {PO : PlatformOk}.

(** The words of a buffer, and of a list of buffers. *)
Definition vb_words (v : XenosVertexBuffer) : list Z := get_ring (vb_data v) 0 (Z.to_nat (vb_size v / 4)).
Definition contents (m : vb_map) (l : list Z) : list Z := l ≫= fun q => from_option vb_words [] (m !! q).

(** A buffer is filled with whole vertices. *)
Definition filled (pitch : Z) (v : XenosVertexBuffer) : Prop :=
  0 <= vb_size v <= space v /\ vb_size v = vertices v * (4 * pitch).

(** Between [Xe_VBBegin] and [Xe_VBEnd]: the buffers [l] hold the data so far,
    the buffers [pl] are free. *)
Record building (xe : XenosDevice) (l pl : list Z) : Prop := {
  b_head : seg (vbs xe) (vb_head xe) l 0;
  b_current : vb_current xe = default 0 (last l);
  b_pool : seg (vbs xe) (vb_pool xe) pl 0;
  b_nodup : NoDup (l ++ pl);
  b_pitch : 0 < vb_current_pitch xe;
  b_filled : forall q v, q ∈ l -> vbs xe !! q = Some v -> filled (vb_current_pitch xe) v;
  b_heap : forall n s, allocs xe <= n -> vbs xe !! pf_malloc n s = None }.

(** The free words of the last buffer, a whole number of vertices. *)
Definition room (xe : XenosDevice) : Z :=
  match vbs xe !! vb_current xe with
  | Some v => if nz (vb_current xe) then
      Z.quot (space v - vb_size v) 4 - Z.rem (Z.quot (space v - vb_size v) 4) (vb_current_pitch xe) else 0
  | None => 0
  end.

Lemma create_vb size xe : exists v, let q := pf_malloc (allocs xe) 48 in
  Xe_CreateVertexBuffer size xe = Ok q (xe <| vbs ::= <[q := v]> |> <| allocs := allocs xe + 2 |>) /\
  next v = 0 /\ vb_size v = 0 /\ vertices v = 0 /\ space v = size.
Proof.
  set (a := pf_memalign (allocs xe + 1) 0x1000 size).
  exists (mkVB (a .& not32 0x80000000) 0 0 size a ∅ no_lock 0). intros q. split; [|done].
  assert (nz q = true) as Hq by (unfold nz; by rewrite (proj2 (Z.eqb_neq q 0) (malloc_nonzero _ _))).
  assert (nz a = true) as Ha by (unfold nz; by rewrite (proj2 (Z.eqb_neq a 0) (memalign_nonzero _ _ _))).
  unfold Xe_CreateVertexBuffer, malloc_cleared, malloc, Xe_pAlloc, memalign, bind, gets, modify, ret, set_vb.
  fold q. rewrite Hq. cbn [allocs set nz negb Z.eqb]. fold a. rewrite Ha. cbn. f_equal. destruct xe. cbn.
  by replace (allocs + 1 + 1) with (allocs + 2) by lia.
Qed.

(** Where the next buffer comes from: the first of the pool that is large
    enough, or [malloc] when none is.  [n] allocations have been made before. *)
Inductive source (large : Z -> bool) (n : Z) : list Z -> Z -> list Z -> Z -> Prop :=
  | source_pool a q b : Forall (fun x => large x = false) a -> large q = true -> source large n (a ++ q :: b) q (a ++ b) n
  | source_new pl : Forall (fun x => large x = false) pl -> source large n pl (pf_malloc n 48) pl (n + 2).

Lemma pool_alloc_spec fuel size xe pl : seg (vbs xe) (vb_pool xe) pl 0 -> NoDup pl -> (length pl <= fuel)%nat ->
  (forall n s, allocs xe <= n -> vbs xe !! pf_malloc n s = None) ->
  exists q v m h k pl', Xe_VBPoolAlloc fuel size xe = Ok q (xe <| vbs := m |> <| vb_pool := h |> <| allocs := k |>) /\
    q <> 0 /\ m !! q = Some v /\ next v = 0 /\ vb_size v = 0 /\ vertices v = 0 /\ size <= space v /\
    seg m h pl' 0 /\ NoDup (q :: pl') /\ pl' ⊆ pl /\ (q ∈ pl \/ vbs xe !! q = None) /\
    (forall x, x ∉ q :: pl -> m !! x = vbs xe !! x) /\ allocs xe <= k /\
    (forall n s, k <= n -> m !! pf_malloc n s = None) /\
    source (holds_bytes size (vbs xe)) (allocs xe) pl q pl' k /\ (forall x, x ∈ pl' -> vb_space m x = vb_space (vbs xe) x).
Proof.
  intros Hs Hd Hf Hh. unfold Xe_VBPoolAlloc. unfold bind at 1. cbn [gets].
  destruct (pool_scan_spec fuel size [] (vb_pool xe) pl xe) as [(a & q & b & v & xe' & -> & Hv & Hsz & Hno & E & Hs' & Hq & m & h & -> & Hx & Hsp)|[Hno E]];
    try done; change (default 0 (last [])) with 0 in E; rewrite (bind_ok _ _ _ _ _ E); cbn [ret].
  - exists q, (taken v), m, h, (allocs xe), (a ++ b). cbn [app] in *.
    assert (NoDup (q :: a ++ b)) as Hd' by (by rewrite (Permutation_middle a b q)).
    split_and!; try done; try set_solver.
    + apply (seg_in _ _ _ _ q Hs). set_solver.
    + intros n s Hn. destruct (decide (pf_malloc n s ∈ a ++ q :: b)) as [Hin|Hin]; [|rewrite Hx by done; by apply Hh].
      destruct (seg_in _ _ _ _ _ Hs Hin) as [_ [w Hw]]. by rewrite Hh in Hw.
    + constructor; [done|]. unfold holds_bytes, vb_space. rewrite Hv. cbn. by apply Z.leb_le.
  - destruct (create_vb size xe) as (v & E' & H1 & H2 & H3 & H4). set (q := pf_malloc _ _) in *.
    assert (vbs xe !! q = None) as Hq by (apply Hh; lia).
    assert (q ∉ pl) as Hqp. { intros Hin. destruct (seg_in _ _ _ _ _ Hs Hin) as [_ [w Hw]]. congruence. }
    exists q, v, (<[q := v]> (vbs xe)), (vb_pool xe), (allocs xe + 2), pl. split_and!; try done; try lia.
    + apply malloc_nonzero.
    + apply lookup_insert_eq.
    + by apply seg_frame.
    + by constructor.
    + by right.
    + intros x Hin. apply lookup_insert_ne. set_solver.
    + intros n s Hn. rewrite lookup_insert_ne; [apply Hh; lia|]. intros Heq. apply malloc_once in Heq. lia.
    + by constructor.
    + intros x Hx. unfold vb_space. rewrite lookup_insert_ne; [done|]. intros <-. done.
Qed.

Lemma contents_app m l1 l2 : contents m (l1 ++ l2) = contents m l1 ++ contents m l2.
Proof. apply bind_app. Qed.
(** Buffers that keep their words. *)
Lemma contents_ext m m' l :
  (forall q v, q ∈ l -> m !! q = Some v -> exists v', m' !! q = Some v' /\ vb_words v' = vb_words v) ->
  (forall q, q ∈ l -> is_Some (m !! q)) -> contents m' l = contents m l.
Proof.
  intros H Hs. unfold contents. induction l as [|q l IH]; [done|]. cbn [mbind list_bind].
  destruct (Hs q) as [v Hv]; [by left|]. destruct (H q v) as (v' & -> & E); [by left|done|]. rewrite Hv. cbn [from_option]. rewrite E.
  f_equal. apply IH; [intros x w Hx; apply H; by right|intros x Hx; apply Hs; by right].
Qed.

Lemma remaining_room xe l pl : building xe l pl -> exists R, 0 <= R /\
  (if nz (vb_current xe) then v <- vb_at (vb_current xe) ;; ret (Z.quot (space v - vb_size v) 4) else ret 0) xe = Ok R xe /\
  R - Z.rem R (vb_current_pitch xe) = room xe.
Proof.
  intros [H1 H2 H3 H4 H5 H6 H7]. unfold room. destruct l as [|c l _] using rev_ind.
  - cbn in H2. rewrite H2. exists 0. split_and!; [done..|]. by destruct (vbs xe !! 0).
  - rewrite last_snoc in H2. cbn in H2. destruct (seg_in _ _ _ _ c H1) as [Hc [v Hv]]; [set_solver|].
    rewrite H2, Hv. unfold nz. rewrite (proj2 (Z.eqb_neq c 0) Hc). cbn [negb]. rewrite (bind_vb_at c v) by done.
    exists (Z.quot (space v - vb_size v) 4). destruct (H6 c v) as [Hf _]; [set_solver|done|]. split_and!; [|done..].
    apply Z.quot_pos; lia.
Qed.

(** [w'] is [w] but for its link. *)
Definition same_but_next (w w' : XenosVertexBuffer) : Prop := w' = w <| next := next w' |>.

(** The list with an empty buffer behind it. *)
Lemma hung l pl q v m m' h hd k pl' xe : building xe l pl ->
  vb_size v = 0 -> vertices v = 0 -> 0 <= space v -> seg m h pl' 0 -> NoDup (q :: pl') -> pl' ⊆ pl -> q ∉ l ->
  (forall n s, k <= n -> m !! pf_malloc n s = None) ->
  seg m' hd (l ++ [q]) 0 -> m' !! q = Some v -> (forall x, x ∉ l -> m' !! x = m !! x) ->
  (forall x w, x ∈ l -> vbs xe !! x = Some w -> exists w', m' !! x = Some w' /\ same_but_next w w') ->
  (forall x, x ∈ l -> m !! x = vbs xe !! x) ->
  let xe' := xe <| vbs := m' |> <| vb_pool := h |> <| allocs := k |> <| vb_head := hd |> <| vb_current := q |> in
  building xe' (l ++ [q]) pl' /\ contents m' (l ++ [q]) = contents (vbs xe) l.
Proof.
  intros [H1 H2 H3 H4 H5 H6 H7] Hs Hvt Hsp Hseg Hd Hsub Hql Hk S1 S2 S3 S4 S5 xe'.
  assert (forall x, x ∈ l -> is_Some (vbs xe !! x)) as Hin by (intros x Hx; apply (seg_in _ _ _ _ x H1 Hx)).
  apply NoDup_app in H4 as (N1 & N2 & N3). apply NoDup_cons in Hd as [Hq' Hd]. split.
  - split; cbn.
    + done.
    + by rewrite last_snoc.
    + apply (seg_ext m); [|done]. intros x Hx. apply S3. intros Hl. apply (N2 x Hl). by apply Hsub.
    + apply NoDup_app. split_and!; [|set_solver|done]. apply NoDup_app. split_and!; [done|set_solver|apply NoDup_singleton].
    + done.
    + intros x w Hx Hw. apply elem_of_app in Hx as [Hx|Hx].
      * destruct (Hin x Hx) as [u Hu]. destruct (S4 x u Hx Hu) as (w' & Hw' & E). rewrite Hw in Hw'. injection Hw' as <-.
        rewrite E. exact (H6 x u Hx Hu).
      * apply list_elem_of_singleton in Hx as ->. rewrite S2 in Hw. injection Hw as <-. unfold filled. rewrite Hs, Hvt. lia.
    + intros n s Hn. destruct (decide (pf_malloc n s ∈ l)) as [Hl|Hl]; [|rewrite S3 by done; by apply Hk].
      destruct (Hin _ Hl) as [u Hu]. rewrite <- S5, Hk in Hu by done. done.
  - rewrite contents_app. unfold contents at 2. cbn [mbind list_bind]. rewrite S2. cbn [from_option].
    unfold vb_words at 1. rewrite Hs. cbn [app]. rewrite app_nil_r. apply contents_ext; [|done].
    intros x w Hx Hw. destruct (S4 x w Hx Hw) as (w' & Hw' & E). exists w'. split; [done|]. by rewrite E.
Qed.

(** A buffer is hung behind the last. *)
Lemma hang l pl q v m h k pl' xe : building xe l pl ->
  q <> 0 -> m !! q = Some v -> next v = 0 -> vb_size v = 0 -> vertices v = 0 -> 0 <= space v ->
  seg m h pl' 0 -> NoDup (q :: pl') -> pl' ⊆ pl -> (q ∈ pl \/ vbs xe !! q = None) ->
  (forall x, x ∉ q :: pl -> m !! x = vbs xe !! x) -> (forall n s, k <= n -> m !! pf_malloc n s = None) ->
  exists m' hd, ((if nz (vb_head xe) then w <- vb_at (vb_current xe) ;; set_vb (vb_current xe) (w <| next := q |>)
     else modify (fun xe => xe <| vb_head := q |>)) ;; modify (fun xe => xe <| vb_current := q |>))
    (xe <| vbs := m |> <| vb_pool := h |> <| allocs := k |>)
    = Ok tt (xe <| vbs := m' |> <| vb_pool := h |> <| allocs := k |> <| vb_head := hd |> <| vb_current := q |>) /\
    building (xe <| vbs := m' |> <| vb_pool := h |> <| allocs := k |> <| vb_head := hd |> <| vb_current := q |>) (l ++ [q]) pl' /\
    contents m' (l ++ [q]) = contents (vbs xe) l /\ m' !! q = Some v /\ (forall x, x ∉ l -> m' !! x = m !! x).
Proof.
  intros B Hq Hv Hn Hs Hvt Hsp Hseg Hd Hsub Hqx Hm Hk. pose proof B as [H1 H2 H3 H4 H5 H6 H7].
  assert (forall x, x ∈ l -> is_Some (vbs xe !! x)) as Hin by (intros x Hx; apply (seg_in _ _ _ _ x H1 Hx)).
  apply NoDup_app in H4 as (N1 & N2 & N3).
  assert (q ∉ l) as Hql. { intros Hl. destruct Hqx as [Hqx|Hqx]; [by apply (N2 q)|]. destruct (Hin q Hl). congruence. }
  assert (forall x, x ∈ l -> m !! x = vbs xe !! x) as Hml by (intros x Hx; apply Hm; set_solver).
  rewrite (seg_head _ _ _ H1). destruct l as [|c l _] using rev_ind.
  - exists m, q. split; [done|].
    destruct (hung [] pl q v m m h q k pl' xe) as [X Y]; try done.
    + cbn [app seg]. split_and!; [done..|]. by exists v.
    + by intros x w Hx%not_elem_of_nil.
  - destruct (Hin c) as [w Hw]; [set_solver|]. rewrite last_snoc in H2. cbn in H2. assert (m !! c = Some w) as Hmc by (rewrite Hml; set_solver).
    assert (c <> q) as Hcq by set_solver.
    exists (<[c := w <| next := q |>]> m), (vb_head xe). split.
    { replace (match l ++ [c] with [] => false | _ => true end) with true by (by destruct l).
      rewrite H2, bind_assoc, (bind_vb_at c w) by done. reflexivity. }
    destruct (hung (l ++ [c]) pl q v m (<[c := w <| next := q |>]> m) h (vb_head xe) k pl' xe) as [X Y]; try done.
    + apply seg_app. exists q. split.
      * eapply seg_relink; [done|done|reflexivity|]. by apply (seg_ext (vbs xe)).
      * split_and!; [done..|]. exists v. by rewrite lookup_insert_ne.
    + by rewrite lookup_insert_ne.
    + intros x Hx. apply lookup_insert_ne. set_solver.
    + intros x u Hx Hu. destruct (decide (x = c)) as [->|Hne].
      * rewrite lookup_insert_eq. rewrite Hw in Hu. injection Hu as <-. by eexists.
      * rewrite lookup_insert_ne by done. exists u. rewrite Hml by done. split; [done|]. by destruct u.
    + split_and!; [done..|by rewrite lookup_insert_ne|]. intros x Hx. apply lookup_insert_ne. set_solver.
Qed.

(** The buffers that are large enough: those of [VBPOOL_NUM_TRIANGLES]
    triangles, with the pitch taken for bytes. *)
Definition pool_large (xe : XenosDevice) : Z -> bool := holds_bytes (VBPOOL_NUM_TRIANGLES * 3 * vb_current_pitch xe) (vbs xe).

(** No room: a turn of the loop takes another buffer. *)
Lemma put_step_alloc fuel data xe l pl : building xe l pl -> data <> [] -> room xe = 0 -> (length pl <= fuel)%nat ->
  exists xe' q pl', put_step fuel data xe = Ok (Some data) xe' /\ building xe' (l ++ [q]) pl' /\
    contents (vbs xe') (l ++ [q]) = contents (vbs xe) l /\ 0 < room xe' /\
    vb_current_pitch xe' = vb_current_pitch xe /\ (length pl' <= fuel)%nat /\
    source (pool_large xe) (allocs xe) pl q pl' (allocs xe') /\ (forall x, x ∈ pl' -> vb_space (vbs xe') x = vb_space (vbs xe) x).
Proof.
  intros B Hd Hr Hf. destruct (remaining_room _ _ _ B) as (R & HR & ER & Er). pose proof (b_pitch _ _ _ B) as Hp.
  assert (NoDup pl) as Hnd by (pose proof (b_nodup _ _ _ B) as Hnd; apply NoDup_app in Hnd; tauto).
  destruct (pool_alloc_spec fuel (VBPOOL_NUM_TRIANGLES * 3 * vb_current_pitch xe) xe pl (b_pool _ _ _ B) Hnd Hf (b_heap _ _ _ B))
    as (q & v & m & h & k & pl' & E & Hq & Hv & Hn & Hs & Hvt & Hsp & Hseg & Hnd' & Hsub & Hqx & Hm & _ & Hk & Hsrc & Hspc).
  destruct (hang l pl q v m h k pl' xe) as (m' & hd & Eh & B' & Ec & Hv' & Hout); try done.
  { unfold VBPOOL_NUM_TRIANGLES in Hsp. lia. }
  eexists _, q, pl'. split; [|split; [exact B'|split; [exact Ec|split; [|split; [|split; [|split; [exact Hsrc|]]]]]]].
  - destruct data as [|x data]; [done|]. cbn [put_step]. unfold bind at 1. cbn [get].
    rewrite (bind_ok _ _ _ _ _ ER), Er, Hr. rewrite (proj2 (Z.ltb_ge _ 0)) by lia. cbn [nz negb Z.eqb].
    change (negb (nz 0)) with true. cbv beta iota.
    rewrite (bind_ok _ _ _ _ _ E), <- bind_assoc. unfold bind at 1. rewrite Eh. reflexivity.
  - unfold room. cbn. rewrite Hv'. unfold nz. rewrite (proj2 (Z.eqb_neq q 0) Hq). cbn [negb]. rewrite Hs, Z.sub_0_r.
    unfold VBPOOL_NUM_TRIANGLES in Hsp. rewrite Z.quot_div_nonneg, Z.rem_mod_nonneg by (try apply Z.div_pos; lia).
    pose proof (Z.mod_pos_bound (space v / 4) (vb_current_pitch xe) Hp).
    assert (1500 * vb_current_pitch xe <= space v / 4) by (apply Z.div_le_lower_bound; lia). lia.
  - done.
  - apply NoDup_cons in Hnd' as [_ Hnd']. assert (length pl' <= length pl)%nat; [|lia].
    by apply (submseteq_length pl' pl), NoDup_submseteq.
  - intros x Hx. rewrite <- (Hspc x Hx). unfold vb_space. cbn. rewrite Hout; [done|]. intros Hl.
    pose proof (b_nodup _ _ _ B) as N. apply NoDup_app in N as (_ & N & _). apply (N x Hl). by apply Hsub.
Qed.

Lemma get_ring_app m a n k : get_ring m a (n + k) = get_ring m a n ++ get_ring m (a + Z.of_nat n) k.
Proof.
  unfold get_ring. rewrite seq_app, fmap_app. f_equal. cbn [plus].
  pose proof (fmap_add_seq n 0 k) as E. rewrite Nat.add_0_r in E. rewrite <- E, <- list_fmap_compose.
  apply list_fmap_ext. intros i x Hx. cbn. f_equal. f_equal. lia.
Qed.
Lemma get_ring_append m n ws :
  get_ring (put_ring (Z.of_nat n) ws m) 0 (n + length ws) = get_ring m 0 n ++ ws.
Proof.
  rewrite get_ring_app. f_equal; [|apply get_put_ring].
  unfold get_ring. apply list_fmap_ext. intros i x Hx. cbn. apply lookup_seq in Hx as [-> Hi]. rewrite put_ring_out by lia. done.
Qed.

(** The buffer after [r] words were copied behind its data. *)
Definition grown (pitch r : Z) (data : list Z) (v : XenosVertexBuffer) : XenosVertexBuffer :=
  v <| vb_data ::= put_ring (vb_size v / 4) (take (Z.to_nat r) data) |>
    <| vb_size ::= fun s => s + r * 4 |> <| vertices ::= fun n => n + Z.quot r pitch |>.
Lemma grown_words pitch r data v : 0 < pitch -> filled pitch v -> 0 <= r <= Z.of_nat (length data) ->
  vb_words (grown pitch r data v) = vb_words v ++ take (Z.to_nat r) data.
Proof.
  intros Hp [Hs Hv] Hr. unfold vb_words, grown. cbn.
  assert (vb_size v = vb_size v / 4 * 4) as Es by (rewrite Hv; replace (vertices v * (4 * pitch)) with (vertices v * pitch * 4) by lia; rewrite Z.div_mul; lia).
  replace (Z.to_nat ((vb_size v + r * 4) / 4)) with (Z.to_nat (vb_size v / 4) + length (take (Z.to_nat r) data))%nat.
  2: { rewrite length_take, Z.div_add by lia. lia. }
  replace (vb_size v / 4) with (Z.of_nat (Z.to_nat (vb_size v / 4))) at 1 by lia. apply get_ring_append.
Qed.
Lemma grown_filled pitch r data v : 0 < pitch -> filled pitch v -> 0 <= r -> r mod pitch = 0 -> vb_size v + r * 4 <= space v ->
  filled pitch (grown pitch r data v).
Proof.
  intros Hp [Hs Hv] Hr Hm Hsp. unfold filled, grown. cbn. split; [lia|]. rewrite Z.quot_div_nonneg by lia.
  pose proof (Z.div_mod r pitch ltac:(lia)). nia.
Qed.

(** The last buffer grows. *)
Lemma building_grown xe l pl c v r data : building xe (l ++ [c]) pl -> vbs xe !! c = Some v -> 0 <= r ->
  r <= Z.of_nat (length data) -> r mod vb_current_pitch xe = 0 -> vb_size v + r * 4 <= space v ->
  let v' := grown (vb_current_pitch xe) r data v in
  building (xe <| vbs ::= <[c := v']> |>) (l ++ [c]) pl /\
  contents (<[c := v']> (vbs xe)) (l ++ [c]) = contents (vbs xe) (l ++ [c]) ++ take (Z.to_nat r) data.
Proof.
  intros [H1 H2 H3 H4 H5 H6 H7] Hv Hr Hl Hm Hfit v'.
  assert (filled (vb_current_pitch xe) v) as Hf by (apply (H6 c); [set_solver|done]).
  apply NoDup_app in H4 as (N1 & N2 & N3). pose proof N1 as N4. apply NoDup_app in N4 as (_ & N4 & _).
  assert (next v' = 0) as Hn.
  { pose proof H1 as H. apply seg_app in H as (x & _ & (-> & _ & u & Hu & E)). rewrite Hv in Hu. injection Hu as <-. exact E. }
  split; [split; cbn; try done|].
  - by eapply seg_relink.
  - apply seg_frame; [|done]. intros Hin. apply (N2 c); [set_solver|done].
  - apply NoDup_app. by split_and!.
  - intros x w Hx Hw. destruct (decide (x = c)) as [->|Hne].
    + rewrite lookup_insert_eq in Hw. injection Hw as <-. by apply grown_filled.
    + rewrite lookup_insert_ne in Hw by done. by apply (H6 x).
  - intros n s Hn'. rewrite lookup_insert_ne; [by apply H7|]. intros E. rewrite E, H7 in Hv by done. done.
  - rewrite !contents_app, <- app_assoc. f_equal.
    + apply contents_ext; [|intros x Hx; apply (seg_in _ _ _ _ x H1); set_solver]. intros x w Hx Hw. exists w.
      rewrite lookup_insert_ne; [done|]. intros <-. by apply (N4 c Hx); left.
    + unfold contents. cbn [mbind list_bind]. rewrite lookup_insert_eq, Hv. cbn [from_option]. rewrite !app_nil_r.
      by apply grown_words.
Qed.

(** Room: a turn of the loop fills it. *)
Lemma put_step_copy fuel data xe l pl : building xe l pl -> data <> [] -> 0 < room xe ->
  Z.of_nat (length data) mod vb_current_pitch xe = 0 ->
  exists xe' r, put_step fuel data xe = Ok (Some (drop r data)) xe' /\ building xe' l pl /\ (0 < r <= length data)%nat /\
    contents (vbs xe') l = contents (vbs xe) l ++ take r data /\ (drop r data = [] \/ room xe' = 0) /\
    vb_current_pitch xe' = vb_current_pitch xe /\ Z.of_nat (length (drop r data)) mod vb_current_pitch xe = 0 /\
    allocs xe' = allocs xe /\ (forall x, vb_space (vbs xe') x = vb_space (vbs xe) x).
Proof.
  intros B Hd Hr Hm. destruct (remaining_room _ _ _ B) as (R & HR & ER & Er). pose proof (b_pitch _ _ _ B) as Hp.
  pose proof B as [H1 H2 H3 H4 H5 H6 H7].
  destruct l as [|c l _] using rev_ind.
  { unfold room in Hr. cbn in H2. rewrite H2 in Hr. destruct (vbs xe !! 0); cbn in Hr; lia. }
  rewrite last_snoc in H2. cbn in H2. destruct (seg_in _ _ _ _ c H1) as [Hc [v Hv]]; [set_solver|].
  destruct (H6 c v) as [Hsz Hvt]; [set_solver|done|].
  assert (R = (space v - vb_size v) / 4) as HRv.
  { unfold nz in ER. rewrite H2, (proj2 (Z.eqb_neq c 0) Hc) in ER. cbn [negb] in ER. rewrite (bind_vb_at c v) in ER by done.
    injection ER as <-. apply Z.quot_div_nonneg; lia. }
  rewrite Z.rem_mod_nonneg in Er by lia. pose proof (Z.mod_pos_bound R (vb_current_pitch xe) Hp) as HRm.
  set (r := if Z.of_nat (length data) <? room xe then Z.of_nat (length data) else room xe).
  assert (0 < Z.of_nat (length data)) by (destruct data; [done|cbn; lia]).
  assert (0 < r <= Z.of_nat (length data) /\ r <= R /\ (Z.of_nat (length data) = r \/ r = room xe)) as (Hr1 & Hr2 & Hr3).
  { unfold r. destruct (Z.ltb_spec (Z.of_nat (length data)) (room xe)); lia. }
  assert (r mod vb_current_pitch xe = 0) as Hrm.
  { destruct Hr3 as [<-| ->]; [done|]. rewrite <- Er. rewrite Zminus_mod_idemp_r, Z.sub_diag. done. }
  assert (vb_size v + r * 4 <= space v) as Hfit by (pose proof (Z.mul_div_le (space v - vb_size v) 4); lia).
  pose (v' := grown (vb_current_pitch xe) r data v).
  exists (xe <| vbs ::= <[c := v']> |>), (Z.to_nat r). split_and!; try lia.
  - destruct data as [|x data]; [done|]. cbn [put_step]. unfold bind at 1. cbn [get].
    rewrite (bind_ok _ _ _ _ _ ER), Z.rem_mod_nonneg, Er by lia. fold r.
    unfold nz at 1. rewrite (proj2 (Z.eqb_neq r 0)) by lia. cbn [negb]. rewrite H2, (bind_vb_at c v) by done. reflexivity.
  - apply (building_grown xe l pl c v r data); try done; lia.
  - apply (building_grown xe l pl c v r data); try done; lia.
  - destruct Hr3 as [E|E]; [left; apply drop_ge; lia|right]. unfold room. cbn. rewrite H2, lookup_insert_eq.
    unfold nz. rewrite (proj2 (Z.eqb_neq c 0) Hc). cbn [negb v' grown set vb_size space].
    change (space v') with (space v). change (vb_size v') with (vb_size v + r * 4).
    rewrite Z.quot_div_nonneg by lia. replace ((space v - (vb_size v + r * 4)) / 4) with (R - r).
    2: { rewrite HRv. replace (space v - (vb_size v + r * 4)) with (space v - vb_size v + (- r) * 4) by lia. rewrite Z.div_add; lia. }
    rewrite Z.rem_mod_nonneg by lia. rewrite E, <- Er. replace (R - (R - R mod vb_current_pitch xe)) with (R mod vb_current_pitch xe) by lia.
    rewrite Z.mod_mod by lia. lia.
  - done.
  - rewrite length_drop. replace (Z.of_nat (length data - Z.to_nat r)) with (Z.of_nat (length data) - r) by lia.
    rewrite Zminus_mod, Hm, Hrm. done.
  - done.
  - intros x. by apply (vb_space_insert _ c v).
Qed.

(** The turns the loop may still need. *)
Definition need (data : list Z) (rm : Z) : nat :=
  match data with [] => 1%nat | _ => if 0 <? rm then (2 * length data)%nat else S (2 * length data) end.
Lemma need_nil rm : need [] rm = 1%nat.
Proof. done. Qed.
Lemma need_room data rm : data <> [] -> 0 < rm -> need data rm = (2 * length data)%nat.
Proof. intros Hd Hr. unfold need. rewrite (proj2 (Z.ltb_lt _ _) Hr). by destruct data. Qed.
Lemma need_full data rm : data <> [] -> rm = 0 -> need data rm = S (2 * length data).
Proof. intros Hd ->. by destruct data. Qed.

Lemma vb_room_nonneg xe l pl : building xe l pl -> 0 <= room xe.
Proof.
  intros B. destruct (remaining_room _ _ _ B) as (R & HR & _ & <-). pose proof (b_pitch _ _ _ B).
  rewrite Z.rem_mod_nonneg by lia. pose proof (Z.mod_le R (vb_current_pitch xe)). lia.
Qed.

(** Where a list of buffers comes from, one after the other. *)
Inductive sources (large : Z -> bool) : Z -> list Z -> list Z -> list Z -> Z -> Prop :=
  | sources_none n pl : sources large n pl [] pl n
  | sources_next n pl q pl1 k l pl2 k2 : source large n pl q pl1 k -> sources large k pl1 l pl2 k2 -> sources large n pl (q :: l) pl2 k2.

Lemma source_sub large n pl q pl' k : source large n pl q pl' k -> pl' ⊆ pl.
Proof. destruct 1; set_solver. Qed.
Lemma sources_ext large large' n pl l pl' k : (forall x, x ∈ pl -> large x = large' x) ->
  sources large n pl l pl' k -> sources large' n pl l pl' k.
Proof.
  intros E H. induction H as [|n pl q pl1 k l pl2 k2 H1 H2 IH]; [constructor|].
  apply (sources_next large' n pl q pl1 k).
  - assert (forall c, c ⊆ pl -> Forall (fun x => large x = false) c -> Forall (fun x => large' x = false) c) as HF.
    { intros c Hc. rewrite !Forall_forall. intros H x Hx. rewrite <- E; [by apply H|by apply Hc]. }
    destruct H1 as [a q b Ha Hq|pl Ha]; [apply source_pool|apply source_new].
    + apply HF; [set_solver|done].
    + rewrite <- E; [done|set_solver].
    + by apply HF.
  - apply IH. intros x Hx. apply E. by apply (source_sub _ _ _ _ _ _ H1).
Qed.

(** The loop runs until the data is used up. *)
Lemma put_loop fuel n data xe l pl : building xe l pl -> (length pl <= fuel)%nat ->
  Z.of_nat (length data) mod vb_current_pitch xe = 0 -> (need data (room xe) <= n)%nat ->
  exists xe' l' pl', while n (put_step fuel) data xe = Ok [] xe' /\ building xe' (l ++ l') pl' /\
    contents (vbs xe') (l ++ l') = contents (vbs xe) l ++ data /\ vb_current_pitch xe' = vb_current_pitch xe /\
    sources (pool_large xe) (allocs xe) pl l' pl' (allocs xe').
Proof.
  revert data xe l pl. induction n as [|n IH]; intros data xe l pl B Hf Hm Hn.
  { unfold need in Hn. destruct data; [lia|]. cbn in Hn. case_match; lia. }
  cbn [while]. destruct (decide (data = [])) as [->|Hd].
  { exists xe, [], pl. rewrite !app_nil_r. split_and!; try done. constructor. }
  destruct (decide (room xe = 0)) as [Hr|Hr].
  - rewrite need_full in Hn by done.
    destruct (put_step_alloc fuel data xe l pl B Hd Hr Hf) as (x1 & q & pl1 & E1 & B1 & C1 & R1 & P1 & F1 & S1 & V1).
    destruct (IH data x1 (l ++ [q]) pl1 B1 F1) as (x2 & l2 & pl2 & E2 & B2 & C2 & P2 & S2); [by rewrite P1|rewrite need_room; [lia|done..]|].
    exists x2, ([q] ++ l2), pl2. rewrite (bind_ok _ _ _ _ _ E1), app_assoc, C2, C1, P2. split_and!; try done.
    eapply sources_next; [exact S1|]. eapply sources_ext; [|exact S2]. intros x Hx. unfold pool_large, holds_bytes. by rewrite V1, P1.
  - pose proof (vb_room_nonneg _ _ _ B). rewrite need_room in Hn by (done || lia).
    destruct (put_step_copy fuel data xe l pl B Hd ltac:(lia) Hm) as (x1 & r & E1 & B1 & Hr1 & C1 & R1 & P1 & M1 & A1 & V1).
    destruct (IH (drop r data) x1 l pl B1 Hf) as (x2 & l2 & pl2 & E2 & B2 & C2 & P2 & S2); [by rewrite P1| |].
    { destruct R1 as [R1|R1]; [rewrite R1, need_nil; lia|]. destruct (decide (drop r data = [])) as [E|E]; [rewrite E, need_nil; lia|].
      rewrite need_full by done. rewrite length_drop in *. lia. }
    exists x2, l2, pl2. rewrite (bind_ok _ _ _ _ _ E1), C2, C1, P2, <- app_assoc, take_drop. split_and!; try done.
    rewrite A1 in S2. eapply sources_ext; [|exact S2]. intros x Hx. unfold pool_large, holds_bytes. by rewrite V1, P1.
Qed.

(** C14: [Xe_VBPut] of a whole number of vertices returns, however full the
    last buffer is and whatever buffers the pool has, and appends exactly the
    data, in order, to the words of the list of buffers, each of which stays
    within its memory and holds whole vertices; none is ever in both lists.
    Each buffer added is the first of the pool that is large enough, which then
    leaves the pool, and only when the pool has none is it a new one from
    [malloc] ([sources]). *)
Theorem vbput_appends fuel data xe l pl : building xe l pl -> (length pl <= fuel)%nat ->
  Z.of_nat (length data) mod vb_current_pitch xe = 0 ->
  exists xe' l' pl', Xe_VBPut fuel data xe = Ok tt xe' /\ building xe' (l ++ l') pl' /\
    contents (vbs xe') (l ++ l') = contents (vbs xe) l ++ data /\
    sources (pool_large xe) (allocs xe) pl l' pl' (allocs xe').
Proof.
  intros B Hf Hm. pose proof (b_pitch _ _ _ B) as Hp.
  destruct (put_loop fuel (S (2 * length data)) data xe l pl B Hf Hm) as (x & l' & pl' & E & B' & C & _ & S).
  { unfold need. destruct data; [lia|]. case_match; lia. }
  exists x, l', pl'. split_and!; [|done..]. unfold Xe_VBPut. unfold bind at 1. cbn [gets].
  unfold nz. rewrite (proj2 (Z.eqb_neq _ 0)) by lia. cbn [negb]. unfold bind at 1. cbn [ret].
  rewrite Z.rem_mod_nonneg, Hm by lia. unfold bind at 1. cbn [negb Z.eqb ret]. by rewrite (bind_ok _ _ _ _ _ E).
Qed.
End platform.
