(* ===== verification/XeFormat.v ===== *)
(** * Graphics driver: textures and vertex formats

    What the words given to the chip say about a texture and about the
    elements of a vertex, and where they do not say what was asked for. *)
From S2P Require Import Prelude Bits Xe XeGpu XeSync XeFacts XeMarks XeCalls XeOps.

(** ** Rows of a texture *)

(** The chip is told the length of a row in units of [pitch_unit] bytes. *)
Definition chip_row (fmt_ w : Z) : option Z :=
  u ← pitch_unit fmt_; Some (Z.quot (texture_pitch w (bytes_per_pixel fmt_)) u * u).

Lemma land_lnot_mask x k : 0 <= k -> 0 <= x -> Z.land (x + (2 ^ k - 1)) (Z.lnot (2 ^ k - 1)) = (x + (2 ^ k - 1)) / 2 ^ k * 2 ^ k.
Proof.
  intros Hk Hx. replace (2 ^ k - 1) with (Z.ones k) by (rewrite Z.ones_equiv; lia).
  bitwise n Hn. rewrite Z.land_spec, Z.lnot_spec by done.
  rewrite <- Z.shiftl_mul_pow2, <- Z.shiftr_div_pow2 by done. rewrite Z.shiftl_spec by done.
  destruct (Z.lt_ge_cases n k).
  - rewrite Z.ones_spec_low by lia. rewrite andb_false_r. symmetry. apply Z.testbit_neg_r. lia.
  - rewrite Z.ones_spec_high by lia. rewrite Z.shiftr_spec by lia. rewrite andb_true_r. f_equal. lia.
Qed.

(** The pitch of a texture rounds its row up to a power of two bytes. *)
Lemma texture_pitch_round w k : 0 <= w -> 0 <= k <= 3 ->
  let n := 2 ^ (7 - k) in texture_pitch w (2 ^ k) = (w * 2 ^ k + (n - 1)) / n * n.
Proof.
  intros Hw Hk n. unfold texture_pitch. replace (128 / 2 ^ k - 1) with (2 ^ (7 - k) - 1).
  - apply land_lnot_mask; [lia|]. assert (0 < 2 ^ k) by (apply Z.pow_pos_nonneg; lia). nia.
  - assert (k = 0 \/ k = 1 \/ k = 2 \/ k = 3) as [->|[->|[->| ->]]] by lia; done.
Qed.

Lemma pitch_multiple w k u : 0 <= w -> 0 <= k <= 3 -> 0 < u -> (2 ^ (7 - k)) mod u = 0 ->
  Z.quot (texture_pitch w (2 ^ k)) u * u = texture_pitch w (2 ^ k).
Proof.
  intros Hw Hk Hu Hm. rewrite texture_pitch_round by done. cbv zeta. set (n := 2 ^ (7 - k)) in *.
  assert (0 < n) by (apply Z.pow_pos_nonneg; lia). assert (0 < 2 ^ k) by (apply Z.pow_pos_nonneg; lia).
  set (q := (w * 2 ^ k + (n - 1)) / n). assert (0 <= q) by (apply Z.div_pos; nia). clearbody q n.
  apply Z.mod_divide in Hm as [c ->]; [|lia]. rewrite Z.mul_assoc, Z.quot_mul by lia. done.
Qed.

(** One and two bytes a pixel: the chip's row is the row in memory. *)
Theorem row_exact_small fmt_ w : 0 <= w -> fmt_ .& XE_FMT_MASK = XE_FMT_8 \/ fmt_ .& XE_FMT_MASK = XE_FMT_5551 \/
  fmt_ .& XE_FMT_MASK = XE_FMT_565 -> chip_row fmt_ w = Some (texture_pitch w (bytes_per_pixel fmt_)).
Proof.
  intros Hw H. unfold chip_row, pitch_unit, bytes_per_pixel.
  destruct H as [H|[H|H]]; rewrite H; cbn -[texture_pitch Z.quot Z.mul]; f_equal.
  - by apply (pitch_multiple w 0 32).
  - by apply (pitch_multiple w 1 64).
  - by apply (pitch_multiple w 1 64).
Qed.

(** Four bytes a pixel: a row that is no multiple of 32 pixels is cut short. *)
Theorem row_short : chip_row XE_FMT_8888 33 = Some 128 /\ texture_pitch 33 4 = 160.
Proof. done. Qed.

(** ** Textures from the fourth place on are not marked *)

Theorem texture_not_marked i t xe xe' : 3 <= i -> is_word (fetch_dirty xe) -> Z.testbit (fetch_dirty xe) i = false ->
  Xe_SetTexture i t xe = Ok tt xe' -> Z.testbit (fetch_dirty xe') i = false.
Proof.
  intros Hi Hw Hb E. apply bind_ok_inv in E as (x & x1 & E1 & E2). injection E1 as <- <-.
  apply bind_ok_inv in E2 as ([] & x1 & E1 & E2). apply bind_ok_inv in E2 as ([] & x2 & E2 & [= <-]).
  assert (fetch_dirty x1 = fetch_dirty xe) as Hf.
  { destruct (nz t); [|by apply store_ok in E1 as (_ & _ & ->)].
    apply bind_ok_inv in E1 as (s & x3 & E3 & E1). destruct (surfaces xe !! t); [|done]. injection E3 as -> <-.
    apply bind_ok_inv in E1 as (f & x3 & E3 & E1). destruct (TEXTURE_FETCH _ _ _ _ _ _ _ _ _ _ _); [|done]. injection E3 as -> <-.
    by apply store_ok in E1 as (_ & _ & ->). }
  apply (mark_spec fetch_dirty) in E2 as (v & -> & Hv & Hm);
    [|done|done|intros v0 y <-; by destruct y|lia|by rewrite Hf].
  change (Z.testbit v i = false). rewrite Hm, Hf, Hb by lia. cbn [orb]. unfold marked_bits.
  rewrite Z.quot_div_nonneg by lia. rewrite (proj2 (Z.leb_gt _ _)); [done|]. assert (i + 1 <= (i + i * 3) / 3); [|lia]. apply Z.div_le_lower_bound; lia.
Qed.

(** ** Reference value of the alpha test *)

(** Every fraction becomes 0. *)
Theorem alpharef_fraction f : 0 <= f < 0x3f800000 -> f32_to_uint f = Some 0.
Proof.
  intros Hf. unfold f32_to_uint. cbv zeta. rewrite Z.shiftr_div_pow2 by lia.
  assert (forall x, x .& 0xFF = x mod 2 ^ 8) as Ea by (intros; by apply (Z.land_ones x 8)).
  assert (forall x, x .& 0x7FFFFF = x mod 2 ^ 23) as Eb by (intros; by apply (Z.land_ones x 23)).
  rewrite Ea, Eb. clear Ea Eb.
  assert (0 <= f / 2 ^ 23 <= 126) as He.
  { split; [apply Z.div_pos; lia|]. assert (f / 2 ^ 23 < 127); [|lia]. apply Z.div_lt_upper_bound; lia. }
  rewrite (Z.mod_small (f / 2 ^ 23)) by lia. set (e := f / 2 ^ 23) in *.
  pose proof (Z.mod_pos_bound f (2 ^ 23) ltac:(lia)) as Hm. set (m := f mod 2 ^ 23) in *. clearbody e m.
  rewrite (proj2 (Z.eqb_neq e 255)) by lia.
  replace (Z.testbit f 31) with false by (symmetry; apply (high_bits f 30); lia).
  set (mm := if e =? 0 then m else 0x800000 .| m). set (d := if e =? 0 then 1 else e).
  assert (0 <= mm < 2 ^ 24) as Hmm.
  { unfold mm. destruct (e =? 0); [lia|]. rewrite (lor_add 23) by (done || lia). lia. }
  assert (d <= 126) by (unfold d; destruct (e =? 0); lia).
  assert (Z.shiftl mm (d - 150) = 0) as ->.
  { replace (d - 150) with (- (150 - d)) by lia. rewrite Z.shiftl_opp_r, Z.shiftr_div_pow2 by lia.
    apply Z.div_small. split; [lia|]. apply Z.lt_le_trans with (2 ^ 24); [lia|]. apply Z.pow_le_mono_r; lia. }
  done.
Qed.

(** ** Elements of a vertex *)

Lemma stride_nonneg l n : Xe_VBFCalcStride l = Some n -> 0 <= n.
Proof.
  revert n. induction l as [|e l IH]; intros n H; [by injection H as <-|]. cbn in H.
  destruct (Xe_VBFCalcSize e) as [k|] eqn:Ek; [|done]. cbn in H. destruct (Xe_VBFCalcStride l) as [r|] eqn:Er; [|done].
  injection H as <-. specialize (IH r eq_refl). unfold Xe_VBFCalcSize in Ek. repeat case_match; simplify_eq; lia.
Qed.

(** An element that is found lies inside the vertex, and is the one asked for. *)
Theorem element_inside l t s off e o n : Xe_VBFCalcStride l = Some n -> find_element l t s off = Some (e, o) ->
  usage e = t /\ element_index e = s /\ e ∈ l /\ exists k, Xe_VBFCalcSize e = Some k /\ off <= o /\ o + k <= off + n.
Proof.
  revert off n. induction l as [|x l IH]; intros off n Hn H; [done|]. cbn in Hn, H.
  destruct (Xe_VBFCalcSize x) as [k|] eqn:Ek; [|done]. cbn in Hn. destruct (Xe_VBFCalcStride l) as [r|] eqn:Er; [|done].
  cbn in Hn. injection Hn as <-. pose proof (stride_nonneg _ _ Er).
  assert (0 <= k) by (unfold Xe_VBFCalcSize in Ek; repeat case_match; simplify_eq; lia).
  destruct ((usage x =? t) && (element_index x =? s)) eqn:Eu.
  - apply andb_true_iff in Eu as [E1%Z.eqb_eq E2%Z.eqb_eq]. injection H as <- <-. split_and!; [done..|by left|].
    exists k. split_and!; [done|lia..].
  - cbn in H. destruct (IH (off + k) r eq_refl H) as (A1 & A2 & A3 & k' & A4 & A5 & A6). split_and!; [done..|by right|].
    exists k'. split_and!; [done|lia..].
Qed.

(** ** Vertex fetch instructions *)

(** Component [c] of a swizzle. *)
Definition swizzle (c w : Z) : Z := (w .>> (c * 3)) .& 7.
Lemma swizzle_bits c w n : 0 <= c -> 0 <= n -> Z.testbit (swizzle c w) n = Z.testbit w (n + c * 3) && (n <? 3).
Proof.
  intros Hc Hn. unfold swizzle. change 7 with (Z.ones 3). rewrite Z.land_spec, Z.shiftr_spec, Z.testbit_ones by lia.
  by rewrite (proj2 (Z.leb_le 0 n)).
Qed.
Lemma swizzle_range c w : 0 <= swizzle c w < 8.
Proof. unfold swizzle. change 7 with (Z.ones 3). rewrite Z.land_ones by lia. by apply Z.mod_pos_bound. Qed.
Lemma fix_range nr sw : 0 <= sw < 8 -> 0 <= fix_swizzle nr sw < 8.
Proof. intros. unfold fix_swizzle. repeat case_match; lia. Qed.

Lemma patch_bits nr w c k : 0 <= c <= 3 -> is_word w -> 0 <= k ->
  Z.testbit (patch_swizzle nr w c) k =
    if (c * 3 <=? k) && (k <? c * 3 + 3) then Z.testbit (fix_swizzle nr (swizzle c w)) (k - c * 3) else Z.testbit w k.
Proof.
  intros Hc Hw Hk. unfold patch_swizzle. fold (swizzle c w). pose proof (fix_range nr _ (swizzle_range c w)) as Hf.
  set (f := fix_swizzle nr (swizzle c w)) in *. clearbody f.
  rewrite Z.lor_spec, Z.land_spec, not32_testbit, !u32_bits, !Z.shiftl_spec by lia.
  assert (forall j, 3 <= j -> Z.testbit 7 j = false) as H7 by (intros; by apply (high_bits 7 3)).
  assert (forall j, 0 <= j < 3 -> Z.testbit 7 j = true) as H7' by (intros j Hj; assert (j = 0 \/ j = 1 \/ j = 2) as [->|[->| ->]] by lia; done).
  destruct (Z.leb_spec (c * 3) k), (Z.ltb_spec k (c * 3 + 3)); cbn [andb].
  - rewrite (proj2 (Z.ltb_lt k 32)), H7' by lia. cbn [andb xorb]. by rewrite andb_false_r.
  - rewrite H7, (high_bits f 3) by lia. rewrite !andb_false_r. cbn [xorb]. rewrite orb_false_r.
    destruct (Z.ltb_spec k 32); [apply andb_true_r|]. by rewrite (high_bits w 32) by (done || lia).
  - rewrite (Z.testbit_neg_r 7), (Z.testbit_neg_r f) by lia. rewrite !andb_false_r. cbn [xorb]. rewrite orb_false_r.
    rewrite (proj2 (Z.ltb_lt k 32)) by lia. apply andb_true_r.
  - lia.
Qed.
Lemma patch_word nr w c : is_word w -> is_word (patch_swizzle nr w c).
Proof. intros Hw. apply is_word_lor; [|apply is_word_u32]. rewrite Z.land_comm. by apply is_word_land. Qed.
Lemma patch_swizzle_spec nr w c c' : 0 <= c <= 3 -> 0 <= c' <= 3 -> is_word w ->
  swizzle c' (patch_swizzle nr w c) = if c' =? c then fix_swizzle nr (swizzle c w) else swizzle c' w.
Proof.
  intros Hc Hc' Hw. bitwise n Hn. rewrite swizzle_bits, patch_bits by lia || done.
  pose proof (fix_range nr _ (swizzle_range c w)) as Hf.
  destruct (Z.eqb_spec c' c) as [->|Hne].
  - destruct (Z.ltb_spec n 3).
    + rewrite (proj2 (Z.leb_le _ _)), (proj2 (Z.ltb_lt _ _)) by lia. cbn [andb]. rewrite andb_true_r. f_equal. lia.
    + rewrite andb_false_r. symmetry. apply (high_bits _ 3); lia.
  - rewrite swizzle_bits by lia. destruct (Z.ltb_spec n 3); [|by rewrite !andb_false_r].
    replace ((c * 3 <=? n + c' * 3) && (n + c' * 3 <? c * 3 + 3)) with false; [done|].
    destruct (Z.leb_spec (c * 3) (n + c' * 3)), (Z.ltb_spec (n + c' * 3) (c * 3 + 3)); try done; lia.
Qed.

(** The four components, one after the other. *)
Lemma patch_all nr w c : 0 <= c <= 3 -> is_word w ->
  swizzle c (foldl (patch_swizzle nr) w [0; 1; 2; 3]) = fix_swizzle nr (swizzle c w).
Proof.
  intros Hc Hw. cbn [foldl]. pose proof (patch_word nr w 0 Hw) as W0. pose proof (patch_word nr _ 1 W0) as W1.
  pose proof (patch_word nr _ 2 W1) as W2.
  assert (c = 0 \/ c = 1 \/ c = 2 \/ c = 3) as [->|[->|[->| ->]]] by lia;
    repeat (rewrite patch_swizzle_spec by (done || lia); cbn [Z.eqb Pos.eqb]); done.
Qed.
Lemma patch_all_high nr w k : is_word w -> 12 <= k -> Z.testbit (foldl (patch_swizzle nr) w [0; 1; 2; 3]) k = Z.testbit w k.
Proof.
  intros Hw Hk. cbn [foldl]. pose proof (patch_word nr w 0 Hw) as W0. pose proof (patch_word nr _ 1 W0) as W1.
  pose proof (patch_word nr _ 2 W1) as W2.
  rewrite !patch_bits by (done || lia). rewrite !(proj2 (Z.ltb_ge _ _)) by lia. by rewrite !andb_false_r.
Qed.

(** A mask of [n] bits from bit [k] on. *)
Lemma mask_bits k n j : 0 <= k -> 0 <= n -> k + n <= 32 -> 0 <= j ->
  Z.testbit (Z.ones n .<< k) j = (k <=? j) && (j <? k + n).
Proof.
  intros Hk Hn H32 Hj. rewrite u32_bits, Z.shiftl_spec by done. destruct (Z.leb_spec k j).
  - rewrite Z.testbit_ones by lia. rewrite (proj2 (Z.leb_le 0 (j - k))) by lia. cbn [andb].
    destruct (Z.ltb_spec (j - k) n), (Z.ltb_spec j (k + n)), (Z.ltb_spec j 32); done || lia.
  - rewrite Z.testbit_neg_r by lia. apply andb_false_r.
Qed.
Lemma shifted_bits v k n j : 0 <= v < 2 ^ n -> 0 <= n -> 0 <= k -> k + n <= 32 -> 0 <= j ->
  Z.testbit (v .<< k) j = Z.testbit v (j - k) && ((k <=? j) && (j <? k + n)).
Proof.
  intros Hv Hn Hk H32 Hj. rewrite u32_bits, Z.shiftl_spec by done.
  destruct (Z.leb_spec k j), (Z.ltb_spec j (k + n)); cbn [andb].
  - rewrite (proj2 (Z.ltb_lt j 32)) by lia. by rewrite andb_true_r.
  - rewrite andb_false_r, (high_bits v n) by lia. apply andb_false_r.
  - rewrite andb_false_r, Z.testbit_neg_r by lia. apply andb_false_r.
  - lia.
Qed.
(** Reading back the field of [n] bits at bit [k]. *)
Lemma field_read w v k n : 0 <= k -> 0 <= n -> k + n <= 32 -> 0 <= v < 2 ^ n ->
  (forall j, 0 <= j < n -> Z.testbit w (j + k) = Z.testbit v j) -> (w .& (Z.ones n .<< k)) .>> k = v.
Proof.
  intros Hk Hn H32 Hv H. bitwise j Hj. rewrite Z.shiftr_spec, Z.land_spec, mask_bits by lia.
  rewrite (proj2 (Z.leb_le k (j + k))) by lia. cbn [andb]. destruct (Z.ltb_spec (j + k) (k + n)).
  - rewrite andb_true_r. apply H. lia.
  - rewrite andb_false_r. symmetry. apply (high_bits v n); lia.
Qed.

(** The word of the vertex fetch that carries offset and stride. *)
Lemma vfetch_place_bits w2 offset stride j : 0 <= offset < 2 ^ 23 -> 0 <= stride < 2 ^ 8 -> 0 <= j < 32 ->
  Z.testbit ((w2 .& not32 (0x7fffff00 .| 0xff)) .| (offset .<< 8) .| stride) j =
    if j <? 8 then Z.testbit stride j else if j <? 31 then Z.testbit offset (j - 8) else Z.testbit w2 j.
Proof.
  intros Ho Hs Hj. change (0x7fffff00 .| 0xff) with (Z.ones 31 .<< 0).
  rewrite !Z.lor_spec, Z.land_spec, not32_testbit, mask_bits, (shifted_bits offset 8 23) by lia.
  rewrite (proj2 (Z.leb_le 0 j)), (proj2 (Z.ltb_lt j 32)) by lia. cbn [andb].
  change (0 + 31) with 31. change (8 + 23) with 31.
  destruct (Z.ltb_spec j 8).
  - rewrite (proj2 (Z.ltb_lt j 31)), (proj2 (Z.leb_gt 8 j)) by lia. cbn [andb xorb]. by rewrite !andb_false_r.
  - rewrite (proj2 (Z.leb_le 8 j)), (high_bits stride 8), orb_false_r by lia.
    destruct (Z.ltb_spec j 31); cbn [andb xorb]; rewrite ?andb_false_r, ?andb_true_r, ?orb_false_r; done.
Qed.

(** Settles the comparisons of a goal that [lia] decides. *)
Ltac compare_all :=
  repeat match goal with
  | |- context [?a <=? ?b] => first [rewrite (proj2 (Z.leb_le a b)) by lia | rewrite (proj2 (Z.leb_gt a b)) by lia]
  | |- context [?a <? ?b] => first [rewrite (proj2 (Z.ltb_lt a b)) by lia | rewrite (proj2 (Z.ltb_ge a b)) by lia]
  | |- context [?a =? ?b] => first [rewrite (proj2 (Z.eqb_eq a b)) by lia | rewrite (proj2 (Z.eqb_neq a b)) by lia]
  end.

(** The word that carries format and swizzle, before the swizzle is changed. *)
Definition vfetch_format_word (w1 f numformat : Z) : Z :=
  (w1 .& not32 (0x003f0000 .| 0x1000 .| 0x2000 .| 0x40000000)) .| (f .<< 16) .| (0 .<< 12) .| (numformat .<< 13) .| (0 .<< 30).
Lemma vfetch_format_bits w1 f numformat j : 0 <= f < 2 ^ 6 -> 0 <= numformat < 2 ^ 1 -> 0 <= j < 32 ->
  Z.testbit (vfetch_format_word w1 f numformat) j =
    if j <? 12 then Z.testbit w1 j else if (16 <=? j) && (j <? 22) then Z.testbit f (j - 16) else
    if j =? 13 then Z.testbit numformat 0 else if (j =? 12) || (j =? 30) then false else Z.testbit w1 j.
Proof.
  intros Hf Hn Hj. unfold vfetch_format_word.
  change (0x003f0000 .| 0x1000 .| 0x2000 .| 0x40000000) with ((Z.ones 6 .<< 16) .| (Z.ones 2 .<< 12) .| (Z.ones 1 .<< 30)).
  rewrite !Z.lor_spec, Z.land_spec, not32_testbit, !Z.lor_spec, !mask_bits, (shifted_bits f 16 6), (shifted_bits numformat 13 1) by lia.
  change (0 .<< 12) with 0. change (0 .<< 30) with 0. rewrite Z.bits_0, !orb_false_r, (proj2 (Z.ltb_lt j 32)) by lia.
  change (16 + 6) with 22. change (12 + 2) with 14. change (30 + 1) with 31. change (13 + 1) with 14.
  assert (j < 12 \/ j = 12 \/ j = 13 \/ 14 <= j < 16 \/ 16 <= j < 22 \/ 22 <= j < 30 \/ j = 30 \/ j = 31)
    as [?|[->|[->|[?|[?|[?|[->| ->]]]]]]] by lia; compare_all; cbn [andb orb xorb];
    rewrite ?andb_false_r, ?andb_true_r, ?orb_false_r; done.
Qed.
Lemma vfetch_format_is_word w1 f numformat : 0 <= f < 2 ^ 6 -> 0 <= numformat < 2 ^ 1 -> is_word w1 ->
  is_word (vfetch_format_word w1 f numformat).
Proof.
  intros Hf Hn Hw. unfold vfetch_format_word. repeat apply is_word_lor; try apply is_word_u32.
  rewrite Z.land_comm. by apply is_word_land.
Qed.

(** A vertex fetch instruction that was patched reads the element where the
    format puts it: its offset and stride fields are those of the vertex, its
    format field that of the element, the rest of its word stays, and no
    component of its swizzle names a component the element does not have. *)
Theorem vfetch_patched stride offset f nr w0 w1 w2 :
  is_word w1 -> 0 <= offset < 2 ^ 23 -> 0 <= stride < 2 ^ 8 -> 0 <= f < 2 ^ 6 ->
  let '(x0, x1, x2) := patch_vfetch stride offset f nr (w0, w1, w2) in
  x2 .& 0xff = stride /\ (x2 .& 0x7fffff00) .>> 8 = offset /\ Z.testbit x2 31 = Z.testbit w2 31 /\
  (x1 .& 0x3f0000) .>> 16 = f /\
  (forall c, 0 <= c <= 3 -> swizzle c x1 = fix_swizzle nr (swizzle c w1)) /\
  (forall c, 0 <= c <= 3 -> swizzle c x1 < 4 -> swizzle c x1 < nr).
Proof.
  intros H1 Ho Hs Hf. unfold patch_vfetch. cbv zeta. fold (vfetch_format_word w1 f (if f =? 6 then 0 else 1)).
  set (nf := if f =? 6 then 0 else 1). assert (0 <= nf < 2 ^ 1) as Hnf by (unfold nf; destruct (f =? 6); lia). clearbody nf.
  pose proof (vfetch_format_is_word w1 f nf Hf Hnf H1) as Hw.
  assert (forall c, 0 <= c <= 3 -> swizzle c (vfetch_format_word w1 f nf) = swizzle c w1) as Hsw.
  { intros c Hc. bitwise j Hj. rewrite !swizzle_bits by lia. destruct (Z.ltb_spec j 3); [|by rewrite !andb_false_r].
    rewrite vfetch_format_bits, (proj2 (Z.ltb_lt _ 12)) by lia. done. }
  split_and!.
  - rewrite <- (Z.shiftr_0_r (_ .& 0xff)). apply (field_read _ _ 0 8); [lia..|]. intros j Hj.
    rewrite vfetch_place_bits, (proj2 (Z.ltb_lt _ 8)) by lia. f_equal. lia.
  - apply (field_read _ _ 8 23); [lia..|]. intros j Hj.
    rewrite vfetch_place_bits, (proj2 (Z.ltb_ge _ 8)), (proj2 (Z.ltb_lt _ 31)) by lia. f_equal. lia.
  - by rewrite vfetch_place_bits by lia.
  - apply (field_read _ _ 16 6); [lia..|]. intros j Hj. rewrite patch_all_high, vfetch_format_bits by (done || lia).
    rewrite (proj2 (Z.ltb_ge _ 12)), (proj2 (Z.leb_le 16 _)), (proj2 (Z.ltb_lt _ 22)) by lia. cbn [andb]. f_equal. lia.
  - intros c Hc. rewrite patch_all by done. by rewrite Hsw.
  - intros c Hc. rewrite patch_all by done. unfold fix_swizzle. repeat case_match; lia.
Qed.
