(* ===== verification/XeExamples.v ===== *)
(** * Graphics driver: the theorems at concrete devices

    A device with one shader, whose file has a table of constants, a platform
    whose memory is handed out once, and a chip that is ready at once. *)
From S2P Require Import Prelude Bits Xe XeGpu XeSync XeFacts XeMarks XeCalls XeState XeDraw XeOps XeInit XeRing XeVb.

(** A shader file: four words of constants for register 0. *)
Definition demo_file : list Z :=
  [0; 0; 0; 0; 0; 0; 0; 72] ++ replicate 15 0 ++ [28] ++ replicate 24 0 ++
  [0; 0; 0; 4; 0; 0; 0; 0] ++ replicate 16 0 ++ [63; 128; 0; 0; 63; 128; 0; 0; 0; 0; 0; 0; 63; 128; 0; 0].
Definition demo_shader : XenosShader :=
  mkShader demo_file (0x1000 :: replicate 15 0) 64 0x10000 2 (0x80001000 :: replicate 15 0).
Lemma demo_shader_good : good_shader demo_shader.
Proof.
  split_and!; [|done|done|].
  - intros xe. destruct (Xe_pUploadShaderConstants demo_shader xe) as [[] x| | |] eqn:E; [by exists x|..];
      exfalso; vm_compute in E; discriminate E.
  - by repeat constructor.
Qed.

Definition demo_blank : XenosDevice :=
  mkXe [] [] 0 0 [] [] [] [] 0
    0 0 0 0 0 ∅ ∅ 0 0 0 0 0 0 0 0 0 0 0 0 0 0 0 0 0 0 0 0 0 0 0 0 0 0 0 0 [] 0
    {[0x100 := demo_shader]} ∅ ∅ ∅ [] 0 0 ∅.
Definition demo_xe : XenosDevice := zero_device demo_blank.
Lemma demo_shaders p s : shaders demo_blank !! p = Some s -> good_shader s.
Proof.
  intros Hs. change (({[0x100 := demo_shader]} : gmap Z XenosShader) !! p = Some s) in Hs.
  apply lookup_singleton_Some in Hs as [<- <-]. exact demo_shader_good.
Qed.
Lemma demo_xe_wf : wf demo_xe.
Proof. apply zero_device_wf, demo_shaders. Qed.
Definition after {A} (m : XM A) (xe : XenosDevice) : XenosDevice := match m xe with Ok _ x => x | _ => xe end.

Definition returns {A} (m : XM A) (xe : XenosDevice) : bool := match m xe with Ok _ _ => true | _ => false end.
Lemma after_ok (m : XM unit) xe : returns m xe = true -> m xe = Ok tt (after m xe).
Proof. unfold returns, after. by destruct (m xe) as [[]| | |]. Qed.
Lemma calls_ok_after c l xe : call_ok xe c -> calls_ok l (after (do_call c) xe) -> calls_ok (c :: l) xe.
Proof. intros H1 H2. split; [done|]. intros x E. unfold after in H2. by rewrite E in H2. Qed.

(** Shaders and state are set, two triangles drawn, the state changed. *)
Definition demo_program : list xe_call :=
  [SetShader SHADER_TYPE_PIXEL 0x100 0; SetShader SHADER_TYPE_VERTEX 0x100 0; SetZFunc 3; SetScissor 1 0 0 640 480;
   DrawPrimitive 4 0 2; SetZFunc 7].
Definition demo_xe1 : XenosDevice := after Xe_InvalidateState demo_xe.
Definition demo_xe2 : XenosDevice := after (do_calls demo_program) demo_xe1.

Definition demo_gpu : simple_gpu := mkGpu (fun _ => 0x55) (fun _ => (0, 0)) [].


(** What was put is handed to the chip. *)
Definition demo_xe3 : XenosDevice := after (Xe_DrawPrimitive 4 0 1) demo_xe2.
Lemma kick_delivers_demo : exists xe', Xe_pRBKick demo_xe3 = Ok tt xe' /\
  pget (rb_primary xe') 0 46 = kick_words (u32 (rb_secondary_base demo_xe3)) (rb_secondary_wptr demo_xe3) /\
  rb_primary_wptr xe' = 46.
Proof.
  destruct (kick_delivers demo_xe3) as (xe' & E1 & E2 & E3 & _).
  - vm_compute. discriminate.
  - vm_compute. reflexivity.
  - split; [vm_compute; discriminate|vm_compute; reflexivity].
  - exists xe'. split; [exact E1|]. split; [exact E2|]. exact E3.
Defined.

(** Allocations are numbered; the chip is ready at once. *)
Definition demo_platform : Platform := {|
  pf_memalign n a s := 0x80000000 + Z.abs n * 0x400000;
  pf_malloc n s := 2 * n + 1;
  pf_read w n o := if o =? 0x07d8 then 0x10000000 else if o =? 0x6134 then 1280 else if o =? 0x6138 then 720 else 0 |}.

Lemma xe_init_wf_demo : exists xe', @Xe_Init demo_platform 1 [0x1234; 0x5678] [0; 0; 0] demo_blank = Ok tt xe' /\ wf xe' /\
  vp_xres xe' = 1280.
Proof.
  exists (after (@Xe_Init demo_platform 1 [0x1234; 0x5678] [0; 0; 0]) demo_blank).
  assert (@Xe_Init demo_platform 1 [0x1234; 0x5678] [0; 0; 0] demo_blank =
    Ok tt (after (@Xe_Init demo_platform 1 [0x1234; 0x5678] [0; 0; 0]) demo_blank)) as E
    by (apply after_ok; vm_compute; reflexivity).
  split; [exact E|]. split.
  - apply (@xe_init_wf demo_platform 1 [0x1234; 0x5678] [0; 0; 0] demo_blank _ demo_shaders E).
  - vm_compute. reflexivity.
Defined.

(** A buffer with room for one more vertex of four words, one in the pool. *)
Lemma demo_platform_ok : @PlatformOk demo_platform.
Proof. constructor; cbn; intros; lia. Qed.

Definition demo_vbs : gmap Z XenosVertexBuffer :=
  {[8 := mkVB 0x8000 1 16 32 0x80008000 {[0 := 1; 1 := 2; 2 := 3; 3 := 4]} no_lock 0;
    6 := mkVB 0x9000 5 80 24000 0x80009000 ∅ no_lock 0]}.
Definition demo_building : XenosDevice :=
  demo_xe <| vbs := demo_vbs |> <| vb_head := 8 |> <| vb_current := 8 |> <| vb_pool := 6 |> <| vb_current_pitch := 4 |>.
Lemma demo_is_building : @building demo_platform demo_building [8] [6].
Proof.
  constructor; try done.
  - split_and!; [done..|]. eexists. by split.
  - split_and!; [done..|]. eexists. by split.
  - apply NoDup_cons. split; [by intros ?%list_elem_of_singleton|]. apply NoDup_singleton.
  - intros q v ->%list_elem_of_singleton [= <-]. done.
  - intros n s Hn. change (demo_vbs !! (2 * n + 1) = None). unfold demo_vbs. rewrite lookup_insert_ne by lia. apply lookup_singleton_ne. lia.
Qed.

Lemma vbput_appends_demo : exists xe' l' pl', @Xe_VBPut demo_platform 1 [5; 6; 7; 8; 9; 10; 11; 12] demo_building = Ok tt xe' /\
  @building demo_platform xe' ([8] ++ l') pl' /\ contents (vbs xe') ([8] ++ l') = [1; 2; 3; 4; 5; 6; 7; 8; 9; 10; 11; 12] /\
  @sources demo_platform (pool_large demo_building) 0 [6] l' pl' (allocs xe').
Proof.
  apply (@vbput_appends demo_platform demo_platform_ok 1 [5; 6; 7; 8; 9; 10; 11; 12] demo_building [8] [6]).
  - exact demo_is_building.
  - cbn. lia.
  - done.
Defined.
